(* ===== verification/_CoqProject ===== *)
-Q . S2P
Prelude.v
NumberSet.v
Wait.v
Bpf.v
Seccomp.v
Util.v
Xlat.v
Trie.v
Filters.v
Quote.v
UCopy.v
PrintStr.v
Style.v
Dump.v
Arena.v
Tcb.v
PrintArray.v
Nlattr.v
Netlink.v
Sockets.v
PathTrace.v
Signals.v
Tracee.v
Syscall.v
Decode.v
SysFs.v
SysMisc.v
SysProc.v
Decoders.v
Msghdr.v
Dirent.v
Select.v
Qualify.v
MmapCache.v
Count.v
Pidns.v
Event.v
EventFacts.v
Scenarios.v
