(* ===== verification/Prelude.v ===== *)
(** * A verification of strace

    strace attaches to processes with ptrace, waits for their stops, decodes
    the syscalls at entry and exit, may tamper with them, and prints one line
    for each.  This library models the parts that carry its logic and proves
    that they do what they mean to.

    ** The program and the files

    - The tracer.  [Tcb] has the state strace keeps (struct tcb, the table of
      tcbs, the queue of collected events, the options), the interface
      [Machine] through which every request to the kernel goes, and the state
      monad in which src/strace.c and src/syscall.c are translated.  [Tracee]
      has the output primitives, alloctcb, pid2tcb, droptcb and detach;
      [Syscall] the entering and exiting phases of src/syscall.c with the
      injection of errors, results, signals, delays and pokes; [Event]
      next_event, dispatch_event, the delay timer and cleanup; [EventFacts]
      what the loop guarantees; [Scenarios] whole runs on a scripted kernel.
      [Wait] has the wait statuses and numbers of the Linux ABI.
    - Selection.  [NumberSet] is src/number_set.c; [Filters] the parser of sets
      (src/basic_filters.c, src/string_to_uint.c); [Qualify] every option of -e
      (src/filter_qualify.c); [Arena] the checked allocators and the tables of
      injected values (src/xmalloc.c, src/retval.c, src/delay.c, src/poke.c).
      [PathTrace] is -P (src/pathtrace.c).
    - Seccomp.  [Seccomp] has the two generators of BPF programs of
      src/filter_seccomp.c, the choice between them and the probe of the order
      of stops; [Bpf] the interface of the kernel's interpreter.
    - Memory of a tracee.  [UCopy] is src/ucopy.c with its page cache and the
      word-by-word access; [MmapCache] the cache of /proc/ID/maps
      (src/mmap_cache.c).
    - Printing.  [Xlat] names constants and flags (src/xlat.c); [Quote] quotes
      strings; [PrintStr] prints strings, paths and bytes of a tracee; [Dump]
      is the hexadecimal dump of -e read and write; [PrintArray] fetches
      objects and prints arrays (all of src/util.c); [Signals] prints signals
      and sets of signals (src/signal.c).  [Style] has the functions that
      print punctuation and names, with colours and hyperlinks
      (src/print_fields.c, src/color.c, src/hyperlink.c).
    - Decoders of syscalls.  [Decode] has the monad in which they are
      translated, the functions they print with (src/util.c, src/defs.h,
      src/print_fields.h, src/open.c, src/printmode.c, src/print_dev_t.c), and
      a grammar of what may be printed; [SysFs] the decoders of syscalls on
      files, file systems and descriptors, [SysMisc] those on the system,
      descriptors and IPC, [SysProc] those on memory, processes, time,
      scheduling and input and output; [Decoders] the table of them.
      [Msghdr] has sendmsg and recvmsg with the control messages, whose reads
      of the tracer's copy are checked (src/msghdr.c); [Dirent] has getdents,
      getdents64 and readdir (src/xgetdents.c, src/dirent.c, src/dirent64.c);
      [Select] has select, poll and sets of processors (src/desc.c, src/poll.c,
      src/affinity.c), with the buffer of what is ready, writes to which are
      checked.
    - Netlink.  [Nlattr] walks over the attributes of a message in the memory
      of a tracee and has the decoders of simple types (src/nlattr.c);
      [Netlink] walks over the messages, with their types, flags and errors
      (src/netlink.c).  Both loops are one generic definition.  [Sockets] asks
      the kernel for the names of sockets and of generic netlink families,
      parses the answers and keeps them (src/socketutils.c, src/dyxlat.c).
    - Data and statistics.  [Trie] is src/trie.c; [Util] has times, bit
      scanning and logarithms; [Count] the counters of -c (src/count.c);
      [Pidns] the translation of process ids between namespaces
      (src/pidns.c).

    Names of definitions are those of the source.  A part of a function that
    is a definition of its own is named after what it does ([array_loop],
    [parse_when]).

    ** Conventions

    A w-bit integer is a [Z]; wrap-around is written out with [uint] and
    [sint].  Where the source cannot overflow, or where the values are times,
    integers are unbounded.  Text is [string], bytes and quoted text are lists
    of codes.  error_msg_and_die is the value [Die] of [outcome], or [Fatal] in the
    monad of the tracer.  Pointers to tcbs are indices of the table.  Static
    buffers whose old contents could leak into a result ([UCopy], [PrintStr],
    [Dump]) are part of the state.  Memory got from realloc holds anything.

    What is not code of strace is an interface: [Machine] (kernel requests and
    registers), [TraceeMemory] (process_vm_readv, PTRACE_PEEKDATA), [BpfMachine]
    (the BPF interpreter), [NetlinkSocket] (sendmsg and recvmsg), [SyscallTables] and [QualifyTables] (the generated
    tables of syscalls, signals and errors, regular expressions, floating
    point).  Laws about them are documented behaviour, and each has a concrete
    instance.

    Fuel.  Loops that wait for the kernel take [fuel], and running out of it is
    an outcome of its own that no theorem counts as success: how often the
    kernel lets a loop go on is not bounded.  All other fuel is computed from the data and proved to be
    enough: the size in bits for next_set_bit, the length of the table for the
    binary searches, the number of keys for trie_iterate_keys, the length for
    dumps and arrays, the length of the buffer for netlink, eight for nested
    netlink errors (the limit of the source), the length in bytes for control
    messages and directory entries, the number of bits for sets of descriptors,
    27 for the size of a set of processors, which doubles from 2^7 until it
    leaves 32 bits.

    ** The theorems

    - The loop keeps the table and the queue consistent whatever the kernel
      answers; every status waited for is kept for its tracee, in order; a
      stopped tracee is restarted once, with the signal its event asks for;
      delayed tracees are restarted when their time has come.  Entry and exit
      stops alternate, an injected result is stored entirely or not at all, and
      the when= counters follow the expression as it was written.
    - Sets, tries and counters refine finite sets, finite maps and folds over
      the events.  The parsers make the sets that a specification denotes and
      die exactly when it denotes none.
    - An installed seccomp filter stops a tracee exactly at the syscalls that
      are traced; both generators are correct for every set.
    - Reads through the page cache give the bytes of the memory; printed
      strings, paths and flags read back; array and dump loops print what a
      reference on the whole data prints; buffers are never overrun.
    - The walks over netlink messages and attributes end and stay inside the
      buffer whatever it holds, and show exactly the messages encoded there.
    - Whatever the kernel answers about a socket, nothing outside of the
      messages received is read, and no socket gets the name of another one;
      the table of netlink families is what the kernel lists.
    - Escape sequences are only decoration: with any colours and hyperlinks a
      terminal shows the text that is printed without them.
    - Decoders print by the grammar: whatever the arguments, the memory and
      the kernel's answers are, a decoder of the table ends, closes what it opens,
      separates values, and names exactly the arguments listed for it.  The walk
      over the control messages of a socket stays inside the copy and ends, in
      as many rounds as the copy has bytes at most, unless a length wraps around;
      the walk over directory entries always ends, in as many rounds as the
      buffer has bytes, and shows exactly the entries that the kernel stored.
      The texts of select and poll fit into their buffer, and select names
      exactly the descriptors that are ready.
    - Translated process ids are confirmed by /proc whatever the caches hold,
      and the caches never point to freed memory.
    - Searches of tables and mappings agree with linear search.
    - Theorems about the places where the code does not do what it means to:
      trie_iterate_keys with 64-bit keys, the stale extra event, the counters
      of unknown syscalls beyond the sixteenth, a control message that stops the
      tracer, a stray bracket of select, the buffer of sets of signals
      in the verbose style, the attributes of netlink errors, a name read past its end, and others.

    ** Not modelled

    The decoders of syscalls that are not in [Decoders], [Msghdr], [Dirent] or
    [Select], and those of ioctls and netlink families, each of which composes the printing
    functions above for one kernel structure; in [Syscall] a decoder is an
    operation that gives a text and a format.  In [Decode] the functions of
    files that are not modelled there print one value, and structures have the
    layout of x86_64 where it depends on the architecture.  The tables under src/xlat and src/linux, which are data.
    Register access of the architectures: part of [Machine].  Start-up: option
    parsing, starting and attaching to processes, opening output files
    (init, startup_child, startup_attach of src/strace.c).  Stack traces,
    which call libunwind or libdw, and security contexts (libselinux).
    The printed form of the -c summary and times with a fraction, which are
    floating point.  The compatibility layouts of structures (mpers). *)

From stdpp Require Export prelude.
From stdpp Require Export strings.
From Stdlib Require Export ZArith Lia Bool List.
Export ListNotations.

Open Scope Z_scope.

(** ** Fatal errors

    [error_msg_and_die] (and the [die_out_of_memory] wrapper) never return.
    A C function that can reach them is translated into a function into
    [outcome]; the monad instances give it stdpp's [x ← e; k] notation. *)

Inductive outcome (A : Type) : Type :=
  | Ret (a : A)
  | Die (msg : string).
Arguments Ret {A} a.
Arguments Die {A} msg.

#[export] Instance outcome_ret : MRet outcome := fun A a => Ret a.
#[export] Instance outcome_bind : MBind outcome :=
  fun A B k m => match m with Ret a => k a | Die msg => Die msg end.

Lemma outcome_bind_Ret {A B} (m : outcome A) (k : A -> outcome B) b :
  (m ≫= k) = Ret b -> exists a, m = Ret a /\ k a = Ret b.
Proof. destruct m; simpl; [eauto | discriminate]. Qed.

(** ** Machine integers

    Values of C integer types are [Z]; the conversions of the source are
    written out with [uint w] (reduction modulo 2^w) and [sint w]
    (two's complement). *)

Definition uint (w z : Z) : Z := z mod 2 ^ w.
Definition sint (w z : Z) : Z :=
  let r := z mod 2 ^ w in if r <? 2 ^ (w - 1) then r else r - 2 ^ w.

Definition in_uint (w z : Z) : Prop := 0 <= z < 2 ^ w.

(** [x & mask] used as a condition. *)
Definition has (x mask : Z) : bool := negb (Z.land x mask =? 0).

Lemma pow2_pos w : 0 <= w -> 0 < 2 ^ w.
Proof. intros; apply Z.pow_pos_nonneg; lia. Qed.

Lemma uint_range w z : 0 <= w -> in_uint w (uint w z).
Proof. intros. apply Z.mod_pos_bound, pow2_pos; lia. Qed.

Lemma uint_small w z : in_uint w z -> uint w z = z.
Proof. intros. apply Z.mod_small. exact H. Qed.

Lemma sint_small w z : 0 < w -> - 2 ^ (w - 1) <= z < 2 ^ (w - 1) -> sint w z = z.
Proof.
  intros Hw Hz. unfold sint.
  assert (Hp : 2 ^ w = 2 * 2 ^ (w - 1)) by (rewrite <- Z.pow_succ_r by lia; f_equal; lia).
  destruct (Z_lt_ge_dec z 0).
  - assert (E : z mod 2 ^ w = z + 2 ^ w).
    { symmetry. apply Z.mod_unique_pos with (q := -1); lia. }
    rewrite E. destruct (Z.ltb_spec (z + 2 ^ w) (2 ^ (w - 1))); lia.
  - rewrite Z.mod_small by lia. destruct (Z.ltb_spec z (2 ^ (w - 1))); lia.
Qed.

(** ** Bits *)

Lemma testbit_high w z i : in_uint w z -> w <= i -> Z.testbit z i = false.
Proof.
  intros Hz Hi. destruct (Z_lt_ge_dec w 0).
  - unfold in_uint in Hz. rewrite Z.pow_neg_r in Hz by lia. lia.
  - rewrite <- (Z.mod_small z (2 ^ w)) by exact Hz.
    apply Z.mod_pow2_bits_high; lia.
Qed.

Lemma in_uint_bits w z :
  0 <= w -> 0 <= z -> (forall i, w <= i -> Z.testbit z i = false) -> in_uint w z.
Proof.
  intros Hw Hz Hb. unfold in_uint. split; [lia|].
  destruct (Z.eq_dec z 0) as [->|Hnz]; [apply pow2_pos; lia|].
  apply Z.log2_lt_pow2; [lia|].
  destruct (Z_lt_ge_dec (Z.log2 z) w) as [?|Hge]; [lia|].
  pose proof (Z.bit_log2 z ltac:(lia)) as Hbit.
  rewrite Hb in Hbit by lia. discriminate.
Qed.

Lemma testbit_shiftl1 i j : 0 <= i -> Z.testbit (Z.shiftl 1 i) j = (i =? j).
Proof.
  intros. rewrite Z.shiftl_1_l. apply Z.pow2_bits_eqb. lia.
Qed.

Lemma has_bit x i : 0 <= i -> has x (Z.shiftl 1 i) = Z.testbit x i.
Proof.
  intros Hi. unfold has.
  destruct (Z.testbit x i) eqn:E.
  - apply negb_true_iff, Z.eqb_neq. intros H0.
    assert (T : Z.testbit (Z.land x (Z.shiftl 1 i)) i = true).
    { rewrite Z.land_spec, testbit_shiftl1, E, Z.eqb_refl by lia. reflexivity. }
    rewrite H0, Z.testbit_0_l in T. discriminate.
  - apply negb_false_iff, Z.eqb_eq. apply Z.bits_inj'. intros j Hj.
    rewrite Z.land_spec, testbit_shiftl1, Z.testbit_0_l by lia.
    destruct (Z.eqb_spec i j) as [->|]; [rewrite E; reflexivity|].
    apply andb_false_r.
Qed.

Lemma has_pow2_r x i : 0 <= i -> has x (2 ^ i) = Z.testbit x i.
Proof. intros. rewrite <- Z.shiftl_1_l. by apply has_bit. Qed.

Lemma has_pow2_l x i : 0 <= i -> has (2 ^ i) x = Z.testbit x i.
Proof. intros. unfold has. rewrite Z.land_comm. by apply has_pow2_r. Qed.

(** ** Arrays indexed by [Z]

    A C array is a list; [nthZ] reads cell [i] and [updZ] writes it.  Reads
    past the end give [0] and writes past the end do nothing: every use in
    this development is covered by a bound that is part of a component's
    invariant. *)

Definition nthZ (l : list Z) (i : Z) : Z := nth (Z.to_nat i) l 0.
Definition updZ (l : list Z) (i v : Z) : list Z := <[Z.to_nat i := v]> l.
Definition lenZ {A} (l : list A) : Z := Z.of_nat (length l).

Lemma length_updZ l i v : length (updZ l i v) = length l.
Proof. apply length_insert. Qed.

Lemma lenZ_updZ l i v : lenZ (updZ l i v) = lenZ l.
Proof. unfold lenZ. by rewrite length_updZ. Qed.

Lemma lenZ_app {A} (l k : list A) : lenZ (l ++ k) = lenZ l + lenZ k.
Proof. unfold lenZ. rewrite length_app. lia. Qed.

Lemma lenZ_nonneg {A} (l : list A) : 0 <= lenZ l.
Proof. unfold lenZ. lia. Qed.

Lemma lenZ_cons {A} (x : A) l : lenZ (x :: l) = 1 + lenZ l.
Proof. unfold lenZ. simpl length. lia. Qed.

Lemma lenZ_nil {A} : lenZ ([] : list A) = 0.
Proof. done. Qed.

Lemma lenZ_replicate {A} n (x : A) : lenZ (replicate n x) = Z.of_nat n.
Proof. unfold lenZ. by rewrite length_replicate. Qed.

Lemma nthZ_lookup l i : 0 <= i < lenZ l -> l !! Z.to_nat i = Some (nthZ l i).
Proof.
  intros Hi. unfold nthZ, lenZ in *.
  destruct (lookup_lt_is_Some_2 l (Z.to_nat i)) as [x Hx]; [lia|].
  rewrite Hx. f_equal. symmetry. by apply nth_lookup_Some.
Qed.

Lemma nth_lookup_default (l : list Z) i : nth i l 0 = default 0 (l !! i).
Proof.
  destruct (l !! i) as [x|] eqn:E; simpl.
  - by apply nth_lookup_Some.
  - apply nth_overflow. by apply lookup_ge_None in E.
Qed.

Lemma nthZ_updZ_eq l i v : 0 <= i < lenZ l -> nthZ (updZ l i v) i = v.
Proof.
  intros Hi. unfold nthZ, updZ, lenZ in *.
  rewrite nth_lookup_default, list_lookup_insert_eq by lia. reflexivity.
Qed.

Lemma nthZ_updZ_ne l i j v : 0 <= i -> 0 <= j -> i <> j -> nthZ (updZ l i v) j = nthZ l j.
Proof.
  intros. unfold nthZ, updZ.
  rewrite !nth_lookup_default, list_lookup_insert_ne by lia. reflexivity.
Qed.

Lemma nthZ_app_l l k i : 0 <= i < lenZ l -> nthZ (l ++ k) i = nthZ l i.
Proof. intros. unfold nthZ, lenZ in *. rewrite app_nth1 by lia. reflexivity. Qed.

Lemma nthZ_replicate n x i : 0 <= i < Z.of_nat n -> nthZ (replicate n x) i = x.
Proof.
  intros. unfold nthZ. rewrite nth_lookup_default, lookup_replicate_2 by lia. reflexivity.
Qed.

Lemma nthZ_over l i : lenZ l <= i -> nthZ l i = 0.
Proof. intros. unfold nthZ, lenZ in *. apply nth_overflow. lia. Qed.

Lemma nthZ_zeros n i : nthZ (replicate n 0) i = 0.
Proof.
  unfold nthZ. rewrite nth_lookup_default.
  destruct (replicate n 0 !! Z.to_nat i) as [x|] eqn:E; [|done].
  simpl. by apply lookup_replicate in E as [-> _].
Qed.

Lemma map_alter {A B} (g : A -> B) f i (l : list A) :
  (forall t, g (f t) = g t) -> map g (alter f i l) = map g l.
Proof.
  intros Hf. revert i. induction l as [|t l IH]; intros [|i]; try done.
  - change (g (f t) :: map g l = g t :: map g l). by rewrite Hf.
  - change (g t :: map g (alter f i l) = g t :: map g l). by rewrite IH.
Qed.

(** ** Automation *)

Create HintDb strace.
Create Rewrite HintDb strace.
Create Rewrite HintDb bpf.
#[export] Hint Resolve lenZ_nonneg pow2_pos : strace.
#[export] Hint Rewrite @lenZ_updZ @lenZ_app @lenZ_cons @lenZ_nil @lenZ_replicate @length_updZ : strace.

(** Lengths of concrete list expressions. *)
Ltac len_facts :=
  repeat match goal with
  | |- context [lenZ ?l] =>
      lazymatch goal with H : 0 <= lenZ l |- _ => fail | _ => pose proof (lenZ_nonneg l) end
  | _ : context [lenZ ?l] |- _ =>
      lazymatch goal with H : 0 <= lenZ l |- _ => fail | _ => pose proof (lenZ_nonneg l) end
  end.
Ltac len_lia := autorewrite with strace in *; len_facts; lia.

(** Split every boolean comparison of the context and the goal. *)
Ltac bcase :=
  repeat match goal with
  | |- context [Z.eqb ?a ?b] => destruct (Z.eqb_spec a b)
  | |- context [Z.ltb ?a ?b] => destruct (Z.ltb_spec a b)
  | |- context [Z.leb ?a ?b] => destruct (Z.leb_spec a b)
  | H : context [Z.eqb ?a ?b] |- _ => destruct (Z.eqb_spec a b)
  | H : context [Z.ltb ?a ?b] |- _ => destruct (Z.ltb_spec a b)
  | H : context [Z.leb ?a ?b] |- _ => destruct (Z.leb_spec a b)
  end.
