(* ===== verification/NumberSet.v ===== *)
(** * Sets of numbers (src/number_set.c)

    A [number_set] is a bit vector of 32-bit slots with an inversion flag; it
    holds the syscalls, signals, descriptors and option bits selected by the
    [-e] qualifiers.  [elems] is the abstract value of the vector (a finite
    set), and a number belongs to the set iff its membership in [elems]
    differs from the flag.  Memory exhaustion in [xreallocarray] is not
    modelled: an allocation succeeds. *)

From S2P Require Import Prelude.
From stdpp Require Import gmap.
Open Scope Z_scope.

(** ** Data *)

Definition BITS_PER_SLOT : Z := 32.

Record number_set := mk_number_set {
  vec : list Z;        (* number_slot_t *vec, 32-bit slots *)
  nslots : Z;
  not_ : bool;
}.

(** [vec] has [nslots] cells, each a 32-bit word. *)
Record wf_set (s : number_set) : Prop := {
  wf_len : lenZ (vec s) = nslots s;
  wf_slots : Forall (in_uint 32) (vec s);
}.

(** ** Operations *)

Definition number_setbit (i : Z) (v : list Z) : list Z :=
  updZ v (i / BITS_PER_SLOT)
    (Z.lor (nthZ v (i / BITS_PER_SLOT)) (Z.shiftl 1 (i mod BITS_PER_SLOT))).

Definition number_isset (i : Z) (v : list Z) : bool :=
  has (nthZ v (i / BITS_PER_SLOT)) (Z.shiftl 1 (i mod BITS_PER_SLOT)).

Definition reallocate_number_set (s : number_set) (new_nslots : Z) : number_set :=
  if new_nslots <=? nslots s then s
  else mk_number_set
         (vec s ++ replicate (Z.to_nat (new_nslots - nslots s)) 0)
         new_nslots (not_ s).

(** [for (; x; ++count) x &= x - 1;] on a 32-bit [x]. *)
Fixpoint popcount_word (fuel : nat) (x count : Z) : Z :=
  match fuel with
  | O => count
  | S f => if x =? 0 then count else popcount_word f (Z.land x (x - 1)) (count + 1)
  end.

Definition popcount32 (a : list Z) : Z :=
  foldl (fun count x => popcount_word 32 x count) 0 a.

Definition get_number_setbit (s : number_set) : Z :=
  popcount32 (take (Z.to_nat (nslots s)) (vec s)).

(** A pointer to a set is [None] for [NULL]; an array of sets is a list. *)
Definition set_at (a : list number_set) (idx : Z) : number_set :=
  nth (Z.to_nat idx) a (mk_number_set [] 0 false).

Definition number_set_array_is_empty (a : option (list number_set)) (idx : Z) : bool :=
  match a with
  | None => true
  | Some l => negb (negb (nslots (set_at l idx) =? 0) || not_ (set_at l idx))
  end.

Definition is_number_in_set (number : Z) (set : option number_set) : bool :=
  match set with
  | None => false
  | Some s => xorb ((number / BITS_PER_SLOT <? nslots s) && number_isset number (vec s)) (not_ s)
  end.

Definition is_number_in_set_array (number : Z) (a : option (list number_set)) (idx : Z) : bool :=
  match a with
  | None => false
  | Some l =>
      let s := set_at l idx in
      xorb ((number / BITS_PER_SLOT <? nslots s) && number_isset number (vec s)) (not_ s)
  end.

Definition is_complete_set (set : option number_set) (max_numbers : Z) : bool :=
  match set with
  | None => false
  | Some s => (not_ s && (nslots s =? 0)) || (get_number_setbit s =? max_numbers)
  end.

Fixpoint is_complete_set_array (l : list number_set) (max_numbers : list Z) : bool :=
  match l, max_numbers with
  | s :: l', m :: ms => if is_complete_set (Some s) m then is_complete_set_array l' ms else false
  | _, _ => true
  end.

Definition add_number_to_set (number : Z) (s : number_set) : number_set :=
  let s' := reallocate_number_set s (number / BITS_PER_SLOT + 1) in
  mk_number_set (number_setbit number (vec s')) (nslots s') (not_ s').

Definition add_number_to_set_array (number : Z) (l : list number_set) (idx : Z)
  : list number_set :=
  <[Z.to_nat idx := add_number_to_set number (set_at l idx)]> l.

Definition clear_set (s : number_set) : number_set :=
  mk_number_set
    (if nslots s =? 0 then vec s
     else replicate (Z.to_nat (nslots s)) 0 ++ drop (Z.to_nat (nslots s)) (vec s))
    (nslots s) false.

Definition clear_number_set_array (l : list number_set) (nmemb : Z) : list number_set :=
  (clear_set <$> take (Z.to_nat nmemb) l) ++ drop (Z.to_nat nmemb) l.

Definition invert_set (s : number_set) : number_set :=
  mk_number_set (vec s) (nslots s) (negb (not_ s)).

Definition invert_number_set_array (l : list number_set) (nmemb : Z) : list number_set :=
  (invert_set <$> take (Z.to_nat nmemb) l) ++ drop (Z.to_nat nmemb) l.

Definition alloc_number_set_array (nmemb : Z) : list number_set :=
  replicate (Z.to_nat nmemb) (mk_number_set [] 0 false).

(** ** Abstraction *)

(** The numbers whose bit is set, whatever the inversion flag. *)
Definition elems (s : number_set) : gset Z :=
  list_to_set (filter (fun n => Is_true (number_isset n (vec s)))
                      (seqZ 0 (BITS_PER_SLOT * nslots s))).

(** Membership as a property, flag included. *)
Definition contains (s : number_set) (n : Z) : Prop :=
  is_number_in_set n (Some s) = true.

(** ** Counting bits *)

(** The reference count: how many of the bits [0 .. n-1] of [x] are set. *)
Definition count_bits (n : Z) (x : Z) : Z :=
  lenZ (filter (fun i => Is_true (Z.testbit x i)) (seqZ 0 n)).

Lemma filter_map_shift (P Q : Z -> Prop) `{!forall x, Decision (P x)} `{!forall x, Decision (Q x)} k l :
  (forall x, x ∈ l -> P (k + x) <-> Q x) ->
  lenZ (filter P (Z.add k <$> l)) = lenZ (filter Q l).
Proof.
  induction l as [|x l IH]; intros Heq; [reflexivity|].
  rewrite fmap_cons, !filter_cons.
  pose proof (Heq x (list_elem_of_here _ _)).
  assert (IH' := IH (fun y Hy => Heq y (list_elem_of_further _ _ _ Hy))).
  unfold lenZ in *. do 2 case_decide; simpl; try tauto; lia.
Qed.

Lemma count_bits_succ n x :
  0 <= n -> count_bits (n + 1) x = Z.b2z (Z.odd x) + count_bits n (x / 2).
Proof.
  intros Hn. unfold count_bits.
  replace (n + 1) with (Z.succ n) by lia.
  rewrite seqZ_cons by lia. rewrite filter_cons.
  replace (Z.pred (Z.succ n)) with n by lia.
  rewrite <- (fmap_add_seqZ 1 0), Z.bit0_odd.
  assert (E : lenZ (filter (fun i => Is_true (Z.testbit x i)) (Z.add 1 <$> seqZ 0 n))
            = lenZ (filter (fun i => Is_true (Z.testbit (x / 2) i)) (seqZ 0 n))).
  { apply filter_map_shift. intros i Hi%elem_of_seqZ.
    rewrite <- Z.shiftr_div_pow2 with (n := 1) by lia.
    rewrite Z.shiftr_spec by lia. by rewrite (Z.add_comm 1 i). }
  unfold lenZ in *. case_decide as D; destruct (Z.odd x); simpl in *; try tauto; lia.
Qed.

Lemma count_bits_0 x : count_bits 0 x = 0.
Proof. reflexivity. Qed.

Lemma count_bits_zero n : count_bits n 0 = 0.
Proof.
  unfold count_bits. induction (seqZ 0 n) as [|i l IH]; [done|].
  rewrite filter_cons_False; [done|]. rewrite Z.testbit_0_l. simpl. tauto.
Qed.

Lemma land_pred_odd a : Z.land (2 * a + 1) (2 * a) = 2 * a.
Proof.
  apply Z.bits_inj'. intros i Hi. rewrite Z.land_spec.
  destruct (Z.eq_dec i 0) as [->|].
  - by rewrite Z.testbit_odd_0, Z.testbit_even_0.
  - replace i with (Z.succ (i - 1)) by lia.
    rewrite Z.testbit_odd_succ, Z.testbit_even_succ by lia. by destruct (Z.testbit _ _).
Qed.

Lemma land_pred_even a : Z.land (2 * a) (2 * a - 1) = 2 * Z.land a (a - 1).
Proof.
  replace (2 * a - 1) with (2 * (a - 1) + 1) by lia.
  apply Z.bits_inj'. intros i Hi. rewrite Z.land_spec.
  destruct (Z.eq_dec i 0) as [->|].
  - by rewrite !Z.testbit_even_0.
  - replace i with (Z.succ (i - 1)) by lia.
    by rewrite Z.testbit_odd_succ, !Z.testbit_even_succ, Z.land_spec by lia.
Qed.

Lemma land_pred_bound w x : 0 < x < 2 ^ w -> 0 <= Z.land x (x - 1) < x.
Proof.
  intros H. split; [apply Z.land_nonneg; lia|].
  pose proof (Z.land_nonneg x (x - 1)).
  assert (Z.land x (x - 1) <= x - 1); [|lia].
  rewrite <- (Z.land_comm (x - 1)). apply Z.ldiff_le; [lia|].
  apply Z.bits_inj'. intros i Hi.
  rewrite Z.ldiff_spec, Z.land_spec, Z.testbit_0_l.
  by destruct (Z.testbit (x - 1) i), (Z.testbit x i).
Qed.

(** Clearing the lowest set bit removes exactly one. *)
Lemma count_bits_land n x :
  0 <= n -> 0 < x < 2 ^ n -> count_bits n (Z.land x (x - 1)) = count_bits n x - 1.
Proof.
  intros Hn. revert x. pattern n. apply natlike_ind; [| |exact Hn].
  - intros x Hx. change (2 ^ 0) with 1 in Hx. lia.
  - clear n Hn. intros n Hn IH x Hx. unfold Z.succ.
    rewrite !count_bits_succ by lia.
    assert (Hd : x = 2 * (x / 2) + Z.b2z (Z.odd x)).
    { rewrite (Z.div_mod x 2) at 1 by lia. rewrite Zmod_odd. by destruct (Z.odd x). }
    rewrite Z.pow_succ_r in Hx by lia.
    revert Hd. generalize (x / 2). intros a Hd. destruct (Z.odd x); simpl in Hd; subst x.
    + rewrite Z.add_simpl_r, land_pred_odd, Z.odd_mul, (Z.mul_comm 2), Z.div_mul by lia.
      simpl. lia.
    + rewrite Z.add_0_r, land_pred_even, Z.odd_mul.
      rewrite (Z.mul_comm 2 (Z.land _ _)), Z.div_mul by lia.
      rewrite IH by lia. simpl. lia.
Qed.

Lemma popcount_word_spec n fuel x c :
  0 <= n -> 0 <= x < 2 ^ n -> count_bits n x <= Z.of_nat fuel ->
  popcount_word fuel x c = c + count_bits n x.
Proof.
  intros Hn. revert x c. induction fuel as [|f IH]; intros x c Hx Hf; simpl.
  - pose proof (lenZ_nonneg (filter (fun i => Is_true (Z.testbit x i)) (seqZ 0 n))).
    unfold count_bits in *. lia.
  - destruct (Z.eqb_spec x 0) as [->|].
    + rewrite count_bits_zero. lia.
    + pose proof (land_pred_bound n x ltac:(lia)).
      pose proof (count_bits_land n x Hn ltac:(lia)).
      rewrite IH by lia. lia.
Qed.

Lemma count_bits_le n x : 0 <= n -> count_bits n x <= n.
Proof.
  intros. unfold count_bits, lenZ.
  pose proof (length_filter (fun i => Is_true (Z.testbit x i)) (seqZ 0 n)).
  rewrite length_seqZ in *. lia.
Qed.

(** ** Refinement lemmas *)

Section refinement.

Implicit Types s : number_set.

Lemma number_isset_testbit n v :
  number_isset n v = Z.testbit (nthZ v (n / 32)) (n mod 32).
Proof. apply has_bit, Z.mod_pos_bound. lia. Qed.

Lemma elem_of_elems s n :
  n ∈ elems s <-> 0 <= n < 32 * nslots s /\ number_isset n (vec s) = true.
Proof.
  unfold elems. rewrite elem_of_list_to_set, list_elem_of_filter, elem_of_seqZ.
  rewrite Is_true_true, Z.add_0_l. unfold BITS_PER_SLOT. tauto.
Qed.

Lemma slot_bound n k : 0 <= n -> (n / 32 < k <-> n < 32 * k).
Proof. intros. split; intros; Z.to_euclidean_division_equations; lia. Qed.

Lemma nslots_nonneg s : wf_set s -> 0 <= nslots s.
Proof. intros [<- _]. apply lenZ_nonneg. Qed.

(** Membership is membership in [elems], up to the inversion flag. *)
Lemma is_number_in_set_elems n s :
  0 <= n -> is_number_in_set n (Some s) = xorb (bool_decide (n ∈ elems s)) (not_ s).
Proof.
  intros Hn. simpl. f_equal. unfold BITS_PER_SLOT. apply eq_true_iff_eq.
  rewrite bool_decide_eq_true, elem_of_elems, andb_true_iff, Z.ltb_lt, slot_bound by lia. tauto.
Qed.

Lemma set_bits_slot x i : in_uint 32 x -> 0 <= i < 32 -> in_uint 32 (Z.lor x (Z.shiftl 1 i)).
Proof.
  intros Hx Hi. apply in_uint_bits; [lia| |].
  - apply Z.lor_nonneg. split; [apply Hx|]. apply Z.shiftl_nonneg. lia.
  - intros j Hj. rewrite Z.lor_spec, testbit_shiftl1, (testbit_high 32) by (done || lia).
    apply Z.eqb_neq. lia.
Qed.

Lemma wf_reallocate s k : wf_set s -> wf_set (reallocate_number_set s k).
Proof.
  intros [Hl Hs]. unfold reallocate_number_set. case_match; [done|].
  apply Z.leb_gt in H. split; simpl.
  - rewrite lenZ_app, Hl. unfold lenZ. rewrite length_replicate. lia.
  - apply Forall_app. split; [done|]. apply Forall_replicate. unfold in_uint. lia.
Qed.

Lemma reallocate_nslots s k : nslots (reallocate_number_set s k) = Z.max (nslots s) k.
Proof. unfold reallocate_number_set. case_match; simpl; lia. Qed.

Lemma reallocate_isset s k n :
  wf_set s -> number_isset n (vec (reallocate_number_set s k)) = number_isset n (vec s).
Proof.
  intros [Hl _]. rewrite !number_isset_testbit. unfold reallocate_number_set.
  case_match; [done|]. simpl. f_equal.
  unfold nthZ. rewrite !nth_lookup_default.
  destruct (decide (Z.to_nat (n / 32) < length (vec s))%nat).
  - by rewrite lookup_app_l by lia.
  - rewrite lookup_app_r by lia. rewrite (proj2 (lookup_ge_None (vec s) _)) by lia. simpl.
    set (j := (_ - _)%nat).
    destruct (replicate _ 0 !! j) as [y|] eqn:E; [|done]. by apply lookup_replicate in E as [-> _].
Qed.

Lemma wf_add n s : 0 <= n -> wf_set s -> wf_set (add_number_to_set n s).
Proof.
  intros Hn Hs. unfold add_number_to_set.
  pose proof (wf_reallocate s (n / 32 + 1) Hs) as [Hl Hv].
  pose proof (reallocate_nslots s (n / 32 + 1)) as Hk.
  assert (0 <= n / 32) by (apply Z.div_pos; lia).
  split; simpl; unfold number_setbit, BITS_PER_SLOT in *.
  - by rewrite lenZ_updZ.
  - apply Forall_insert; [done|]. apply set_bits_slot; [|apply Z.mod_pos_bound; lia].
    eapply Forall_lookup_1; [exact Hv|]. apply nthZ_lookup. lia.
Qed.

Lemma isset_setbit n m v :
  0 <= n -> 0 <= m -> n / 32 < lenZ v ->
  number_isset m (number_setbit n v) = (m =? n) || number_isset m v.
Proof.
  intros Hn Hm Hl. rewrite !number_isset_testbit. unfold number_setbit, BITS_PER_SLOT.
  assert (0 <= n / 32) by (apply Z.div_pos; lia).
  assert (0 <= m / 32) by (apply Z.div_pos; lia).
  destruct (Z.eq_dec (m / 32) (n / 32)) as [E|E].
  - rewrite E, nthZ_updZ_eq, Z.lor_spec by lia.
    rewrite testbit_shiftl1 by (apply Z.mod_pos_bound; lia).
    rewrite orb_comm. f_equal. apply eq_true_iff_eq. rewrite !Z.eqb_eq.
    pose proof (Z.div_mod m 32 ltac:(lia)). pose proof (Z.div_mod n 32 ltac:(lia)). lia.
  - rewrite nthZ_updZ_ne by lia.
    destruct (Z.eqb_spec m n) as [->|]; [lia|done].
Qed.

Lemma elems_add n s : 0 <= n -> wf_set s -> elems (add_number_to_set n s) = {[n]} ∪ elems s.
Proof.
  intros Hn Hs. apply set_eq. intros m.
  rewrite elem_of_union, elem_of_singleton, !elem_of_elems.
  unfold add_number_to_set. simpl.
  rewrite reallocate_nslots. unfold BITS_PER_SLOT.
  pose proof (slot_bound n (n / 32 + 1) Hn) as B.
  pose proof (nslots_nonneg s Hs).
  destruct (Z.lt_decidable m 0) as [Hm|Hm]; [lia|].
  rewrite isset_setbit, reallocate_isset; [|done|lia|lia|].
  2:{ pose proof (wf_reallocate s (n / 32 + 1) Hs) as [-> _]. rewrite reallocate_nslots. lia. }
  rewrite orb_true_iff, Z.eqb_eq. split.
  - intros [[_ Hb] [->|Hi]]; [by left|right; split; [|done]].
    apply dec_stable. intros Hge. revert Hi.
    rewrite number_isset_testbit, nthZ_over, Z.testbit_0_l; [done|].
    rewrite (wf_len s Hs). pose proof (slot_bound m (nslots s)). lia.
  - intros [->|[Hb Hi]]; (split; [lia|]); auto.
Qed.

Lemma wf_clear s : wf_set s -> wf_set (clear_set s).
Proof.
  intros [Hl Hv]. split; simpl; case_match; auto; rewrite drop_ge by (unfold lenZ in *; lia);
    rewrite app_nil_r.
  - unfold lenZ in *. rewrite length_replicate. lia.
  - apply Forall_replicate. unfold in_uint. lia.
Qed.

Lemma elems_clear s : wf_set s -> elems (clear_set s) = ∅.
Proof.
  intros [Hl _]. apply set_eq. intros n. rewrite elem_of_elems. simpl.
  rewrite number_isset_testbit. split; [|set_solver].
  intros [Hn Hi]. exfalso. revert Hi. case_match; [lia|].
  rewrite drop_ge by (unfold lenZ in *; lia). rewrite app_nil_r.
  by rewrite nthZ_zeros, Z.testbit_0_l.
Qed.

Lemma elems_invert s : elems (invert_set s) = elems s.
Proof. reflexivity. Qed.

Lemma wf_invert s : wf_set s -> wf_set (invert_set s).
Proof. intros [? ?]. by split. Qed.

Lemma filter_isset_vec v :
  lenZ (filter (fun n => Is_true (number_isset n v)) (seqZ 0 (32 * lenZ v)))
  = foldr (fun x c => count_bits 32 x + c) 0 v.
Proof.
  induction v as [|x v IH]; [done|].
  replace (32 * lenZ (x :: v)) with (32 + 32 * lenZ v) by (unfold lenZ; simpl; lia).
  rewrite seqZ_app by (pose proof (lenZ_nonneg v); lia).
  rewrite filter_app, lenZ_app, <- (fmap_add_seqZ 32 0). simpl. f_equal.
  - unfold count_bits. change (seqZ 0 32) with (Z.add 0 <$> seqZ 0 32) at 1.
    apply filter_map_shift. intros i Hi%elem_of_seqZ. rewrite number_isset_testbit, Z.add_0_l.
    by rewrite Z.div_small, Z.mod_small by lia.
  - rewrite <- IH. apply filter_map_shift. intros i Hi%elem_of_seqZ.
    rewrite !number_isset_testbit.
    replace ((32 + i) / 32) with (i / 32 + 1) by (Z.to_euclidean_division_equations; lia).
    replace ((32 + i) mod 32) with (i mod 32) by (Z.to_euclidean_division_equations; lia).
    unfold nthZ. rewrite Z2Nat.inj_add by (try apply Z.div_pos; lia).
    by rewrite Nat.add_comm.
Qed.

Lemma popcount_foldl v c :
  Forall (in_uint 32) v ->
  foldl (fun count x => popcount_word 32 x count) c v
  = c + foldr (fun x k => count_bits 32 x + k) 0 v.
Proof.
  intros Hv. revert c. induction Hv as [|x v Hx Hv IH]; intros c; cbn -[popcount_word]; [lia|].
  rewrite IH, (popcount_word_spec 32); [lia|lia|exact Hx|].
  pose proof (count_bits_le 32 x). lia.
Qed.

Lemma get_number_setbit_size s : wf_set s -> get_number_setbit s = Z.of_nat (size (elems s)).
Proof.
  intros [Hl Hv]. unfold get_number_setbit, elems.
  rewrite take_ge by (unfold lenZ in *; lia).
  unfold popcount32. rewrite popcount_foldl, Z.add_0_l, <- filter_isset_vec by done.
  rewrite size_list_to_set by (apply NoDup_filter, NoDup_seqZ).
  unfold BITS_PER_SLOT. by rewrite Hl.
Qed.

End refinement.

(** ** The contract of the component

    The clients of a [number_set] see a finite or cofinite set of numbers.
    [set_op] are the operations that change one; [abs_op] is their meaning on
    the pair of a finite set and the inversion flag. *)

Inductive set_op :=
  | OpAdd (n : Z)
  | OpClear
  | OpInvert.

Definition conc_op (o : set_op) (s : number_set) : number_set :=
  match o with
  | OpAdd n => add_number_to_set n s
  | OpClear => clear_set s
  | OpInvert => invert_set s
  end.

Definition abs_op (o : set_op) (a : gset Z * bool) : gset Z * bool :=
  match o with
  | OpAdd n => ({[n]} ∪ a.1, a.2)
  | OpClear => (∅, false)
  | OpInvert => (a.1, negb a.2)
  end.

Definition op_ok (o : set_op) : Prop := match o with OpAdd n => 0 <= n | _ => True end.

Definition represents (s : number_set) (a : gset Z * bool) : Prop :=
  wf_set s /\ elems s = a.1 /\ not_ s = a.2.

Lemma represents_op o s a :
  op_ok o -> represents s a -> represents (conc_op o s) (abs_op o a).
Proof.
  intros Ho (Hw & He & Hn). destruct o; simpl in *.
  - repeat split; [by apply wf_add..|simpl|simpl].
    + by rewrite elems_add, He.
    + rewrite <- Hn. unfold add_number_to_set, reallocate_number_set. by case_match.
  - repeat split; [by apply wf_clear..|by apply elems_clear].
  - repeat split; [by apply wf_invert..|done|]. simpl. by rewrite Hn.
Qed.

Lemma represents_run ops s a :
  Forall op_ok ops -> represents s a ->
  represents (fold_left (fun s o => conc_op o s) ops s)
             (fold_left (fun a o => abs_op o a) ops a).
Proof. intros Ho. revert s a. induction Ho; simpl; auto using represents_op. Qed.

Lemma represents_alloc : represents (mk_number_set [] 0 false) (∅, false).
Proof. repeat split; done. Qed.

(** The numbers below a bound, as a finite set. *)
Definition range_set (m : Z) : gset Z := list_to_set (seqZ 0 m).

Lemma elem_of_range m n : n ∈ range_set m <-> 0 <= n < m.
Proof. unfold range_set. rewrite elem_of_list_to_set, elem_of_seqZ. lia. Qed.

Lemma size_range m : 0 <= m -> Z.of_nat (size (range_set m)) = m.
Proof.
  intros. unfold range_set. rewrite size_list_to_set by apply NoDup_seqZ.
  rewrite length_seqZ. lia.
Qed.

(** ** Properties *)

(** C8: whatever sequence of [add_number_to_set], [clear] and [invert] a
    freshly allocated set has gone through, [is_number_in_set] answers exactly
    the membership in the abstract finite or cofinite set obtained by the same
    sequence, and [get_number_setbit] is the cardinality of its finite part. *)
Theorem number_set_refinement (ops : list set_op) (m : Z) (Hops : Forall op_ok ops) (Hm : 0 <= m) :
  let s := fold_left (fun s o => conc_op o s) ops (mk_number_set [] 0 false) in
  let a := fold_left (fun a o => abs_op o a) ops (∅, false) in
  is_number_in_set m (Some s) = xorb (bool_decide (m ∈ a.1)) a.2
  /\ get_number_setbit s = Z.of_nat (size a.1).
Proof.
  intros s a. destruct (represents_run ops _ _ Hops represents_alloc) as (Hw & He & Hn).
  fold s a in Hw, He, Hn. split.
  - by rewrite is_number_in_set_elems, He, Hn.
  - by rewrite get_number_setbit_size, He.
Qed.

(** The hypotheses of [number_set_refinement] at [add 3; add 70; invert]. *)
Lemma number_set_refinement_witness :
  let s := fold_left (fun s o => conc_op o s) [OpAdd 3; OpAdd 70; OpInvert] (mk_number_set [] 0 false) in
  let a := fold_left (fun a o => abs_op o a) [OpAdd 3; OpAdd 70; OpInvert] (∅, false) in
  is_number_in_set 70 (Some s) = xorb (bool_decide (70 ∈ a.1)) a.2
  /\ get_number_setbit s = Z.of_nat (size a.1).
Proof.
  apply (number_set_refinement [OpAdd 3; OpAdd 70; OpInvert] 70); [|lia].
  repeat constructor; simpl; lia.
Defined.

(** For a set that is not inverted and whose elements are all below the
    bound, [is_complete_set] holds exactly when every number below the bound
    is in the set. *)
Theorem is_complete_set_correct (s : number_set) (max : Z)
    (Hw : wf_set s) (Hmax : 0 <= max) (Hnot : not_ s = false) (Hsub : elems s ⊆ range_set max) :
  is_complete_set (Some s) max = true <-> (forall n, 0 <= n < max -> contains s n).
Proof.
  unfold is_complete_set, contains. rewrite Hnot. cbn [andb orb].
  rewrite Z.eqb_eq, get_number_setbit_size by done.
  pose proof (size_range max Hmax) as Hs. split.
  - intros Heq n Hn. rewrite is_number_in_set_elems, Hnot, xorb_false_r by lia.
    apply bool_decide_eq_true.
    assert (elems s = range_set max) as ->; [|by apply elem_of_range].
    apply set_subseteq_size_eq; [done|]. lia.
  - intros Hall. assert (elems s = range_set max) as ->; [|done].
    apply set_eq. intros n. split; [apply Hsub|]. intros Hn%elem_of_range.
    specialize (Hall n Hn). rewrite is_number_in_set_elems, Hnot, xorb_false_r in Hall by lia.
    by apply bool_decide_eq_true in Hall.
Qed.

Lemma is_complete_set_correct_witness :
  is_complete_set (Some (mk_number_set [31] 1 false)) 5 = true
  <-> (forall n, 0 <= n < 5 -> contains (mk_number_set [31] 1 false) n).
Proof.
  apply (is_complete_set_correct (mk_number_set [31] 1 false) 5).
  - split; [reflexivity|]. repeat constructor.
    all: cbv; congruence.
  - lia.
  - reflexivity.
  - intros n. rewrite elem_of_elems, elem_of_range. simpl. intros [Hn Hi].
    destruct (Z_lt_ge_dec n 5); [lia|]. exfalso. revert Hi.
    rewrite number_isset_testbit, Z.div_small, Z.mod_small by lia.
    change (nthZ [31] 0) with 31. rewrite (testbit_high 5) by (unfold in_uint; lia). done.
Defined.

(** An inverted set in which every number below the bound has its bit set
    contains no number below the bound, and [is_complete_set] still reports
    it complete: the bit count is compared with the bound without looking at
    the inversion flag. *)
Theorem is_complete_set_ignores_inversion (s : number_set) (max : Z)
    (Hw : wf_set s) (Hmax : 0 < max) (Hnot : not_ s = true) (Hel : elems s = range_set max) :
  is_complete_set (Some s) max = true /\ forall n, 0 <= n < max -> ~ contains s n.
Proof.
  split.
  - unfold is_complete_set. rewrite get_number_setbit_size, Hel, size_range by (done || lia).
    by rewrite Z.eqb_refl, orb_true_r.
  - intros n Hn. unfold contains. rewrite is_number_in_set_elems, Hnot, Hel by lia.
    rewrite bool_decide_eq_true_2 by (by apply elem_of_range). done.
Qed.

Lemma is_complete_set_ignores_inversion_witness :
  is_complete_set (Some (mk_number_set [31] 1 true)) 5 = true
  /\ forall n, 0 <= n < 5 -> ~ contains (mk_number_set [31] 1 true) n.
Proof.
  apply (is_complete_set_ignores_inversion (mk_number_set [31] 1 true) 5).
  - split; [reflexivity|]. repeat constructor.
    all: cbv; congruence.
  - lia.
  - reflexivity.
  - vm_compute. reflexivity.
Defined.
