(* ===== verification/Wait.v ===== *)
(** * Wait statuses, signals and errno values

    The status word [waitpid]/[wait4] report, with the macros of
    [sys/wait.h] the source applies to it (src/strace.c, src/wait.h,
    src/filter_seccomp.c), and the numeric constants of the Linux ABI the
    components share (generic numbering of [asm-generic]). *)

From S2P Require Import Prelude.
Open Scope Z_scope.

Definition WTERMSIG (status : Z) : Z := Z.land status 0x7f.
Definition WEXITSTATUS (status : Z) : Z := Z.shiftr (Z.land status 0xff00) 8.
Definition WSTOPSIG (status : Z) : Z := WEXITSTATUS status.
Definition WIFEXITED (status : Z) : bool := WTERMSIG status =? 0.
(** ((signed char) ((status & 0x7f) + 1) >> 1) > 0 *)
Definition WIFSIGNALED (status : Z) : bool := 0 <? Z.shiftr (sint 8 (WTERMSIG status + 1)) 1.
Definition WIFSTOPPED (status : Z) : bool := Z.land status 0xff =? 0x7f.
Definition WCOREDUMP (status : Z) : bool := has status 0x80.
(** (unsigned int) status >> 16 *)
Definition event_of (status : Z) : Z := Z.shiftr (uint 32 status) 16.

Definition W_EXITCODE (ret sig : Z) : Z := Z.lor (Z.shiftl ret 8) sig.
Definition W_STOPCODE (sig : Z) : Z := Z.lor (Z.shiftl sig 8) 0x7f.
Definition W_STOPEVENT (sig event : Z) : Z := Z.lor (W_STOPCODE sig) (Z.shiftl event 16).

Definition SIGKILL := 9.
Definition SIGTRAP := 5.
Definition SIGCHLD := 17.
Definition SIGCONT := 18.
Definition SIGSTOP := 19.
Definition SIGTSTP := 20.
Definition SIGTTIN := 21.
Definition SIGTTOU := 22.

Definition PTRACE_CONT := 7.
Definition PTRACE_SYSCALL := 24.
Definition PTRACE_DETACH := 17.
Definition PTRACE_LISTEN := 0x4208.
Definition PTRACE_INTERRUPT := 0x4207.
Definition PTRACE_EVENT_FORK := 1.
Definition PTRACE_EVENT_VFORK := 2.
Definition PTRACE_EVENT_CLONE := 3.
Definition PTRACE_EVENT_EXEC := 4.
Definition PTRACE_EVENT_EXIT := 6.
Definition PTRACE_EVENT_SECCOMP := 7.
Definition PTRACE_EVENT_STOP := 128.

Definition EPERM := 1.
Definition ENOENT := 2.
Definition ESRCH := 3.
Definition EINTR := 4.
Definition EIO := 5.
Definition ENOMEM := 12.
Definition EACCES := 13.
Definition EFAULT := 14.
Definition EINVAL := 22.
Definition ENOSYS := 38.
Definition ECHILD := 10.

(** The three kinds of status are exclusive. *)
Lemma wait_kinds_exclusive status :
  0 <= status ->
  (WIFEXITED status = true -> WIFSIGNALED status = false /\ WIFSTOPPED status = false)
  /\ (WIFSIGNALED status = true -> WIFSTOPPED status = false).
Proof.
  intros Hs. unfold WIFEXITED, WIFSIGNALED, WIFSTOPPED, WTERMSIG.
  assert (E : Z.land status 0x7f = Z.land (Z.land status 0xff) 0x7f)
    by (by rewrite <- Z.land_assoc).
  rewrite E. clear E. set (b := Z.land status 0xff).
  split.
  - intros H. apply Z.eqb_eq in H. split.
    + by rewrite H.
    + apply Z.eqb_neq. intros ->. done.
  - intros H. apply Z.eqb_neq. intros Hb. rewrite Hb in H. done.
Qed.
