(* ===== verification/Bpf.v ===== *)
(** * The classic BPF programs strace installs as seccomp filters

    [sock_filter] is the instruction of [linux/filter.h]; the opcode constants
    are those of [bundled/linux/include/uapi/linux/bpf_common.h].  The
    interpreter itself is kernel code and is not part of strace: it is the
    interface [BpfMachine], whose laws state the documented meaning of the
    opcodes the generators of [src/filter_seccomp.c] emit.  Jumps of classic
    BPF are forward only, so a machine state is the suffix of the program that
    remains to be executed, with the accumulator [A] and the index register
    [X].  [bpf_reference] is an executable machine that satisfies the laws. *)

From S2P Require Import Prelude.
Open Scope Z_scope.

Record sock_filter := mk_filter { code : Z; jt : Z; jf : Z; k : Z }.

Definition BPF_LD := 0x00.
Definition BPF_ALU := 0x04.
Definition BPF_JMP := 0x05.
Definition BPF_RET := 0x06.
Definition BPF_MISC := 0x07.
Definition BPF_W := 0x00.
Definition BPF_IMM := 0x00.
Definition BPF_ABS := 0x20.
Definition BPF_AND := 0x50.
Definition BPF_LSH := 0x60.
Definition BPF_RSH := 0x70.
Definition BPF_JA := 0x00.
Definition BPF_JEQ := 0x10.
Definition BPF_JGE := 0x30.
Definition BPF_JSET := 0x40.
Definition BPF_K := 0x00.
Definition BPF_X := 0x08.
Definition BPF_TAX := 0x00.
Definition BPF_TXA := 0x80.
Definition BPF_CLASS (c : Z) : Z := Z.land c 0x07.
Definition BPF_OP (c : Z) : Z := Z.land c 0xf0.

Definition SECCOMP_RET_TRACE := 0x7ff00000.
Definition SECCOMP_RET_ALLOW := 0x7fff0000.

(** The fields of [struct seccomp_data] the filters load, by their offsets. *)
Record seccomp_data := mk_data { nr : Z; arch : Z }.
Definition offsetof_nr := 0.
Definition offsetof_arch := 4.

Definition STMT (c kk : Z) : sock_filter := mk_filter c 0 0 kk.
(** [SET_BPF_JUMP] of the source, which ors [BPF_JMP] into the opcode. *)
Definition JUMP (c kk t f : Z) : sock_filter := mk_filter (Z.lor BPF_JMP c) t f kk.

Definition skip (n : Z) (prog : list sock_filter) : list sock_filter := drop (Z.to_nat n) prog.

(** ** The interface *)

Class BpfMachine := {
  bpf_run : seccomp_data -> list sock_filter -> Z -> Z -> option Z;
  bpf_ld_nr d t f p A X :
    bpf_run d (mk_filter (Z.lor (Z.lor BPF_LD BPF_W) BPF_ABS) t f offsetof_nr :: p) A X
    = bpf_run d p (nr d) X;
  bpf_ld_arch d t f p A X :
    bpf_run d (mk_filter (Z.lor (Z.lor BPF_LD BPF_W) BPF_ABS) t f offsetof_arch :: p) A X
    = bpf_run d p (arch d) X;
  bpf_ld_imm d t f kk p A X :
    bpf_run d (mk_filter (Z.lor BPF_LD BPF_IMM) t f kk :: p) A X = bpf_run d p kk X;
  bpf_tax d t f kk p A X :
    bpf_run d (mk_filter (Z.lor BPF_MISC BPF_TAX) t f kk :: p) A X = bpf_run d p A A;
  bpf_txa d t f kk p A X :
    bpf_run d (mk_filter (Z.lor BPF_MISC BPF_TXA) t f kk :: p) A X = bpf_run d p X X;
  bpf_and d t f kk p A X :
    bpf_run d (mk_filter (Z.lor (Z.lor BPF_ALU BPF_AND) BPF_K) t f kk :: p) A X
    = bpf_run d p (Z.land A kk) X;
  bpf_rsh d t f kk p A X : 0 <= kk < 32 ->
    bpf_run d (mk_filter (Z.lor (Z.lor BPF_ALU BPF_RSH) BPF_K) t f kk :: p) A X
    = bpf_run d p (Z.shiftr A kk) X;
  bpf_lsh_x d t f kk p A X : 0 <= X < 32 ->
    bpf_run d (mk_filter (Z.lor (Z.lor BPF_ALU BPF_LSH) BPF_X) t f kk :: p) A X
    = bpf_run d p (uint 32 (Z.shiftl A X)) X;
  bpf_ja d t f kk p A X :
    bpf_run d (mk_filter (Z.lor BPF_JMP BPF_JA) t f kk :: p) A X = bpf_run d (skip kk p) A X;
  bpf_jeq d t f kk p A X :
    bpf_run d (mk_filter (Z.lor BPF_JMP (Z.lor BPF_JEQ BPF_K)) t f kk :: p) A X
    = bpf_run d (skip (if A =? kk then t else f) p) A X;
  bpf_jge d t f kk p A X :
    bpf_run d (mk_filter (Z.lor BPF_JMP (Z.lor BPF_JGE BPF_K)) t f kk :: p) A X
    = bpf_run d (skip (if kk <=? A then t else f) p) A X;
  bpf_jset d t f kk p A X :
    bpf_run d (mk_filter (Z.lor BPF_JMP (Z.lor BPF_JSET BPF_K)) t f kk :: p) A X
    = bpf_run d (skip (if has A kk then t else f) p) A X;
  bpf_ret d t f kk p A X :
    bpf_run d (mk_filter (Z.lor BPF_RET BPF_K) t f kk :: p) A X = Some kk;
}.

(** ** A machine with these laws

    [bpf_exec n p] executes [p] after skipping its first [n] instructions, so
    that the recursion is structural; an unknown opcode or the end of the
    program gives [None]. *)

Fixpoint bpf_exec (d : seccomp_data) (n : nat) (p : list sock_filter) (A X : Z) : option Z :=
  match p, n with
  | [], _ => None
  | _ :: p', S n' => bpf_exec d n' p' A X
  | ins :: p', O =>
      let kk := k ins in
      let jump (b : bool) := bpf_exec d (Z.to_nat (if b then jt ins else jf ins)) p' A X in
      match code ins with
      | 0x20 => if kk =? offsetof_nr then bpf_exec d 0 p' (nr d) X
                else if kk =? offsetof_arch then bpf_exec d 0 p' (arch d) X else None
      | 0x00 => bpf_exec d 0 p' kk X
      | 0x07 => bpf_exec d 0 p' A A
      | 0x87 => bpf_exec d 0 p' X X
      | 0x54 => bpf_exec d 0 p' (Z.land A kk) X
      | 0x74 => if (0 <=? kk) && (kk <? 32) then bpf_exec d 0 p' (Z.shiftr A kk) X else None
      | 0x6c => if (0 <=? X) && (X <? 32) then bpf_exec d 0 p' (uint 32 (Z.shiftl A X)) X else None
      | 0x05 => bpf_exec d (Z.to_nat kk) p' A X
      | 0x15 => jump (A =? kk)
      | 0x35 => jump (kk <=? A)
      | 0x45 => jump (has A kk)
      | 0x06 => Some kk
      | _ => None
      end
  end.

Lemma bpf_exec_skip d n p A X : bpf_exec d n p A X = bpf_exec d 0 (drop n p) A X.
Proof. revert n. induction p as [|i p IH]; intros [|n]; simpl; auto. Qed.

#[refine] Instance bpf_reference : BpfMachine :=
  {| bpf_run d p A X := bpf_exec d 0 p A X |}.
Proof.
  all: intros; unfold skip; rewrite <- ?bpf_exec_skip; try reflexivity.
  - simpl. by replace ((0 <=? kk) && (kk <? 32)) with true by lia.
  - simpl. by replace ((0 <=? X) && (X <? 32)) with true by lia.
Defined.

#[export] Hint Rewrite @bpf_ld_nr @bpf_ld_arch @bpf_ld_imm @bpf_tax @bpf_txa @bpf_and
  @bpf_ja @bpf_jeq @bpf_jge @bpf_jset @bpf_ret : bpf.
