(* ===== verification/Seccomp.v ===== *)
(** * Seccomp-assisted filtering (src/filter_seccomp.c)

    With [--seccomp-bpf] strace compiles the set of traced syscalls into a BPF
    program that stops the tracee only where needed.  The file models the two
    program generators, the choice between them, the probe of the kernel's
    order of seccomp and syscall stops, and the restart operator.  The program
    buffer and the position [pos] of the source are the list of emitted
    instructions and its length. *)

From Stdlib Require Import Zbitwise.
From S2P Require Import Prelude NumberSet Wait Bpf.
Open Scope Z_scope.

(** ** Configuration

    What the generators read: the per-personality tables of the build
    ([audit_arch_vec], [nsyscall_vec], the [sys_flags] of [sysent_vec]) and
    the options ([trace_set], [decode_pid_set], [stack_trace_mode]). *)

Record audit_arch_t := mk_audit { aa_arch : Z; aa_flag : Z }.

Record config := mk_config {
  audit_arch_vec : list audit_arch_t;
  nsyscall_vec : list Z;
  sys_flags : Z -> Z -> Z;                 (* sysent_vec[p][scno].sys_flags *)
  trace_set : option (list number_set);
  decode_pid_set : option number_set;
  stack_trace_mode : Z;
}.

Definition SUPPORTED_PERSONALITIES (c : config) : Z := lenZ (audit_arch_vec c).
Definition audit_arch_at (c : config) (p : Z) : audit_arch_t :=
  nth (Z.to_nat p) (audit_arch_vec c) (mk_audit 0 0).
Definition nsyscalls_at (c : config) (p : Z) : Z := nthZ (nsyscall_vec c) p.

Definition TRACE_INDIRECT_SUBCALL := 0x200.
Definition TRACE_SECCOMP_DEFAULT := 0x80000.
Definition MEMORY_MAPPING_CHANGE := 0x100.
Definition COMM_CHANGE := 0x400000.
Definition DECODE_PID_COMM := 1.

Definition UINT_MAX := 0xffffffff.
Definition UCHAR_MAX := 0xff.
Definition USHRT_MAX := 0xffff.
Definition BPF_MAXINSNS := 4096.

Definition traced_by_seccomp (c : config) (scno p : Z) : bool :=
  let always_trace_flags :=
    Z.lor (Z.lor (Z.lor TRACE_INDIRECT_SUBCALL TRACE_SECCOMP_DEFAULT)
                 (if stack_trace_mode c =? 0 then 0 else MEMORY_MAPPING_CHANGE))
          (if is_number_in_set DECODE_PID_COMM (decode_pid_set c) then COMM_CHANGE else 0) in
  has (sys_flags c p scno) always_trace_flags || is_number_in_set_array scno (trace_set c) p.

(** ** Jump placeholders *)

Definition JMP_PLACEHOLDER_NEXT := 255.
Definition JMP_PLACEHOLDER_TRACE := 254.
Definition JMP_PLACEHOLDER_ALLOW := 253.

Definition replace_jmp_placeholders (jmp_offset jmp_next jmp_trace jmp_allow : Z) : Z :=
  if jmp_offset =? JMP_PLACEHOLDER_NEXT then jmp_next
  else if jmp_offset =? JMP_PLACEHOLDER_TRACE then jmp_trace
  else if jmp_offset =? JMP_PLACEHOLDER_ALLOW then jmp_allow
  else jmp_offset.

(** The body of the loop that resolves the placeholders of the instruction at
    position [i], the section ending at [pos]. *)
Definition patch_insn (pos i : Z) (f : sock_filter) : sock_filter :=
  if BPF_CLASS (code f) =? BPF_JMP then
    let jmp_next := uint 8 (pos - i - 1) in
    let jmp_trace := uint 8 (pos - i - 2) in
    let jmp_allow := uint 8 (pos - i - 3) in
    mk_filter (code f)
      (replace_jmp_placeholders (jt f) jmp_next jmp_trace jmp_allow)
      (replace_jmp_placeholders (jf f) jmp_next jmp_trace jmp_allow)
      (if BPF_OP (code f) =? BPF_JA then jmp_next else k f)
  else f.

(** [for (i = start; i < end; ++i)]: [l] is the program from [i] to [end]. *)
Fixpoint patch_jumps (pos i : Z) (l : list sock_filter) : list sock_filter :=
  match l with
  | [] => []
  | f :: l' => patch_insn pos i f :: patch_jumps pos (i + 1) l'
  end.

(** ** The linear generator *)

Definition bpf_syscalls_cmp (lower upper : Z) : list sock_filter :=
  if lower + 1 =? upper then
    [JUMP (Z.lor BPF_JEQ BPF_K) lower JMP_PLACEHOLDER_TRACE 0]
  else
    [JUMP (Z.lor BPF_JGE BPF_K) lower 0 1;
     JUMP (Z.lor BPF_JGE BPF_K) upper 0 JMP_PLACEHOLDER_TRACE].

Definition LD_ARCH := STMT (Z.lor (Z.lor BPF_LD BPF_W) BPF_ABS) offsetof_arch.
Definition LD_NR := STMT (Z.lor (Z.lor BPF_LD BPF_W) BPF_ABS) offsetof_nr.
Definition RET (v : Z) := STMT (Z.lor BPF_RET BPF_K) v.

(** The loop over the syscall numbers of personality [p]: [n] iterations are
    left, starting at [i]; [lower] is the start of the current traced run. *)
Fixpoint linear_ranges (c : config) (p : Z) (n : nat) (i lower : Z) : list sock_filter :=
  let flag := aa_flag (audit_arch_at c p) in
  match n with
  | O => if lower =? UINT_MAX then []
         else bpf_syscalls_cmp (Z.lor lower flag) (Z.lor (nsyscalls_at c p) flag)
  | S n' =>
      if traced_by_seccomp c i p then
        linear_ranges c p n' (i + 1) (if lower =? UINT_MAX then i else lower)
      else if lower =? UINT_MAX then linear_ranges c p n' (i + 1) UINT_MAX
      else bpf_syscalls_cmp (Z.lor lower flag) (Z.lor i flag)
           ++ linear_ranges c p n' (i + 1) UINT_MAX
  end.

(** The instructions of a section before [end]. *)
Definition linear_section_head (c : config) (p : Z) : list sock_filter :=
  let aa := audit_arch_at c p in
  (if 1 <? SUPPORTED_PERSONALITIES c
   then [JUMP (Z.lor BPF_JEQ BPF_K) (aa_arch aa) 0 JMP_PLACEHOLDER_NEXT] else [])
  ++ [LD_NR]
  ++ (if (1 <? SUPPORTED_PERSONALITIES c) && negb (aa_flag aa =? 0)
      then [JUMP (Z.lor BPF_JGE BPF_K) (aa_flag aa) 2 0;
            LD_ARCH;
            JUMP BPF_JA JMP_PLACEHOLDER_NEXT 0 0] else [])
  ++ linear_ranges c p (Z.to_nat (nsyscalls_at c p)) 0 UINT_MAX.

Definition linear_section_tail (c : config) (p : Z) : list sock_filter :=
  [JUMP (Z.lor BPF_JGE BPF_K) (Z.lor (nsyscalls_at c p) (aa_flag (audit_arch_at c p))) 1 0;
   RET SECCOMP_RET_ALLOW;
   RET SECCOMP_RET_TRACE].

(** The loop over personalities from [n - 1] down to 0, the program built so
    far being [filter]; [true] is the [*overflow] result. *)
Fixpoint linear_personalities (c : config) (n : nat) (filter : list sock_filter)
  : list sock_filter * bool :=
  match n with
  | O => (filter, false)
  | S n' =>
      let p := Z.of_nat n' in
      let start := lenZ filter in
      let head := linear_section_head c p in
      let tail := linear_section_tail c p in
      let pos := start + lenZ head + lenZ tail in
      if UCHAR_MAX <? pos - start then (filter ++ head ++ tail, true)
      else linear_personalities c n' (filter ++ patch_jumps pos start head ++ tail)
  end.

Definition linear_filter_generator (c : config) : list sock_filter * bool :=
  let multi := 1 <? SUPPORTED_PERSONALITIES c in
  let '(filter, overflow) :=
    linear_personalities c (length (audit_arch_vec c)) (if multi then [LD_ARCH] else []) in
  if overflow then (filter, true)
  else (filter ++ (if multi then [RET SECCOMP_RET_TRACE] else []), false).

(** ** The binary-match generator *)

Definition bpf_syscalls_match (bitarray bitarray_idx : Z) : list sock_filter :=
  if bitarray =? 0 then
    [JUMP (Z.lor (Z.lor BPF_JMP BPF_JEQ) BPF_K) bitarray_idx JMP_PLACEHOLDER_ALLOW 0]
  else if bitarray =? UINT_MAX then
    [JUMP (Z.lor (Z.lor BPF_JMP BPF_JEQ) BPF_K) bitarray_idx JMP_PLACEHOLDER_TRACE 0]
  else
    [JUMP (Z.lor (Z.lor BPF_JMP BPF_JEQ) BPF_K) bitarray_idx 0 2;
     STMT (Z.lor BPF_MISC BPF_TXA) 0;
     JUMP (Z.lor (Z.lor BPF_JMP BPF_JSET) BPF_K) bitarray
          JMP_PLACEHOLDER_TRACE JMP_PLACEHOLDER_ALLOW].

(** [for (i = ...; i < nsyscall_vec[p] && pos <= BPF_MAXINSNS; ++i)] with its
    final flush; [n] bounds the iterations left, [pos] is the position. *)
Fixpoint binary_words (c : config) (p : Z) (n : nat) (i bitarray pos : Z) : list sock_filter :=
  let flush := if i mod 32 =? 0 then [] else bpf_syscalls_match bitarray (i / 32) in
  match n with
  | O => flush
  | S n' =>
      if pos <=? BPF_MAXINSNS then
        let bitarray := if traced_by_seccomp c i p
                        then Z.lor bitarray (Z.shiftl 1 (i mod 32)) else bitarray in
        if i mod 32 =? 31 then
          let m := bpf_syscalls_match bitarray (i / 32) in
          m ++ binary_words c p n' (i + 1) 0 (pos + lenZ m)
        else binary_words c p n' (i + 1) bitarray pos
      else flush
  end.

Definition unmask_flag (flag : Z) : sock_filter :=
  STMT (Z.lor (Z.lor BPF_ALU BPF_AND) BPF_K) (uint 32 (Z.lnot flag)).

(** nr = 32 * x + y: [X] gets 1 << y and [A] gets x. *)
Definition binary_word_select (flag : Z) : list sock_filter :=
  [STMT (Z.lor (Z.lor BPF_ALU BPF_AND) BPF_K) 0x1F;
   STMT (Z.lor BPF_MISC BPF_TAX) 0;
   STMT (Z.lor BPF_LD BPF_IMM) 1;
   STMT (Z.lor (Z.lor BPF_ALU BPF_LSH) BPF_X) 0;
   STMT (Z.lor BPF_MISC BPF_TAX) 0;
   LD_NR]
  ++ (if negb (flag =? 0) then [unmask_flag flag] else [])
  ++ [STMT (Z.lor (Z.lor BPF_ALU BPF_RSH) BPF_K) 5].

Definition binary_section_prologue (c : config) (p : Z) : list sock_filter :=
  let aa := audit_arch_at c p in
  let multi := 1 <? SUPPORTED_PERSONALITIES c in
  (if multi then [JUMP (Z.lor (Z.lor BPF_JMP BPF_JEQ) BPF_K) (aa_arch aa) 0 JMP_PLACEHOLDER_NEXT]
   else [])
  ++ [LD_NR]
  ++ (if multi && negb (aa_flag aa =? 0)
      then [JUMP (Z.lor (Z.lor BPF_JMP BPF_JGE) BPF_K) (aa_flag aa) 2 0;
            LD_ARCH;
            JUMP (Z.lor BPF_JMP BPF_JA) JMP_PLACEHOLDER_NEXT 0 0;
            unmask_flag (aa_flag aa)] else [])
  ++ binary_word_select (aa_flag aa).

Definition binary_section_head (c : config) (p start : Z) : list sock_filter :=
  let pro := binary_section_prologue c p in
  pro ++ binary_words c p (Z.to_nat (nsyscalls_at c p)) 0 0 (start + lenZ pro).

Definition binary_section_tail : list sock_filter :=
  [RET SECCOMP_RET_ALLOW; RET SECCOMP_RET_TRACE].

Fixpoint binary_personalities (c : config) (n : nat) (filter : list sock_filter)
  : list sock_filter * bool :=
  match n with
  | O => (filter, false)
  | S n' =>
      if lenZ filter <=? BPF_MAXINSNS then
        let p := Z.of_nat n' in
        let start := lenZ filter in
        let head := binary_section_head c p start in
        let pos := start + lenZ head + lenZ binary_section_tail in
        if UCHAR_MAX <? pos - start then (filter ++ head ++ binary_section_tail, true)
        else binary_personalities c n'
               (filter ++ patch_jumps pos start head ++ binary_section_tail)
      else (filter, false)
  end.

Definition binary_match_filter_generator (c : config) : list sock_filter * bool :=
  let multi := 1 <? SUPPORTED_PERSONALITIES c in
  let '(filter, overflow) :=
    binary_personalities c (length (audit_arch_vec c)) (if multi then [LD_ARCH] else []) in
  if overflow then (filter, true)
  else (filter ++ (if multi then [RET SECCOMP_RET_TRACE] else []), false).

(** ** The choice of a program

    [bpf_prog] is the shortest program among those that did not overflow;
    [None] is its initial value. *)

Record bpf_prog_t := mk_prog { bp_len : Z; bp_filter : option (list sock_filter) }.
Definition bpf_prog_init : bpf_prog_t := mk_prog USHRT_MAX None.

Definition consider_generator (bpf_prog : bpf_prog_t) (generated : list sock_filter * bool)
  : bpf_prog_t :=
  let '(filter, overflow) := generated in
  let len := uint 16 (lenZ filter) in
  if (len <? bp_len bpf_prog) && negb overflow then mk_prog len (Some filter) else bpf_prog.

Definition filter_generators : list (config -> list sock_filter * bool) :=
  [linear_filter_generator; binary_match_filter_generator].

Definition select_filter (c : config) : bpf_prog_t :=
  fold_left (fun b g => consider_generator b (g c)) filter_generators bpf_prog_init.

(** ** The order of stops

    [check_seccomp_order_tracer] follows a child through the stops of one
    [gettid] call.  The child is the sequence of results of [waitpid] (the
    value returned, [errno] and the status); [setoptions_ok] and [resume_ok]
    say whether the two [ptrace] requests succeed.  The state is the pair of
    globals [seccomp_filtering] and [seccomp_before_sysentry]; the result is
    [None] while the tracer waits for more events, and otherwise the pid that
    is left to be killed. *)

Record seccomp_globals := mk_globals {
  seccomp_filtering : bool;
  seccomp_before_sysentry : bool;
}.

Record wait_result := mk_wait { w_rc : Z; w_errno : Z; w_status : Z }.

(** The switch on the stop signal at [step]: [None] is [return pid]. *)
Definition order_stop (setoptions_ok : bool) (step : Z) (status : Z) (g : seccomp_globals)
  : option seccomp_globals :=
  let sig := WSTOPSIG status in
  let event := event_of status in
  if sig =? SIGSTOP then
    if negb (step =? 0) then None else if setoptions_ok then Some g else None
  else if sig =? SIGTRAP then
    if negb (event =? PTRACE_EVENT_SECCOMP) then None
    else if step =? 1 then Some (mk_globals (seccomp_filtering g) true)
    else if (step =? 2) && negb (seccomp_before_sysentry g) then Some g
    else None
  else if sig =? Z.lor SIGTRAP 0x80 then
    if (step =? 3) || (step =? 4) then Some g
    else if step =? 1 then Some (mk_globals (seccomp_filtering g) false)
    else if (step =? 2) && seccomp_before_sysentry g then Some g
    else None
  else None.

Fixpoint check_seccomp_order_tracer (setoptions_ok : bool) (resume_ok : Z -> bool)
    (pid step : Z) (waits : list wait_result) (g : seccomp_globals)
  : option (seccomp_globals * Z) :=
  match waits with
  | [] => None
  | w :: waits' =>
      let status := w_status w in
      if (w_rc w <? 0) && (w_errno w =? EINTR)
      then check_seccomp_order_tracer setoptions_ok resume_ok pid step waits' g
      else if negb (w_rc w =? pid) then Some (g, pid)
      else if WIFEXITED status then
        if (step =? 5) && (WEXITSTATUS status =? 0)
        then Some (mk_globals true (seccomp_before_sysentry g), 0) else Some (g, 0)
      else if WIFSIGNALED status then Some (g, 0)
      else if negb (WIFSTOPPED status) then Some (g, pid)
      else match order_stop setoptions_ok step status g with
           | None => Some (g, pid)
           | Some g' =>
               if resume_ok step
               then check_seccomp_order_tracer setoptions_ok resume_ok pid (step + 1) waits' g'
               else Some (g', pid)
           end
  end.

(** [check_seccomp_order]: [fork_pid] is the result of [fork]; with [None] the
    tracer still waits.  [kill] and the final [waitpid] act on the child only. *)
Definition check_seccomp_order (setoptions_ok : bool) (resume_ok : Z -> bool)
    (fork_pid : Z) (waits : list wait_result) (g : seccomp_globals) : option seccomp_globals :=
  let g := mk_globals false (seccomp_before_sysentry g) in
  if fork_pid <? 0 then Some g
  else fst <$> check_seccomp_order_tracer setoptions_ok resume_ok fork_pid 0 waits g.

(** [check_seccomp_filter_properties]: [rc] and [errno] are what
    [prctl(PR_SET_SECCOMP, SECCOMP_MODE_FILTER, NULL)] gives; [order] runs
    [check_seccomp_order]. *)
Definition check_seccomp_filter_properties (c : config) (rc errno : Z)
    (order : seccomp_globals -> option seccomp_globals) (g : seccomp_globals)
  : option (seccomp_globals * bpf_prog_t) :=
  let filtering := (rc <? 0) && negb (errno =? EINVAL) in
  let g := mk_globals filtering (seccomp_before_sysentry g) in
  if negb filtering then Some (g, bpf_prog_init)
  else
    let prog := select_filter c in
    let filtering := if bp_len prog =? USHRT_MAX then false
                     else if BPF_MAXINSNS <? bp_len prog then false else true in
    let g := mk_globals filtering (seccomp_before_sysentry g) in
    if filtering then (fun g => (g, prog)) <$> order g else Some (g, prog).

Definition check_seccomp_filter (c : config) (rc errno : Z)
    (order : seccomp_globals -> option seccomp_globals) (g : seccomp_globals)
  : option (seccomp_globals * bpf_prog_t) :=
  let complete := match trace_set c with
                  | Some l => is_complete_set_array l (nsyscall_vec c)
                  | None => false
                  end in
  let filtering := negb complete in
  let g := mk_globals filtering (seccomp_before_sysentry g) in
  if negb filtering then Some (g, bpf_prog_init)
  else check_seccomp_filter_properties c rc errno order g.

(** [seccomp_filter_restart_operator], of a tracee that is [exiting] a
    syscall (or not) with number [scno] under [current_personality]. *)
Definition seccomp_filter_restart_operator (c : config) (exiting : bool) (scno current_personality : Z)
  : Z :=
  if exiting && (scno <? nsyscalls_at c current_personality)
     && traced_by_seccomp c scno current_personality
  then PTRACE_SYSCALL else PTRACE_CONT.

(** ** Well-formed configurations

    Every personality has a flag that is zero or a single bit above the range
    of its syscall numbers, as the tables of the build have. *)

Record wf_personality (c : config) (p : Z) : Prop := {
  wf_nsys : 0 <= nsyscalls_at c p < 2 ^ 31;
  wf_flag : aa_flag (audit_arch_at c p) = 0
            \/ exists e, 5 <= e < 31 /\ aa_flag (audit_arch_at c p) = 2 ^ e
                         /\ nsyscalls_at c p < 2 ^ e;
}.

Definition wf_config (c : config) : Prop :=
  (forall p, 0 <= p < SUPPORTED_PERSONALITIES c -> wf_personality c p)
  /\ 0 < SUPPORTED_PERSONALITIES c <= 15.

Lemma lor_flag c p i :
  wf_personality c p -> 0 <= i <= nsyscalls_at c p ->
  Z.lor i (aa_flag (audit_arch_at c p)) = i + aa_flag (audit_arch_at c p).
Proof.
  intros [Hn Hf] Hi. rewrite <- Z.add_lor_land.
  enough (E : Z.land i (aa_flag (audit_arch_at c p)) = 0) by lia.
  destruct Hf as [-> | (e & He & -> & Hlt)]; [apply Z.land_0_r|].
  apply Z.bits_inj'. intros b Hb. rewrite Z.land_spec, Z.testbit_0_l, Z.pow2_bits_eqb by lia.
  destruct (Z.eqb_spec e b) as [<-|]; [|apply andb_false_r].
  rewrite (testbit_high e) by (unfold in_uint; lia). done.
Qed.


(** ** Running generated code *)

(** A jump offset of the instruction at [i] after resolution. *)
Definition resolve (pos i off : Z) : Z :=
  replace_jmp_placeholders off (uint 8 (pos - i - 1)) (uint 8 (pos - i - 2)) (uint 8 (pos - i - 3)).

Definition rets : list sock_filter := [RET SECCOMP_RET_ALLOW; RET SECCOMP_RET_TRACE].

Lemma skip_app l R n : n = lenZ l -> skip n (l ++ R) = R.
Proof. intros ->. unfold skip, lenZ. rewrite Nat2Z.id. by rewrite drop_app_length. Qed.

Lemma patch_jumps_app pos i l1 l2 :
  patch_jumps pos i (l1 ++ l2) = patch_jumps pos i l1 ++ patch_jumps pos (i + lenZ l1) l2.
Proof.
  revert i. induction l1 as [|f l1 IH]; intros i; simpl.
  - unfold lenZ. simpl. by rewrite Z.add_0_r.
  - rewrite IH. do 2 f_equal. unfold lenZ. simpl. f_equal. lia.
Qed.

Lemma lenZ_patch pos i l : lenZ (patch_jumps pos i l) = lenZ l.
Proof.
  revert i. unfold lenZ. induction l as [|f l IH]; intros i; [done|].
  simpl length. specialize (IH (i + 1)). lia.
Qed.

Lemma patch_jumps_cons pos i f l :
  patch_jumps pos i (f :: l) = patch_insn pos i f :: patch_jumps pos (i + 1) l.
Proof. done. Qed.

#[export] Hint Rewrite lenZ_patch : strace.

Section machine.
Context {BM : BpfMachine}.
Implicit Types (d : seccomp_data) (l R rest prog : list sock_filter).

(** The laws of the machine on resolved instructions. *)
Lemma run_ld_nr d p A X : bpf_run d (LD_NR :: p) A X = bpf_run d p (nr d) X.
Proof. apply bpf_ld_nr. Qed.
Lemma run_ld_arch d p A X : bpf_run d (LD_ARCH :: p) A X = bpf_run d p (arch d) X.
Proof. apply bpf_ld_arch. Qed.
Lemma run_ret d v p A X : bpf_run d (RET v :: p) A X = Some v.
Proof. apply bpf_ret. Qed.

Lemma run_pjeq d c t f kk pos i p A X :
  Z.lor BPF_JMP c = 0x15 ->
  bpf_run d (patch_insn pos i (JUMP c kk t f) :: p) A X
  = bpf_run d (skip (if A =? kk then resolve pos i t else resolve pos i f) p) A X.
Proof. intros E. unfold patch_insn, JUMP. cbn [code]. rewrite E. apply bpf_jeq. Qed.

Lemma run_pjge d c t f kk pos i p A X :
  Z.lor BPF_JMP c = 0x35 ->
  bpf_run d (patch_insn pos i (JUMP c kk t f) :: p) A X
  = bpf_run d (skip (if kk <=? A then resolve pos i t else resolve pos i f) p) A X.
Proof. intros E. unfold patch_insn, JUMP. cbn [code]. rewrite E. apply bpf_jge. Qed.

Lemma run_pjset d c t f kk pos i p A X :
  Z.lor BPF_JMP c = 0x45 ->
  bpf_run d (patch_insn pos i (JUMP c kk t f) :: p) A X
  = bpf_run d (skip (if has A kk then resolve pos i t else resolve pos i f) p) A X.
Proof. intros E. unfold patch_insn, JUMP. cbn [code]. rewrite E. apply bpf_jset. Qed.

Lemma run_pja d c t f kk pos i p A X :
  Z.lor BPF_JMP c = 0x05 ->
  bpf_run d (patch_insn pos i (JUMP c kk t f) :: p) A X
  = bpf_run d (skip (uint 8 (pos - i - 1)) p) A X.
Proof. intros E. unfold patch_insn, JUMP. cbn [code]. rewrite E. apply bpf_ja. Qed.

Lemma run_jge d t f kk p A X :
  bpf_run d (JUMP (Z.lor BPF_JGE BPF_K) kk t f :: p) A X
  = bpf_run d (skip (if kk <=? A then t else f) p) A X.
Proof. apply bpf_jge. Qed.

Lemma uint8_small z : 0 <= z <= UCHAR_MAX -> uint 8 z = z.
Proof. intros. apply uint_small. unfold in_uint, UCHAR_MAX in *. lia. Qed.

(** The three targets of a placeholder: [B] is what separates the jump at [i]
    from the two return instructions that end the section at [pos]. *)
Lemma jump_next d B rest prog pos i A X :
  prog = B ++ rets ++ rest -> lenZ B = pos - i - 3 -> pos - i <= UCHAR_MAX ->
  bpf_run d (skip (uint 8 (pos - i - 1)) prog) A X = bpf_run d rest A X.
Proof.
  intros -> HB Hmax. pose proof (lenZ_nonneg B). rewrite uint8_small by lia.
  rewrite app_assoc, skip_app; [done|]. unfold rets. len_lia.
Qed.

Lemma jump_trace d B rest prog pos i A X :
  prog = B ++ rets ++ rest -> lenZ B = pos - i - 3 -> pos - i <= UCHAR_MAX ->
  bpf_run d (skip (resolve pos i JMP_PLACEHOLDER_TRACE) prog) A X = Some SECCOMP_RET_TRACE.
Proof.
  intros -> HB Hmax. pose proof (lenZ_nonneg B).
  change (resolve pos i JMP_PLACEHOLDER_TRACE) with (uint 8 (pos - i - 2)).
  rewrite uint8_small by lia. unfold rets.
  rewrite (app_assoc B [_] (_ :: rest) : B ++ [_; _] ++ rest = _).
  rewrite skip_app; [apply run_ret|]. len_lia.
Qed.

Lemma jump_allow d B rest prog pos i A X :
  prog = B ++ rets ++ rest -> lenZ B = pos - i - 3 -> pos - i <= UCHAR_MAX ->
  bpf_run d (skip (resolve pos i JMP_PLACEHOLDER_ALLOW) prog) A X = Some SECCOMP_RET_ALLOW.
Proof.
  intros -> HB Hmax. pose proof (lenZ_nonneg B).
  change (resolve pos i JMP_PLACEHOLDER_ALLOW) with (uint 8 (pos - i - 3)).
  rewrite uint8_small by lia. rewrite skip_app by lia. apply run_ret.
Qed.

(** ** The linear program *)

Lemma run_cmp d lo hi pos j R rest A X :
  lo < hi ->
  pos - j = lenZ (bpf_syscalls_cmp lo hi) + lenZ R + 2 -> pos - j <= UCHAR_MAX ->
  bpf_run d (patch_jumps pos j (bpf_syscalls_cmp lo hi) ++ R ++ rets ++ rest) A X
  = if (lo <=? A) && (A <? hi) then Some SECCOMP_RET_TRACE
    else bpf_run d (R ++ rets ++ rest) A X.
Proof.
  intros Hlt Hpos Hmax. pose proof (lenZ_nonneg R). unfold bpf_syscalls_cmp in *.
  destruct (Z.eqb_spec (lo + 1) hi) as [<-|Hne]; rewrite ?patch_jumps_cons; cbn [app patch_jumps].
  - rewrite run_pjeq by done.
    replace ((lo <=? A) && (A <? lo + 1)) with (A =? lo) by lia.
    destruct (A =? lo); [|done]. eapply jump_trace; [done| |]; len_lia.
  - rewrite run_pjge by done. destruct (Z.leb_spec lo A); simpl andb; [|done].
    change (skip _ ?l) with l. rewrite run_pjge by done.
    replace (A <? hi) with (negb (hi <=? A)) by lia.
    destruct (hi <=? A); [done|]. eapply jump_trace; [done| |]; len_lia.
Qed.

(** The verdict the linear program encodes for the number [idx] of the
    personality's table. *)
Definition linear_verdict (c : config) (p : Z) (idx : Z) : Z :=
  if (0 <=? idx) && (idx <? nsyscalls_at c p) && traced_by_seccomp c idx p then SECCOMP_RET_TRACE
  else if nsyscalls_at c p <=? idx then SECCOMP_RET_TRACE else SECCOMP_RET_ALLOW.

(** The start of the traced run in progress. *)
Definition run_start (i lower : Z) : Z := if lower =? UINT_MAX then i else lower.

Lemma run_linear_tail c p d rest X :
  wf_personality c p ->
  bpf_run d (linear_section_tail c p ++ rest) (nr d) X
  = Some (if nsyscalls_at c p <=? nr d - aa_flag (audit_arch_at c p)
          then SECCOMP_RET_TRACE else SECCOMP_RET_ALLOW).
Proof.
  intros Hwf. pose proof (wf_nsys _ _ Hwf). unfold linear_section_tail.
  rewrite lor_flag by (done || lia). cbn [app]. rewrite run_jge.
  replace (nsyscalls_at c p <=? nr d - _)
    with (nsyscalls_at c p + aa_flag (audit_arch_at c p) <=? nr d) by lia.
  destruct (_ <=? nr d); apply run_ret.
Qed.

Lemma run_linear_ranges c p d n i lower pos j rest X idx :
  wf_personality c p -> idx = nr d - aa_flag (audit_arch_at c p) ->
  0 <= i -> i + Z.of_nat n = nsyscalls_at c p ->
  (lower = UINT_MAX
   \/ (0 <= lower < i /\ forall m, lower <= m < i -> traced_by_seccomp c m p = true)) ->
  pos - j = lenZ (linear_ranges c p n i lower) + 3 -> pos - j <= UCHAR_MAX ->
  bpf_run d (patch_jumps pos j (linear_ranges c p n i lower) ++ linear_section_tail c p ++ rest)
          (nr d) X
  = Some (if (run_start i lower <=? idx) && (idx <? nsyscalls_at c p)
             && traced_by_seccomp c idx p then SECCOMP_RET_TRACE
          else if nsyscalls_at c p <=? idx then SECCOMP_RET_TRACE else SECCOMP_RET_ALLOW).
Proof.
  intros Hwf Hidx. pose proof (wf_nsys _ _ Hwf) as Hns.
  assert (Hu : forall m, 0 <= m < 2 ^ 31 -> (m =? UINT_MAX) = false) by (unfold UINT_MAX; lia).
  assert (Etail : forall l, linear_section_tail c p ++ l
    = [JUMP (Z.lor BPF_JGE BPF_K) (Z.lor (nsyscalls_at c p) (aa_flag (audit_arch_at c p))) 1 0]
      ++ rets ++ l) by done.
  unfold run_start. revert i lower j.
  induction n as [|n IH]; intros i lower j Hi Hn Hlow Hpos Hmax; simpl linear_ranges in *.
  - (* after the loop *)
    destruct Hlow as [->|[Hlow Htr]].
    + rewrite Z.eqb_refl in *. cbn [patch_jumps app]. rewrite run_linear_tail, <- Hidx by done.
      destruct (_ && _ && _) eqn:E; [lia|done].
    + rewrite Hu in * by lia. rewrite !lor_flag in * by (done || lia).
      rewrite Etail, run_cmp by len_lia. rewrite <- Etail, run_linear_tail, <- Hidx by done.
      destruct (_ && (nr d <? _)) eqn:E1.
      * rewrite (Htr idx) by lia.
        by replace ((lower <=? idx) && (idx <? nsyscalls_at c p)) with true by lia.
      * by replace ((lower <=? idx) && (idx <? nsyscalls_at c p)) with false by lia.
  - (* one iteration *)
    destruct (traced_by_seccomp c i p) eqn:Ht; [|destruct Hlow as [->|[Hlow Htr]]].
    + rewrite IH; [| lia | lia | | lia | lia].
      * destruct Hlow as [->|[? _]]; [rewrite Z.eqb_refl|rewrite !(Hu lower) by lia]; cbv match;
          by rewrite ?Hu by lia.
      * right. destruct Hlow as [->|[? Htr]]; [rewrite Z.eqb_refl|rewrite Hu by lia].
        { split; [lia|]. intros m ?. by replace m with i by lia. }
        { split; [lia|]. intros m ?. destruct (Z.eq_dec m i) as [->|]; [done|]. apply Htr; lia. }
    + rewrite Z.eqb_refl in *. rewrite IH; [|lia|lia|by left|lia|lia]. rewrite Z.eqb_refl.
      destruct (Z.eq_dec idx i) as [->|]; [by rewrite Ht, !andb_false_r|].
      by replace (i + 1 <=? idx) with (i <=? idx) by lia.
    + rewrite Hu in * by lia. rewrite !lor_flag in * by (done || lia).
      rewrite patch_jumps_app, <- app_assoc, Etail.
      rewrite (app_assoc (patch_jumps pos (_ + _) _)).
      rewrite run_cmp by len_lia. rewrite <- app_assoc, <- Etail.
      rewrite IH; [|lia|lia|by left|len_lia|len_lia]. rewrite Z.eqb_refl.
      destruct (_ && (nr d <? _)) eqn:E1.
      * rewrite (Htr idx) by lia.
        by replace ((lower <=? idx) && (idx <? nsyscalls_at c p)) with true by lia.
      * destruct (Z.eq_dec idx i) as [->|]; [by rewrite Ht, !andb_false_r|].
        by replace (i + 1 <=? idx) with (lower <=? idx) by lia.
Qed.

(** ** Sections of the linear program *)

(** Whether the section of personality [p] decides the syscall. *)
Definition section_matches (c : config) (p : Z) d : bool :=
  let aa := audit_arch_at c p in
  (arch d =? aa_arch aa) && ((aa_flag aa =? 0) || (aa_flag aa <=? nr d)).

Lemma run_linear_section_multi c p d start pos rest X :
  wf_personality c p -> 1 < SUPPORTED_PERSONALITIES c ->
  pos = start + lenZ (linear_section_head c p) + 3 -> pos - start <= UCHAR_MAX ->
  bpf_run d (patch_jumps pos start (linear_section_head c p) ++ linear_section_tail c p ++ rest)
          (arch d) X
  = if section_matches c p d
    then Some (linear_verdict c p (nr d - aa_flag (audit_arch_at c p)))
    else bpf_run d rest (arch d) X.
Proof.
  intros Hwf Hmulti Hpos Hmax. pose proof (wf_nsys _ _ Hwf).
  assert (Hm : (1 <? SUPPORTED_PERSONALITIES c) = true) by lia.
  unfold linear_section_head, section_matches in *. rewrite Hm in *.
  change (true && ?b) with b in *. cbn [app] in *. rewrite patch_jumps_cons. cbn [app].
  rewrite run_pjeq by done.
  destruct (arch d =? _); simpl andb;
    [|eapply (jump_next d (_ ++ [_])); [by rewrite <- (app_assoc _ [_])| |]; len_lia].
  change (skip _ ?l) with l. rewrite patch_jumps_cons. cbn [app].
  change (patch_insn _ _ LD_NR) with LD_NR. rewrite run_ld_nr.
  destruct (Z.eqb_spec (aa_flag (audit_arch_at c p)) 0) as [E|E]; cbn [negb orb app] in *.
  - rewrite (run_linear_ranges _ _ _ _ _ _ _ _ _ _ (nr d - aa_flag (audit_arch_at c p)));
      (done || len_lia).
  - rewrite !patch_jumps_cons. cbn [app]. rewrite run_pjge by done.
    destruct (_ <=? nr d).
    + change (skip _ (_ :: _ :: ?l)) with l.
      rewrite (run_linear_ranges _ _ _ _ _ _ _ _ _ _ (nr d - aa_flag (audit_arch_at c p)));
        (done || len_lia).
    + change (skip _ ?l) with l. change (patch_insn _ _ LD_ARCH) with LD_ARCH.
      rewrite run_ld_arch, run_pja by done.
      eapply (jump_next d (_ ++ [_])); [by rewrite <- (app_assoc _ [_])| |]; len_lia.
Qed.

Lemma run_linear_section_single c p d start pos rest A X :
  wf_personality c p -> SUPPORTED_PERSONALITIES c = 1 ->
  pos = start + lenZ (linear_section_head c p) + 3 -> pos - start <= UCHAR_MAX ->
  bpf_run d (patch_jumps pos start (linear_section_head c p) ++ linear_section_tail c p ++ rest) A X
  = Some (linear_verdict c p (nr d - aa_flag (audit_arch_at c p))).
Proof.
  intros Hwf Hs Hpos Hmax. pose proof (wf_nsys _ _ Hwf).
  unfold linear_section_head in *. rewrite Hs in *. cbn [Z.ltb Z.compare Pos.compare Pos.compare_cont app andb] in *.
  rewrite patch_jumps_cons. cbn [app]. change (patch_insn _ _ LD_NR) with LD_NR. rewrite run_ld_nr.
  rewrite (run_linear_ranges _ _ _ _ _ _ _ _ _ _ (nr d - aa_flag (audit_arch_at c p)));
    (done || len_lia).
Qed.

(** The personality whose section decides a syscall: sections are emitted
    from the last personality to the first. *)
Fixpoint matching_personality (c : config) (n : nat) d : option Z :=
  match n with
  | O => None
  | S n' => if section_matches c (Z.of_nat n') d then Some (Z.of_nat n')
            else matching_personality c n' d
  end.

Definition decide_with (verdict : config -> Z -> Z -> Z) (c : config) d : Z :=
  let on p := verdict c p (nr d - aa_flag (audit_arch_at c p)) in
  if 1 <? SUPPORTED_PERSONALITIES c then
    match matching_personality c (length (audit_arch_vec c)) d with
    | Some p => on p
    | None => SECCOMP_RET_TRACE
    end
  else on 0.

Lemma run_linear_personalities c n filter out d rest X :
  wf_config c -> 1 < SUPPORTED_PERSONALITIES c -> (n <= length (audit_arch_vec c))%nat ->
  linear_personalities c n filter = (out, false) ->
  exists body, out = filter ++ body /\
  bpf_run d (body ++ rest) (arch d) X =
  match matching_personality c n d with
  | Some p => Some (linear_verdict c p (nr d - aa_flag (audit_arch_at c p)))
  | None => bpf_run d rest (arch d) X
  end.
Proof.
  intros [Hwf _] Hm. revert filter. induction n as [|n IH]; simpl; intros filter Hn Hout.
  - injection Hout as <-. exists []. by rewrite app_nil_r.
  - destruct (Z.ltb_spec UCHAR_MAX (lenZ filter + lenZ (linear_section_head c (Z.of_nat n))
      + lenZ (linear_section_tail c (Z.of_nat n)) - lenZ filter)) as [|Hlen]; [done|].
    apply IH in Hout as (body & -> & Hrun); [|lia].
    eexists. split; [by rewrite <- app_assoc|]. rewrite <- !app_assoc.
    rewrite run_linear_section_multi; try done.
    + by destruct (section_matches c (Z.of_nat n) d).
    + apply Hwf. unfold SUPPORTED_PERSONALITIES, lenZ. lia.
Qed.

Lemma linear_program_runs c prog d A X :
  wf_config c -> linear_filter_generator c = (prog, false) ->
  bpf_run d prog A X = Some (decide_with linear_verdict c d).
Proof.
  intros Hwf. unfold linear_filter_generator, decide_with.
  destruct (Z.ltb_spec 1 (SUPPORTED_PERSONALITIES c)) as [Hm|Hs].
  - destruct (linear_personalities _ _ _) as [out [|]] eqn:E; [done|].
    intros [= <-]. eapply (run_linear_personalities _ _ _ _ d _ X) in E as (body & -> & Hrun); [|done..].
    rewrite <- app_assoc. cbn [app]. rewrite run_ld_arch, Hrun.
    case_match; [done|]. apply run_ret.
  - destruct Hwf as [Hwf Hn]. assert (Hone : SUPPORTED_PERSONALITIES c = 1) by lia.
    replace (length (audit_arch_vec c)) with 1%nat by (unfold SUPPORTED_PERSONALITIES, lenZ in *; lia).
    cbn [linear_personalities]. change (Z.of_nat 0) with 0.
    destruct (_ <? _) eqn:E; [done|]. intros [= <-]. rewrite <- app_assoc.
    apply run_linear_section_single; try done.
    + apply Hwf. lia.
    + change (lenZ (linear_section_tail c 0)) with 3 in *. len_lia.
Qed.

(** ** The binary-match program *)

Lemma run_match d bits idx pos j R rest A b :
  0 <= b < 32 ->
  pos - j = lenZ (bpf_syscalls_match bits idx) + lenZ R + 2 -> pos - j <= UCHAR_MAX ->
  bpf_run d (patch_jumps pos j (bpf_syscalls_match bits idx) ++ R ++ rets ++ rest) A (2 ^ b)
  = if A =? idx then Some (if Z.testbit bits b then SECCOMP_RET_TRACE else SECCOMP_RET_ALLOW)
    else bpf_run d (R ++ rets ++ rest) A (2 ^ b).
Proof.
  intros Hb Hpos Hmax. unfold bpf_syscalls_match in *.
  destruct (Z.eqb_spec bits 0) as [->|_]; [|destruct (Z.eqb_spec bits UINT_MAX) as [->|_]];
    rewrite ?patch_jumps_cons; cbn [app patch_jumps]; rewrite run_pjeq by done.
  - destruct (A =? idx); [|done]. rewrite Z.testbit_0_l.
    eapply jump_allow; [done| |]; len_lia.
  - destruct (A =? idx); [|done].
    replace (Z.testbit UINT_MAX b) with true
      by (symmetry; change UINT_MAX with (Z.ones 32); apply Z.ones_spec_low; lia).
    eapply jump_trace; [done| |]; len_lia.
  - destruct (A =? idx); [|done]. change (skip _ ?l) with l.
    change (patch_insn _ _ (STMT ?c ?kk)) with (STMT c kk).
    unfold STMT. rewrite bpf_txa. rewrite run_pjset, has_pow2_l by (done || lia).
    destruct (Z.testbit bits b).
    + eapply jump_trace; [done| |]; len_lia.
    + eapply jump_allow; [done| |]; len_lia.
Qed.

(** The verdict the binary-match program encodes for the number [idx] of the
    personality's table. *)
Definition binary_verdict (c : config) (p : Z) (idx : Z) : Z :=
  if (0 <=? idx) && (idx <? nsyscalls_at c p) && traced_by_seccomp c idx p
  then SECCOMP_RET_TRACE else SECCOMP_RET_ALLOW.

(** The word being collected holds the traced numbers seen so far. *)
Definition word_inv (c : config) (p i bits : Z) : Prop :=
  forall b, 0 <= b -> Z.testbit bits b = (b <? i mod 32) && traced_by_seccomp c (32 * (i / 32) + b) p.

Lemma word_inv_step c p i bits :
  0 <= i -> word_inv c p i bits ->
  let bits' := if traced_by_seccomp c i p then Z.lor bits (Z.shiftl 1 (i mod 32)) else bits in
  forall b, 0 <= b -> Z.testbit bits' b
    = (b <? i mod 32 + 1) && traced_by_seccomp c (32 * (i / 32) + b) p.
Proof.
  intros Hi Hinv bits' b Hb. unfold bits'. pose proof (Z.mod_pos_bound i 32 ltac:(lia)).
  pose proof (Z.div_mod i 32 ltac:(lia)) as Edm.
  destruct (Z.eq_dec b (i mod 32)) as [->|Hne].
  - rewrite <- Edm. replace (i mod 32 <? i mod 32 + 1) with true by lia. simpl.
    destruct (traced_by_seccomp c i p).
    + rewrite Z.lor_spec, testbit_shiftl1, Z.eqb_refl by lia. apply orb_true_r.
    + rewrite Hinv by lia. by rewrite Z.ltb_irrefl.
  - replace (b <? i mod 32 + 1) with (b <? i mod 32) by lia. rewrite <- Hinv by done.
    destruct (traced_by_seccomp c i p); [|done].
    rewrite Z.lor_spec, testbit_shiftl1 by lia.
    replace (i mod 32 =? b) with false by lia. apply orb_false_r.
Qed.

Ltac div_lia := Z.to_euclidean_division_equations; lia.

(** A collected word that covers the numbers from [32 * w] up to [hi] decides
    the numbers that share its index. *)
Lemma word_decides c p bits w hi idx :
  0 <= idx -> 32 * w <= hi <= 32 * w + 32 ->
  (forall b, 0 <= b -> Z.testbit bits b = (b <? hi - 32 * w) && traced_by_seccomp c (32 * w + b) p) ->
  idx / 32 = w ->
  Z.testbit bits (idx mod 32) = (idx <? hi) && traced_by_seccomp c idx p.
Proof.
  intros Hidx Hhi Hb <-. rewrite Hb by (apply Z.mod_pos_bound; lia).
  replace (32 * (idx / 32) + idx mod 32) with idx by (apply Z.div_mod; lia).
  f_equal. assert (idx mod 32 = idx - 32 * (idx / 32)) by (rewrite Z.mod_eq; lia). lia.
Qed.

Lemma run_binary_words c p d n i bits pos0 pos j rest idx :
  0 <= i -> i + Z.of_nat n = nsyscalls_at c p -> 0 <= idx -> word_inv c p i bits ->
  pos - j = lenZ (binary_words c p n i bits pos0) + 2 -> pos - j <= UCHAR_MAX ->
  pos0 + lenZ (binary_words c p n i bits pos0) <= BPF_MAXINSNS ->
  bpf_run d (patch_jumps pos j (binary_words c p n i bits pos0) ++ rets ++ rest)
          (idx / 32) (2 ^ (idx mod 32))
  = Some (if (32 * (i / 32) <=? idx) && (idx <? nsyscalls_at c p) && traced_by_seccomp c idx p
          then SECCOMP_RET_TRACE else SECCOMP_RET_ALLOW).
Proof.
  assert (Hmod : forall z, 0 <= z mod 32 < 32) by (intros; apply Z.mod_pos_bound; lia).
  intros Hi0 Hn0 Hidx. revert i bits pos0 j Hi0 Hn0.
  induction n as [|n IH]; intros i bits pos0 j Hi Hn Hinv Hpos Hmax Hguard;
    cbn [binary_words] in *.
  - replace i with (nsyscalls_at c p) in * by lia. clear Hi Hn i.
    set (ns := nsyscalls_at c p) in *. destruct (Z.eqb_spec (ns mod 32) 0) as [E|E].
    + cbn [patch_jumps app]. unfold rets at 1. cbn [app]. rewrite run_ret.
      replace ((32 * (ns / 32) <=? idx) && (idx <? ns)) with false by div_lia. done.
    + change (rets ++ rest) with ([] ++ rets ++ rest).
      rewrite run_match by (apply Hmod || len_lia).
      destruct (Z.eqb_spec (idx / 32) (ns / 32)) as [Ew|Ew].
      * rewrite (word_decides c p _ (ns / 32) ns) by first [done | div_lia
          | intros; rewrite Hinv by done; do 2 f_equal; div_lia].
        by replace (32 * (ns / 32) <=? idx) with true by div_lia.
      * unfold rets at 1. cbn [app]. rewrite run_ret.
        replace ((32 * (ns / 32) <=? idx) && (idx <? ns)) with false by div_lia. done.
  - replace (pos0 <=? BPF_MAXINSNS) with true in *
      by (destruct (Z.leb_spec pos0 BPF_MAXINSNS); [done|len_lia]).
    pose proof (word_inv_step c p i bits Hi Hinv) as Hstep. cbv zeta in Hstep.
    set (bits' := if traced_by_seccomp c i p then _ else _) in *.
    destruct (Z.eqb_spec (i mod 32) 31) as [E|E].
    + rewrite patch_jumps_app, <- app_assoc. rewrite run_match by (apply Hmod || len_lia).
      destruct (Z.eqb_spec (idx / 32) (i / 32)) as [Ew|Ew].
      * rewrite (word_decides c p _ (i / 32) (i + 1)) by first [done | div_lia
          | intros; rewrite Hstep by done; do 2 f_equal; div_lia].
        replace (idx <? i + 1) with true by div_lia.
        by replace ((32 * (i / 32) <=? idx) && (idx <? nsyscalls_at c p)) with true by div_lia.
      * rewrite IH; [|lia|lia| |len_lia..].
        { replace (32 * ((i + 1) / 32) <=? idx) with (32 * (i / 32) <=? idx) by div_lia. done. }
        intros b Hb. rewrite Z.testbit_0_l. replace (b <? (i + 1) mod 32) with false by div_lia. done.
    + rewrite IH; [|lia|lia| |done..].
      * by replace ((i + 1) / 32) with (i / 32) by div_lia.
      * intros b Hb. rewrite Hstep by done. f_equal; [|do 2 f_equal]; div_lia.
Qed.

(** The number without the personality's flag, as the filter computes it. *)
Definition unflag (flag z : Z) : Z := if flag =? 0 then z else Z.land z (uint 32 (Z.lnot flag)).

Lemma patch_word_select pos i flag :
  patch_jumps pos i (binary_word_select flag) = binary_word_select flag.
Proof. unfold binary_word_select. by destruct (flag =? 0). Qed.

Lemma run_word_select d flag prog A X :
  0 <= nr d -> 0 <= A ->
  bpf_run d (binary_word_select flag ++ prog) A X
  = bpf_run d prog (unflag flag (nr d) / 32) (2 ^ (A mod 32)).
Proof.
  intros Hnr HA. unfold binary_word_select, unflag, STMT.
  assert (EA : Z.land A 0x1F = A mod 32) by (change 0x1F with (Z.ones 5); by apply Z.land_ones).
  pose proof (Z.mod_pos_bound A 32 ltac:(lia)) as Hm.
  assert (EX : uint 32 (Z.shiftl 1 (A mod 32)) = 2 ^ (A mod 32)).
  { rewrite Z.shiftl_1_l. apply uint_small. split; [apply Z.pow_nonneg; lia|].
    apply Z.pow_lt_mono_r; lia. }
  cbn [app]. rewrite bpf_and, EA, bpf_tax, bpf_ld_imm, bpf_lsh_x, bpf_tax, EX, run_ld_nr by lia.
  destruct (flag =? 0); cbn [negb app]; [|unfold unmask_flag, STMT; rewrite bpf_and];
    rewrite bpf_rsh by lia; by rewrite Z.shiftr_div_pow2 by lia.
Qed.

Lemma unflag_testbit e z b :
  0 <= e < 32 -> in_uint 32 z -> 0 <= b ->
  Z.testbit (unflag (2 ^ e) z) b = Z.testbit z b && negb (b =? e).
Proof.
  intros He Hz Hb. unfold unflag. pose proof (pow2_pos e ltac:(lia)).
  replace (2 ^ e =? 0) with false by lia.
  rewrite Z.land_spec. unfold uint. destruct (Z_lt_ge_dec b 32).
  - rewrite Z.mod_pow2_bits_low, Z.lnot_spec, Z.pow2_bits_eqb by lia. by rewrite Z.eqb_sym.
  - by rewrite (testbit_high 32 z) by (done || lia).
Qed.

(** With the flag's bit set, clearing it is a subtraction. *)
Lemma unflag_sub e z :
  0 <= e < 32 -> in_uint 32 z -> Z.testbit z e = true -> unflag (2 ^ e) z = z - 2 ^ e.
Proof.
  intros He Hz Hbit.
  enough (E : Z.lor (unflag (2 ^ e) z) (2 ^ e) = z /\ Z.land (unflag (2 ^ e) z) (2 ^ e) = 0).
  { pose proof (Z.add_lor_land (unflag (2 ^ e) z) (2 ^ e)). lia. }
  split; apply Z.bits_inj'; intros b Hb;
    rewrite ?Z.lor_spec, ?Z.land_spec, unflag_testbit, Z.pow2_bits_eqb, ?Z.testbit_0_l by (done || lia);
    destruct (Z.eqb_spec e b) as [<-|]; rewrite ?Z.eqb_refl, ?Hbit; try done.
  - replace (b =? e) with false by lia. by rewrite andb_true_r, orb_false_r.
  - by rewrite andb_false_r.
Qed.

Lemma unflag_nonneg flag z : 0 <= z -> 0 <= unflag flag z.
Proof. intros. unfold unflag. case_match; [done|]. apply Z.land_nonneg. by left. Qed.

(** Numbers at or above the flag are decided as if the flag was subtracted. *)
Lemma binary_verdict_unflag c p z :
  wf_personality c p -> in_uint 32 z ->
  aa_flag (audit_arch_at c p) <= z ->
  binary_verdict c p (unflag (aa_flag (audit_arch_at c p)) z)
  = binary_verdict c p (z - aa_flag (audit_arch_at c p)).
Proof.
  intros [Hns Hflag] Hz Hge. destruct Hflag as [->|(e & He & Ee & Hlt)].
  { unfold unflag. simpl. by rewrite Z.sub_0_r. }
  rewrite Ee in *. destruct (Z.testbit z e) eqn:Hbit; [by rewrite unflag_sub by (done || lia)|].
  assert (Hover : forall i, nsyscalls_at c p <= i -> binary_verdict c p i = SECCOMP_RET_ALLOW).
  { intros i Hi. unfold binary_verdict. by replace ((0 <=? i) && (i <? _)) with false by lia. }
  assert (Hu : unflag (2 ^ e) z = z).
  { apply Z.bits_inj'. intros b Hb. rewrite unflag_testbit by (done || lia).
    destruct (Z.eqb_spec b e) as [->|]; [by rewrite Hbit|]. apply andb_true_r. }
  rewrite Hu, !Hover; [done| |lia].
  enough (2 ^ e + 2 ^ e <= z) by lia.
  apply Z.testbit_false in Hbit; [|lia].
  pose proof (Z.div_mod z (2 ^ e) ltac:(lia)). pose proof (Z.mod_pos_bound z (2 ^ e) ltac:(lia)).
  assert (1 <= z / 2 ^ e) by (apply Z.div_le_lower_bound; lia).
  assert (z / 2 ^ e <> 1) by (intros E1; rewrite E1 in Hbit; done). nia.
Qed.

Lemma unflag_mod32 c p z :
  wf_personality c p -> in_uint 32 z -> unflag (aa_flag (audit_arch_at c p)) z mod 32 = z mod 32.
Proof.
  intros [_ [->|(e & He & -> & _)]] Hz; [done|].
  change 32 with (2 ^ 5). apply Z.bits_inj'. intros b Hb.
  destruct (Z_lt_ge_dec b 5).
  - rewrite !Z.mod_pow2_bits_low, unflag_testbit by (done || lia).
    replace (b =? e) with false by lia. apply andb_true_r.
  - by rewrite !Z.mod_pow2_bits_high by lia.
Qed.

(** From the word selection on, with a number whose low bits are those of the
    unflagged syscall number in [A]. *)
Lemma run_binary_body c p d pos0 pos j rest A X :
  wf_personality c p -> in_uint 32 (nr d) -> 0 <= A ->
  A mod 32 = nr d mod 32 -> aa_flag (audit_arch_at c p) <= nr d ->
  let flag := aa_flag (audit_arch_at c p) in
  let body := binary_word_select flag
              ++ binary_words c p (Z.to_nat (nsyscalls_at c p)) 0 0 pos0 in
  pos - j = lenZ body + 2 -> pos - j <= UCHAR_MAX ->
  pos0 + lenZ (binary_words c p (Z.to_nat (nsyscalls_at c p)) 0 0 pos0) <= BPF_MAXINSNS ->
  bpf_run d (patch_jumps pos j body ++ rets ++ rest) A X
  = Some (binary_verdict c p (nr d - flag)).
Proof.
  intros Hwf Hnr HA HmodA Hge flag body Hpos Hmax Hguard. destruct (wf_nsys _ _ Hwf).
  destruct Hnr as [Hnr0 Hnr]. unfold body in *.
  rewrite patch_jumps_app, patch_word_select, <- app_assoc, run_word_select by done.
  rewrite HmodA, <- (unflag_mod32 c p) by done. fold flag.
  rewrite run_binary_words; try done; try len_lia.
  - rewrite <- binary_verdict_unflag by done. done.
  - by apply unflag_nonneg.
  - intros b Hb. rewrite Z.testbit_0_l. replace (b <? 0 mod 32) with false; [done|].
    change (0 mod 32) with 0. lia.
Qed.

Lemma binary_head_guard c p start :
  start + lenZ (binary_section_head c p start) <= BPF_MAXINSNS ->
  start + lenZ (binary_section_prologue c p)
  + lenZ (binary_words c p (Z.to_nat (nsyscalls_at c p)) 0 0
            (start + lenZ (binary_section_prologue c p))) <= BPF_MAXINSNS.
Proof. unfold binary_section_head. len_lia. Qed.

Lemma run_binary_section_multi c p d start pos rest X :
  wf_personality c p -> 1 < SUPPORTED_PERSONALITIES c -> in_uint 32 (nr d) ->
  pos = start + lenZ (binary_section_head c p start) + 2 -> pos - start <= UCHAR_MAX ->
  pos <= BPF_MAXINSNS ->
  bpf_run d (patch_jumps pos start (binary_section_head c p start) ++ rets ++ rest) (arch d) X
  = if section_matches c p d
    then Some (binary_verdict c p (nr d - aa_flag (audit_arch_at c p)))
    else bpf_run d rest (arch d) X.
Proof.
  intros Hwf Hmulti Hnr Hpos Hmax Hins.
  assert (Hg := binary_head_guard c p start ltac:(lia)).
  assert (Hm : (1 <? SUPPORTED_PERSONALITIES c) = true) by lia.
  unfold binary_section_head, section_matches in *.
  set (pos0 := start + lenZ (binary_section_prologue c p)) in *. clearbody pos0.
  unfold binary_section_prologue in *. rewrite Hm in *.
  change (true && ?b) with b in *. rewrite <- !app_assoc in *. cbn [app] in *.
  rewrite patch_jumps_cons. cbn [app]. rewrite run_pjeq by done.
  destruct (arch d =? _); simpl andb; [|eapply jump_next; [done| |]; len_lia].
  change (skip _ ?l) with l. rewrite patch_jumps_cons. cbn [app].
  change (patch_insn _ _ LD_NR) with LD_NR. rewrite run_ld_nr. destruct Hnr as [Hnr0 Hnr].
  destruct (Z.eqb_spec (aa_flag (audit_arch_at c p)) 0) as [E|E]; cbn [negb orb app] in *.
  - apply run_binary_body; (done || len_lia).
  - rewrite !patch_jumps_cons. cbn [app]. rewrite run_pjge by done.
    destruct (Z.leb_spec (aa_flag (audit_arch_at c p)) (nr d)).
    + change (skip _ (_ :: _ :: ?l)) with l.
      change (patch_insn _ _ (unmask_flag ?fl)) with (unmask_flag fl).
      unfold unmask_flag, STMT. rewrite bpf_and.
      replace (Z.land (nr d) _) with (unflag (aa_flag (audit_arch_at c p)) (nr d))
        by (unfold unflag; by rewrite (proj2 (Z.eqb_neq _ _) E)).
      apply run_binary_body; try done; try len_lia.
      * by apply unflag_nonneg.
      * by apply unflag_mod32.
    + change (skip _ ?l) with l. change (patch_insn _ _ LD_ARCH) with LD_ARCH.
      rewrite run_ld_arch, run_pja by done. eapply jump_next; [by rewrite ?app_comm_cons| |]; len_lia.
Qed.

Lemma run_binary_section_single c p d start pos rest A X :
  wf_personality c p -> SUPPORTED_PERSONALITIES c = 1 -> in_uint 32 (nr d) ->
  aa_flag (audit_arch_at c p) <= nr d ->
  pos = start + lenZ (binary_section_head c p start) + 2 -> pos - start <= UCHAR_MAX ->
  pos <= BPF_MAXINSNS ->
  bpf_run d (patch_jumps pos start (binary_section_head c p start) ++ rets ++ rest) A X
  = Some (binary_verdict c p (nr d - aa_flag (audit_arch_at c p))).
Proof.
  intros Hwf Hs Hnr Hge Hpos Hmax Hins.
  assert (Hg := binary_head_guard c p start ltac:(lia)).
  unfold binary_section_head in *.
  set (pos0 := start + lenZ (binary_section_prologue c p)) in *. clearbody pos0.
  unfold binary_section_prologue in *. rewrite Hs in *.
  change (1 <? 1) with false in *. change (false && ?b) with false in *.
  rewrite <- !app_assoc in *. cbn [app] in *. rewrite patch_jumps_cons. cbn [app].
  change (patch_insn _ _ LD_NR) with LD_NR. rewrite run_ld_nr. destruct Hnr as [Hnr0 Hnr].
  apply run_binary_body; (done || len_lia).
Qed.

(** A section never overflows the buffer bound, so the position guards of the
    loops never fire: after [m] sections the program has at most
    [1 + 255 * m] instructions. *)
Lemma run_binary_personalities c n filter out d rest X m :
  wf_config c -> 1 < SUPPORTED_PERSONALITIES c -> in_uint 32 (nr d) ->
  (m + Z.of_nat n <= 15) -> (n <= length (audit_arch_vec c))%nat ->
  lenZ filter <= 1 + 255 * m -> 0 <= m ->
  binary_personalities c n filter = (out, false) ->
  exists body, out = filter ++ body /\
  bpf_run d (body ++ rest) (arch d) X =
  match matching_personality c n d with
  | Some p => Some (binary_verdict c p (nr d - aa_flag (audit_arch_at c p)))
  | None => bpf_run d rest (arch d) X
  end.
Proof.
  intros [Hwf _] Hmul Hnr. revert filter m. induction n as [|n IH]; simpl; intros filter m Hn Hn' Hlen Hm Hout.
  - injection Hout as <-. exists []. by rewrite app_nil_r.
  - unfold BPF_MAXINSNS in Hout at 1. replace (lenZ filter <=? 4096) with true in Hout by lia.
    destruct (_ <? _) eqn:E; [done|]. apply Z.ltb_ge in E.
    change (lenZ binary_section_tail) with 2 in *. change binary_section_tail with rets in *.
    unfold UCHAR_MAX in *. apply (IH _ (m + 1)) in Hout as (body & -> & Hrun); [|try lia..].
    2: { unfold rets. len_lia. }
    eexists. split; [by rewrite <- app_assoc|]. rewrite <- !app_assoc.
    rewrite run_binary_section_multi; unfold UCHAR_MAX, BPF_MAXINSNS; try done; try lia.
    + by destruct (section_matches c (Z.of_nat n) d).
    + apply Hwf. unfold SUPPORTED_PERSONALITIES, lenZ. lia.
Qed.

Lemma binary_program_runs c prog d A X :
  wf_config c -> in_uint 32 (nr d) ->
  (SUPPORTED_PERSONALITIES c = 1 -> aa_flag (audit_arch_at c 0) <= nr d) ->
  binary_match_filter_generator c = (prog, false) ->
  bpf_run d prog A X = Some (decide_with binary_verdict c d).
Proof.
  intros Hwf Hnr Hflag. unfold binary_match_filter_generator, decide_with.
  destruct (Z.ltb_spec 1 (SUPPORTED_PERSONALITIES c)) as [Hm|Hs].
  - destruct (binary_personalities _ _ _) as [out [|]] eqn:E; [done|].
    assert (Hn := proj2 (proj2 Hwf)). unfold SUPPORTED_PERSONALITIES, lenZ in Hn.
    intros [= <-]. eapply (run_binary_personalities _ _ _ _ d _ X 0) in E as (body & -> & Hrun);
      [|done || lia..].
    rewrite <- app_assoc. cbn [app]. rewrite run_ld_arch, Hrun.
    case_match; [done|]. apply run_ret.
  - destruct Hwf as [Hwf Hn]. assert (Hone : SUPPORTED_PERSONALITIES c = 1) by lia.
    replace (length (audit_arch_vec c)) with 1%nat by (unfold SUPPORTED_PERSONALITIES, lenZ in *; lia).
    cbn [binary_personalities]. change (Z.of_nat 0) with 0.
    change (lenZ [] <=? BPF_MAXINSNS) with true. cbv match.
    change (lenZ binary_section_tail) with 2. change (lenZ []) with 0.
    destruct (_ <? _) eqn:E; [done|]. intros [= <-]. rewrite <- app_assoc.
    unfold UCHAR_MAX in *. apply run_binary_section_single; unfold UCHAR_MAX, BPF_MAXINSNS; auto; try lia. apply Hwf. lia.
Qed.

(** ** What the programs decide *)

Definition deciding_personality (c : config) d : option Z :=
  if 1 <? SUPPORTED_PERSONALITIES c
  then matching_personality c (length (audit_arch_vec c)) d else Some 0.

(** [d] is an invocation of syscall [idx] of personality [p]. *)
Record is_syscall (c : config) d (p idx : Z) : Prop := {
  is_nr : in_uint 32 (nr d);
  is_personality : deciding_personality c d = Some p;
  is_index : nr d = idx + aa_flag (audit_arch_at c p);
  is_nonneg : 0 <= idx;
}.

Lemma decide_with_syscall verdict c d p idx :
  is_syscall c d p idx -> decide_with verdict c d = verdict c p idx.
Proof.
  intros [_ Hp Hi _]. unfold deciding_personality, decide_with in *.
  destruct (1 <? _).
  - rewrite Hp, Hi. f_equal. lia.
  - injection Hp as <-. rewrite Hi. f_equal. lia.
Qed.

Lemma is_syscall_flag c d p idx :
  is_syscall c d p idx ->
  SUPPORTED_PERSONALITIES c = 1 -> aa_flag (audit_arch_at c 0) <= nr d.
Proof.
  intros [_ Hp Hi ?] Hs. unfold deciding_personality in Hp. rewrite Hs in Hp.
  injection Hp as <-. lia.
Qed.

(** The program of the linear generator, when it does not overflow, runs to
    a verdict on every syscall: for syscall [idx] of personality [p] it is TRACE
    when the number is beyond the syscall table or the syscall is traced, and
    ALLOW otherwise; under a foreign architecture it is TRACE. *)
Theorem linear_filter_correct c prog d A X :
  wf_config c -> linear_filter_generator c = (prog, false) ->
  (forall p idx, is_syscall c d p idx ->
     bpf_run d prog A X = Some (if (nsyscalls_at c p <=? idx) || traced_by_seccomp c idx p
                                then SECCOMP_RET_TRACE else SECCOMP_RET_ALLOW))
  /\ (deciding_personality c d = None -> bpf_run d prog A X = Some SECCOMP_RET_TRACE).
Proof.
  intros Hwf Hgen. rewrite (linear_program_runs c prog) by done. split.
  - intros p idx Hd. rewrite (decide_with_syscall _ _ _ _ _ Hd). f_equal.
    pose proof (is_nonneg _ _ _ _ Hd). unfold linear_verdict.
    destruct (Z.leb_spec (nsyscalls_at c p) idx); simpl.
    + by replace (idx <? nsyscalls_at c p) with false by lia; rewrite andb_false_r.
    + by replace ((0 <=? idx) && (idx <? nsyscalls_at c p)) with true by lia.
  - unfold deciding_personality, decide_with. case_match; [|done]. by intros ->.
Qed.

(** The program of the binary-match generator, when it does not overflow,
    returns TRACE for syscall [idx] of personality [p] exactly when [idx] is in
    the syscall table and traced, ALLOW otherwise, and TRACE under a foreign
    architecture. *)
Theorem binary_filter_correct c prog d A X :
  wf_config c -> binary_match_filter_generator c = (prog, false) ->
  (forall p idx, is_syscall c d p idx ->
     bpf_run d prog A X = Some (if (idx <? nsyscalls_at c p) && traced_by_seccomp c idx p
                                then SECCOMP_RET_TRACE else SECCOMP_RET_ALLOW))
  /\ (in_uint 32 (nr d) -> deciding_personality c d = None ->
      bpf_run d prog A X = Some SECCOMP_RET_TRACE).
Proof.
  intros Hwf Hgen. split.
  - intros p idx Hd. rewrite (binary_program_runs c prog);
      eauto using is_syscall_flag, is_nr.
    rewrite (decide_with_syscall _ _ _ _ _ Hd). f_equal.
    pose proof (is_nonneg _ _ _ _ Hd). unfold binary_verdict.
    by replace (0 <=? idx) with true by lia.
  - intros Hnr Hnone. unfold deciding_personality in Hnone.
    destruct (Z.ltb_spec 1 (SUPPORTED_PERSONALITIES c)) as [Hm|]; [|done].
    rewrite (binary_program_runs c prog) by (done || lia).
    unfold decide_with. replace (1 <? SUPPORTED_PERSONALITIES c) with true by lia. by rewrite Hnone.
Qed.

Lemma select_filter_from c len prog :
  select_filter c = mk_prog len (Some prog) ->
  linear_filter_generator c = (prog, false) \/ binary_match_filter_generator c = (prog, false).
Proof.
  unfold select_filter, filter_generators, fold_left, consider_generator, bpf_prog_init.
  destruct (linear_filter_generator c) as [p1 [|]]; destruct (binary_match_filter_generator c) as [p2 [|]];
    rewrite ?andb_false_r, ?andb_true_r; cbn [negb];
    repeat case_match; simpl; intros; simplify_eq/=; auto.
Qed.

(** C4: whichever program is installed, a syscall of the table stops the tracee
    exactly when it is to be traced, and an invocation under an architecture
    without personality always stops it. *)
Theorem installed_filter_sound c len prog d A X :
  wf_config c -> select_filter c = mk_prog len (Some prog) ->
  (forall p idx, is_syscall c d p idx -> idx < nsyscalls_at c p ->
     bpf_run d prog A X = Some (if traced_by_seccomp c idx p
                                then SECCOMP_RET_TRACE else SECCOMP_RET_ALLOW))
  /\ (in_uint 32 (nr d) -> deciding_personality c d = None ->
      bpf_run d prog A X = Some SECCOMP_RET_TRACE).
Proof.
  intros Hwf Hsel. apply select_filter_from in Hsel as [Hg|Hg].
  - rewrite (linear_program_runs c prog) by done. split.
    + intros p idx Hd Hlt. rewrite (decide_with_syscall _ _ _ _ _ Hd). f_equal.
      pose proof (is_nonneg _ _ _ _ Hd). unfold linear_verdict.
      replace ((0 <=? idx) && (idx <? nsyscalls_at c p)) with true by lia.
      by replace (nsyscalls_at c p <=? idx) with false by lia.
    + unfold deciding_personality, decide_with. case_match; [|done]. by intros _ ->.
  - split.
    + intros p idx Hd Hlt. rewrite (binary_program_runs c prog); eauto using is_syscall_flag, is_nr.
      rewrite (decide_with_syscall _ _ _ _ _ Hd). f_equal.
      pose proof (is_nonneg _ _ _ _ Hd). unfold binary_verdict.
      by replace ((0 <=? idx) && (idx <? nsyscalls_at c p)) with true by lia.
    + unfold deciding_personality.
      destruct (Z.ltb_spec 1 (SUPPORTED_PERSONALITIES c)) as [Hm|]; [|done].
      intros Hnr Hnone. rewrite (binary_program_runs c prog) by (done || lia).
      unfold decide_with. replace (1 <? SUPPORTED_PERSONALITIES c) with true by lia. by rewrite Hnone.
Qed.

(** The two generators disagree on the numbers beyond the syscall table: the
    linear program stops the tracee there and the binary-match program does not. *)
Theorem generators_disagree c prog1 prog2 d p idx A X :
  wf_config c -> linear_filter_generator c = (prog1, false) ->
  binary_match_filter_generator c = (prog2, false) ->
  is_syscall c d p idx -> nsyscalls_at c p <= idx ->
  bpf_run d prog1 A X = Some SECCOMP_RET_TRACE /\ bpf_run d prog2 A X = Some SECCOMP_RET_ALLOW.
Proof.
  intros Hwf H1 H2 Hd Hge. split.
  - rewrite (linear_program_runs c prog1), (decide_with_syscall _ _ _ _ _ Hd) by done.
    unfold linear_verdict. replace (idx <? _) with false by lia. rewrite andb_false_r. simpl.
    by replace (nsyscalls_at c p <=? idx) with true by lia.
  - rewrite (binary_program_runs c prog2); eauto using is_syscall_flag, is_nr.
    rewrite (decide_with_syscall _ _ _ _ _ Hd). unfold binary_verdict.
    replace (idx <? _) with false by lia. by rewrite andb_false_r.
Qed.

End machine.

(** ** A configuration with three personalities

    The shape of x86_64: the first and the third personality share an
    architecture and differ by the flag. *)

Definition demo_set (l : list Z) : number_set :=
  foldr add_number_to_set (mk_number_set [] 0 false) l.

Definition demo_config : config :=
  mk_config [mk_audit 0xc000003e 0; mk_audit 0x40000003 0; mk_audit 0xc000003e 0x40000000]
    [70; 40; 50] (fun _ n => if n =? 3 then TRACE_SECCOMP_DEFAULT else 0)
    (Some [demo_set [2; 59; 60; 61]; demo_set [5; 11]; demo_set [40; 49]]) None 0.

Lemma demo_wf : wf_config demo_config.
Proof.
  split; [|done]. intros p Hp. change (SUPPORTED_PERSONALITIES demo_config) with 3 in Hp.
  assert (p = 0 \/ p = 1 \/ p = 2) as [->|[->| ->]] by lia; split; vm_compute; try (split; congruence).
  - by left.
  - by left.
  - right. exists 30. split; [split; congruence|]. split; congruence.
Qed.

Definition demo_x32 : seccomp_data := mk_data (0x40000000 + 40) 0xc000003e.
Definition demo_64 (n : Z) : seccomp_data := mk_data n 0xc000003e.

Lemma linear_filter_correct_witness :
  bpf_run demo_x32 (fst (linear_filter_generator demo_config)) 0 0 = Some SECCOMP_RET_TRACE.
Proof.
  refine (proj1 (linear_filter_correct demo_config _ demo_x32 0 0 demo_wf _) 2 40 _).
  - vm_compute. reflexivity.
  - split; vm_compute; try split; congruence.
Defined.

Lemma binary_filter_correct_witness :
  bpf_run (demo_64 59) (fst (binary_match_filter_generator demo_config)) 0 0 = Some SECCOMP_RET_TRACE.
Proof.
  refine (proj1 (binary_filter_correct demo_config _ (demo_64 59) 0 0 demo_wf _) 0 59 _).
  - vm_compute. reflexivity.
  - split; vm_compute; try split; congruence.
Defined.

Definition demo_selected : bpf_prog_t := select_filter demo_config.

Lemma installed_filter_sound_witness :
  bpf_run (demo_64 58) (default [] (bp_filter demo_selected)) 0 0 = Some SECCOMP_RET_ALLOW.
Proof.
  refine (proj1 (installed_filter_sound demo_config (bp_len demo_selected) _ (demo_64 58) 0 0 demo_wf _)
            0 58 _ _).
  - vm_compute. reflexivity.
  - split; vm_compute; try split; congruence.
  - vm_compute. reflexivity.
Defined.

Lemma generators_disagree_witness :
  bpf_run (demo_64 70) (fst (linear_filter_generator demo_config)) 0 0 = Some SECCOMP_RET_TRACE
  /\ bpf_run (demo_64 70) (fst (binary_match_filter_generator demo_config)) 0 0
     = Some SECCOMP_RET_ALLOW.
Proof.
  refine (generators_disagree demo_config _ _ (demo_64 70) 0 70 0 0 demo_wf _ _ _ _).
  - vm_compute. reflexivity.
  - vm_compute. reflexivity.
  - split; vm_compute; try split; congruence.
  - vm_compute. congruence.
Defined.

(** ** The probe of the stop order *)

Inductive stop_kind := KIntr | KLost | KStop | KSeccomp | KSyscall | KExit0 | KOther.

Definition kind_of (pid : Z) (w : wait_result) : stop_kind :=
  let s := w_status w in
  if (w_rc w <? 0) && (w_errno w =? EINTR) then KIntr
  else if negb (w_rc w =? pid) then KLost
  else if WIFEXITED s then if WEXITSTATUS s =? 0 then KExit0 else KOther
  else if WIFSIGNALED s || negb (WIFSTOPPED s) then KOther
  else if WSTOPSIG s =? SIGSTOP then KStop
  else if WSTOPSIG s =? SIGTRAP then
    if event_of s =? PTRACE_EVENT_SECCOMP then KSeccomp else KOther
  else if WSTOPSIG s =? Z.lor SIGTRAP 0x80 then KSyscall else KOther.

(** The two orders of stops a kernel may have, and which is which. *)
Definition valid_order (ks : list stop_kind) : option bool :=
  match ks with
  | KStop :: KSeccomp :: KSyscall :: KSyscall :: KSyscall :: KExit0 :: _ => Some true
  | KStop :: KSyscall :: KSeccomp :: KSyscall :: KSyscall :: KExit0 :: _ => Some false
  | _ => None
  end.

Definition not_intr (k : stop_kind) : Prop := k <> KIntr.
#[export] Instance not_intr_dec k : Decision (not_intr k).
Proof. unfold not_intr, Decision. destruct k; (left; congruence) || (right; congruence). Defined.

(** The tracer sees the kinds of events only. *)
Fixpoint order_run (step : nat) (ks : list stop_kind) (g : seccomp_globals)
  : option seccomp_globals :=
  match ks with
  | [] => None
  | k :: ks' =>
      let b := seccomp_before_sysentry g in
      match k, step with
      | KIntr, _ => order_run step ks' g
      | KExit0, 5%nat => Some (mk_globals true b)
      | KStop, 0%nat => order_run 1 ks' g
      | KSeccomp, 1%nat => order_run 2 ks' (mk_globals (seccomp_filtering g) true)
      | KSeccomp, 2%nat => if b then Some g else order_run 3 ks' g
      | KSyscall, 1%nat => order_run 2 ks' (mk_globals (seccomp_filtering g) false)
      | KSyscall, 2%nat => if b then order_run 3 ks' g else Some g
      | KSyscall, 3%nat => order_run 4 ks' g
      | KSyscall, 4%nat => order_run 5 ks' g
      | _, _ => Some g
      end
  end.

Lemma tracer_kinds pid ws n g :
  (n <= 5)%nat ->
  fst <$> check_seccomp_order_tracer true (fun _ => true) pid (Z.of_nat n) ws g
  = order_run n (map (kind_of pid) ws) g.
Proof.
  revert n g. induction ws as [|w ws IH]; intros n g Hn; [done|].
  cbn [check_seccomp_order_tracer map order_run]. unfold kind_of at 1.
  destruct ((w_rc w <? 0) && (w_errno w =? EINTR)); [by apply IH|].
  destruct (negb (w_rc w =? pid)); [done|].
  destruct (WIFEXITED (w_status w)).
  { destruct (WEXITSTATUS (w_status w) =? 0); rewrite ?andb_false_r; [|done].
    do 6 (destruct n as [|n]; [done|]). lia. }
  destruct (WIFSIGNALED (w_status w)); [done|]. destruct (WIFSTOPPED (w_status w)); [|done].
  cbn [negb orb]. unfold order_stop.
  destruct (WSTOPSIG _ =? SIGSTOP); [|destruct (WSTOPSIG _ =? SIGTRAP)];
    [|destruct (event_of _ =? PTRACE_EVENT_SECCOMP); [|done]|destruct (WSTOPSIG _ =? _); [|done]].
  all: do 6 (destruct n as [|n]; [first
    [ done
    | cbn; by rewrite <- IH by lia
    | cbn; destruct (seccomp_before_sysentry g); [done|]; by rewrite <- IH by lia
    | cbn; destruct (seccomp_before_sysentry g); [|done]; by rewrite <- IH by lia]|]); lia.
Qed.

Lemma order_run_intr n ks g : order_run n ks g = order_run n (base.filter not_intr ks) g.
Proof.
  revert n g. induction ks as [|k ks IH]; intros n g; [done|].
  rewrite filter_cons. destruct (decide (not_intr k)) as [Hk|Hk].
  - destruct k; cbn; try done; repeat (destruct n as [|n]; try done; try (apply IH));
      by destruct (seccomp_before_sysentry g).
  - destruct k; try (by destruct Hk). apply IH.
Qed.

Lemma order_run_spec ks b0 g' :
  Forall not_intr ks ->
  order_run 0 ks (mk_globals false b0) = Some g' ->
  valid_order ks = if seccomp_filtering g' then Some (seccomp_before_sysentry g') else None.
Proof.
  intros Hk.
  do 6 (destruct ks as [|k ks]; [done|]; apply Forall_cons_1 in Hk as [Hk0 Hk]; destruct k;
    try (by destruct Hk0); clear Hk0; try (cbn; by intros [= <-]); cbn in *).
Qed.

(** The probe enables filtering exactly when the child's stops come in one
    of the two known orders (signal stop, then the seccomp stop right before or
    right after the entering stop of gettid, its exiting stop, the entering stop
    of exit_group and a zero exit status, interrupted waits aside), and
    [seccomp_before_sysentry] then tells which order it was. *)
Theorem check_seccomp_order_correct pid waits g :
  0 <= pid ->
  let ks   := base.filter not_intr (map (kind_of pid) waits) in
  (forall g', check_seccomp_order true (fun _ => true) pid waits g = Some g' ->
     valid_order ks = if seccomp_filtering g' then Some (seccomp_before_sysentry g') else None)
  /\ (forall b, valid_order ks = Some b ->
     check_seccomp_order true (fun _ => true) pid waits g = Some (mk_globals true b)).
Proof.
  intros Hpid ks. unfold check_seccomp_order. replace (pid <? 0) with false by lia.
  rewrite (tracer_kinds pid waits 0) by lia. rewrite order_run_intr. fold ks.
  assert (Hks : Forall not_intr ks) by (apply Forall_forall; intros k [? _]%list_elem_of_In%list_elem_of_filter; done).
  split.
  - intros g' Hrun. by eapply order_run_spec.
  - clearbody ks. intros b Hv.
    do 6 (destruct ks as [|[] ks]; try done; cbn in Hv |- * ); by simplify_eq.
Qed.

Definition demo_wait (status : Z) : wait_result := mk_wait 42 0 status.
Definition demo_waits : list wait_result :=
  [demo_wait (W_STOPCODE SIGSTOP); mk_wait (-1) EINTR 0;
   demo_wait (W_STOPEVENT SIGTRAP PTRACE_EVENT_SECCOMP);
   demo_wait (W_STOPCODE 0x85); demo_wait (W_STOPCODE 0x85); demo_wait (W_STOPCODE 0x85);
   demo_wait (W_EXITCODE 0 0)].

Lemma check_seccomp_order_correct_witness :
  check_seccomp_order true (fun _ => true) 42 demo_waits (mk_globals false false)
  = Some (mk_globals true true).
Proof.
  refine (proj2 (check_seccomp_order_correct 42 demo_waits (mk_globals false false) _) true _).
  - lia.
  - vm_compute. reflexivity.
Defined.

(** The program chosen so far among the candidates [gs]. *)
Definition shortest_of (gs : list (list sock_filter * bool)) (b : bpf_prog_t) : Prop :=
  bp_len b <= USHRT_MAX
  /\ (bp_len b <> USHRT_MAX ->
      exists filter, bp_filter b = Some filter /\ In (filter, false) gs
                     /\ bp_len b = uint 16 (lenZ filter))
  /\ forall f, In (f, false) gs -> bp_len b <= uint 16 (lenZ f).

Lemma consider_shortest gs b g :
  shortest_of gs b -> shortest_of (gs ++ [g]) (consider_generator b g).
Proof.
  intros (Hu & Hsome & Hmin). destruct g as [f ov]. unfold consider_generator.
  pose proof (uint_range 16 (lenZ f) ltac:(lia)) as [? Hr].
  destruct (Z.ltb_spec (uint 16 (lenZ f)) (bp_len b)) as [Hlt|Hge]; destruct ov; cbn [andb negb].
  2: { split; [|split]; cbn [bp_len bp_filter].
       - unfold USHRT_MAX. lia.
       - intros _. exists f. rewrite in_app_iff. simpl. auto.
       - intros f' [Hin|[[= <-]|[]]]%in_app_or; [|lia]. apply Hmin in Hin. lia. }
  all: split; [done|split]; [|intros f' [Hin|[[= <-]|[]]]%in_app_or; (by apply Hmin) || lia].
  all: intros Hne; destruct (Hsome Hne) as (f0 & ? & ? & ?); exists f0;
    rewrite in_app_iff; auto.
Qed.

Lemma select_shortest c : shortest_of (map (fun gen => gen c) filter_generators) (select_filter c).
Proof.
  change (map _ filter_generators)
    with (([] ++ [linear_filter_generator c]) ++ [binary_match_filter_generator c]).
  apply consider_shortest, consider_shortest. split; [done|]. split; [done|]. by intros f [].
Qed.

(** Filtering stays enabled only with a program that was generated without
    overflow, fits the kernel's limit and is not longer than any other program
    generated without overflow. *)
Theorem check_seccomp_filter_program c rc errno order g g' prog :
  check_seccomp_filter c rc errno order g = Some (g', prog) ->
  seccomp_filtering g' = true ->
  exists filter,
    bp_filter prog = Some filter
    /\ In (filter, false) (map (fun gen => gen c) filter_generators)
    /\ bp_len prog = uint 16 (lenZ filter) /\ bp_len prog <= BPF_MAXINSNS
    /\ forall f, In (f, false) (map (fun gen => gen c) filter_generators) ->
       bp_len prog <= uint 16 (lenZ f).
Proof.
  unfold check_seccomp_filter, check_seccomp_filter_properties.
  set (complete := match trace_set c with Some l => _ | None => _ end).
  destruct complete; cbn [negb]; [intros [= <- <-]; done|].
  destruct ((rc <? 0) && _); cbn [negb]; [|intros [= <- <-]; done].
  destruct (Z.eqb_spec (bp_len (select_filter c)) USHRT_MAX) as [|Hu]; [intros [= <- <-]; done|].
  destruct (Z.ltb_spec BPF_MAXINSNS (bp_len (select_filter c))); [intros [= <- <-]; done|].
  intros Ho Hg. destruct (order _) as [g2|]; [|done]. cbn in Ho. injection Ho as -> <-.
  destruct (select_shortest c) as (_ & Hsome & Hmin).
  destruct (Hsome Hu) as (f & ? & ? & ?). by exists f.
Qed.

Lemma check_seccomp_filter_program_witness :
  exists filter, bp_filter demo_selected = Some filter.
Proof.
  destruct (check_seccomp_filter_program demo_config (-1) EFAULT
    (check_seccomp_order true (fun _ => true) 42 demo_waits) (mk_globals false false)
    (mk_globals true true) demo_selected) as (f & Hf & _).
  - vm_compute. reflexivity.
  - reflexivity.
  - by exists f.
Defined.
