(* ===== verification/Util.v ===== *)
(** * Time values, bit scanning and logarithms (src/util.c, src/defs.h)

    [struct timespec] values with the operations the delay and counting code
    uses, the bit-array scanner [next_set_bit], and the integer logarithms. *)

From Stdlib Require Import Znumtheory.
From S2P Require Import Prelude.
Open Scope Z_scope.

(** ** Timespec *)

Record timespec := mk_ts { tv_sec : Z; tv_nsec : Z }.

#[export] Instance timespec_eq_dec : EqDecision timespec.
Proof. solve_decision. Defined.

Definition NS_IN_S := 1000000000.

Definition ts_nz (a : timespec) : bool := negb (tv_sec a =? 0) || negb (tv_nsec a =? 0).

Definition ts_cmp (a b : timespec) : Z :=
  if (tv_sec a <? tv_sec b) || ((tv_sec a =? tv_sec b) && (tv_nsec a <? tv_nsec b)) then -1
  else if (tv_sec b <? tv_sec a) || ((tv_sec a =? tv_sec b) && (tv_nsec b <? tv_nsec a)) then 1
  else 0.

Definition ts_add (a b : timespec) : timespec :=
  let sec := tv_sec a + tv_sec b in
  let nsec := tv_nsec a + tv_nsec b in
  if 1000000000 <=? nsec then mk_ts (sec + 1) (nsec - 1000000000) else mk_ts sec nsec.

Definition ts_sub (a b : timespec) : timespec :=
  let sec := tv_sec a - tv_sec b in
  let nsec := tv_nsec a - tv_nsec b in
  if nsec <? 0 then mk_ts (sec - 1) (nsec + 1000000000) else mk_ts sec nsec.

(** The operands are converted to the type of [n], an unsigned 64-bit
    integer; the quotient is stored as a signed one. *)
Definition ts_div (a : timespec) (n : Z) : timespec :=
  let u z := uint 64 z in
  let nsec := sint 64 (u (u (u (tv_sec a) mod n * 1000000000) + u (tv_nsec a) + n / 2) / n) in
  mk_ts (u (u (tv_sec a) / n + u (Z.quot nsec 1000000000))) (Z.rem nsec 1000000000).

Definition ts_min (a b : timespec) : timespec := if ts_cmp a b <? 0 then a else b.
Definition ts_max (a b : timespec) : timespec := if 0 <? ts_cmp a b then a else b.

(** A normalised value and the number of nanoseconds it stands for. *)
Definition ts_wf (a : timespec) : Prop := 0 <= tv_nsec a < NS_IN_S.
Definition ts_total (a : timespec) : Z := tv_sec a * NS_IN_S + tv_nsec a.

Ltac ts_unfold := unfold ts_wf, ts_total, ts_add, ts_sub, ts_cmp, ts_min, ts_max, NS_IN_S in *.

Lemma ts_add_wf a b : ts_wf a -> ts_wf b -> ts_wf (ts_add a b).
Proof. ts_unfold. intros. case_match; simpl; lia. Qed.

Lemma ts_sub_wf a b : ts_wf a -> ts_wf b -> ts_wf (ts_sub a b).
Proof. ts_unfold. intros. case_match; simpl; lia. Qed.

Lemma ts_add_total a b : ts_total (ts_add a b) = ts_total a + ts_total b.
Proof. ts_unfold. case_match; simpl; lia. Qed.

Lemma ts_sub_total a b : ts_total (ts_sub a b) = ts_total a - ts_total b.
Proof. ts_unfold. case_match; simpl; lia. Qed.

Lemma ts_cmp_pos a b : ts_wf a -> ts_wf b -> 0 < ts_cmp a b <-> ts_total b < ts_total a.
Proof. ts_unfold. intros. bcase; simpl; lia. Qed.

Lemma ts_cmp_neg a b : ts_wf a -> ts_wf b -> ts_cmp a b < 0 <-> ts_total a < ts_total b.
Proof. ts_unfold. intros. bcase; simpl; lia. Qed.

Lemma ts_total_inj a b : ts_wf a -> ts_wf b -> ts_total a = ts_total b -> a = b.
Proof. destruct a, b. ts_unfold. simpl. intros. f_equal; nia. Qed.

#[export] Hint Resolve ts_add_wf ts_sub_wf : strace.

(** On normalised values addition and subtraction are exact and keep
    values normalised, and [ts_cmp] is the order of the instants. *)
Theorem timespec_arith a b :
  ts_wf a -> ts_wf b ->
  ts_wf (ts_add a b) /\ ts_wf (ts_sub a b)
  /\ ts_total (ts_add a b) = ts_total a + ts_total b
  /\ ts_sub (ts_add a b) b = a
  /\ ts_cmp a b = Z.sgn (ts_total a - ts_total b)
  /\ ts_total (ts_min a b) = Z.min (ts_total a) (ts_total b)
  /\ ts_total (ts_max a b) = Z.max (ts_total a) (ts_total b).
Proof.
  intros Ha Hb. repeat split; auto using ts_add_total.
  - apply ts_add_wf; auto.
  - apply ts_add_wf; auto.
  - apply ts_sub_wf; auto.
  - apply ts_sub_wf; auto.
  - apply ts_total_inj; auto using ts_sub_wf, ts_add_wf.
    rewrite ts_sub_total, ts_add_total. lia.
  - ts_unfold. bcase; simpl; lia.
  - unfold ts_min. pose proof (ts_cmp_neg a b Ha Hb).
    destruct (Z.ltb_spec (ts_cmp a b) 0); lia.
  - unfold ts_max. pose proof (ts_cmp_pos a b Ha Hb).
    destruct (Z.ltb_spec 0 (ts_cmp a b)); lia.
Qed.

Lemma timespec_arith_witness :
  ts_sub (ts_add (mk_ts 1 900000000) (mk_ts 0 200000000)) (mk_ts 0 200000000)
  = mk_ts 1 900000000.
Proof.
  refine (proj1 (proj2 (proj2 (proj2
    (timespec_arith (mk_ts 1 900000000) (mk_ts 0 200000000) _ _))))); split; vm_compute; congruence.
Defined.

Lemma mul_add_div q r k n : 0 < n -> (q * n * k + r) / n = q * k + r / n.
Proof. intros. replace (q * n * k + r) with (q * k * n + r) by lia. apply Z.div_add_l. lia. Qed.

(** The average [ts_div] computes is the exact quotient rounded to the
    nearest nanosecond, normalised, when [n] is a count of at most 10^9. *)
Theorem ts_div_rounds a n :
  ts_wf a -> 0 <= tv_sec a < 2 ^ 62 -> 0 < n <= 1000000000 ->
  ts_wf (ts_div a n) /\ ts_total (ts_div a n) = (ts_total a + n / 2) / n.
Proof.
  intros Hwf Hs Hn. unfold ts_wf, NS_IN_S in Hwf. unfold ts_div. cbv zeta.
  pose proof (Z.mod_pos_bound (tv_sec a) n ltac:(lia)) as Hm.
  pose proof (Z.div_mod (tv_sec a) n ltac:(lia)) as Hdm.
  assert (Hh : 0 <= n / 2 <= n) by (split; [apply Z.div_pos; lia|apply Z.div_le_upper_bound; lia]).
  assert (Hq : 0 <= tv_sec a / n <= tv_sec a)
    by (split; [apply Z.div_pos; lia|apply Z.div_le_upper_bound; nia]).
  set (r := tv_sec a mod n) in *. set (q := tv_sec a / n) in *.
  assert (Hnum : 0 <= r * 1000000000 + tv_nsec a + n / 2 < 2 ^ 63) by (change (2^63) with 9223372036854775808; nia).
  rewrite (uint_small 64 (tv_sec a)) by (unfold in_uint; lia). fold r q.
  rewrite (uint_small 64 (tv_nsec a)) by (unfold in_uint; lia).
  rewrite (uint_small 64 (r * 1000000000)) by (unfold in_uint; lia).
  rewrite (uint_small 64 (_ + _ + _)) by (unfold in_uint; lia).
  set (num := r * 1000000000 + tv_nsec a + n / 2) in *.
  assert (Hd : 0 <= num / n <= num)
    by (split; [apply Z.div_pos; lia|apply Z.div_le_upper_bound; nia]).
  rewrite sint_small by lia. rewrite Z.quot_div_nonneg, Z.rem_mod_nonneg by lia.
  pose proof (Z.mod_pos_bound (num / n) 1000000000 ltac:(lia)).
  pose proof (Z.div_mod (num / n) 1000000000 ltac:(lia)).
  assert (0 <= num / n / 1000000000 <= num / n)
    by (split; [apply Z.div_pos; lia|apply Z.div_le_upper_bound; lia]).
  rewrite (uint_small 64 (num / n / 1000000000)) by (unfold in_uint; lia).
  rewrite uint_small by (unfold in_uint; lia).
  unfold ts_wf, ts_total, NS_IN_S. simpl. split; [lia|].
  replace (tv_sec a * 1000000000 + tv_nsec a + n / 2) with (q * n * 1000000000 + num)
    by (unfold num; rewrite Hdm; lia).
  rewrite mul_add_div by lia. lia.
Qed.

Lemma ts_div_rounds_witness : ts_total (ts_div (mk_ts 10 1) 3) = 3333333334.
Proof.
  refine (eq_trans (proj2 (ts_div_rounds (mk_ts 10 1) 3 _ _ _)) _);
    vm_compute; split; congruence.
Defined.

(** ** next_set_bit

    [array] is the memory the scan reads, [pos_xor_mask] the byte permutation
    of big-endian words (0 on little-endian machines). *)

Inductive scan_result := Hit (bit : Z) | End | Next (bit : Z).

(** The inner loop over the bits of one byte; a byte has at most 8. *)
Fixpoint scan_byte (n : nat) (cur_byte bitmask cur_bit size_bits : Z) : scan_result :=
  match n with
  | O => Next cur_bit
  | S n' =>
      if has cur_byte bitmask then Hit cur_bit
      else
        let cur_bit := uint 32 (cur_bit + 1) in
        if size_bits <=? cur_bit then End
        else
          let bitmask := uint 8 (Z.shiftl bitmask 1) in
          if bitmask =? 0 then Next cur_bit
          else scan_byte n' cur_byte bitmask cur_bit size_bits
  end.

Fixpoint next_set_bit_loop (fuel : nat) (array : list Z) (pos_xor_mask pos cur_bit size_bits : Z)
  : option Z :=
  match fuel with
  | O => None
  | S fuel' =>
      if size_bits <=? cur_bit then Some (-1)
      else
        let cur_byte := nthZ array (Z.lxor pos pos_xor_mask) in
        if cur_byte =? 0 then
          next_set_bit_loop fuel' array pos_xor_mask (pos + 1)
            (Z.land (uint 32 (cur_bit + 8)) (uint 32 (-8))) size_bits
        else
          let bitmask := uint 8 (Z.shiftl 1 (Z.land cur_bit 7)) in
          match scan_byte 8 cur_byte bitmask cur_bit size_bits with
          | Hit b => Some b
          | End => Some (-1)
          | Next b => next_set_bit_loop fuel' array pos_xor_mask (pos + 1) b size_bits
          end
  end.

(** One iteration per byte is enough. *)
Definition next_set_bit (array : list Z) (pos_xor_mask cur_bit size_bits : Z) : option Z :=
  next_set_bit_loop (Z.to_nat (size_bits / 8 + 2)) array pos_xor_mask (cur_bit / 8) cur_bit size_bits.

(** Bit [j] of the array. *)
Definition bit_at (array : list Z) (pos_xor_mask j : Z) : bool :=
  Z.testbit (nthZ array (Z.lxor (j / 8) pos_xor_mask)) (j mod 8).

(** [r] is the first set bit from [cur] below [size], or -1. *)
Definition first_set (array : list Z) (mask cur size r : Z) : Prop :=
  (r = -1 /\ forall j, cur <= j < size -> bit_at array mask j = false)
  \/ (cur <= r < size /\ bit_at array mask r = true
      /\ forall j, cur <= j < r -> bit_at array mask j = false).

Lemma first_set_skip array mask cur cur' size r :
  cur <= cur' -> (forall j, cur <= j < cur' -> j < size -> bit_at array mask j = false) ->
  first_set array mask cur' size r -> first_set array mask cur size r.
Proof.
  intros Hle Hz [[-> H]|(Hr & Hb & H)]; [left|right].
  - split; [done|]. intros j Hj. destruct (Z_lt_ge_dec j cur'); [apply Hz|apply H]; lia.
  - split; [lia|]. split; [done|].
    intros j Hj. destruct (Z_lt_ge_dec j cur'); [apply Hz|apply H]; lia.
Qed.

Lemma div_mod_block q b : 0 <= b < 8 -> (8 * q + b) / 8 = q /\ (8 * q + b) mod 8 = b.
Proof.
  intros. split; [symmetry; apply Z.div_unique with b|symmetry; apply Z.mod_unique with q]; lia.
Qed.

(** The inner loop, started at bit [b] of the byte of block [q]. *)
Lemma scan_byte_spec n array mask q b size :
  0 <= q -> 0 <= b < 8 -> 8 - b <= Z.of_nat n -> 8 * q + b < size < 2 ^ 31 ->
  match scan_byte n (nthZ array (Z.lxor q mask)) (2 ^ b) (8 * q + b) size with
  | Hit r => 8 * q + b <= r < size /\ bit_at array mask r = true
             /\ forall j, 8 * q + b <= j < r -> bit_at array mask j = false
  | End => forall j, 8 * q + b <= j < size -> bit_at array mask j = false
  | Next c => c = 8 * (q + 1) /\ forall j, 8 * q + b <= j < c -> bit_at array mask j = false
  end.
Proof.
  intros Hq Hb Hn Hsz. revert b Hb Hn Hsz. induction n as [|n IH]; intros b Hb Hn Hsz; [lia|].
  cbn [scan_byte]. rewrite has_pow2_r by lia.
  assert (Hbit : bit_at array mask (8 * q + b) = Z.testbit (nthZ array (Z.lxor q mask)) b).
  { unfold bit_at. destruct (div_mod_block q b) as [-> ->]; done. }
  destruct (Z.testbit (nthZ _ _) b) eqn:E.
  { split; [lia|]. split; [done|]. lia. }
  rewrite uint_small by (unfold in_uint; lia).
  assert (Hone : forall j, 8 * q + b <= j < 8 * q + b + 1 -> bit_at array mask j = false).
  { intros j Hj. by replace j with (8 * q + b) by lia. }
  destruct (Z.leb_spec size (8 * q + b + 1)); [intros; apply Hone; lia|].
  rewrite Z.shiftl_mul_pow2, <- Z.pow_add_r by lia.
  destruct (Z.eq_dec b 7) as [->|Hb7].
  { change (uint 8 (2 ^ (7 + 1)) =? 0) with true. cbn match. split; [lia|]. done. }
  assert (2 ^ (b + 1) <= 2 ^ 7) by (apply Z.pow_le_mono_r; lia).
  pose proof (pow2_pos (b + 1) ltac:(lia)).
  rewrite uint_small by (unfold in_uint; change (2 ^ 8) with 256; change (2 ^ 7) with 128 in *; lia).
  replace (2 ^ (b + 1) =? 0) with false by lia.
  rewrite <- Z.add_assoc. specialize (IH (b + 1) ltac:(lia) ltac:(lia) ltac:(lia)).
  destruct (scan_byte n _ _ _ _) as [r| |c].
  - destruct IH as (? & ? & Hz). split; [lia|]. split; [done|].
    intros j Hj. destruct (Z.eq_dec j (8 * q + b)) as [->|]; [congruence|]. apply Hz. lia.
  - intros j Hj. destruct (Z.eq_dec j (8 * q + b)) as [->|]; [congruence|]. apply IH. lia.
  - destruct IH as [? Hz]. split; [done|].
    intros j Hj. destruct (Z.eq_dec j (8 * q + b)) as [->|]; [congruence|]. apply Hz. lia.
Qed.

Lemma round_up_8 q b :
  0 <= q -> 0 <= b < 8 -> 8 * q + b + 8 < 2 ^ 32 ->
  Z.land (uint 32 (8 * q + b + 8)) (uint 32 (-8)) = 8 * (q + 1).
Proof.
  intros Hq Hb Hlt. rewrite (uint_small 32 (8 * q + b + 8)) by (unfold in_uint; lia).
  change (uint 32 (-8)) with (Z.shiftl (Z.ones 29) 3).
  replace (8 * q + b + 8) with (8 * (q + 1) + b) by lia.
  apply Z.bits_inj'. intros i Hi. rewrite Z.land_spec.
  change 8 with (2 ^ 3) in *. rewrite (Z.mul_comm (2 ^ 3)).
  destruct (Z_lt_ge_dec i 3).
  - rewrite Z.shiftl_spec_low, andb_false_r, Z.mul_pow2_bits_low by lia. done.
  - rewrite Z.shiftl_spec, Z.mul_pow2_bits by lia.
    replace (Z.testbit ((q + 1) * 2 ^ 3 + b) i) with (Z.testbit (q + 1) (i - 3)).
    + destruct (Z_lt_ge_dec (i - 3) 29).
      * by rewrite Z.ones_spec_low, andb_true_r by lia.
      * rewrite Z.ones_spec_high, andb_false_r by lia. symmetry. apply (testbit_high 29); [|lia].
        unfold in_uint. change (2 ^ 3) with 8 in *. change (2 ^ 32) with (8 * 2 ^ 29) in Hlt. lia.
    + replace i with (i - 3 + 3) at 2 by lia.
      rewrite <- Z.div_pow2_bits by lia. f_equal.
      rewrite Z.div_add_l by (change (2 ^ 3) with 8; lia). rewrite Z.div_small by lia. lia.
Qed.

Lemma next_set_bit_loop_spec fuel array mask q b size :
  0 <= q -> 0 <= b < 8 -> size < 2 ^ 31 ->
  Z.max 0 (size / 8 + 1 - q) < Z.of_nat fuel ->
  exists r, next_set_bit_loop fuel array mask q (8 * q + b) size = Some r
            /\ first_set array mask (8 * q + b) size r.
Proof.
  intros Hq Hb Hsz. revert q b Hq Hb.
  induction fuel as [|fuel IH]; intros q b Hq Hb Hfuel; [lia|]. cbn [next_set_bit_loop].
  destruct (Z.leb_spec size (8 * q + b)) as [|Hlt].
  { exists (-1). split; [done|]. left. split; [done|]. lia. }
  assert (q <= size / 8) by (apply Z.div_le_lower_bound; lia).
  destruct (Z.eqb_spec (nthZ array (Z.lxor q mask)) 0) as [E|E].
  - rewrite round_up_8 by lia. rewrite <- (Z.add_0_r (8 * (q + 1))).
    destruct (IH (q + 1) 0) as (r & -> & Hr); [lia..|]. exists r. split; [done|].
    eapply first_set_skip; [|intros j Hj _|exact Hr]; [lia|].
    unfold bit_at. replace (j / 8) with q by (apply Z.div_unique with (j - 8 * q); lia).
    rewrite E. apply Z.testbit_0_l.
  - replace (uint 8 (Z.shiftl 1 (Z.land (8 * q + b) 7))) with (2 ^ b).
    2: { change 7 with (Z.ones 3). rewrite Z.land_ones by lia. change (2 ^ 3) with 8.
         destruct (div_mod_block q b) as [_ ->]; [done|]. rewrite Z.shiftl_1_l, uint_small; [done|].
         split; [apply Z.pow_nonneg; lia|apply Z.pow_lt_mono_r; lia]. }
    pose proof (scan_byte_spec 8 array mask q b size Hq Hb ltac:(lia) ltac:(lia)) as Hs.
    destruct (scan_byte 8 _ _ _ _) as [r| |c].
    + exists r. split; [done|]. right. tauto.
    + exists (-1). split; [done|]. left. tauto.
    + destruct Hs as [-> Hz]. rewrite <- (Z.add_0_r (8 * (q + 1))).
      destruct (IH (q + 1) 0) as (r & -> & Hr); [lia..|]. exists r. split; [done|].
      eapply first_set_skip; [|intros j Hj _; apply Hz|exact Hr]; lia.
Qed.

Lemma next_set_bit_spec array mask cur size :
  0 <= cur -> 0 <= size < 2 ^ 31 ->
  exists r, next_set_bit array mask cur size = Some r /\ first_set array mask cur size r.
Proof.
  intros Hc Hs. pose proof (Z.div_mod cur 8 ltac:(lia)) as E.
  pose proof (Z.mod_pos_bound cur 8 ltac:(lia)). pose proof (Z.div_pos cur 8 Hc ltac:(lia)).
  pose proof (Z.div_pos size 8 ltac:(lia) ltac:(lia)).
  destruct (next_set_bit_loop_spec (Z.to_nat (size / 8 + 2)) array mask (cur / 8) (cur mod 8) size)
    as (r & Hr & Hf); [lia..|]. rewrite <- E in Hr, Hf. eauto.
Qed.

(** [next_set_bit] terminates and returns the lowest set bit of the array
    that is at least [cur_bit] and below [size_bits], and -1 when there is none,
    on both byte orders. *)
Theorem next_set_bit_correct array mask cur size :
  0 <= cur -> 0 <= size < 2 ^ 31 ->
  exists r, next_set_bit array mask cur size = Some r /\ first_set array mask cur size r.
Proof. apply next_set_bit_spec. Qed.

Lemma next_set_bit_correct_witness :
  exists r, next_set_bit [0; 0; 0x90; 1] 0 3 32 = Some r /\ first_set [0; 0; 0x90; 1] 0 3 32 r.
Proof. apply (next_set_bit_correct [0; 0; 0x90; 1] 0 3 32); lia. Defined.

(** ** Integer logarithms *)

(** One [ILOG10_ITER_]: divide and count when the value reaches [div]. *)
Definition ilog10_iter (div pow : Z) (s : Z * Z) : Z * Z :=
  let '(val, ret) := s in if div <=? val then (val / div, ret + pow) else (val, ret).

Definition ilog10 (val : Z) : Z :=
  let s := ilog10_iter 10000000000000000 16 (val, 0) in
  let s := ilog10_iter 100000000 8 s in
  let s := ilog10_iter 10000 4 s in
  let s := ilog10_iter 100 2 s in
  let s := ilog10_iter 10 1 s in
  snd s.

(** One [ILOG2_ITER_(val, ret, bit)]. *)
Definition ilog2_iter (bit : Z) (s : Z * Z) : Z * Z :=
  let '(val, ret) := s in
  let shift := Z.shiftl (if Z.shiftl 1 (Z.shiftl 1 bit) - 1 <? val then 1 else 0) bit in
  (Z.shiftr val shift, Z.lor ret shift).

Definition ilog2_64 (val : Z) : Z :=
  snd (fold_left (fun s b => ilog2_iter b s) [5; 4; 3; 2; 1; 0] (val, 0)).

Definition ilog2_32 (val : Z) : Z :=
  snd (fold_left (fun s b => ilog2_iter b s) [4; 3; 2; 1; 0] (val, 0)).

(** [val] is what is left of [v] after [ret] digits of base [base] were
    dropped, and fewer than [n] digits are left. *)
Definition log_inv (base v n : Z) (s : Z * Z) : Prop :=
  let '(val, ret) := s in
  0 <= ret /\ 0 < val < base ^ n /\ base ^ ret * val <= v < base ^ ret * (val + 1).

Lemma log_inv_step base v p val ret :
  1 < base -> 0 < p -> log_inv base v (2 * p) (val, ret) ->
  log_inv base v p (if base ^ p <=? val then (val / base ^ p, ret + p) else (val, ret)).
Proof.
  intros Hb Hp (Hr & Hval & Hv). destruct (Z.leb_spec (base ^ p) val); [|by repeat split; try lia].
  assert (Hpos : 0 < base ^ p) by (apply Z.pow_pos_nonneg; lia).
  replace (2 * p) with (p + p) in Hval by lia. rewrite Z.pow_add_r in Hval by lia.
  assert (val / base ^ p < base ^ p) by (apply Z.div_lt_upper_bound; lia).
  assert (1 <= val / base ^ p) by (apply Z.div_le_lower_bound; lia).
  pose proof (Z.div_mod val (base ^ p) ltac:(lia)). pose proof (Z.mod_pos_bound val (base ^ p) Hpos).
  assert (0 < base ^ ret) by (apply Z.pow_pos_nonneg; lia).
  repeat split; try lia; rewrite Z.pow_add_r by lia; nia.
Qed.

Lemma log_inv_final base v val ret :
  1 < base -> log_inv base v 1 (val, ret) -> base ^ ret <= v < base ^ (ret + 1).
Proof.
  intros Hb (Hr & Hval & Hv). rewrite Z.pow_1_r in Hval. rewrite Z.pow_add_r, Z.pow_1_r by lia.
  assert (0 < base ^ ret) by (apply Z.pow_pos_nonneg; lia). nia.
Qed.

Lemma ilog10_iter_inv v div p s :
  div = 10 ^ p -> 0 < p -> log_inv 10 v (2 * p) s -> log_inv 10 v p (ilog10_iter div p s).
Proof. intros -> Hp. destruct s as [val ret]. apply log_inv_step; lia. Qed.

Lemma ilog10_spec v : 0 < v < 2 ^ 64 -> 10 ^ ilog10 v <= v < 10 ^ (ilog10 v + 1).
Proof.
  intros Hv. unfold ilog10.
  assert (H0 : log_inv 10 v 32 (v, 0)) by (repeat split; lia).
  apply (ilog10_iter_inv v 10000000000000000 16) in H0; [|done|lia].
  apply (ilog10_iter_inv v 100000000 8) in H0; [|done|lia].
  apply (ilog10_iter_inv v 10000 4) in H0; [|done|lia].
  apply (ilog10_iter_inv v 100 2) in H0; [|done|lia].
  apply (ilog10_iter_inv v 10 1) in H0; [|done|lia].
  destruct (ilog10_iter 10 1 _) as [val ret]. by apply (log_inv_final 10 v val).
Qed.

Lemma lor_shift_add ret bit b :
  0 <= bit -> ret mod 2 ^ (bit + 1) = 0 ->
  Z.lor ret (Z.shiftl (if b : bool then 1 else 0) bit) = ret + (if b then 2 ^ bit else 0).
Proof.
  intros Hbit Hm. destruct b; [|by rewrite Z.shiftl_0_l, Z.lor_0_r, Z.add_0_r].
  rewrite Z.shiftl_1_l, <- Z.add_lor_land.
  enough (E : Z.land ret (2 ^ bit) = 0) by lia.
  apply Z.bits_inj'. intros i Hi. rewrite Z.land_spec, Z.pow2_bits_eqb, Z.testbit_0_l by lia.
  destruct (Z.eqb_spec bit i) as [<-|]; [|apply andb_false_r].
  apply Z.mod_divide in Hm as [q ->]; [|pose proof (pow2_pos (bit + 1)); lia].
  by rewrite Z.mul_pow2_bits_low by lia.
Qed.

Lemma ilog2_iter_inv v bit s :
  0 <= bit -> snd s mod 2 ^ (bit + 1) = 0 -> log_inv 2 v (2 ^ (bit + 1)) s ->
  log_inv 2 v (2 ^ bit) (ilog2_iter bit s) /\ snd (ilog2_iter bit s) mod 2 ^ bit = 0.
Proof.
  intros Hb Hm H. destruct s as [val ret]. unfold ilog2_iter. simpl in Hm.
  rewrite lor_shift_add, !Z.shiftl_1_l by done. pose proof (pow2_pos bit Hb).
  replace (2 ^ 2 ^ bit - 1 <? val) with (2 ^ 2 ^ bit <=? val) by lia.
  rewrite Z.pow_add_r, Z.pow_1_r, Z.mul_comm in H, Hm by lia.
  apply Z.mod_divide in Hm as [q ->]; [|lia].
  apply log_inv_step in H; [|lia..]. split.
  - revert H. destruct (_ <=? val); rewrite ?Z.shiftl_1_l, ?Z.shiftl_0_l.
    + by rewrite Z.shiftr_div_pow2 by lia.
    + by rewrite Z.shiftr_0_r, Z.add_0_r.
  - simpl. destruct (_ <=? val); apply Z.mod_divide; try lia.
    + exists (2 * q + 1). lia.
    + exists (2 * q). lia.
Qed.

(** The iterations for the bits below [n], from the highest one. *)
Fixpoint countdown (n : nat) : list Z :=
  match n with O => [] | S n' => Z.of_nat n' :: countdown n' end.

Lemma ilog2_fold v n s :
  log_inv 2 v (2 ^ Z.of_nat n) s -> snd s mod 2 ^ Z.of_nat n = 0 ->
  log_inv 2 v 1 (fold_left (fun s b => ilog2_iter b s) (countdown n) s).
Proof.
  revert s. induction n as [|n IH]; intros s H Hm; [done|]. cbn [countdown fold_left].
  rewrite Nat2Z.inj_succ in H, Hm. apply ilog2_iter_inv in H as [? ?]; [|lia|done]. by apply IH.
Qed.

Lemma ilog2_fold_correct v n :
  0 < v < 2 ^ 2 ^ Z.of_nat n ->
  let r := snd (fold_left (fun s b => ilog2_iter b s) (countdown n) (v, 0)) in
  2 ^ r <= v < 2 ^ (r + 1).
Proof.
  intros Hv. assert (H := ilog2_fold v n (v, 0)).
  destruct (fold_left _ _ _) as [val ret]. apply (log_inv_final 2 v val); [lia|]. apply H.
  - repeat split; lia.
  - apply Z.mod_0_l. pose proof (pow2_pos (Z.of_nat n)). lia.
Qed.

(** [ilog10] and [ilog2_64] are the integer logarithms of every non-zero
    64-bit value and [ilog2_32] of every non-zero 32-bit one. *)
Theorem ilog_correct v :
  0 < v < 2 ^ 64 ->
  10 ^ ilog10 v <= v < 10 ^ (ilog10 v + 1)
  /\ 2 ^ ilog2_64 v <= v < 2 ^ (ilog2_64 v + 1)
  /\ (v < 2 ^ 32 -> 2 ^ ilog2_32 v <= v < 2 ^ (ilog2_32 v + 1)).
Proof.
  intros Hv. split; [by apply ilog10_spec|]. split; [|intros Hlt].
  - by apply (ilog2_fold_correct v 6).
  - apply (ilog2_fold_correct v 5). change (2 ^ 2 ^ Z.of_nat 5) with (2 ^ 32). lia.
Qed.

Lemma ilog_correct_witness :
  10 ^ ilog10 12345 <= 12345 < 10 ^ (ilog10 12345 + 1)
  /\ 2 ^ ilog2_64 12345 <= 12345 < 2 ^ (ilog2_64 12345 + 1)
  /\ (12345 < 2 ^ 32 -> 2 ^ ilog2_32 12345 <= 12345 < 2 ^ (ilog2_32 12345 + 1)).
Proof. apply (ilog_correct 12345). lia. Defined.

(** ** Formatting *)

Definition hex_digit (d : Z) : Ascii.ascii :=
  Ascii.ascii_of_nat (Z.to_nat (if d <? 10 then 48 + d else 87 + d)).

(** At most [n] hexadecimal digits of [z], most significant first. *)
Fixpoint hex_digits (n : nat) (z : Z) (acc : string) : string :=
  match n with
  | O => acc
  | S n' => let acc := String (hex_digit (z mod 16)) acc in
            if z / 16 =? 0 then acc else hex_digits n' (z / 16) acc
  end.

(** "%#x" of a 64-bit value. *)
Definition fmt_hex (z : Z) : string :=
  if z =? 0 then "0" else "0x" +:+ hex_digits 16 z EmptyString.
