(* ===== verification/Xlat.v ===== *)
(** * Names of constants and flags (src/xlat.c)

    Tables of values and names, the lookups in them, and the functions that
    print a value by its name or as a combination of flags, in the raw,
    abbreviated and verbose styles. *)

From stdpp Require Import pretty.
From S2P Require Import Prelude Util.
Open Scope Z_scope.

Inductive xlat_type := XT_NORMAL | XT_SORTED | XT_INDEXED.

Record xlat_data := mk_xd { val : Z; str : option string }.
Record xlat := mk_xlat { xdata : list xlat_data; xtype : xlat_type }.

Definition xd0 : xlat_data := mk_xd 0 None.
Definition xsize (x : xlat) : Z := lenZ (xdata x).
Definition xat (x : xlat) (i : Z) : xlat_data := nth (Z.to_nat i) (xdata x) xd0.

Definition XLAT_STYLE_DEFAULT := 0.
Definition XLAT_STYLE_RAW := 1.
Definition XLAT_STYLE_ABBREV := 2.
Definition XLAT_STYLE_VERBOSE := 3.
Definition XLAT_STYLE_FMT_X := 0.
Definition XLAT_STYLE_FMT_U := 4.
Definition XLAT_STYLE_FMT_D := 8.
Definition PXF_DEFAULT_STR := 0x80.
Definition SPFF_AUXSTR_MODE := 0x100.

Definition xlat_verbose (style : Z) : Z := Z.land style 3.
Definition xlat_format (style : Z) : Z := Z.land style 12.

(** ** Lookups *)

(** [bsearch] of the C library, on the entries [l], ..., [u - 1]. *)
Fixpoint bsearch (fuel : nat) (data : list xlat_data) (v l u : Z) : option xlat_data :=
  match fuel with
  | O => None
  | S fuel' =>
      if l <? u then
        let idx := (l + u) / 2 in
        let e := nth (Z.to_nat idx) data xd0 in
        if v <? val e then bsearch fuel' data v l idx
        else if val e <? v then bsearch fuel' data v (idx + 1) u
        else Some e
      else None
  end.

Fixpoint linear_search (data : list xlat_data) (v : Z) : option xlat_data :=
  match data with
  | [] => None
  | e :: l => if val e =? v then Some e else linear_search l v
  end.

Definition xlookup (x : xlat) (v : Z) : option string :=
  match xtype x with
  | XT_NORMAL => e ← linear_search (xdata x) v; str e
  | XT_SORTED => e ← bsearch (S (length (xdata x))) (xdata x) v 0 (xsize x); str e
  | XT_INDEXED => if v <? xsize x then if v =? val (xat x v) then str (xat x v) else None else None
  end.

Fixpoint xrlookup_loop (data : list xlat_data) (s : string) (unknown_val : Z) : Z :=
  match data with
  | [] => unknown_val
  | e :: l => match str e with
              | Some t => if String.eqb s t then val e else xrlookup_loop l s unknown_val
              | None => xrlookup_loop l s unknown_val
              end
  end.
Definition xrlookup (x : xlat) (s : string) (unknown_val : Z) : Z :=
  xrlookup_loop (xdata x) s unknown_val.

(** The loop of [xlat_search_eq_or_less]: [inl] the entry found, [inr] the
    position of the last entry looked at. *)
Fixpoint search_le_loop (fuel : nat) (x : xlat) (v base cur nmemb : Z) : Z + Z :=
  match fuel with
  | O => inr cur
  | S fuel' =>
      if 0 <? nmemb then
        let cur := base + Z.shiftr nmemb 1 in
        if v =? val (xat x cur) then inl cur
        else if val (xat x cur) <? v
             then search_le_loop fuel' x v (cur + 1) cur (Z.shiftr (nmemb - 1) 1)
             else search_le_loop fuel' x v base cur (Z.shiftr nmemb 1)
      else inr cur
  end.

(** The name and the new [*val]. *)
Definition xlat_search_eq_or_less (x : xlat) (v : Z) : option string * Z :=
  match search_le_loop (S (length (xdata x))) x v 0 0 (xsize x) with
  | inl cur => (str (xat x cur), v)
  | inr cur =>
      if v <? val (xat x cur) then
        if 0 <? cur then (str (xat x (cur - 1)), val (xat x (cur - 1))) else (None, v)
      else (str (xat x cur), val (xat x cur))
  end.

Definition xlookup_le (x : xlat) (v : Z) : option string * Z :=
  match xtype x with
  | XT_SORTED => xlat_search_eq_or_less x v
  | _ => (None, v)
  end.

(** ** Printing values *)

Section print.
Variable xlat_verbosity : Z.

Definition get_xlat_style (style : Z) : Z :=
  if xlat_verbose style =? XLAT_STYLE_DEFAULT then Z.lor style xlat_verbosity else style.

Definition sprint_xlat_val (v style : Z) : string :=
  if xlat_format style =? XLAT_STYLE_FMT_D then pretty (sint 64 v)
  else if xlat_format style =? XLAT_STYLE_FMT_U then pretty v
  else fmt_hex v.

Definition comment (s : option string) : string :=
  match s with
  | Some t => if String.eqb t EmptyString then EmptyString else " /* " +:+ t +:+ " */"
  | None => EmptyString
  end.

(** The text printed and the result. *)
Definition printxvals_ex (v : Z) (dflt : option string) (style : Z) (xlats : list xlat) : string * bool :=
  let style := get_xlat_style style in
  if xlat_verbose style =? XLAT_STYLE_RAW then (sprint_xlat_val v style, false)
  else
    (fix loop (l : list xlat) : string * bool :=
       match l with
       | [] => (sprint_xlat_val v style +:+ comment dflt, false)
       | x :: l' =>
           match xlookup x v with
           | Some s =>
               (if xlat_verbose style =? XLAT_STYLE_VERBOSE
                then sprint_xlat_val v style +:+ comment (Some s) else s, true)
           | None => loop l'
           end
       end) xlats.

Definition sprintxval_ex (x : xlat) (v : Z) (dflt : option string) (style : Z) : string :=
  let style := get_xlat_style style in
  let v := uint 32 v in
  if xlat_verbose style =? XLAT_STYLE_RAW then sprint_xlat_val v style
  else match xlookup x v with
  | Some s => if xlat_verbose style =? XLAT_STYLE_VERBOSE
              then sprint_xlat_val v style +:+ " /* " +:+ s +:+ " */" else s
  | None => match dflt with
            | Some d => sprint_xlat_val v style +:+ " /* " +:+ d +:+ " */"
            | None => sprint_xlat_val v style
            end
  end.

Definition print_xlat_ex (v : Z) (s : option string) (style : Z) : string :=
  let default_str := has style PXF_DEFAULT_STR in
  let style := get_xlat_style style in
  let verb := xlat_verbose style in
  match s with
  | Some t =>
      if verb =? XLAT_STYLE_ABBREV then
        if default_str then sprint_xlat_val v style +:+ comment s else t
      else if verb =? XLAT_STYLE_RAW then sprint_xlat_val v style
      else sprint_xlat_val v style +:+ comment s
  | None => sprint_xlat_val v style
  end.

(** ** Printing flags *)

(** The state of the loops of [printflags_ex]: the text so far, the flags left,
    the number of flags printed. *)
Record pf_state := mk_pf { pf_out : string; pf_flags : Z; pf_n : Z }.

Definition pf_match (flags v : Z) : bool :=
  (flags =? v) || (negb (v =? 0) && (Z.land flags v =? v)).

Definition pf_entry (need_comment : bool) (e : xlat_data) (s : pf_state) : pf_state :=
  match str e with
  | Some t =>
      if pf_match (pf_flags s) (val e) then
        mk_pf (pf_out s +:+ (if need_comment && (pf_flags s =? 0) then "0" else EmptyString)
               +:+ (if negb (pf_n s =? 0) then "|" else if need_comment then " /* " else EmptyString)
               +:+ t)
          (Z.ldiff (pf_flags s) (val e)) (pf_n s + 1)
      else s
  | None => s
  end.

(** One table: the loop stops when all flags are printed. *)
Fixpoint pf_table (need_comment : bool) (l : list xlat_data) (s : pf_state) : pf_state :=
  match l with
  | [] => s
  | e :: l' =>
      if negb (pf_flags s =? 0) || (pf_n s =? 0) then
        let s := pf_entry need_comment e s in
        if pf_flags s =? 0 then s else pf_table need_comment l' s
      else s
  end.

Definition pf_tables (need_comment : bool) (xlats : list xlat) (s : pf_state) : pf_state :=
  fold_left (fun s x => pf_table need_comment (xdata x) s) xlats s.

Definition printflags_ex (flags : Z) (dflt : option string) (style : Z) (xlats : list xlat) : string * Z :=
  let style := get_xlat_style style in
  if xlat_verbose style =? XLAT_STYLE_RAW then
    if negb (flags =? 0) || match dflt with Some _ => true | None => false end
    then (sprint_xlat_val flags style, 1) else (EmptyString, 0)
  else
    let need_comment := xlat_verbose style =? XLAT_STYLE_VERBOSE in
    let out := if need_comment && negb (flags =? 0) then sprint_xlat_val flags style else EmptyString in
    let s := pf_tables need_comment xlats (mk_pf out flags 0) in
    if negb (pf_n s =? 0) then
      (pf_out s +:+ (if negb (pf_flags s =? 0) then "|" +:+ sprint_xlat_val (pf_flags s) style else EmptyString)
       +:+ (if need_comment then " */" else EmptyString),
       if negb (pf_flags s =? 0) then pf_n s + 1 else pf_n s)
    else if negb (pf_flags s =? 0) then
      (pf_out s +:+ (if negb need_comment then sprint_xlat_val (pf_flags s) style else EmptyString)
       +:+ comment dflt, 0)
    else (pf_out s +:+ match dflt with Some _ => "0" | None => EmptyString end, 0).

(** The loops of [sprintflags_exv]; [sep] is the separator to come, if any. *)
Record sf_state := mk_sf { sf_out : string; sf_flags : Z; sf_sep : string; sf_found : bool }.

Definition no_sep (s : string) : bool := String.eqb s EmptyString.

Definition sf_entry (comments : bool) (e : xlat_data) (s : sf_state) : sf_state :=
  match str e with
  | Some t =>
      if negb (val e =? 0) && (Z.land (sf_flags s) (val e) =? val e) then
        mk_sf (sf_out s +:+ (if negb (no_sep (sf_sep s)) then sf_sep s
                             else if comments then " /* " else EmptyString) +:+ t)
          (Z.ldiff (sf_flags s) (val e)) "|" true
      else s
  | None => s
  end.

Fixpoint sf_table (comments : bool) (l : list xlat_data) (s : sf_state) : sf_state :=
  match l with
  | [] => s
  | e :: l' => if sf_flags s =? 0 then s else sf_table comments l' (sf_entry comments e s)
  end.

Definition sprintflags_exv (prefix : string) (flags : Z) (sep : string) (style : Z) (x : xlat)
    (more : list xlat) : option string :=
  let style := get_xlat_style style in
  let aux := has style SPFF_AUXSTR_MODE in
  let comments := (xlat_verbose style =? XLAT_STYLE_VERBOSE) && negb aux in
  if xlat_verbose style =? XLAT_STYLE_RAW then
    if (flags =? 0) || (aux && no_sep sep) then None
    else Some (prefix +:+ sep +:+ sprint_xlat_val flags style)
  else match (if (flags =? 0) && (val (xat x 0) =? 0) then str (xat x 0) else None) with
  | Some t => Some (prefix +:+ sep +:+ (if comments then "0 /* " +:+ t +:+ " */" else t))
  | None =>
      let verbose_val := comments && negb (flags =? 0) in
      let s0 := if verbose_val
                then mk_sf (prefix +:+ sep +:+ sprint_xlat_val flags style) flags EmptyString false
                else mk_sf prefix flags sep false in
      let s := fold_left (fun s x => sf_table comments (xdata x) s) (x :: more) s0 in
      if (sf_flags s =? 0) && negb (sf_found s) then None
      else
        let tail := if sf_flags s =? 0 then EmptyString
                    else sf_sep s +:+
                      (if sf_found s
                          || (negb (xlat_verbose style =? XLAT_STYLE_VERBOSE)
                              && (negb aux || negb (no_sep (sf_sep s))))
                       then sprint_xlat_val (sf_flags s) style else EmptyString) in
        let out := sf_out s +:+ tail +:+ (if sf_found s && comments then " */" else EmptyString) in
        if no_sep out then None else Some out
  end.

End print.

(** ** Lookups: correctness *)

Definition increasing (data : list xlat_data) : Prop :=
  forall i j, 0 <= i < j -> j < lenZ data ->
    val (nth (Z.to_nat i) data xd0) < val (nth (Z.to_nat j) data xd0).

(** What the table generator promises for each type of table: nothing, values
    in increasing order, or each value at its own index with holes of value 0. *)
Definition xlat_wf (x : xlat) : Prop :=
  match xtype x with
  | XT_NORMAL => True
  | XT_SORTED => increasing (xdata x)
  | XT_INDEXED => forall i, 0 <= i < xsize x -> val (xat x i) = i \/ val (xat x i) = 0
  end.

Lemma linear_search_None data v :
  (forall i, 0 <= i < lenZ data -> val (nth (Z.to_nat i) data xd0) <> v) ->
  linear_search data v = None.
Proof.
  induction data as [|e l IH]; [done|]. intros H. simpl.
  pose proof (H 0 ltac:(len_lia)) as H0. simpl in H0.
  destruct (Z.eqb_spec (val e) v); [done|]. apply IH. intros i Hi.
  specialize (H (i + 1) ltac:(len_lia)).
  by replace (Z.to_nat (i + 1)) with (S (Z.to_nat i)) in H by lia.
Qed.

(** The first entry with the value is the one found. *)
Lemma linear_search_at data v i :
  0 <= i < lenZ data -> val (nth (Z.to_nat i) data xd0) = v ->
  (forall j, 0 <= j < i -> val (nth (Z.to_nat j) data xd0) <> v) ->
  linear_search data v = Some (nth (Z.to_nat i) data xd0).
Proof.
  revert i. induction data as [|e l IH]; intros i Hi Hv Hf; [len_lia|]. simpl linear_search.
  destruct (Z.eq_dec i 0) as [->|Hne].
  - simpl in Hv |- *. by rewrite (proj2 (Z.eqb_eq _ _) Hv).
  - pose proof (Hf 0 ltac:(lia)) as H0. simpl in H0.
    destruct (Z.eqb_spec (val e) v); [done|].
    replace (Z.to_nat i) with (S (Z.to_nat (i - 1))) in * by lia. simpl in Hv |- *.
    apply IH; [len_lia|done|]. intros j Hj. specialize (Hf (j + 1) ltac:(lia)).
    by replace (Z.to_nat (j + 1)) with (S (Z.to_nat j)) in Hf by lia.
Qed.

Lemma linear_search_unique data v i :
  increasing data -> 0 <= i < lenZ data -> val (nth (Z.to_nat i) data xd0) = v ->
  linear_search data v = Some (nth (Z.to_nat i) data xd0).
Proof.
  intros Hs Hi Hv. apply linear_search_at; try done. intros j Hj.
  specialize (Hs j i ltac:(lia) ltac:(lia)). lia.
Qed.

Lemma bsearch_correct fuel data v l u :
  increasing data -> 0 <= l <= u -> u <= lenZ data -> u - l < Z.of_nat fuel ->
  (forall i, 0 <= i < l -> val (nth (Z.to_nat i) data xd0) < v) ->
  (forall i, u <= i < lenZ data -> v < val (nth (Z.to_nat i) data xd0)) ->
  bsearch fuel data v l u = linear_search data v.
Proof.
  intros Hs. revert l u. induction fuel as [|fuel IH]; intros l u Hl Hu Hf Hlo Hhi; [lia|].
  cbn [bsearch]. destruct (Z.ltb_spec l u).
  - pose proof (Z.div_mod (l + u) 2 ltac:(lia)). pose proof (Z.mod_pos_bound (l + u) 2 ltac:(lia)).
    set (idx := (l + u) / 2) in *. cbv zeta.
    destruct (Z.ltb_spec v (val (nth (Z.to_nat idx) data xd0))).
    + apply IH; try lia; try done. intros i Hi. destruct (Z.eq_dec i idx) as [->|]; [done|].
      specialize (Hs idx i ltac:(lia) ltac:(lia)). lia.
    + destruct (Z.ltb_spec (val (nth (Z.to_nat idx) data xd0)) v).
      * apply IH; try lia; try done. intros i Hi. destruct (Z.eq_dec i idx) as [->|]; [done|].
        specialize (Hs i idx ltac:(lia) ltac:(lia)). lia.
      * symmetry. apply linear_search_unique; [done|lia|lia].
  - symmetry. apply linear_search_None. intros i Hi.
    destruct (Z_lt_ge_dec i l); [specialize (Hlo i)|specialize (Hhi i)]; lia.
Qed.

Lemma indexed_search x v :
  xlat_wf x -> xtype x = XT_INDEXED -> 0 <= v ->
  (if v <? xsize x then if v =? val (xat x v) then str (xat x v) else None else None) =
  (e ← linear_search (xdata x) v; str e).
Proof.
  unfold xlat_wf. intros Hwf Ht Hv. rewrite Ht in Hwf.
  assert (Hother : forall i, 0 <= i < xsize x -> i <> v -> v <> 0 -> val (xat x i) <> v).
  { intros i Hi Hne H0. destruct (Hwf i Hi); lia. }
  unfold xat, xsize in *. destruct (Z.ltb_spec v (lenZ (xdata x))).
  - destruct (Z.eqb_spec v (val (nth (Z.to_nat v) (xdata x) xd0))).
    + rewrite (linear_search_at _ v v); [done|lia|done|]. intros j Hj. apply Hother; lia.
    + rewrite linear_search_None; [done|]. intros i Hi.
      destruct (Hwf v ltac:(lia)) as [|H0]; [lia|].
      destruct (Z.eq_dec i v) as [->|]; [lia|]. apply Hother; lia.
  - rewrite linear_search_None; [done|]. intros i Hi. apply Hother; lia.
Qed.

(** For a well-formed table of any of the three types [xlookup] gives the
    name of the first entry with the value: the binary search of sorted tables
    and the direct access of indexed ones agree with the linear search. *)
Theorem xlookup_correct (x : xlat) (v : Z) :
  xlat_wf x -> 0 <= v -> xlookup x v = (e ← linear_search (xdata x) v; str e).
Proof.
  intros Hwf Hv. unfold xlookup. destruct (xtype x) eqn:Ht; [done| |by apply indexed_search].
  unfold xlat_wf in Hwf. rewrite Ht in Hwf.
  rewrite bsearch_correct; try done; unfold xsize; len_facts; unfold lenZ; try lia.
Qed.

(** Between the entries below and above the value the loop keeps, [cur] is the
    first entry above or the last one below; [inl] only at an equal entry. *)
Lemma search_le_loop_correct fuel x v base cur nmemb :
  increasing (xdata x) -> 0 <= base -> 0 <= nmemb -> base + nmemb <= xsize x -> nmemb < Z.of_nat fuel ->
  (forall i, 0 <= i < base -> val (xat x i) < v) ->
  (forall i, base + nmemb <= i < xsize x -> v < val (xat x i)) ->
  (nmemb = 0 -> cur = base /\ base < xsize x \/ cur = base - 1 /\ 0 < base) ->
  match search_le_loop fuel x v base cur nmemb with
  | inl c => 0 <= c < xsize x /\ val (xat x c) = v
  | inr c => exists b, (c = b /\ b < xsize x \/ c = b - 1 /\ 0 < b) /\ 0 <= b <= xsize x /\
      (forall i, 0 <= i < b -> val (xat x i) < v) /\ (forall i, b <= i < xsize x -> v < val (xat x i))
  end.
Proof.
  intros Hs. unfold xat, xsize in *. revert base cur nmemb.
  induction fuel as [|fuel IH]; intros base cur n Hb Hn Hu Hf Hlo Hhi Hc; [lia|]. cbn [search_le_loop].
  destruct (Z.ltb_spec 0 n) as [Hpos|Hzero].
  - cbv zeta. rewrite !Z.shiftr_div_pow2 by lia. change (2 ^ 1) with 2.
    pose proof (Z.div_mod n 2 ltac:(lia)). pose proof (Z.mod_pos_bound n 2 ltac:(lia)).
    pose proof (Z.div_mod (n - 1) 2 ltac:(lia)). pose proof (Z.mod_pos_bound (n - 1) 2 ltac:(lia)).
    unfold xat. set (c := base + n / 2) in *.
    destruct (Z.eqb_spec v (val (nth (Z.to_nat c) (xdata x) xd0))); [lia|].
    destruct (Z.ltb_spec (val (nth (Z.to_nat c) (xdata x) xd0)) v); apply IH; try lia; try done.
    + intros i Hi. destruct (Z.eq_dec i c) as [->|]; [done|]. specialize (Hs i c). lia.
    + intros i Hi. apply Hhi. lia.
    + intros i Hi. destruct (Z.eq_dec i c) as [->|]; [lia|]. specialize (Hs c i). lia.
  - assert (n = 0) by lia. subst n. exists base. rewrite Z.add_0_r in Hhi, Hu. by repeat split; auto with lia.
Qed.

(** The entry [xlookup_le] promises: of the entries not above [v], the one with
    the greatest value. *)
Definition greatest_le (x : xlat) (v i : Z) : Prop :=
  0 <= i < xsize x /\ val (xat x i) <= v /\
  forall j, 0 <= j < xsize x -> val (xat x j) <= v -> val (xat x j) <= val (xat x i).

(** On a sorted table that is not empty [xlookup_le] gives the name and the
    value of the entry with the greatest value not above [*val], and NULL with
    [*val] unchanged exactly when all entries are above it. *)
Theorem xlookup_le_correct (x : xlat) (v : Z) :
  xtype x = XT_SORTED -> xlat_wf x -> xdata x <> [] ->
  (exists i, greatest_le x v i /\ xlookup_le x v = (str (xat x i), val (xat x i))) \/
  (xlookup_le x v = (None, v) /\ forall j, 0 <= j < xsize x -> v < val (xat x j)).
Proof.
  unfold xlat_wf, xlookup_le, xlat_search_eq_or_less. intros Ht Hs Hne. rewrite Ht in *.
  assert (0 < xsize x) by (unfold xsize; destruct (xdata x); [done|len_lia]).
  pose proof (search_le_loop_correct (S (length (xdata x))) x v 0 0 (xsize x) Hs) as H'.
  destruct search_le_loop as [c|c].
  - destruct H' as [Hc Hv]; try lia; try (unfold xsize, lenZ; lia). left. exists c. rewrite Hv.
    split; [|done]. unfold greatest_le. rewrite Hv. repeat split; lia || done.
  - destruct H' as (b & Hcb & Hb & Hlo & Hhi); try lia; try (unfold xsize, lenZ; lia).
    assert (G : 0 < b -> greatest_le x v (b - 1)).
    { intros Hb0. unfold greatest_le. repeat split; try lia; [specialize (Hlo (b - 1)); lia|].
      intros j Hj Hjv. assert (j < b) by (destruct (Z_lt_ge_dec j b); [lia|specialize (Hhi j); lia]).
      destruct (Z.eq_dec j (b - 1)) as [->|]; [lia|].
      specialize (Hs j (b - 1)). unfold xat, xsize in *. lia. }
    destruct Hcb as [[-> Hlt]|[-> Hb0]].
    + pose proof (Hhi b ltac:(lia)). destruct (Z.ltb_spec v (val (xat x b))); [|lia].
      destruct (Z.ltb_spec 0 b); [left; exists (b - 1); eauto|right].
      split; [done|]. intros j Hj. apply Hhi. lia.
    + specialize (Hlo (b - 1) ltac:(lia)). destruct (Z.ltb_spec v (val (xat x (b - 1)))); [lia|].
      left. exists (b - 1). eauto.
Qed.

(** ** Flags: correctness *)

(** The entries a decoding of [flags] names, in table order: each takes its
    bits away from what is left. *)
Fixpoint taken (l : list xlat_data) (flags : Z) : list xlat_data :=
  match l with
  | [] => []
  | e :: l' =>
      match str e with
      | Some _ => if negb (val e =? 0) && (Z.land flags (val e) =? val e)
                  then e :: taken l' (Z.ldiff flags (val e)) else taken l' flags
      | None => taken l' flags
      end
  end.

Definition lor_vals (l : list xlat_data) : Z := foldr (fun e a => Z.lor (val e) a) 0 l.
Definition rest (l : list xlat_data) (flags : Z) : Z := Z.ldiff flags (lor_vals (taken l flags)).
Definition names (l : list xlat_data) : list string := map (fun e => default EmptyString (str e)) l.
Definition entries (xlats : list xlat) : list xlat_data := concat (map xdata xlats).

Lemma taken_0 l : taken l 0 = [].
Proof.
  induction l as [|e l IH]; [done|]. cbn [taken]. destruct (str e); [|done].
  destruct (Z.eqb_spec (val e) 0), (Z.eqb_spec (Z.land 0 (val e)) (val e)); done.
Qed.

Lemma taken_app l k flags : taken (l ++ k) flags = taken l flags ++ taken k (rest l flags).
Proof.
  unfold rest. revert flags. induction l as [|e l IH]; intros flags; simpl; [by rewrite Z.ldiff_0_r|].
  destruct (str e); [|done]. destruct (_ && _); [|done]. simpl. f_equal. rewrite IH. do 2 f_equal.
  by rewrite Z.ldiff_ldiff_l.
Qed.

Lemma lor_vals_app l k : lor_vals (l ++ k) = Z.lor (lor_vals l) (lor_vals k).
Proof. unfold lor_vals. induction l as [|e l IH]; simpl; [done|]. by rewrite IH, Z.lor_assoc. Qed.

Lemma rest_app l k flags : rest (l ++ k) flags = rest k (rest l flags).
Proof. unfold rest. rewrite taken_app, lor_vals_app. by rewrite Z.ldiff_ldiff_l. Qed.

Lemma contained_ldiff flags v w :
  Z.land (Z.ldiff flags v) w = w -> Z.land flags w = w /\ Z.land v w = 0.
Proof.
  intros H. split; apply Z.bits_inj'; intros n Hn; apply (f_equal (fun z => Z.testbit z n)) in H;
    rewrite !Z.land_spec, Z.ldiff_spec in H; rewrite Z.land_spec, ?Z.bits_0;
    destruct (Z.testbit flags n), (Z.testbit v n), (Z.testbit w n); simpl in *; congruence.
Qed.

(** Every entry taken is named, non-zero and contained in the flags. *)
Lemma taken_contained l flags :
  Forall (fun e => is_Some (str e) /\ val e <> 0 /\ Z.land flags (val e) = val e) (taken l flags).
Proof.
  revert flags. induction l as [|e l IH]; intros flags; simpl; [constructor|].
  destruct (str e) eqn:E; [|done].
  destruct (Z.eqb_spec (val e) 0), (Z.eqb_spec (Z.land flags (val e)) (val e)); simpl; try done.
  constructor; [by rewrite E|]. eapply list.Forall_impl; [apply IH|].
  intros e' (? & ? & H). by apply contained_ldiff in H as [? _].
Qed.

Lemma taken_In l flags e : In e (taken l flags) -> In e l.
Proof.
  revert flags. induction l as [|e' l IH]; intros flags; simpl; [done|].
  destruct (str e'); [|eauto]. destruct (_ && _); [intros [->|]|]; eauto.
Qed.

(** No two entries taken share a bit. *)
Lemma taken_disjoint l flags :
  ForallOrdPairs (fun e e' => Z.land (val e) (val e') = 0) (taken l flags).
Proof.
  revert flags. induction l as [|e l IH]; intros flags; simpl; [constructor|].
  destruct (str e); [|done]. destruct (_ && _); [|done]. constructor; [|done].
  eapply list.Forall_impl; [apply taken_contained|]. intros e' (? & ? & H).
  by apply contained_ldiff in H as [_ ?].
Qed.

Lemma taken_le l flags : Z.land flags (lor_vals (taken l flags)) = lor_vals (taken l flags).
Proof.
  pose proof (taken_contained l flags) as H.
  induction (taken l flags) as [|e t IH]; [apply Z.land_0_r|].
  inversion H as [|?? (_ & _ & He) Ht]; subst. simpl. by rewrite Z.land_lor_distr_r, He, IH.
Qed.

(** Names and rest together give the flags back. *)
Lemma taken_complete l flags : Z.lor (lor_vals (taken l flags)) (rest l flags) = flags.
Proof.
  unfold rest. rewrite <- (taken_le l flags) at 1. rewrite Z.lor_comm. apply Z.lor_ldiff_and.
Qed.

(** Nothing that has a name is left. *)
Lemma taken_maximal l flags e :
  In e l -> is_Some (str e) -> val e <> 0 -> Z.land (rest l flags) (val e) <> val e.
Proof.
  unfold rest. revert flags. induction l as [|e' l IH]; intros flags; [done|].
  intros [->|Hin] Hs Hv; simpl.
  - destruct Hs as [s Es]. rewrite Es.
    destruct (Z.eqb_spec (val e) 0) as [|_]; [done|]. simpl.
    destruct (Z.eqb_spec (Z.land flags (val e)) (val e)); intros C; apply contained_ldiff in C as [C1 C2];
      [|done]. simpl in C2. rewrite Z.land_lor_distr_l, Z.land_diag in C2.
    apply Z.lor_eq_0_iff in C2 as [? _]. done.
  - destruct (str e'); [|by apply IH]. destruct (_ && _); [|by apply IH].
    simpl. rewrite <- Z.ldiff_ldiff_l. by apply IH.
Qed.

(** *** The text of the loops *)

Lemma string_app_assoc (s t r : string) : (s +:+ t) +:+ r = s +:+ t +:+ r.
Proof. induction s as [|c s IH]; [done|]. exact (f_equal (String c) IH). Qed.
Lemma string_app_nil (s : string) : s +:+ EmptyString = s.
Proof. induction s as [|c s IH]; [done|]. exact (f_equal (String c) IH). Qed.

(** Names separated by bars, after an opening comment mark if any. *)
Fixpoint flag_text (comments first : bool) (ns : list string) : string :=
  match ns with
  | [] => EmptyString
  | t :: ns' => (if first then if comments then " /* " else EmptyString else "|")
                +:+ t +:+ flag_text comments false ns'
  end.

Lemma flag_text_app comments first ns ms :
  flag_text comments first (ns ++ ms) =
  flag_text comments first ns +:+ flag_text comments (first && bool_decide (ns = [])) ms.
Proof.
  revert first. induction ns as [|t ns IH]; intros first; simpl; [by rewrite andb_true_r|].
  rewrite IH, !string_app_assoc. by rewrite andb_false_r.
Qed.

Lemma flag_text_bars comments ns : flag_text comments false ns = foldr (fun t s => "|" +:+ t +:+ s) EmptyString ns.
Proof. induction ns as [|t ns IH]; simpl; [done|]. by rewrite IH. Qed.

Lemma flag_text_concat comments ns :
  ns <> [] ->
  flag_text comments true ns = (if comments then " /* " else EmptyString) +:+ String.concat "|" ns.
Proof.
  destruct ns as [|t ns]; [done|]. intros _. simpl flag_text. f_equal. rewrite flag_text_bars.
  revert t. induction ns as [|t' ns IH]; intros t; [apply string_app_nil|].
  change (String.concat "|" (t :: t' :: ns)) with (t +:+ "|" +:+ String.concat "|" (t' :: ns)).
  by rewrite <- IH.
Qed.

Lemma pf_match_contained flags v :
  flags <> 0 -> pf_match flags v = negb (v =? 0) && (Z.land flags v =? v).
Proof.
  intros Hf. unfold pf_match. destruct (Z.eqb_spec flags v) as [<-|]; [|done].
  rewrite Z.land_diag, Z.eqb_refl. by destruct (Z.eqb_spec flags 0).
Qed.

Lemma pf_table_text comments l out flags n :
  0 <= n -> flags <> 0 \/ n <> 0 ->
  pf_table comments l (mk_pf out flags n) =
  mk_pf (out +:+ flag_text comments (n =? 0) (names (taken l flags))) (rest l flags)
    (n + lenZ (taken l flags)).
Proof.
  unfold rest. revert out flags n. induction l as [|e l IH]; intros out flags n Hn Hd.
  { simpl. by rewrite string_app_nil, Z.ldiff_0_r, Z.add_0_r. }
  cbn [pf_table pf_flags pf_n]. destruct (Z.eqb_spec flags 0) as [->|Hf].
  { destruct (Z.eqb_spec n 0); [lia|]. cbn [negb orb].
    rewrite taken_0. simpl. by rewrite string_app_nil, Z.add_0_r. }
  cbn [negb orb]. unfold pf_entry. cbn [taken pf_flags pf_n pf_out].
  assert (Hskip : (if flags =? 0 then mk_pf out flags n else pf_table comments l (mk_pf out flags n)) =
    mk_pf (out +:+ flag_text comments (n =? 0) (names (taken l flags)))
      (Z.ldiff flags (lor_vals (taken l flags))) (n + lenZ (taken l flags))).
  { destruct (Z.eqb_spec flags 0); [done|]. by apply IH. }
  destruct (str e) as [t|] eqn:E; [|done]. rewrite pf_match_contained by done.
  destruct (negb (val e =? 0) && (Z.land flags (val e) =? val e)); [|done]. clear Hskip.
  cbn [pf_flags]. destruct (Z.eqb_spec flags 0) as [|_]; [done|]. rewrite andb_false_r.
  set (out' := out +:+ _). set (fl := Z.ldiff flags (val e)).
  assert (Hout : out +:+ flag_text comments (n =? 0) (names (e :: taken l fl)) =
    out' +:+ flag_text comments false (names (taken l fl))).
  { unfold out'. rewrite !string_app_assoc. simpl. rewrite E. destruct (n =? 0); simpl; by rewrite ?string_app_assoc. }
  rewrite Hout, lenZ_cons. simpl lor_vals. rewrite <- Z.ldiff_ldiff_l. fold fl.
  assert (Hrec : pf_table comments l (mk_pf out' fl (n + 1)) =
    mk_pf (out' +:+ flag_text comments false (names (taken l fl))) (Z.ldiff fl (lor_vals (taken l fl)))
      (n + (1 + lenZ (taken l fl)))).
  { rewrite IH by lia. destruct (Z.eqb_spec (n + 1) 0); [lia|]. f_equal; lia. }
  destruct (Z.eqb_spec fl 0) as [Hz|]; [|done]. rewrite Hz, taken_0. simpl.
  rewrite string_app_nil. f_equal; lia.
Qed.

Lemma pf_tables_text comments xlats out flags n :
  0 <= n -> flags <> 0 \/ n <> 0 ->
  pf_tables comments xlats (mk_pf out flags n) =
  let l := entries xlats in
  mk_pf (out +:+ flag_text comments (n =? 0) (names (taken l flags))) (rest l flags)
    (n + lenZ (taken l flags)).
Proof.
  cbv zeta. unfold pf_tables. revert out flags n. induction xlats as [|x xlats IH]; intros out flags n Hn Hd.
  { simpl. unfold rest. simpl. by rewrite string_app_nil, Z.ldiff_0_r, Z.add_0_r. }
  cbn [fold_left]. rewrite pf_table_text by done.
  change (entries (x :: xlats)) with (xdata x ++ entries xlats).
  rewrite taken_app, rest_app, lenZ_app. unfold names. rewrite map_app, flag_text_app. rewrite IH.
  - rewrite string_app_assoc, Z.add_assoc. do 3 f_equal. f_equal. destruct (taken (xdata x) flags); simpl.
    + rewrite Z.add_0_r. by rewrite andb_true_r.
    + rewrite andb_false_r. destruct (Z.eqb_spec (n + lenZ (x0 :: l)) 0); [len_lia|done].
  - len_lia.
  - destruct (taken (xdata x) flags) eqn:E; [|len_lia]. unfold rest. rewrite E. simpl.
    rewrite Z.ldiff_0_r, Z.add_0_r. done.
Qed.

Lemma sf_table_app comments l k s :
  sf_table comments (l ++ k) s = sf_table comments k (sf_table comments l s).
Proof.
  revert s. induction l as [|e l IH]; intros s; [done|]. simpl.
  destruct (Z.eqb_spec (sf_flags s) 0) as [E|]; [|apply IH].
  destruct k as [|e' k]; simpl; [done|]. by rewrite E.
Qed.

Lemma sf_tables_entries comments xlats s :
  fold_left (fun s x => sf_table comments (xdata x) s) xlats s = sf_table comments (entries xlats) s.
Proof.
  revert s. induction xlats as [|x xlats IH]; intros s; [done|]. simpl. rewrite IH.
  change (entries (x :: xlats)) with (xdata x ++ entries xlats). by rewrite sf_table_app.
Qed.

(** What comes before the first name. *)
Definition sf_lead (comments : bool) (sep : string) : string :=
  if negb (no_sep sep) then sep else if comments then " /* " else EmptyString.

Definition sf_text (comments : bool) (sep : string) (ns : list string) : string :=
  match ns with
  | [] => EmptyString
  | t :: ns' => sf_lead comments sep +:+ t +:+ flag_text comments false ns'
  end.

Lemma sf_table_text comments l out flags sep fd :
  sf_table comments l (mk_sf out flags sep fd) =
  let ns := names (taken l flags) in
  mk_sf (out +:+ sf_text comments sep ns) (rest l flags)
    (if bool_decide (ns = []) then sep else "|") (fd || negb (bool_decide (ns = []))).
Proof.
  cbv zeta. unfold rest. revert out flags sep fd. induction l as [|e l IH]; intros out flags sep fd.
  { simpl. by rewrite string_app_nil, Z.ldiff_0_r, orb_false_r. }
  cbn [sf_table sf_flags]. destruct (Z.eqb_spec flags 0) as [->|Hf].
  { rewrite taken_0. simpl. by rewrite string_app_nil, orb_false_r. }
  unfold sf_entry. cbn [taken sf_flags sf_out sf_sep].
  destruct (str e) as [t|] eqn:E; [|by rewrite IH].
  destruct (negb (val e =? 0) && (Z.land flags (val e) =? val e)); [|by rewrite IH].
  rewrite IH. simpl. rewrite E, Z.ldiff_ldiff_l, orb_true_r. simpl. f_equal.
  - rewrite !string_app_assoc. by destruct (names (taken l _)).
  - by destruct (bool_decide _).
Qed.

Lemma names_nil l : names l = [] <-> l = [].
Proof. split; [by destruct l|by intros ->]. Qed.

(** ** The printed flags *)

(** The pieces of a decoding: the names and, if bits are left, their number. *)
Definition shown (style : Z) (l : list xlat_data) (flags : Z) : list string :=
  names (taken l flags) ++
  (if rest l flags =? 0 then [] else [sprint_xlat_val (rest l flags) style]).

Lemma printflags_ex_text xv flags dflt style xlats :
  flags <> 0 -> xlat_verbose (get_xlat_style xv style) <> XLAT_STYLE_RAW ->
  let st := get_xlat_style xv style in
  let l := entries xlats in
  let verbose := xlat_verbose st =? XLAT_STYLE_VERBOSE in
  printflags_ex xv flags dflt style xlats =
  if bool_decide (taken l flags = []) then (sprint_xlat_val flags st +:+ comment dflt, 0)
  else ((if verbose then sprint_xlat_val flags st else EmptyString)
        +:+ flag_text verbose true (shown st l flags)
        +:+ (if verbose then " */" else EmptyString), lenZ (shown st l flags)).
Proof.
  intros Hf Hraw. cbv zeta. unfold printflags_ex, shown. destruct (Z.eqb_spec (xlat_verbose (get_xlat_style xv style)) XLAT_STYLE_RAW); [done|].
  rewrite pf_tables_text by lia. cbv zeta. cbn [pf_n pf_flags pf_out].
  set (l := entries xlats). set (verb := _ =? XLAT_STYLE_VERBOSE). rewrite Z.add_0_l.
  destruct (Z.eqb_spec flags 0); [done|].
  destruct (taken l flags) as [|e t] eqn:E; simpl bool_decide; cbn iota.
  - unfold rest. rewrite E. simpl lor_vals. rewrite Z.ldiff_0_r. simpl.
    destruct (Z.eqb_spec flags 0); [done|]. simpl. rewrite string_app_nil.
    destruct verb; simpl; done.
  - destruct (Z.eqb_spec (lenZ (e :: t)) 0); [len_lia|].
    simpl. rewrite andb_true_r. f_equal.
    + rewrite flag_text_app. simpl. rewrite !string_app_assoc.
      destruct (Z.eqb_spec (rest l flags) 0); simpl; by rewrite ?string_app_nil, ?string_app_assoc.
    + destruct (Z.eqb_spec (rest l flags) 0); simpl; unfold lenZ; simpl; rewrite ?length_app; simpl;
        unfold names; rewrite length_map; lia.
Qed.

Lemma shown_ne st l flags : taken l flags <> [] -> shown st l flags <> [].
Proof. unfold shown. by destruct (taken l flags). Qed.


Lemma pretty_N_go_ne x s : s <> EmptyString -> pretty_N_go x s <> EmptyString.
Proof.
  revert s. induction (N.lt_wf_0 x) as [x _ IH]; intros s Hs.
  destruct (decide (x = 0)%N) as [->|]; [done|].
  rewrite pretty_N_go_step by lia. apply IH; [apply N.div_lt; lia|done].
Qed.

Lemma pretty_Z_ne (z : Z) : pretty z <> EmptyString.
Proof.
  assert (P : forall p : positive, pretty p <> EmptyString).
  { intros p. unfold pretty, pretty_positive, pretty, pretty_N. rewrite decide_False by done.
    rewrite pretty_N_go_step by lia. by apply pretty_N_go_ne. }
  unfold pretty at 1, pretty_Z. destruct z; [done|apply P|done].
Qed.

Lemma sprint_xlat_val_ne v st : no_sep (sprint_xlat_val v st) = false.
Proof.
  unfold sprint_xlat_val, no_sep, fmt_hex. apply String.eqb_neq.
  destruct (_ =? XLAT_STYLE_FMT_D); [|destruct (_ =? XLAT_STYLE_FMT_U)]; try apply pretty_Z_ne.
  by destruct (v =? 0).
Qed.

Lemma no_sep_app s t : no_sep (s +:+ t) = no_sep s && no_sep t.
Proof. by destruct s. Qed.

Lemma sf_text_lead comments ns :
  ns <> [] -> comments = true -> sf_text comments EmptyString ns = flag_text comments true ns.
Proof. intros Hn ->. by destruct ns. Qed.

Lemma sf_text_sep sep ns : ns <> [] -> sf_text false sep ns = sep +:+ flag_text false true ns.
Proof.
  destruct ns as [|t ns]; [done|]. intros _. simpl. f_equal. unfold sf_lead, no_sep.
  by destruct (String.eqb_spec sep EmptyString) as [->|].
Qed.

(** For non-zero flags and outside the auxiliary-string mode the string made
    by [sprintflags_exv] is the prefix, the separator and what [printflags_ex]
    prints without a default, in every style; it is NULL when that is empty. *)
Theorem sprintflags_agrees (xv : Z) (prefix : string) (flags : Z) (sep : string) (style : Z)
    (x : xlat) (more : list xlat) :
  flags <> 0 -> has (get_xlat_style xv style) SPFF_AUXSTR_MODE = false ->
  sprintflags_exv xv prefix flags sep style x more =
  let out := prefix +:+ sep +:+ fst (printflags_ex xv flags None style (x :: more)) in
  if no_sep out then None else Some out.
Proof.
  intros Hf Haux. unfold sprintflags_exv. rewrite Haux. cbn [andb negb].
  destruct (Z.eqb_spec flags 0) as [|_]; [done|]. rewrite andb_true_r, andb_false_l. cbn [orb].
  destruct (Z.eqb_spec (xlat_verbose (get_xlat_style xv style)) XLAT_STYLE_RAW) as [Hraw|Hraw].
  { unfold printflags_ex. rewrite Hraw. cbn. destruct (Z.eqb_spec flags 0) as [|_]; [done|]. cbn.
    by rewrite !no_sep_app, sprint_xlat_val_ne, !andb_false_r. }
  rewrite printflags_ex_text by done. cbv zeta. rewrite sf_tables_entries.
  set (st := get_xlat_style xv style). set (l := entries (x :: more)).
  set (verb := xlat_verbose st =? XLAT_STYLE_VERBOSE). cbn [negb].
  destruct (taken l flags) as [|e t] eqn:E.
  - assert (Hr : rest l flags = flags) by (unfold rest; rewrite E; apply Z.ldiff_0_r).
    destruct verb; cbn [andb]; rewrite sf_table_text; cbv zeta; rewrite E, Hr; cbn [names map sf_text];
      rewrite !bool_decide_true by done; cbn [sf_flags sf_found sf_out sf_sep negb orb andb];
      (destruct (Z.eqb_spec flags 0) as [|_]; [done|]); cbn [comment negb orb andb fst];
      rewrite ?string_app_nil, ?string_app_assoc;
      by rewrite ?no_sep_app, ?sprint_xlat_val_ne, ?andb_false_r.
  - rewrite bool_decide_false by done. cbn [fst]. unfold shown. rewrite E.
    rewrite flag_text_app. rewrite (bool_decide_false (names (e :: t) = [])) by done. cbn [andb].
    set (ns := names (e :: t)). assert (Hns : ns <> []) by done.
    destruct verb; cbn [andb]; rewrite sf_table_text; cbv zeta; rewrite E; fold ns;
      rewrite (bool_decide_false (ns = [])) by done; cbn [sf_flags sf_found sf_out sf_sep negb orb andb];
      rewrite ?andb_false_r; cbn [orb andb];
      [rewrite sf_text_lead by done | rewrite sf_text_sep by done];
      destruct (rest l flags =? 0); cbn [flag_text]; rewrite ?string_app_nil, ?string_app_assoc;
      reflexivity.
Qed.

(** ** Concrete tables *)

Definition demo_sorted : xlat :=
  mk_xlat [mk_xd 1 (Some "A"); mk_xd 4 (Some "B"); mk_xd 9 None; mk_xd 16 (Some "D")] XT_SORTED.
Definition demo_indexed : xlat :=
  mk_xlat [mk_xd 0 (Some "ZERO"); mk_xd 0 None; mk_xd 2 (Some "TWO")] XT_INDEXED.
Definition demo_flags : xlat :=
  mk_xlat [mk_xd 7 (Some "RWX"); mk_xd 1 (Some "X"); mk_xd 2 (Some "W"); mk_xd 4 (Some "R")] XT_NORMAL.
Definition demo_modes : xlat := mk_xlat [mk_xd 16 (Some "SYNC"); mk_xd 64 None] XT_NORMAL.

Lemma demo_sorted_wf : xlat_wf demo_sorted.
Proof.
  intros i j Hi Hj. change (j < 4) in Hj.
  assert (i = 0 \/ i = 1 \/ i = 2) as [->|[->| ->]] by lia;
    assert (j = 1 \/ j = 2 \/ j = 3) as [->|[->| ->]] by lia; vm_compute; (reflexivity || lia).
Qed.

Lemma demo_indexed_wf : xlat_wf demo_indexed.
Proof.
  intros i Hi. assert (i = 0 \/ i = 1 \/ i = 2) as [->|[->| ->]] by (change (0 <= i < 3) in Hi; lia); vm_compute; auto.
Qed.

Lemma xlookup_correct_witness :
  xlookup demo_sorted 16 = Some "D" /\ xlookup demo_indexed 2 = Some "TWO" /\ xlookup demo_indexed 1 = None.
Proof.
  rewrite (xlookup_correct demo_sorted 16), (xlookup_correct demo_indexed 2), (xlookup_correct demo_indexed 1);
    [vm_compute; auto|apply demo_indexed_wf|lia|apply demo_indexed_wf|lia|apply demo_sorted_wf|lia].
Defined.

Lemma xlookup_le_correct_witness :
  (exists i, greatest_le demo_sorted 8 i /\ xlookup_le demo_sorted 8 = (str (xat demo_sorted i), val (xat demo_sorted i))) \/
  (xlookup_le demo_sorted 8 = (None, 8) /\ forall j, 0 <= j < xsize demo_sorted -> 8 < val (xat demo_sorted j)).
Proof. apply (xlookup_le_correct demo_sorted 8); [reflexivity|apply demo_sorted_wf|discriminate]. Defined.

Example xlookup_le_demo :
  xlookup_le demo_sorted 8 = (Some "B", 4) /\ xlookup_le demo_sorted 0 = (None, 0) /\
  xlookup_le demo_sorted 100 = (Some "D", 16).
Proof. vm_compute. auto. Qed.


Lemma sprintflags_agrees_witness :
  sprintflags_exv XLAT_STYLE_VERBOSE "flags " 0x57 "=" XLAT_STYLE_DEFAULT demo_flags [demo_modes]
  = Some "flags =0x57 /* RWX|SYNC|0x40 */".
Proof.
  rewrite (sprintflags_agrees XLAT_STYLE_VERBOSE "flags " 0x57 "=" XLAT_STYLE_DEFAULT demo_flags [demo_modes]
             ltac:(lia) ltac:(reflexivity)).
  reflexivity.
Defined.
