(* ===== verification/Trie.v ===== *)
(** * Tries of small values (src/trie.c)

    A map from keys of up to 64 bits to values of 1, 2, 4, ..., 64 bits: inner
    nodes are arrays of pointers indexed by some bits of the key, leaves are
    blocks of 64-bit words with several values packed into each word.  A
    pointer to a node is a value of [node]; the type of what it points to is
    given by the depth, as in the source. *)

From stdpp Require Import gmap sorting.
From S2P Require Import Prelude.
Open Scope Z_scope.

Inductive node :=
  | Null
  | Node (children : list node)
  | Block (words : list Z).

Record trie := mk_trie {
  empty_value : Z; fill_value : Z; root : node; key_size : Z; item_size_lg : Z;
  node_key_bits : Z; data_block_key_bits : Z; max_depth : Z }.

Definition set_root (n : node) (t : trie) : trie :=
  mk_trie (empty_value t) (fill_value t) n (key_size t) (item_size_lg t)
    (node_key_bits t) (data_block_key_bits t) (max_depth t).

(** ** Shifts of the source *)

Definition ptr_sz_lg : Z := 6.
Definition BIT32 (x : Z) : Z := uint 32 (Z.shiftl 1 x).
Definition BIT64 (x : Z) : Z := uint 64 (Z.shiftl 1 x).
Definition MASK64 (x : Z) : Z := uint 64 (BIT64 x - 1).
Definition MASK64_SAFE (x : Z) : Z := uint 64 ((if x <? 64 then BIT64 x else 0) - 1).

(** ** Geometry *)

Definition trie_get_node_size (t : trie) (depth : Z) : Z :=
  if depth =? max_depth t then uint 8 (data_block_key_bits t + item_size_lg t)
  else if depth =? max_depth t - 1
  then uint 8 ((key_size t - data_block_key_bits t - 1) mod node_key_bits t + 1 + ptr_sz_lg)
  else uint 8 (node_key_bits t + ptr_sz_lg).

Definition trie_get_node_bit_offs (t : trie) (depth : Z) : Z :=
  if depth =? max_depth t then 0
  else if depth =? max_depth t - 1 then data_block_key_bits t
  else uint 8 (data_block_key_bits t + (trie_get_node_size t (max_depth t - 1) - ptr_sz_lg)
               + (max_depth t - depth - 2) * node_key_bits t).

(** The loop that copies the empty value all over a word. *)
Fixpoint fill_loop (n : nat) (i item_size_lg fill : Z) : Z :=
  match n with
  | O => fill
  | S n' => fill_loop n' (i + 1) item_size_lg
              (Z.lor fill (uint 64 (Z.shiftl fill (BIT32 (item_size_lg + i)))))
  end.

Definition trie_create (key_size item_size_lg node_key_bits data_block_key_bits empty : Z) : option trie :=
  if 6 <? item_size_lg then None
  else if 64 <? key_size then None
  else if node_key_bits <? 1 then None
  else if (data_block_key_bits <? 1) || (key_size <? data_block_key_bits) then None
  else
    let empty := Z.land empty (MASK64_SAFE (BIT32 item_size_lg)) in
    Some (mk_trie empty (fill_loop (Z.to_nat (6 - item_size_lg)) 0 item_size_lg empty) Null
            key_size item_size_lg node_key_bits data_block_key_bits
            (uint 8 ((key_size - data_block_key_bits + node_key_bits - 1) / node_key_bits))).

(** ** Access *)

Definition trie_create_data_block (t : trie) : list Z :=
  let sz := uint 8 (data_block_key_bits t + item_size_lg t) in
  let sz := if sz <? 6 then 6 else sz in
  replicate (Z.to_nat (BIT32 (sz - 6))) (fill_value t).

(** Index of the child for the key, at a depth. *)
Definition child_pos (t : trie) (depth key : Z) : nat :=
  Z.to_nat (Z.land (Z.shiftr key (trie_get_node_bit_offs t depth))
                   (MASK64 (trie_get_node_size t depth - ptr_sz_lg))).

(** [trie_get_node] without [auto_create], from the node at depth
    [max_depth - n]. *)
Fixpoint get_node (t : trie) (n : nat) (nd : node) (key : Z) : option (list Z) :=
  match n with
  | O => match nd with Block ws => Some ws | _ => None end
  | S n' => match nd with
            | Node cs => get_node t n' (nth (child_pos t (max_depth t - Z.of_nat n) key) cs Null) key
            | _ => None
            end
  end.

(** [trie_get_node] with [auto_create], and then [f] on the data block.  The
    source allocates a new inner node of [BIT64(sz)] bytes, eight times what the
    children take; only the children that can be indexed are kept here. *)
Fixpoint update_node (t : trie) (n : nat) (f : list Z -> list Z) (nd : node) (key : Z) : node :=
  match n with
  | O => Block (f (match nd with Block ws => ws | _ => trie_create_data_block t end))
  | S n' =>
      let depth := max_depth t - Z.of_nat n in
      let cs := match nd with
                | Node cs => cs
                | _ => replicate (Z.to_nat (BIT64 (trie_get_node_size t depth - ptr_sz_lg))) Null
                end in
      let pos := child_pos t depth key in
      Node (<[pos := update_node t n' f (nth pos cs Null) key]> cs)
  end.

Definition levels (t : trie) : nat := Z.to_nat (max_depth t).
Definition key_too_big (t : trie) (key : Z) : bool := (key_size t <? 64) && (MASK64 (key_size t) <? key).

Definition trie_get_node (t : trie) (key : Z) : option (list Z) :=
  if key_too_big t key then None else get_node t (levels t) (root t) key.

(** [pos], [mask] and [offs]. *)
Definition trie_data_block_calc_pos (t : trie) (key : Z) : Z * Z * Z :=
  let pos := Z.shiftr (Z.land key (MASK64 (data_block_key_bits t))) (6 - item_size_lg t) in
  if item_size_lg t =? 6 then (pos, uint 64 (-1), 0)
  else
    let offs := uint 64 (Z.shiftl (Z.land key (MASK64 (6 - item_size_lg t))) (item_size_lg t)) in
    (pos, uint 64 (Z.shiftl (MASK64_SAFE (BIT32 (item_size_lg t))) offs), offs).

Definition data_block_set (t : trie) (key v : Z) (data : list Z) : list Z :=
  let '(pos, mask, offs) := trie_data_block_calc_pos t key in
  updZ data pos (Z.lor (Z.ldiff (nthZ data pos) mask) (Z.land (uint 64 (Z.shiftl v offs)) mask)).

Definition trie_set (t : trie) (key v : Z) : trie * bool :=
  if key_too_big t key then (t, false)
  else (set_root (update_node t (levels t) (data_block_set t key v) (root t) key) t, true).

Definition trie_data_block_get (t : trie) (data : option (list Z)) (key : Z) : Z :=
  match data with
  | None => empty_value t
  | Some d => let '(pos, mask, offs) := trie_data_block_calc_pos t key in
              Z.shiftr (Z.land (nthZ d pos) mask) offs
  end.

Definition trie_get (t : trie) (key : Z) : Z := trie_data_block_get t (trie_get_node t key) key.

(** ** Iteration

    The calls of the function are returned as the list of keys and values, with
    the number the source returns.  The loop over a block counts in 64 bits, so
    it need not end: it has fuel and gives [None] when that runs out. *)

Fixpoint block_loop (fuel : nat) (t : trie) (data : list Z) (i end_ : Z) : option (list (Z * Z)) :=
  match fuel with
  | O => None
  | S fuel' =>
      if i <=? end_ then
        l ← block_loop fuel' t data (uint 64 (i + 1)) end_;
        Some ((i, trie_data_block_get t (Some data) i) :: l)
      else Some []
  end.

Section children.
Variable visit : node -> Z -> Z -> option (list (Z * Z) * Z).

(** The loop over the children number [i], ..., [i + n - 1]. *)
Fixpoint child_loop (n : nat) (cs : list node) (first child_key_count start end_ i : Z)
  : option (list (Z * Z) * Z) :=
  match n with
  | O => Some ([], 0)
  | S n' =>
      let child_start := uint 64 (first + i * child_key_count) in
      let child_end := uint 64 (first + (i + 1) * child_key_count - 1) in
      let child_start := if child_start <? start then start else child_start in
      let child_end := if end_ <? child_end then end_ else child_end in
      '(l, c) ← visit (nth (Z.to_nat i) cs Null) child_start child_end;
      '(l', c') ← child_loop n' cs first child_key_count start end_ (i + 1);
      Some (l ++ l', uint 64 (c + c'))
  end.
End children.

Fixpoint trie_iterate_keys_node (fuel n : nat) (t : trie) (nd : node) (start end_ : Z)
  : option (list (Z * Z) * Z) :=
  if (end_ <? start) || match nd with Null => true | _ => false end then Some ([], 0)
  else
    let end_ := if (key_size t <? 64) && (MASK64 (key_size t) <? end_) then MASK64 (key_size t) else end_ in
    match n, nd with
    | O, Block ws => l ← block_loop fuel t ws start end_; Some (l, uint 64 (end_ - start + 1))
    | S n', Node cs =>
        let depth := max_depth t - Z.of_nat n in
        let parent_node_bit_off := if depth =? 0 then key_size t else trie_get_node_bit_offs t (depth - 1) in
        let first_key_in_node := Z.ldiff start (MASK64_SAFE parent_node_bit_off) in
        let node_bit_off := trie_get_node_bit_offs t depth in
        let mask := MASK64_SAFE (uint 8 (parent_node_bit_off - node_bit_off)) in
        let start_index := Z.land (Z.shiftr start node_bit_off) mask in
        let end_index := Z.land (Z.shiftr end_ node_bit_off) mask in
        child_loop (trie_iterate_keys_node fuel n' t) (Z.to_nat (end_index - start_index + 1)) cs
          first_key_in_node (BIT64 node_bit_off) start end_ start_index
    | _, _ => None
    end.

Definition trie_iterate_keys (fuel : nat) (t : trie) (start end_ : Z) : option (list (Z * Z) * Z) :=
  trie_iterate_keys_node fuel (levels t) t (root t) start end_.

(** ** Freeing

    A node is named by its path of child indices from the node where the
    function starts; the result lists the nodes in the order they are freed. *)

Fixpoint trie_free_node (t : trie) (n : nat) (nd : node) : list (list nat) :=
  match nd with
  | Null => []
  | Block _ => [[]]
  | Node cs =>
      match n with
      | O => []
      | S n' =>
          let sz := BIT64 (trie_get_node_size t (max_depth t - Z.of_nat n) - ptr_sz_lg) in
          flat_map (fun i => map (cons i) (trie_free_node t n' (nth i cs Null))) (seq 0 (Z.to_nat sz))
      end ++ [[]]
  end.

Definition trie_free (t : trie) : list (list nat) := trie_free_node t (levels t) (root t).

(** ** Well-formed tries *)

(** Limits within which no shift or size of the source overflows. *)
Record geometry (t : trie) : Prop := {
  g_item : 0 <= item_size_lg t <= 6;
  g_key : key_size t <= 64;
  g_block : 1 <= data_block_key_bits t <= key_size t;
  g_block_size : data_block_key_bits t + item_size_lg t < 38;
  g_node : 1 <= node_key_bits t <= 57;
  g_depth : max_depth t = (key_size t - data_block_key_bits t + node_key_bits t - 1) / node_key_bits t }.

(** The number of key bits of a level, and the position above them. *)
Definition bits (t : trie) (d : Z) : Z := trie_get_node_size t d - ptr_sz_lg.
Definition above (t : trie) (d : Z) : Z := if d =? 0 then key_size t else trie_get_node_bit_offs t (d - 1).

Lemma BIT64_pow x : 0 <= x < 64 -> BIT64 x = 2 ^ x.
Proof.
  intros. unfold BIT64. rewrite Z.shiftl_1_l. apply uint_small. split; [apply Z.pow_nonneg; lia|].
  apply Z.pow_lt_mono_r; lia.
Qed.

Lemma BIT32_pow x : 0 <= x < 32 -> BIT32 x = 2 ^ x.
Proof.
  intros. unfold BIT32. rewrite Z.shiftl_1_l. apply uint_small. split; [apply Z.pow_nonneg; lia|].
  apply Z.pow_lt_mono_r; lia.
Qed.

Lemma MASK64_ones x : 0 <= x < 64 -> MASK64 x = Z.ones x.
Proof.
  intros. unfold MASK64. rewrite BIT64_pow, Z.ones_equiv, <- Z.sub_1_r by lia. apply uint_small.
  pose proof (pow2_pos x). pose proof (Z.pow_lt_mono_r 2 x 64). unfold in_uint. lia.
Qed.

Lemma MASK64_SAFE_ones x : 0 <= x <= 64 -> MASK64_SAFE x = Z.ones x.
Proof.
  intros. unfold MASK64_SAFE. destruct (Z.ltb_spec x 64).
  - apply (MASK64_ones x); lia.
  - by replace x with 64 by lia.
Qed.

Section geometry.
Variable t : trie.
Hypothesis G : geometry t.
Local Abbreviation D := (max_depth t).
Local Abbreviation off := (trie_get_node_bit_offs t).

Lemma depth_bound : 0 <= D /\ (0 < D -> (D - 1) * node_key_bits t +
  ((key_size t - data_block_key_bits t - 1) mod node_key_bits t + 1) = key_size t - data_block_key_bits t).
Proof.
  destruct G. rewrite g_depth0. set (K := key_size t - data_block_key_bits t) in *.
  set (B := node_key_bits t) in *. split; [apply Z.div_pos; lia|].
  replace (K + B - 1) with (K - 1 + 1 * B) by lia. rewrite Z.div_add by lia. intros HD.
  pose proof (Z.div_mod (K - 1) B ltac:(lia)). lia.
Qed.

Lemma remainder_bound : 0 < D ->
  1 <= (key_size t - data_block_key_bits t - 1) mod node_key_bits t + 1 <= node_key_bits t.
Proof. intros HD. destruct G. pose proof (Z.mod_pos_bound (key_size t - data_block_key_bits t - 1) (node_key_bits t)). lia. Qed.

Lemma bits_eq d : 0 <= d < D ->
  bits t d = if d =? D - 1 then (key_size t - data_block_key_bits t - 1) mod node_key_bits t + 1 else node_key_bits t.
Proof.
  intros Hd. unfold bits, trie_get_node_size, ptr_sz_lg. pose proof (remainder_bound ltac:(lia)). destruct G.
  destruct (Z.eqb_spec d D); [lia|]. destruct (d =? D - 1); rewrite uint_small by (unfold in_uint; lia); lia.
Qed.

Lemma off_eq d : 0 <= d < D ->
  off d = if d =? D - 1 then data_block_key_bits t
          else data_block_key_bits t + bits t (D - 1) + (D - d - 2) * node_key_bits t.
Proof.
  intros Hd. unfold trie_get_node_bit_offs. fold (bits t (D - 1)).
  destruct (Z.eqb_spec d D); [lia|]. destruct (Z.eqb_spec d (D - 1)); [done|].
  apply uint_small. rewrite bits_eq, Z.eqb_refl by lia. pose proof (remainder_bound ltac:(lia)).
  destruct depth_bound as [_ HD]. specialize (HD ltac:(lia)). destruct G. unfold in_uint. nia.
Qed.

(** The levels share out the bits of the key. *)
Lemma geometry_levels d : 0 <= d < D ->
  1 <= bits t d <= 57 /\ data_block_key_bits t <= off d /\ off d + bits t d = above t d /\ above t d <= 64.
Proof.
  intros Hd. pose proof (remainder_bound ltac:(lia)). destruct depth_bound as [_ HD]. specialize (HD ltac:(lia)).
  assert (Hlast : bits t (D - 1) = (key_size t - data_block_key_bits t - 1) mod node_key_bits t + 1)
    by (rewrite bits_eq, Z.eqb_refl by lia; lia).
  unfold above. pose proof (off_eq d Hd) as Hoff. pose proof (bits_eq d Hd) as Hbits.
  rewrite <- Hlast in *. destruct G.
  assert (data_block_key_bits t <= off d /\ off d + bits t d <= key_size t).
  { rewrite Hoff, Hbits. destruct (Z.eqb_spec d (D - 1)); nia. }
  destruct (Z.eqb_spec d 0) as [->|].
  - rewrite Hoff, Hbits in *. destruct (Z.eqb_spec 0 (D - 1)); nia.
  - pose proof (off_eq (d - 1) ltac:(lia)) as Hup. destruct (Z.eqb_spec (d - 1) (D - 1)); [lia|].
    rewrite Hup, Hoff, Hbits in *. destruct (Z.eqb_spec d (D - 1)); nia.
Qed.

Lemma off_last : 0 < D -> off (D - 1) = data_block_key_bits t.
Proof. intros. rewrite off_eq, Z.eqb_refl by lia. done. Qed.

Lemma child_pos_eq d key : 0 <= d < D ->
  child_pos t d key = Z.to_nat (key / 2 ^ off d mod 2 ^ bits t d).
Proof.
  intros Hd. unfold child_pos. fold (bits t d). destruct (geometry_levels d Hd) as (?&?&?&?). destruct G.
  rewrite MASK64_ones, Z.land_ones, Z.shiftr_div_pow2 by lia. done.
Qed.

End geometry.

(** ** Nodes *)

Definition block_words (t : trie) : Z := 2 ^ (Z.max 6 (data_block_key_bits t + item_size_lg t) - 6).

(** A pointer at depth [max_depth - n] points to what the depth says. *)
Fixpoint shape (t : trie) (n : nat) (nd : node) : Prop :=
  match nd, n with
  | Null, _ => True
  | Block ws, O => lenZ ws = block_words t
  | Node cs, S n' => lenZ cs = 2 ^ bits t (max_depth t - Z.of_nat n) /\ Forall (shape t n') cs
  | _, _ => False
  end.

Fixpoint same_path (t : trie) (n : nat) (k k' : Z) : bool :=
  match n with
  | O => true
  | S n' => let d := max_depth t - Z.of_nat n in
            (child_pos t d k =? child_pos t d k')%nat && same_path t n' k k'
  end.

Lemma nth_insert_eq {A} (l : list A) i x y : (i < length l)%nat -> nth i (<[i:=x]> l) y = x.
Proof. intros. by rewrite nth_lookup, list_lookup_insert_eq. Qed.
Lemma nth_insert_ne {A} (l : list A) i j x y : i <> j -> nth j (<[i:=x]> l) y = nth j l y.
Proof. intros. by rewrite !nth_lookup, list_lookup_insert_ne. Qed.

Section nodes.
Variable t : trie.
Hypothesis G : geometry t.

Definition children_of (n : nat) (nd : node) : list node :=
  match nd with
  | Node cs => cs
  | _ => replicate (Z.to_nat (BIT64 (trie_get_node_size t (max_depth t - Z.of_nat n) - ptr_sz_lg))) Null
  end.

Lemma children_of_shape n nd :
  Z.of_nat (S n) <= max_depth t -> shape t (S n) nd ->
  lenZ (children_of (S n) nd) = 2 ^ bits t (max_depth t - Z.of_nat (S n)) /\
  Forall (shape t n) (children_of (S n) nd).
Proof.
  intros Hn Hs. destruct nd as [|cs|]; [|by destruct Hs|done]. unfold children_of.
  fold (bits t (max_depth t - Z.of_nat (S n))).
  destruct (geometry_levels t G (max_depth t - Z.of_nat (S n)) ltac:(lia)) as [Hb _].
  rewrite BIT64_pow, lenZ_replicate by lia. split; [pose proof (pow2_pos (bits t (max_depth t - Z.of_nat (S n)))); lia|].
  apply list.Forall_replicate. by destruct n.
Qed.

Lemma child_pos_lt n nd key :
  Z.of_nat (S n) <= max_depth t -> shape t (S n) nd ->
  (child_pos t (max_depth t - Z.of_nat (S n)) key < length (children_of (S n) nd))%nat.
Proof.
  intros Hn Hs. destruct (children_of_shape n nd Hn Hs) as [Hl _]. unfold lenZ in Hl.
  rewrite child_pos_eq by (done || lia).
  destruct (geometry_levels t G (max_depth t - Z.of_nat (S n)) ltac:(lia)) as [Hb _].
  pose proof (Z.mod_pos_bound (key / 2 ^ trie_get_node_bit_offs t (max_depth t - Z.of_nat (S n)))
    (2 ^ bits t (max_depth t - Z.of_nat (S n))) ltac:(apply pow2_pos; lia)). lia.
Qed.

Lemma get_node_children n nd key :
  shape t (S n) nd ->
  get_node t (S n) nd key =
  get_node t n (nth (child_pos t (max_depth t - Z.of_nat (S n)) key) (children_of (S n) nd) Null) key.
Proof.
  intros Hs. destruct nd as [|cs|]; [|done|done]. unfold children_of. cbn [get_node].
  rewrite nth_lookup. destruct (replicate _ Null !! _) eqn:E; [|by destruct n].
  apply lookup_replicate in E as [-> _]. by destruct n.
Qed.

Lemma shape_child n nd i : Z.of_nat (S n) <= max_depth t -> shape t (S n) nd -> shape t n (nth i (children_of (S n) nd) Null).
Proof.
  intros Hn Hs. destruct (children_of_shape n nd Hn Hs) as [_ HF].
  rewrite nth_lookup. destruct (_ !! i) eqn:E; [by eapply list.Forall_lookup_1 in HF|by destruct n].
Qed.

Lemma fresh_block_length : lenZ (trie_create_data_block t) = block_words t.
Proof.
  destruct G. unfold trie_create_data_block, block_words. rewrite uint_small by (unfold in_uint; lia). cbv zeta.
  rewrite lenZ_replicate, BIT32_pow by (destruct (Z.ltb_spec (data_block_key_bits t + item_size_lg t) 6); lia).
  rewrite Z2Nat.id by (apply Z.pow_nonneg; lia). f_equal.
  destruct (Z.ltb_spec (data_block_key_bits t + item_size_lg t) 6); lia.
Qed.

(** Writing the block of [k] changes what is read for the keys of that block. *)
Lemma get_update n f nd k k' :
  Z.of_nat n <= max_depth t -> shape t n nd ->
  get_node t n (update_node t n f nd k) k' =
  if same_path t n k k' then Some (f (default (trie_create_data_block t) (get_node t n nd k)))
  else get_node t n nd k'.
Proof.
  revert nd. induction n as [|n IH]; intros nd Hn Hs.
  { by destruct nd. }
  set (d := max_depth t - Z.of_nat (S n)). pose proof (child_pos_lt n nd k Hn Hs) as Hlt. fold d in Hlt.
  rewrite !(get_node_children n nd) by done. fold d. cbn [update_node same_path get_node]. fold d.
  change (match nd with Node cs => cs | _ => _ end) with (children_of (S n) nd).
  destruct (Nat.eqb_spec (child_pos t d k) (child_pos t d k')) as [<-|Hne]; cbn [andb].
  - rewrite nth_insert_eq by done. apply IH; [lia|]. by apply shape_child.
  - by rewrite nth_insert_ne.
Qed.

Lemma shape_update n f nd k :
  (forall ws, lenZ (f ws) = lenZ ws) -> Z.of_nat n <= max_depth t -> shape t n nd ->
  shape t n (update_node t n f nd k).
Proof.
  intros Hf. revert nd. induction n as [|n IH]; intros nd Hn Hs.
  { simpl. rewrite Hf. destruct nd; [apply fresh_block_length|done|done]. }
  destruct (children_of_shape n nd Hn Hs) as [Hl HF]. cbn [update_node].
  change (match nd with Node cs => cs | _ => _ end) with (children_of (S n) nd).
  cbn [shape]. split.
  - unfold lenZ. rewrite length_insert. exact Hl.
  - apply list.Forall_insert; [done|]. apply IH; [lia|]. by apply shape_child.
Qed.

(** Equal paths mean equal bits above the block, up to the level. *)
Lemma same_path_mod n k k' :
  Z.of_nat n <= max_depth t -> 
  let top := if Z.of_nat n =? 0 then data_block_key_bits t else above t (max_depth t - Z.of_nat n) in
  let b := 2 ^ data_block_key_bits t in
  same_path t n k k' = (k / b mod 2 ^ (top - data_block_key_bits t) =? k' / b mod 2 ^ (top - data_block_key_bits t)).
Proof.
  cbv zeta. induction n as [|n IH]; intros Hn.
  { simpl. rewrite Z.sub_diag, Z.pow_0_r, !Z.mod_1_r. done. }
  destruct (Z.eqb_spec (Z.of_nat (S n)) 0) as [|_]; [lia|]. cbn [same_path]. rewrite IH by lia. clear IH.
  set (d := max_depth t - Z.of_nat (S n)). destruct (geometry_levels t G d ltac:(lia)) as (Hb & Ho & Ha & _).
  assert (Htop : (if Z.of_nat n =? 0 then data_block_key_bits t else above t (max_depth t - Z.of_nat n))
                 = trie_get_node_bit_offs t d).
  { destruct (Z.eqb_spec (Z.of_nat n) 0).
    - replace d with (max_depth t - 1) by lia. by rewrite off_last by (done || lia).
    - unfold above. destruct (Z.eqb_spec (max_depth t - Z.of_nat n) 0); [lia|]. f_equal. lia. }
  rewrite Htop, <- Ha, !child_pos_eq by (done || lia).
  set (o := trie_get_node_bit_offs t d) in *. set (m := data_block_key_bits t) in *.
  assert (Hm : 1 <= m) by (destruct G; lia).
  replace (o + bits t d - m) with ((o - m) + bits t d) by lia. rewrite Z.pow_add_r by lia.
  assert (Hsplit : forall x, x / 2 ^ m mod (2 ^ (o - m) * 2 ^ bits t d) =
    x / 2 ^ m mod 2 ^ (o - m) + 2 ^ (o - m) * (x / 2 ^ o mod 2 ^ bits t d)).
  { intros x. pose proof (pow2_pos (o - m)). pose proof (pow2_pos (bits t d)). pose proof (pow2_pos m).
    rewrite Z.rem_mul_r by lia. rewrite Z.div_div by lia. rewrite <- Z.pow_add_r by lia.
    by replace (m + (o - m)) with o by lia. }
  rewrite !Hsplit. pose proof (pow2_pos (o - m) ltac:(lia)).
  pose proof (Z.mod_pos_bound (k / 2 ^ m) (2 ^ (o - m)) ltac:(lia)).
  pose proof (Z.mod_pos_bound (k' / 2 ^ m) (2 ^ (o - m)) ltac:(lia)).
  pose proof (Z.mod_pos_bound (k / 2 ^ o) (2 ^ bits t d) ltac:(apply pow2_pos; lia)).
  pose proof (Z.mod_pos_bound (k' / 2 ^ o) (2 ^ bits t d) ltac:(apply pow2_pos; lia)).
  apply eq_bool_prop_intro. rewrite andb_True, !Is_true_true, Nat.eqb_eq, !Z.eqb_eq. split.
  - intros [E1 E2]. rewrite E2. f_equal. f_equal. lia.
  - intros E. assert (k / 2 ^ o mod 2 ^ bits t d = k' / 2 ^ o mod 2 ^ bits t d) by nia. split; [congruence|nia].
Qed.

End nodes.

(** ** Values in a block *)

Definition item_bits (t : trie) : Z := 2 ^ item_size_lg t.
Definition slot_pos (t : trie) (key : Z) : Z :=
  key mod 2 ^ data_block_key_bits t / 2 ^ (6 - item_size_lg t).
Definition slot_offs (t : trie) (key : Z) : Z := key mod 2 ^ (6 - item_size_lg t) * item_bits t.

(** A field of [w] bits of a word. *)
Definition field (w x offs : Z) : Z := Z.land (Z.shiftr x offs) (Z.ones w).

Lemma field_spec w x offs j : 0 <= w -> 0 <= offs -> 0 <= j ->
  Z.testbit (field w x offs) j = Z.testbit x (j + offs) && (j <? w).
Proof. intros. unfold field. by rewrite Z.land_spec, Z.shiftr_spec, Z.testbit_ones_nonneg by lia. Qed.

Lemma field_masked w x offs : 0 <= w -> 0 <= offs ->
  Z.shiftr (Z.land x (Z.shiftl (Z.ones w) offs)) offs = field w x offs.
Proof. intros. unfold field. rewrite Z.shiftr_land, Z.shiftr_shiftl_l by lia. by rewrite Z.sub_diag, Z.shiftl_0_r. Qed.

Lemma field_write w x offs v offs' :
  0 < w -> 0 <= offs -> offs + w <= 64 -> 0 <= offs' ->
  (offs = offs' \/ offs + w <= offs' \/ offs' + w <= offs) ->
  let mask := Z.shiftl (Z.ones w) offs in
  field w (Z.lor (Z.ldiff x mask) (Z.land (uint 64 (Z.shiftl v offs)) mask)) offs' =
  if offs =? offs' then v mod 2 ^ w else field w x offs'.
Proof.
  intros Hw Ho Hm Ho' Hcase mask. apply Z.bits_inj'. intros j Hj.
  rewrite field_spec by lia.
  assert (Hmask : forall i, 0 <= i -> Z.testbit mask i = (offs <=? i) && (i - offs <? w)).
  { intros i Hi. unfold mask. rewrite Z.shiftl_spec by lia. destruct (Z.leb_spec offs i); simpl.
    - by rewrite Z.testbit_ones_nonneg by lia.
    - apply Z.testbit_neg_r. lia. }
  rewrite Z.lor_spec, Z.ldiff_spec, Z.land_spec, Hmask by lia.
  destruct (Z.ltb_spec j w) as [Hjw|Hjw]; rewrite ?andb_true_r, ?andb_false_r.
  - destruct (Z.eqb_spec offs offs') as [->|].
    + rewrite (proj2 (Z.leb_le offs' (j + offs'))), (proj2 (Z.ltb_lt (j + offs' - offs') w)) by lia.
      simpl. rewrite andb_false_r, andb_true_r. simpl. unfold uint.
      rewrite !Z.mod_pow2_bits_low by lia. rewrite Z.shiftl_spec by lia. f_equal. lia.
    + replace ((offs <=? j + offs') && (j + offs' - offs <? w)) with false
        by (destruct (Z.leb_spec offs (j + offs')), (Z.ltb_spec (j + offs' - offs) w); simpl; lia).
      rewrite andb_true_r, andb_false_r, orb_false_r. rewrite field_spec by lia.
      by rewrite (proj2 (Z.ltb_lt j w)), andb_true_r by lia.
  - destruct (offs =? offs'); [by rewrite Z.mod_pow2_bits_high by lia|].
    rewrite field_spec by lia. by rewrite (proj2 (Z.ltb_ge j w)), andb_false_r by lia.
Qed.

Lemma mod_mod_pow2 x a b : 0 <= a <= b -> x mod 2 ^ b mod 2 ^ a = x mod 2 ^ a.
Proof.
  intros. apply Z.mod_mod_divide. exists (2 ^ (b - a)). rewrite <- Z.pow_add_r by lia. f_equal. lia.
Qed.

Section blocks.
Variable t : trie.
Hypothesis G : geometry t.
Local Abbreviation w := (item_bits t).
Local Abbreviation m := (data_block_key_bits t).
Local Abbreviation s := (6 - item_size_lg t).

Lemma word_split : 2 ^ s * w = 64 /\ 0 < w <= 64 /\ 0 < 2 ^ s.
Proof.
  unfold item_bits. destruct G. rewrite <- Z.pow_add_r by lia. replace (s + item_size_lg t) with 6 by lia.
  pose proof (pow2_pos (item_size_lg t)). pose proof (pow2_pos s).
  pose proof (Z.pow_le_mono_r 2 (item_size_lg t) 6). lia.
Qed.

Lemma slot_offs_range key : 0 <= slot_offs t key /\ slot_offs t key + w <= 64.
Proof.
  destruct word_split as (E & ? & ?). unfold slot_offs.
  pose proof (Z.mod_pos_bound key (2 ^ s) ltac:(lia)). nia.
Qed.

Lemma calc_pos_eq key :
  trie_data_block_calc_pos t key = (slot_pos t key, Z.shiftl (Z.ones w) (slot_offs t key), slot_offs t key).
Proof.
  pose proof (slot_offs_range key) as Hr. destruct word_split as (E & Hw & Hs).
  unfold trie_data_block_calc_pos, slot_pos. destruct G.
  rewrite MASK64_ones, Z.land_ones, Z.shiftr_div_pow2 by lia.
  destruct (Z.eqb_spec (item_size_lg t) 6) as [E6|].
  - unfold slot_offs, item_bits in *. rewrite E6. simpl (6 - 6). rewrite Z.pow_0_r, Z.mod_1_r, Z.mul_0_l, Z.shiftl_0_r. done.
  - assert (Ho : Z.shiftl (Z.land key (MASK64 s)) (item_size_lg t) = slot_offs t key)
      by (by rewrite MASK64_ones, Z.land_ones, Z.shiftl_mul_pow2 by lia).
    rewrite Ho. cbv zeta.
    rewrite (uint_small 64 (slot_offs t key)) by (unfold in_uint; lia).
    f_equal. f_equal. rewrite BIT32_pow by lia. fold w.
    rewrite MASK64_SAFE_ones by lia. apply uint_small.
    rewrite Z.shiftl_mul_pow2, Z.ones_equiv, <- Z.sub_1_r by lia.
    pose proof (pow2_pos w). pose proof (pow2_pos (slot_offs t key)).
    pose proof (Z.pow_le_mono_r 2 (w + slot_offs t key) 64 ltac:(lia) ltac:(lia)) as Hle.
    rewrite Z.pow_add_r in Hle by lia. unfold in_uint. nia.
Qed.

Lemma slot_pos_range key : 0 <= slot_pos t key < block_words t.
Proof.
  unfold slot_pos, block_words. destruct word_split as (_ & _ & Hs). destruct G.
  pose proof (Z.mod_pos_bound key (2 ^ m) ltac:(apply pow2_pos; lia)) as Hk.
  split; [apply Z.div_pos; lia|]. apply Z.div_lt_upper_bound; [lia|].
  rewrite <- Z.pow_add_r by lia. pose proof (Z.pow_le_mono_r 2 m (s + (Z.max 6 (m + item_size_lg t) - 6))). lia.
Qed.

(** Within a block, word and offset tell the keys apart. *)
Lemma slot_inj k k' :
  k / 2 ^ m = k' / 2 ^ m -> slot_pos t k = slot_pos t k' -> slot_offs t k = slot_offs t k' -> k = k'.
Proof.
  intros Hb Hp Ho. destruct word_split as (_ & Hw & Hs). destruct G.
  assert (Hs' : k mod 2 ^ s = k' mod 2 ^ s) by (unfold slot_offs in Ho; nia). unfold slot_pos in Hp.
  pose proof (pow2_pos m ltac:(lia)).
  assert (Hm : k mod 2 ^ m = k' mod 2 ^ m).
  { destruct (Z_le_gt_dec s m).
    - rewrite (Z.div_mod (k mod 2 ^ m) (2 ^ s)), (Z.div_mod (k' mod 2 ^ m) (2 ^ s)), !mod_mod_pow2 by lia. congruence.
    - rewrite <- (mod_mod_pow2 k m s), <- (mod_mod_pow2 k' m s) by lia. congruence. }
  rewrite (Z.div_mod k (2 ^ m)), (Z.div_mod k' (2 ^ m)) by lia. congruence.
Qed.

Lemma block_get_set ws k k' v :
  lenZ ws = block_words t -> k / 2 ^ m = k' / 2 ^ m ->
  trie_data_block_get t (Some (data_block_set t k v ws)) k' =
  if k =? k' then v mod 2 ^ w else trie_data_block_get t (Some ws) k'.
Proof.
  intros Hl Hb. unfold trie_data_block_get, data_block_set. rewrite !calc_pos_eq.
  destruct word_split as (E & Hw & Hs). pose proof (slot_offs_range k). pose proof (slot_offs_range k').
  rewrite !field_masked by lia. pose proof (slot_pos_range k). pose proof (slot_pos_range k').
  destruct (Z.eq_dec (slot_pos t k) (slot_pos t k')) as [Hp|Hp].
  - rewrite Hp, nthZ_updZ_eq by lia. rewrite field_write; try lia.
    + destruct (Z.eqb_spec (slot_offs t k) (slot_offs t k')).
      * by rewrite (proj2 (Z.eqb_eq k k')) by (by apply slot_inj).
      * destruct (Z.eqb_spec k k'); [congruence|done].
    + unfold slot_offs in *. destruct (Z.lt_trichotomy (k mod 2 ^ s) (k' mod 2 ^ s)) as [|[->|]]; nia.
  - rewrite nthZ_updZ_ne by lia. destruct (Z.eqb_spec k k'); [congruence|done].
Qed.

Lemma data_block_set_length k v ws : lenZ (data_block_set t k v ws) = lenZ ws.
Proof. unfold data_block_set. destruct (trie_data_block_calc_pos t k) as [[pos mask] offs]. apply lenZ_updZ. Qed.

End blocks.

(** ** The empty value *)

Lemma fill_step w p fill empty :
  0 <= p < 6 -> 0 < w -> (w | 2 ^ p) ->
  (forall i, 0 <= i -> Z.testbit fill i = (i <? 2 ^ p) && Z.testbit empty (i mod w)) ->
  forall i, 0 <= i ->
    Z.testbit (Z.lor fill (uint 64 (Z.shiftl fill (2 ^ p)))) i = (i <? 2 ^ (p + 1)) && Z.testbit empty (i mod w).
Proof.
  intros Hp Hw Hdiv Hf i Hi. rewrite Z.lor_spec, Hf by lia. rewrite (Z.pow_add_r 2 p 1), Z.pow_1_r by lia.
  pose proof (pow2_pos p ltac:(lia)). assert (2 ^ p <= 2 ^ 5) by (apply Z.pow_le_mono_r; lia).
  change (2 ^ 5) with 32 in *.
  assert (Hsh : Z.testbit (uint 64 (Z.shiftl fill (2 ^ p))) i =
    (2 ^ p <=? i) && (i <? 2 ^ p * 2) && Z.testbit empty (i mod w)).
  { unfold uint. destruct (Z.ltb_spec i 64).
    - rewrite Z.mod_pow2_bits_low, Z.shiftl_spec by lia. destruct (Z.leb_spec (2 ^ p) i).
      + rewrite Hf by lia. destruct Hdiv as [q Hq].
        replace ((i - 2 ^ p) mod w) with (i mod w)
          by (rewrite Hq; replace (i - q * w) with (i + (- q) * w) by lia; by rewrite Z.mod_add by lia).
        simpl. f_equal. lia.
      + rewrite Z.testbit_neg_r by lia. done.
    - rewrite Z.mod_pow2_bits_high by lia. rewrite (proj2 (Z.ltb_ge i (2 ^ p * 2))) by lia. by rewrite andb_false_r. }
  rewrite Hsh. destruct (Z.ltb_spec i (2 ^ p)), (Z.leb_spec (2 ^ p) i), (Z.ltb_spec i (2 ^ p * 2)); try lia; simpl;
    by rewrite ?orb_false_r.
Qed.

Lemma fill_loop_spec n i isl fill empty :
  0 <= isl -> 0 <= i -> isl + i + Z.of_nat n = 6 ->
  (forall j, 0 <= j -> Z.testbit fill j = (j <? 2 ^ (isl + i)) && Z.testbit empty (j mod 2 ^ isl)) ->
  forall j, 0 <= j -> Z.testbit (fill_loop n i isl fill) j = (j <? 64) && Z.testbit empty (j mod 2 ^ isl).
Proof.
  revert i fill. induction n as [|n IH]; intros i fill Hl Hi Hn Hf j Hj.
  - cbn [fill_loop]. rewrite Hf by lia. by replace (isl + i) with 6 by lia.
  - cbn [fill_loop]. apply IH; try lia. rewrite BIT32_pow by lia. intros j' Hj'. rewrite Z.add_assoc.
    apply fill_step; try lia; try done.
    exists (2 ^ i). rewrite <- Z.pow_add_r by lia. f_equal. lia.
Qed.

Record trie_wf (t : trie) : Prop := {
  wf_geometry : geometry t;
  wf_shape : shape t (levels t) (root t);
  wf_fill : forall key, field (item_bits t) (fill_value t) (slot_offs t key) = empty_value t }.

(** The parameters [trie_create] is called with. *)
Definition sizes_ok (key_size item_size_lg node_key_bits data_block_key_bits : Z) : Prop :=
  0 <= item_size_lg <= 6 /\ key_size <= 64 /\ 1 <= data_block_key_bits <= key_size /\
  data_block_key_bits + item_size_lg < 38 /\ 1 <= node_key_bits <= 57.

Lemma trie_create_wf ks isl nkb dbkb empty :
  sizes_ok ks isl nkb dbkb ->
  exists t, trie_create ks isl nkb dbkb empty = Some t /\ trie_wf t /\ root t = Null /\
    key_size t = ks /\ item_size_lg t = isl /\ empty_value t = empty mod 2 ^ 2 ^ isl.
Proof.
  intros (Hi & Hk & Hd & Hs & Hn). unfold trie_create.
  rewrite (proj2 (Z.ltb_ge 6 isl)), (proj2 (Z.ltb_ge 64 ks)), (proj2 (Z.ltb_ge nkb 1)),
    (proj2 (Z.ltb_ge dbkb 1)), (proj2 (Z.ltb_ge ks dbkb)) by lia. cbn [orb].
  eexists. split; [reflexivity|]. cbn [root key_size item_size_lg empty_value].
  assert (H2 : 0 < 2 ^ isl <= 64).
  { split; [apply pow2_pos; lia|]. pose proof (Z.pow_le_mono_r 2 isl 6). lia. }
  rewrite BIT32_pow, MASK64_SAFE_ones, Z.land_ones by lia.
  set (e := empty mod 2 ^ 2 ^ isl). split; [|done].
  assert (HD : uint 8 ((ks - dbkb + nkb - 1) / nkb) = (ks - dbkb + nkb - 1) / nkb).
  { apply uint_small. unfold in_uint. split; [apply Z.div_pos; lia|].
    apply Z.div_lt_upper_bound; lia. }
  split; cbn [root]; [split; simpl; lia || done|by destruct (levels _)|].
  intros key. cbn [fill_value]. set (t := mk_trie _ _ _ _ _ _ _ _).
  assert (G : geometry t) by (split; simpl; lia || done).
  pose proof (slot_offs_range t G key) as Hr. unfold item_bits in *. cbn [item_size_lg t] in *.
  apply Z.bits_inj'. intros j Hj. rewrite field_spec by lia.
  rewrite (fill_loop_spec _ 0 isl e e); try lia.
  - unfold slot_offs in *. change (6 - item_size_lg t) with (6 - isl) in *. change (item_bits t) with (2 ^ isl) in *.
    rewrite Z.mod_add by lia. destruct (Z.ltb_spec j (2 ^ isl)).
    + rewrite andb_true_r, (Z.mod_small j), (proj2 (Z.ltb_lt _ 64)) by lia. done.
    + rewrite andb_false_r. change (empty_value t) with (empty mod 2 ^ 2 ^ isl). by rewrite Z.mod_pow2_bits_high by lia.
  - intros i Hi'. rewrite Z.add_0_r. destruct (Z.ltb_spec i (2 ^ isl)); [by rewrite Z.mod_small by lia|].
    unfold e. rewrite Z.mod_pow2_bits_high by lia. done.
Qed.

(** ** A trie is a map *)

Lemma key_too_big_spec t key :
  geometry t -> key < 2 ^ 64 -> key_too_big t key = (2 ^ key_size t <=? key).
Proof.
  intros [] Hk. unfold key_too_big. destruct (Z.ltb_spec (key_size t) 64).
  - rewrite MASK64_ones, Z.ones_equiv, <- Z.sub_1_r by lia. simpl. lia.
  - replace (key_size t) with 64 by lia. simpl. lia.
Qed.

Lemma levels_of_nat t : geometry t -> Z.of_nat (levels t) = max_depth t.
Proof. intros G. destruct (depth_bound t G). unfold levels. lia. Qed.

(** Paths of keys in range tell the blocks apart. *)
Lemma same_path_block t k k' :
  geometry t -> 0 <= k < 2 ^ key_size t -> 0 <= k' < 2 ^ key_size t ->
  same_path t (levels t) k k' = (k / 2 ^ data_block_key_bits t =? k' / 2 ^ data_block_key_bits t).
Proof.
  intros G Hk Hk'. rewrite same_path_mod, (levels_of_nat t G), Z.sub_diag by (done || by rewrite levels_of_nat).
  assert (Htop : (if max_depth t =? 0 then data_block_key_bits t else above t 0) = key_size t).
  { destruct (Z.eqb_spec (max_depth t) 0) as [H0|]; [|done].
    destruct (depth_bound t G) as [_ _]. destruct G. rewrite g_depth0 in H0.
    destruct (Z.eq_dec (key_size t) (data_block_key_bits t)); [lia|].
    assert (1 <= (key_size t - data_block_key_bits t + node_key_bits t - 1) / node_key_bits t)
      by (apply Z.div_le_lower_bound; lia). lia. }
  rewrite Htop. destruct G.
  assert (Hr : forall x, 0 <= x < 2 ^ key_size t ->
    x / 2 ^ data_block_key_bits t mod 2 ^ (key_size t - data_block_key_bits t) = x / 2 ^ data_block_key_bits t).
  { intros x Hx. pose proof (pow2_pos (data_block_key_bits t)). apply Z.mod_small.
    split; [apply Z.div_pos; lia|]. apply Z.div_lt_upper_bound; [lia|]. rewrite <- Z.pow_add_r by lia.
    replace (data_block_key_bits t + (key_size t - data_block_key_bits t)) with (key_size t) by lia. lia. }
  by rewrite !Hr.
Qed.

Lemma key_range t key : geometry t -> 0 <= key < 2 ^ key_size t -> 0 <= key < 2 ^ 64.
Proof. intros [] ?. pose proof (Z.pow_le_mono_r 2 (key_size t) 64). lia. Qed.

Lemma fresh_block_get t k : trie_wf t -> trie_data_block_get t (Some (trie_create_data_block t)) k = empty_value t.
Proof.
  intros [G _ F]. unfold trie_data_block_get. rewrite calc_pos_eq by done.
  destruct (word_split t G) as (_ & Hw & _). destruct (slot_offs_range t G k).
  rewrite field_masked by lia. rewrite <- (F k). f_equal.
  pose proof (slot_pos_range t G k) as Hp. rewrite <- (fresh_block_length t G) in Hp.
  unfold trie_create_data_block in *. apply nthZ_replicate. by rewrite lenZ_replicate in Hp.
Qed.

Lemma get_node_block_length t n nd k ws :
  geometry t -> Z.of_nat n <= max_depth t -> shape t n nd -> get_node t n nd k = Some ws -> lenZ ws = block_words t.
Proof.
  intros G. revert nd. induction n as [|n IH]; intros nd Hn Hs Hg.
  - destruct nd; simpl in *; congruence.
  - rewrite get_node_children in Hg by done. eapply IH, Hg; [lia|]. by apply shape_child.
Qed.

Lemma get_node_same_path t n nd k k' :
  same_path t n k k' = true -> get_node t n nd k = get_node t n nd k'.
Proof.
  revert nd. induction n as [|n IH]; intros nd; [done|]. cbn [same_path get_node].
  intros [E%Nat.eqb_eq Hp]%andb_true_iff. destruct nd; [done| |done]. by rewrite E, IH.
Qed.

Lemma trie_get_set t key v k' :
  trie_wf t -> 0 <= key < 2 ^ 64 -> 0 <= k' < 2 ^ 64 ->
  trie_get (fst (trie_set t key v)) k' =
  if (key <? 2 ^ key_size t) && (key =? k') then v mod 2 ^ item_bits t else trie_get t k'.
Proof.
  intros W Hk Hk'. pose proof W as [G S F]. unfold trie_set. rewrite key_too_big_spec by (done || lia).
  destruct (Z.leb_spec (2 ^ key_size t) key), (Z.ltb_spec key (2 ^ key_size t)); try lia; [done|]. cbn [fst andb].
  unfold trie_get, trie_get_node. change (key_too_big (set_root _ t) k') with (key_too_big t k').
  rewrite key_too_big_spec by (done || lia).
  destruct (Z.leb_spec (2 ^ key_size t) k'); [by destruct (Z.eqb_spec key k'); [lia|]|].
  change (root (set_root ?r t)) with r. change (levels (set_root _ t)) with (levels t).
  match goal with |- trie_data_block_get (set_root ?r t) ?x k' = _ =>
    change (trie_data_block_get (set_root r t) x k') with (trie_data_block_get t x k') end.
  assert (Hget : forall n r nd, get_node (set_root r t) n nd k' = get_node t n nd k').
  { induction n as [|n IH]; intros r nd; [done|]. destruct nd; [done| |done]. apply IH. }
  rewrite Hget, get_update by (done || by rewrite levels_of_nat). rewrite same_path_block by (done || lia).
  destruct (Z.eqb_spec (key / 2 ^ data_block_key_bits t) (k' / 2 ^ data_block_key_bits t)) as [E|].
  - rewrite (get_node_same_path t (levels t) (root t) key k') by (rewrite same_path_block by (done || lia); lia).
    pose proof (get_node_block_length t (levels t) (root t) k') as HL.
    rewrite levels_of_nat in HL by done.
    destruct (get_node t (levels t) (root t) k') as [ws|]; simpl default.
    + rewrite block_get_set; [done|done|by apply HL|done].
    + rewrite block_get_set; [|done|by apply fresh_block_length|done]. by rewrite fresh_block_get.
  - destruct (Z.eqb_spec key k'); [congruence|done].
Qed.

Lemma trie_set_wf t key v : trie_wf t -> trie_wf (fst (trie_set t key v)).
Proof.
  intros W. pose proof W as [G S F]. unfold trie_set. destruct (key_too_big t key); [done|].
  set (r := update_node t (levels t) (data_block_set t key v) (root t) key).
  assert (HS : shape t (levels t) r).
  { apply shape_update; [done|intros; apply data_block_set_length|by rewrite levels_of_nat|done]. }
  assert (Hshape : forall n nd, shape t n nd -> shape (set_root r t) n nd).
  { induction n as [|n IH]; intros nd; [done|]. destruct nd as [|cs|]; [done| |done].
    intros [HL HF]. split; [done|]. by eapply list.Forall_impl. }
  split; [by destruct G; split|by apply Hshape|done].
Qed.

Definition op_ok (o : Z * Z) : Prop := 0 <= o.1 < 2 ^ 64.
Definition set_op (t : trie) (o : Z * Z) : trie := fst (trie_set t o.1 o.2).

(** What [trie_set] means for a map: keys out of range are refused, values are
    cut to the size of an item. *)
Definition map_op (key_size item_size_lg : Z) (m : gmap Z Z) (o : Z * Z) : gmap Z Z :=
  if o.1 <? 2 ^ key_size then <[o.1 := o.2 mod 2 ^ 2 ^ item_size_lg]> m else m.

Lemma set_ops_refine ops t (m : gmap Z Z) :
  trie_wf t -> Forall op_ok ops ->
  (forall k, 0 <= k < 2 ^ 64 -> trie_get t k = default (empty_value t) (m !! k)) ->
  forall k, 0 <= k < 2 ^ 64 ->
    trie_get (fold_left set_op ops t) k =
    default (empty_value t) (fold_left (map_op (key_size t) (item_size_lg t)) ops m !! k).
Proof.
  revert t m. induction ops as [|o ops IH]; intros t m W HF Hm k Hk; [by apply Hm|].
  inversion HF as [|?? Ho HF']; subst. cbn [fold_left].
  assert (Hsame : key_size (set_op t o) = key_size t /\ item_size_lg (set_op t o) = item_size_lg t /\ empty_value (set_op t o) = empty_value t)
    by (unfold set_op, trie_set; by destruct (key_too_big t o.1)).
  destruct Hsame as (E1 & E2 & E3). rewrite <- E3, <- E1, <- E2.
  apply IH; [by apply trie_set_wf|done| |done]. clear k Hk. intros k Hk. rewrite E1, E2, E3.
  unfold set_op. rewrite trie_get_set, Hm by done. unfold map_op, item_bits.
  destruct (o.1 <? 2 ^ key_size t); [|done]. simpl. destruct (Z.eqb_spec o.1 k) as [->|].
  - by rewrite lookup_insert_eq.
  - by rewrite lookup_insert_ne.
Qed.

(** C11: a trie is a map.  After any sequence of [trie_set] on a created trie
    [trie_get] gives the value last stored for the key, cut to the size of an
    item, and the empty value for every key never stored or out of range:
    neighbours packed into the same word, block or node never interfere. *)
Theorem trie_refines_map (ks isl nkb dbkb empty : Z) (ops : list (Z * Z)) :
  sizes_ok ks isl nkb dbkb -> Forall op_ok ops ->
  exists t, trie_create ks isl nkb dbkb empty = Some t /\ forall k, 0 <= k < 2 ^ 64 ->
      trie_get (fold_left set_op ops t) k =
      default (empty mod 2 ^ 2 ^ isl) (fold_left (map_op ks isl) ops (∅ : gmap Z Z) !! k).
Proof.
  intros Hs HF. destruct (trie_create_wf ks isl nkb dbkb empty Hs) as (t & E & W & Hr & <- & <- & <-).
  exists t. split; [done|]. apply set_ops_refine; [done|done|].
  intros k Hk. rewrite lookup_empty. unfold trie_get, trie_get_node. rewrite Hr.
  destruct (key_too_big t k); [done|]. by destruct (levels t).
Qed.

(** ** Iteration visits the allocated blocks *)

Definition range (a b : Z) : list Z := seqZ a (b - a + 1).

Lemma range_nil a b : b < a -> range a b = [].
Proof. intros. unfold range. apply seqZ_nil. lia. Qed.
Lemma range_cons a b : a <= b -> range a b = a :: range (a + 1) b.
Proof. intros. unfold range. rewrite seqZ_cons by lia. f_equal. f_equal; lia. Qed.
Lemma range_split a c b : a <= c + 1 -> c <= b -> range a b = range a c ++ range (c + 1) b.
Proof.
  intros. unfold range. replace (b - a + 1) with ((c - a + 1) + (b - (c + 1) + 1)) by lia.
  rewrite seqZ_app by lia. f_equal. f_equal. lia.
Qed.
Lemma range_elem a b k : k ∈ range a b <-> a <= k <= b.
Proof. unfold range. rewrite elem_of_seqZ. lia. Qed.

(** The keys of an interval in allocated blocks below a node, with their values. *)
Definition visit_key (t : trie) (n : nat) (nd : node) (k : Z) : option (Z * Z) :=
  ws ← get_node t n nd k; Some (k, trie_data_block_get t (Some ws) k).
Definition visits (t : trie) (n : nat) (nd : node) (a b : Z) : list (Z * Z) := omap (visit_key t n nd) (range a b).

Lemma omap_ext_elem {A B} (f g : A -> option B) (l : list A) : (forall x, x ∈ l -> f x = g x) -> omap f l = omap g l.
Proof.
  induction l as [|x l IH]; intros H; [done|]. cbn.
  rewrite (H x) by set_solver. destruct (g x); rewrite IH by (intros; apply H; set_solver); done.
Qed.

Lemma visits_length t n nd a b : lenZ (visits t n nd a b) <= Z.max 0 (b - a + 1).
Proof.
  unfold visits. assert (H : lenZ (range a b) = Z.max 0 (b - a + 1)).
  { unfold lenZ, range. rewrite length_seqZ. lia. }
  rewrite <- H. clear H. unfold lenZ. induction (range a b) as [|k l IH]; [done|]. cbn.
  destruct (visit_key t n nd k); simpl; lia.
Qed.

Lemma omap_length_all {A B} (f : A -> option B) (l : list A) :
  (forall x, is_Some (f x)) -> length (omap f l) = length l.
Proof.
  intros H. induction l as [|x l IH]; [done|]. cbn. destruct (H x) as [y ->]. simpl. by rewrite IH.
Qed.

Lemma visits_Null t n a b : visits t n Null a b = [].
Proof.
  unfold visits. induction (range a b) as [|k l IH]; [done|]. cbn.
  unfold visit_key at 1. by destruct n.
Qed.

Lemma block_loop_spec fuel t ws i end_ :
  0 <= i -> end_ < 2 ^ 64 - 1 -> Z.max 0 (end_ - i + 1) < Z.of_nat fuel ->
  block_loop fuel t ws i end_ = Some (visits t 0 (Block ws) i end_).
Proof.
  revert i. induction fuel as [|fuel IH]; intros i Hi He Hf.
  - lia.
  - cbn [block_loop]. unfold visits. destruct (Z.leb_spec i end_).
    + rewrite uint_small by (unfold in_uint; lia). rewrite IH by lia. rewrite (range_cons i) by lia. done.
    + by rewrite range_nil.
Qed.

Section iteration.
Variable t : trie.
Hypothesis G : geometry t.
Local Abbreviation D := (max_depth t).
Local Abbreviation off := (trie_get_node_bit_offs t).

(** The bits above the keys of a node with [n] levels below it. *)
Definition node_top (n : nat) : Z :=
  match n with O => data_block_key_bits t | S _ => above t (D - Z.of_nat n) end.

Lemma node_top_off n : Z.of_nat (S n) <= D -> node_top n = off (D - Z.of_nat (S n)).
Proof.
  intros Hn. destruct n as [|n]; cbn [node_top].
  - by rewrite off_last by (done || lia).
  - unfold above. destruct (Z.eqb_spec (D - Z.of_nat (S n)) 0); [lia|]. f_equal. lia.
Qed.

Lemma visits_child n cs i a b base :
  let d := D - Z.of_nat (S n) in
  Z.of_nat (S n) <= D -> 0 <= i < 2 ^ bits t d ->
  base * 2 ^ above t d + i * 2 ^ off d <= a -> b < base * 2 ^ above t d + (i + 1) * 2 ^ off d ->
  visits t (S n) (Node cs) a b = visits t n (nth (Z.to_nat i) cs Null) a b.
Proof.
  intros d Hn Hi Ha Hb. apply omap_ext_elem. intros k Hk%range_elem. unfold visit_key. cbn [get_node].
  fold d. rewrite child_pos_eq by (done || lia).
  destruct (geometry_levels t G d ltac:(lia)) as (Hbits & Ho & Hab & _).
  assert (Hoff : 0 <= off d) by (destruct G; lia). pose proof (pow2_pos (off d) Hoff) as Hpo.
  assert (Habove : 2 ^ above t d = 2 ^ bits t d * 2 ^ off d) by (rewrite <- Hab, Z.add_comm, Z.pow_add_r by lia; done).
  rewrite Habove in *.
  assert (E : k / 2 ^ off d = base * 2 ^ bits t d + i).
  { symmetry. apply Z.div_unique with (r := k - (base * 2 ^ bits t d + i) * 2 ^ off d); nia. }
  rewrite E, Z.add_comm, Z.mod_add, Z.mod_small by lia. done.
Qed.

Lemma child_loop_spec visit n N cs base start end_ i :
  let d := D - Z.of_nat (S n) in
  let first := base * 2 ^ above t d in
  Z.of_nat (S n) <= D -> 0 <= start -> end_ < 2 ^ 64 - 1 -> 0 <= base -> first + 2 ^ above t d <= 2 ^ 64 ->
  0 <= i -> i + Z.of_nat N <= 2 ^ bits t d ->
  start < first + (i + 1) * 2 ^ off d -> end_ < first + (i + Z.of_nat N) * 2 ^ off d ->
  (forall j, i < j < i + Z.of_nat N -> first + j * 2 ^ off d <= end_) ->
  (0 < Z.of_nat N -> first + i * 2 ^ off d <= end_ /\ start <= end_) ->
  (forall j a b, a <= b -> start <= a -> b <= end_ -> a / 2 ^ node_top n = b / 2 ^ node_top n ->
     let nd := nth (Z.to_nat j) cs Null in
     visit nd a b = Some (visits t n nd a b, lenZ (visits t n nd a b))) ->
  let vs := visits t (S n) (Node cs) (Z.max start (first + i * 2 ^ off d)) end_ in
  child_loop visit N cs first (2 ^ off d) start end_ i = Some (vs, lenZ vs).
Proof.
  intros d first Hn Hs He Hbase Hfirst. revert i.
  destruct (geometry_levels t G d ltac:(lia)) as (Hbits & Ho & Hab & _).
  assert (Hoff : 0 <= off d) by (destruct G; lia). pose proof (pow2_pos (off d) Hoff) as Hpo.
  assert (Habove : 2 ^ above t d = 2 ^ bits t d * 2 ^ off d) by (rewrite <- Hab, Z.add_comm, Z.pow_add_r by lia; done).
  assert (Hf0 : 0 <= first) by (unfold first; pose proof (Z.pow_nonneg 2 (above t d)); nia).
  induction N as [|N IH]; intros i Hi HiN Hstart Hend Hmid Hne Hvisit vs.
  { cbn [child_loop]. unfold vs, visits. rewrite range_nil by nia. done. }
  specialize (Hne ltac:(lia)). destruct Hne as [Hi_end Hse]. cbn [child_loop].
  rewrite (uint_small 64 (first + i * 2 ^ off d)) by (unfold in_uint; nia).
  rewrite (uint_small 64 (first + (i + 1) * 2 ^ off d - 1)) by (unfold in_uint; nia).
  set (a := if first + i * 2 ^ off d <? start then start else first + i * 2 ^ off d).
  assert (Ha : a = Z.max start (first + i * 2 ^ off d))
    by (unfold a; destruct (Z.ltb_spec (first + i * 2 ^ off d) start); lia).
  set (b := if end_ <? first + (i + 1) * 2 ^ off d - 1 then end_ else first + (i + 1) * 2 ^ off d - 1).
  assert (Hb : b = Z.min end_ (first + (i + 1) * 2 ^ off d - 1))
    by (unfold b; destruct (Z.ltb_spec end_ (first + (i + 1) * 2 ^ off d - 1)); lia).
  assert (Hab' : a <= b) by (rewrite Ha, Hb; nia).
  rewrite Hvisit; [|done|lia|lia|].
  2: { rewrite node_top_off by done. fold d.
       transitivity (base * 2 ^ bits t d + i); [symmetry|].
       - apply Z.div_unique with (r := a - (base * 2 ^ bits t d + i) * 2 ^ off d); unfold first in *; nia.
       - apply Z.div_unique with (r := b - (base * 2 ^ bits t d + i) * 2 ^ off d); unfold first in *; nia. }
  rewrite <- (visits_child n cs i a b base) by (fold d; fold first; lia).
  cbn [mbind option_bind]. rewrite IH; try lia.
  - cbn [mbind option_bind].
    assert (Hvs : vs = visits t (S n) (Node cs) a b ++
      visits t (S n) (Node cs) (Z.max start (first + (i + 1) * 2 ^ off d)) end_).
    { unfold vs, visits. rewrite <- Ha, <- omap_app. f_equal. rewrite (range_split a b end_) by lia. f_equal.
      destruct (Z_lt_ge_dec end_ (first + (i + 1) * 2 ^ off d)).
      - rewrite !range_nil by lia. done.
      - f_equal. lia. }
    rewrite Hvs. f_equal. f_equal. rewrite lenZ_app. apply uint_small. unfold in_uint. rewrite <- lenZ_app, <- Hvs.
    pose proof (visits_length t (S n) (Node cs) (Z.max start (first + i * 2 ^ off d)) end_). fold vs in H. len_facts. lia.
  - intros j Hj. apply Hmid. lia.
  - intros HN. split; [apply Hmid; lia|done].
  - done.
Qed.

Lemma no_clip end_ : end_ < 2 ^ key_size t -> (key_size t <? 64) && (MASK64 (key_size t) <? end_) = false.
Proof.
  intros He. destruct (Z.ltb_spec (key_size t) 64); [|done]. destruct G.
  rewrite MASK64_ones, Z.ones_equiv by lia. apply Z.ltb_ge. lia.
Qed.

Lemma same_quotient a b q : 0 < q -> a / q = b / q -> b - a < q.
Proof.
  intros Hq E. pose proof (Z.div_mod a q). pose proof (Z.div_mod b q).
  pose proof (Z.mod_pos_bound a q Hq). pose proof (Z.mod_pos_bound b q Hq). nia.
Qed.

Lemma iterate_node_spec fuel n nd start end_ :
  2 ^ data_block_key_bits t < Z.of_nat fuel -> Z.of_nat n <= D -> shape t n nd ->
  0 <= start -> end_ < 2 ^ key_size t -> end_ < 2 ^ 64 - 1 ->
  start / 2 ^ node_top n = end_ / 2 ^ node_top n ->
  trie_iterate_keys_node fuel n t nd start end_ =
  Some (visits t n nd start end_, lenZ (visits t n nd start end_)).
Proof.
  intros Hfuel. revert nd start end_. induction n as [|n IH]; intros nd start end_ Hn Hs Hst Hek He Hq.
  - cbn [trie_iterate_keys_node]. rewrite no_clip by done. destruct (Z.ltb_spec end_ start).
    { unfold visits. by rewrite range_nil. }
    destruct nd as [|cs|ws]; [by rewrite visits_Null|done|]. cbn [orb].
    assert (0 < 2 ^ data_block_key_bits t) by (destruct G; apply pow2_pos; lia).
    pose proof (same_quotient _ _ _ H0 Hq). rewrite block_loop_spec by lia. cbn [mbind option_bind].
    f_equal. f_equal. rewrite uint_small by (unfold in_uint; lia).
    unfold visits, lenZ. rewrite (omap_length_all (visit_key t 0 (Block ws))).
    + unfold range. rewrite length_seqZ. lia.
    + intros. by eexists.
  - cbn [trie_iterate_keys_node]. rewrite no_clip by done. destruct (Z.ltb_spec end_ start).
    { unfold visits. by rewrite range_nil. }
    destruct nd as [|cs|ws]; [by rewrite visits_Null| |done]. cbn [orb].
    change (if D - Z.of_nat (S n) =? 0 then key_size t else off (D - Z.of_nat (S n) - 1))
      with (above t (D - Z.of_nat (S n))).
    cbn [node_top] in Hq. set (d := D - Z.of_nat (S n)) in *.
    destruct (geometry_levels t G d ltac:(lia)) as (Hbits & Ho & Hab & H64).
    assert (Hoff : 0 <= off d) by (destruct G; lia). pose proof (pow2_pos (off d) Hoff) as Hpo.
    pose proof (pow2_pos (bits t d) ltac:(lia)) as Hpb. pose proof (pow2_pos (above t d) ltac:(lia)) as Hpa.
    assert (Habove : 2 ^ above t d = 2 ^ bits t d * 2 ^ off d) by (rewrite <- Hab, Z.add_comm, Z.pow_add_r by lia; done).
    replace (above t d - off d) with (bits t d) by lia.
    rewrite (uint_small 8 (bits t d)), !MASK64_SAFE_ones, BIT64_pow by (unfold in_uint; lia).
    rewrite Z.ldiff_ones_r, !Z.land_ones, !Z.shiftr_div_pow2, Z.shiftl_mul_pow2 by lia.
    set (base := start / 2 ^ above t d) in *.
    assert (Hidx : forall k, start <= k <= end_ ->
      base * 2 ^ above t d + (k / 2 ^ off d mod 2 ^ bits t d) * 2 ^ off d <= k <
      base * 2 ^ above t d + (k / 2 ^ off d mod 2 ^ bits t d + 1) * 2 ^ off d
      /\ 0 <= k / 2 ^ off d mod 2 ^ bits t d < 2 ^ bits t d).
    { intros k Hk. assert (Hkb : k / 2 ^ above t d = base).
      { assert (base <= k / 2 ^ above t d) by (apply Z.div_le_mono; lia).
        assert (k / 2 ^ above t d <= end_ / 2 ^ above t d) by (apply Z.div_le_mono; lia). lia. }
      pose proof (Z.mod_pos_bound (k / 2 ^ off d) (2 ^ bits t d) Hpb).
      pose proof (Z.div_mod k (2 ^ off d) ltac:(lia)). pose proof (Z.mod_pos_bound k (2 ^ off d) Hpo).
      pose proof (Z.div_mod (k / 2 ^ off d) (2 ^ bits t d) ltac:(lia)) as Hd.
      rewrite Z.div_div, (Z.mul_comm (2 ^ off d)), <- Habove, Hkb in Hd by lia. nia. }
    destruct (Hidx start ltac:(lia)) as [Hi1 Hi2]. destruct (Hidx end_ ltac:(lia)) as [He1 He2].
    set (si := start / 2 ^ off d mod 2 ^ bits t d) in *. set (ei := end_ / 2 ^ off d mod 2 ^ bits t d) in *.
    assert (si <= ei) by nia. assert (Hbase : 0 <= base) by (apply Z.div_pos; lia).
    assert (Hfirst : base * 2 ^ above t d + 2 ^ above t d <= 2 ^ 64).
    { replace (2 ^ 64) with (2 ^ (64 - above t d) * 2 ^ above t d) by (rewrite <- Z.pow_add_r by lia; f_equal; lia).
      assert (base < 2 ^ (64 - above t d)); [|nia]. apply Z.div_lt_upper_bound; [lia|].
      rewrite <- Z.pow_add_r by lia. replace (above t d + (64 - above t d)) with 64 by lia. lia. }
    replace start with (Z.max start (base * 2 ^ above t d + si * 2 ^ off d)) at 2 3 by lia.
    assert (HN : si + Z.of_nat (Z.to_nat (ei - si + 1)) = ei + 1) by lia.
    apply (child_loop_spec _ n); fold d; rewrite ?HN; try lia; try done.
    + intros j Hj. clear - Hj He1 Hpo. nia.
    + intros j a b Hab' Ha Hb Hqab nd'. apply IH; try lia. unfold nd'.
      rewrite nth_lookup. destruct (cs !! _) eqn:E; [|by destruct n].
      destruct Hs as [_ HF]. by eapply list.Forall_lookup_1 in HF.
Qed.

End iteration.

Lemma iterate_keys_spec (t : trie) (fuel : nat) (start end_ : Z) :
  trie_wf t -> 2 ^ data_block_key_bits t < Z.of_nat fuel ->
  0 <= start < 2 ^ key_size t -> 0 <= end_ < 2 ^ 64 - 1 ->
  let last := Z.min end_ (2 ^ key_size t - 1) in
  exists l, trie_iterate_keys fuel t start end_ = Some (l, lenZ l) /\
    l = omap (fun k => ws ← trie_get_node t k; Some (k, trie_get t k)) (range start last) /\
    forall k, start <= k <= last -> ~ (exists v, (k, v) ∈ l) -> trie_get t k = empty_value t.
Proof.
  intros [G S F] Hf Hst He last. exists (visits t (levels t) (root t) start last).
  pose proof (levels_of_nat t G) as HL. pose proof (key_range t start G Hst).
  assert (Hlast : trie_iterate_keys fuel t start end_ = trie_iterate_keys_node fuel (levels t) t (root t) start last).
  { unfold trie_iterate_keys. destruct (Z_le_gt_dec end_ (2 ^ key_size t - 1)); [f_equal; lia|].
    assert (Hc : (key_size t <? 64) && (MASK64 (key_size t) <? end_) = true /\ MASK64 (key_size t) = last).
    { destruct (Z.eq_dec (key_size t) 64) as [E|]; [rewrite E in *; lia|]. destruct G.
      rewrite MASK64_ones, Z.ones_equiv, <- Z.sub_1_r by lia.
      rewrite (proj2 (Z.ltb_lt _ _)), (proj2 (Z.ltb_lt _ _)) by lia. split; [done|lia]. }
    destruct Hc as [Hc1 Hc2]. pose proof (no_clip t G last ltac:(lia)) as Hn.
    destruct (levels t); cbn [trie_iterate_keys_node]; rewrite Hc1, Hn, Hc2;
      destruct (Z.ltb_spec end_ start), (Z.ltb_spec last start); lia || done. }
  assert (Hget : forall k, 0 <= k < 2 ^ key_size t -> trie_get_node t k = get_node t (levels t) (root t) k).
  { intros k Hk. unfold trie_get_node. rewrite key_too_big_spec by (done || by apply (key_range t k)).
    rewrite (proj2 (Z.leb_gt _ _)) by lia. done. }
  assert (Hkey : forall k, 0 <= k < 2 ^ key_size t ->
    visit_key t (levels t) (root t) k = (ws ← trie_get_node t k; Some (k, trie_get t k))).
  { intros k Hk. unfold visit_key, trie_get. rewrite Hget by done. by destruct (get_node t (levels t) (root t) k). }
  split; [|split].
  - rewrite Hlast. apply iterate_node_spec; try done; try lia.
    unfold node_top. destruct (levels t) eqn:E.
    + assert (key_size t = data_block_key_bits t) as <-.
      { destruct G. simpl in HL. rewrite g_depth0 in HL.
        destruct (Z.eq_dec (key_size t) (data_block_key_bits t)); [lia|].
        assert (1 <= (key_size t - data_block_key_bits t + node_key_bits t - 1) / node_key_bits t)
          by (apply Z.div_le_lower_bound; lia). lia. }
      rewrite !Z.div_small by lia. done.
    + rewrite HL, Z.sub_diag. unfold above. simpl. rewrite !Z.div_small by lia. done.
  - apply omap_ext_elem. intros k Hk%range_elem. apply Hkey. lia.
  - intros k Hk Hno. destruct (trie_get_node t k) as [ws|] eqn:E; [|unfold trie_get; by rewrite E].
    exfalso. apply Hno. exists (trie_get t k). unfold visits. apply list_elem_of_omap. exists k.
    split; [by apply range_elem|]. rewrite Hkey by lia. by rewrite E.
Qed.

(** For an interval that starts at a key of the trie, [trie_iterate_keys]
    ends, calls the function in increasing order exactly for the keys of the
    interval whose block is allocated, each with the value [trie_get] gives, and
    returns the number of calls; the keys passed over have the empty value. *)
Theorem trie_iterate_keys_correct (t : trie) (fuel : nat) (start end_ : Z) :
  trie_wf t -> 2 ^ data_block_key_bits t < Z.of_nat fuel ->
  0 <= start < 2 ^ key_size t -> 0 <= end_ < 2 ^ 64 - 1 ->
  let last := Z.min end_ (2 ^ key_size t - 1) in
  exists l, trie_iterate_keys fuel t start end_ = Some (l, lenZ l) /\
    l = omap (fun k => ws ← trie_get_node t k; Some (k, trie_get t k)) (range start last) /\
    forall k, start <= k <= last -> ~ (exists v, (k, v) ∈ l) -> trie_get t k = empty_value t.
Proof. apply iterate_keys_spec. Qed.

Lemma block_loop_diverges fuel t ws start :
  0 <= start < 2 ^ 64 -> block_loop fuel t ws start (2 ^ 64 - 1) = None.
Proof.
  revert start. induction fuel as [|fuel IH]; intros start Hs; [done|]. cbn [block_loop].
  destruct (Z.leb_spec start (2 ^ 64 - 1)); [|lia].
  rewrite IH by (apply (uint_range 64 (start + 1)); lia). done.
Qed.

Lemma last_key_div a : 0 <= a <= 64 -> (2 ^ 64 - 1) / 2 ^ a = 2 ^ (64 - a) - 1.
Proof.
  intros Ha. pose proof (pow2_pos a ltac:(lia)).
  assert (E : 2 ^ 64 = 2 ^ (64 - a) * 2 ^ a) by (rewrite <- Z.pow_add_r by lia; f_equal; lia).
  symmetry. apply Z.div_unique with (r := 2 ^ a - 1); nia.
Qed.

Lemma iterate_last_diverges t fuel n nd ws :
  geometry t -> key_size t = 64 -> Z.of_nat n <= max_depth t ->
  get_node t n nd (2 ^ 64 - 1) = Some ws ->
  trie_iterate_keys_node fuel n t nd (2 ^ 64 - 1) (2 ^ 64 - 1) = None.
Proof.
  intros G Hk. assert (Hc : (key_size t <? 64) = false) by (by rewrite Hk).
  revert nd. induction n as [|n IH]; intros nd Hn Hg; cbn [trie_iterate_keys_node]; rewrite Hc, Z.ltb_irrefl; cbn [andb orb].
  - destruct nd; try done. by rewrite block_loop_diverges.
  - destruct nd as [|cs|]; try done. set (d := max_depth t - Z.of_nat (S n)).
    change (if d =? 0 then key_size t else trie_get_node_bit_offs t (d - 1)) with (above t d).
    destruct (geometry_levels t G d ltac:(lia)) as (Hbits & Ho & Hab & H64).
    cbn [get_node] in Hg. fold d in Hg. rewrite child_pos_eq in Hg by (done || lia).
    set (o := trie_get_node_bit_offs t d) in *. assert (Hoff : 0 <= o) by (destruct G; lia).
    replace (above t d - o) with (bits t d) by lia.
    rewrite (uint_small 8 (bits t d)), !MASK64_SAFE_ones, BIT64_pow by (unfold in_uint; lia).
    rewrite Z.ldiff_ones_r, !Z.land_ones, !Z.shiftr_div_pow2, Z.shiftl_mul_pow2 by lia.
    rewrite !last_key_div in * by lia. set (i := (2 ^ (64 - o) - 1) mod 2 ^ bits t d) in *.
    assert (Hi : i = 2 ^ bits t d - 1).
    { assert (E : 2 ^ (64 - o) = 2 ^ (64 - above t d) * 2 ^ bits t d) by (rewrite <- Z.pow_add_r by lia; f_equal; lia).
      pose proof (pow2_pos (bits t d) ltac:(lia)). unfold i. symmetry.
      apply Z.mod_unique_pos with (q := 2 ^ (64 - above t d) - 1); nia. }
    replace (Z.to_nat (i - i + 1)) with 1%nat by lia. cbn [child_loop].
    assert (Ea : 2 ^ 64 = 2 ^ (64 - above t d) * 2 ^ above t d) by (rewrite <- Z.pow_add_r by lia; f_equal; lia).
    assert (Eb : 2 ^ above t d = 2 ^ bits t d * 2 ^ o) by (rewrite <- Z.pow_add_r by lia; f_equal; lia).
    pose proof (pow2_pos o Hoff). pose proof (pow2_pos (bits t d) ltac:(lia)).
    assert (2 ^ o <= 2 ^ 64) by (apply Z.pow_le_mono_r; lia).
    assert (E1 : (2 ^ (64 - above t d) - 1) * 2 ^ above t d + i * 2 ^ o = 2 ^ 64 - 2 ^ o) by (rewrite Hi; nia).
    assert (E2 : (2 ^ (64 - above t d) - 1) * 2 ^ above t d + (i + 1) * 2 ^ o - 1 = 2 ^ 64 - 1) by (rewrite Hi; nia).
    rewrite E1, E2, !uint_small by (unfold in_uint; lia). rewrite Z.ltb_irrefl.
    assert (E3 : (if 2 ^ 64 - 2 ^ o <? 2 ^ 64 - 1 then 2 ^ 64 - 1 else 2 ^ 64 - 2 ^ o) = 2 ^ 64 - 1)
      by (destruct (Z.ltb_spec (2 ^ 64 - 2 ^ o) (2 ^ 64 - 1)); lia).
    rewrite E3, IH; [done|lia|done].
Qed.

(** With 64-bit keys, iteration up to UINT64_MAX does not end once the block
    of that key is allocated: the 64-bit counter of the loop over the block
    wraps, so no fuel is enough. *)
Theorem trie_iterate_keys_diverges (t : trie) (ws : list Z) :
  trie_wf t -> key_size t = 64 -> trie_get_node t (2 ^ 64 - 1) = Some ws ->
  forall fuel, trie_iterate_keys fuel t (2 ^ 64 - 1) (2 ^ 64 - 1) = None.
Proof.
  intros [G S F] Hk Hg fuel. unfold trie_get_node in Hg. destruct (key_too_big t _); [done|].
  eapply iterate_last_diverges; [done|done|by rewrite levels_of_nat|exact Hg].
Qed.

(** ** Freeing releases every node once *)

(** The node at a path. *)
Fixpoint node_at (p : list nat) (nd : node) : node :=
  match p, nd with
  | [], _ => nd
  | i :: p', Node cs => node_at p' (nth i cs Null)
  | _ :: _, _ => Null
  end.

(** [q] may be freed after [p]: it is not reached through [p]. *)
Definition not_through (p q : list nat) : Prop := ~ p `prefix_of` q.

Lemma node_at_Null p : node_at p Null = Null.
Proof. by destruct p. Qed.

Lemma sorted_cons i l : StronglySorted not_through l -> StronglySorted not_through (map (cons i) l).
Proof.
  induction 1 as [|p l H IH Hp]; [constructor|]. constructor; [done|].
  apply List.Forall_map. eapply List.Forall_impl; [|exact Hp]. intros q Hq Hpre. by apply Hq, (prefix_cons_inv_2 i i).
Qed.

Lemma sorted_branches (f : nat -> list (list nat)) k m :
  (forall i, StronglySorted not_through (f i)) ->
  StronglySorted not_through (flat_map (fun i => map (cons i) (f i)) (seq k m)).
Proof.
  intros Hf. revert k. induction m as [|m IH]; intros k; [constructor|]. cbn [seq flat_map].
  apply StronglySorted_app_2; [|by apply sorted_cons|apply IH].
  intros p q Hp Hq Hpre.
  apply list_elem_of_In, in_map_iff in Hp as (p' & <- & _).
  apply list_elem_of_In, in_flat_map in Hq as (i & Hi & (q' & <- & _)%in_map_iff).
  apply prefix_cons_inv_1 in Hpre as <-. apply in_seq in Hi. lia.
Qed.

Lemma trie_free_node_spec t n nd :
  geometry t -> Z.of_nat n <= max_depth t -> shape t n nd ->
  StronglySorted not_through (trie_free_node t n nd) /\
  forall p, p ∈ trie_free_node t n nd <-> node_at p nd <> Null.
Proof.
  intros G. revert nd. induction n as [|n IH]; intros [|cs|ws] Hn Hs; try done; cbn [trie_free_node].
  1, 3: split; [constructor|]; intros p; rewrite node_at_Null; split; [by intros ?%elem_of_nil|done].
  - split; [repeat constructor|]. intros [|i p]; cbn; [split; [done|by rewrite list_elem_of_singleton]|].
    by rewrite list_elem_of_singleton.
  - destruct Hs as [Hl HF]. rewrite BIT64_pow
      by (destruct (geometry_levels t G (max_depth t - Z.of_nat (S n)) ltac:(lia)); fold (bits t (max_depth t - Z.of_nat (S n))); lia).
    fold (bits t (max_depth t - Z.of_nat (S n))). rewrite <- Hl. unfold lenZ. rewrite Nat2Z.id.
    assert (Hc : forall i, shape t n (nth i cs Null)).
    { intros i. destruct (nth_in_or_default i cs Null) as [Hi|Hi]; [|rewrite Hi; by destruct n].
      by apply (proj1 (List.Forall_forall _ _) HF). }
    split.
    + apply StronglySorted_app_2; [|apply sorted_branches; intros i; by apply (IH (nth i cs Null)); [lia|]|repeat constructor].
      intros p q Hp ->%list_elem_of_singleton ->%prefix_nil_inv.
      apply list_elem_of_In, in_flat_map in Hp as (i & _ & (? & ? & _)%in_map_iff). done.
    + intros p. rewrite list_elem_of_In, in_app_iff, in_flat_map. destruct p as [|i p]; cbn [node_at].
      * split; [done|]. intros _. right. by left.
      * rewrite <- (proj2 (IH (nth i cs Null) ltac:(lia) (Hc i))). split.
        -- intros [(j & _ & (q & [= -> ->] & Hq)%in_map_iff)|[|[]]]; [by apply list_elem_of_In|done].
        -- intros Hp. left. exists i. split; [|apply in_map, list_elem_of_In, Hp].
           apply in_seq. destruct (decide (i < length cs)%nat); [lia|].
           rewrite nth_overflow in Hp by lia. destruct n; by apply elem_of_nil in Hp.
Qed.

Lemma not_through_NoDup l : StronglySorted not_through l -> NoDup l.
Proof.
  induction 1 as [|p l H IH Hp]; constructor; [|done].
  intros Hin. by apply (proj1 (List.Forall_forall _ _) Hp p Hin).
Qed.

(** [trie_free] releases exactly the allocated nodes, each once, and no node
    before all that is reached through it. *)
Theorem trie_free_releases_all (t : trie) :
  trie_wf t ->
  (forall p, p ∈ trie_free t <-> node_at p (root t) <> Null) /\ NoDup (trie_free t) /\
  StronglySorted not_through (trie_free t).
Proof.
  intros [G S _]. destruct (trie_free_node_spec t (levels t) (root t) G) as [H1 H2]; [by rewrite levels_of_nat|done|].
  split; [exact H2|]. split; [by apply not_through_NoDup|done].
Qed.

(** ** Concrete tries (the cases of tests/trie_test.c) *)

Definition no_trie : trie := mk_trie 0 0 Null 0 0 1 1 0.
Definition make (ks isl nkb dbkb empty : Z) (ops : list (Z * Z)) : trie :=
  fold_left set_op ops (default no_trie (trie_create ks isl nkb dbkb empty)).

Lemma make_wf ks isl nkb dbkb empty ops : sizes_ok ks isl nkb dbkb -> trie_wf (make ks isl nkb dbkb empty ops).
Proof.
  intros H. destruct (trie_create_wf ks isl nkb dbkb empty H) as (t & E & W & _).
  unfold make. rewrite E. simpl. clear E H. revert t W.
  induction ops as [|o ops IH]; intros t W; [done|]. simpl. by apply IH, trie_set_wf.
Qed.

Definition demo_ops : list (Z * Z) := [(0xab, 0xcd); (0xface, 2); (0, 3)].
Definition tens : list (Z * Z) := map (fun i => (i * 10, i * 10 + 42)) (seqZ 0 26).
Definition demo_tens : trie := make 8 6 3 3 (2 ^ 64 - 1) tens.
Definition demo_64 : trie := make 64 6 10 10 0 [(300, 1); (0xfacefeed, 0xabcdef123456); (2 ^ 64 - 1, 2 ^ 64 - 1)].

Lemma trie_refines_map_witness :
  exists t, trie_create 8 2 4 4 10 = Some t /\
    trie_get (fold_left set_op demo_ops t) 0xab = 0xd /\ trie_get (fold_left set_op demo_ops t) 0xface = 10 /\
    trie_get (fold_left set_op demo_ops t) 0 = 3.
Proof.
  destruct (trie_refines_map 8 2 4 4 10 demo_ops) as (t & E & H).
  - unfold sizes_ok. lia.
  - repeat constructor; vm_compute; congruence.
  - exists t. split; [exact E|]. rewrite !H by lia. vm_compute. auto.
Defined.

Example trie_test_64 :
  trie_get demo_64 301 = 0 /\ trie_get demo_64 0xfacefeed = 0xabcdef123456 /\ trie_get demo_64 (2 ^ 64 - 1) = 2 ^ 64 - 1.
Proof. vm_compute. auto. Qed.

Lemma trie_iterate_keys_correct_witness :
  exists l, trie_iterate_keys 100 demo_tens 99 999 = Some (l, lenZ l) /\ lenZ l = 125.
Proof.
  assert (W : trie_wf demo_tens) by (apply make_wf; unfold sizes_ok; lia).
  destruct (trie_iterate_keys_correct demo_tens 100 99 999 W) as (l & E & Hl & _).
  - vm_compute. reflexivity.
  - vm_compute. split; congruence.
  - lia.
  - exists l. split; [exact E|]. rewrite Hl. vm_compute. reflexivity.
Defined.

Lemma trie_iterate_keys_diverges_witness :
  trie_iterate_keys 1000 demo_64 (2 ^ 64 - 1) (2 ^ 64 - 1) = None.
Proof.
  assert (W : trie_wf demo_64) by (apply make_wf; unfold sizes_ok; lia).
  eapply (trie_iterate_keys_diverges demo_64 _ W); [reflexivity|vm_compute; reflexivity].
Defined.

Lemma trie_free_releases_all_witness :
  [1; 2]%nat ∈ trie_free demo_tens /\ length (trie_free demo_tens) = 35%nat /\ NoDup (trie_free demo_tens).
Proof.
  assert (W : trie_wf demo_tens) by (apply make_wf; unfold sizes_ok; lia).
  destruct (trie_free_releases_all demo_tens W) as (H & N & _).
  split; [apply H; vm_compute; discriminate|]. split; [vm_compute; reflexivity|exact N].
Defined.
