(* ===== verification/Filters.v ===== *)
(** * Sets named on the command line (src/basic_filters.c, src/string_to_uint.c)

    Parsing of numbers and the specifications of sets: lists of tokens separated
    by commas, each leading exclamation mark inverting the rest, "all" and
    "none".  Sets of syscalls are one set per personality; a token names a
    syscall by number, name, class or regular expression, with an optional
    personality. *)

From stdpp Require Import gmap pretty.
From S2P Require Import Prelude NumberSet Util Xlat.
From Stdlib Require Import Ascii.
Open Scope Z_scope.

(** ** Characters and numbers of the C library *)

Definition code_of (c : ascii) : Z := Z.of_nat (nat_of_ascii c).
Definition is_digit (c : ascii) : bool := (48 <=? code_of c) && (code_of c <=? 57).
Definition is_space (c : ascii) : bool := (code_of c =? 32) || ((9 <=? code_of c) && (code_of c <=? 13)).

Fixpoint skip_spaces (s : string) : string :=
  match s with
  | String c s' => if is_space c then skip_spaces s' else s
  | EmptyString => s
  end.

(** The number written at the start of [s] and the rest. *)
Fixpoint take_digits (s : string) (acc : Z) : Z * string :=
  match s with
  | String c s' => if is_digit c then take_digits s' (10 * acc + (code_of c - 48)) else (acc, s)
  | EmptyString => (acc, s)
  end.

Definition LLONG_MAX : Z := 2 ^ 63 - 1.
Definition INT_MAX : Z := 2 ^ 31 - 1.

(** [strtoll (s, &end, 10)]: the value, the rest and whether [errno] is ERANGE;
    [None] when there is no number ([end == s]). *)
Definition strtoll (s : string) : option (Z * string * bool) :=
  let s1 := skip_spaces s in
  let '(neg, s2) := match s1 with
                    | String c s' => if Ascii.eqb c "-" then (true, s')
                                     else if Ascii.eqb c "+" then (false, s') else (false, s1)
                    | EmptyString => (false, s1)
                    end in
  match s2 with
  | String c _ =>
      if is_digit c then
        let '(v, e) := take_digits s2 0 in
        let v := if neg : bool then - v else v in
        if LLONG_MAX <? v then Some (LLONG_MAX, e, true)
        else if v <? - 2 ^ 63 then Some (- 2 ^ 63, e, true) else Some (v, e, false)
      else None
  | EmptyString => None
  end.

Fixpoint strchr (s : string) (c : ascii) : bool :=
  match s with String c' s' => Ascii.eqb c c' || strchr s' c | EmptyString => false end.

(** [STR_STRIP_PREFIX]: what follows the prefix, if it is there. *)
Fixpoint strip_prefix (prefix s : string) : option string :=
  match prefix, s with
  | EmptyString, _ => Some s
  | String a p', String b s' => if Ascii.eqb a b then strip_prefix p' s' else None
  | _, EmptyString => None
  end.

Lemma strip_prefix_app pre s : strip_prefix pre (pre +:+ s) = Some s.
Proof.
  induction pre as [|c pre IH]; [done|]. change (strip_prefix (String c pre) (String c (pre +:+ s)) = Some s).
  cbn [strip_prefix]. by rewrite Ascii.eqb_refl.
Qed.

(** The value and [*endptr]; [None] is the result -1. *)
Definition string_to_uint_ex (s : string) (max_val : Z) (accepted_ending : option string)
  : option (Z * string) :=
  match s with
  | EmptyString => None
  | _ =>
      '(val, e, erange) ← strtoll s;
      if (val <? 0) || (max_val <? val) || ((val =? LLONG_MAX) && erange) then None
      else match e, accepted_ending with
           | EmptyString, _ => Some (val, e)
           | String c _, Some acc => if strchr acc c then Some (val, e) else None
           | String _ _, None => None
           end
  end.

Definition string_to_uint_upto (s : string) (max_val : Z) : Z :=
  match string_to_uint_ex s max_val None with Some (v, _) => v | None => -1 end.
Definition string_to_uint (s : string) : Z := string_to_uint_upto s INT_MAX.

(** ** Tokens *)

Fixpoint fields (sep : ascii) (s : string) : list string :=
  match s with
  | EmptyString => [EmptyString]
  | String c s' =>
      if Ascii.eqb c sep then EmptyString :: fields sep s'
      else match fields sep s' with
           | f :: l => String c f :: l
           | [] => [String c EmptyString]
           end
  end.

(** What successive calls of [strtok_r] give: the fields that are not empty. *)
Definition strtok_all (sep : ascii) (s : string) : list string :=
  List.filter (fun f => negb (String.eqb f EmptyString)) (fields sep s).

Definition lower (c : ascii) : ascii :=
  if (65 <=? code_of c) && (code_of c <=? 90) then ascii_of_nat (nat_of_ascii c + 32) else c.
Fixpoint tolower (s : string) : string :=
  match s with String c s' => String (lower c) (tolower s') | EmptyString => EmptyString end.
Definition strcasecmp_eq (s t : string) : bool := String.eqb (tolower s) (tolower t).

(** The first item whose name is the string. *)
Fixpoint find_xlat_val_ex (items : list xlat_data) (s : string) (case_sensitive : bool) : option xlat_data :=
  match items with
  | [] => None
  | e :: l => if (if case_sensitive then String.eqb else strcasecmp_eq) (default EmptyString (str e)) s
              then Some e else find_xlat_val_ex l s case_sensitive
  end.

(** The argument of the option is always given here. *)
Definition find_arg_val (arg : string) (strs : list xlat_data) (not_found : Z) : Z :=
  match find_xlat_val_ex strs arg false with Some e => val e | None => not_found end.

(** ** Sets of numbers *)

(** Leading exclamation marks; [invert] for each. *)
Fixpoint skip_bangs {A} (invert : A -> A) (s : string) (set : A) : string * A :=
  match s with
  | String c s' => if Ascii.eqb c "!" then skip_bangs invert s' (invert set) else (s, set)
  | EmptyString => (s, set)
  end.

Fixpoint tokens_loop (func : string -> Z) (name : string) (toks : list string) (number : Z) (set : number_set)
  : outcome (Z * number_set) :=
  match toks with
  | [] => Ret (number, set)
  | token :: toks' =>
      let number := func token in
      if number <? 0 then Die ("invalid " +:+ name +:+ " '" +:+ token +:+ "'")
      else tokens_loop func name toks' number (add_number_to_set number set)
  end.

Definition qualify_tokens (s0 : string) (func : string -> Z) (name : string) (set : number_set)
  : outcome number_set :=
  let '(s, set) := skip_bangs invert_set s0 (clear_set set) in
  if String.eqb s "none" then Ret set
  else if String.eqb s "all" then Ret (invert_set set)
  else
    '(number, set) ← tokens_loop func name (strtok_all "," s) (-1) set;
    if number <? 0 then Die ("invalid " +:+ name +:+ " '" +:+ s0 +:+ "'") else Ret set.

(** ** Sets of syscalls *)

Definition TRACE_FILE := 0x1.
Definition TRACE_IPC := 0x2.
Definition TRACE_NETWORK := 0x4.
Definition TRACE_PROCESS := 0x8.
Definition TRACE_SIGNAL := 0x10.
Definition TRACE_DESC := 0x20.
Definition TRACE_MEMORY := 0x40.
Definition TRACE_INDIRECT_SUBCALL := 0x200.
Definition TRACE_STAT := 0x800.
Definition TRACE_LSTAT := 0x1000.
Definition TRACE_STATFS := 0x2000.
Definition TRACE_FSTATFS := 0x4000.
Definition TRACE_STATFS_LIKE := 0x8000.
Definition TRACE_FSTAT := 0x10000.
Definition TRACE_STAT_LIKE := 0x20000.
Definition TRACE_PURE := 0x40000.
Definition TRACE_CREDS := 0x100000.
Definition TRACE_CLOCK := 0x200000.

(** Outcome of [regexec]. *)
Inductive reg_result := REG_OK | REG_NOMATCH | REG_ERROR (msg : string).

Record table_entry := mk_entry { entry_flags : Z; entry_func : bool; entry_name : option string }.

(** The tables of the build: syscalls of each personality, names of the
    personalities, renumbering, and the regular expressions of the C library. *)
Class SyscallTables := {
  tables : list (list table_entry);
  personality_designators : list string;
  shuffle_scno_pers : Z -> Z -> Z;
  needs_non_shuffled_check : bool;
  regcomp : string -> string + (string -> reg_result) }.

Section syscalls.
Context {ST : SyscallTables}.

Definition SUPPORTED_PERSONALITIES : Z := lenZ tables.
Definition table (p : Z) : list table_entry := nth (Z.to_nat p) tables [].
Definition nsyscall_vec (p : Z) : Z := lenZ (table p).
Definition entry0 : table_entry := mk_entry 0 false None.
Definition sysent_at (p i : Z) : table_entry := nth (Z.to_nat i) (table p) entry0.

Definition scno_pers_is_valid (scno p : Z) : bool :=
  (scno <? nsyscall_vec p) && entry_func (sysent_at p scno)
  && negb (has (entry_flags (sysent_at p scno)) TRACE_INDIRECT_SUBCALL).

(** The text before and after the last [c]. *)
Fixpoint strrchr (s : string) (c : ascii) : option (string * string) :=
  match s with
  | EmptyString => None
  | String c' s' =>
      match strrchr s' c with
      | Some (a, b) => Some (String c' a, b)
      | None => if Ascii.eqb c c' then Some (EmptyString, s') else None
      end
  end.

Fixpoint find_designator (l : list string) (i : Z) (s : string) : option Z :=
  match l with
  | [] => None
  | d :: l' => if String.eqb s d then Some i else find_designator l' (i + 1) s
  end.

Definition qualify_syscall_separate_personality (s : string) : outcome (option (string * Z)) :=
  match strrchr s "@" with
  | None => Ret None
  | Some (before, after) =>
      match find_designator personality_designators 0 after with
      | Some i => Ret (Some (before, i))
      | None => Die ("incorrect personality designator '" +:+ after +:+ "' in qualification '" +:+ s +:+ "'")
      end
  end.

(** Each of these gives the sets and whether a syscall was found. *)
Local Abbreviation sets := (list number_set).

Definition qualify_syscall_number (s : string) (p : Z) (set : sets) : sets * bool :=
  let nr := uint 32 (string_to_uint s) in
  let scno := uint 32 (shuffle_scno_pers nr p) in
  if scno_pers_is_valid scno p then (add_number_to_set_array scno set p, true)
  else if needs_non_shuffled_check && scno_pers_is_valid nr p
  then (add_number_to_set_array nr set p, true)
  else (set, false).

(** The loop of [qualify_syscall_regex] over the entries from number [i]. *)
Fixpoint regex_loop (exec : string -> reg_result) (s : string) (l : list table_entry) (i p : Z)
    (set : sets) (found : bool) : outcome (sets * bool) :=
  match l with
  | [] => Ret (set, found)
  | e :: l' =>
      match entry_name e with
      | None => regex_loop exec s l' (i + 1) p set found
      | Some n =>
          match exec n with
          | REG_NOMATCH => regex_loop exec s l' (i + 1) p set found
          | REG_ERROR msg => Die ("regexec: " +:+ s +:+ ": " +:+ msg)
          | REG_OK => regex_loop exec s l' (i + 1) p (add_number_to_set_array i set p) true
          end
      end
  end.

Definition qualify_syscall_regex (s : string) (p : Z) (set : sets) : outcome (sets * bool) :=
  match regcomp s with
  | inl msg => Die ("regcomp: " +:+ s +:+ ": " +:+ msg)
  | inr exec => regex_loop exec s (table p) 0 p set false
  end.

Definition syscall_class : list xlat_data :=
  let e v n := mk_xd v (Some n) in
  [e TRACE_DESC "%desc"; e TRACE_FILE "%file"; e TRACE_MEMORY "%memory"; e TRACE_PROCESS "%process";
   e TRACE_CREDS "%creds"; e TRACE_SIGNAL "%signal"; e TRACE_IPC "%ipc"; e TRACE_NETWORK "%net";
   e TRACE_NETWORK "%network"; e TRACE_STAT "%stat"; e TRACE_LSTAT "%lstat"; e TRACE_FSTAT "%fstat";
   e TRACE_STAT_LIKE "%%stat"; e TRACE_STATFS "%statfs"; e TRACE_FSTATFS "%fstatfs";
   e TRACE_STATFS_LIKE "%%statfs"; e TRACE_PURE "%pure"; e TRACE_CLOCK "%clock";
   e 0 "all"; e TRACE_DESC "desc"; e TRACE_FILE "file"; e TRACE_MEMORY "memory";
   e TRACE_PROCESS "process"; e TRACE_SIGNAL "signal"; e TRACE_IPC "ipc"; e TRACE_NETWORK "network"].

Fixpoint class_loop (n : Z) (l : list table_entry) (i p : Z) (set : sets) : sets :=
  match l with
  | [] => set
  | e :: l' =>
      let set := match entry_name e with
                 | Some _ => if Z.land (entry_flags e) n =? n then add_number_to_set_array i set p else set
                 | None => set
                 end in
      class_loop n l' (i + 1) p set
  end.

Definition qualify_syscall_class (s : string) (p : Z) (set : sets) : sets * bool :=
  match find_xlat_val_ex syscall_class s true with
  | None => (set, false)
  | Some class => (class_loop (val class) (table p) 0 p set, true)
  end.

Fixpoint scno_loop (s : string) (l : list table_entry) (i : Z) : Z :=
  match l with
  | [] => -1
  | e :: l' => match entry_name e with
               | Some n => if String.eqb s n then i else scno_loop s l' (i + 1)
               | None => scno_loop s l' (i + 1)
               end
  end.

Definition scno_by_name (s : string) (p start : Z) : Z :=
  if SUPPORTED_PERSONALITIES <=? p then -1
  else scno_loop s (drop (Z.to_nat start) (table p)) start.

Fixpoint name_loop (fuel : nat) (s : string) (p scno : Z) (set : sets) (found : bool) : sets * bool :=
  match fuel with
  | O => (set, found)
  | S fuel' =>
      let scno := scno_by_name s p scno in
      if scno <? 0 then (set, found)
      else name_loop fuel' s p (scno + 1) (add_number_to_set_array scno set p) true
  end.

Definition qualify_syscall_name (s : string) (p : Z) (set : sets) : sets * bool :=
  name_loop (S (length (table p))) s p 0 set false.

Definition qualify_syscall_pers (token : string) (p : Z) (set : sets) : outcome (sets * bool) :=
  let by_name (set : sets) :=
    let '(set, ok) := qualify_syscall_class token p set in
    if ok : bool then (set, true) else qualify_syscall_name token p set in
  match token with
  | String c s' =>
      if is_digit c then Ret (qualify_syscall_number token p set)
      else if Ascii.eqb c "/" then qualify_syscall_regex s' p set
      else Ret (by_name set)
  | EmptyString => Ret (by_name set)
  end.

Fixpoint skip_marks (s : string) (rc : bool) : string * bool :=
  match s with
  | String c s' => if Ascii.eqb c "?" then skip_marks s' true else (s, rc)
  | EmptyString => (s, rc)
  end.

Fixpoint pers_loop (n : nat) (token : string) (p : Z) (set : sets) (rc : bool) : outcome (sets * bool) :=
  match n with
  | O => Ret (set, rc)
  | S n' => '(set, ok) ← qualify_syscall_pers token p set;
            pers_loop n' token (p + 1) set (rc || ok)
  end.

Definition qualify_syscall (token : string) (set : sets) : outcome (sets * bool) :=
  let '(token, rc) := skip_marks token false in
  r ← qualify_syscall_separate_personality token;
  match r with
  | Some (s, p) => '(set, ok) ← qualify_syscall_pers s p set; Ret (set, rc || ok)
  | None => pers_loop (Z.to_nat SUPPORTED_PERSONALITIES) token 0 set rc
  end.

Fixpoint syscall_tokens_loop (toks : list string) (set : sets) (done : bool) : outcome (sets * bool) :=
  match toks with
  | [] => Ret (set, done)
  | token :: toks' =>
      '(set, ok) ← qualify_syscall token set;
      if ok : bool then syscall_tokens_loop toks' set true
      else Die ("invalid system call '" +:+ token +:+ "'")
  end.

Definition qualify_syscall_tokens (s0 : string) (set : sets) : outcome sets :=
  let invert l := invert_number_set_array l SUPPORTED_PERSONALITIES in
  let '(s, set) := skip_bangs invert s0 (clear_number_set_array set SUPPORTED_PERSONALITIES) in
  if String.eqb s "none" then Ret set
  else if String.eqb s "all" then Ret (invert set)
  else
    '(set, done) ← syscall_tokens_loop (strtok_all "," s) set false;
    if done : bool then Ret set else Die ("invalid system call '" +:+ s0 +:+ "'").

End syscalls.

(** ** What a specification means *)

(** The number of leading exclamation marks and what follows them. *)
Fixpoint bangs (s : string) : nat * string :=
  match s with
  | String c s' => if Ascii.eqb c "!" then let '(n, r) := bangs s' in (S n, r) else (O, s)
  | EmptyString => (O, s)
  end.

Lemma skip_bangs_spec {A} (invert : A -> A) s set :
  skip_bangs invert s set = ((bangs s).2, Nat.iter (bangs s).1 invert set).
Proof.
  revert set. induction s as [|c s IH]; intros set; [done|]. cbn [skip_bangs bangs].
  destruct (Ascii.eqb c "!"); [|done]. rewrite IH. destruct (bangs s) as [n r]. cbn [fst snd].
  f_equal. by rewrite <- Nat.iter_succ_r.
Qed.

(** A set given by the numbers in it and the inversion flag. *)
Lemma represents_invert_iter n s a b :
  represents s (a, b) -> represents (Nat.iter n invert_set s) (a, xorb (Nat.odd n) b).
Proof.
  intros H. induction n as [|n IH]; [by destruct b|].
  cbn [Nat.iter nat_rect]. apply (represents_op OpInvert) in IH; [|done]. cbn in IH.
  rewrite Nat.odd_succ, <- Nat.negb_odd. by destruct (Nat.odd n), b.
Qed.

(** The numbers of the tokens; [None] when a token is not valid. *)
Fixpoint token_numbers (func : string -> Z) (toks : list string) : option (list Z) :=
  match toks with
  | [] => Some []
  | tok :: toks' => if func tok <? 0 then None else l ← token_numbers func toks'; Some (func tok :: l)
  end.

(** The members of a specification without exclamation marks: [inr l] is the
    finite set [l], [inl tt] all numbers; [None] is an error. *)
Definition spec_members (func : string -> Z) (s : string) : option (unit + list Z) :=
  if String.eqb s "none" then Some (inr [])
  else if String.eqb s "all" then Some (inl tt)
  else l ← token_numbers func (strtok_all "," s);
       if bool_decide (l = []) then None else Some (inr l).

Definition member (m : unit + list Z) (n : Z) : bool :=
  match m with inl _ => true | inr l => bool_decide (n ∈ l) end.

Lemma tokens_loop_spec func name toks number set a b :
  represents set (a, b) ->
  match token_numbers func toks with
  | None => exists msg, tokens_loop func name toks number set = Die msg
  | Some l => exists number' set', tokens_loop func name toks number set = Ret (number', set') /\
      (if bool_decide (l = []) then number' = number else 0 <= number') /\
      represents set' (list_to_set l ∪ a, b)
  end.
Proof.
  revert number set a. induction toks as [|tok toks IH]; intros number set a R; cbn [token_numbers tokens_loop].
  { exists number, set. split; [done|]. split; [done|]. by rewrite list_to_set_nil, union_empty_l_L. }
  destruct (Z.ltb_spec (func tok) 0); [by eexists|].
  apply (represents_op (OpAdd (func tok))) in R; [|done]. cbn in R.
  specialize (IH (func tok) _ _ R). destruct (token_numbers func toks) as [l|]; cbn [mbind option_bind]; [|done].
  destruct IH as (number' & set' & -> & Hn & R'). exists number', set'. split; [done|]. split.
  - destruct (bool_decide_reflect (l = [])); simpl; lia.
  - by rewrite list_to_set_cons, (union_comm_L {[func tok]}), <- union_assoc_L.
Qed.

Lemma qualify_tokens_spec (s : string) (func : string -> Z) (name : string) (set : number_set) :
  wf_set set ->
  match spec_members func (bangs s).2 with
  | None => exists msg, qualify_tokens s func name set = Die msg
  | Some m => exists set', qualify_tokens s func name set = Ret set' /\ wf_set set' /\
      forall n, 0 <= n -> is_number_in_set n (Some set') = xorb (Nat.odd (bangs s).1) (member m n)
  end.
Proof.
  intros W. unfold qualify_tokens, spec_members. rewrite skip_bangs_spec. destruct (bangs s) as [k r]. cbn [fst snd].
  assert (R : represents (Nat.iter k invert_set (clear_set set)) (∅, Nat.odd k)).
  { replace (Nat.odd k) with (xorb (Nat.odd k) false) by apply xorb_false_r. apply represents_invert_iter.
    split; [by apply wf_clear|]. split; [by apply elems_clear|done]. }
  assert (Done : forall set' a b m, represents set' (a, b) ->
    (forall n, 0 <= n -> xorb (bool_decide (n ∈ a)) b = xorb (Nat.odd k) (member m n)) ->
    exists set'', Ret set' = Ret set'' /\ wf_set set'' /\
      forall n, 0 <= n -> is_number_in_set n (Some set'') = xorb (Nat.odd k) (member m n)).
  { intros set' a b m (W' & E & F) Hm. exists set'. split; [done|]. split; [done|]. intros n Hn.
    rewrite is_number_in_set_elems by done. simpl in E, F. rewrite E, F. by apply Hm. }
  destruct (String.eqb r "none").
  { apply (Done _ ∅ (Nat.odd k)); [done|]. intros n _. cbn [member]. rewrite !bool_decide_false by set_solver.
    apply xorb_comm. }
  destruct (String.eqb r "all").
  { apply (represents_op OpInvert) in R; [|done]. apply (Done _ ∅ (negb (Nat.odd k))); [exact R|].
    intros n _. cbn [member]. rewrite bool_decide_false by set_solver. by destruct (Nat.odd k). }
  pose proof (tokens_loop_spec func name (strtok_all "," r) (-1) _ _ _ R) as H.
  destruct (token_numbers func _) as [l|]; cbn [mbind option_bind].
  2: { destruct H as [msg ->]. by eexists. }
  destruct H as (number' & set' & -> & Hn & R'). cbn [mbind outcome_bind].
  destruct (bool_decide_reflect (l = [])) as [->|Hl].
  { subst number'. by eexists. }
  rewrite (proj2 (Z.ltb_ge number' 0)) by done. apply (Done _ _ _ _ R'). intros n _. cbn [member].
  rewrite xorb_comm. f_equal. apply bool_decide_ext.
  rewrite elem_of_union, elem_of_list_to_set, elem_of_empty. tauto.
Qed.

(** The meaning of a set specification.  [qualify_tokens] dies exactly when
    the text after the exclamation marks is neither "all" nor "none" and has no
    token or an invalid one; otherwise a number is in the resulting set exactly
    when it is among those named, or, with an odd number of exclamation marks,
    when it is not, whatever the set was before. *)
Theorem qualify_tokens_correct (s : string) (func : string -> Z) (name : string) (set : number_set) :
  wf_set set ->
  match spec_members func (bangs s).2 with
  | None => exists msg, qualify_tokens s func name set = Die msg
  | Some m => exists set', qualify_tokens s func name set = Ret set' /\ wf_set set' /\
      forall n, 0 <= n -> is_number_in_set n (Some set') = xorb (Nat.odd (bangs s).1) (member m n)
  end.
Proof. apply qualify_tokens_spec. Qed.

(** ** What a specification of syscalls means *)

Section syscalls_correct.
Context {ST : SyscallTables}.
Local Abbreviation sets := (list number_set).

(** The static assertion of basic_filters.c. *)
Hypothesis designators_complete : lenZ personality_designators = SUPPORTED_PERSONALITIES.

Definition sets_wf (set : sets) : Prop := lenZ set = SUPPORTED_PERSONALITIES /\ Forall wf_set set.

(** The sets [set'] are [set] with the numbers selected for each personality. *)
Definition adds_to (set set' : sets) (sel : Z -> Z -> bool) : Prop :=
  sets_wf set' /\ forall q, 0 <= q < SUPPORTED_PERSONALITIES ->
    not_ (set_at set' q) = not_ (set_at set q) /\
    forall n, n ∈ elems (set_at set' q) <-> sel q n = true \/ n ∈ elems (set_at set q).

Lemma set_at_wf set q : sets_wf set -> 0 <= q < SUPPORTED_PERSONALITIES -> wf_set (set_at set q).
Proof.
  intros [Hl HF] Hq. unfold set_at. rewrite nth_lookup.
  destruct (set !! Z.to_nat q) eqn:E; [exact (list.Forall_lookup_1 _ _ _ _ HF E)|].
  apply lookup_ge_None in E. unfold lenZ in Hl. lia.
Qed.

Lemma adds_to_refl set : sets_wf set -> adds_to set set (fun _ _ => false).
Proof. intros W. split; [done|]. intros q _. split; [done|]. intuition congruence. Qed.

Lemma adds_to_trans set set' set'' sel sel' :
  adds_to set set' sel -> adds_to set' set'' sel' -> adds_to set set'' (fun q n => sel q n || sel' q n).
Proof.
  intros [W H] [W' H']. split; [done|]. intros q Hq. destruct (H q Hq) as [E F], (H' q Hq) as [E' F'].
  split; [congruence|]. intros n. rewrite F', F, orb_true_iff. tauto.
Qed.

Lemma adds_to_ext set set' sel sel' :
  (forall q n, sel q n = sel' q n) -> adds_to set set' sel -> adds_to set set' sel'.
Proof.
  intros E [W H]. split; [done|]. intros q Hq. destruct (H q Hq) as [F G]. split; [done|].
  intros n. by rewrite G, E.
Qed.

Lemma set_at_add set p n q :
  0 <= p < lenZ set -> 0 <= q ->
  set_at (add_number_to_set_array n set p) q = if q =? p then add_number_to_set n (set_at set p) else set_at set q.
Proof.
  intros Hp Hq. unfold add_number_to_set_array, set_at at 1. rewrite nth_lookup. unfold lenZ in Hp.
  destruct (Z.eqb_spec q p) as [->|Hne].
  - by rewrite list_lookup_insert_eq by lia.
  - rewrite list_lookup_insert_ne by lia. by rewrite <- nth_lookup.
Qed.

Lemma adds_one set p n :
  sets_wf set -> 0 <= p < SUPPORTED_PERSONALITIES -> 0 <= n ->
  adds_to set (add_number_to_set_array n set p) (fun q m => (q =? p) && (m =? n)).
Proof.
  intros W Hp Hn. pose proof (set_at_wf set p W Hp) as Wp. destruct W as [Hl HF].
  unfold add_number_to_set_array. split.
  { split; [unfold lenZ; rewrite length_insert; exact Hl|].
    apply list.Forall_insert; [done|]. by apply wf_add. }
  intros q Hq. fold (add_number_to_set_array n set p). rewrite set_at_add by lia.
  destruct (Z.eqb_spec q p) as [->|Hne].
  - split; [unfold add_number_to_set, reallocate_number_set; by case_match|].
    intros m. rewrite elems_add by done. cbn [andb]. rewrite elem_of_union, elem_of_singleton, Z.eqb_eq. tauto.
  - split; [done|]. intros m. cbn [andb]. intuition congruence.
Qed.

(** *** Loops over a table *)

(** Number [m] is that of an entry of [l] with the property, counting from [i]. *)
Definition isat (P : table_entry -> bool) (l : list table_entry) (i m : Z) : bool :=
  (i <=? m) && (m <? i + lenZ l) && P (nth (Z.to_nat (m - i)) l entry0).

Lemma isat_cons P e l i m : isat P (e :: l) i m = (m =? i) && P e || isat P l (i + 1) m.
Proof.
  unfold isat. rewrite lenZ_cons. destruct (Z.eqb_spec m i) as [->|Hne].
  - rewrite Z.sub_diag, (proj2 (Z.leb_le i i)), (proj2 (Z.leb_gt (i + 1) i)) by lia. simpl.
    rewrite (proj2 (Z.ltb_lt _ _)) by len_lia. by rewrite orb_false_r.
  - destruct (Z.leb_spec i m), (Z.leb_spec (i + 1) m); try lia; simpl; try done.
    replace (Z.to_nat (m - i)) with (S (Z.to_nat (m - (i + 1)))) by lia. simpl.
    by replace (i + 1 + lenZ l) with (i + (1 + lenZ l)) by lia.
Qed.

Lemma isat_nil P i m : isat P [] i m = false.
Proof. unfold isat. rewrite lenZ_nil. destruct (Z.leb_spec i m), (Z.ltb_spec m (i + 0)); lia || done. Qed.

Fixpoint add_where (P : table_entry -> bool) (l : list table_entry) (i p : Z) (set : sets) : sets :=
  match l with
  | [] => set
  | e :: l' => add_where P l' (i + 1) p (if P e then add_number_to_set_array i set p else set)
  end.

Lemma add_where_adds P l i p set :
  sets_wf set -> 0 <= p < SUPPORTED_PERSONALITIES -> 0 <= i ->
  adds_to set (add_where P l i p set) (fun q m => (q =? p) && isat P l i m).
Proof.
  revert i set. induction l as [|e l IH]; intros i set W Hp Hi; cbn [add_where].
  { eapply adds_to_ext; [|by apply adds_to_refl]. intros. by rewrite isat_nil, andb_false_r. }
  destruct (P e) eqn:HP.
  - pose proof (adds_one set p i W Hp Hi) as H1.
    eapply adds_to_ext; [|eapply adds_to_trans; [exact H1|apply IH; [apply H1|done|lia]]].
    intros q m. cbn beta. by rewrite isat_cons, HP, andb_true_r, andb_orb_distrib_r.
  - eapply adds_to_ext; [|apply IH; [done|done|lia]]. intros q m. cbn beta.
    by rewrite isat_cons, HP, andb_false_r.
Qed.

Definition in_class (n : Z) (e : table_entry) : bool :=
  match entry_name e with Some _ => Z.land (entry_flags e) n =? n | None => false end.
Definition has_name (s : string) (e : table_entry) : bool :=
  match entry_name e with Some n => String.eqb s n | None => false end.
Definition reg_matches (exec : string -> reg_result) (e : table_entry) : bool :=
  match entry_name e with Some n => match exec n with REG_OK => true | _ => false end | None => false end.
Definition reg_fails (exec : string -> reg_result) (e : table_entry) : bool :=
  match entry_name e with Some n => match exec n with REG_ERROR _ => true | _ => false end | None => false end.

Lemma class_loop_where n l i p set : class_loop n l i p set = add_where (in_class n) l i p set.
Proof.
  revert i set. induction l as [|e l IH]; intros i set; [done|]. cbn [class_loop add_where]. rewrite IH.
  f_equal. unfold in_class. by destruct (entry_name e).
Qed.

Lemma regex_loop_where exec s l i p set found :
  if existsb (reg_fails exec) l then exists msg, regex_loop exec s l i p set found = Die msg
  else regex_loop exec s l i p set found =
       Ret (add_where (reg_matches exec) l i p set, found || existsb (reg_matches exec) l).
Proof.
  revert i set found. induction l as [|e l IH]; intros i set found; cbn [existsb regex_loop add_where].
  { by rewrite orb_false_r. }
  destruct (entry_name e) as [n|] eqn:En; [destruct (exec n) as [| |msg] eqn:Ex|].
  all: assert (Ef : reg_fails exec e = match entry_name e with Some n =>
         match exec n with REG_ERROR _ => true | _ => false end | None => false end) by done;
       assert (Em : reg_matches exec e = match entry_name e with Some n =>
         match exec n with REG_OK => true | _ => false end | None => false end) by done;
       rewrite En, ?Ex in Ef, Em; rewrite Ef, Em; cbn [orb]; try apply IH; try by eexists.
  specialize (IH (i + 1) (add_number_to_set_array i set p) true). by rewrite orb_true_r.
Qed.

(** [scno_by_name] stops at the first entry of the name. *)
Lemma scno_loop_spec s l i p set :
  0 <= i ->
  let j := scno_loop s l i in
  if j <? 0 then existsb (has_name s) l = false /\ add_where (has_name s) l i p set = set
  else i <= j < i + lenZ l /\ existsb (has_name s) l = true /\
       add_where (has_name s) l i p set =
       add_where (has_name s) (drop (Z.to_nat (j + 1 - i)) l) (j + 1) p (add_number_to_set_array j set p).
Proof.
  revert i. induction l as [|e l IH]; intros i Hi; cbn [scno_loop existsb add_where]; [done|].
  assert (Hstep : has_name s e = false ->
    let j := scno_loop s l (i + 1) in
    if j <? 0 then has_name s e || existsb (has_name s) l = false /\
      add_where (has_name s) l (i + 1) p (if has_name s e then add_number_to_set_array i set p else set) = set
    else i <= j < i + lenZ (e :: l) /\ has_name s e || existsb (has_name s) l = true /\
      add_where (has_name s) l (i + 1) p (if has_name s e then add_number_to_set_array i set p else set) =
      add_where (has_name s) (drop (Z.to_nat (j + 1 - i)) (e :: l)) (j + 1) p (add_number_to_set_array j set p)).
  { intros E. rewrite E. cbn [orb]. specialize (IH (i + 1) ltac:(lia)). cbv zeta in *.
    destruct (Z.ltb_spec (scno_loop s l (i + 1)) 0); [done|]. destruct IH as (Hj & Hex & Ha).
    rewrite lenZ_cons. split; [lia|]. split; [done|]. rewrite Ha.
    by replace (Z.to_nat (scno_loop s l (i + 1) + 1 - i)) with (S (Z.to_nat (scno_loop s l (i + 1) + 1 - (i + 1)))) by lia. }
  destruct (has_name s e) eqn:E.
  - assert (Es : match entry_name e with Some n => if String.eqb s n then i else scno_loop s l (i + 1)
                 | None => scno_loop s l (i + 1) end = i)
      by (unfold has_name in E; destruct (entry_name e); [by rewrite E|done]).
    rewrite Es. cbv zeta. rewrite (proj2 (Z.ltb_ge i 0)) by lia. rewrite lenZ_cons.
    split; [len_lia|]. split; [done|]. by replace (Z.to_nat (i + 1 - i)) with 1%nat by lia.
  - assert (Es : match entry_name e with Some n => if String.eqb s n then i else scno_loop s l (i + 1)
                 | None => scno_loop s l (i + 1) end = scno_loop s l (i + 1))
      by (unfold has_name in E; destruct (entry_name e); [by rewrite E|done]).
    rewrite Es. by apply Hstep.
Qed.

Lemma name_loop_where fuel s p i set found :
  0 <= p < SUPPORTED_PERSONALITIES -> 0 <= i -> nsyscall_vec p - i < Z.of_nat fuel ->
  name_loop fuel s p i set found =
  (add_where (has_name s) (drop (Z.to_nat i) (table p)) i p set,
   found || existsb (has_name s) (drop (Z.to_nat i) (table p))).
Proof.
  intros Hp. revert i set found. induction fuel as [|fuel IH]; intros i set found Hi Hf; cbn [name_loop].
  { rewrite drop_ge by (unfold nsyscall_vec, lenZ in Hf; lia). simpl. by rewrite orb_false_r. }
  unfold scno_by_name. rewrite (proj2 (Z.leb_gt _ _)) by lia.
  pose proof (scno_loop_spec s (drop (Z.to_nat i) (table p)) i p set Hi) as H. cbv zeta in H.
  destruct (Z.ltb_spec (scno_loop s (drop (Z.to_nat i) (table p)) i) 0).
  - destruct H as [-> ->]. by rewrite orb_false_r.
  - destruct H as (Hj & -> & ->). set (j := scno_loop s _ i) in *.
    assert (Hlen : lenZ (drop (Z.to_nat i) (table p)) <= nsyscall_vec p - i \/ lenZ (drop (Z.to_nat i) (table p)) = 0).
    { unfold nsyscall_vec, lenZ. rewrite length_drop. lia. }
    rewrite IH by lia. rewrite drop_drop.
    replace (Z.to_nat i + Z.to_nat (j + 1 - i))%nat with (Z.to_nat (j + 1)) by lia.
    by rewrite orb_true_r.
Qed.

(** *** The meaning of a token *)

(** The numbers a token selects for personality [p] and whether it is accepted
    there; [None] when its regular expression is wrong. *)
Definition denote_pers (token : string) (p : Z) : option ((Z -> bool) * bool) :=
  let named :=
    match find_xlat_val_ex syscall_class token true with
    | Some class => Some (isat (in_class (val class)) (table p) 0, true)
    | None => Some (isat (has_name token) (table p) 0, existsb (has_name token) (table p))
    end in
  match token with
  | String c s' =>
      if is_digit c then
        let nr := uint 32 (string_to_uint token) in
        let scno := uint 32 (shuffle_scno_pers nr p) in
        if scno_pers_is_valid scno p then Some (Z.eqb scno, true)
        else if needs_non_shuffled_check && scno_pers_is_valid nr p then Some (Z.eqb nr, true)
        else Some (fun _ => false, false)
      else if Ascii.eqb c "/" then
        match regcomp s' with
        | inl _ => None
        | inr exec => if existsb (reg_fails exec) (table p) then None
                      else Some (isat (reg_matches exec) (table p) 0, existsb (reg_matches exec) (table p))
        end
      else named
  | EmptyString => named
  end.

Lemma qualify_syscall_pers_spec token p set :
  sets_wf set -> 0 <= p < SUPPORTED_PERSONALITIES ->
  match denote_pers token p with
  | None => exists msg, qualify_syscall_pers token p set = Die msg
  | Some (sel, ok) => exists set', qualify_syscall_pers token p set = Ret (set', ok) /\
      adds_to set set' (fun q n => (q =? p) && sel n)
  end.
Proof.
  intros W Hp. unfold denote_pers, qualify_syscall_pers.
  assert (Hname : match (match find_xlat_val_ex syscall_class token true with
      | Some class => Some (isat (in_class (val class)) (table p) 0, true)
      | None => Some (isat (has_name token) (table p) 0, existsb (has_name token) (table p)) end) with
    | None => exists msg : string, Ret (let '(set', ok) := qualify_syscall_class token p set in
        if ok : bool then (set', true) else qualify_syscall_name token p set') = Die msg
    | Some (sel, ok) => exists set', Ret (let '(set', ok) := qualify_syscall_class token p set in
        if ok : bool then (set', true) else qualify_syscall_name token p set') = Ret (set', ok) /\
      adds_to set set' (fun q n => (q =? p) && sel n) end).
  { unfold qualify_syscall_class. destruct (find_xlat_val_ex syscall_class token true) as [class|].
    - eexists. split; [reflexivity|]. rewrite class_loop_where. by apply add_where_adds.
    - unfold qualify_syscall_name. rewrite name_loop_where by (unfold nsyscall_vec, lenZ; lia).
      eexists. split; [reflexivity|]. by apply add_where_adds. }
  destruct token as [|c s']; [exact Hname|]. destruct (is_digit c).
  - clear Hname. unfold qualify_syscall_number. set (nr := uint 32 (string_to_uint _)).
    set (scno := uint 32 (shuffle_scno_pers nr p)).
    assert (Hone : forall k, 0 <= k -> exists set', Ret (add_number_to_set_array k set p, true) = Ret (set', true) /\
      adds_to set set' (fun q n => (q =? p) && (k =? n))).
    { intros k Hk. eexists. split; [reflexivity|]. eapply adds_to_ext; [|by apply adds_one].
      intros. cbn beta. by rewrite (Z.eqb_sym n k). }
    destruct (scno_pers_is_valid scno p); [apply Hone; apply uint_range; lia|].
    destruct (needs_non_shuffled_check && scno_pers_is_valid nr p); [apply Hone; apply uint_range; lia|].
    exists set. split; [done|]. eapply adds_to_ext; [|by apply adds_to_refl]. intros. by rewrite andb_false_r.
  - destruct (Ascii.eqb c "/"); [|exact Hname]. unfold qualify_syscall_regex.
    destruct (regcomp s') as [msg|exec]; [by eexists|].
    pose proof (regex_loop_where exec s' (table p) 0 p set false) as H.
    destruct (existsb (reg_fails exec) (table p)); [done|]. rewrite H.
    eexists. split; [reflexivity|]. by apply add_where_adds.
Qed.

(** A token for all personalities from [p] on. *)
Fixpoint denote_all (n : nat) (token : string) (p : Z) : option ((Z -> Z -> bool) * bool) :=
  match n with
  | O => Some (fun _ _ => false, false)
  | S n' => '(sel, ok) ← denote_pers token p;
            '(sel', ok') ← denote_all n' token (p + 1);
            Some (fun q m => (q =? p) && sel m || sel' q m, ok || ok')
  end.

(** Question marks make the token optional; a designator after the last at-sign
    names its personality. *)
Definition denote_token (token : string) : option ((Z -> Z -> bool) * bool) :=
  let '(token, rc) := skip_marks token false in
  match qualify_syscall_separate_personality token with
  | Die _ => None
  | Ret (Some (s, p)) => '(sel, ok) ← denote_pers s p; Some (fun q m => (q =? p) && sel m, rc || ok)
  | Ret None => '(sel, ok) ← denote_all (Z.to_nat SUPPORTED_PERSONALITIES) token 0; Some (sel, rc || ok)
  end.

Lemma pers_loop_spec n token p set rc :
  sets_wf set -> 0 <= p -> p + Z.of_nat n <= SUPPORTED_PERSONALITIES ->
  match denote_all n token p with
  | None => exists msg, pers_loop n token p set rc = Die msg
  | Some (sel, ok) => exists set', pers_loop n token p set rc = Ret (set', rc || ok) /\ adds_to set set' sel
  end.
Proof.
  revert p set rc. induction n as [|n IH]; intros p set rc W Hp Hn; cbn [denote_all pers_loop].
  { exists set. rewrite orb_false_r. split; [done|]. by apply adds_to_refl. }
  pose proof (qualify_syscall_pers_spec token p set W ltac:(lia)) as H.
  destruct (denote_pers token p) as [[sel ok]|]; cbn [mbind option_bind].
  2: { destruct H as [msg ->]. by eexists. }
  destruct H as (set' & -> & A). cbn [mbind outcome_bind].
  specialize (IH (p + 1) set' (rc || ok) ltac:(apply A) ltac:(lia) ltac:(lia)).
  destruct (denote_all n token (p + 1)) as [[sel' ok']|]; cbn [mbind option_bind]; [|exact IH].
  destruct IH as (set'' & -> & A'). exists set''. rewrite orb_assoc. split; [done|].
  exact (adds_to_trans _ _ _ _ _ A A').
Qed.

Lemma find_designator_range l i s p : 0 <= i -> find_designator l i s = Some p -> i <= p < i + lenZ l.
Proof.
  revert i. induction l as [|d l IH]; intros i Hi; [done|]. cbn [find_designator]. rewrite lenZ_cons.
  destruct (String.eqb s d); [intros [= <-]; len_lia|]. intros H. apply IH in H; lia.
Qed.

Lemma qualify_syscall_spec token set :
  sets_wf set ->
  match denote_token token with
  | None => exists msg, qualify_syscall token set = Die msg
  | Some (sel, ok) => exists set', qualify_syscall token set = Ret (set', ok) /\ adds_to set set' sel
  end.
Proof.
  intros W. unfold denote_token, qualify_syscall. destruct (skip_marks token false) as [tok rc].
  destruct (qualify_syscall_separate_personality tok) as [[[s p]|]|msg] eqn:E; cbn [mbind outcome_bind].
  - assert (Hp : 0 <= p < SUPPORTED_PERSONALITIES).
    { unfold qualify_syscall_separate_personality in E. destruct (strrchr tok "@") as [[before after]|]; [|done].
      destruct (find_designator personality_designators 0 after) as [i|] eqn:F; [|done].
      injection E as <- <-. apply find_designator_range in F; lia. }
    pose proof (qualify_syscall_pers_spec s p set W Hp) as H.
    destruct (denote_pers s p) as [[sel ok]|]; cbn [mbind option_bind].
    + destruct H as (set' & -> & A). by exists set'.
    + destruct H as [msg ->]. by eexists.
  - assert (0 <= SUPPORTED_PERSONALITIES) by apply lenZ_nonneg.
    pose proof (pers_loop_spec (Z.to_nat SUPPORTED_PERSONALITIES) tok 0 set rc W ltac:(lia) ltac:(lia)) as H'.
    by destruct (denote_all _ tok 0) as [[sel ok]|].
  - by eexists.
Qed.

(** *** The meaning of a specification *)

Fixpoint denote_tokens (toks : list string) : option (Z -> Z -> bool) :=
  match toks with
  | [] => Some (fun _ _ => false)
  | tok :: toks' =>
      '(sel, ok) ← denote_token tok;
      if ok : bool then sel' ← denote_tokens toks'; Some (fun q m => sel q m || sel' q m) else None
  end.

Definition denote_spec (s : string) : option (Z -> Z -> bool) :=
  if String.eqb s "none" then Some (fun _ _ => false)
  else if String.eqb s "all" then Some (fun _ _ => true)
  else if bool_decide (strtok_all "," s = []) then None else denote_tokens (strtok_all "," s).

Lemma syscall_tokens_loop_spec toks set done :
  sets_wf set ->
  match denote_tokens toks with
  | None => exists msg, syscall_tokens_loop toks set done = Die msg
  | Some sel => exists set', syscall_tokens_loop toks set done =
      Ret (set', done || negb (bool_decide (toks = []))) /\ adds_to set set' sel
  end.
Proof.
  revert set done. induction toks as [|tok toks IH]; intros set dn W; cbn [denote_tokens syscall_tokens_loop].
  { exists set. rewrite orb_false_r. split; [done|]. by apply adds_to_refl. }
  pose proof (qualify_syscall_spec tok set W) as H.
  destruct (denote_token tok) as [[sel ok]|]; cbn [mbind option_bind].
  2: { destruct H as [msg ->]. by eexists. }
  destruct H as (set' & -> & A). cbn [mbind outcome_bind]. destruct ok; [|by eexists].
  specialize (IH set' true ltac:(apply A)). destruct (denote_tokens toks) as [sel'|]; cbn [mbind option_bind]; [|done].
  destruct IH as (set'' & -> & A'). exists set''. rewrite orb_true_r. split; [done|].
  exact (adds_to_trans _ _ _ _ _ A A').
Qed.

(** The array operations act on every set. *)
Lemma whole_array (f : number_set -> number_set) (set : sets) :
  lenZ set = SUPPORTED_PERSONALITIES ->
  (f <$> take (Z.to_nat SUPPORTED_PERSONALITIES) set) ++ drop (Z.to_nat SUPPORTED_PERSONALITIES) set = f <$> set.
Proof.
  intros <-. unfold lenZ. rewrite Nat2Z.id, take_ge, drop_ge by lia. apply app_nil_r.
Qed.

Lemma set_at_fmap (f : number_set -> number_set) (set : sets) q :
  0 <= q < lenZ set -> set_at (f <$> set) q = f (set_at set q).
Proof.
  intros Hq. unfold set_at, lenZ in *. rewrite !nth_lookup, list_lookup_fmap.
  destruct (set !! Z.to_nat q) eqn:E; [done|]. apply lookup_ge_None in E. lia.
Qed.

Lemma invert_array_iter k (set : sets) :
  sets_wf set -> let set' := Nat.iter k (fun l => invert_number_set_array l SUPPORTED_PERSONALITIES) set in
  sets_wf set' /\ forall q, 0 <= q < SUPPORTED_PERSONALITIES ->
    elems (set_at set' q) = elems (set_at set q) /\
    not_ (set_at set' q) = xorb (Nat.odd k) (not_ (set_at set q)).
Proof.
  intros W. induction k as [|k [W' IH]].
  { split; [done|]. intros q Hq. split; [done|]. simpl. by destruct (not_ (set_at set q)). }
  rewrite Nat.iter_succ. set (set' := Nat.iter k _ _) in *.
  unfold invert_number_set_array. pose proof W' as [Hl HF]. rewrite whole_array by done. split.
  - split; [unfold lenZ; rewrite length_fmap; exact Hl|]. apply list.Forall_fmap.
    eapply list.Forall_impl; [exact HF|]. apply wf_invert.
  - intros q Hq. destruct (IH q Hq) as [E N]. rewrite set_at_fmap by (by rewrite Hl). split; [done|].
    simpl. rewrite N, Nat.odd_succ, <- Nat.negb_odd. by destruct (Nat.odd k), (not_ (set_at set q)).
Qed.

Lemma in_set_array_elems n (set : sets) p : 0 <= n ->
  is_number_in_set_array n (Some set) p = xorb (bool_decide (n ∈ elems (set_at set p))) (not_ (set_at set p)).
Proof. apply (is_number_in_set_elems n (set_at set p)). Qed.

Lemma qualify_syscall_tokens_spec (s : string) (set : list number_set) :
  sets_wf set ->
  match denote_spec (bangs s).2 with
  | None => exists msg, qualify_syscall_tokens s set = Die msg
  | Some sel => exists set', qualify_syscall_tokens s set = Ret set' /\ sets_wf set' /\
      forall p n, 0 <= p < SUPPORTED_PERSONALITIES -> 0 <= n ->
        is_number_in_set_array n (Some set') p = xorb (Nat.odd (bangs s).1) (sel p n)
  end.
Proof.
  intros W. unfold qualify_syscall_tokens, denote_spec. rewrite skip_bangs_spec.
  destruct (bangs s) as [k r]. cbn [fst snd].
  assert (Wc : sets_wf (clear_number_set_array set SUPPORTED_PERSONALITIES) /\ forall q, 0 <= q < SUPPORTED_PERSONALITIES ->
    represents (set_at (clear_number_set_array set SUPPORTED_PERSONALITIES) q) (∅, false)).
  { unfold clear_number_set_array. rewrite whole_array by apply W. pose proof W as [Hl HF]. split.
    - split; [unfold lenZ; rewrite length_fmap; exact Hl|]. apply list.Forall_fmap.
      eapply list.Forall_impl; [exact HF|]. apply wf_clear.
    - intros q Hq. rewrite set_at_fmap by (by rewrite Hl). pose proof (set_at_wf set q W Hq).
      split; [by apply wf_clear|]. split; [by apply elems_clear|done]. }
  destruct Wc as [Wc Rc]. pose proof (invert_array_iter k _ Wc) as [Wi Ri]. cbv zeta in Wi, Ri.
  set (set0 := Nat.iter k _ _) in *.
  assert (R0 : forall q, 0 <= q < SUPPORTED_PERSONALITIES -> elems (set_at set0 q) = ∅ /\ not_ (set_at set0 q) = Nat.odd k).
  { intros q Hq. destruct (Ri q Hq) as [-> ->]. destruct (Rc q Hq) as (_ & -> & ->). by rewrite xorb_false_r. }
  assert (Done : forall set' sel, adds_to set0 set' sel -> exists set'', Ret set' = Ret set'' /\ sets_wf set'' /\
    forall p n, 0 <= p < SUPPORTED_PERSONALITIES -> 0 <= n ->
      is_number_in_set_array n (Some set'') p = xorb (Nat.odd k) (sel p n)).
  { intros set' sel [W' A]. exists set'. split; [done|]. split; [done|]. intros p n Hp Hn.
    rewrite in_set_array_elems by done.
    destruct (A p Hp) as [-> E], (R0 p Hp) as [E0 ->]. rewrite xorb_comm. f_equal.
    apply eq_true_iff_eq. rewrite bool_decide_eq_true, E, E0, elem_of_empty. tauto. }
  destruct (String.eqb r "none").
  { apply Done. by apply adds_to_refl. }
  destruct (String.eqb r "all").
  { pose proof (invert_array_iter 1 set0 Wi) as [W1 R1].
    change (Nat.iter 1 _ set0) with (invert_number_set_array set0 SUPPORTED_PERSONALITIES) in W1, R1.
    exists (invert_number_set_array set0 SUPPORTED_PERSONALITIES). split; [done|]. split; [done|].
    intros p n Hp Hn. rewrite in_set_array_elems by done.
    destruct (R1 p Hp) as [-> ->], (R0 p Hp) as [-> ->]. rewrite bool_decide_false by set_solver.
    by destruct (Nat.odd k). }
  pose proof (syscall_tokens_loop_spec (strtok_all "," r) set0 false Wi) as H.
  destruct (bool_decide_reflect (strtok_all "," r = [])) as [E|E].
  { rewrite E in *. destruct H as (set' & -> & _). by eexists. }
  destruct (denote_tokens (strtok_all "," r)) as [sel|].
  - destruct H as (set' & -> & A). cbn [mbind outcome_bind orb negb]. by apply Done.
  - destruct H as [msg ->]. by eexists.
Qed.

(** C12: the meaning of a specification of syscalls (-e trace= and the like).
    [qualify_syscall_tokens] dies exactly when the text after the exclamation
    marks is neither "all" nor "none" and has no token, a token that no
    personality accepts, an unknown personality or a wrong regular expression.
    Otherwise, for every personality, a number is in its set exactly when some
    token selects it there by number, name, class or regular expression, or,
    with an odd number of exclamation marks, when none does. *)
Theorem qualify_syscall_tokens_correct (s : string) (set : list number_set) :
  sets_wf set ->
  match denote_spec (bangs s).2 with
  | None => exists msg, qualify_syscall_tokens s set = Die msg
  | Some sel => exists set', qualify_syscall_tokens s set = Ret set' /\ sets_wf set' /\
      forall p n, 0 <= p < SUPPORTED_PERSONALITIES -> 0 <= n ->
        is_number_in_set_array n (Some set') p = xorb (Nat.odd (bangs s).1) (sel p n)
  end.
Proof. apply qualify_syscall_tokens_spec. Qed.

End syscalls_correct.

(** ** Numbers *)

Lemma pretty_N_char_digit d :
  (d < 10)%N -> is_digit (pretty_N_char d) = true /\ code_of (pretty_N_char d) - 48 = Z.of_N d.
Proof.
  intros H. assert (Hd : In d (map N.of_nat (seq 0 10))).
  { rewrite <- (N2Nat.id d). apply in_map, in_seq. lia. }
  simpl in Hd. repeat (destruct Hd as [<-|Hd]; [done|]). done.
Qed.

Lemma take_digits_go x s : take_digits (pretty_N_go x s) 0 = take_digits s (Z.of_N x).
Proof.
  revert s. induction (N.lt_wf_0 x) as [x _ IH]; intros s.
  destruct (decide (x = 0)%N) as [->|Hx]; [done|].
  rewrite pretty_N_go_step, IH by (lia || apply N.div_lt; lia). cbn [take_digits].
  destruct (pretty_N_char_digit (x mod 10)) as [-> ->]; [apply N.mod_lt; lia|].
  f_equal. rewrite N2Z.inj_div, N2Z.inj_mod. pose proof (Z.div_mod (Z.of_N x) 10). lia.
Qed.

Lemma pretty_go_app x s r : pretty_N_go x (s +:+ r) = pretty_N_go x s +:+ r.
Proof.
  revert s. induction (N.lt_wf_0 x) as [x _ IH]; intros s.
  destruct (decide (x = 0)%N) as [->|Hx]; [done|].
  rewrite !(pretty_N_go_step x) by lia. rewrite <- IH by (apply N.div_lt; lia). done.
Qed.

(** A number prints as digits, the first of which is at the front. *)
Lemma pretty_first x s : (0 < x)%N -> exists c s', pretty_N_go x s = String c s' /\ is_digit c = true.
Proof.
  revert s. induction (N.lt_wf_0 x) as [x _ IH]; intros s Hx. rewrite pretty_N_go_step by lia.
  destruct (decide (x < 10)%N).
  - rewrite N.div_small by done. rewrite pretty_N_go_0. eexists _, _. split; [done|].
    apply pretty_N_char_digit. apply N.mod_lt. lia.
  - apply IH; [apply N.div_lt; lia|]. apply N.div_str_pos. lia.
Qed.

Lemma pretty_digits (n : Z) (r : string) :
  0 <= n -> take_digits (pretty n +:+ r) 0 = take_digits r n /\
  exists c s', pretty n +:+ r = String c s' /\ is_digit c = true.
Proof.
  intros Hn. destruct n as [|p|p]; [split; [done|]; by eexists _, _| |lia].
  change (pretty (Z.pos p)) with (pretty (N.pos p)). unfold pretty, pretty_N. rewrite decide_False by done.
  rewrite <- pretty_go_app. split; [apply take_digits_go|]. by apply pretty_first.
Qed.

(** What may follow a number. *)
Definition ends_number (r : string) : bool := match r with String c _ => negb (is_digit c) | EmptyString => true end.
Definition accepted (acc : option string) (r : string) : bool :=
  match r, acc with EmptyString, _ => true | String c _, Some a => strchr a c | _, None => false end.

Lemma is_digit_plain c : is_digit c = true -> is_space c = false /\ Ascii.eqb c "-" = false /\ Ascii.eqb c "+" = false.
Proof.
  unfold is_digit, is_space. intros H. split; [lia|].
  split; (destruct (Ascii.eqb_spec c "-"), (Ascii.eqb_spec c "+"); subst; done).
Qed.

Lemma strtoll_pretty n r : 0 <= n <= LLONG_MAX -> ends_number r = true -> strtoll (pretty n +:+ r) = Some (n, r, false).
Proof.
  intros Hn He. destruct (pretty_digits n r) as [Ht (c & s' & Es & Hc)]; [lia|]. unfold strtoll.
  destruct (is_digit_plain c Hc) as (H1 & H2 & H3).
  assert (Hs : skip_spaces (pretty n +:+ r) = String c s') by (rewrite Es; cbn; by rewrite H1).
  rewrite Hs, H2, H3, Hc, <- Es, Ht.
  assert (Htd : take_digits r n = (n, r)).
  { destruct r as [|c' r']; [done|]. cbn in He |- *. by destruct (is_digit c'). }
  rewrite Htd. cbn [mbind option_bind]. unfold LLONG_MAX in *.
  destruct (Z.ltb_spec (2 ^ 63 - 1) n); [lia|]. by destruct (Z.ltb_spec n (- 2 ^ 63)); [lia|].
Qed.

Lemma string_to_uint_pretty n r max_val acc :
  0 <= n <= max_val -> max_val <= LLONG_MAX -> ends_number r = true -> accepted acc r = true ->
  string_to_uint_ex (pretty n +:+ r) max_val acc = Some (n, r).
Proof.
  intros Hn Hm He Ha. destruct (pretty_digits n r) as [_ (c & s' & Es & _)]; [lia|].
  unfold string_to_uint_ex. rewrite Es, <- Es, strtoll_pretty by (done || lia). cbn [mbind option_bind].
  rewrite (proj2 (Z.ltb_ge n 0)), (proj2 (Z.ltb_ge max_val n)), andb_false_r by lia.
  cbn [orb]. destruct r as [|c' r']; [done|]. cbn in Ha. destruct acc; [by rewrite Ha|done].
Qed.

Lemma string_to_uint_range s max_val acc v e :
  string_to_uint_ex s max_val acc = Some (v, e) -> 0 <= v <= max_val /\ accepted acc e = true.
Proof.
  intros Hs. unfold string_to_uint_ex in Hs. destruct s as [|c s]; [done|].
  destruct (strtoll (String c s)) as [[[val e'] erange]|]; [|done]. cbn [mbind option_bind] in Hs.
  destruct ((val <? 0) || (max_val <? val) || ((val =? LLONG_MAX) && erange)) eqn:B; [done|].
  apply orb_false_iff in B as [B _]. apply orb_false_iff in B as [B1%Z.ltb_ge B2%Z.ltb_ge].
  destruct e' as [|c' e']; [|destruct acc as [a|]; [destruct (strchr a c') eqn:Ec|]]; simplify_eq; split; (lia || done).
Qed.

Lemma string_to_uint_upto_range s max_val : -1 <= max_val -> -1 <= string_to_uint_upto s max_val <= max_val.
Proof.
  intros. unfold string_to_uint_upto. destruct (string_to_uint_ex s max_val None) as [[v e]|] eqn:E; [|lia].
  apply string_to_uint_range in E. lia.
Qed.

(** [string_to_uint_ex] reads back every number that fits, printed in
    decimal and followed by nothing or by an accepted ending, and gives the rest;
    and whatever it reads, its result is within the bound and the rest is empty
    or starts with an accepted character. *)
Theorem string_to_uint_roundtrip (max_val : Z) (acc : option string) :
  max_val <= LLONG_MAX ->
  (forall n r, 0 <= n <= max_val -> ends_number r = true -> accepted acc r = true ->
     string_to_uint_ex (pretty n +:+ r) max_val acc = Some (n, r)) /\
  (forall s v e, string_to_uint_ex s max_val acc = Some (v, e) -> 0 <= v <= max_val /\ accepted acc e = true).
Proof.
  intros Hm. split; [intros; by apply string_to_uint_pretty|]. intros s v e. apply string_to_uint_range.
Qed.

(** ** A concrete build *)

Definition demo_table : list table_entry :=
  [mk_entry TRACE_DESC true (Some "read"); mk_entry TRACE_DESC true (Some "write");
   mk_entry (Z.lor TRACE_DESC TRACE_FILE) true (Some "open"); mk_entry 0 false None;
   mk_entry TRACE_PURE true (Some "getpid")].

Definition demo_tables : SyscallTables := {|
  tables := [demo_table; [mk_entry TRACE_PURE true (Some "getpid"); mk_entry TRACE_DESC true (Some "read")]];
  personality_designators := ["64"; "32"];
  shuffle_scno_pers := fun nr _ => nr;
  needs_non_shuffled_check := false;
  regcomp := fun s => if String.eqb s "^re" then inr (fun n => if String.prefix "re" n then REG_OK else REG_NOMATCH)
                      else inl "unsupported" |}.

Lemma qualify_tokens_correct_witness :
  exists set', qualify_tokens "!3,70" string_to_uint "descriptor" (mk_number_set [] 0 false) = Ret set' /\
    is_number_in_set 70 (Some set') = false /\ is_number_in_set 4 (Some set') = true.
Proof.
  pose proof (qualify_tokens_correct "!3,70" string_to_uint "descriptor" (mk_number_set [] 0 false)
                ltac:(split; [reflexivity|constructor])) as (set' & E & W & H).
  exists set'. split; [exact E|]. rewrite (H 70), (H 4) by lia. vm_compute. split; reflexivity.
Defined.

Definition two_sets : list number_set := [mk_number_set [] 0 false; mk_number_set [] 0 false].

Lemma qualify_syscall_tokens_correct_witness :
  exists set', @qualify_syscall_tokens demo_tables "%desc,getpid@32,?nosuch,/^re" two_sets = Ret set' /\
    is_number_in_set_array 2 (Some set') 0 = true /\ is_number_in_set_array 4 (Some set') 0 = false /\
    is_number_in_set_array 0 (Some set') 1 = true.
Proof.
  assert (W : @sets_wf demo_tables two_sets)
    by (split; [reflexivity|repeat constructor]).
  pose proof (@qualify_syscall_tokens_correct demo_tables ltac:(reflexivity)
                "%desc,getpid@32,?nosuch,/^re" two_sets W) as (set' & E & _ & H).
  exists set'. split; [exact E|]. assert (@SUPPORTED_PERSONALITIES demo_tables = 2) by reflexivity.
  rewrite (H 0 2), (H 0 4), (H 1 0) by lia. vm_compute. auto.
Defined.

Lemma string_to_uint_roundtrip_witness :
  string_to_uint_ex ("4096" +:+ "..7") 65535 (Some "+.") = Some (4096, "..7").
Proof.
  apply (proj1 (string_to_uint_roundtrip 65535 (Some "+.") ltac:(vm_compute; discriminate)) 4096 "..7");
    [lia|reflexivity|reflexivity].
Defined.
