(* ===== verification/Quote.v ===== *)
(** * Quoting strings (src/util.c, src/print_utils.h)

    [string_quote] writes the bytes of a string in C notation; the functions
    that print quoted strings choose the size of its buffer.  Characters are
    their codes, buffers are lists of codes without the final NUL. *)

From S2P Require Import Prelude.
Open Scope Z_scope.

Definition QUOTE_0_TERMINATED := 0x01.
Definition QUOTE_OMIT_LEADING_TRAILING_QUOTES := 0x02.
Definition QUOTE_OMIT_TRAILING_0 := 0x08.
Definition QUOTE_EXPECT_TRAILING_0 := 0x10.
Definition QUOTE_EMIT_COMMENT := 0x40.
Definition QUOTE_OVERWRITE_HEXSTR := 0x80.
Definition QUOTE_HEXSTR_SHIFT := 8.
Definition QUOTE_HEXSTR_MASK := Z.shiftl 3 QUOTE_HEXSTR_SHIFT.

Definition HEXSTR_NONE := 0.
Definition HEXSTR_NON_ASCII := 1.
Definition HEXSTR_ALL := 2.
Definition HEXSTR_NON_ASCII_CHARS := 3.

(** ** Characters *)

Definition hex_char (n : Z) : Z := if n <? 10 then 48 + n else 87 + n.

Definition is_print (c : Z) : bool := (32 <=? c) && (c <? 127).

Definition sprint_byte_oct (c : Z) (unabbrev : bool) : list Z :=
  (if unabbrev then [48 + Z.shiftr c 6; 48 + Z.land (Z.shiftr c 3) 7]
   else if negb (Z.shiftr c 3 =? 0) then
     (if negb (Z.shiftr c 6 =? 0) then [48 + Z.shiftr c 6] else [])
     ++ [48 + Z.land (Z.shiftr c 3) 7]
   else [])
  ++ [48 + Z.land c 7].

Definition sprint_byte_hex (c : Z) : list Z := [hex_char (Z.shiftr c 4); hex_char (Z.land c 15)].

(** ** string_quote *)

Section string_quote.
Variable xstyle : Z.
Variable style : Z.
Variable escape_chars : option (list Z).

(** The character that ends the string; 0x100 matches none. *)
Definition eol : Z := if has style QUOTE_0_TERMINATED then 0 else 0x100.

(** The loops run over [l], the bytes from position [i] to [size - 1]. *)
Fixpoint check_hex (l : list Z) : bool :=
  match l with
  | [] => false
  | c :: l' =>
      if c =? eol then false
      else if 0x7e <? c then true
      else if (c <? 32) && (5 <=? uint 32 (c - 9)) then true
      else check_hex l'
  end.

(** The second component: the loop was left for [asciz_ended]. *)
Fixpoint quote_hex (l : list Z) : list Z * bool :=
  match l with
  | [] => ([], false)
  | c :: l' =>
      if c =? eol then ([], true)
      else let '(out, ended) := quote_hex l' in ([92; 120] ++ sprint_byte_hex c ++ out, ended)
  end.

(** [next] is the byte after [c], if it is below [size]. *)
Definition quote_char (c : Z) (next : option Z) : list Z :=
  if (c =? 34) || (c =? 92) then [92; c]
  else if c =? 12 then [92; 102]
  else if c =? 10 then [92; 110]
  else if c =? 13 then [92; 114]
  else if c =? 9 then [92; 116]
  else if c =? 11 then [92; 118]
  else
    let printable := is_print c && match escape_chars with
                                   | Some e => negb (existsb (Z.eqb c) e)
                                   | None => true
                                   end in
    if printable then [c]
    else if xstyle =? HEXSTR_NON_ASCII_CHARS then [92; 120] ++ sprint_byte_hex c
    else [92] ++ sprint_byte_oct c (match next with
                                    | Some d => (48 <=? d) && (d <=? 55)
                                    | None => false
                                    end).

Fixpoint quote_plain (l : list Z) : list Z * bool :=
  match l with
  | [] => ([], false)
  | c :: l' =>
      if c =? eol then ([], true)
      else if match l' with [] => true | _ => false end
              && has style QUOTE_OMIT_TRAILING_0 && (c =? 0) then ([], true)
      else let '(out, ended) := quote_plain l' in (quote_char c (head l') ++ out, ended)
  end.

Definition usehex (l : list Z) : bool :=
  (xstyle =? HEXSTR_ALL) || ((xstyle =? HEXSTR_NON_ASCII) && check_hex l).

Definition string_quote (instr : list Z) (size : Z) : list Z * Z :=
  let l := firstn (Z.to_nat size) instr in
  let '(body, ended) := if usehex l then quote_hex l else quote_plain l in
  let quote := if has style QUOTE_OMIT_LEADING_TRAILING_QUOTES then [] else [34] in
  let out := (if has style QUOTE_EMIT_COMMENT then [32; 47; 42; 32] else [])
             ++ quote ++ body ++ quote
             ++ (if has style QUOTE_EMIT_COMMENT then [32; 42; 47] else []) in
  (out, if ended then 0
        else if has style QUOTE_0_TERMINATED && (nthZ instr size =? 0) then 0 else 1).

End string_quote.

(** The style in effect: [xflag] unless [style] overrides it. *)
Definition hexstr_style (xflag style : Z) : Z :=
  if has style QUOTE_OVERWRITE_HEXSTR
  then Z.shiftr (Z.land style QUOTE_HEXSTR_MASK) QUOTE_HEXSTR_SHIFT else xflag.

(** ** Printing *)

Definition unavailable : list Z := [63; 63; 63].
Definition more_data_follows : list Z := [46; 46; 46].

Section print.
Variable xflag : Z.
Variable malloc_ok : Z -> bool.

Definition quote_alloc_size (size style : Z) : Z :=
  uint 32 (4 * size) + 1 + (if has style QUOTE_OMIT_LEADING_TRAILING_QUOTES then 0 else 2)
  + (if has style QUOTE_EMIT_COMMENT then 7 else 0).

Definition ALLOCA_CUTOFF := 4032.

(** The text printed and the result. *)
Definition print_quoted_string_ex (str : list Z) (size style : Z) (escape_chars : option (list Z))
  : list Z * Z :=
  let size := if negb (size =? 0) && has style QUOTE_0_TERMINATED then size - 1 else size in
  if negb (uint 32 (4 * size) / 4 =? size) then (unavailable, -1)
  else if negb (quote_alloc_size size style <=? ALLOCA_CUTOFF)
          && negb (malloc_ok (quote_alloc_size size style)) then (unavailable, -1)
  else
    let '(out, rc) := string_quote (hexstr_style xflag style) style escape_chars str size in
    (out ++ (if has style QUOTE_0_TERMINATED && has style QUOTE_EXPECT_TRAILING_0 && negb (rc =? 0)
             then more_data_follows else []), rc).

Definition print_quoted_cstring (str : list Z) (size : Z) : list Z * Z :=
  let '(out, unterminated) := print_quoted_string_ex str size QUOTE_0_TERMINATED None in
  (out ++ (if negb (unterminated =? 0) then more_data_follows else []), unterminated).

End print.

(** ** Reading a quoted string back

    The inverse notation: C escapes, of one to three octal or exactly two
    hexadecimal digits; a plain double quote ends the string. *)

Definition is_oct (d : Z) : bool := (48 <=? d) && (d <=? 55).
Definition hex_val (d : Z) : Z := if d <? 58 then d - 48 else d - 87.
Definition simple_escape (d : Z) : Z :=
  if d =? 102 then 12 else if d =? 110 then 10 else if d =? 114 then 13
  else if d =? 116 then 9 else if d =? 118 then 11 else d.

Definition push (c : Z) (r : option (list Z * list Z)) : option (list Z * list Z) :=
  '(s, rest) ← r; Some (c :: s, rest).

(** The bytes up to the closing quote and the text after it. *)
Fixpoint unescape (l : list Z) : option (list Z * list Z) :=
  match l with
  | [] => None
  | c :: l1 =>
      if c =? 34 then Some ([], l1)
      else if negb (c =? 92) then push c (unescape l1)
      else match l1 with
      | [] => None
      | d :: l2 =>
          if d =? 120 then
            match l2 with
            | a :: b :: l4 => push (16 * hex_val a + hex_val b) (unescape l4)
            | _ => None
            end
          else if is_oct d then
            match l2 with
            | e :: l3 =>
                if is_oct e then
                  match l3 with
                  | f :: l4 =>
                      if is_oct f then push (64 * (d - 48) + 8 * (e - 48) + (f - 48)) (unescape l4)
                      else push (8 * (d - 48) + (e - 48)) (unescape l3)
                  | [] => None
                  end
                else push (d - 48) (unescape l2)
            | [] => None
            end
          else push (simple_escape d) (unescape l2)
      end
  end.

Definition unquote (l : list Z) : option (list Z * list Z) :=
  match l with
  | c :: l' => if c =? 34 then unescape l' else None
  | [] => None
  end.

Definition byte (c : Z) : Prop := 0 <= c < 256.

(** A boolean property of all bytes, by evaluation. *)
Definition all_bytes : list Z := map Z.of_nat (seq 0 256).
Lemma byte_check (f : Z -> bool) c : forallb f all_bytes = true -> byte c -> f c = true.
Proof.
  intros H Hc. rewrite forallb_forall in H. apply H. unfold all_bytes. apply in_map_iff.
  exists (Z.to_nat c). unfold byte in Hc. split; [lia|]. apply in_seq. lia.
Qed.

Definition octal_digits_ok (c : Z) : bool :=
  let o1 := Z.shiftr c 6 in let o2 := Z.land (Z.shiftr c 3) 7 in let o3 := Z.land c 7 in
  (c =? 64 * o1 + 8 * o2 + o3) && is_oct (48 + o1) && is_oct (48 + o2) && is_oct (48 + o3)
  && implb (Z.shiftr c 3 =? 0) (c =? o3) && implb (o1 =? 0) (c =? 8 * o2 + o3).
Definition hex_digits_ok (c : Z) : bool :=
  c =? 16 * hex_val (hex_char (Z.shiftr c 4)) + hex_val (hex_char (Z.land c 15)).

Lemma unescape_hex c out : byte c ->
  unescape ([92; 120] ++ sprint_byte_hex c ++ out) = push c (unescape out).
Proof.
  intros Hc. pose proof (byte_check hex_digits_ok c eq_refl Hc) as E. unfold hex_digits_ok in E.
  apply Z.eqb_eq in E. unfold sprint_byte_hex. cbn [app]. cbn -[unescape hex_val hex_char Z.shiftr Z.land].
  cbn [unescape Z.eqb Pos.eqb negb]. by rewrite <- E.
Qed.

Lemma is_oct_other d : is_oct d = true -> (d =? 34) = false /\ (d =? 92) = false /\ (d =? 120) = false.
Proof. unfold is_oct. intros [? ?]%andb_true_iff. lia. Qed.

Lemma unescape_oct1 d out x : is_oct d = true -> head out = Some x -> is_oct x = false ->
  unescape (92 :: d :: out) = push (d - 48) (unescape out).
Proof.
  intros Hd Hx Hnx. destruct out as [|y out]; [done|]. injection Hx as ->.
  destruct (is_oct_other d Hd) as (_ & _ & E). cbn [unescape]. cbn [Z.eqb Pos.eqb negb].
  by rewrite E, Hd, Hnx.
Qed.
Lemma unescape_oct2 d e out x : is_oct d = true -> is_oct e = true -> head out = Some x -> is_oct x = false ->
  unescape (92 :: d :: e :: out) = push (8 * (d - 48) + (e - 48)) (unescape out).
Proof.
  intros Hd He Hx Hnx. destruct out as [|y out]; [done|]. injection Hx as ->.
  destruct (is_oct_other d Hd) as (_ & _ & E). cbn [unescape]. cbn [Z.eqb Pos.eqb negb].
  by rewrite E, Hd, He, Hnx.
Qed.
Lemma unescape_oct3 d e f out : is_oct d = true -> is_oct e = true -> is_oct f = true ->
  unescape (92 :: d :: e :: f :: out) = push (64 * (d - 48) + 8 * (e - 48) + (f - 48)) (unescape out).
Proof.
  intros Hd He Hf. destruct (is_oct_other d Hd) as (_ & _ & E). cbn [unescape]. cbn [Z.eqb Pos.eqb negb].
  by rewrite E, Hd, He, Hf.
Qed.

(** An octal escape is read back when a digit after it forces three digits. *)
Lemma unescape_oct c unabbrev out : byte c ->
  (unabbrev = false -> exists x, head out = Some x /\ is_oct x = false) ->
  unescape ([92] ++ sprint_byte_oct c unabbrev ++ out) = push c (unescape out).
Proof.
  intros Hc Hun. pose proof (byte_check octal_digits_ok c eq_refl Hc) as E. unfold octal_digits_ok in E.
  apply andb_true_iff in E as [E E1]. apply andb_true_iff in E as [E E2].
  repeat (apply andb_true_iff in E as [E ?]). apply Z.eqb_eq in E.
  unfold sprint_byte_oct. destruct unabbrev.
  - cbn [app]. rewrite unescape_oct3 by done. f_equal. lia.
  - destruct (Hun eq_refl) as (x & Hx & Hnx).
    destruct (Z.shiftr c 3 =? 0); cbn [negb app].
    + rewrite (unescape_oct1 _ _ x) by done. f_equal. cbn [implb] in E2. lia.
    + destruct (Z.shiftr c 6 =? 0); cbn [negb app].
      * rewrite (unescape_oct2 _ _ _ x) by done. f_equal. cbn [implb] in E1. lia.
      * rewrite unescape_oct3 by done. f_equal. lia.
Qed.

Section quote_proofs.
Variable xstyle : Z.
Variable style : Z.
Variable escape_chars : option (list Z).

Lemma unescape_plain c out : (c =? 34) = false -> (c =? 92) = false ->
  unescape (c :: out) = push c (unescape out).
Proof. intros E1 E2. cbn [unescape]. by rewrite E1, E2. Qed.

Lemma unescape_quote_char c next out : byte c ->
  (forall x, head out = Some x -> is_oct x = true -> next = Some x) -> (exists x, head out = Some x) ->
  unescape (quote_char xstyle escape_chars c next ++ out) = push c (unescape out).
Proof.
  intros Hc Hnext [y Hy]. unfold quote_char.
  destruct (Z.eqb_spec c 34) as [->|H34]; [done|]. destruct (Z.eqb_spec c 92) as [->|H92]; [done|].
  cbn [orb].
  destruct (Z.eqb_spec c 12) as [->|]; [done|]. destruct (Z.eqb_spec c 10) as [->|]; [done|].
  destruct (Z.eqb_spec c 13) as [->|]; [done|]. destruct (Z.eqb_spec c 9) as [->|]; [done|].
  destruct (Z.eqb_spec c 11) as [->|]; [done|].
  destruct (_ && _); [apply unescape_plain; lia|].
  destruct (xstyle =? HEXSTR_NON_ASCII_CHARS).
  - rewrite <- app_assoc. by apply unescape_hex.
  - rewrite <- app_assoc. apply unescape_oct; [done|]. intros Hun. exists y. split; [done|].
    destruct (is_oct y) eqn:Ey; [|done]. rewrite (Hnext y Hy Ey) in Hun. unfold is_oct in Ey. congruence.
Qed.

(** A digit at the start of a quoted character is the character itself. *)
Lemma quote_char_head c next out x : byte c ->
  head (quote_char xstyle escape_chars c next ++ out) = Some x -> is_oct x = true -> c = x.
Proof.
  intros Hc. unfold quote_char.
  repeat match goal with
  | |- context [if ?b then _ else _] => destruct b; cbn [app head]; try (intros [= <-]; done)
  end.
Qed.

Fixpoint until_eol (l : list Z) : list Z :=
  match l with
  | [] => []
  | c :: l' => if c =? eol style then [] else c :: until_eol l'
  end.

Definition drop_trailing_0 (l : list Z) : list Z :=
  match list.last l with
  | Some c => if c =? 0 then removelast l else l
  | None => l
  end.

(** What is shown of the bytes [l]: those before the end-of-string character,
    and not a trailing zero that is to be omitted. *)
Definition shown (l : list Z) : list Z :=
  if has style QUOTE_OMIT_TRAILING_0 && negb (usehex xstyle style l)
     && negb (existsb (Z.eqb (eol style)) l)
  then drop_trailing_0 l else until_eol l.

Lemma quote_hex_unescape l rest : Forall byte l ->
  unescape (fst (quote_hex style l) ++ 34 :: rest) = Some (until_eol l, rest).
Proof.
  induction 1 as [|c l Hc Hl IH]; [done|]. cbn [quote_hex until_eol].
  destruct (c =? eol style); [done|]. destruct (quote_hex style l) as [out ended]. cbn [fst] in *.
  rewrite <- !app_assoc. cbn [app]. change (92 :: 120 :: ?x) with ([92; 120] ++ x).
  rewrite unescape_hex by done. by rewrite IH.
Qed.

(** What the plain loop shows. *)
Fixpoint plain_shown (l : list Z) : list Z :=
  match l with
  | [] => []
  | c :: l' =>
      if c =? eol style then []
      else if match l' with [] => true | _ => false end
              && has style QUOTE_OMIT_TRAILING_0 && (c =? 0) then []
      else c :: plain_shown l'
  end.

Lemma quote_plain_unescape l rest : Forall byte l ->
  let body := fst (quote_plain xstyle style escape_chars l) ++ 34 :: rest in
  unescape body = Some (plain_shown l, rest)
  /\ (exists x, head body = Some x)
  /\ forall x, head body = Some x -> is_oct x = true -> head l = Some x.
Proof.
  cbv zeta. induction 1 as [|c l Hc Hl IH].
  { cbn. split; [done|]. split; [by eexists|]. by intros x [= <-]. }
  cbn [quote_plain plain_shown].
  destruct (c =? eol style).
  { cbn. split; [done|]. split; [by eexists|]. by intros x [= <-]. }
  destruct (_ && _ && _).
  { cbn. split; [done|]. split; [by eexists|]. by intros x [= <-]. }
  destruct (quote_plain xstyle style escape_chars l) as [out ended]. cbn [fst] in *.
  destruct IH as (IH & Hex & Hd). rewrite <- app_assoc. split; [|split].
  - rewrite unescape_quote_char by done. by rewrite IH.
  - destruct (quote_char _ _ _ _); [done|by eexists].
  - intros x Hx Ho. cbn [head]. f_equal. by eapply quote_char_head.
Qed.

Lemma plain_shown_omit l : has style QUOTE_OMIT_TRAILING_0 = true ->
  existsb (Z.eqb (eol style)) l = false -> plain_shown l = drop_trailing_0 l.
Proof.
  intros Hs. induction l as [|c l IH]; [done|]. intros He. cbn [existsb] in He.
  apply orb_false_iff in He as [Hc He]. specialize (IH He). rewrite Z.eqb_sym in Hc.
  cbn [plain_shown]. rewrite Hc, Hs, IH. unfold drop_trailing_0. destruct l as [|d l].
  - cbn. by destruct (c =? 0).
  - cbn [andb]. cbn [list.last]. destruct (list.last (d :: l)); [|done]. by destruct (z =? 0).
Qed.

Lemma plain_shown_until l :
  has style QUOTE_OMIT_TRAILING_0 = false \/ existsb (Z.eqb (eol style)) l = true ->
  plain_shown l = until_eol l.
Proof.
  induction l as [|c l IH]; [done|]. intros H. cbn [plain_shown until_eol].
  destruct (Z.eqb_spec c (eol style)) as [|Hne]; [done|].
  destruct H as [Hs|He].
  - rewrite Hs, andb_false_r. cbn [andb]. f_equal. apply IH. by left.
  - cbn [existsb] in He. replace (eol style =? c) with false in He by lia. cbn [orb] in He.
    destruct l as [|d l]; [done|]. cbn [andb]. f_equal. apply IH. by right.
Qed.

Lemma unquote_string_quote instr size rest :
  Forall byte instr ->
  has style QUOTE_OMIT_LEADING_TRAILING_QUOTES = false -> has style QUOTE_EMIT_COMMENT = false ->
  unquote (fst (string_quote xstyle style escape_chars instr size) ++ rest)
  = Some (shown (firstn (Z.to_nat size) instr), rest).
Proof.
  intros Hb Hq Hcm. unfold string_quote. set (l := firstn (Z.to_nat size) instr).
  assert (Hl : Forall byte l) by by apply list.Forall_take. rewrite Hq, Hcm.
  destruct (if usehex xstyle style l then _ else _) as [body ended] eqn:E. cbn [fst app unquote].
  cbn [Z.eqb Pos.eqb]. rewrite <- !app_assoc. cbn [app]. unfold shown.
  destruct (usehex xstyle style l).
  - rewrite andb_false_r. cbn [andb].
    replace body with (fst (quote_hex style l)) by by rewrite E. by apply quote_hex_unescape.
  - replace body with (fst (quote_plain xstyle style escape_chars l)) by by rewrite E.
    destruct (quote_plain_unescape l rest Hl) as [-> _]. f_equal. f_equal.
    destruct (has style QUOTE_OMIT_TRAILING_0) eqn:Eo; cbn [andb negb].
    + destruct (existsb _ l) eqn:Ee; cbn [negb]; [apply plain_shown_until; auto|by apply plain_shown_omit].
    + apply plain_shown_until. by left.
Qed.


(** *** The size of the output *)

Lemma sprint_byte_oct_length c unabbrev : (length (sprint_byte_oct c unabbrev) <= 3)%nat.
Proof.
  unfold sprint_byte_oct. destruct unabbrev; [done|]. destruct (Z.shiftr c 3 =? 0); cbn; [lia|].
  destruct (Z.shiftr c 6 =? 0); cbn; lia.
Qed.

Lemma quote_char_length c next : (length (quote_char xstyle escape_chars c next) <= 4)%nat.
Proof.
  unfold quote_char. repeat match goal with |- context [if ?b then [_; _] else _] => destruct b; [cbn; lia|] end.
  destruct (_ && _); [cbn; lia|]. destruct (_ =? _); [cbn; lia|].
  rewrite length_app. pose proof (sprint_byte_oct_length c
    (match next with Some d => (48 <=? d) && (d <=? 55) | None => false end)). cbn [length]. lia.
Qed.

Lemma body_length l :
  (length (fst (quote_hex style l)) <= 4 * length l)%nat
  /\ (length (fst (quote_plain xstyle style escape_chars l)) <= 4 * length l)%nat.
Proof.
  induction l as [|c l [IH1 IH2]]; [cbn; lia|]. cbn [quote_hex quote_plain]. split.
  - destruct (c =? _); [cbn; lia|]. destruct (quote_hex style l) as [out e]. cbn [fst] in *.
    rewrite !length_app. cbn [length sprint_byte_hex]. lia.
  - destruct (c =? _); [cbn; lia|]. destruct (_ && _ && _); [cbn; lia|].
    destruct (quote_plain _ _ _ l) as [out e]. cbn [fst] in *. rewrite length_app. cbn [length].
    pose proof (quote_char_length c (head l)). lia.
Qed.

Lemma string_quote_length instr size :
  0 <= size -> 4 * size < 2 ^ 32 ->
  lenZ (fst (string_quote xstyle style escape_chars instr size)) + 1 <= quote_alloc_size size style.
Proof.
  intros Hs Hmax. unfold string_quote, quote_alloc_size. rewrite uint_small by (unfold in_uint; lia).
  set (l := firstn (Z.to_nat size) instr).
  assert (Hl : (length l <= Z.to_nat size)%nat) by (unfold l; rewrite length_take; lia).
  destruct (body_length l) as [H1 H2].
  destruct (if usehex xstyle style l then _ else _) as [body ended] eqn:E.
  assert (Hb : (length body <= 4 * length l)%nat).
  { destruct (usehex xstyle style l); rewrite E in *; done. }
  cbn [fst]. unfold lenZ. rewrite !length_app.
  destruct (has style QUOTE_OMIT_LEADING_TRAILING_QUOTES), (has style QUOTE_EMIT_COMMENT);
    cbn [length]; lia.
Qed.

(** The buffer [print_quoted_string_ex] allocates is large enough for the
    quoted string and its terminating NUL, for every style. *)
Theorem quote_buffer_fits instr size :
  0 <= size -> 4 * size < 2 ^ 32 ->
  lenZ (fst (string_quote xstyle style escape_chars instr size)) + 1 <= quote_alloc_size size style.
Proof. apply string_quote_length. Qed.

(** *** The result *)

Lemma quote_hex_ended l : snd (quote_hex style l) = existsb (Z.eqb (eol style)) l.
Proof.
  induction l as [|c l IH]; [done|]. cbn [quote_hex existsb]. rewrite (Z.eqb_sym (eol style)).
  destruct (c =? eol style); [done|]. destruct (quote_hex style l). exact IH.
Qed.

Definition last_is_0 (l : list Z) : bool :=
  match list.last l with Some c => c =? 0 | None => false end.

Lemma quote_plain_ended l :
  snd (quote_plain xstyle style escape_chars l)
  = existsb (Z.eqb (eol style)) l || (has style QUOTE_OMIT_TRAILING_0 && last_is_0 l).
Proof.
  induction l as [|c l IH]; [by rewrite andb_false_r|]. cbn [quote_plain existsb].
  rewrite (Z.eqb_sym (eol style)). destruct (c =? eol style); [done|]. cbn [orb].
  destruct l as [|d l].
  - cbn. destruct (has style QUOTE_OMIT_TRAILING_0); cbn; [|done]. unfold last_is_0. cbn. by destruct (c =? 0).
  - cbn [andb]. destruct (quote_plain xstyle style escape_chars (d :: l)). exact IH.
Qed.

Lemma last_is_0_In l : last_is_0 l = true -> existsb (Z.eqb 0) l = true.
Proof.
  unfold last_is_0. intros H. destruct (list.last l) as [c|] eqn:E; [|done].
  apply Z.eqb_eq in H as ->. apply last_Some_elem_of in E. apply existsb_exists. exists 0.
  split; [by apply list_elem_of_In|done].
Qed.

Lemma take_one_more (l : list Z) n : (n < length l)%nat -> firstn (n + 1) l = firstn n l ++ [nth n l 0].
Proof.
  intros Hn. rewrite Nat.add_1_r. destruct (lookup_lt_is_Some_2 l n Hn) as [x Hx].
  by rewrite (take_S_r _ _ x Hx), nth_lookup, Hx.
Qed.

Lemma string_quote_rc instr size :
  Forall byte instr -> 0 <= size < lenZ instr ->
  snd (string_quote xstyle style escape_chars instr size) = 0
  <-> if has style QUOTE_0_TERMINATED then In 0 (firstn (Z.to_nat size + 1) instr)
      else has style QUOTE_OMIT_TRAILING_0 = true
           /\ usehex xstyle style (firstn (Z.to_nat size) instr) = false
           /\ last_is_0 (firstn (Z.to_nat size) instr) = true.
Proof.
  intros Hb Hs. unfold string_quote. set (l := firstn (Z.to_nat size) instr).
  destruct (if usehex xstyle style l then _ else _) as [body ended] eqn:E. cbn [snd].
  assert (Hend : ended = existsb (Z.eqb (eol style)) l
    || (has style QUOTE_OMIT_TRAILING_0 && last_is_0 l && negb (usehex xstyle style l))).
  { destruct (usehex xstyle style l).
    - rewrite andb_false_r, orb_false_r, <- quote_hex_ended. by rewrite E.
    - rewrite andb_true_r, <- quote_plain_ended. by rewrite E. }
  unfold eol in Hend. destruct (has style QUOTE_0_TERMINATED); cbn [andb].
  - assert (Hen : ended = existsb (Z.eqb 0) l).
    { rewrite Hend. destruct (last_is_0 l) eqn:El; [by rewrite last_is_0_In|].
      by rewrite andb_false_r, orb_false_r. }
    unfold lenZ in Hs. rewrite take_one_more, in_app_iff by lia. fold l. unfold nthZ. cbn [In].
    assert (Hin : existsb (Z.eqb 0) l = true <-> In 0 l).
    { rewrite existsb_exists. split; [intros (x & Hx & ->%Z.eqb_eq); done|eauto using Z.eqb_refl]. }
    rewrite <- Hin, <- Hen. destruct ended; [tauto|].
    destruct (Z.eqb_spec (nth (Z.to_nat size) instr 0) 0); intuition congruence.
  - assert (Hno : existsb (Z.eqb 256) l = false).
    { apply not_true_iff_false. rewrite existsb_exists. intros (x & Hx & <-%Z.eqb_eq).
      assert (Hl : Forall byte l) by by apply list.Forall_take.
      rewrite list.Forall_forall in Hl. apply list_elem_of_In in Hx. apply Hl in Hx. unfold byte in Hx. lia. }
    rewrite Hno in Hend. cbn [orb] in Hend. rewrite Hend.
    destruct (has style QUOTE_OMIT_TRAILING_0), (last_is_0 l), (usehex xstyle style l); cbn; intuition congruence.
Qed.

(** The result of [string_quote] tells whether the whole string was shown:
    with QUOTE_0_TERMINATED it is 0 exactly when a NUL is among the first
    [size + 1] bytes; without it, it is 0 (and not always 1) when a trailing
    NUL was omitted. *)
Theorem string_quote_result instr size :
  Forall byte instr -> 0 <= size < lenZ instr ->
  snd (string_quote xstyle style escape_chars instr size) = 0
  <-> if has style QUOTE_0_TERMINATED then In 0 (firstn (Z.to_nat size + 1) instr)
      else has style QUOTE_OMIT_TRAILING_0 = true
           /\ usehex xstyle style (firstn (Z.to_nat size) instr) = false
           /\ last_is_0 (firstn (Z.to_nat size) instr) = true.
Proof. apply string_quote_rc. Qed.

(** *** Escaped characters *)

(** The characters of the notation itself. *)
Definition alphabet (x : Z) : bool :=
  existsb (Z.eqb x) [34; 92; 102; 110; 114; 116; 118; 120]
  || ((48 <=? x) && (x <=? 57)) || ((97 <=? x) && (x <=? 102)).

Definition escaped (c : Z) : Prop := exists e, escape_chars = Some e /\ In c e.

Lemma sprint_byte_hex_alphabet c x : byte c -> In x (sprint_byte_hex c) -> alphabet x = true.
Proof.
  intros Hc Hx. pose proof (byte_check (fun c => forallb alphabet (sprint_byte_hex c)) c eq_refl Hc) as H.
  rewrite forallb_forall in H. by apply H.
Qed.
Lemma sprint_byte_oct_alphabet c b x : byte c -> In x (sprint_byte_oct c b) -> alphabet x = true.
Proof.
  intros Hc Hx. pose proof (byte_check (fun c => forallb alphabet (sprint_byte_oct c true)
    && forallb alphabet (sprint_byte_oct c false)) c eq_refl Hc) as H.
  apply andb_true_iff in H as [H1 H2]. rewrite forallb_forall in H1, H2. destruct b; auto.
Qed.

Lemma quote_char_alphabet c next x : byte c ->
  In x (quote_char xstyle escape_chars c next) -> alphabet x = true \/ ~ escaped x.
Proof.
  intros Hc. unfold quote_char.
  destruct ((c =? 34) || (c =? 92)) eqn:E0.
  { apply orb_true_iff in E0 as [->%Z.eqb_eq| ->%Z.eqb_eq]; cbn; intros H; left;
      repeat destruct H as [<-|H]; done. }
  do 5 (match goal with |- context [if ?b then [_; _] else _] => destruct b end;
    [cbn; intros H; left; repeat destruct H as [<-|H]; done|]).
  destruct (is_print c && _) eqn:Ep.
  { cbn. intros [<-|[]]. right. intros (e & He & Hin). rewrite He in Ep.
    apply andb_true_iff in Ep as [_ Ep%negb_true_iff]. apply not_true_iff_false in Ep. apply Ep.
    apply existsb_exists. exists c. split; [done|apply Z.eqb_refl]. }
  intros H. left. destruct (xstyle =? HEXSTR_NON_ASCII_CHARS).
  - apply in_app_iff in H as [H|H]; [by repeat destruct H as [<-|H]|by eapply sprint_byte_hex_alphabet].
  - destruct H as [<-|H]; [done|]. by eapply sprint_byte_oct_alphabet.
Qed.

Lemma body_alphabet l x : Forall byte l ->
  In x (fst (quote_hex style l)) \/ In x (fst (quote_plain xstyle style escape_chars l)) ->
  alphabet x = true \/ ~ escaped x.
Proof.
  induction 1 as [|c l Hc Hl IH]; [by intros [[]|[]]|]. cbn [quote_hex quote_plain]. intros [H|H].
  - destruct (c =? _); [done|]. destruct (quote_hex style l) as [out e]. cbn [fst app] in *.
    destruct H as [<-|[<-|H]]; [by left..|]. apply in_app_iff in H as [H|H]; [|auto].
    left. by eapply sprint_byte_hex_alphabet.
  - destruct (c =? _); [done|]. destruct (_ && _ && _); [done|].
    destruct (quote_plain _ _ _ l) as [out e]. cbn [fst] in *.
    apply in_app_iff in H as [H|H]; [by eapply quote_char_alphabet|auto].
Qed.

(** The characters to be escaped (such as the angle brackets around a
    path, which end it) never appear in the quoted text, unless they belong to
    the notation of escapes itself. *)
Theorem string_quote_escapes instr size c :
  Forall byte instr -> escaped c -> alphabet c = false ->
  has style QUOTE_OMIT_LEADING_TRAILING_QUOTES = true -> has style QUOTE_EMIT_COMMENT = false ->
  ~ In c (fst (string_quote xstyle style escape_chars instr size)).
Proof.
  intros Hb He Ha Hq Hcm. unfold string_quote. set (l := firstn (Z.to_nat size) instr).
  assert (Hl : Forall byte l) by by apply list.Forall_take. rewrite Hq, Hcm.
  destruct (if usehex xstyle style l then _ else _) as [body ended] eqn:E. cbn [fst app].
  rewrite !app_nil_r. intros Hin.
  destruct (body_alphabet l c Hl) as [H|H]; [|congruence|done].
  destruct (usehex xstyle style l); rewrite E; auto.
Qed.

End quote_proofs.

(** ** Examples *)

(** A double quote, a newline, the byte 1 before a digit, a byte above ASCII. *)
Definition demo_bytes : list Z := [97; 34; 98; 10; 1; 50; 126; 200; 0; 0].

Example demo_quoted :
  fst (string_quote HEXSTR_NONE 0 None demo_bytes 9)
  = [34; 97; 92; 34; 98; 92; 110; 92; 48; 48; 49; 50; 126; 92; 51; 49; 48; 92; 48; 34].
Proof. vm_compute. reflexivity. Qed.

Lemma demo_bytes_ok : Forall byte demo_bytes.
Proof. repeat constructor; vm_compute; congruence. Qed.


Lemma quote_buffer_fits_witness :
  lenZ (fst (string_quote HEXSTR_ALL QUOTE_EMIT_COMMENT None demo_bytes 9)) + 1
  <= quote_alloc_size 9 QUOTE_EMIT_COMMENT.
Proof. apply (quote_buffer_fits HEXSTR_ALL QUOTE_EMIT_COMMENT None demo_bytes 9); vm_compute; congruence. Defined.

(** Without QUOTE_0_TERMINATED the result can be 0. *)
Lemma string_quote_result_witness :
  snd (string_quote HEXSTR_NONE QUOTE_OMIT_TRAILING_0 None demo_bytes 9) = 0.
Proof.
  apply (string_quote_result HEXSTR_NONE QUOTE_OMIT_TRAILING_0 None demo_bytes 9).
  - apply demo_bytes_ok.
  - vm_compute. split; congruence.
  - vm_compute. repeat split.
Defined.

(** The path [a>b] with the angle brackets escaped. *)
Lemma string_quote_escapes_witness :
  ~ In 62 (fst (string_quote HEXSTR_NONE QUOTE_OMIT_LEADING_TRAILING_QUOTES (Some [60; 62]) [97; 62; 98] 3)).
Proof.
  apply (string_quote_escapes HEXSTR_NONE QUOTE_OMIT_LEADING_TRAILING_QUOTES (Some [60; 62]) [97; 62; 98] 3).
  - repeat constructor; vm_compute; congruence.
  - exists [60; 62]. split; [reflexivity|]. right. left. reflexivity.
  - reflexivity.
  - reflexivity.
  - reflexivity.
Defined.
