(* ===== verification/UCopy.v ===== *)
(** * Copying from and to the memory of a tracee (src/ucopy.c)

    Reads go through a cache of four pages that is valid until the next event
    is waited for; where process_vm_readv is not available they are made word
    by word.  The kernel's accesses to the tracee are the interface
    [TraceeMemory], what they do is stated by [MemoryLaws]. *)

From S2P Require Import Prelude Wait.
Open Scope Z_scope.

(** ** The tracee's memory *)

(** The result of a request: return value, errno, and the bytes read (those of
    the word, for PTRACE_PEEKDATA). *)
Record io := mk_io { io_rc : Z; io_errno : Z; io_bytes : list Z }.

Class TraceeMemory := {
  mstate : Type;
  vm_readv : mstate -> Z -> Z -> io;
  vm_writev : mstate -> Z -> list Z -> mstate * io;
  peekdata : mstate -> Z -> io;
  pokedata : mstate -> Z -> list Z -> mstate * io;
}.

(** sizeof(long), and ARRAY_SIZE(cached_raddr). *)
Definition WORD := 8.
Definition CACHED_PAGES := 4.

(** The static variables. *)
Record ucopy := mk_ucopy {
  process_vm_readv_not_supported : bool;
  process_vm_writev_not_supported : bool;
  cached_idx : Z;
  cached_raddr : list Z;
  buf : list (list Z);
}.

Definition invalidate_umove_cache (c : ucopy) : ucopy :=
  mk_ucopy (process_vm_readv_not_supported c) (process_vm_writev_not_supported c) (-1)
    (cached_raddr c) (buf c).

Section ucopy.
Context {TM : TraceeMemory}.
Variable page_size : Z.
(** [current_wordsize < sizeof(addr)]. *)
Variable narrow : bool.

Definition page_mask : Z := page_size - 1.

(** ** Reading through the cache *)

Definition process_read_mem (m : mstate) (c : ucopy) (raddr len : Z) : io * ucopy :=
  let r := vm_readv m raddr len in
  (r, if (io_rc r <? 0) && (io_errno r =? ENOSYS)
      then mk_ucopy true (process_vm_writev_not_supported c) (cached_idx c) (cached_raddr c) (buf c)
      else c).

Definition get_next_unused_idx (c : ucopy) : Z := Z.rem (cached_idx c + 1) CACHED_PAGES.

(** The two loops, from [i] down to [last + 1], [n] steps at most. *)
Fixpoint lookup_down (n : nat) (raddr i last : Z) (l : list Z) : Z :=
  match n with
  | O => -1
  | S n' => if last <? i then if raddr =? nthZ l i then i else lookup_down n' raddr (i - 1) last l
            else -1
  end.

Definition lookup_cached_raddr_idx (raddr : Z) (c : ucopy) : Z :=
  if 0 <=? cached_idx c then
    let i := lookup_down 4 raddr (cached_idx c) (-1) (cached_raddr c) in
    if 0 <=? i then i
    else lookup_down 4 raddr (CACHED_PAGES - 1) (cached_idx c) (cached_raddr c)
  else -1.

Definition set_cached_raddr_idx (raddr idx : Z) (c : ucopy) : ucopy :=
  let l := if cached_idx c <? 0 then [0; 0; 0; 0] else cached_raddr c in
  mk_ucopy (process_vm_readv_not_supported c) (process_vm_writev_not_supported c) idx
    (updZ l idx raddr) (buf c).

Definition set_buf (idx : Z) (bytes : list Z) (c : ucopy) : ucopy :=
  mk_ucopy (process_vm_readv_not_supported c) (process_vm_writev_not_supported c) (cached_idx c)
    (cached_raddr c) (<[Z.to_nat idx := bytes]> (buf c)).

(** The entry that holds the page at [page_start], filled if need be, or the
    failed read. *)
Definition cached_page (m : mstate) (c : ucopy) (page_start : Z) : (Z * ucopy) + (io * ucopy) :=
  let idx := lookup_cached_raddr_idx page_start c in
  if idx =? -1 then
    let idx := get_next_unused_idx c in
    let '(r, c) := process_read_mem m c page_start page_size in
    if io_rc r <? 0 then inr (r, c)
    else inl (idx, set_cached_raddr_idx page_start idx (set_buf idx (io_bytes r) c))
  else inl (idx, c).

(** The loop over the pages: [done] is what was copied, [total_read] bytes. *)
Fixpoint vm_read_loop (fuel : nat) (m : mstate) (c : ucopy) (page_start taddr len : Z) (done : list Z)
  : option (io * ucopy) :=
  match fuel with
  | O => None
  | S fuel' =>
      match cached_page m c page_start with
      | inr (r, c) => Some (if negb (lenZ done =? 0) then mk_io (lenZ done) (io_errno r) done else r, c)
      | inl (idx, c) =>
          let offset := taddr - page_start in
          let copy_len := if len <=? page_size - offset then len else page_size - offset in
          let next_len := if len <=? page_size - offset then 0 else len - copy_len in
          let done := done ++ firstn (Z.to_nat copy_len) (skipn (Z.to_nat offset) (nth (Z.to_nat idx) (buf c) [])) in
          if next_len =? 0 then Some (mk_io (lenZ done) 0 done, c)
          else vm_read_loop fuel' m c (page_start + page_size) (page_start + page_size) next_len done
      end
  end.

(** A range of at most four pages takes at most four steps. *)
Definition vm_read_mem (m : mstate) (c : ucopy) (taddr len : Z) : option (io * ucopy) :=
  if len =? 0 then Some (mk_io 0 0 [], c)
  else
    let page_start := Z.land taddr (Z.lnot page_mask) in
    let page_after_last := Z.land (uint 64 (taddr + len + page_mask)) (Z.lnot page_mask) in
    if (page_start =? 0) || (page_after_last <? page_start)
       || (CACHED_PAGES * page_size <? page_after_last - page_start)
    then Some (process_read_mem m c taddr len)
    else vm_read_loop 5 m c page_start taddr len [].

(** ** Reading words *)

Definition tracee_addr_is_invalid (addr : Z) : bool := narrow && negb (Z.land addr (Z.lnot 0xffffffff) =? 0).

(** The loop of [umoven_peekdata]; the bytes copied so far are [done]. *)
Fixpoint peek_loop (fuel : nat) (m : mstate) (addr residue len : Z) (done : list Z) : option (Z * list Z) :=
  if len =? 0 then Some (0, done)
  else match fuel with
  | O => None
  | S fuel' =>
      let addr := Z.land addr (- WORD) in
      let u := peekdata m addr in
      if negb (io_errno u =? 0) then Some (-1, done)
      else
        let n := Z.min (WORD - residue) len in
        peek_loop fuel' m (uint 64 (addr + WORD)) 0 (len - n)
          (done ++ firstn (Z.to_nat n) (skipn (Z.to_nat residue) (io_bytes u)))
  end.

Definition umoven_peekdata (m : mstate) (addr len : Z) : option (Z * list Z) :=
  peek_loop (Z.to_nat len) m addr (Z.land addr (WORD - 1)) len [].

(** The first zero of a list. *)
Fixpoint find_nul (l : list Z) : option nat :=
  match l with
  | [] => None
  | c :: l' => if c =? 0 then Some 0%nat else S <$> find_nul l'
  end.

(** The search of [umovestr_peekdata] runs over the rest of the word. *)
Fixpoint peek_str_loop (fuel : nat) (m : mstate) (addr residue len : Z) (done : list Z)
  : option (Z * list Z) :=
  if len =? 0 then Some (0, done)
  else match fuel with
  | O => None
  | S fuel' =>
      let addr := Z.land addr (- WORD) in
      let u := peekdata m addr in
      if negb (io_errno u =? 0) then Some (-1, done)
      else
        let n := Z.min (WORD - residue) len in
        let rest := skipn (Z.to_nat residue) (io_bytes u) in
        let done' := done ++ firstn (Z.to_nat n) rest in
        match find_nul rest with
        | Some k => Some (lenZ done + (residue + Z.of_nat k + 1), done')
        | None => peek_str_loop fuel' m (uint 64 (addr + WORD)) 0 (len - n) done'
        end
  end.

Definition umovestr_peekdata (m : mstate) (addr len : Z) : option (Z * list Z) :=
  peek_str_loop (Z.to_nat len) m addr (Z.land addr (WORD - 1)) len [].

(** ** umoven and umovestr

    The result, the bytes stored at [our_addr] and the new cache. *)

Definition umoven (m : mstate) (c : ucopy) (addr len : Z) : option (Z * list Z * ucopy) :=
  if tracee_addr_is_invalid addr then Some (-1, [], c)
  else if process_vm_readv_not_supported c then
    '(r, l) ← umoven_peekdata m addr len; Some (r, l, c)
  else
    '(r, c) ← vm_read_mem m c addr len;
    if uint 32 (io_rc r) =? len then Some (0, io_bytes r, c)
    else if 0 <=? sint 32 (io_rc r) then Some (-1, io_bytes r, c)
    else if (io_errno r =? ENOSYS) || (io_errno r =? EPERM) then
      '(r, l) ← umoven_peekdata m addr len; Some (r, l, c)
    else Some (-1, io_bytes r, c).

Fixpoint umovestr_loop (fuel : nat) (m : mstate) (c : ucopy) (addr len nread : Z) (done : list Z)
  : option (Z * list Z * ucopy) :=
  if len =? 0 then Some (0, done, c)
  else match fuel with
  | O => None
  | S fuel' =>
      let chunk_len := if page_size <? len then page_size else len in
      let end_in_page := Z.land (uint 64 (addr + chunk_len)) page_mask in
      let chunk_len := if end_in_page <? chunk_len then chunk_len - end_in_page else chunk_len in
      '(r, c) ← vm_read_mem m c addr chunk_len;
      if 0 <? io_rc r then
        match find_nul (io_bytes r) with
        | Some k => Some (nread + Z.of_nat k + 1, done ++ io_bytes r, c)
        | None => umovestr_loop fuel' m c (uint 64 (addr + io_rc r)) (len - io_rc r) (nread + io_rc r)
                    (done ++ io_bytes r)
        end
      else if ((io_errno r =? ENOSYS) || (io_errno r =? EPERM)) && (nread =? 0) then
        '(r, l) ← umovestr_peekdata m addr len; Some (r, l, c)
      else Some (-1, done, c)
  end.

Definition umovestr (m : mstate) (c : ucopy) (addr len : Z) : option (Z * list Z * ucopy) :=
  if tracee_addr_is_invalid addr then Some (-1, [], c)
  else if process_vm_readv_not_supported c then
    '(r, l) ← umovestr_peekdata m addr len; Some (r, l, c)
  else umovestr_loop (Z.to_nat len) m c addr len 0 [].

(** ** Writing *)

(** [memcpy(u.data + offset, our_addr, len)]. *)
Definition patch_word (w : list Z) (offset : Z) (bytes : list Z) : list Z :=
  firstn (Z.to_nat offset) w ++ bytes ++ skipn (Z.to_nat offset + length bytes) w.

Definition upoken_peekpoke (m : mstate) (addr : Z) (bytes : list Z) (offset : Z) : mstate * bool :=
  let u := peekdata m addr in
  if negb (io_errno u =? 0) then (m, false)
  else let '(m, r) := pokedata m addr (patch_word (io_bytes u) offset bytes) in (m, io_rc r =? 0).

(** The loop over whole words; the result is the state, the number of bytes
    written, the bytes left, and [false] after an error. *)
Fixpoint poke_words (fuel : nat) (m : mstate) (addr : Z) (bytes : list Z) (nwritten : Z)
  : mstate * Z * Z * list Z * bool :=
  match fuel with
  | O => (m, addr, nwritten, bytes, true)
  | S fuel' =>
      if lenZ bytes <? WORD then (m, addr, nwritten, bytes, true)
      else
        let '(m, r) := pokedata m addr (firstn 8 bytes) in
        if io_rc r <? 0 then (m, addr, nwritten, bytes, false)
        else poke_words fuel' m (uint 64 (addr + WORD)) (skipn 8 bytes) (nwritten + WORD)
  end.

Definition upoken_pokedata (m : mstate) (addr : Z) (bytes : list Z) : mstate * Z :=
  let len := lenZ bytes in
  let residue := Z.land addr (WORD - 1) in
  let '(m, addr, nwritten, bytes, ok) :=
    if negb (len =? 0) && negb (residue =? 0) then
      let npoke := Z.min (WORD - residue) len in
      let addr := Z.land addr (- WORD) in
      let '(m, ok) := upoken_peekpoke m addr (firstn (Z.to_nat npoke) bytes) residue in
      if ok then (m, uint 64 (addr + WORD), npoke, skipn (Z.to_nat npoke) bytes, true)
      else (m, addr, 0, bytes, false)
    else (m, addr, 0, bytes, true) in
  if negb ok then (m, nwritten)
  else
    let '(m, addr, nwritten, bytes, ok) := poke_words (length bytes) m addr bytes nwritten in
    if negb ok then (m, nwritten)
    else if negb (lenZ bytes =? 0) then
      let '(m, ok) := upoken_peekpoke m addr bytes 0 in
      (m, if ok then nwritten + lenZ bytes else nwritten)
    else (m, nwritten).

(** [vm_write_mem] and [upoken]: the number of bytes written. *)
Definition vm_write_mem (m : mstate) (c : ucopy) (raddr : Z) (bytes : list Z) : mstate * io * ucopy :=
  let '(m, r) := vm_writev m raddr bytes in
  (m, r, if (io_rc r <? 0) && (io_errno r =? ENOSYS)
         then mk_ucopy (process_vm_readv_not_supported c) true (cached_idx c) (cached_raddr c) (buf c)
         else c).

Definition upoken (m : mstate) (c : ucopy) (addr : Z) (bytes : list Z) : mstate * Z * ucopy :=
  let len := lenZ bytes in
  if tracee_addr_is_invalid addr then (m, 0, c)
  else if process_vm_writev_not_supported c then
    let '(m, n) := upoken_pokedata m addr bytes in (m, n, c)
  else
    let '(m, r, c) := vm_write_mem m c addr bytes in
    if uint 32 (io_rc r) =? len then (m, len, c)
    else if 0 <=? io_rc r then (m, uint 32 (io_rc r), c)
    else if existsb (Z.eqb (io_errno r)) [ENOSYS; EPERM; EFAULT; EIO] then
      let '(m, n) := upoken_pokedata m addr bytes in (m, n, c)
    else (m, 0, c).

End ucopy.

(** ** What the kernel does

    [byte_at m a] is the byte at [a] if it is accessible; accessibility is that
    of the page.  The laws are those of a tracee that may be read with
    process_vm_readv. *)

Section ranges.
Context {S : Type} (byte_at : S -> Z -> option Z).

Fixpoint bytes_from (m : S) (a : Z) (n : nat) : option (list Z) :=
  match n with
  | O => Some []
  | Datatypes.S n' => c ← byte_at m a; l ← bytes_from m (a + 1) n'; Some (c :: l)
  end.
Definition bytes_at (m : S) (a n : Z) : option (list Z) := bytes_from m a (Z.to_nat n).
End ranges.

Class MemoryLaws (TM : TraceeMemory) (page_size : Z) := {
  byte_at : mstate -> Z -> option Z;
  byte_range m a c : byte_at m a = Some c -> 0 <= c < 256;
  page_access m a b :
    a / page_size = b / page_size -> is_Some (byte_at m a) -> is_Some (byte_at m b);
  readv_all m a n l :
    0 < n -> bytes_at byte_at m a n = Some l -> vm_readv m a n = mk_io n 0 l;
  readv_fault m a n :
    0 < n -> byte_at m a = None -> io_rc (vm_readv m a n) = -1 /\ io_errno (vm_readv m a n) = EFAULT;
  readv_part m a n :
    0 < n -> bytes_at byte_at m a n = None ->
    -1 <= io_rc (vm_readv m a n) < n
    /\ (io_rc (vm_readv m a n) < 0 -> io_errno (vm_readv m a n) = EFAULT);
  readv_len m a n :
    0 < n -> lenZ (io_bytes (vm_readv m a n)) = Z.max 0 (io_rc (vm_readv m a n));
  peek_word m a :
    a mod WORD = 0 ->
    match bytes_at byte_at m a WORD with
    | Some l => peekdata m a = mk_io 0 0 l
    | None => io_errno (peekdata m a) = EIO
    end;
}.

Section range_facts.
Context {S : Type} (get : S -> Z -> option Z).

Lemma bytes_from_Some m a n l :
  bytes_from get m a n = Some l
  <-> length l = n /\ forall i, (i < n)%nat -> get m (a + Z.of_nat i) = Some (nth i l 0).
Proof.
  revert a l. induction n as [|n IH]; intros a l; cbn [bytes_from].
  - split; [intros [= <-]; split; [done|lia]|]. intros [E _]. by destruct l.
  - split.
    + destruct (get m a) as [c|] eqn:E; [|done]. simpl.
      destruct (bytes_from get m (a + 1) n) as [l'|] eqn:E'; [|done]. intros [= <-].
      apply IH in E' as [Hl Hg]. split; [simpl; lia|]. intros [|i] Hi; [by rewrite Z.add_0_r|].
      cbn [nth]. rewrite <- Hg by lia. f_equal. lia.
    + intros [Hl Hg]. destruct l as [|c l]; [done|].
      assert (E0 : get m a = Some c) by (rewrite <- (Z.add_0_r a); apply (Hg 0%nat); lia).
      rewrite E0. cbn. replace (bytes_from get m (a + 1) n) with (Some l); [done|].
      symmetry. apply IH. split; [simpl in Hl; lia|]. intros i Hi.
      rewrite <- (Hg (Datatypes.S i) ltac:(lia) : _ = Some (nth i l 0)). f_equal. lia.
Qed.

Lemma bytes_at_Some m a n l : 0 <= n ->
  bytes_at get m a n = Some l
  <-> lenZ l = n /\ forall i, 0 <= i < n -> get m (a + i) = Some (nthZ l i).
Proof.
  intros Hn. unfold bytes_at. rewrite bytes_from_Some. unfold lenZ, nthZ. split.
  - intros [Hl Hg]. split; [lia|]. intros i Hi. rewrite <- Hg by lia. f_equal. lia.
  - intros [Hl Hg]. split; [lia|]. intros i Hi. rewrite Hg by lia. by rewrite Nat2Z.id.
Qed.

Lemma bytes_at_None m a n :
  bytes_at get m a n = None -> exists i, 0 <= i < n /\ get m (a + i) = None.
Proof.
  unfold bytes_at. intros H. assert (exists i, (i < Z.to_nat n)%nat /\ get m (a + Z.of_nat i) = None)
    as (i & Hi & E); [|exists (Z.of_nat i); split; [lia|done]].
  revert a H. generalize (Z.to_nat n) as k. clear n. induction k as [|k IH]; intros a H; [done|].
  cbn [bytes_from] in H. destruct (get m a) eqn:E.
  - simpl in H. destruct (bytes_from get m (a + 1) k) eqn:E'; [done|].
    apply IH in E' as (i & Hi & Ei). exists (Datatypes.S i). split; [lia|]. rewrite <- Ei. f_equal. lia.
  - exists 0%nat. split; [lia|]. by rewrite Z.add_0_r.
Qed.

Lemma bytes_at_0 m a : bytes_at get m a 0 = Some [].
Proof. done. Qed.

Lemma bytes_at_fault m a n i : 0 <= i < n -> get m (a + i) = None -> bytes_at get m a n = None.
Proof.
  intros Hi E. destruct (bytes_at get m a n) as [l|] eqn:H; [|done].
  apply bytes_at_Some in H as [_ H]; [|lia]. rewrite H in E by done. done.
Qed.

Lemma nthZ_app l1 l2 i : 0 <= i -> nthZ (l1 ++ l2) i = if i <? lenZ l1 then nthZ l1 i else nthZ l2 (i - lenZ l1).
Proof.
  intros Hi. unfold nthZ, lenZ. destruct (Z.ltb_spec i (Z.of_nat (length l1))).
  - apply app_nth1. lia.
  - rewrite app_nth2 by lia. f_equal. lia.
Qed.

Lemma nthZ_slice l o n i : 0 <= o -> 0 <= i < n -> nthZ (firstn (Z.to_nat n) (skipn (Z.to_nat o) l)) i = nthZ l (o + i).
Proof.
  intros Ho Hi. unfold nthZ. rewrite nth_firstn. replace (Z.to_nat i <? Z.to_nat n)%nat with true.
  - rewrite nth_skipn. f_equal. lia.
  - symmetry. apply Nat.ltb_lt. lia.
Qed.

Lemma bytes_at_app m a n1 n2 l1 l2 : 0 <= n1 -> 0 <= n2 ->
  bytes_at get m a n1 = Some l1 -> bytes_at get m (a + n1) n2 = Some l2 ->
  bytes_at get m a (n1 + n2) = Some (l1 ++ l2).
Proof.
  intros H1 H2 [E1 G1]%bytes_at_Some [E2 G2]%bytes_at_Some; [|done..].
  apply bytes_at_Some; [lia|]. split; [rewrite lenZ_app; lia|]. intros i Hi.
  rewrite nthZ_app by lia. destruct (Z.ltb_spec i (lenZ l1)); [apply G1; lia|].
  rewrite <- G2 by lia. f_equal. lia.
Qed.

Lemma bytes_at_slice m a n l o k : 0 <= o -> 0 <= k -> o + k <= n ->
  bytes_at get m a n = Some l ->
  bytes_at get m (a + o) k = Some (firstn (Z.to_nat k) (skipn (Z.to_nat o) l)).
Proof.
  intros Ho Hk Hn [E G]%bytes_at_Some; [|lia]. apply bytes_at_Some; [lia|]. split.
  - unfold lenZ in *. rewrite length_firstn, length_skipn. lia.
  - intros i Hi. rewrite nthZ_slice by lia. rewrite <- G by lia. f_equal. lia.
Qed.
End range_facts.

(** ** The cache is transparent *)

Section cache.
Context {TM : TraceeMemory}.
Variable page_bits : Z.
Hypothesis page_bits_ok : 3 <= page_bits < 32.
Abbreviation page_size := (2 ^ page_bits).
Context {ML : MemoryLaws TM page_size}.

(** What is cached is what the memory holds. *)
Record cache_ok (m : mstate) (c : ucopy) : Prop := {
  co_raddr : length (cached_raddr c) = 4%nat;
  co_buf : length (buf c) = 4%nat;
  co_idx : -1 <= cached_idx c < CACHED_PAGES;
  co_pages i : 0 <= cached_idx c -> 0 <= i < CACHED_PAGES -> nthZ (cached_raddr c) i <> 0 ->
    bytes_at byte_at m (nthZ (cached_raddr c) i) page_size = Some (nth (Z.to_nat i) (buf c) []);
}.

Lemma page_size_pos : 8 <= page_size < 2 ^ 32.
Proof.
  split; [change 8 with (2 ^ 3); apply Z.pow_le_mono_r; lia|apply Z.pow_lt_mono_r; lia].
Qed.

Lemma page_floor a : Z.land a (Z.lnot (page_mask page_size)) = a - a mod page_size.
Proof.
  unfold page_mask. rewrite <- Z.ldiff_land.
  replace (page_size - 1) with (Z.ones page_bits) by (rewrite Z.ones_equiv; lia).
  rewrite Z.ldiff_ones_r, Z.shiftl_mul_pow2, Z.shiftr_div_pow2 by lia.
  pose proof (Z.div_mod a page_size ltac:(pose proof page_size_pos; lia)). lia.
Qed.

Lemma page_offset a : Z.land a (page_mask page_size) = a mod page_size.
Proof.
  unfold page_mask. replace (page_size - 1) with (Z.ones page_bits) by (rewrite Z.ones_equiv; lia).
  apply Z.land_ones. lia.
Qed.

Lemma lookup_down_spec n raddr i last l :
  -1 <= last -> (lookup_down n raddr i last l = -1
  \/ (last < lookup_down n raddr i last l <= i /\ nthZ l (lookup_down n raddr i last l) = raddr)).
Proof.
  intros Hl. revert i. induction n as [|n IH]; intros i; cbn [lookup_down]; [by left|].
  destruct (Z.ltb_spec last i); [|by left]. destruct (Z.eqb_spec raddr (nthZ l i)); [right; lia|].
  destruct (IH (i - 1)) as [->|[? ?]]; [by left|right; split; [lia|done]].
Qed.

Lemma lookup_cached_spec m c raddr :
  cache_ok m c ->
  let i := lookup_cached_raddr_idx raddr c in
  i = -1 \/ (0 <= cached_idx c /\ 0 <= i < CACHED_PAGES /\ nthZ (cached_raddr c) i = raddr).
Proof.
  intros [_ _ Hi _]. unfold lookup_cached_raddr_idx, CACHED_PAGES in *. cbv zeta.
  destruct (Z.leb_spec 0 (cached_idx c)); [|by left].
  destruct (lookup_down_spec 4 raddr (cached_idx c) (-1) (cached_raddr c) ltac:(lia)) as [->|[? ?]].
  - cbn [Z.leb Z.compare].
    destruct (lookup_down_spec 4 raddr (4 - 1) (cached_idx c) (cached_raddr c) ltac:(lia)) as [->|[? ?]];
      [by left|right; split; [done|]; split; [lia|done]].
  - replace (0 <=? lookup_down 4 raddr (cached_idx c) (-1) (cached_raddr c)) with true by lia.
    right. split; [done|]. split; [lia|done].
Qed.

(** A page is accessible as a whole. *)
Lemma page_all m p a :
  p mod page_size = 0 -> p <= a < p + page_size -> is_Some (byte_at m a) ->
  exists l, bytes_at byte_at m p page_size = Some l.
Proof.
  intros Hp Ha Hs. pose proof page_size_pos. destruct (bytes_at byte_at m p page_size) as [l|] eqn:E; [by eexists|].
  apply bytes_at_None in E as (i & Hi & E). exfalso.
  assert (is_Some (byte_at m (p + i))) as [x Hx]; [|congruence].
  apply (page_access m a); [|done].
  apply Z.div_exact in Hp; [|lia]. rewrite Hp.
  replace (page_size * (p / page_size) + i) with (i + (p / page_size) * page_size) by lia.
  rewrite Z.div_add, (Z.div_small i) by lia.
  replace a with ((a - p) + (p / page_size) * page_size) by lia.
  rewrite Z.div_add, Z.div_small by lia. done.
Qed.

Lemma process_read_flags m c a n :
  io_errno (vm_readv m a n) <> ENOSYS \/ 0 <= io_rc (vm_readv m a n) ->
  process_read_mem m c a n = (vm_readv m a n, c).
Proof.
  intros H. unfold process_read_mem. f_equal.
  destruct (Z.ltb_spec (io_rc (vm_readv m a n)) 0); [|done].
  destruct (Z.eqb_spec (io_errno (vm_readv m a n)) ENOSYS); [|done]. destruct H; [done|lia].
Qed.

Lemma nth_insert {A} (l : list A) i j x d : (i < length l)%nat ->
  nth j (<[i := x]> l) d = if (j =? i)%nat then x else nth j l d.
Proof.
  intros Hi. rewrite !nth_lookup. destruct (Nat.eqb_spec j i) as [->|].
  - by rewrite list_lookup_insert_eq.
  - by rewrite list_lookup_insert_ne.
Qed.

(** Filling the next entry keeps the cache right. *)
Lemma cache_ok_fill m c p l :
  cache_ok m c -> bytes_at byte_at m p page_size = Some l ->
  let idx := get_next_unused_idx c in
  let c' := set_cached_raddr_idx p idx (set_buf idx l c) in
  cache_ok m c' /\ 0 <= idx < CACHED_PAGES /\ nth (Z.to_nat idx) (buf c') [] = l
  /\ process_vm_readv_not_supported c' = process_vm_readv_not_supported c.
Proof.
  intros [Hr Hb Hi Hp] Hl. cbv zeta. unfold get_next_unused_idx, CACHED_PAGES in *.
  assert (Hidx : 0 <= Z.rem (cached_idx c + 1) 4 < 4) by (apply Z.rem_bound_pos; lia).
  set (idx := Z.rem (cached_idx c + 1) 4) in *. clearbody idx.
  split; [|split; [done|split; [|done]]]; [|simpl; rewrite nth_insert by lia; by rewrite Nat.eqb_refl].
  unfold set_cached_raddr_idx, set_buf. cbn [cached_idx cached_raddr buf].
  split; cbn [cached_idx cached_raddr buf]; unfold CACHED_PAGES.
  - unfold updZ. rewrite length_insert. by destruct (_ <? 0).
  - by rewrite length_insert.
  - lia.
  - intros i _ Hi4 Hnz. unfold nthZ, updZ in *.
    set (old := if cached_idx c <? 0 then [0; 0; 0; 0] else cached_raddr c) in *.
    assert (Hold : length old = 4%nat) by (unfold old; by destruct (_ <? 0)).
    rewrite nth_insert in * by lia. rewrite nth_insert by lia.
    destruct (Z.to_nat i =? Z.to_nat idx)%nat eqn:E; [done|].
    destruct (Z.ltb_spec (cached_idx c) 0) as [|Hge].
    + exfalso. apply Hnz. unfold old.
      assert (i = 0 \/ i = 1 \/ i = 2 \/ i = 3) as Hc by lia. by repeat destruct Hc as [->|Hc]; subst.
    + by apply (Hp i).
Qed.

(** What a read of [n] bytes at [a] gives: all of them, or an error. *)
Definition read_result (m : mstate) (a n : Z) (r : io) : Prop :=
  match bytes_at byte_at m a n with
  | Some l => r = mk_io n 0 l
  | None => -1 <= io_rc r < n /\ (io_rc r < 0 -> io_errno r = EFAULT)
            /\ (byte_at m a = None -> io_rc r = -1) /\ lenZ (io_bytes r) <= n
  end.

Lemma process_read_result m c a n : 0 < n ->
  process_read_mem m c a n = (vm_readv m a n, c) /\ read_result m a n (vm_readv m a n).
Proof.
  intros Hn. unfold read_result. destruct (bytes_at byte_at m a n) as [l|] eqn:E.
  - rewrite (readv_all m a n l) by done. split; [|done].
    rewrite process_read_flags; rewrite (readv_all m a n l) by done; [done|]. right. simpl. lia.
  - destruct (readv_part m a n) as [H1 H2]; [done..|]. split.
    + apply process_read_flags. destruct (Z_lt_ge_dec (io_rc (vm_readv m a n)) 0); [|right; lia].
      left. rewrite H2 by lia. done.
    + split; [done|]. split; [done|]. rewrite readv_len by done. split; [|lia]. intros Hb. by apply readv_fault.
Qed.

Lemma cached_page_spec m c p t :
  cache_ok m c -> p mod page_size = 0 -> 0 < p -> p <= t < p + page_size ->
  match cached_page page_size m c p with
  | inl (idx, c2) => cache_ok m c2
      /\ process_vm_readv_not_supported c2 = process_vm_readv_not_supported c
      /\ bytes_at byte_at m p page_size = Some (nth (Z.to_nat idx) (buf c2) [])
  | inr (r, c2) => c2 = c /\ byte_at m t = None /\ io_rc r = -1 /\ io_errno r = EFAULT
      /\ lenZ (io_bytes r) = 0
  end.
Proof.
  intros Hc Hp Hp0 Ht. pose proof page_size_pos as Hps. unfold cached_page.
  destruct (lookup_cached_spec m c p Hc) as [->|(Hi & Hx & Er)].
  - cbn [Z.eqb Pos.eqb]. destruct (process_read_result m c p page_size ltac:(lia)) as [-> Hr].
    destruct (byte_at m t) as [x|] eqn:Ex.
    + destruct (page_all m p t Hp Ht) as [l El]; [by rewrite Ex|].
      rewrite (readv_all m p page_size l) by (done || lia). cbn [io_rc io_bytes].
      replace (page_size <? 0) with false by lia.
      destruct (cache_ok_fill m c p l Hc El) as (? & ? & El' & ?). cbv iota zeta. by rewrite El'.
    + assert (Eb : byte_at m p = None).
      { destruct (byte_at m p) eqn:Eb; [|done].
        destruct (page_access m p t) as [y Hy]; [|by rewrite Eb|congruence].
        apply Z.div_exact in Hp; [|lia]. rewrite Hp at 1.
        rewrite Z.mul_comm, Z.div_mul by lia. replace t with ((t - p) + (p / page_size) * page_size) by lia.
        rewrite Z.div_add, (Z.div_small (t - p)) by lia. done. }
      destruct (readv_fault m p page_size ltac:(lia) Eb). pose proof (readv_len m p page_size ltac:(lia)).
      replace (io_rc (vm_readv m p page_size) <? 0) with true by lia. do 4 (split; [done|]). lia.
  - replace (lookup_cached_raddr_idx p c =? -1) with false by (unfold CACHED_PAGES in *; lia).
    split; [done|]. split; [done|]. rewrite <- Er at 1. apply Hc; [done|done|]. rewrite Er. lia.
Qed.

Lemma vm_read_loop_spec fuel m c p t len done a0 :
  cache_ok m c -> p mod page_size = 0 -> 0 < p -> p <= t < p + page_size -> 0 < len ->
  t + len <= p + Z.of_nat fuel * page_size ->
  a0 + lenZ done = t -> bytes_at byte_at m a0 (lenZ done) = Some done ->
  exists r c', vm_read_loop page_size fuel m c p t len done = Some (r, c') /\ cache_ok m c'
    /\ process_vm_readv_not_supported c' = process_vm_readv_not_supported c
    /\ read_result m a0 (lenZ done + len) r.
Proof.
  pose proof page_size_pos as Hps. revert c p t len done.
  induction fuel as [|fuel IH]; intros c p t len done Hc Hp Hp0 Ht Hlen Hfuel Ha Hd; [lia|].
  cbn [vm_read_loop]. pose proof (lenZ_nonneg done) as Hdn.
  pose proof (cached_page_spec m c p t Hc Hp Hp0 Ht) as Hf.
  destruct (cached_page page_size m c p) as [[idx c2]|[r c2]].
  - destruct Hf as (Hc2 & Hs2 & Hl). set (page := nth (Z.to_nat idx) (buf c2) []) in *.
    set (copy_len := if len <=? page_size - (t - p) then len else page_size - (t - p)).
    assert (Hcl : 0 < copy_len <= page_size - (t - p) /\ copy_len <= len).
    { unfold copy_len. destruct (Z.leb_spec len (page_size - (t - p))); lia. }
    pose proof (bytes_at_slice byte_at m p page_size page (t - p) copy_len
      ltac:(lia) ltac:(lia) ltac:(lia) Hl) as Hsl.
    replace (p + (t - p)) with t in Hsl by lia.
    set (piece := firstn (Z.to_nat copy_len) (skipn (Z.to_nat (t - p)) page)) in *.
    assert (Hpl : lenZ piece = copy_len) by (apply bytes_at_Some in Hsl as [? _]; [done|lia]).
    assert (Hd' : bytes_at byte_at m a0 (lenZ (done ++ piece)) = Some (done ++ piece)).
    { rewrite lenZ_app. apply bytes_at_app; [lia..|done|]. rewrite Hpl, Ha. done. }
    destruct (Z.leb_spec len (page_size - (t - p))) as [Hle|Hgt]; cbn [Z.eqb].
    + eexists _, c2. split; [done|]. split; [done|]. split; [done|].
      assert (Ecl : copy_len = len) by (unfold copy_len; destruct (Z.leb_spec len (page_size - (t - p))); lia).
      unfold read_result. rewrite <- Ecl, <- Hpl, <- lenZ_app, Hd'. done.
    + assert (Ecl : copy_len = page_size - (t - p))
        by (unfold copy_len; destruct (Z.leb_spec len (page_size - (t - p))); lia).
      replace (len - copy_len =? 0) with false by lia.
      destruct (IH c2 (p + page_size) (p + page_size) (len - copy_len) (done ++ piece))
        as (r & c' & Hr & Hc' & Hs' & Hres); try done; try lia.
      * rewrite <- (Z.mul_1_l page_size) at 1. by rewrite Z.mod_add by lia.
      * rewrite lenZ_app. lia.
      * exists r, c'. rewrite Hr. split; [done|]. split; [done|]. split; [congruence|].
        rewrite lenZ_app in Hres. by replace (lenZ done + len) with (lenZ done + lenZ piece + (len - copy_len)) by lia.
  - destruct Hf as (-> & Eb & Hrc & Her & Hb0). eexists _, c. split; [done|]. split; [done|]. split; [done|].
    unfold read_result. rewrite (bytes_at_fault byte_at m a0 _ (lenZ done)) by (lia || by rewrite Ha).
    destruct (Z.eqb_spec (lenZ done) 0) as [E0|]; cbn [negb];
      [split; [lia|split; [done|split; [done|lia]]]|].
    cbn [io_rc io_bytes]. split; [lia|]. split; [lia|]. split; [|lia]. intros En.
    apply bytes_at_Some in Hd as [_ Hd]; [|lia]. rewrite <- (Z.add_0_r a0), Hd in En by lia. done.
Qed.

Lemma vm_read_mem_spec m c a len :
  cache_ok m c -> 0 <= a -> 0 <= len -> a + len + page_size < 2 ^ 64 ->
  exists r c', vm_read_mem page_size m c a len = Some (r, c') /\ cache_ok m c'
    /\ process_vm_readv_not_supported c' = process_vm_readv_not_supported c
    /\ (len = 0 -> r = mk_io 0 0 []) /\ (0 < len -> read_result m a len r).
Proof.
  intros Hc Ha Hlen Hmax. pose proof page_size_pos as Hps. unfold vm_read_mem.
  destruct (Z.eqb_spec len 0) as [->|Hnz]; [exists (mk_io 0 0 []), c; do 4 (split; [done|]); lia|].
  rewrite !page_floor, (uint_small 64) by (unfold in_uint, page_mask; lia).
  pose proof (Z.mod_pos_bound a page_size ltac:(lia)).
  pose proof (Z.mod_pos_bound (a + len + page_mask page_size) page_size ltac:(lia)).
  set (p := a - a mod page_size). set (q := a + len + _ - _).
  destruct ((p =? 0) || (q <? p) || (CACHED_PAGES * page_size <? q - p)) eqn:E.
  - destruct (process_read_result m c a len ltac:(lia)) as [-> Hr]. eexists _, c.
    do 3 (split; [done|]). split; [lia|done].
  - apply orb_false_iff in E as [E E3]. apply orb_false_iff in E as [E1 E2].
    unfold CACHED_PAGES, page_mask in *. pose proof (Z.mod_le a page_size Ha ltac:(lia)).
    assert (0 < p) by (unfold p in *; lia). assert (Hnil : lenZ (@nil Z) = 0) by done.
    destruct (vm_read_loop_spec 5 m c p a len [] a) as (r & c' & Hr & Hc' & Hs' & Hres); try done; try lia.
    + unfold p. rewrite Zminus_mod_idemp_r, Z.sub_diag. apply Z.mod_0_l. lia.
    + exists r, c'. rewrite Hr. do 3 (split; [done|]). split; [lia|].
      intros _. by rewrite Hnil in Hres.
Qed.

(** ** Word by word *)

Lemma word_floor a : Z.land a (- WORD) = a - a mod WORD.
Proof.
  change (- WORD) with (Z.lnot (Z.ones 3)). rewrite <- Z.ldiff_land.
  rewrite Z.ldiff_ones_r, Z.shiftl_mul_pow2, Z.shiftr_div_pow2 by lia.
  change (2 ^ 3) with WORD. pose proof (Z.div_mod a WORD ltac:(done)). lia.
Qed.
Lemma word_residue a : Z.land a (WORD - 1) = a mod WORD.
Proof. change (WORD - 1) with (Z.ones 3). apply Z.land_ones. lia. Qed.

(** A word lies in one page. *)
Lemma word_page a w : w = a - a mod WORD -> w / page_size = a / page_size.
Proof.
  intros ->. pose proof (Z.mod_pos_bound a WORD ltac:(done)) as Hm.
  pose proof (Z.div_mod a WORD ltac:(done)) as Hd.
  assert (Ep : page_size = WORD * 2 ^ (page_bits - 3)).
  { change WORD with (2 ^ 3). rewrite <- Z.pow_add_r by lia. f_equal. lia. }
  assert (0 < 2 ^ (page_bits - 3)) by (apply pow2_pos; lia). rewrite Ep, <- !Z.div_div by done.
  f_equal. replace (a - a mod WORD) with (a / WORD * WORD) by lia. by rewrite Z.div_mul.
Qed.

Lemma peek_result m a :
  match byte_at m a with
  | Some _ => exists w, peekdata m (a - a mod WORD) = mk_io 0 0 w
                        /\ bytes_at byte_at m (a - a mod WORD) WORD = Some w
  | None => io_errno (peekdata m (a - a mod WORD)) = EIO
  end.
Proof.
  pose proof (Z.mod_pos_bound a WORD ltac:(done)) as Hm.
  assert (Hal : (a - a mod WORD) mod WORD = 0) by (rewrite Zminus_mod_idemp_r, Z.sub_diag; reflexivity).
  pose proof (peek_word m _ Hal) as Hp.
  assert (Hpage : forall i, 0 <= i < WORD -> (a - a mod WORD + i) / page_size = a / page_size).
  { intros i Hi. rewrite <- (word_page a _ eq_refl). symmetry. apply word_page.
    rewrite <- Zplus_mod_idemp_l, Hal, Z.add_0_l, (Z.mod_small i) by done. lia. }
  destruct (byte_at m a) as [x|] eqn:Ex.
  - destruct (bytes_at byte_at m (a - a mod WORD) WORD) as [w|] eqn:Ew; [by exists w|].
    apply bytes_at_None in Ew as (i & Hi & Ei). exfalso.
    destruct (page_access m a (a - a mod WORD + i)) as [y Hy]; [by rewrite Hpage|by rewrite Ex|congruence].
  - destruct (bytes_at byte_at m (a - a mod WORD) WORD) as [w|] eqn:Ew; [|done].
    apply bytes_at_Some in Ew as [_ Ew]; [|done]. specialize (Ew (a mod WORD) Hm).
    replace (a - a mod WORD + a mod WORD) with a in Ew by lia. congruence.
Qed.

Lemma peek_loop_spec fuel m addr len done :
  0 <= len <= Z.of_nat fuel -> 0 <= addr -> addr + len + WORD < 2 ^ 64 ->
  exists r l', peek_loop fuel m addr (addr mod WORD) len done = Some (r, l')
    /\ match bytes_at byte_at m addr len with
       | Some l => r = 0 /\ l' = done ++ l
       | None => r = -1
       end /\ lenZ l' <= lenZ done + len.
Proof.
  revert addr len done. induction fuel as [|fuel IH]; intros addr len done Hf Ha Hmax; cbn [peek_loop].
  { assert (len = 0) as -> by lia. eexists _, _. split; [done|]. rewrite bytes_at_0, app_nil_r. split; [done|lia]. }
  destruct (Z.eqb_spec len 0) as [->|Hnz].
  { eexists _, _. split; [done|]. rewrite bytes_at_0, app_nil_r. split; [done|lia]. }
  rewrite word_floor. pose proof (peek_result m addr) as Hp.
  pose proof (Z.mod_pos_bound addr WORD ltac:(done)) as Hm.
  destruct (byte_at m addr) as [x|] eqn:Ex.
  - destruct Hp as (w & -> & Hw). cbn [io_errno Z.eqb negb io_bytes].
    set (n := Z.min (WORD - addr mod WORD) len).
    assert (Hn : 0 < n <= len /\ n <= WORD - addr mod WORD) by (unfold n, WORD in *; lia).
    pose proof (bytes_at_slice byte_at m _ WORD w (addr mod WORD) n ltac:(lia) ltac:(lia) ltac:(lia) Hw) as Hs.
    replace (addr - addr mod WORD + addr mod WORD) with addr in Hs by lia.
    pose proof (proj1 (bytes_at_Some byte_at m addr n _ ltac:(lia)) Hs) as [Hpl _].
    destruct (decide (len = n)) as [Een|Hne].
    + rewrite Een, Z.sub_diag, Hs. exists 0. eexists. split; [destruct fuel; done|]. split; [done|].
      rewrite lenZ_app. lia.
    + assert (Hnext : uint 64 (addr - addr mod WORD + WORD) = addr + n).
      { rewrite uint_small by (unfold in_uint, WORD in *; lia). unfold n, WORD in *. lia. }
      rewrite Hnext. assert (Hal : (addr + n) mod WORD = 0).
      { replace (addr + n) with (addr / WORD * WORD + 1 * WORD); [by rewrite <- Z.mul_add_distr_r, Z.mod_mul|].
        pose proof (Z.div_mod addr WORD ltac:(done)). unfold n, WORD in *. lia. }
      destruct (IH (addr + n) (len - n) (done ++ firstn (Z.to_nat n) (skipn (Z.to_nat (addr mod WORD)) w)))
        as (r & l' & Hr & Hres & Hl'); [lia|lia|lia|]. rewrite Hal in Hr. rewrite Hr. exists r, l'. split; [done|].
      rewrite lenZ_app in Hl'. split; [|lia].
      destruct (bytes_at byte_at m (addr + n) (len - n)) as [l2|] eqn:E2.
      * assert (Hall := bytes_at_app byte_at m addr n (len - n) _ l2 ltac:(lia) ltac:(lia) Hs E2).
        replace (n + (len - n)) with len in Hall by lia. rewrite Hall, app_assoc. done.
      * apply bytes_at_None in E2 as (i & Hi & Ei).
        rewrite (bytes_at_fault byte_at m addr len (n + i)); [done|lia|]. by rewrite Z.add_assoc.
  - rewrite Hp. eexists _, _. split; [done|].
    rewrite (bytes_at_fault byte_at m addr len 0) by (lia || by rewrite Z.add_0_r). split; [done|lia].
Qed.

Lemma umoven_peekdata_spec m addr len :
  0 <= len -> 0 <= addr -> addr + len + WORD < 2 ^ 64 ->
  exists r l', umoven_peekdata m addr len = Some (r, l')
    /\ match bytes_at byte_at m addr len with Some l => r = 0 /\ l' = l | None => r = -1 end /\ lenZ l' <= len.
Proof.
  intros Hl Ha Hmax. unfold umoven_peekdata. rewrite word_residue.
  apply (peek_loop_spec (Z.to_nat len) m addr len []); lia.
Qed.

Lemma umoven_spec narrow m c addr len :
  cache_ok m c -> 0 <= addr -> 0 <= len < 2 ^ 31 -> addr + len + page_size < 2 ^ 64 ->
  tracee_addr_is_invalid narrow addr = false ->
  exists r l' c', umoven page_size narrow m c addr len = Some (r, l', c') /\ cache_ok m c'
    /\ process_vm_readv_not_supported c' = process_vm_readv_not_supported c /\ lenZ l' <= len
    /\ match bytes_at byte_at m addr len with Some l => r = 0 /\ l' = l | None => r = -1 end.
Proof.
  intros Hc Ha Hlen Hmax Hv. pose proof page_size_pos as Hps. unfold umoven. rewrite Hv.
  destruct (process_vm_readv_not_supported c) eqn:Es.
  { destruct (umoven_peekdata_spec m addr len) as (r & l' & -> & Hr & Hb); [lia..|unfold WORD; lia|].
    exists r, l', c. done. }
  destruct (vm_read_mem_spec m c addr len Hc Ha ltac:(lia) Hmax) as (r & c' & -> & Hc' & Hs & H0 & Hr). rewrite Es in Hs.
  simpl. destruct (Z.eq_dec len 0) as [->|Hnz].
  { rewrite H0 by done. eexists _, _, c'. by split. }
  specialize (Hr ltac:(lia)). unfold read_result in Hr.
  destruct (bytes_at byte_at m addr len) as [l|] eqn:El.
  - apply bytes_at_Some in El as [El _]; [|lia].
    subst r. cbn [io_rc io_bytes]. rewrite uint_small by (unfold in_uint; lia). rewrite Z.eqb_refl.
    eexists _, _, c'. do 3 (split; [done|]). split; [lia|done].
  - destruct Hr as (Hlt & Herr & _ & Hb). destruct (Z_lt_ge_dec (io_rc r) 0) as [Hneg|Hpos].
    + assert (io_rc r = -1) as E by lia. rewrite E, Herr by done.
      replace (uint 32 (-1) =? len) with false by (change (uint 32 (-1)) with (2 ^ 32 - 1); lia).
      eexists _, _, c'. by split.
    + rewrite uint_small, sint_small by (unfold in_uint; lia).
      replace (io_rc r =? len) with false by lia. replace (0 <=? io_rc r) with true by lia.
      eexists _, _, c'. by split.
Qed.

(** C5: [umoven] reads the tracee's memory: from a valid cache, whichever
    pages it holds, or word by word, it gives the [len] bytes at [addr] when
    all are accessible and an error when one is not, never stores more than
    [len] bytes, and leaves a valid cache. *)
Theorem umoven_correct narrow m c addr len :
  cache_ok m c -> 0 <= addr -> 0 <= len < 2 ^ 31 -> addr + len + page_size < 2 ^ 64 ->
  tracee_addr_is_invalid narrow addr = false ->
  exists r l' c', umoven page_size narrow m c addr len = Some (r, l', c') /\ cache_ok m c'
    /\ process_vm_readv_not_supported c' = process_vm_readv_not_supported c /\ lenZ l' <= len
    /\ match bytes_at byte_at m addr len with Some l => r = 0 /\ l' = l | None => r = -1 end.
Proof. apply umoven_spec. Qed.

(** ** Strings *)

(** Looking for a zero among [n] bytes from [a]: [None] when an inaccessible
    byte comes first. *)
Fixpoint scan (m : mstate) (a : Z) (n : nat) : option (option nat) :=
  match n with
  | O => Some None
  | S n' => c ← byte_at m a; if c =? 0 then Some (Some 0%nat) else option_map S <$> scan m (a + 1) n'
  end.

Lemma scan_chunk m a n l k :
  bytes_from byte_at m a n = Some l ->
  scan m a (n + k) = match find_nul l with
                     | Some i => Some (Some i)
                     | None => option_map (Nat.add n) <$> scan m (a + Z.of_nat n) k
                     end.
Proof.
  revert a l. induction n as [|n IH]; intros a l; cbn [bytes_from].
  - intros [= <-]. cbn [find_nul Nat.add]. rewrite Z.add_0_r. by destruct (scan m a k) as [[]|].
  - destruct (byte_at m a) as [c|] eqn:Ec; [|done]. simpl.
    destruct (bytes_from byte_at m (a + 1) n) as [l'|] eqn:El; [|done]. intros [= <-].
    cbn [find_nul]. rewrite Ec. simpl. destruct (c =? 0); [done|]. rewrite (IH _ _ El).
    destruct (find_nul l'); [done|]. replace (a + 1 + Z.of_nat n) with (a + Z.pos (Pos.of_succ_nat n)) by lia.
    by destruct (scan _ _ k) as [[]|].
Qed.

Lemma find_nul_bound l k : find_nul l = Some k -> (k < length l)%nat.
Proof.
  revert k. induction l as [|c l IH]; intros k; [done|]. cbn [find_nul length].
  destruct (c =? 0); [intros [= <-]; lia|]. destruct (find_nul l); [|done]. intros [= <-].
  specialize (IH n eq_refl). lia.
Qed.

(** The piece of a string that is read at once. *)
Definition str_chunk (addr len : Z) : Z :=
  let chunk := if page_size <? len then page_size else len in
  let e := Z.land (uint 64 (addr + chunk)) (page_mask page_size) in
  if e <? chunk then chunk - e else chunk.

Lemma str_chunk_spec addr len : 0 <= addr -> 0 < len -> addr + len + page_size < 2 ^ 64 ->
  0 < str_chunk addr len <= len
  /\ forall i, 0 <= i < str_chunk addr len -> (addr + i) / page_size = addr / page_size.
Proof.
  intros Ha Hl Hmax. pose proof page_size_pos as Hps. unfold str_chunk.
  set (chunk := if page_size <? len then page_size else len).
  assert (Hc : 0 < chunk <= len /\ chunk <= page_size) by (unfold chunk; destruct (Z.ltb_spec page_size len); lia).
  clearbody chunk. rewrite page_offset, uint_small by (unfold in_uint; lia).
  pose proof (Z.mod_pos_bound (addr + chunk) page_size ltac:(lia)) as He.
  pose proof (Z.div_mod (addr + chunk) page_size ltac:(lia)) as Hd.
  set (e := (addr + chunk) mod page_size) in *. set (q := (addr + chunk) / page_size) in *.
  assert (Hsame : forall lo hi, lo <= addr -> addr < hi -> hi = lo + page_size -> (exists k, lo = k * page_size) ->
    forall i, 0 <= i -> addr + i < hi -> (addr + i) / page_size = addr / page_size).
  { intros lo hi H1 H2 H3 [k Hk] i Hi Hhi.
    rewrite <- (Z.div_unique (addr + i) page_size k (addr + i - lo)) by lia.
    by rewrite <- (Z.div_unique addr page_size k (addr - lo)) by lia. }
  destruct (Z.ltb_spec e chunk).
  - split; [lia|]. intros i Hi. apply (Hsame ((q - 1) * page_size) (q * page_size)); try lia. by eexists.
  - split; [lia|]. intros i Hi. apply (Hsame (q * page_size) (q * page_size + page_size)); try lia. by eexists.
Qed.

Lemma umovestr_loop_spec fuel m c addr len nread done :
  cache_ok m c -> 0 <= addr -> 0 <= len <= Z.of_nat fuel -> addr + len + page_size < 2 ^ 64 ->
  exists r l' c', umovestr_loop page_size fuel m c addr len nread done = Some (r, l', c') /\ cache_ok m c'
    /\ process_vm_readv_not_supported c' = process_vm_readv_not_supported c /\ lenZ l' <= lenZ done + len
    /\ match scan m addr (Z.to_nat len) with
       | None => r = -1
       | Some None => r = 0 /\ exists l, bytes_at byte_at m addr len = Some l /\ l' = done ++ l
       | Some (Some k) => r = nread + Z.of_nat k + 1
           /\ exists l rest, bytes_at byte_at m addr (Z.of_nat k + 1) = Some l /\ l' = done ++ l ++ rest
       end.
Proof.
  revert c addr len nread done. induction fuel as [|fuel IH]; intros c addr len nread done Hc Ha Hf Hmax;
    cbn [umovestr_loop].
  { assert (len = 0) as -> by lia. eexists _, _, c. do 3 (split; [done|]). split; [lia|].
    split; [done|]. exists []. by rewrite app_nil_r. }
  destruct (Z.eqb_spec len 0) as [->|Hnz].
  { eexists _, _, c. do 3 (split; [done|]). split; [lia|]. split; [done|]. exists []. by rewrite app_nil_r. }
  fold (str_chunk addr len). destruct (str_chunk_spec addr len Ha ltac:(lia) Hmax) as [Hch Hpage].
  set (n := str_chunk addr len) in *.
  destruct (vm_read_mem_spec m c addr n Hc Ha ltac:(lia) ltac:(lia)) as (r & c' & -> & Hc' & Hs & _ & Hr).
  specialize (Hr ltac:(lia)). unfold read_result in Hr. simpl.
  destruct (bytes_at byte_at m addr n) as [l|] eqn:El.
  - subst r. cbn [io_rc io_bytes]. replace (0 <? n) with true by lia.
    pose proof (scan_chunk m addr (Z.to_nat n) l (Z.to_nat (len - n)) El) as Hscan.
    replace (Z.to_nat n + Z.to_nat (len - n))%nat with (Z.to_nat len) in Hscan by lia. rewrite Hscan.
    pose proof (proj1 (bytes_at_Some byte_at m addr n l ltac:(lia)) El) as [Hlen _].
    destruct (find_nul l) as [k|] eqn:Ek.
    + apply find_nul_bound in Ek. unfold lenZ in Hlen. eexists _, _, c'. do 3 (split; [done|]).
      split; [rewrite lenZ_app; unfold lenZ in *; lia|]. split; [done|]. eexists _, (skipn (k + 1) l).
      split; [rewrite <- (Z.add_0_r addr); apply (bytes_at_slice byte_at m addr n l 0); done || lia|].
      cbn [Z.to_nat skipn]. replace (Z.to_nat (Z.of_nat k + 1)) with (k + 1)%nat by lia.
      by rewrite firstn_skipn.
    + rewrite uint_small by (unfold in_uint; lia).
      destruct (IH c' (addr + n) (len - n) (nread + n) (done ++ l) Hc') as (r & l' & c2 & -> & Hc2 & Hs2 & Hb2 & Hres);
        [lia..|]. rewrite lenZ_app in Hb2. eexists r, l', c2. do 2 (split; [done|]). split; [congruence|]. split; [lia|].
      rewrite Z2Nat.id by lia. destruct (scan m (addr + n) (Z.to_nat (len - n))) as [[k|]|]; simpl.
      * destruct Hres as (-> & l2 & rest & Hl2 & ->). split; [lia|]. exists (l ++ l2), rest.
        rewrite <- !app_assoc. split; [|done].
        replace (Z.of_nat (Z.to_nat n + k) + 1) with (n + (Z.of_nat k + 1)) by lia.
        apply bytes_at_app; [lia..|done|done].
      * destruct Hres as (-> & l2 & Hl2 & ->). split; [done|]. exists (l ++ l2).
        rewrite <- app_assoc. split; [|done]. replace len with (n + (len - n)) by lia.
        apply bytes_at_app; [lia..|done|done].
      * done.
  - destruct Hr as (Hb & Herr & Hfault & _).
    assert (Eb : byte_at m addr = None).
    { destruct (byte_at m addr) eqn:Eb; [|done]. apply bytes_at_None in El as (i & Hi & Ei).
      destruct (page_access m addr (addr + i)) as [y Hy]; [by rewrite Hpage|by rewrite Eb|congruence]. }
    rewrite Hfault, Herr by (rewrite ?Hfault; done || lia). cbn [Z.ltb Z.compare].
    eexists _, _, c'. do 3 (split; [done|]). split; [lia|].
    replace (Z.to_nat len) with (S (Z.to_nat (len - 1))) by lia. cbn [scan]. by rewrite Eb.
Qed.

Lemma umovestr_spec narrow m c addr len :
  cache_ok m c -> process_vm_readv_not_supported c = false ->
  0 <= addr -> 0 <= len -> addr + len + page_size < 2 ^ 64 ->
  tracee_addr_is_invalid narrow addr = false ->
  exists r l' c', umovestr page_size narrow m c addr len = Some (r, l', c') /\ cache_ok m c'
    /\ process_vm_readv_not_supported c' = false /\ lenZ l' <= len
    /\ match scan m addr (Z.to_nat len) with
       | None => r = -1
       | Some None => r = 0 /\ bytes_at byte_at m addr len = Some l'
       | Some (Some k) => r = Z.of_nat k + 1
           /\ exists l rest, bytes_at byte_at m addr r = Some l /\ l' = l ++ rest
       end.
Proof.
  intros Hc Hs Ha Hlen Hmax Hv. unfold umovestr. rewrite Hv, Hs.
  destruct (umovestr_loop_spec (Z.to_nat len) m c addr len 0 [] Hc Ha ltac:(lia) Hmax)
    as (r & l' & c' & -> & Hc' & Hs' & Hb & Hres). rewrite Hs in Hs'.
  exists r, l', c'. do 3 (split; [done|]). split; [done|].
  destruct (scan m addr (Z.to_nat len)) as [[k|]|]; [|by destruct Hres as (-> & l & ? & ->)|done].
  destruct Hres as (-> & Hres). by split.
Qed.

(** [umovestr] finds the end of a string: it returns the length of the
    string with its NUL and the string when the NUL is among the [len] bytes
    (reading no page after the one of the NUL), 0 and the [len] bytes when
    there is no NUL among them, and an error exactly when an inaccessible byte
    comes before the end. *)
Theorem umovestr_correct narrow m c addr len :
  cache_ok m c -> process_vm_readv_not_supported c = false ->
  0 <= addr -> 0 <= len -> addr + len + page_size < 2 ^ 64 ->
  tracee_addr_is_invalid narrow addr = false ->
  exists r l' c', umovestr page_size narrow m c addr len = Some (r, l', c') /\ cache_ok m c'
    /\ process_vm_readv_not_supported c' = false /\ lenZ l' <= len
    /\ match scan m addr (Z.to_nat len) with
       | None => r = -1
       | Some None => r = 0 /\ bytes_at byte_at m addr len = Some l'
       | Some (Some k) => r = Z.of_nat k + 1
           /\ exists l rest, bytes_at byte_at m addr r = Some l /\ l' = l ++ rest
       end.
Proof. apply umovestr_spec. Qed.

(** ** Two defects *)

(** Word by word the end of a string is misreported: when the NUL is the
    [k]-th byte from [addr] in the first word, [umovestr_peekdata] returns
    [addr mod 8 + k + 1] (not [k + 1]), for every [len], even one that does not
    reach the NUL, in which case the bytes stored do not contain it. *)
Theorem umovestr_peekdata_overcounts m addr len w k :
  0 < len -> bytes_at byte_at m (addr - addr mod WORD) WORD = Some w ->
  find_nul (skipn (Z.to_nat (addr mod WORD)) w) = Some k ->
  exists l, umovestr_peekdata m addr len = Some (addr mod WORD + Z.of_nat k + 1, l) /\ lenZ l <= len.
Proof.
  intros Hl Hw Hk. unfold umovestr_peekdata. rewrite word_residue.
  destruct (Z.to_nat len) as [|fuel] eqn:Ef; [lia|]. cbn [peek_str_loop].
  replace (len =? 0) with false by lia. rewrite word_floor.
  pose proof (peek_word m (addr - addr mod WORD)
    ltac:(rewrite Zminus_mod_idemp_r, Z.sub_diag; reflexivity)) as Hp.
  rewrite Hw in Hp. rewrite Hp. cbn [io_errno io_bytes Z.eqb negb]. rewrite Hk. eexists. split; [done|].
  cbn [app]. unfold lenZ. rewrite length_firstn, length_skipn.
  pose proof (Z.mod_pos_bound addr WORD ltac:(done)). lia.
Qed.

(** The cache and the mode of reading. *)
Definition cache_of (c : ucopy) : bool * Z * list Z * list (list Z) :=
  (process_vm_readv_not_supported c, cached_idx c, cached_raddr c, buf c).

Lemma upoken_cache narrow m c addr bytes m' n c' :
  upoken narrow m c addr bytes = (m', n, c') -> cache_of c' = cache_of c.
Proof.
  unfold upoken, vm_write_mem. intros H.
  destruct (tracee_addr_is_invalid _ _); [by injection H as _ _ <-|].
  destruct (process_vm_writev_not_supported c).
  { destruct (upoken_pokedata _ _ _). by injection H as _ _ <-. }
  destruct (vm_writev m addr bytes) as [m1 r]. cbv iota beta zeta in H.
  assert (E : cache_of (if (io_rc r <? 0) && (io_errno r =? ENOSYS)
    then mk_ucopy (process_vm_readv_not_supported c) true (cached_idx c) (cached_raddr c) (buf c)
    else c) = cache_of c) by by destruct (_ && _).
  destruct (_ =? lenZ bytes); [injection H as _ _ <-; exact E|].
  destruct (0 <=? _); [injection H as _ _ <-; exact E|].
  destruct (existsb _ _); [destruct (upoken_pokedata _ _ _)|]; injection H as _ _ <-; exact E.
Qed.

(** [upoken] does not invalidate the cache: a read of a cached page after
    a write, before the next event, gives the bytes the memory held before the
    write. *)
Theorem upoken_leaves_stale_cache narrow m c addr bytes m' n c' a len l :
  cache_ok m c -> process_vm_readv_not_supported c = false ->
  upoken narrow m c addr bytes = (m', n, c') ->
  0 < len -> page_size <= a -> a mod page_size + len <= page_size -> a + 2 * page_size < 2 ^ 64 ->
  lookup_cached_raddr_idx (a - a mod page_size) c <> -1 ->
  tracee_addr_is_invalid narrow a = false ->
  bytes_at byte_at m a len = Some l ->
  umoven page_size narrow m' c' a len = Some (0, l, c').
Proof.
  intros Hc Hs Hup Hlen Ha Hin Hmax Hlook Hv Hl. apply upoken_cache in Hup. unfold cache_of in Hup.
  injection Hup as Es Ei Er Eb. pose proof page_size_pos as Hps.
  pose proof (Z.mod_pos_bound a page_size ltac:(lia)) as Hm.
  pose proof (Z.div_mod a page_size ltac:(lia)) as Hd.
  set (p := a - a mod page_size) in *.
  assert (Hq : page_size <= p). { unfold p. assert (1 <= a / page_size) by (apply Z.div_le_lower_bound; lia). nia. }
  destruct (lookup_cached_spec m c p Hc) as [|(Hi & Hx & Ep)]; [done|].
  pose proof (co_pages _ _ Hc _ Hi Hx ltac:(rewrite Ep; lia)) as Hpage. rewrite Ep in Hpage.
  assert (Hfit : 0 < len <= page_size) by lia.
  unfold umoven. rewrite Hv, Es, Hs. unfold vm_read_mem. replace (len =? 0) with false by lia.
  rewrite !page_floor, (uint_small 64) by (unfold in_uint, page_mask; lia). fold p.
  assert (Hafter : (a + len + page_mask page_size) mod page_size = (a + len + page_mask page_size) - p - page_size).
  { unfold page_mask. symmetry. apply Z.mod_unique_pos with (q := a / page_size + 1); unfold p; lia. }
  rewrite Hafter. unfold CACHED_PAGES.
  replace ((p =? 0) || _ || _) with false by (symmetry; rewrite !orb_false_iff; lia).
  cbn [vm_read_loop]. unfold cached_page.
  assert (Hlk : lookup_cached_raddr_idx p c' = lookup_cached_raddr_idx p c)
    by (unfold lookup_cached_raddr_idx; by rewrite Ei, Er).
  rewrite Hlk. replace (lookup_cached_raddr_idx p c =? -1) with false by (unfold CACHED_PAGES in *; lia).
  cbv iota zeta. replace (len <=? page_size - (a - p)) with true by (unfold p; lia).
  cbn [Z.eqb]. cbv iota. cbn [app mbind option_bind io_rc io_bytes]. rewrite Eb.
  pose proof (bytes_at_slice byte_at m p page_size _ (a - p) len ltac:(lia) ltac:(lia) ltac:(unfold p; lia) Hpage) as Hsl.
  replace (p + (a - p)) with a in Hsl by lia. rewrite Hl in Hsl. injection Hsl as <-.
  apply bytes_at_Some in Hl as [El _]; [|lia].
  rewrite El, uint_small, Z.eqb_refl by (unfold in_uint; lia). done.
Qed.
End cache.

(** ** A tracee

    Memory as the set of its accessible pages of 16 bytes and its bytes; writes
    to it, and the runs that show the theorems at work. *)

Definition demo_bits : Z := 4.
Record demo_mem := mk_mem { accessible : Z -> bool; byte_of : Z -> Z }.

Definition demo_byte (m : demo_mem) (a : Z) : option Z :=
  if accessible m (a / 2 ^ demo_bits) then Some (byte_of m a mod 256) else None.

Fixpoint readable (m : demo_mem) (a : Z) (n : nat) : list Z :=
  match n with
  | O => []
  | S n' => match demo_byte m a with Some c => c :: readable m (a + 1) n' | None => [] end
  end.

Definition demo_readv (m : demo_mem) (a n : Z) : io :=
  let l := readable m a (Z.to_nat n) in
  if lenZ l =? 0 then mk_io (-1) EFAULT [] else mk_io (lenZ l) 0 l.

Definition demo_write (m : demo_mem) (a : Z) (bytes : list Z) : demo_mem :=
  mk_mem (accessible m) (fun x => if (a <=? x) && (x <? a + lenZ bytes) then nthZ bytes (x - a) else byte_of m x).

#[export] Instance demo_memory : TraceeMemory := {|
  mstate := demo_mem;
  vm_readv := demo_readv;
  vm_writev := fun m a l =>
    match bytes_at demo_byte m a (lenZ l) with
    | Some _ => (demo_write m a l, mk_io (lenZ l) 0 [])
    | None => (m, mk_io (-1) EFAULT [])
    end;
  peekdata := fun m a => match bytes_at demo_byte m a WORD with
                         | Some l => mk_io 0 0 l
                         | None => mk_io (-1) EIO []
                         end;
  pokedata := fun m a l => match bytes_at demo_byte m a WORD with
                           | Some _ => (demo_write m a l, mk_io 0 0 [])
                           | None => (m, mk_io (-1) EIO [])
                           end;
|}.

Lemma readable_spec m a n :
  match bytes_from demo_byte m a n with
  | Some l => readable m a n = l
  | None => (length (readable m a n) < n)%nat
  end.
Proof.
  revert a. induction n as [|n IH]; intros a; cbn [bytes_from readable]; [done|].
  destruct (demo_byte m a); simpl; [|lia]. specialize (IH (a + 1)).
  destruct (bytes_from demo_byte m (a + 1) n); simpl; [by rewrite IH|lia].
Qed.

#[export] Instance demo_laws : MemoryLaws demo_memory (2 ^ demo_bits).
Proof.
  refine {| byte_at := demo_byte : @mstate demo_memory -> Z -> option Z |}.
  - intros m a c. unfold demo_byte. destruct (accessible m _); [|done]. intros [= <-]. by apply Z.mod_pos_bound.
  - intros m a b E. unfold demo_byte. rewrite E. by destruct (accessible m _).
  - intros m a n l Hn Hl. simpl. unfold demo_readv.
    change (@bytes_from demo_mem demo_byte m a (Z.to_nat n) = Some l) in Hl.
    pose proof (readable_spec m a (Z.to_nat n)) as Hr. rewrite Hl in Hr. rewrite Hr.
    apply bytes_from_Some in Hl as [Hl _]. unfold lenZ. rewrite Hl, Z2Nat.id by lia.
    by replace (n =? 0) with false by lia.
  - intros m a n Hn Hb. simpl. unfold demo_readv.
    replace (Z.to_nat n) with (S (Z.to_nat (n - 1))) by lia. cbn [readable]. by rewrite Hb.
  - intros m a n Hn Hl. simpl. unfold demo_readv.
    change (@bytes_from demo_mem demo_byte m a (Z.to_nat n) = None) in Hl.
    pose proof (readable_spec m a (Z.to_nat n)) as Hr. rewrite Hl in Hr. unfold lenZ.
    destruct (Z.eqb_spec (Z.of_nat (length (readable m a (Z.to_nat n)))) 0); simpl; split; done || lia.
  - intros m a n Hn. simpl. unfold demo_readv. unfold lenZ. destruct (Z.eqb_spec (Z.of_nat (length (readable m a (Z.to_nat n)))) 0); simpl; lia.
  - intros m a _. simpl. change (@bytes_at mstate) with (@bytes_at demo_mem).
    by destruct (bytes_at demo_byte m a WORD).
Defined.

(** Pages 1 to 3 are accessible; byte [a] is [a mod 16], so that every page
    starts with a zero. *)
Definition demo_tracee : demo_mem := mk_mem (fun p => (1 <=? p) && (p <=? 3)) (fun a => a mod 16).
Definition empty_cache : ucopy := mk_ucopy false false (-1) [0; 0; 0; 0] [[]; []; []; []].

Lemma empty_cache_ok (m : @mstate demo_memory) : cache_ok demo_bits m empty_cache.
Proof. split; [reflexivity|reflexivity|vm_compute; split; congruence|]. intros i H. vm_compute in H. congruence. Qed.

Lemma umoven_correct_witness :
  exists c', umoven (2 ^ demo_bits) false (demo_tracee : @mstate demo_memory) empty_cache 30 4
             = Some (0, [14; 15; 0; 1], c') /\ cache_ok demo_bits (demo_tracee : @mstate demo_memory) c'.
Proof.
  destruct (umoven_correct demo_bits ltac:(vm_compute; split; congruence) false
    (demo_tracee : @mstate demo_memory) empty_cache 30 4 (empty_cache_ok _)
    ltac:(lia) ltac:(lia) ltac:(reflexivity) eq_refl) as (r & l' & c' & H & Hc & _ & _ & Hr).
  destruct Hr as [-> ->]. exists c'. split; [exact H|exact Hc].
Defined.

Lemma umovestr_correct_witness :
  exists l' c', umovestr (2 ^ demo_bits) false (demo_tracee : @mstate demo_memory) empty_cache 60 100
             = Some (-1, l', c').
Proof.
  destruct (umovestr_correct demo_bits ltac:(vm_compute; split; congruence) false
    (demo_tracee : @mstate demo_memory) empty_cache 60 100 (empty_cache_ok _) eq_refl
    ltac:(lia) ltac:(lia) ltac:(reflexivity) eq_refl) as (r & l' & c' & H & _ & _ & _ & Hr).
  vm_compute in Hr. subst r. exists l', c'. exact H.
Defined.

(** The string of 12 bytes at 20 with NUL at 32: 13 bytes with the NUL. *)
Example str_found :
  option_map (fun x => fst (fst x)) (umovestr (2 ^ demo_bits) false (demo_tracee : @mstate demo_memory) empty_cache 20 100)
  = Some 13.
Proof. vm_compute. reflexivity. Qed.

(** Two letters at 29 and a NUL at 31: one byte is asked for, 8 is returned. *)
Definition nul_at_31 : demo_mem := mk_mem (fun p => (1 <=? p) && (p <=? 3)) (fun a => if a =? 31 then 0 else 65).

Lemma umovestr_peekdata_overcounts_witness :
  exists l, umovestr_peekdata (nul_at_31 : @mstate demo_memory) 29 1 = Some (8, l) /\ lenZ l <= 1.
Proof.
  exact (umovestr_peekdata_overcounts demo_bits ltac:(vm_compute; split; congruence) (nul_at_31 : @mstate demo_memory) 29 1
    [65; 65; 65; 65; 65; 65; 65; 0] 2 ltac:(lia) eq_refl eq_refl).
Defined.

(** The page at 32 is cached, then the byte at 40 is overwritten. *)
Definition warm_cache : ucopy := mk_ucopy false false 0 [32; 0; 0; 0] [readable demo_tracee 32 16; []; []; []].

Lemma upoken_leaves_stale_cache_witness :
  let '(m', n, c') := upoken false (demo_tracee : @mstate demo_memory) warm_cache 40 [99] in
  n = 1 /\ demo_byte m' 40 = Some 99 /\ umoven (2 ^ demo_bits) false m' c' 40 1 = Some (0, [8], c').
Proof.
  destruct (upoken false (demo_tracee : @mstate demo_memory) warm_cache 40 [99]) as [[m' n] c'] eqn:E.
  split; [vm_compute in E; by injection E as _ <- _|].
  split; [vm_compute in E; injection E as <- _ _; reflexivity|].
  apply (upoken_leaves_stale_cache demo_bits ltac:(vm_compute; split; congruence) false
    (demo_tracee : @mstate demo_memory) warm_cache 40 [99] m' n c' 40 1 [8]); try reflexivity; try exact E; try done.
  split; [reflexivity|reflexivity|vm_compute; split; congruence|].
  intros i _ Hi Hnz. assert (i = 0 \/ i = 1 \/ i = 2 \/ i = 3) as Hc by (unfold CACHED_PAGES in Hi; lia).
  repeat destruct Hc as [->|Hc]; subst; try reflexivity; by vm_compute in Hnz.
Defined.
