(* ===== verification/PrintStr.v ===== *)
(** * Strings and paths of a tracee (src/util.c)

    The functions that read a string, a path or a block of bytes from the
    memory of a tracee (UCopy) and print it quoted (Quote).  A text is the list
    of its characters' codes, as in Quote. *)

From Stdlib Require Import Ascii.
From stdpp Require Import pretty.
From S2P Require Import Prelude Wait Util Quote UCopy.
Open Scope Z_scope.

(** The codes of a text. *)
Fixpoint codes (s : string) : list Z :=
  match s with EmptyString => [] | String c s' => Z.of_nat (nat_of_ascii c) :: codes s' end.

(** What is in a buffer of the tracer after [bytes] are stored at its start. *)
Definition store (bytes b : list Z) : list Z := bytes ++ skipn (length bytes) b.

Definition null_text : list Z := codes "NULL".
Definition printaddr64 (addr : Z) : list Z := if addr =? 0 then null_text else codes (fmt_hex addr).

Definition PATH_MAX : Z := 4096.

Section printing.
Context {TM : TraceeMemory}.
Variables (page_size : Z) (narrow : bool).
(** -x and -s, and what malloc gives: whether it succeeds, and the contents of a
    new block.  When xmalloc fails the program ends; that is left out. *)
Variables (xflag max_strlen : Z) (malloc_ok : Z -> bool) (fresh : Z -> list Z).
(** The text of [selinux_printfilecon] for a path: empty unless the security
    contexts are printed. *)
Variable printfilecon : list Z -> list Z.

(** The text, the result of [umovestr] and the cache; [path] is what the buffer
    on the stack contains before. *)
Definition printpathn (m : mstate) (c : ucopy) (path : list Z) (addr n : Z)
  : option (list Z * Z * ucopy) :=
  if addr =? 0 then Some (null_text, -1, c)
  else
    let n := if PATH_MAX <? n then PATH_MAX else n in
    '(nul_seen, bytes, c) ← umovestr page_size narrow m c addr n;
    if nul_seen <? 0 then Some (printaddr64 addr, nul_seen, c)
    else
      let path := store bytes path in
      let out := fst (print_quoted_cstring xflag malloc_ok path (if nul_seen =? 0 then n else nul_seen)) in
      Some (out ++ (if nul_seen =? 0 then [] else printfilecon path), nul_seen, c).

Definition printpath (m : mstate) (c : ucopy) (path : list Z) (addr : Z) : option (list Z * Z * ucopy) :=
  printpathn m c path addr PATH_MAX.

(** The static buffer [str] is allocated by the first call; the size of the
    other one, [outstr]. *)
Definition outstr_size : Z := uint 32 (4 * max_strlen + 3).

(** The part of [printstr_ex] after [size] bytes were read: the text and the
    buffer. *)
Definition print_fetched (str : list Z) (len size style : Z) : list Z * list Z :=
  let '(size, str) := if max_strlen <? size then (max_strlen, str) else (size, updZ str size 0xff) in
  let size := if has style QUOTE_0_TERMINATED && has style QUOTE_EXPECT_TRAILING_0
                 && (size =? len) && negb (size =? 0) then size - 1 else size in
  let '(out, more) := string_quote (hexstr_style xflag style) style None str size in
  let ellipsis := negb (more =? 0) && negb (len =? 0)
                  && (has style (Z.lor QUOTE_0_TERMINATED QUOTE_EXPECT_TRAILING_0) || (max_strlen <? len)) in
  (out ++ (if ellipsis then more_data_follows else []), str).

(** The text, the result, the cache and the static buffer. *)
Definition printstr_ex (m : mstate) (c : ucopy) (str : option (list Z)) (addr len style : Z)
  : option (list Z * Z * ucopy * option (list Z)) :=
  if addr =? 0 then Some (null_text, -1, c, str)
  else
    let str := default (fresh (uint 32 (max_strlen + 1))) str in
    let size := uint 32 (max_strlen + 1) in
    let size := if len <? size then len else size in
    '(rc, bytes, c) ← (if has style QUOTE_0_TERMINATED then umovestr page_size narrow m c addr size
                       else umoven page_size narrow m c addr size);
    let str := store bytes str in
    if rc <? 0 then Some (printaddr64 addr, rc, c, Some str)
    else let '(text, str) := print_fetched str len size style in Some (text, rc, c, Some str).

(** [is_filled (str, 0, len)]. *)
Definition is_filled (l : list Z) (fill : Z) : bool := forallb (Z.eqb fill) l.

(** The text, the result and the cache; [prefix] is what [prefix_fun] prints. *)
Definition print_nonzero_bytes (m : mstate) (c : ucopy) (prefix : list Z)
    (start_addr start_offs total_len style : Z) : option (list Z * bool * ucopy) :=
  if total_len <=? start_offs then Some ([], false, c)
  else
    let addr := uint 64 (start_addr + start_offs) in
    let len := total_len - start_offs in
    let size := Z.min len max_strlen in
    if negb (malloc_ok len) then Some (prefix ++ unavailable, true, c)
    else
      '(rc, bytes, c) ← umoven page_size narrow m c addr len;
      if negb (rc =? 0) then Some (prefix ++ unavailable, true, c)
      else if is_filled bytes 0 then Some ([], false, c)
      else
        Some (prefix ++ codes ("/* bytes " +:+ pretty start_offs +:+ ".." +:+ pretty (total_len - 1) +:+ " */ ")
              ++ fst (print_quoted_string_ex xflag malloc_ok bytes size style None)
              ++ (if size <? len then more_data_follows else []), true, c).

End printing.

(** ** Quoting strings that end with NUL *)

Section quote_nul.
Variables (xstyle style : Z) (escape_chars : option (list Z)).
Hypothesis zero_terminated : has style QUOTE_0_TERMINATED = true.

Lemma eol_0 : eol style = 0.
Proof. unfold eol. by rewrite zero_terminated. Qed.

Lemma check_hex_nul p r : ~ In 0 p -> check_hex style (p ++ 0 :: r) = check_hex style p.
Proof.
  induction p as [|c p IH]; intros Hp; cbn [app check_hex]; rewrite eol_0; [done|].
  destruct (Z.eqb_spec c 0) as [->|]; [by destruct Hp; left|]. rewrite IH; [done|]. intros ?. by apply Hp; right.
Qed.

Lemma quote_hex_nul p r : ~ In 0 p ->
  quote_hex style (p ++ 0 :: r) = (fst (quote_hex style p), true).
Proof.
  induction p as [|c p IH]; intros Hp; cbn [app quote_hex]; rewrite eol_0; [done|].
  destruct (Z.eqb_spec c 0) as [->|]; [by destruct Hp; left|].
  rewrite IH by (intros ?; by apply Hp; right). by destruct (quote_hex style p).
Qed.

Lemma quote_char_nul c r : quote_char xstyle escape_chars c (head (0 :: r)) = quote_char xstyle escape_chars c None.
Proof. done. Qed.

Lemma quote_plain_nul p r : ~ In 0 p ->
  quote_plain xstyle style escape_chars (p ++ 0 :: r) = (fst (quote_plain xstyle style escape_chars p), true).
Proof.
  induction p as [|c p IH]; intros Hp; cbn [app quote_plain]; rewrite eol_0; [done|].
  assert (Hc : (c =? 0) = false) by (apply Z.eqb_neq; intros ->; by destruct Hp; left).
  rewrite Hc, !andb_false_r, IH by (intros ?; by apply Hp; right).
  destruct (quote_plain xstyle style escape_chars p) as [out e]. cbn [fst].
  destruct p as [|d p]; [by cbn [app]; rewrite quote_char_nul|done].
Qed.

(** The quoted text depends only on what is before the first NUL. *)
Lemma string_quote_nul p r size : ~ In 0 p -> lenZ p <= size ->
  string_quote xstyle style escape_chars (p ++ 0 :: r) size
  = (fst (string_quote xstyle style escape_chars p (lenZ p)), 0).
Proof.
  intros Hp Hs. unfold string_quote.
  assert (Ef : firstn (Z.to_nat (lenZ p)) p = p) by (unfold lenZ; by rewrite Nat2Z.id, firstn_all).
  rewrite Ef.
  assert (E : exists r', firstn (Z.to_nat size) (p ++ 0 :: r) = p ++ 0 :: r' \/
                         firstn (Z.to_nat size) (p ++ 0 :: r) = p /\ size = lenZ p).
  { unfold lenZ in *. destruct (Z.eq_dec size (Z.of_nat (length p))) as [->|].
    - exists []. right. by rewrite Nat2Z.id, take_app_length.
    - exists (firstn (Z.to_nat size - length p - 1) r). left. rewrite firstn_app, firstn_all2 by lia.
      f_equal. destruct (Z.to_nat size - length p)%nat as [|k] eqn:Ek; [lia|]. cbn. by rewrite Nat.sub_0_r. }
  assert (Hu : forall r', usehex xstyle style (p ++ 0 :: r') = usehex xstyle style p)
    by (intros r'; unfold usehex; by rewrite check_hex_nul).
  destruct E as (r' & [->|[-> ->]]).
  - rewrite Hu, quote_hex_nul, quote_plain_nul by done.
    destruct (usehex xstyle style p); [by destruct (quote_hex style p)|by destruct (quote_plain xstyle style escape_chars p)].
  - destruct (if usehex xstyle style p then _ else _) as [body ended]. cbn [fst].
    assert (E0 : nthZ (p ++ 0 :: r) (lenZ p) = 0).
    { unfold nthZ, lenZ. rewrite Nat2Z.id, app_nth2, Nat.sub_diag by lia. done. }
    rewrite E0, zero_terminated. by destruct ended.
Qed.

Lemma shown_plain p : ~ In 0 p -> shown xstyle style p = p.
Proof.
  intros Hp. unfold shown.
  assert (Hl : drop_trailing_0 p = p).
  { unfold drop_trailing_0. destruct (list.last p) as [c|] eqn:E; [|done].
    destruct (Z.eqb_spec c 0) as [->|]; [|done]. apply last_Some_elem_of, list_elem_of_In in E. done. }
  rewrite Hl. destruct (_ && _ && _); [done|]. clear Hl.
  induction p as [|c p IH]; [done|]. cbn [until_eol]. rewrite eol_0.
  destruct (Z.eqb_spec c 0) as [->|]; [by destruct Hp; left|]. rewrite IH; [done|]. intros ?. by apply Hp; right.
Qed.
End quote_nul.

(** Without QUOTE_0_TERMINATED and QUOTE_OMIT_TRAILING_0 all bytes are shown. *)
Lemma shown_all xstyle style l :
  has style QUOTE_0_TERMINATED = false -> has style QUOTE_OMIT_TRAILING_0 = false -> Forall byte l ->
  shown xstyle style l = l.
Proof.
  intros H0 Ho HF. unfold shown. rewrite Ho. cbn [andb].
  induction HF as [|c l Hc HF IH]; [done|]. cbn [until_eol]. unfold eol. rewrite H0. unfold byte in Hc.
  replace (c =? 256) with false by lia. by rewrite IH.
Qed.

(** [string_quote] looks at [size + 1] bytes. *)
Lemma string_quote_ahead xstyle style e l r size : 0 <= size < lenZ l ->
  string_quote xstyle style e (l ++ r) size = string_quote xstyle style e l size.
Proof.
  intros Hs. unfold string_quote, lenZ, nthZ in *.
  rewrite firstn_app, app_nth1 by lia. replace (Z.to_nat size - length l)%nat with 0%nat by lia.
  cbn [firstn]. by rewrite app_nil_r.
Qed.

(** ** The buffers *)

Lemma store_length bytes b : lenZ bytes <= lenZ b -> lenZ (store bytes b) = lenZ b.
Proof. unfold store, lenZ. rewrite length_app, length_skipn. lia. Qed.

(** Storing 0xff after the bytes read. *)
Lemma store_ff l b n : lenZ l = n -> n < lenZ b -> exists r, updZ (store l b) n 0xff = (l ++ [0xff]) ++ r.
Proof.
  intros <- Hb. exists (skipn (S (length l)) b). unfold updZ, store, lenZ in *. rewrite Nat2Z.id.
  rewrite insert_app_r_alt, Nat.sub_diag by lia. rewrite <- app_assoc. f_equal.
  destruct (lookup_lt_is_Some_2 b (length l)) as [x Hx]; [lia|].
  by rewrite (drop_S b x _ Hx).
Qed.

Lemma store_ff_nul p r b n : lenZ p < n -> lenZ (p ++ 0 :: r) <= lenZ b -> 
  exists r', updZ (store (p ++ 0 :: r) b) n 0xff = p ++ 0 :: r'.
Proof.
  intros Hn Hb. unfold store, updZ. rewrite <- app_assoc. cbn [app]. unfold lenZ in *.
  rewrite insert_app_r_alt by lia. replace (Z.to_nat n - length p)%nat with (S (Z.to_nat n - length p - 1)) by lia.
  cbn. by eexists.
Qed.
Lemma has_lor_r x a b : has x (Z.lor a b) = has x a || has x b.
Proof.
  unfold has. rewrite Z.land_lor_distr_r. destruct (Z.eqb_spec (Z.land x a) 0) as [->|Ha]; [done|].
  destruct (Z.eqb_spec (Z.lor (Z.land x a) (Z.land x b)) 0) as [E|]; [|done]. by apply Z.lor_eq_0_iff in E as [? _].
Qed.

Section quoting.
Variables xflag max_strlen : Z.
Hypothesis max_strlen_ok : 0 <= max_strlen /\ 4 * max_strlen < 2 ^ 32.

(** A text that reads back as [l], whatever follows it, and fits the buffer. *)
Definition quotes (l q : list Z) : Prop :=
  (forall rest, unquote (q ++ rest) = Some (l, rest)) /\ lenZ q + 1 <= outstr_size max_strlen.

Variable style : Z.
Hypothesis quotes_kept : has style QUOTE_OMIT_LEADING_TRAILING_QUOTES = false.
Hypothesis no_comment : has style QUOTE_EMIT_COMMENT = false.
Abbreviation xstyle := (hexstr_style xflag style).

Lemma quote_quotes l size : Forall byte l -> 0 <= size <= max_strlen ->
  quotes (shown xstyle style (firstn (Z.to_nat size) l)) (fst (string_quote xstyle style None l size)).
Proof.
  intros HF Hs. split; [intros rest; by apply unquote_string_quote|].
  pose proof (string_quote_length xstyle style None l size ltac:(lia) ltac:(lia)) as H.
  unfold quote_alloc_size in H. unfold outstr_size. rewrite quotes_kept, no_comment in H.
  rewrite uint_small in * by (unfold in_uint; lia). lia.
Qed.

(** No NUL was read: the buffer holds the bytes [l], then [r]. *)
Lemma quote_unterminated l r size :
  has style QUOTE_0_TERMINATED = true -> Forall byte l -> ~ In 0 l -> 0 <= size <= max_strlen -> size < lenZ l ->
  exists q, string_quote xstyle style None (l ++ r) size = (q, 1) /\ quotes (firstn (Z.to_nat size) l) q.
Proof.
  intros H0 HF Hl Hs Hlt. rewrite string_quote_ahead by lia. pose proof (quote_quotes l size HF ltac:(lia)) as Hq.
  pose proof (string_quote_rc xstyle style None l size HF ltac:(lia)) as Hrc. rewrite H0 in Hrc.
  assert (Hn : forall k, ~ In 0 (firstn k l)) by (intros k Hin; apply Hl; rewrite <- (firstn_skipn k l); apply in_app_iff; by left).
  rewrite shown_plain in Hq by done.
  destruct (string_quote xstyle style None l size) as [q rc] eqn:E. exists q. split; [|done]. f_equal.
  cbn [snd] in Hrc. assert (rc = 0 \/ rc = 1) as [->| ->]; [|by destruct (Hn _ (proj1 Hrc eq_refl))|done].
  unfold string_quote in E. destruct (if usehex _ _ _ then _ else _) as [? []]; injection E as _ <-; [by left|].
  destruct (_ && _); auto.
Qed.

Lemma quote_terminated p r size :
  has style QUOTE_0_TERMINATED = true -> Forall byte p -> ~ In 0 p -> lenZ p <= size -> lenZ p <= max_strlen ->
  exists q, string_quote xstyle style None (p ++ 0 :: r) size = (q, 0) /\ quotes p q.
Proof.
  intros H0 HF Hp Hs Hm. rewrite string_quote_nul by done. eexists. split; [done|].
  pose proof (quote_quotes p (lenZ p) HF ltac:(split; [apply lenZ_nonneg|done])) as Hq.
  unfold lenZ in Hq at 1. rewrite Nat2Z.id, firstn_all, shown_plain in Hq by done. exact Hq.
Qed.

Lemma quote_counted l r size :
  has style QUOTE_0_TERMINATED = false -> has style QUOTE_OMIT_TRAILING_0 = false ->
  Forall byte l -> 0 <= size <= max_strlen -> size < lenZ l ->
  exists q, string_quote xstyle style None (l ++ r) size = (q, 1) /\ quotes (firstn (Z.to_nat size) l) q.
Proof.
  intros H0 Ho HF Hs Hlt. rewrite string_quote_ahead by lia. pose proof (quote_quotes l size HF ltac:(lia)) as Hq.
  rewrite shown_all in Hq by (done || by apply list.Forall_take).
  pose proof (string_quote_rc xstyle style None l size HF ltac:(lia)) as Hrc. rewrite H0, Ho in Hrc.
  destruct (string_quote xstyle style None l size) as [q rc] eqn:E. exists q. split; [|done]. f_equal.
  cbn [snd] in Hrc. unfold string_quote in E. rewrite H0 in E.
  destruct (if usehex _ _ _ then _ else _) as [? []]; injection E as _ <-; [|done].
  by destruct (proj1 Hrc eq_refl).
Qed.
End quoting.

(** ** What is printed *)

Section correct.
Context {TM : TraceeMemory}.
Variable page_bits : Z.
Hypothesis page_bits_ok : 3 <= page_bits < 32.
Abbreviation page_size := (2 ^ page_bits).
Context {ML : MemoryLaws TM page_size}.
Variables (narrow : bool) (xflag max_strlen : Z) (malloc_ok : Z -> bool) (fresh : Z -> list Z).
Hypothesis max_strlen_ok : 0 <= max_strlen /\ 4 * max_strlen < 2 ^ 32.
Hypothesis fresh_length : forall n, 0 <= n -> lenZ (fresh n) = n.

(** The string at [a], read up to [n] bytes: what is before its NUL, and whether
    that was seen; [None] when an inaccessible byte comes first. *)
Fixpoint string_at (m : mstate) (a : Z) (n : nat) : option (list Z * bool) :=
  match n with
  | O => Some ([], false)
  | S n' => c ← byte_at m a;
            if c =? 0 then Some ([], true)
            else '(l, seen) ← string_at m (a + 1) n'; Some (c :: l, seen)
  end.

Lemma scan_string m a n :
  match scan page_bits m a n with
  | None => string_at m a n = None
  | Some None => exists l, string_at m a n = Some (l, false) /\ bytes_from byte_at m a n = Some l /\ ~ In 0 l
  | Some (Some k) => exists l, string_at m a n = Some (l, true) /\ length l = k /\ ~ In 0 l /\ (k < n)%nat
      /\ bytes_from byte_at m a (S k) = Some (l ++ [0])
  end.
Proof.
  revert a. induction n as [|n IH]; intros a; cbn [scan string_at]; [exists []; cbn; auto|].
  destruct (byte_at m a) as [c|] eqn:Ec; [|done]. simpl.
  destruct (Z.eqb_spec c 0) as [->|Hc].
  { exists []. cbn [bytes_from]. rewrite Ec. cbn. repeat split; auto; lia. }
  specialize (IH (a + 1)). destruct (scan page_bits m (a + 1) n) as [[k|]|]; simpl.
  - destruct IH as (l & -> & <- & Hl & Hk & Hb). exists (c :: l). split; [done|]. split; [done|].
    split; [by intros [?|?]|]. split; [lia|]. cbn [bytes_from] in *. by rewrite Ec, Hb.
  - destruct IH as (l & -> & Hb & Hl). exists (c :: l). split; [done|]. cbn [bytes_from]. rewrite Ec, Hb.
    split; [done|]. by intros [?|?].
  - by rewrite IH.
Qed.

Lemma bytes_at_bytes m a n l : bytes_at byte_at m a n = Some l -> Forall byte l.
Proof.
  unfold bytes_at. intros [Hl Hg]%bytes_from_Some. apply Forall_nth. intros i d Hi.
  rewrite (nth_indep l d 0) by lia. eapply byte_range, Hg. lia.
Qed.

(** The static buffer: not allocated, or of its size. *)
Definition str_ok (str : option (list Z)) : Prop := forall b, str = Some b -> lenZ b = max_strlen + 1.

(** What there is to print: the string or the bytes, at most one more than
    [max_strlen], and whether that is all. *)
Definition contents (m : mstate) (addr len style : Z) : option (list Z * bool) :=
  let n := Z.min len (max_strlen + 1) in
  if has style QUOTE_0_TERMINATED
  then '(l, seen) ← string_at m addr (Z.to_nat n); Some (l, seen || (len =? 0))
  else l ← bytes_at byte_at m addr n; Some (l, len <=? max_strlen).

Record readable_at (m : mstate) (c : ucopy) (addr n : Z) : Prop := {
  ra_cache : cache_ok page_bits m c;
  ra_readv : process_vm_readv_not_supported c = false;
  ra_addr : 0 < addr;
  ra_end : addr + n + page_size < 2 ^ 64;
  ra_valid : tracee_addr_is_invalid narrow addr = false }.


(** *** After the read *)

Section fetched.
Variables (style len : Z) (b : list Z).
Hypothesis quotes_kept : has style QUOTE_OMIT_LEADING_TRAILING_QUOTES = false.
Hypothesis no_comment : has style QUOTE_EMIT_COMMENT = false.
Hypothesis no_expect : has style QUOTE_EXPECT_TRAILING_0 = false.
Hypothesis b_length : lenZ b = max_strlen + 1.
Hypothesis len_pos : 0 <= len.
Abbreviation n := (Z.min len (max_strlen + 1)).

(** The text [q] of [l] with the ellipsis, and a buffer of the same size. *)
Definition fetched (r : list Z * list Z) (l : list Z) (complete : bool) : Prop :=
  exists q, quotes max_strlen (firstn (Z.to_nat max_strlen) l) q /\
    r.1 = q ++ (if complete then [] else more_data_follows) /\ lenZ r.2 = max_strlen + 1.

Lemma fetched_nul p rest :
  has style QUOTE_0_TERMINATED = true -> Forall byte p -> ~ In 0 p -> lenZ (p ++ 0 :: rest) <= n ->
  fetched (print_fetched xflag max_strlen (store (p ++ 0 :: rest) b) len n style) p true.
Proof.
  intros H0 HF Hp Hl. pose proof (store_length (p ++ 0 :: rest) b ltac:(lia)) as Hst.
  rewrite lenZ_app, lenZ_cons in Hl. pose proof (lenZ_nonneg rest).
  assert (E : exists str size r, (if max_strlen <? n then (max_strlen, store (p ++ 0 :: rest) b)
      else (n, updZ (store (p ++ 0 :: rest) b) n 255)) = (size, str) /\ str = p ++ 0 :: r /\ lenZ p <= size /\
      lenZ str = max_strlen + 1).
  { destruct (Z.ltb_spec max_strlen n).
    - eexists _, _, _. split; [done|]. unfold store at 1. rewrite <- app_assoc. split; [done|]. split; lia.
    - destruct (store_ff_nul p rest b n ltac:(lia) ltac:(rewrite lenZ_app, lenZ_cons; lia)) as [r Er].
      eexists _, _, r. split; [done|]. split; [done|]. split; [lia|]. rewrite lenZ_updZ. lia. }
  destruct E as (str & size & r & E & -> & Hs & Hlen). unfold print_fetched. rewrite E, H0, no_expect. cbn [andb].
  destruct (quote_terminated xflag max_strlen max_strlen_ok style quotes_kept no_comment p r size H0 HF Hp Hs ltac:(lia)) as (q & -> & Hq).
  exists q. cbn [Z.eqb negb andb fst snd]. rewrite firstn_all2 by (unfold lenZ in *; lia). done.
Qed.

Lemma fetched_all l more :
  (forall l' r size, Forall byte l' -> (In 0 l' -> In 0 l) -> 0 <= size <= max_strlen -> size < lenZ l' ->
    exists q, string_quote (hexstr_style xflag style) style None (l' ++ r) size = (q, 1) /\
      quotes max_strlen (firstn (Z.to_nat size) l') q) ->
  Forall byte l -> lenZ l = n ->
  more = negb (len =? 0) && (has style (Z.lor QUOTE_0_TERMINATED QUOTE_EXPECT_TRAILING_0) || (max_strlen <? len)) ->
  fetched (print_fetched xflag max_strlen (store l b) len n style) l (negb more).
Proof.
  intros Hquote HF Hl ->. unfold print_fetched. rewrite no_expect, andb_false_r. cbn [andb].
  pose proof (store_length l b ltac:(lia)) as Hst. unfold lenZ in Hl.
  destruct (Z.ltb_spec max_strlen n).
  - destruct (Hquote l (skipn (length l) b) max_strlen) as (q & Eq & Hq); [done|done|lia|unfold lenZ; lia|].
    unfold store at 1. rewrite Eq. exists q. cbn [Z.eqb Pos.eqb negb andb fst snd]. split; [done|].
    split; [by destruct (negb (len =? 0) && _)|lia].
  - destruct (store_ff l b n Hl ltac:(lia)) as [r Er].
    destruct (Hquote (l ++ [255]) r n) as (q & Eq & Hq).
    { apply Forall_app. split; [done|]. repeat constructor; unfold byte; lia. }
    { rewrite in_app_iff. intros [?|[?|[]]]; [done|lia]. }
    { lia. }
    { unfold lenZ. rewrite length_app. cbn. lia. }
    pose proof (lenZ_updZ (store l b) n 255) as Hu. rewrite Er in Hu |- *. rewrite Eq.
    rewrite firstn_app, firstn_all2 in Hq by lia. replace (Z.to_nat n - length l)%nat with 0%nat in Hq by lia.
    cbn [firstn] in Hq. rewrite app_nil_r in Hq.
    exists q. rewrite firstn_all2 by lia. cbn [Z.eqb Pos.eqb negb andb fst snd].
    split; [done|]. split; [by destruct (negb (len =? 0) && _)|lia].
Qed.
End fetched.

Lemma printstr_ex_spec m c str addr len style :
  readable_at m c addr (max_strlen + 1) -> str_ok str -> 0 <= len ->
  has style QUOTE_OMIT_LEADING_TRAILING_QUOTES = false -> has style QUOTE_EMIT_COMMENT = false ->
  has style QUOTE_EXPECT_TRAILING_0 = false -> has style QUOTE_OMIT_TRAILING_0 = false ->
  exists text rc c' str', printstr_ex page_size narrow xflag max_strlen fresh m c str addr len style
      = Some (text, rc, c', str') /\ cache_ok page_bits m c' /\ str_ok str' /\
    process_vm_readv_not_supported c' = false /\
    match contents m addr len style with
    | None => rc = -1 /\ text = printaddr64 addr
    | Some (l, complete) => exists q, quotes max_strlen (firstn (Z.to_nat max_strlen) l) q /\
        text = q ++ (if complete : bool then [] else more_data_follows)
    end.
Proof.
  intros [Hc Hr Ha He Hv] Hstr Hlen Hq Hcm Hx Ho. unfold printstr_ex, contents.
  replace (addr =? 0) with false by lia. rewrite (uint_small 32 (max_strlen + 1)) by (unfold in_uint; lia).
  set (b := default (fresh (max_strlen + 1)) str).
  assert (Hb : lenZ b = max_strlen + 1).
  { unfold b. destruct str as [b'|]; [by apply Hstr|]. apply fresh_length. lia. }
  replace (if len <? max_strlen + 1 then len else max_strlen + 1) with (Z.min len (max_strlen + 1)) by (bcase; lia).
  set (n := Z.min len (max_strlen + 1)). clearbody b.
  assert (Hdone : forall r l complete, fetched r l complete ->
    exists text str', r = (text, str') /\ str_ok (Some str') /\ exists q, quotes max_strlen (firstn (Z.to_nat max_strlen) l) q /\
      text = q ++ (if complete : bool then [] else more_data_follows)).
  { intros [text b'] l complete (q & Hqq & E & Hl). exists text, b'. split; [done|].
    split; [by intros ? [= <-]|]. by exists q. }
  destruct (has style QUOTE_0_TERMINATED) eqn:H0.
  - destruct (umovestr_spec page_bits page_bits_ok narrow m c addr n Hc Hr ltac:(lia) ltac:(lia) ltac:(lia) Hv)
      as (rc & l' & c' & -> & Hc' & Hs' & Hl' & Hres). cbn [mbind option_bind].
    pose proof (scan_string m addr (Z.to_nat n)) as Hscan.
    destruct (scan page_bits m addr (Z.to_nat n)) as [[k|]|].
    + destruct Hscan as (p & -> & Hk & Hp & Hkn & Hpb). destruct Hres as (-> & l & rest & Hl & ->).
      replace (Z.of_nat k + 1) with (Z.of_nat (S k)) in * by lia. pose proof (bytes_at_bytes _ _ _ _ Hl) as HF.
      unfold bytes_at in Hl. rewrite Nat2Z.id, Hpb in Hl. injection Hl as <-.
      rewrite <- app_assoc in *. cbn [app mbind option_bind orb] in *. apply Forall_app in HF as [HF _].
      change (Z.of_nat (S k) <? 0) with false.
      edestruct Hdone as (text & b' & -> & Hok & Hex); [by apply fetched_nul|].
      by eexists _, _, c', _.
    + destruct Hscan as (l & -> & Hlb & Hl). destruct Hres as (-> & Hres).
      unfold bytes_at in Hres. rewrite Hlb in Hres. injection Hres as <-. cbn [mbind option_bind orb Z.ltb Z.compare].
      edestruct Hdone as (text & b' & -> & Hok & Hex).
      { eapply (fetched_all style len b Hx Hb l); [|by apply (bytes_at_bytes m addr n)| |done].
        - intros l' r size HF' Hin Hs Hlt. apply quote_unterminated; auto.
        - apply bytes_from_Some in Hlb as [? _]. unfold lenZ. lia. }
      rewrite has_lor_r, H0, andb_true_r, negb_involutive in Hex. by eexists _, _, c', _.
    + subst rc. rewrite Hscan. eexists _, _, c', _. split; [done|]. split; [done|]. split; [|done].
      intros ? [= <-]. rewrite store_length; lia.
  - destruct (umoven_spec page_bits page_bits_ok narrow m c addr n Hc ltac:(lia) ltac:(lia) ltac:(lia) Hv)
      as (rc & l' & c' & -> & Hc' & Hs' & Hl' & Hres). rewrite Hr in Hs'. cbn [mbind option_bind].
    destruct (bytes_at byte_at m addr n) as [l|] eqn:El.
    + destruct Hres as [-> ->]. cbn [mbind option_bind Z.ltb Z.compare].
      edestruct Hdone as (text & b' & -> & Hok & Hex).
      { eapply (fetched_all style len b Hx Hb l); [|by apply (bytes_at_bytes m addr n)| |done].
        - intros l' r size HF' Hin Hs Hlt. apply quote_counted; auto.
        - apply bytes_at_Some in El as [? _]; [|lia]. done. }
      rewrite has_lor_r, H0, Hx in Hex. cbn [orb] in Hex.
      replace (negb _) with (len <=? max_strlen) in Hex by (bcase; done || lia). by eexists _, _, c', _.
    + subst rc. eexists _, _, c', _. split; [done|]. split; [done|]. split; [|done].
      intros ? [= <-]. rewrite store_length; lia.
Qed.

Lemma print_fetched_length b len size style :
  lenZ (snd (print_fetched xflag max_strlen b len size style)) = lenZ b.
Proof.
  unfold print_fetched. destruct (max_strlen <? size); destruct (string_quote _ _ _ _ _) as [out more]; cbn [snd]; [done|apply lenZ_updZ].
Qed.

(** Whatever the style, the buffers are kept and the read is valid. *)
Lemma printstr_ex_safe m c str addr len style :
  readable_at m c addr (max_strlen + 1) -> str_ok str -> 0 <= len ->
  exists text rc c' str', printstr_ex page_size narrow xflag max_strlen fresh m c str addr len style
      = Some (text, rc, c', str') /\ cache_ok page_bits m c' /\ str_ok str' /\
    process_vm_readv_not_supported c' = false.
Proof.
  intros [Hc Hr Ha He Hv] Hstr Hlen. unfold printstr_ex.
  replace (addr =? 0) with false by lia. rewrite (uint_small 32 (max_strlen + 1)) by (unfold in_uint; lia).
  set (b := default (fresh (max_strlen + 1)) str).
  assert (Hb : lenZ b = max_strlen + 1).
  { unfold b. destruct str as [b'|]; [by apply Hstr|]. apply fresh_length. lia. }
  replace (if len <? max_strlen + 1 then len else max_strlen + 1) with (Z.min len (max_strlen + 1)) by (bcase; lia).
  set (n := Z.min len (max_strlen + 1)).
  assert (Hread : exists rc l' c', (if has style QUOTE_0_TERMINATED then umovestr page_size narrow m c addr n
      else umoven page_size narrow m c addr n) = Some (rc, l', c') /\ cache_ok page_bits m c' /\
      process_vm_readv_not_supported c' = false /\ lenZ l' <= n).
  { destruct (has style QUOTE_0_TERMINATED).
    - destruct (umovestr_spec page_bits page_bits_ok narrow m c addr n Hc Hr ltac:(lia) ltac:(lia) ltac:(lia) Hv)
        as (rc & l' & c' & -> & Hc' & Hs' & Hl' & _). by exists rc, l', c'.
    - destruct (umoven_spec page_bits page_bits_ok narrow m c addr n Hc ltac:(lia) ltac:(lia) ltac:(lia) Hv)
        as (rc & l' & c' & -> & Hc' & Hs' & Hl' & _). rewrite Hr in Hs'. by exists rc, l', c'. }
  destruct Hread as (rc & l' & c' & -> & Hc' & Hs' & Hl'). cbn [mbind option_bind].
  assert (Hst : lenZ (store l' b) = max_strlen + 1) by (rewrite store_length; lia).
  destruct (rc <? 0); [eexists _, _, c', _; split; [done|]; split; [done|]; split; [by intros ? [= <-]|done]|].
  pose proof (print_fetched_length (store l' b) len n style) as Hp. destruct (print_fetched _ _ _ _ _ _) as [text b'].
  eexists _, _, c', _. split; [done|]. split; [done|]. split; [|done]. intros ? [= <-]. cbn [snd] in Hp. lia.
Qed.


(** [print_nonzero_bytes] prints nothing and returns false exactly when there
    is nothing but zeros (or nothing at all) after the offset; otherwise it prints
    the prefix, the range and the first [max_strlen] bytes in a form that reads
    back as these bytes, with three dots when there are more, or question marks
    when the bytes cannot be read. *)
Theorem print_nonzero_bytes_correct m c prefix start offs total style :
  (forall n, malloc_ok n = true) -> 0 <= start -> 0 <= offs -> 0 <= total < 2 ^ 31 ->
  readable_at m c (start + offs) (total - offs) ->
  has style QUOTE_OMIT_LEADING_TRAILING_QUOTES = false -> has style QUOTE_EMIT_COMMENT = false ->
  has style QUOTE_0_TERMINATED = false -> has style QUOTE_OMIT_TRAILING_0 = false ->
  exists text ret c', print_nonzero_bytes page_size narrow xflag max_strlen malloc_ok m c prefix start offs total style
      = Some (text, ret, c') /\ cache_ok page_bits m c' /\
    match bytes_at byte_at m (start + offs) (total - offs) with
    | None => ret = true /\ text = prefix ++ unavailable
    | Some l => if forallb (Z.eqb 0) l then ret = false /\ text = []
                else ret = true /\ exists q, quotes max_strlen (firstn (Z.to_nat max_strlen) l) q /\
                  text = prefix ++ codes ("/* bytes " +:+ pretty offs +:+ ".." +:+ pretty (total - 1) +:+ " */ ")
                         ++ q ++ (if max_strlen <? total - offs then more_data_follows else [])
    end.
Proof.
  intros Hm Hst Hof Htot [Hc Hr Ha He Hv] Hq Hcm H0 Ho. unfold print_nonzero_bytes.
  destruct (Z.leb_spec total offs) as [Hle|Hlt].
  { eexists _, _, c. split; [done|]. split; [done|]. unfold bytes_at.
    by replace (Z.to_nat (total - offs)) with 0%nat by lia. }
  rewrite Hm, uint_small by (unfold in_uint; lia). cbn [negb].
  destruct (umoven_spec page_bits page_bits_ok narrow m c (start + offs) (total - offs) Hc ltac:(lia) ltac:(lia) He Hv)
    as (rc & l' & c' & -> & Hc' & _ & _ & Hres). cbn [mbind option_bind].
  destruct (bytes_at byte_at m (start + offs) (total - offs)) as [l|] eqn:El; [|by subst rc; eexists _, _, c'].
  destruct Hres as [-> ->]. cbn [Z.eqb negb]. unfold is_filled.
  destruct (forallb (Z.eqb 0) l); [by eexists _, _, c'|].
  pose proof (bytes_at_bytes _ _ _ _ El) as HF. apply bytes_at_Some in El as [El _]; [|lia].
  eexists _, _, c'. split; [done|]. split; [done|]. split; [done|].
  set (size := Z.min (total - offs) max_strlen). assert (Hs : 0 <= size <= max_strlen) by lia.
  unfold print_quoted_string_ex. rewrite H0, Hm, !andb_false_r. rewrite uint_small by (unfold in_uint; lia).
  replace (4 * size / 4 =? size) with true by (symmetry; apply Z.eqb_eq; rewrite Z.mul_comm; apply Z.div_mul; lia).
  cbn [negb andb]. pose proof (quote_quotes xflag max_strlen max_strlen_ok style Hq Hcm l size HF Hs) as Hqq.
  rewrite shown_all in Hqq by (done || by apply list.Forall_take).
  destruct (string_quote _ _ _ l size) as [q rc]. cbn [fst] in *. exists q. rewrite app_nil_r.
  assert (Efst : firstn (Z.to_nat size) l = firstn (Z.to_nat max_strlen) l).
  { unfold size. destruct (Z.le_ge_cases (total - offs) max_strlen); [|by rewrite Z.min_r by lia].
    rewrite Z.min_l by lia. unfold lenZ in El. rewrite !firstn_all2 by lia. done. }
  rewrite <- Efst. split; [done|]. do 3 f_equal. unfold size. bcase; done || lia.
Qed.

End correct.

(** ** Paths *)

Section paths.
Context {TM : TraceeMemory}.
Variable page_bits : Z.
Hypothesis page_bits_ok : 3 <= page_bits < 32.
Abbreviation page_size := (2 ^ page_bits).
Context {ML : MemoryLaws TM page_size}.
Variables (narrow : bool) (xflag : Z) (malloc_ok : Z -> bool) (printfilecon : list Z -> list Z).
Hypothesis malloc_succeeds : forall n, malloc_ok n = true.

Lemma print_cstring_size path size : 0 < size <= PATH_MAX ->
  fst (print_quoted_cstring xflag malloc_ok path size) =
  let '(out, rc) := string_quote (hexstr_style xflag QUOTE_0_TERMINATED) QUOTE_0_TERMINATED None path (size - 1) in
  out ++ (if negb (rc =? 0) then more_data_follows else []).
Proof.
  intros Hs. unfold PATH_MAX in Hs. unfold print_quoted_cstring, print_quoted_string_ex.
  rewrite malloc_succeeds, andb_false_r. replace (size =? 0) with false by lia.
  change (has QUOTE_0_TERMINATED QUOTE_0_TERMINATED) with true. cbn [negb andb].
  change (has QUOTE_0_TERMINATED QUOTE_EXPECT_TRAILING_0) with false. cbn [andb].
  rewrite uint_small by (unfold in_uint; lia). replace (4 * (size - 1) / 4 =? size - 1) with true
    by (symmetry; apply Z.eqb_eq; rewrite Z.mul_comm; apply Z.div_mul; lia). cbn [negb].
  destruct (string_quote _ _ _ _ _) as [out rc]. by rewrite app_nil_r.
Qed.

(** [printpathn] prints, in quotes, the path at the address in a form that
    reads back as exactly its bytes and returns its length with the NUL, or
    prints the first [n - 1] bytes followed by three dots, and returns 0, when
    there is no NUL among [n] bytes; it prints the address when a byte before
    that is not accessible, and NULL for a null pointer. *)
Theorem printpathn_correct m c path addr n :
  readable_at page_bits narrow m c addr PATH_MAX -> 0 < n -> lenZ path = PATH_MAX ->
  exists text rc c', printpathn page_size narrow xflag malloc_ok printfilecon m c path addr n = Some (text, rc, c') /\
    cache_ok page_bits m c' /\
    match string_at page_bits m addr (Z.to_nat (Z.min n PATH_MAX)) with
    | None => rc = -1 /\ text = printaddr64 addr
    | Some (l, seen) => exists q, (forall rest, unquote (q ++ rest) = Some (firstn (Z.to_nat (Z.min n PATH_MAX - 1)) l, rest)) /\
        if seen : bool then rc = lenZ l + 1 /\ exists path', firstn (length l) path' = l /\ text = q ++ printfilecon path'
        else rc = 0 /\ text = q ++ more_data_follows
    end.
Proof.
  intros [Hc Hr Ha He Hv] Hn Hp. unfold printpathn. replace (addr =? 0) with false by lia.
  replace (if PATH_MAX <? n then PATH_MAX else n) with (Z.min n PATH_MAX) by (bcase; lia).
  set (k := Z.min n PATH_MAX). assert (Hk : 0 < k <= PATH_MAX) by (unfold k, PATH_MAX; lia). clearbody k.
  assert (Hstrlen : 0 <= PATH_MAX - 1 /\ 4 * (PATH_MAX - 1) < 2 ^ 32) by done.
  destruct (umovestr_spec page_bits page_bits_ok narrow m c addr k Hc Hr ltac:(lia) ltac:(lia) ltac:(lia) Hv)
    as (rc & l' & c' & -> & Hc' & _ & Hl' & Hres). cbn [mbind option_bind].
  pose proof (scan_string page_bits m addr (Z.to_nat k)) as Hscan.
  destruct (scan page_bits m addr (Z.to_nat k)) as [[i|]|].
  - destruct Hscan as (p & -> & Hi & Hnul & Hik & Hpb). destruct Hres as (-> & l & rest & Hl & ->).
    replace (Z.of_nat i + 1) with (Z.of_nat (S i)) in * by lia.
    pose proof (bytes_at_bytes page_bits page_bits_ok m addr _ _ Hl) as HF.
    unfold bytes_at in Hl. rewrite Nat2Z.id, Hpb in Hl. injection Hl as <-. apply Forall_app in HF as [HF _].
    change (Z.of_nat (S i) <? 0) with false. change (Z.of_nat (S i) =? 0) with false. cbv iota.
    unfold store. rewrite <- !app_assoc. cbn [app]. rewrite print_cstring_size by lia.
    edestruct (quote_terminated xflag (PATH_MAX - 1) Hstrlen QUOTE_0_TERMINATED eq_refl eq_refl p)
      as (q & -> & Hq & _); [done..|unfold lenZ; lia|unfold lenZ; lia|].
    eexists _, _, c'. split; [done|]. split; [done|]. exists q.
    rewrite firstn_all2 by lia. split; [done|]. split; [unfold lenZ; lia|]. eexists. rewrite app_nil_r.
    split; [|done]. by rewrite take_app_length.
  - destruct Hscan as (l & -> & Hlb & Hnul). destruct Hres as (-> & Hres).
    pose proof (bytes_at_bytes page_bits page_bits_ok m addr _ _ Hres) as HF.
    pose proof (proj1 (bytes_at_Some byte_at m addr k l' ltac:(lia)) Hres) as [Hlen _].
    unfold bytes_at in Hres. rewrite Hlb in Hres. injection Hres as <-.
    cbn [Z.ltb Z.eqb Z.compare]. rewrite print_cstring_size by lia.
    destruct (quote_unterminated xflag (PATH_MAX - 1) Hstrlen QUOTE_0_TERMINATED eq_refl eq_refl l
      (skipn (length l) path) (k - 1)) as (q & Eq & Hq & _); try done; try lia.
    unfold store. rewrite Eq. eexists _, _, c'. split; [done|]. split; [done|]. exists q.
    split; [done|]. split; [done|]. by rewrite app_nil_r.
  - subst rc. rewrite Hscan. eexists _, _, c'. done.
Qed.
End paths.

(** ** A concrete tracee *)

(** Pages 1 to 3 of 16 bytes: the letters a, b, ... with a NUL at 46. *)
Definition letters : demo_mem := mk_mem (fun p => (1 <=? p) && (p <=? 3)) (fun a => if a =? 46 then 0 else 97 + a mod 26).


Definition demo_fresh (n : Z) : list Z := replicate (Z.to_nat n) 7.

Lemma letters_readable n : 0 <= n < 2 ^ 60 -> readable_at demo_bits false (letters : @mstate demo_memory) empty_cache 40 n.
Proof. intros Hn. split; [apply empty_cache_ok|done|lia|change (2 ^ demo_bits) with 16; lia|done]. Qed.

Lemma demo_fresh_length n : 0 <= n -> lenZ (demo_fresh n) = n.
Proof. intros. unfold demo_fresh. rewrite lenZ_replicate. lia. Qed.


Lemma printpathn_correct_witness :
  exists text rc c', printpathn (2 ^ demo_bits) false 0 (fun _ => true) (fun _ => []) (letters : @mstate demo_memory)
      empty_cache (demo_fresh PATH_MAX) 40 PATH_MAX = Some (text, rc, c') /\
    rc = 7 /\ unquote text = Some (codes "opqrst", []).
Proof.
  destruct (printpathn_correct demo_bits ltac:(vm_compute; split; congruence) false 0 (fun _ => true) (fun _ => [])
    ltac:(reflexivity) (letters : @mstate demo_memory) empty_cache (demo_fresh PATH_MAX) 40 PATH_MAX
    (letters_readable PATH_MAX ltac:(vm_compute; split; congruence)) ltac:(reflexivity) ltac:(apply demo_fresh_length; done))
    as (text & rc & c' & E & _ & q & Hq & -> & path' & _ & ->).
  exists (q ++ []), 7, c'. split; [exact E|]. split; [reflexivity|]. apply Hq.
Defined.

Lemma print_nonzero_bytes_correct_witness :
  exists text ret c', print_nonzero_bytes (2 ^ demo_bits) false 0 4 (fun _ => true) (letters : @mstate demo_memory)
      empty_cache (codes ", ") 38 2 8 0 = Some (text, ret, c') /\ ret = true.
Proof.
  destruct (print_nonzero_bytes_correct demo_bits ltac:(vm_compute; split; congruence) false 0 4 (fun _ => true)
    ltac:(lia) (letters : @mstate demo_memory) empty_cache (codes ", ") 38 2 8 0 ltac:(reflexivity) ltac:(lia) ltac:(lia) ltac:(lia)
    (letters_readable (8 - 2) ltac:(lia)) eq_refl eq_refl eq_refl eq_refl) as (text & ret & c' & E & _ & Hr & _).
  exists text, ret, c'. split; [exact E|exact Hr].
Defined.
