(* ===== verification/Style.v ===== *)
(** * Punctuation, colours and hyperlinks of the output
    (src/print_fields.c, src/color.c, src/hyperlink.c)

    Decoders print the punctuation of structures, arrays, arguments and comments
    through the functions of src/print_fields.c, which put colour sequences around
    it when colours are enabled; names of syscalls may be hyperlinks.  The file
    models these functions, the parser of STRACE_COLORS and the choice whether
    colours are enabled, and proves that the sequences are only decoration: a
    terminal that interprets them shows the text that is printed without them,
    and they do not count in the column at which the result is aligned. *)

From stdpp Require Import strings pretty.
From Stdlib Require Import Ascii.
From S2P Require Import Prelude Util Xlat Filters PrintStr.
Open Scope Z_scope.

Abbreviation text := (list Z).
Definition ESC : Z := 27.

(** ** Colours *)

Inductive color_mode_t := COLOR_NEVER | COLOR_AUTO | COLOR_ALWAYS.

Inductive color_kind_t :=
  | COLOR_ARGNAME | COLOR_ARGVAL | COLOR_CALL | COLOR_COMMENT | COLOR_CONST | COLOR_ERROR
  | COLOR_PUNCT | COLOR_RETVAL | COLOR_SYSCALL | COLOR_RESET.
#[export] Instance color_kind_eq : EqDecision color_kind_t.
Proof. solve_decision. Defined.

Definition color_keys : list (string * color_kind_t) :=
  [("ARGNAME"%string, COLOR_ARGNAME); ("ARGVAL"%string, COLOR_ARGVAL); ("CALL"%string, COLOR_CALL);
   ("COMMENT"%string, COLOR_COMMENT); ("CONST"%string, COLOR_CONST); ("ERROR"%string, COLOR_ERROR);
   ("PUNCT"%string, COLOR_PUNCT); ("RETVAL"%string, COLOR_RETVAL); ("SYSCALL"%string, COLOR_SYSCALL)].

Fixpoint find_kind (name : string) (l : list (string * color_kind_t)) : option color_kind_t :=
  match l with
  | [] => None
  | (n, k) :: l' => if strcasecmp_eq name n then Some k else find_kind name l'
  end.

(** [None] is COLOR_KIND_MAX. *)
Definition lookup_color_kind (name : string) : option color_kind_t :=
  match name with EmptyString => None | _ => find_kind name color_keys end.

Fixpoint drop_trailing (s : string) : string :=
  match s with
  | EmptyString => EmptyString
  | String c s' => match drop_trailing s' with
                   | EmptyString => if is_space c then EmptyString else String c EmptyString
                   | r => String c r
                   end
  end.
Definition trim_spaces (s : string) : string := drop_trailing (skip_spaces s).

(** The sequence for SGR parameters. *)
Definition make_sgr_seq (str : string) : text := [ESC; 91] ++ codes str ++ [109].

Definition color_seq_table_default (k : color_kind_t) : text :=
  make_sgr_seq (match k with
                | COLOR_ARGNAME => "39" | COLOR_ARGVAL => "35" | COLOR_CALL => "33" | COLOR_COMMENT => "36"
                | COLOR_CONST => "34" | COLOR_ERROR => "31" | COLOR_PUNCT => "0" | COLOR_RETVAL => "32"
                | COLOR_SYSCALL => "33" | COLOR_RESET => "0"
                end).

Fixpoint sgr_chars (s : string) : bool :=
  match s with EmptyString => true | String c s' => (is_digit c || Ascii.eqb c ";") && sgr_chars s' end.
Fixpoint has_digit (s : string) : bool :=
  match s with EmptyString => false | String c s' => is_digit c || has_digit s' end.
Definition is_sgr_seq (s : string) : bool := sgr_chars s && has_digit s.

Definition color_table : Type := color_kind_t -> text.
Definition set_color (k : color_kind_t) (seq : text) (t : color_table) : color_table := fun k' => if decide (k' = k) then seq else t k'.

(** The parts of a token before and after its first equals sign. *)
Fixpoint split_eq (s : string) : option (string * string) :=
  match s with
  | EmptyString => None
  | String c s' => if Ascii.eqb c "=" then Some (EmptyString, s')
                   else '(a, b) ← split_eq s'; Some (String c a, b)
  end.

(** The assignment of a token, if it is one. *)
Definition color_token (tok : string) : option (color_kind_t * text) :=
  '(key, val) ← split_eq tok;
  k ← lookup_color_kind (trim_spaces key);
  if is_sgr_seq (trim_spaces val) then Some (k, make_sgr_seq (trim_spaces val)) else None.

Definition parse_strace_colors (spec : option string) (t : color_table) : color_table :=
  match spec with
  | None => t
  | Some s => foldl (fun t tok => match color_token tok with Some (k, seq) => set_color k seq t | None => t end) t (strtok_all ":" s)
  end.

(** What [color_init] finds: the environment variables, and whether the output is a
    terminal.  [terminal] tells with terminfo whether a terminal has no colours;
    it is [None] where the library is not available. *)
Record environment := mk_env {
  NO_COLOR : bool; TERM : option string; STRACE_COLORS : option string; isatty : bool; terminal : option (string -> bool) }.

Definition is_no_color (e : environment) : bool :=
  if NO_COLOR e then true
  else match TERM e with
       | None | Some EmptyString => true
       | Some term => match terminal e with
                      | Some no_colors => no_colors term
                      | None => strcasecmp_eq term "dumb" || strcasecmp_eq term "unknown"
                      end
       end.

(** The table when colours are enabled. *)
Definition color_init (color_mode : color_mode_t) (e : environment) (output_separately : bool) : option color_table :=
  match color_mode with
  | COLOR_NEVER => None
  | COLOR_AUTO => if negb (isatty e) || output_separately || is_no_color e then None
                  else Some (parse_strace_colors (STRACE_COLORS e) color_seq_table_default)
  | COLOR_ALWAYS => Some (parse_strace_colors (STRACE_COLORS e) color_seq_table_default)
  end.

(** ** Hyperlinks *)

Inductive hyperlink_mode_t := HYPERLINK_NEVER | HYPERLINK_AUTO | HYPERLINK_ALWAYS.

Definition hyperlink_init (m : hyperlink_mode_t) (e : environment) (output_separately : bool) : hyperlink_mode_t :=
  match m with
  | HYPERLINK_AUTO =>
      if output_separately || negb (isatty e) then HYPERLINK_NEVER
      else match TERM e with
           | None | Some EmptyString => HYPERLINK_NEVER
           | Some term => if negb (strcasecmp_eq term "dumb") && negb (strcasecmp_eq term "unknown")
                          then HYPERLINK_ALWAYS else HYPERLINK_NEVER
           end
  | _ => m
  end.

(** What follows the first [c], if it occurs; what precedes it. *)
Fixpoint after_char (c : ascii) (s : string) : option string :=
  match s with EmptyString => None | String x s' => if Ascii.eqb x c then Some s' else after_char c s' end.
Fixpoint before_char (c : ascii) (s : string) : string :=
  match s with EmptyString => EmptyString | String x s' => if Ascii.eqb x c then EmptyString else String x (before_char c s') end.

Definition make_hyperlink_url_for_syscall (name : string) : option text :=
  if String.prefix "?" name || String.eqb name "system call" || String.prefix "syscall_0x" name then None
  else let base_name := default name (after_char ":" name) in
       Some (codes "https://man7.org/linux/man-pages/man2/" ++ codes (before_char "#" base_name) ++ codes ".2.html").

Definition osc8_prefix : text := [ESC; 93] ++ codes "8;;".
Definition osc8_st : text := [ESC; 92].

(** ** What is printed *)

(** Text that [tprints_string] prints and counts in curcol, and text that
    [tprints_string_uncol] prints and does not count. *)
Inductive piece := Counted (t : text) | Uncounted (t : text).

(** The table of colours (when they are enabled), the mode of hyperlinks and -N. *)
Record style := mk_style { colors : option color_table; links : hyperlink_mode_t; Nflag : bool }.

Definition act : Type := style -> list piece.
Definition done : act := fun _ => [].
Definition andthen (a b : act) : act := fun st => a st ++ b st.
Declare Scope act_scope.
Delimit Scope act_scope with act.
Bind Scope act_scope with act.
Notation "a ;; b" := (andthen a b) (at level 100, b at level 200, right associativity) : act_scope.
Local Open Scope act_scope.

Definition tprints_string_uncol (t : text) : act := fun _ => [Uncounted t].
Definition tprints_string (t : text) : act := fun _ => [Counted t].
Abbreviation prints s := (tprints_string (codes s)).
Definition newline : string := String "010" EmptyString.

Definition tprint_color_seq (kind : color_kind_t) : act := fun st =>
  match colors st with Some t => tprints_string_uncol (t kind) st | None => [] end.

Definition tprint_hyperlink_begin (url : option text) : act :=
  match url with
  | Some url => tprints_string_uncol osc8_prefix ;; tprints_string_uncol url ;; tprints_string_uncol osc8_st
  | None => done
  end.
Definition tprint_hyperlink_end : act := tprints_string_uncol osc8_prefix ;; tprints_string_uncol osc8_st.

(** The same into a file, for the table of -c. *)
Definition fprint_hyperlink_begin (url : text) : text := osc8_prefix ++ url ++ osc8_st.
Definition fprint_hyperlink_end : text := osc8_prefix ++ osc8_st.

Definition is_Some_b {A} (o : option A) : bool := match o with Some _ => true | None => false end.

(** The inline functions of src/print_fields.h that print. *)
Definition tprint_shift : act := prints "<<".
Definition tprint_plus : act := prints "+".
Definition tprint_space : act := prints " ".
Definition tprint_null : act := prints "NULL".
Definition tprint_sysret_pseudo_rval : act := prints "?".

(** The functions of src/print_fields.c. *)
Definition tprint_struct_begin : act :=
  tprint_color_seq COLOR_PUNCT ;; prints "{" ;; tprint_color_seq COLOR_ARGVAL.
Definition tprint_struct_next : act :=
  tprint_color_seq COLOR_PUNCT ;; prints ", " ;; tprint_color_seq COLOR_ARGVAL.
Definition tprint_struct_end : act :=
  tprint_color_seq COLOR_PUNCT ;; prints "}" ;; tprint_color_seq COLOR_ARGVAL.
Definition tprint_union_begin : act :=
  tprint_color_seq COLOR_PUNCT ;; prints "{" ;; tprint_color_seq COLOR_ARGVAL.
Definition tprint_union_next : act :=
  tprint_color_seq COLOR_PUNCT ;; prints ", " ;; tprint_color_seq COLOR_ARGVAL.
Definition tprint_union_end : act :=
  tprint_color_seq COLOR_PUNCT ;; prints "}" ;; tprint_color_seq COLOR_ARGVAL.
Definition tprint_array_begin : act :=
  tprint_color_seq COLOR_PUNCT ;; prints "[" ;; tprint_color_seq COLOR_ARGVAL.
Definition tprint_array_next : act :=
  tprint_color_seq COLOR_PUNCT ;; prints ", " ;; tprint_color_seq COLOR_ARGVAL.
Definition tprint_array_end : act :=
  tprint_color_seq COLOR_PUNCT ;; prints "]" ;; tprint_color_seq COLOR_ARGVAL.
Definition tprint_array_index_begin : act :=
  tprint_color_seq COLOR_PUNCT ;; prints "[" ;; tprint_color_seq COLOR_ARGVAL.
Definition tprint_array_index_equal : act :=
  tprint_color_seq COLOR_PUNCT ;; prints "]=" ;; tprint_color_seq COLOR_ARGVAL.
Definition tprints_syscall_name (name : option string) : act := fun st =>
  match name with
  | None => prints "system call" st
  | Some name =>
      match links st with
      | HYPERLINK_ALWAYS => match make_hyperlink_url_for_syscall name with
                            | None => prints name st
                            | Some url => (tprint_hyperlink_begin (Some url) ;; prints name ;; tprint_hyperlink_end) st
                            end
      | _ => prints name st
      end
  end.
Definition tprints_arg_begin (name : option string) : act :=
  tprint_color_seq COLOR_SYSCALL ;; tprints_syscall_name name ;; tprint_color_seq COLOR_PUNCT ;; prints "(" ;; tprint_color_seq COLOR_ARGVAL.
Definition tprint_arg_next : act :=
  tprint_color_seq COLOR_PUNCT ;; prints ", " ;; tprint_color_seq COLOR_ARGVAL.
Definition tprint_arg_end : act :=
  tprint_color_seq COLOR_PUNCT ;; prints ")" ;; tprint_color_seq COLOR_RESET.
Definition tprints_arg_name_unconditionally (name : string) : act :=
  tprint_color_seq COLOR_ARGNAME ;; prints name ;; tprint_color_seq COLOR_PUNCT ;; prints "=" ;; tprint_color_seq COLOR_ARGVAL.
Definition tprints_arg_next_name_unconditionally (name : string) : act :=
  tprint_arg_next ;; tprints_arg_name_unconditionally name.
Definition tprints_arg_name (name : string) : act := fun st => if Nflag st then tprints_arg_name_unconditionally name st else [].
Definition tprints_arg_next_name (name : string) : act :=
  tprint_arg_next ;; tprints_arg_name name.
Definition tprints_fn_begin (name : string) : act :=
  tprint_color_seq COLOR_CALL ;; prints name ;; tprint_color_seq COLOR_PUNCT ;; prints "(" ;; tprint_color_seq COLOR_ARGVAL.
Definition tprint_fn_next : act :=
  tprint_color_seq COLOR_PUNCT ;; prints ", " ;; tprint_color_seq COLOR_ARGVAL.
Definition tprint_fn_end : act :=
  tprint_color_seq COLOR_PUNCT ;; prints ")" ;; tprint_color_seq COLOR_RESET.
Definition tprint_bitset_begin : act :=
  tprint_color_seq COLOR_PUNCT ;; prints "[" ;; tprint_color_seq COLOR_ARGVAL.
Definition tprint_bitset_next : act :=
  tprint_color_seq COLOR_PUNCT ;; prints " " ;; tprint_color_seq COLOR_ARGVAL.
Definition tprint_bitset_end : act :=
  tprint_color_seq COLOR_PUNCT ;; prints "]" ;; tprint_color_seq COLOR_ARGVAL.
Definition tprint_comment_begin : act :=
  tprint_color_seq COLOR_COMMENT ;; prints " /* ".
Definition tprint_comment_end : act :=
  tprint_color_seq COLOR_COMMENT ;; prints " */" ;; tprint_color_seq COLOR_ARGVAL.
Definition tprint_indirect_begin : act :=
  tprint_color_seq COLOR_PUNCT ;; prints "[" ;; tprint_color_seq COLOR_ARGVAL.
Definition tprint_indirect_end : act :=
  tprint_color_seq COLOR_PUNCT ;; prints "]" ;; tprint_color_seq COLOR_ARGVAL.
Definition tprint_attribute_begin : act :=
  tprint_color_seq COLOR_PUNCT ;; prints "[" ;; tprint_color_seq COLOR_ARGVAL.
Definition tprint_attribute_end : act :=
  tprint_color_seq COLOR_PUNCT ;; prints "]" ;; tprint_color_seq COLOR_ARGVAL.
Definition tprint_associated_info_begin : act :=
  tprint_color_seq COLOR_PUNCT ;; prints "<" ;; tprint_color_seq COLOR_ARGVAL.
Definition tprint_associated_info_end : act :=
  tprint_color_seq COLOR_PUNCT ;; prints ">" ;; tprint_color_seq COLOR_ARGVAL.
Definition tprint_more_data_follows : act :=
  tprint_color_seq COLOR_PUNCT ;; prints "..." ;; tprint_color_seq COLOR_ARGVAL.
Definition tprint_value_changed : act :=
  tprint_color_seq COLOR_PUNCT ;; prints " => " ;; tprint_color_seq COLOR_ARGVAL.
Definition tprint_alternative_value : act :=
  tprint_color_seq COLOR_PUNCT ;; prints " or " ;; tprint_color_seq COLOR_ARGVAL.
Definition tprint_unavailable : act :=
  tprint_color_seq COLOR_ERROR ;; prints "???" ;; tprint_color_seq COLOR_ARGVAL.
Definition tprint_flags_or : act :=
  tprint_color_seq COLOR_PUNCT ;; prints "|" ;; tprint_color_seq COLOR_ARGVAL.
Definition tprint_newline : act :=
  tprint_color_seq COLOR_RESET ;; prints newline.
Definition tprints_field_name (name : string) : act :=
  tprint_color_seq COLOR_ARGNAME ;; prints name ;; tprint_color_seq COLOR_PUNCT ;; prints "=" ;; tprint_color_seq COLOR_ARGVAL.
Definition tprint_sysret_begin : act :=
  tprint_color_seq COLOR_PUNCT ;; prints "=" ;; tprint_color_seq COLOR_RESET.
Definition is_error_name (name : option string) : bool :=
  match name with
  | Some n => String.eqb n "error" || String.eqb n "errno" || String.eqb n "strerror"
  | None => false
  end.
Definition tprints_sysret_next (name : option string) : act := fun st =>
  (tprint_color_seq COLOR_RESET ;; tprint_space ;;
   if is_Some_b (colors st) && is_error_name name then tprint_color_seq COLOR_ERROR else tprint_color_seq COLOR_RETVAL) st.
Definition tprints_sysret_string (name : option string) (str : string) : act :=
  tprints_sysret_next name ;; prints ("(" +:+ str +:+ ")").
Definition tprint_sysret_end : act :=
  tprint_color_seq COLOR_RESET.

(** src/strace.c: a comment is printed only if there is one. *)
Definition tprints_comment (str : option text) : act :=
  match str with
  | None | Some [] => done
  | Some str => tprint_comment_begin ;; tprints_string str ;; tprint_comment_end
  end.


(** A call of one of these functions, or of the functions of src/strace.c that print text and comments. *)
Inductive call :=
  | call_tprint_struct_begin
  | call_tprint_struct_next
  | call_tprint_struct_end
  | call_tprint_union_begin
  | call_tprint_union_next
  | call_tprint_union_end
  | call_tprint_array_begin
  | call_tprint_array_next
  | call_tprint_array_end
  | call_tprint_array_index_begin
  | call_tprint_array_index_equal
  | call_tprints_syscall_name (name : option string)
  | call_tprints_arg_begin (name : option string)
  | call_tprint_arg_next
  | call_tprint_arg_end
  | call_tprints_arg_name_unconditionally (name : string)
  | call_tprints_arg_next_name_unconditionally (name : string)
  | call_tprints_arg_name (name : string)
  | call_tprints_arg_next_name (name : string)
  | call_tprints_fn_begin (name : string)
  | call_tprint_fn_next
  | call_tprint_fn_end
  | call_tprint_bitset_begin
  | call_tprint_bitset_next
  | call_tprint_bitset_end
  | call_tprint_comment_begin
  | call_tprint_comment_end
  | call_tprint_indirect_begin
  | call_tprint_indirect_end
  | call_tprint_attribute_begin
  | call_tprint_attribute_end
  | call_tprint_associated_info_begin
  | call_tprint_associated_info_end
  | call_tprint_more_data_follows
  | call_tprint_value_changed
  | call_tprint_alternative_value
  | call_tprint_unavailable
  | call_tprint_flags_or
  | call_tprint_newline
  | call_tprints_field_name (name : string)
  | call_tprint_sysret_begin
  | call_tprints_sysret_next (name : option string)
  | call_tprints_sysret_string (name : option string) (str : string)
  | call_tprint_sysret_end
  | call_tprint_shift
  | call_tprint_plus
  | call_tprint_space
  | call_tprint_null
  | call_tprint_sysret_pseudo_rval
  | call_tprints_string (str : text)
  | call_tprints_comment (str : option text).

Definition perform (c : call) : act :=
  match c with
  | call_tprint_struct_begin => tprint_struct_begin
  | call_tprint_struct_next => tprint_struct_next
  | call_tprint_struct_end => tprint_struct_end
  | call_tprint_union_begin => tprint_union_begin
  | call_tprint_union_next => tprint_union_next
  | call_tprint_union_end => tprint_union_end
  | call_tprint_array_begin => tprint_array_begin
  | call_tprint_array_next => tprint_array_next
  | call_tprint_array_end => tprint_array_end
  | call_tprint_array_index_begin => tprint_array_index_begin
  | call_tprint_array_index_equal => tprint_array_index_equal
  | call_tprints_syscall_name name => tprints_syscall_name name
  | call_tprints_arg_begin name => tprints_arg_begin name
  | call_tprint_arg_next => tprint_arg_next
  | call_tprint_arg_end => tprint_arg_end
  | call_tprints_arg_name_unconditionally name => tprints_arg_name_unconditionally name
  | call_tprints_arg_next_name_unconditionally name => tprints_arg_next_name_unconditionally name
  | call_tprints_arg_name name => tprints_arg_name name
  | call_tprints_arg_next_name name => tprints_arg_next_name name
  | call_tprints_fn_begin name => tprints_fn_begin name
  | call_tprint_fn_next => tprint_fn_next
  | call_tprint_fn_end => tprint_fn_end
  | call_tprint_bitset_begin => tprint_bitset_begin
  | call_tprint_bitset_next => tprint_bitset_next
  | call_tprint_bitset_end => tprint_bitset_end
  | call_tprint_comment_begin => tprint_comment_begin
  | call_tprint_comment_end => tprint_comment_end
  | call_tprint_indirect_begin => tprint_indirect_begin
  | call_tprint_indirect_end => tprint_indirect_end
  | call_tprint_attribute_begin => tprint_attribute_begin
  | call_tprint_attribute_end => tprint_attribute_end
  | call_tprint_associated_info_begin => tprint_associated_info_begin
  | call_tprint_associated_info_end => tprint_associated_info_end
  | call_tprint_more_data_follows => tprint_more_data_follows
  | call_tprint_value_changed => tprint_value_changed
  | call_tprint_alternative_value => tprint_alternative_value
  | call_tprint_unavailable => tprint_unavailable
  | call_tprint_flags_or => tprint_flags_or
  | call_tprint_newline => tprint_newline
  | call_tprints_field_name name => tprints_field_name name
  | call_tprint_sysret_begin => tprint_sysret_begin
  | call_tprints_sysret_next name => tprints_sysret_next name
  | call_tprints_sysret_string name str => tprints_sysret_string name str
  | call_tprint_sysret_end => tprint_sysret_end
  | call_tprint_shift => tprint_shift
  | call_tprint_plus => tprint_plus
  | call_tprint_space => tprint_space
  | call_tprint_null => tprint_null
  | call_tprint_sysret_pseudo_rval => tprint_sysret_pseudo_rval
  | call_tprints_string str => tprints_string str
  | call_tprints_comment str => tprints_comment str
  end.

(** The strings a call is given. *)
Definition strings_of (c : call) : list text :=
  match c with
  | call_tprints_syscall_name name => option_list (codes <$> name)
  | call_tprints_arg_begin name => option_list (codes <$> name)
  | call_tprints_arg_name_unconditionally name => [codes name]
  | call_tprints_arg_next_name_unconditionally name => [codes name]
  | call_tprints_arg_name name => [codes name]
  | call_tprints_arg_next_name name => [codes name]
  | call_tprints_fn_begin name => [codes name]
  | call_tprints_field_name name => [codes name]
  | call_tprints_sysret_next name => option_list (codes <$> name)
  | call_tprints_sysret_string name str => option_list (codes <$> name) ++ [codes str]
  | call_tprints_string str => [str]
  | call_tprints_comment str => option_list str
  | _ => []
  end.

(** The output of a sequence of calls: the bytes, and the growth of curcol. *)
Definition perform_all (l : list call) (st : style) : list piece := l ≫= (fun c => perform c st).
Definition bytes (l : list piece) : text := l ≫= (fun p => match p with Counted t | Uncounted t => t end).
Definition column (l : list piece) : Z := foldr (fun p n => match p with Counted t => lenZ t | Uncounted _ => 0 end + n) 0 l.

(** ** The terminal *)

(** What a terminal shows (ECMA-48): control sequences (CSI) end with a byte of
    0x40..0x7e, operating system commands (OSC) with BEL or with ESC \. *)
Inductive tstate := Ground | Escape | Csi | Osc | OscEscape.

Definition BEL : Z := 7.
Definition escape_step (c : Z) : tstate := if c =? 91 then Csi else if c =? 93 then Osc else Ground.
Definition tstep (q : tstate) (c : Z) : tstate * text :=
  match q with
  | Ground => if c =? ESC then (Escape, []) else (Ground, [c])
  | Escape => (escape_step c, [])
  | Csi => (if c =? ESC then Escape else if (64 <=? c) && (c <=? 126) then Ground else Csi, [])
  | Osc => (if c =? BEL then Ground else if c =? ESC then OscEscape else Osc, [])
  | OscEscape => (escape_step c, [])
  end.
Fixpoint shown (q : tstate) (t : text) : tstate * text :=
  match t with
  | [] => (q, [])
  | c :: t' => let '(q1, o1) := tstep q c in let '(q2, o2) := shown q1 t' in (q2, o1 ++ o2)
  end.

(** Text without the bytes that begin an escape sequence or end a hyperlink. *)
Definition plain_byte (c : Z) : Prop := c <> ESC /\ c <> BEL.
Definition plain_text (t : text) : Prop := Forall plain_byte t.

(** An SGR sequence, with parameters that are digits and semicolons. *)
Definition sgr (t : text) : Prop := exists s, is_sgr_seq s = true /\ t = make_sgr_seq s.
Definition style_ok (st : style) : Prop := forall t k, colors st = Some t -> sgr (t k).

(** The same options without colours and hyperlinks. *)
Definition undecorated (st : style) : style := mk_style None HYPERLINK_NEVER (Nflag st).

(** ** Lemmas *)

Lemma shown_app q a b : shown q (a ++ b) = let '(q1, o1) := shown q a in let '(q2, o2) := shown q1 b in (q2, o1 ++ o2).
Proof.
  revert q; induction a as [|c a IH]; intros q; cbn [shown app].
  - by destruct (shown q b).
  - destruct (tstep q c) as [q1 o1]. rewrite IH. destruct (shown q1 a) as [q2 o2], (shown q2 b) as [q3 o3]. by rewrite app_assoc.
Qed.

Lemma shown_then q a q1 o1 b q2 o2 :
  shown q a = (q1, o1) -> shown q1 b = (q2, o2) -> shown q (a ++ b) = (q2, o1 ++ o2).
Proof. intros Ha Hb. by rewrite shown_app, Ha, Hb. Qed.

Lemma shown_plain_text t : Forall plain_byte t -> shown Ground t = (Ground, t).
Proof.
  induction 1 as [|c t [Hc _] _ IH]; [done|]. cbn [shown tstep]. rewrite (proj2 (Z.eqb_neq _ _) Hc), IH. done.
Qed.

Lemma shown_osc t : Forall plain_byte t -> shown Osc t = (Osc, []).
Proof.
  induction 1 as [|c t [Hc Hb] _ IH]; [done|]. cbn [shown tstep].
  rewrite (proj2 (Z.eqb_neq _ _) Hc), (proj2 (Z.eqb_neq _ _) Hb), IH. done.
Qed.

(** Bytes of SGR parameters: they neither begin nor end a control sequence. *)
Lemma shown_sgr_chars s r : sgr_chars s = true -> shown Csi (codes s ++ r) = shown Csi r.
Proof.
  induction s as [|c s IH]; intros Hs; [done|]. cbn in Hs. apply andb_true_iff in Hs as [Hc Hs].
  cbn [codes app shown tstep].
  assert (E : (if code_of c =? ESC then Escape else if (64 <=? code_of c) && (code_of c <=? 126) then Ground else Csi) = Csi).
  { apply orb_true_iff in Hc as [Hc | Hc].
    - unfold is_digit in Hc. apply andb_true_iff in Hc as [H1%Z.leb_le H2%Z.leb_le].
      rewrite (proj2 (Z.eqb_neq _ _)) by (unfold ESC; lia). rewrite (proj2 (Z.leb_gt _ _)) by lia. done.
    - apply Ascii.eqb_eq in Hc as ->. done. }
  unfold code_of in E. rewrite E, IH by done. by destruct (shown Csi r).
Qed.

Lemma shown_sgr t : sgr t -> shown Ground t = (Ground, []).
Proof.
  intros (s & Hs & ->). unfold is_sgr_seq in Hs. apply andb_true_iff in Hs as [Hs _].
  unfold make_sgr_seq. change ([ESC; 91] ++ codes s ++ [109]) with (ESC :: 91 :: (codes s ++ [109])).
  cbn [shown tstep]. rewrite Z.eqb_refl. cbn [shown tstep]. change (escape_step 91) with Csi.
  by rewrite shown_sgr_chars.
Qed.

(** ** Decoration

    [Decorated st a]: with the colours and hyperlinks of [st] a terminal shows what
    [a] prints without them, in the same number of columns. *)
Class Decorated (st : style) (a : act) : Prop :=
  decorated : shown Ground (bytes (a st)) = (Ground, bytes (a (undecorated st))) /\
              column (a st) = column (a (undecorated st)).

Lemma bytes_app a b : bytes (a ++ b) = bytes a ++ bytes b.
Proof. apply bind_app. Qed.
Lemma column_app a b : column (a ++ b) = column a + column b.
Proof. unfold column. induction a as [|p a IH]; cbn; [done|]. rewrite IH. lia. Qed.

Lemma bytes_uncol t st : bytes (tprints_string_uncol t st) = t.
Proof. apply app_nil_r. Qed.

#[export] Instance done_decorated st : Decorated st done.
Proof. done. Qed.

#[export] Instance andthen_decorated st a b : Decorated st a -> Decorated st b -> Decorated st (a ;; b).
Proof.
  intros [Ha1 Ha2] [Hb1 Hb2]. unfold Decorated, andthen. rewrite !bytes_app, !column_app, shown_app, Ha1, Hb1. split; [done | lia].
Qed.

Lemma string_decorated st s : plain_text s -> Decorated st (tprints_string s).
Proof. intros Hs. split; [|done]. cbn. rewrite !app_nil_r. by apply shown_plain_text. Qed.

Lemma color_decorated st k : style_ok st -> Decorated st (tprint_color_seq k).
Proof.
  intros Hok. unfold Decorated, tprint_color_seq. destruct (colors st) as [t|] eqn:E; cbn; [|done].
  rewrite app_nil_r. split; [|done]. by apply shown_sgr, Hok.
Qed.

(** A hyperlink around an action that prints its text. *)
Lemma hyperlink_decorated st url a : Forall plain_byte url -> Decorated st a ->
  shown Ground (bytes ((tprint_hyperlink_begin (Some url) ;; a ;; tprint_hyperlink_end) st)) = (Ground, bytes (a (undecorated st))) /\
  column ((tprint_hyperlink_begin (Some url) ;; a ;; tprint_hyperlink_end) st) = column (a (undecorated st)).
Proof.
  intros Hu [Ha1 Ha2]. unfold andthen, tprint_hyperlink_begin, tprint_hyperlink_end, andthen.
  rewrite !bytes_app, !column_app, !bytes_uncol. split; [|cbn; lia].
  assert (E1 : shown Ground osc8_prefix = (Osc, [])) by done. assert (E2 : shown Osc osc8_st = (Ground, [])) by done.
  rewrite <- (app_nil_r (bytes (a (undecorated st)))).
  apply (shown_then _ _ Ground []); [|by apply (shown_then _ _ Ground); [|apply (shown_then _ _ Osc [])]].
  apply (shown_then _ _ Osc []); [done | apply (shown_then _ _ Osc []); [by apply shown_osc | done]].
Qed.

Ltac plain_literal := unfold plain_text; cbn; repeat (constructor; [split; discriminate|]); constructor.

Lemma codes_sub (P : Z -> Prop) s : Forall P (codes s) ->
  (forall c, Forall P (codes (before_char c s))) /\ (forall c r, after_char c s = Some r -> Forall P (codes r)).
Proof.
  induction s as [|x s IH]; cbn; intros H; [by split; [constructor|]|].
  apply list.Forall_cons in H as [Hx H]. destruct (IH H) as [IH1 IH2]. split.
  - intros c. destruct (Ascii.eqb x c); cbn; [constructor | by constructor].
  - intros c r. destruct (Ascii.eqb x c); [by intros [= <-] | apply IH2].
Qed.

Lemma url_plain name url : plain_text (codes name) -> make_hyperlink_url_for_syscall name = Some url -> Forall plain_byte url.
Proof.
  unfold make_hyperlink_url_for_syscall, plain_text. intros Hn.
  destruct (_ || _); [done|]. intros E0. apply (inj Some) in E0 as <-.
  assert (Hb : Forall plain_byte (codes (default name (after_char ":" name)))).
  { destruct (after_char ":" name) as [r|] eqn:E; cbn; [by eapply codes_sub | done]. }
  apply list.Forall_app; split; [|apply list.Forall_app; split].
  - plain_literal.
  - by apply codes_sub.
  - plain_literal.
Qed.

#[export] Instance syscall_name_decorated st name :
  Forall plain_text (option_list (codes <$> name)) -> Decorated st (tprints_syscall_name name).
Proof.
  intros Hn. destruct name as [name|]; cbn in Hn; [|apply (string_decorated st (codes "system call")); plain_literal].
  apply list.Forall_cons in Hn as [Hn _]. pose proof (string_decorated st (codes name) Hn) as D.
  unfold Decorated, tprints_syscall_name. cbn [links undecorated].
  destruct (links st); try exact D. destruct (make_hyperlink_url_for_syscall name) as [url|] eqn:E; [|exact D].
  apply hyperlink_decorated; [by eapply url_plain | exact D].
Qed.

Lemma codes_app a b : codes (a +:+ b) = codes a ++ codes b.
Proof. induction a as [|c a IH]; [done|]. change (String c a +:+ b) with (String c (a +:+ b)). cbn. by rewrite IH. Qed.

Lemma plain_app a b : plain_text a -> plain_text b -> plain_text (a ++ b).
Proof. intros. by apply list.Forall_app. Qed.

Ltac plain_names :=
  repeat match goal with
         | H : Forall plain_text (_ :: _) |- _ => apply list.Forall_cons in H as [??]
         | H : Forall plain_text (_ ++ _) |- _ => apply list.Forall_app in H as [??]
         end.
Ltac decorate :=
  repeat first [ apply andthen_decorated | apply color_decorated; assumption | apply syscall_name_decorated; assumption
               | apply string_decorated; first [assumption | plain_literal | rewrite !codes_app; repeat apply plain_app; first [assumption | plain_literal]] ].

Lemma arg_name_decorated st name : style_ok st -> plain_text (codes name) -> Decorated st (tprints_arg_name name).
Proof.
  intros Hok Hn. assert (D : Decorated st (tprints_arg_name_unconditionally name)) by (unfold tprints_arg_name_unconditionally; decorate).
  unfold Decorated, tprints_arg_name. cbn [Nflag undecorated]. destruct (Nflag st); [exact D | done].
Qed.

Lemma sysret_next_decorated st name : style_ok st -> Decorated st (tprints_sysret_next name).
Proof.
  intros Hok.
  assert (D : forall k, Decorated st (tprint_color_seq COLOR_RESET ;; tprint_space ;; tprint_color_seq k))
    by (intros; unfold tprint_space; decorate).
  unfold Decorated, tprints_sysret_next in *. destruct (is_Some_b _ && _); [apply (D COLOR_ERROR) | apply (D COLOR_RETVAL)].
Qed.

Ltac unfold_head := match goal with |- Decorated _ ?a => let h := get_head a in unfold h end.

Lemma call_decorated st c : style_ok st -> Forall plain_text (strings_of c) -> Decorated st (perform c).
Proof.
  intros Hok Hs. destruct c; cbn [perform strings_of] in *; plain_names;
    first [ by apply syscall_name_decorated | by apply arg_name_decorated | by apply sysret_next_decorated
          | by apply string_decorated | idtac ];
    try (unfold_head; decorate; fail).
  - unfold tprints_arg_next_name, tprint_arg_next. decorate. by apply arg_name_decorated.
  - apply andthen_decorated; [by apply sysret_next_decorated | decorate].
  - destruct str as [[|c str]|]; [done | | done]. cbn in Hs. plain_names.
    unfold tprints_comment, tprint_comment_begin, tprint_comment_end. decorate.
Qed.

Lemma perform_all_decorated st l : style_ok st -> Forall (fun c => Forall plain_text (strings_of c)) l -> Decorated st (perform_all l).
Proof.
  intros Hok. induction 1 as [|c l Hc _ IH]; [done|].
  apply (andthen_decorated st (perform c) (perform_all l)); [by apply call_decorated | exact IH].
Qed.

(** ** The table of colours *)

Lemma default_sgr k : sgr (color_seq_table_default k).
Proof. destruct k; eexists; (split; [|reflexivity]); reflexivity. Qed.

Lemma color_token_sgr tok k seq : color_token tok = Some (k, seq) -> sgr seq.
Proof.
  unfold color_token. destruct (split_eq tok) as [[key val]|]; [|done]. cbn.
  destruct (lookup_color_kind _) as [k'|]; [|done]. cbn. destruct (is_sgr_seq (trim_spaces val)) eqn:E; [|done].
  intros [= _ <-]. by eexists.
Qed.

Lemma parse_strace_colors_sgr spec t : (forall k, sgr (t k)) -> forall k, sgr (parse_strace_colors spec t k).
Proof.
  destruct spec as [s|]; [|done]. cbn. generalize (strtok_all ":" s) as l. intros l.
  revert t; induction l as [|tok l IH]; intros t Ht; cbn; [done|]. apply IH.
  destruct (color_token tok) as [[k seq]|] eqn:E; [|done].
  intros k'. unfold set_color. case_decide; [by eapply color_token_sgr | apply Ht].
Qed.

Lemma color_init_sgr m e sep t k : color_init m e sep = Some t -> sgr (t k).
Proof.
  intros H. assert (t = parse_strace_colors (STRACE_COLORS e) color_seq_table_default) as ->.
  { destruct m; cbn in H; [done | destruct (_ || _); [done|] | ]; by injection H as <-. }
  apply parse_strace_colors_sgr, default_sgr.
Qed.

(** ** Assignments of colours *)

Fixpoint join (sep : ascii) (l : list string) : string :=
  match l with
  | [] => EmptyString
  | [s] => s
  | s :: l' => s +:+ String sep (join sep l')
  end.

Lemma fields_cons_token sep tok r : strchr tok sep = false ->
  fields sep (tok +:+ String sep r) = tok :: fields sep r.
Proof.
  induction tok as [|c tok IH]; cbn; intros H.
  - change ((EmptyString +:+ String sep r)) with (String sep r). cbn. by rewrite Ascii.eqb_refl.
  - apply orb_false_iff in H as [Hc H]. change (String c tok +:+ ?x) with (String c (tok +:+ x)). cbn.
    rewrite Ascii.eqb_sym, Hc, IH by done. done.
Qed.

Lemma fields_token sep tok : strchr tok sep = false -> fields sep tok = [tok].
Proof.
  induction tok as [|c tok IH]; cbn; intros H; [done|]. apply orb_false_iff in H as [Hc H]. by rewrite Ascii.eqb_sym, Hc, IH.
Qed.

Lemma strtok_join sep l : Forall (fun t => t <> EmptyString /\ strchr t sep = false) l -> strtok_all sep (join sep l) = l.
Proof.
  unfold strtok_all. induction 1 as [|t l [Ht Hs] Hl IH]; [done|]. apply String.eqb_neq in Ht.
  destruct l as [|t' l]; cbn [join].
  - rewrite fields_token by done. cbn. by rewrite Ht.
  - rewrite fields_cons_token by done. cbn [List.filter]. rewrite Ht. cbn [negb]. f_equal. exact IH.
Qed.

(** The key that names a kind of colours; there is none for the sequence that resets. *)
Definition key_of (k : color_kind_t) : string :=
  match List.find (fun '(_, k') => bool_decide (k' = k)) color_keys with Some (n, _) => n | None => EmptyString end.

Definition assignment (a : color_kind_t * string) : string := key_of a.1 +:+ "=" +:+ a.2.

Lemma sgr_trim v : sgr_chars v = true -> trim_spaces v = v.
Proof.
  intros Hv.
  assert (Hsp : forall c, (is_digit c || Ascii.eqb c ";") = true -> is_space c = false).
  { intros c Hc. destruct c as [[] [] [] [] [] [] [] []]; vm_compute in Hc |- *; congruence. }
  assert (Hd : drop_trailing v = v).
  { clear - Hv Hsp. induction v as [|c v IH]; [done|]. cbn in Hv |- *. apply andb_true_iff in Hv as [Hc Hv].
    rewrite IH by done. destruct v; [by rewrite Hsp | done]. }
  unfold trim_spaces. replace (skip_spaces v) with v; [done|].
  destruct v as [|c v]; [done|]. cbn in Hv |- *. apply andb_true_iff in Hv as [Hc _]. by rewrite Hsp.
Qed.

Lemma split_eq_key key v : strchr key "=" = false -> split_eq (key +:+ "=" +:+ v) = Some (key, v).
Proof.
  induction key as [|c key IH]; intros H; [done|]. cbn [strchr] in H. apply orb_false_iff in H as [Hc H].
  change (String c key +:+ ?x) with (String c (key +:+ x)). cbn [split_eq]. rewrite Ascii.eqb_sym, Hc, IH by done. done.
Qed.

Lemma color_token_assignment k v : k <> COLOR_RESET -> is_sgr_seq v = true ->
  color_token (assignment (k, v)) = Some (k, make_sgr_seq v).
Proof.
  intros Hk Hv. pose proof Hv as Hv'. unfold is_sgr_seq in Hv'. apply andb_true_iff in Hv' as [Hc _].
  unfold color_token, assignment. cbn [fst snd].
  rewrite split_eq_key by (destruct k; done). cbn [mbind option_bind].
  rewrite (sgr_trim v Hc), Hv. destruct k; done.
Qed.

Lemma assignment_token k v : k <> COLOR_RESET -> is_sgr_seq v = true ->
  assignment (k, v) <> EmptyString /\ strchr (assignment (k, v)) ":" = false.
Proof.
  intros Hk Hv. unfold is_sgr_seq in Hv. apply andb_true_iff in Hv as [Hc _].
  assert (H : strchr v ":" = false).
  { clear - Hc. induction v as [|c v IH]; [done|]. cbn [sgr_chars strchr] in Hc |- *. apply andb_true_iff in Hc as [Hc Hv].
    rewrite IH by done. destruct (Ascii.eqb_spec ":" c) as [<-|]; done. }
  unfold assignment. destruct k; try done; (split; [discriminate|]); cbn; exact H.
Qed.

(** C33: decoration changes nothing of what is read.  Whatever --color, --hyperlink
    and the environment (NO_COLOR, TERM, STRACE_COLORS) say, a terminal that
    interprets escape sequences shows, for any sequence of calls of the functions
    that print punctuation, names, comments and text, exactly the text printed
    without colours and hyperlinks; it is back in its ground state after them; and
    the column counted for the alignment of results is the same. *)
Theorem decoration_transparent (cm : color_mode_t) (hm : hyperlink_mode_t) (e : environment) (sep N : bool) (l : list call) :
  Forall (fun c => Forall plain_text (strings_of c)) l ->
  let st := mk_style (color_init cm e sep) (hyperlink_init hm e sep) N in
  let plain := mk_style None HYPERLINK_NEVER N in
  shown Ground (bytes (perform_all l st)) = (Ground, bytes (perform_all l plain)) /\
  column (perform_all l st) = column (perform_all l plain).
Proof.
  intros Hl st plain. apply (perform_all_decorated st l); [|done]. intros t k Ht. exact (color_init_sgr _ _ _ _ k Ht).
Qed.

Lemma decoration_transparent_witness :
  let st := mk_style (color_init COLOR_ALWAYS (mk_env false (Some "xterm"%string) (Some "punct=1;30"%string) true None) false) HYPERLINK_ALWAYS false in
  let l := [call_tprints_arg_begin (Some "n32:openat#64"%string); call_tprints_string (codes "AT_FDCWD"); call_tprint_arg_end] in
  bytes (perform_all l st) <> codes "n32:openat#64(AT_FDCWD)" /\
  shown Ground (bytes (perform_all l st)) = (Ground, codes "n32:openat#64(AT_FDCWD)").
Proof.
  intros st l. split; [by vm_compute|].
  destruct (decoration_transparent COLOR_ALWAYS HYPERLINK_ALWAYS
              (mk_env false (Some "xterm"%string) (Some "punct=1;30"%string) true None) false false l) as [H _];
    [|exact H].
  repeat (constructor; [repeat (constructor; [plain_literal|]); constructor|]). constructor.
Defined.

(** STRACE_COLORS is read back.  A list of assignments of SGR parameters to
    kinds of colours, printed with the names of the kinds and separated by colons,
    sets exactly the sequences of these kinds, the last assignment of a kind being
    the one that counts, and no other sequence. *)
Theorem strace_colors_roundtrip (l : list (color_kind_t * string)) (t : color_table) :
  Forall (fun a => a.1 <> COLOR_RESET /\ is_sgr_seq a.2 = true) l ->
  parse_strace_colors (Some (join ":" (assignment <$> l))) t =
  foldl (fun t a => set_color a.1 (make_sgr_seq a.2) t) t l.
Proof.
  intros Hl. unfold parse_strace_colors. rewrite strtok_join.
  2: { apply Forall_fmap. eapply list.Forall_impl; [exact Hl|]. intros [k v] [H1 H2]. by apply assignment_token. }
  revert t. induction Hl as [|[k v] l [H1 H2] _ IH]; intros t; [done|]. cbn [fmap list_fmap foldl].
  rewrite color_token_assignment by done. apply IH.
Qed.

Lemma strace_colors_roundtrip_witness :
  parse_strace_colors (Some "ERROR=1;31:ERROR=35"%string) color_seq_table_default COLOR_ERROR = make_sgr_seq "35".
Proof.
  refine (f_equal (fun f => f COLOR_ERROR) (strace_colors_roundtrip [(COLOR_ERROR, "1;31"%string); (COLOR_ERROR, "35"%string)] color_seq_table_default _)).
  repeat constructor; discriminate.
Defined.
