(* ===== verification/Dump.v ===== *)
(** * Hexadecimal dumps of a tracee's memory (src/util.c)

    [dumpstr] shows a block of memory in lines of 16 bytes, fetched in pieces of
    at most 64 KB into a buffer that is kept for the next call, each line formed
    in a static line buffer; [dumpiov_upto] dumps the buffers of an iovec. *)

From Stdlib Require Import Ascii.
From stdpp Require Import pretty.
From S2P Require Import Prelude Wait Util Quote UCopy PrintStr.
Open Scope Z_scope.

Definition DUMPSTR_GROUP_MASK : Z := 7.
Definition DUMPSTR_BYTES_MASK : Z := 15.
Definition DUMPSTR_WIDTH_BYTES : Z := 16.
Definition DUMPSTR_WIDTH_CHARS : Z := 66.
Definition DUMPSTR_OFFS_MIN_CHARS : Z := 5.
Definition DUMPSTR_BUF_MAXSZ : Z := 65536.

(** "%0*lx". *)
Definition hex_padded (width v : Z) : list Z :=
  let digits := codes (hex_digits 16 v EmptyString) in
  replicate (Z.to_nat (width - lenZ digits)) 48 ++ digits.

(** Characters written to the line buffer at [dst]. *)
Fixpoint write_at (out : list Z) (dst : Z) (cs : list Z) : list Z :=
  match cs with
  | [] => out
  | c :: cs' => write_at (updZ out dst c) (dst + 1) cs'
  end.

(** The loop of the hexadecimal columns, at most [n] rounds: the new [dst] and
    line buffer.  [src] is an index in [str]. *)
Fixpoint hex_loop (n : nat) (str : list Z) (len i src dst : Z) (out : list Z) : Z * list Z :=
  match n with
  | O => (dst, out)
  | S n' =>
      let out := write_at out dst (if i <? len then sprint_byte_hex (nthZ str src) else [32; 32]) in
      let dst := dst + 2 + 1 in
      let i := i + 1 in
      let dst := if Z.land i DUMPSTR_GROUP_MASK =? 0 then dst + 1 else dst in
      if Z.land i DUMPSTR_BYTES_MASK =? 0 then (dst, out) else hex_loop n' str len i (src + 1) dst out
  end.

Fixpoint ascii_loop (n : nat) (str : list Z) (len i src dst : Z) (out : list Z) : list Z :=
  match n with
  | O => out
  | S n' =>
      let out := write_at out dst [if i <? len then if is_print (nthZ str src) then nthZ str src else 46 else 32] in
      let i := i + 1 in
      if Z.land i DUMPSTR_BYTES_MASK =? 0 then out else ascii_loop n' str len i (src + 1) (dst + 1) out
  end.

(** One line: the text and the line buffer. *)
Definition dump_line (offs_chars : Z) (str : list Z) (len i src : Z) (outbuf : list Z) : list Z * list Z :=
  let '(dst, out) := hex_loop 16 str len i src 0 outbuf in
  let out := ascii_loop 16 str len i src dst out in
  (codes " | " ++ hex_padded offs_chars i ++ codes "  " ++ out ++ codes " |" ++ [10], out).

Section dump.
Context {TM : TraceeMemory}.
Variables (page_size : Z) (narrow : bool) (malloc_ok : Z -> bool) (fresh : Z -> list Z) (pid : Z).

Definition cannot_fetch (size addr : Z) : list Z :=
  codes (" | <Cannot fetch " +:+ pretty size +:+ " byte" +:+ (if size =? 1 then EmptyString else "s")
         +:+ " from pid " +:+ pretty pid +:+ " @" +:+ fmt_hex addr +:+ ">") ++ [10].

(** The main loop: the text, the cache, the buffer and the line buffer. *)
Fixpoint dump_loop (fuel : nat) (m : mstate) (addr len alloc_size offs_chars : Z) (c : ucopy)
    (str outbuf : list Z) (src i : Z) : option (list Z * ucopy * list Z * list Z) :=
  match fuel with
  | O => None
  | S fuel' =>
      let line c str src :=
        let '(text, outbuf) := dump_line offs_chars str len i src outbuf in
        '(texts, c, str, outbuf) ← dump_loop fuel' m addr len alloc_size offs_chars c str outbuf
                                     (src + DUMPSTR_WIDTH_BYTES) (i + DUMPSTR_WIDTH_BYTES);
        Some (text ++ texts, c, str, outbuf) in
      if i <? len then
        if (i =? 0) || (i mod DUMPSTR_BUF_MAXSZ =? 0) then
          let fetch_size := Z.min (len - i) alloc_size in
          '(rc, bytes, c) ← umoven page_size narrow m c (uint 64 (addr + i)) fetch_size;
          let str := store bytes str in
          if rc <? 0
          then Some (if i =? 0 then [] else cannot_fetch fetch_size (uint 64 (addr + i)), c, str, outbuf)
          else line c str 0
        else line c str src
      else Some ([], c, str, outbuf)
  end.

(** The static variables: [str] of [strsize] bytes, and [outbuf]. *)
Record dump_state := mk_dump { str : list Z; outbuf : list Z }.
Definition strsize (st : dump_state) : Z := lenZ (str st).
Definition dump0 : dump_state := mk_dump [] (replicate 66 32).

Definition dumpstr (m : mstate) (c : ucopy) (st : dump_state) (addr len : Z)
  : option (list Z * ucopy * dump_state) :=
  if (uint 64 (len + DUMPSTR_WIDTH_BYTES) <? len) || (uint 64 (addr + len) <? addr) then Some ([], c, st)
  else
    let alloc_size := Z.min ((len + 15) / 16 * 16) DUMPSTR_BUF_MAXSZ in
    if (strsize st <? alloc_size) && negb (malloc_ok alloc_size) then Some ([], c, mk_dump [] (outbuf st))
    else
      let b := if strsize st <? alloc_size then fresh alloc_size else str st in
      let offs_chars := if 2 ^ (DUMPSTR_OFFS_MIN_CHARS * 4) <? len
                        then 1 + ilog2_64 (len - 1) / 4 else DUMPSTR_OFFS_MIN_CHARS in
      '(text, c, b, out) ← dump_loop (S (Z.to_nat ((len + 15) / 16))) m addr len alloc_size offs_chars c b (outbuf st) 0 0;
      Some (text, c, mk_dump b out).

(** ** Iovecs *)

(** A word of [n] bytes, little endian. *)
Fixpoint le_word (n : nat) (l : list Z) : Z :=
  match n, l with
  | S n', c :: l' => c + 256 * le_word n' l'
  | _, _ => 0
  end.

(** Base and length of the [i]-th iovec, for words of [ws] bytes. *)
Definition iov_at (ws : Z) (iov : list Z) (i : Z) : Z * Z :=
  let l := skipn (Z.to_nat (2 * ws * i)) iov in
  (le_word (Z.to_nat ws) l, le_word (Z.to_nat ws) (skipn (Z.to_nat ws) l)).

Fixpoint iov_loop (n : nat) (m : mstate) (ws : Z) (iov : list Z) (i data_size : Z) (c : ucopy) (st : dump_state)
  : option (list Z * ucopy * dump_state) :=
  match n with
  | O => Some ([], c, st)
  | S n' =>
      let '(base, iov_len) := iov_at ws iov i in
      let iov_len := if data_size <? iov_len then data_size else iov_len in
      if iov_len =? 0 then Some ([], c, st)
      else
        let head := codes (" * " +:+ pretty iov_len +:+ " bytes in buffer " +:+ pretty i) ++ [10] in
        '(text, c, st) ← dumpstr m c st base iov_len;
        '(texts, c, st) ← iov_loop n' m ws iov (i + 1) (data_size - iov_len) c st;
        Some (head ++ text ++ texts, c, st)
  end.

Definition dumpiov_upto (m : mstate) (c : ucopy) (st : dump_state) (ws len addr data_size : Z)
  : option (list Z * ucopy * dump_state) :=
  let sizeof_iov := 2 * ws in
  let size := uint 32 (sizeof_iov * len) in
  if negb (size / sizeof_iov =? uint 32 len) || negb (malloc_ok size) then Some ([], c, st)
  else
    '(rc, iov, c) ← umoven page_size narrow m c addr size;
    if 0 <=? rc then iov_loop (Z.to_nat len) m ws iov 0 data_size c st else Some ([], c, st).

End dump.

(** ** The line buffer

    The cells of a line: two digits and a space, and one more space after every
    eight cells; then the characters.  The spaces are never written: they stay
    in the buffer from line to line. *)

Definition sep (j : nat) : list Z := 32 :: (if Z.land (Z.of_nat j + 1) DUMPSTR_GROUP_MASK =? 0 then [32] else []).
Definition hex_cell (l : list Z) (j : nat) : list Z :=
  (match l !! j with Some c => sprint_byte_hex c | None => [32; 32] end) ++ sep j.
Definition ascii_cell (l : list Z) (j : nat) : Z :=
  match l !! j with Some c => if is_print c then c else 46 | None => 32 end.

(** The line for the bytes [l] (16, or fewer at the end) at offset [off]. *)
Definition ref_line (w off : Z) (l : list Z) : list Z :=
  codes " | " ++ hex_padded w off ++ codes "  " ++ concat (map (hex_cell l) (seq 0 16))
  ++ map (ascii_cell l) (seq 0 16) ++ codes " |" ++ [10].

(** The part of the buffer from cell [j], [n] cells before the characters. *)
Fixpoint tail_ok (n j : nat) (l : list Z) : Prop :=
  match n with
  | O => length l = 16%nat
  | S n' => exists a b r, l = a :: b :: sep j ++ r /\ tail_ok n' (S j) r
  end.

Lemma updZ_here pre a l x : updZ (pre ++ a :: l) (lenZ pre) x = pre ++ x :: l.
Proof. unfold updZ, lenZ. rewrite Nat2Z.id. by rewrite insert_app_r_alt, Nat.sub_diag by lia. Qed.

(** The bytes shown in the line of offset [i], read from [str] at [src]. *)
Definition line_bytes (str : list Z) (len i src : Z) (l : list Z) : Prop :=
  forall j, (j < 16)%nat -> l !! j = if i + Z.of_nat j <? len then Some (nthZ str (src + Z.of_nat j)) else None.

Lemma land_15 i j : i mod 16 = 0 -> 0 <= j < 16 -> Z.land (i + j + 1) DUMPSTR_BYTES_MASK = 0 <-> j = 15.
Proof.
  intros Hi Hj. change DUMPSTR_BYTES_MASK with (Z.ones 4). rewrite Z.land_ones by lia. change (2 ^ 4) with 16.
  rewrite <- Z.add_assoc, Z.add_mod, Hi, Z.add_0_l by lia.
  rewrite Z.mod_mod by lia. split; [|by intros ->]. intros E.
  destruct (Z.eq_dec j 15); [done|]. rewrite Z.mod_small in E by lia. lia.
Qed.

Lemma land_7 i j : i mod 16 = 0 -> Z.land (i + j + 1) DUMPSTR_GROUP_MASK = Z.land (j + 1) DUMPSTR_GROUP_MASK.
Proof.
  intros Hi. change DUMPSTR_GROUP_MASK with (Z.ones 3). rewrite !Z.land_ones by lia. change (2 ^ 3) with 8.
  apply Z.div_exact in Hi; [|lia]. rewrite Hi. replace (16 * (i / 16) + j + 1) with (j + 1 + (2 * (i / 16)) * 8) by lia.
  by rewrite Z.mod_add by lia.
Qed.

Lemma hex_loop_spec n j str len i src shown pre l :
  (n + j = 16)%nat -> (0 < n)%nat -> i mod 16 = 0 -> line_bytes str len i src shown -> tail_ok n j l ->
  let cells := concat (map (hex_cell shown) (seq j n)) in
  exists r, hex_loop n str len (i + Z.of_nat j) (src + Z.of_nat j) (lenZ pre) (pre ++ l)
    = (lenZ (pre ++ cells), pre ++ cells ++ r) /\ length r = 16%nat
    /\ forall r', length r' = 16%nat -> tail_ok n j (cells ++ r').
Proof.
  intros Hn Hpos Hi Hs. revert j pre l Hn Hpos. induction n as [|n IH]; intros j pre l Hn Hpos Hl; [lia|].
  cbn [tail_ok] in Hl. destruct Hl as (a & b & r & -> & Hr). cbn [hex_loop].
  assert (Hw : exists x y, (if i + Z.of_nat j <? len then sprint_byte_hex (nthZ str (src + Z.of_nat j)) else [32; 32]) = [x; y]
    /\ hex_cell shown j = x :: y :: sep j).
  { unfold hex_cell. rewrite Hs by lia. destruct (i + Z.of_nat j <? len); by eexists _, _. }
  destruct Hw as (x & y & -> & Ecell). cbn [write_at]. rewrite updZ_here.
  replace (pre ++ x :: b :: sep j ++ r) with ((pre ++ [x]) ++ b :: sep j ++ r) by by rewrite <- app_assoc.
  replace (lenZ pre + 1) with (lenZ (pre ++ [x])) by (rewrite lenZ_app; done). rewrite updZ_here, <- app_assoc. cbn [app].
  rewrite land_7 by done.
  assert (Ed : (if Z.land (Z.of_nat j + 1) DUMPSTR_GROUP_MASK =? 0 then lenZ pre + 2 + 1 + 1 else lenZ pre + 2 + 1)
               = lenZ (pre ++ x :: y :: sep j)).
  { rewrite lenZ_app, !lenZ_cons. unfold sep. rewrite lenZ_cons.
    destruct (_ =? 0); rewrite ?lenZ_cons, lenZ_nil; lia. }
  rewrite Ed. cbn [seq map concat]. rewrite Ecell.
  destruct n as [|n].
  - rewrite (proj2 (land_15 i (Z.of_nat j) Hi ltac:(lia))) by lia. cbn [Z.eqb seq map concat]. rewrite app_nil_r.
    exists r. cbn [tail_ok] in *. split; [done|]. split; [done|].
    intros r' Hr'. by eexists x, y, r'.
  - destruct (Z.eqb_spec (Z.land (i + Z.of_nat j + 1) DUMPSTR_BYTES_MASK) 0) as [E|_].
    { apply land_15 in E; [lia|done|lia]. }
    replace (i + Z.of_nat j + 1) with (i + Z.of_nat (S j)) by lia.
    replace (src + Z.of_nat j + 1) with (src + Z.of_nat (S j)) by lia.
    replace (pre ++ x :: y :: sep j ++ r) with ((pre ++ x :: y :: sep j) ++ r) by by rewrite <- app_assoc.
    destruct (IH (S j) (pre ++ x :: y :: sep j) r) as (r' & -> & Hr' & Ht); [lia|lia|done|].
    exists r'. rewrite <- !app_assoc. cbn [app]. split; [done|]. split; [done|].
    intros r2 Hr2. eexists x, y, _. split; [by rewrite <- !app_assoc|]. by apply Ht.
Qed.

Lemma ascii_loop_spec n j str len i src shown pre l :
  (n + j = 16)%nat -> (0 < n)%nat -> i mod 16 = 0 -> line_bytes str len i src shown -> length l = n ->
  ascii_loop n str len (i + Z.of_nat j) (src + Z.of_nat j) (lenZ pre) (pre ++ l)
  = pre ++ map (ascii_cell shown) (seq j n).
Proof.
  intros Hn Hpos Hi Hs. revert j pre l Hn Hpos. induction n as [|n IH]; intros j pre l Hn Hpos Hl; [lia|].
  destruct l as [|a l]; [done|]. cbn [ascii_loop write_at]. rewrite updZ_here.
  assert (Ec : (if i + Z.of_nat j <? len then if is_print (nthZ str (src + Z.of_nat j)) then nthZ str (src + Z.of_nat j) else 46
                else 32) = ascii_cell shown j).
  { unfold ascii_cell. rewrite Hs by lia. by destruct (_ <? len). }
  rewrite Ec. cbn [seq map]. destruct n as [|n].
  - rewrite (proj2 (land_15 i (Z.of_nat j) Hi ltac:(lia))) by lia. by destruct l.
  - destruct (Z.eqb_spec (Z.land (i + Z.of_nat j + 1) DUMPSTR_BYTES_MASK) 0) as [E|_].
    { apply land_15 in E; [lia|done|lia]. }
    replace (i + Z.of_nat j + 1) with (i + Z.of_nat (S j)) by lia.
    replace (src + Z.of_nat j + 1) with (src + Z.of_nat (S j)) by lia.
    replace (lenZ pre + 1) with (lenZ (pre ++ [ascii_cell shown j])) by (rewrite lenZ_app; done).
    replace (pre ++ ascii_cell shown j :: l) with ((pre ++ [ascii_cell shown j]) ++ l) by by rewrite <- app_assoc.
    rewrite IH by (simpl in Hl; lia). by rewrite <- app_assoc.
Qed.

(** Whatever line was formed before, the line buffer holds the new line. *)
Lemma dump_line_spec w str len i src shown out :
  i mod 16 = 0 -> line_bytes str len i src shown -> tail_ok 16 0 out ->
  exists out', dump_line w str len i src out = (ref_line w i shown, out') /\ tail_ok 16 0 out'.
Proof.
  intros Hi Hs Ht. unfold dump_line.
  destruct (hex_loop_spec 16 0 str len i src shown [] out) as (r & E & Hr & Ht'); try done; try lia.
  cbn [app lenZ] in E. rewrite !Z.add_0_r in E. change (lenZ (@nil Z)) with 0 in E. rewrite E.
  pose proof (ascii_loop_spec 16 0 str len i src shown (concat (map (hex_cell shown) (seq 0 16))) r) as Ea.
  rewrite !Z.add_0_r in Ea. rewrite Ea by (done || lia).
  eexists. split; [unfold ref_line; by rewrite <- !app_assoc|].
  by apply Ht'.
Qed.

(** ** The dump of a block *)

Section correct.
Context {TM : TraceeMemory}.
Variable page_bits : Z.
Hypothesis page_bits_ok : 3 <= page_bits < 32.
Abbreviation page_size := (2 ^ page_bits).
Context {ML : MemoryLaws TM page_size}.
Variables (narrow : bool) (malloc_ok : Z -> bool) (fresh : Z -> list Z) (pid : Z).
Hypothesis fresh_length : forall n, 0 <= n -> lenZ (fresh n) = n.

(** The lines for the bytes [l] from offset [off]. *)
Fixpoint ref_lines (n : nat) (w off : Z) (l : list Z) : list Z :=
  match n with
  | O => []
  | S n' => ref_line w off (firstn 16 l) ++ ref_lines n' w (off + 16) (skipn 16 l)
  end.

Definition lines (size : Z) : nat := Z.to_nat ((size + 15) / 16).

(** The dump from offset [off] on: pieces of 64 KB, each shown if all of it is
    accessible; where one is not, a message, unless it is the first. *)
Fixpoint dump_ref (n : nat) (m : mstate) (addr len w off : Z) : list Z :=
  match n with
  | O => []
  | S n' =>
      if off <? len then
        let size := Z.min (len - off) DUMPSTR_BUF_MAXSZ in
        match bytes_at byte_at m (addr + off) size with
        | None => if off =? 0 then [] else cannot_fetch pid size (addr + off)
        | Some l => ref_lines (lines size) w off l ++ dump_ref n' m addr len w (off + DUMPSTR_BUF_MAXSZ)
        end
      else []
  end.

Section block.
Variables (m : mstate) (addr len alloc w : Z).
Abbreviation loop := (dump_loop page_size narrow pid).

Definition prefixed (t : list Z) (r : option (list Z * ucopy * list Z * list Z)) :=
  '(t', c, b, o) ← r; Some (t ++ t', c, b, o).

Lemma prefixed_app t t' r : prefixed t (prefixed t' r) = prefixed (t ++ t') r.
Proof. unfold prefixed. destruct r as [[[[? ?] ?] ?]|]; [|done]. simpl. by rewrite app_assoc. Qed.

(** The bytes of the line at [s] of a piece that starts at offset [B]. *)
Lemma piece_line_bytes l r B s :
  lenZ l = Z.min (len - B) DUMPSTR_BUF_MAXSZ -> 0 <= s -> s mod 16 = 0 -> s < DUMPSTR_BUF_MAXSZ ->
  line_bytes (l ++ r) len (B + s) s (firstn 16 (skipn (Z.to_nat s) l)).
Proof.
  intros Hl Hs Hm Hmax j Hj. rewrite lookup_take_lt, lookup_drop by done. unfold DUMPSTR_BUF_MAXSZ in *.
  pose proof (Z.div_mod s 16 ltac:(lia)) as Hd.
  replace (Z.to_nat s + j)%nat with (Z.to_nat (s + Z.of_nat j)) by lia.
  destruct (Z.ltb_spec (B + s + Z.of_nat j) len).
  - rewrite nthZ_app_l by lia. apply nthZ_lookup. lia.
  - apply lookup_ge_None_2. unfold lenZ in Hl. lia.
Qed.

(** One line that needs no fetch. *)
Lemma loop_line fuel c l r out B s src :
  lenZ l = Z.min (len - B) DUMPSTR_BUF_MAXSZ -> B mod DUMPSTR_BUF_MAXSZ = 0 -> 0 <= B ->
  0 < s -> s mod 16 = 0 -> s < lenZ l -> src = s -> tail_ok 16 0 out ->
  exists out', tail_ok 16 0 out' /\
    loop (S fuel) m addr len alloc w c (l ++ r) out src (B + s)
    = prefixed (ref_line w (B + s) (firstn 16 (skipn (Z.to_nat s) l)))
        (loop fuel m addr len alloc w c (l ++ r) out' (s + 16) (B + (s + 16))).
Proof.
  intros Hl HB HB0 Hs Hm Hsl -> Ht. unfold DUMPSTR_BUF_MAXSZ in *. cbn [dump_loop].
  replace (B + s <? len) with true by lia. replace (B + s =? 0) with false by lia.
  replace ((B + s) mod DUMPSTR_BUF_MAXSZ =? 0) with false.
  2: { unfold DUMPSTR_BUF_MAXSZ. rewrite Z.add_mod, HB, Z.add_0_l, Z.mod_mod, Z.mod_small by lia. lia. }
  cbn [orb].
  assert (Hi : (B + s) mod 16 = 0).
  { apply Z.div_exact in HB; [|lia]. rewrite HB. replace (65536 * (B / 65536) + s) with (s + (4096 * (B / 65536)) * 16) by lia.
    by rewrite Z.mod_add by lia. }
  destruct (dump_line_spec w (l ++ r) len (B + s) s _ out Hi
    (piece_line_bytes l r B s Hl ltac:(lia) Hm ltac:(unfold DUMPSTR_BUF_MAXSZ; lia)) Ht) as (out' & E & Ht').
  rewrite E. exists out'. split; [done|]. unfold DUMPSTR_WIDTH_BYTES. by rewrite Z.add_assoc.
Qed.

Lemma loop_lines k fuel c l r out B s :
  lenZ l = Z.min (len - B) DUMPSTR_BUF_MAXSZ -> B mod DUMPSTR_BUF_MAXSZ = 0 -> 0 <= B ->
  0 < s -> s mod 16 = 0 -> k = lines (lenZ l - s) -> tail_ok 16 0 out ->
  exists out', tail_ok 16 0 out' /\
    loop (k + fuel) m addr len alloc w c (l ++ r) out s (B + s)
    = prefixed (ref_lines k w (B + s) (skipn (Z.to_nat s) l))
        (loop fuel m addr len alloc w c (l ++ r) out' (s + 16 * Z.of_nat k) (B + (s + 16 * Z.of_nat k))).
Proof.
  intros Hl HB HB0. revert s out. induction k as [|k IH]; intros s out Hs Hm Hk Ht.
  { exists out. split; [done|]. cbn [Nat.add ref_lines Z.of_nat]. rewrite Z.mul_0_r, Z.add_0_r. unfold prefixed.
    by destruct (loop fuel _ _ _ _ _ _ _ _ _ _) as [[[[? ?] ?] ?]|]. }
  unfold lines in Hk. assert (Hsl : s < lenZ l).
  { destruct (Z.le_gt_cases (lenZ l) s); [|done]. pose proof (Z.div_le_upper_bound (lenZ l - s + 15) 16 0). 
    pose proof (Z.div_lt_upper_bound (lenZ l - s + 15) 16 1 ltac:(lia) ltac:(lia)). lia. }
  cbn [Nat.add]. destruct (loop_line (k + fuel) c l r out B s s) as (out1 & Ht1 & ->); try done.
  destruct (IH (s + 16) out1) as (out2 & Ht2 & ->); [lia| | |done|].
  { replace (s + 16) with (s + 1 * 16) by lia. by rewrite Z.mod_add by lia. }
  { unfold lines. replace (lenZ l - s + 15) with (lenZ l - (s + 16) + 15 + 1 * 16) in Hk by lia.
    rewrite Z.div_add in Hk by lia. pose proof (Z.div_pos (lenZ l - (s + 16) + 15 + 16) 16).
    assert (0 <= (lenZ l - (s + 16) + 15 ) / 16 + 1) by (rewrite <- Z.div_add by lia; apply Z.div_pos; lia). lia. }
  exists out2. split; [done|]. rewrite prefixed_app. cbn [ref_lines].
  rewrite skipn_skipn. replace (16 + Z.to_nat s)%nat with (Z.to_nat (s + 16)) by lia.
  replace (B + s + 16) with (B + (s + 16)) by lia.
  by replace (s + 16 * Z.of_nat (S k)) with (s + 16 + 16 * Z.of_nat k) by lia.
Qed.

(** The first line of a piece, after its bytes were fetched. *)
Lemma piece_lines fuel c l r out B :
  lenZ l = Z.min (len - B) DUMPSTR_BUF_MAXSZ -> B mod DUMPSTR_BUF_MAXSZ = 0 -> 0 <= B -> 0 < lenZ l -> tail_ok 16 0 out ->
  exists out', tail_ok 16 0 out' /\
    (let '(text, out1) := dump_line w (l ++ r) len B 0 out in
     prefixed text (loop (pred (lines (lenZ l)) + fuel) m addr len alloc w c (l ++ r) out1 16 (B + 16)))
    = prefixed (ref_lines (lines (lenZ l)) w B l)
        (loop fuel m addr len alloc w c (l ++ r) out' (16 * Z.of_nat (lines (lenZ l))) (B + 16 * Z.of_nat (lines (lenZ l)))).
Proof.
  intros Hl HB HB0 Hpos Ht.
  assert (Hi : B mod 16 = 0).
  { unfold DUMPSTR_BUF_MAXSZ in HB. apply Z.div_exact in HB; [|lia]. rewrite HB.
    replace (65536 * (B / 65536)) with (0 + (4096 * (B / 65536)) * 16) by lia. by rewrite Z.mod_add by lia. }
  pose proof (piece_line_bytes l r B 0 Hl ltac:(lia) eq_refl eq_refl) as Hb. rewrite Z.add_0_r in Hb.
  destruct (dump_line_spec w (l ++ r) len B 0 _ out Hi Hb Ht) as (out1 & -> & Ht1).
  assert (Hk : lines (lenZ l) = S (lines (lenZ l - 16))).
  { unfold lines. replace (lenZ l + 15) with (lenZ l - 16 + 15 + 1 * 16) by lia. rewrite Z.div_add by lia.
    pose proof (Z.div_pos (lenZ l - 16 + 15) 16 ltac:(lia) ltac:(lia)). lia. }
  rewrite Hk. cbn [pred].
  destruct (loop_lines (lines (lenZ l - 16)) fuel c l r out1 B 16) as (out' & Ht' & ->); try done.
  exists out'. split; [done|]. rewrite prefixed_app. cbn [ref_lines]. cbn [Z.to_nat skipn].
  change (Pos.to_nat 16) with 16%nat.
  by replace (16 * Z.of_nat (S (lines (lenZ l - 16)))) with (16 + 16 * Z.of_nat (lines (lenZ l - 16))) by lia.
Qed.

Hypothesis addr_ok : 0 <= addr.
Hypothesis end_ok : addr + len + page_size < 2 ^ 64.
Hypothesis valid : forall a, addr <= a < addr + len -> tracee_addr_is_invalid narrow a = false.
Hypothesis alloc_ok : alloc = Z.min ((len + 15) / 16 * 16) DUMPSTR_BUF_MAXSZ.

Lemma lines_split size : DUMPSTR_BUF_MAXSZ <= size -> lines size = (lines DUMPSTR_BUF_MAXSZ + lines (size - DUMPSTR_BUF_MAXSZ))%nat.
Proof.
  intros H. unfold lines, DUMPSTR_BUF_MAXSZ in *. replace (size + 15) with (size - 65536 + 15 + 4096 * 16) by lia.
  rewrite Z.div_add by lia. change (Z.to_nat ((65536 + 15) / 16)) with (Z.to_nat 4096).
  pose proof (Z.div_pos (size - 65536 + 15) 16 ltac:(lia) ltac:(lia)). lia.
Qed.

Lemma fetch_size_eq B : 0 <= B < len -> Z.min (len - B) alloc = Z.min (len - B) DUMPSTR_BUF_MAXSZ.
Proof.
  intros HB. rewrite alloc_ok. pose proof (Z.div_mod (len + 15) 16 ltac:(lia)).
  pose proof (Z.mod_pos_bound (len + 15) 16 ltac:(lia)). lia.
Qed.

Lemma dump_loop_spec n fuel c b out src B :
  cache_ok page_bits m c -> 0 <= B -> B mod DUMPSTR_BUF_MAXSZ = 0 -> len - B <= Z.of_nat n * DUMPSTR_BUF_MAXSZ ->
  (S (lines (len - B)) <= fuel)%nat -> alloc <= lenZ b -> tail_ok 16 0 out ->
  exists c' b' out', loop fuel m addr len alloc w c b out src B = Some (dump_ref n m addr len w B, c', b', out')
    /\ cache_ok page_bits m c' /\ lenZ b' = lenZ b /\ tail_ok 16 0 out'.
Proof.
  revert fuel c b out src B. induction n as [|n IH]; intros fuel c b out src B Hc HB0 HB Hn Hf Hb Ht;
    (destruct fuel as [|fuel]; [lia|]); cbn [dump_loop dump_ref].
  { replace (B <? len) with false by lia. by eexists _, _, _. }
  destruct (Z.ltb_spec B len) as [HBl|]; [|by eexists _, _, _].
  rewrite HB, Z.eqb_refl, orb_true_r, uint_small by (unfold in_uint; lia).
  rewrite fetch_size_eq by lia. set (size := Z.min (len - B) DUMPSTR_BUF_MAXSZ).
  assert (Hsz : 0 < size <= 65536) by (unfold size, DUMPSTR_BUF_MAXSZ; lia).
  assert (Hsa : size <= alloc) by (pose proof (fetch_size_eq B ltac:(lia)); lia).
  destruct (umoven_spec page_bits page_bits_ok narrow m c (addr + B) size Hc) as (rc & l' & c' & -> & Hc' & _ & Hl' & Hres);
    [lia|lia|lia|apply valid; lia|]. cbn [mbind option_bind].
  pose proof (store_length l' b ltac:(lia)) as Hst.
  destruct (bytes_at byte_at m (addr + B) size) as [l|] eqn:El; [|subst rc; by eexists c', _, out].
  destruct Hres as [-> ->]. cbn [Z.ltb Z.compare]. apply bytes_at_Some in El as [El _]; [|lia].
  set (b' := store l b) in *. assert (Eb : b' = l ++ skipn (length l) b) by done. clearbody b'.
  pose proof (piece_lines (fuel - pred (lines size)) c' l (skipn (length l) b) out B) as Hp.
  rewrite El, <- Eb in Hp. destruct Hp as (out2 & Ht2 & Hp); [done|done|done|lia|done|].
  assert (Hln : (1 <= lines size)%nat /\ (lines size <= lines (len - B))%nat).
  { unfold lines. pose proof (Z.div_le_lower_bound (size + 15) 16 1 ltac:(lia) ltac:(lia)).
    pose proof (Z.div_le_mono (size + 15) (len - B + 15) 16 ltac:(lia) ltac:(lia)). lia. }
  replace (pred (lines size) + (fuel - pred (lines size)))%nat with fuel in Hp by lia.
  unfold DUMPSTR_WIDTH_BYTES. destruct (dump_line w b' len B 0 out) as [text out1]. unfold prefixed in Hp at 1.
  cbn [Z.add] in *. change (0 + 16) with 16. rewrite Hp. clear Hp.
  set (pos := 16 * Z.of_nat (lines size)). 
  assert (Hrest : exists c'' b'' out'', loop (fuel - pred (lines size)) m addr len alloc w c' b' out2 pos (B + pos)
     = Some (dump_ref n m addr len w (B + DUMPSTR_BUF_MAXSZ), c'', b'', out'')
     /\ cache_ok page_bits m c'' /\ lenZ b'' = lenZ b' /\ tail_ok 16 0 out'').
  { destruct (Z.le_gt_cases DUMPSTR_BUF_MAXSZ (len - B)) as [Hfull|Hlast].
    - assert (Es : size = DUMPSTR_BUF_MAXSZ) by (unfold size; lia).
      replace pos with DUMPSTR_BUF_MAXSZ by (unfold pos; by rewrite Es).
      apply IH; [done|unfold DUMPSTR_BUF_MAXSZ; lia| |lia| |lia|done].
      + rewrite Z.add_mod, HB, Z.add_0_l, Z.mod_mod by done. done.
      + rewrite (lines_split (len - B)) in Hf by done. rewrite Es.
        replace (len - (B + DUMPSTR_BUF_MAXSZ)) with (len - B - DUMPSTR_BUF_MAXSZ) by lia.
        rewrite Es in Hln. lia.
    - assert (Es : size = len - B) by (unfold size; lia).
      destruct (fuel - pred (lines size))%nat as [|f'] eqn:Ef; [rewrite <- Es in Hf; lia|]. cbn [dump_loop].
      assert (len <= B + pos).
      { unfold pos, lines. rewrite Z2Nat.id by (apply Z.div_pos; lia).
        pose proof (Z.div_mod (size + 15) 16 ltac:(lia)). pose proof (Z.mod_pos_bound (size + 15) 16 ltac:(lia)). lia. }
      replace (B + pos <? len) with false by lia.
      replace (dump_ref n m addr len w (B + DUMPSTR_BUF_MAXSZ)) with (@nil Z); [by eexists c', b', out2|].
      destruct n; [done|]. cbn [dump_ref]. by replace (B + DUMPSTR_BUF_MAXSZ <? len) with false by lia. }
  destruct Hrest as (c2 & b2 & out3 & -> & Hc2 & Hb2 & Ht3). eexists c2, b2, out3.
  split; [done|]. split; [done|]. split; [lia|done].
Qed.
End block.

(** The width of the offsets. *)
Definition offs_width (len : Z) : Z :=
  if 2 ^ (DUMPSTR_OFFS_MIN_CHARS * 4) <? len then 1 + ilog2_64 (len - 1) / 4 else DUMPSTR_OFFS_MIN_CHARS.

Lemma hex_digits_length n v acc k : 0 <= v < 16 ^ Z.of_nat k -> (0 < k)%nat ->
  lenZ (codes (hex_digits n v acc)) <= lenZ (codes acc) + Z.of_nat k.
Proof.
  revert v acc k. induction n as [|n IH]; intros v acc k Hv Hk; cbn [hex_digits]; [lia|].
  destruct (Z.eqb_spec (v / 16) 0) as [E|E]; [cbn [codes]; rewrite lenZ_cons; lia|].
  destruct k as [|[|k]]; [lia|rewrite Z.pow_1_r in Hv; by rewrite Z.div_small in E by lia|].
  etransitivity; [apply (IH _ _ (S k))|cbn [codes]; rewrite lenZ_cons; lia]; [|lia].
  split; [apply Z.div_pos; lia|]. apply Z.div_lt_upper_bound; [lia|].
  rewrite <- Z.pow_succ_r, <- Nat2Z.inj_succ by lia. lia.
Qed.

Lemma offs_width_enough len off : 0 <= off < len -> len < 2 ^ 64 -> 1 <= offs_width len /\ off < 16 ^ offs_width len.
Proof.
  intros Ho Hl. unfold offs_width, DUMPSTR_OFFS_MIN_CHARS. change (2 ^ (5 * 4)) with (16 ^ 5).
  destruct (Z.ltb_spec (16 ^ 5) len) as [Hbig|]; [|split; lia].
  destruct (ilog_correct (len - 1) ltac:(lia)) as (_ & HL & _). set (L := ilog2_64 (len - 1)) in *.
  assert (0 <= L).
  { destruct (Z.le_gt_cases 0 L) as [|Hneg]; [done|]. destruct (Z.eq_dec L (-1)) as [E|]; [rewrite E in HL; cbn in HL; lia|].
    rewrite (Z.pow_neg_r 2 (L + 1)) in HL by lia. lia. }
  pose proof (Z.div_pos L 4 ltac:(lia) ltac:(lia)). split; [lia|].
  change 16 with (2 ^ 4). rewrite <- Z.pow_mul_r by lia.
  assert (2 ^ (L + 1) <= 2 ^ (4 * (1 + L / 4))); [|lia].
  apply Z.pow_le_mono_r; [lia|]. pose proof (Z.div_mod L 4 ltac:(lia)). pose proof (Z.mod_pos_bound L 4 ltac:(lia)). lia.
Qed.

Lemma cells_length (l : list Z) : lenZ (concat (map (hex_cell l) (seq 0 16))) = 50.
Proof.
  assert (H : forall j, lenZ (hex_cell l j) = 2 + lenZ (sep j)).
  { intros j. unfold hex_cell. rewrite lenZ_app. by destruct (l !! j). }
  cbn [seq map concat]. rewrite !lenZ_app, !H. done.
Qed.

(** Every line of a dump has the same width: the offsets have no more digits
    than the field. *)
Lemma ref_line_width len off l : 0 <= off < len -> len < 2 ^ 64 ->
  lenZ (ref_line (offs_width len) off l) = offs_width len + 74.
Proof.
  intros Ho Hl. destruct (offs_width_enough len off Ho Hl) as [Hw Hd]. unfold ref_line.
  rewrite !lenZ_app, cells_length. unfold hex_padded. set (digits := codes (hex_digits _ _ _)).
  assert (lenZ digits <= offs_width len).
  { pose proof (hex_digits_length 16 off EmptyString (Z.to_nat (offs_width len))
      ltac:(rewrite Z2Nat.id by lia; lia) ltac:(lia)) as Hx. cbn [codes] in Hx. rewrite lenZ_nil in Hx. unfold digits. lia. }
  assert (Em : lenZ (map (ascii_cell l) (seq 0 16)) = 16) by done.
  rewrite lenZ_app, lenZ_replicate, Em. change (lenZ (codes " | ")) with 3. change (lenZ (codes "  ")) with 2.
  change (lenZ (codes " |")) with 2. change (lenZ [10]) with 1. lia.
Qed.

Lemma dumpstr_spec m c st addr len :
  cache_ok page_bits m c -> tail_ok 16 0 (outbuf st) -> (forall n, malloc_ok n = true) ->
  0 <= addr -> 0 <= len -> addr + len + page_size < 2 ^ 64 -> len + 16 < 2 ^ 64 ->
  (forall a, addr <= a < addr + len -> tracee_addr_is_invalid narrow a = false) ->
  (exists c' st', dumpstr page_size narrow malloc_ok fresh pid m c st addr len
     = Some (dump_ref (S (Z.to_nat (len / DUMPSTR_BUF_MAXSZ))) m addr len (offs_width len) 0, c', st')
     /\ cache_ok page_bits m c' /\ tail_ok 16 0 (outbuf st')) /\
  (forall off l, 0 <= off < len -> lenZ (ref_line (offs_width len) off l) = offs_width len + 74).
Proof.
  intros Hc Ht Hm Ha Hl He Hl16 Hv. split; [|intros off l Ho; apply ref_line_width; lia].
  unfold dumpstr, DUMPSTR_WIDTH_BYTES. rewrite (uint_small 64 (len + 16)) by (unfold in_uint; lia).
  rewrite (uint_small 64 (addr + len)) by (unfold in_uint; pose proof (page_size_pos page_bits page_bits_ok); lia).
  replace (len + 16 <? len) with false by lia. replace (addr + len <? addr) with false by lia. cbn [orb].
  rewrite Hm, andb_false_r. set (alloc := Z.min ((len + 15) / 16 * 16) DUMPSTR_BUF_MAXSZ). fold (offs_width len).
  pose proof (Z.div_pos (len + 15) 16 ltac:(lia) ltac:(lia)).
  assert (Hb : alloc <= lenZ (if strsize st <? alloc then fresh alloc else str st)).
  { destruct (Z.ltb_spec (strsize st) alloc) as [|?]; [|done]. rewrite fresh_length; [done|]. unfold alloc, DUMPSTR_BUF_MAXSZ. lia. }
  destruct (dump_loop_spec m addr len alloc (offs_width len) Ha He Hv eq_refl (S (Z.to_nat (len / DUMPSTR_BUF_MAXSZ)))
    (S (Z.to_nat ((len + 15) / 16))) c (if strsize st <? alloc then fresh alloc else str st) (outbuf st) 0 0 Hc)
    as (c' & b' & out' & -> & Hc' & _ & Ht'); try done.
  - rewrite Nat2Z.inj_succ, Z2Nat.id by (apply Z.div_pos; done). unfold DUMPSTR_BUF_MAXSZ.
    pose proof (Z.div_mod len 65536 ltac:(lia)). pose proof (Z.mod_pos_bound len 65536 ltac:(lia)). lia.
  - unfold lines. by rewrite Z.sub_0_r.
  - by eexists c', _.
Qed.

(** C20: [dumpstr] prints a block of memory as the reference does: lines of 16
    bytes with offset, hexadecimal columns and characters, for all of it when it
    is accessible, and up to the first piece of 64 KB that cannot be fetched
    otherwise; the lines have equal width.  What its buffers hold from earlier
    calls is not shown. *)
Theorem dumpstr_correct m c st addr len :
  cache_ok page_bits m c -> tail_ok 16 0 (outbuf st) -> (forall n, malloc_ok n = true) ->
  0 <= addr -> 0 <= len -> addr + len + page_size < 2 ^ 64 -> len + 16 < 2 ^ 64 ->
  (forall a, addr <= a < addr + len -> tracee_addr_is_invalid narrow a = false) ->
  (exists c' st', dumpstr page_size narrow malloc_ok fresh pid m c st addr len
     = Some (dump_ref (S (Z.to_nat (len / DUMPSTR_BUF_MAXSZ))) m addr len (offs_width len) 0, c', st')
     /\ cache_ok page_bits m c' /\ tail_ok 16 0 (outbuf st')) /\
  (forall off l, 0 <= off < len -> lenZ (ref_line (offs_width len) off l) = offs_width len + 74).
Proof. apply dumpstr_spec. Qed.

(** *** Iovecs *)

(** What is dumped: number, address and size of each buffer, until [data_size]
    bytes are reached or a buffer is empty. *)
Fixpoint iov_plan (n : nat) (ws : Z) (iov : list Z) (i data_size : Z) : list (Z * Z * Z) :=
  match n with
  | O => []
  | S n' => let '(base, l) := iov_at ws iov i in
            let l := Z.min l data_size in
            if l =? 0 then [] else (i, base, l) :: iov_plan n' ws iov (i + 1) (data_size - l)
  end.

Definition planned_size (p : list (Z * Z * Z)) : Z := fold_right (fun x s => x.2 + s) 0 p.
Definition plan_text (m : mstate) (x : Z * Z * Z) : list Z :=
  let '(i, base, l) := x in
  codes (" * " +:+ pretty l +:+ " bytes in buffer " +:+ pretty i) ++ [10]
  ++ dump_ref (S (Z.to_nat (l / DUMPSTR_BUF_MAXSZ))) m base l (offs_width l) 0.
Definition planned_ok (x : Z * Z * Z) : Prop :=
  let '(_, base, l) := x in
  base + l + page_size < 2 ^ 64 /\ l + 16 < 2 ^ 64 /\
  forall a, base <= a < base + l -> tracee_addr_is_invalid narrow a = false.

Lemma le_word_pos n l : Forall byte l -> 0 <= le_word n l.
Proof.
  revert l. induction n as [|n IH]; intros [|c l] HF; cbn [le_word]; try lia.
  apply list.Forall_cons in HF as [Hc HF]. specialize (IH l HF). unfold byte in Hc. lia.
Qed.

Lemma iov_at_pos ws iov i : Forall byte iov -> 0 <= (iov_at ws iov i).1 /\ 0 <= (iov_at ws iov i).2.
Proof. intros HF. split; apply le_word_pos; repeat apply list.Forall_drop; done. Qed.

Lemma planned_size_le n ws iov i data_size :
  Forall byte iov -> 0 <= data_size -> 0 <= planned_size (iov_plan n ws iov i data_size) <= data_size.
Proof.
  intros HF. revert i data_size. induction n as [|n IH]; intros i data_size Hd; cbn [iov_plan]; [done|].
  pose proof (iov_at_pos ws iov i HF) as [_ Hp]. destruct (iov_at ws iov i) as [base l]. cbn [snd] in Hp.
  destruct (Z.eqb_spec (Z.min l data_size) 0); [done|]. cbn [planned_size fold_right snd].
  specialize (IH (i + 1) (data_size - Z.min l data_size) ltac:(lia)). unfold planned_size in IH. lia.
Qed.

Lemma iov_loop_spec n m ws iov i data_size c st :
  Forall byte iov -> (forall n, malloc_ok n = true) -> 0 <= data_size -> cache_ok page_bits m c -> tail_ok 16 0 (outbuf st) ->
  Forall planned_ok (iov_plan n ws iov i data_size) ->
  exists c' st', iov_loop page_size narrow malloc_ok fresh pid n m ws iov i data_size c st
    = Some (concat (map (plan_text m) (iov_plan n ws iov i data_size)), c', st')
    /\ cache_ok page_bits m c' /\ tail_ok 16 0 (outbuf st').
Proof.
  intros HF Hm. revert i data_size c st.
  induction n as [|n IH]; intros i data_size c st Hd Hc Ht Hp; cbn [iov_plan iov_loop] in *; [by eexists _, _|].
  pose proof (iov_at_pos ws iov i HF) as [Hb Hl]. destruct (iov_at ws iov i) as [base l]. cbn [fst snd] in Hb, Hl.
  replace (if data_size <? l then data_size else l) with (Z.min l data_size) by (bcase; lia).
  destruct (Z.eqb_spec (Z.min l data_size) 0); [by eexists _, _|].
  apply list.Forall_cons in Hp as [(He & H16 & Hv) Hp].
  destruct (dumpstr_spec m c st base (Z.min l data_size) Hc Ht Hm Hb ltac:(lia) He H16 Hv)
    as [(c1 & st1 & -> & Hc1 & Ht1) _]. cbn [mbind option_bind].
  destruct (IH (i + 1) (data_size - Z.min l data_size) c1 st1 ltac:(lia) Hc1 Ht1 Hp) as (c2 & st2 & -> & Hc2 & Ht2).
  eexists c2, st2. cbn [mbind option_bind map concat]. split; [|done].
  cbn [plan_text]. rewrite <- !app_assoc. reflexivity.
Qed.

(** [dumpiov_upto] dumps the buffers of an iovec in order, each up to its
    length, at most [data_size] bytes in all, and stops at an empty one. *)
Theorem dumpiov_upto_correct m c st ws len addr data_size iov :
  cache_ok page_bits m c -> tail_ok 16 0 (outbuf st) -> (forall n, malloc_ok n = true) ->
  ws = 4 \/ ws = 8 -> 0 <= len < 2 ^ 27 -> 0 <= data_size ->
  0 <= addr -> addr + 2 * ws * len + page_size < 2 ^ 64 -> tracee_addr_is_invalid narrow addr = false ->
  bytes_at byte_at m addr (2 * ws * len) = Some iov ->
  let plan := iov_plan (Z.to_nat len) ws iov 0 data_size in
  Forall planned_ok plan ->
  (exists c' st', dumpiov_upto page_size narrow malloc_ok fresh pid m c st ws len addr data_size
     = Some (concat (map (plan_text m) plan), c', st') /\ cache_ok page_bits m c' /\ tail_ok 16 0 (outbuf st'))
  /\ 0 <= planned_size plan <= data_size.
Proof.
  intros Hc Ht Hm Hws Hlen Hd Ha He Hv Hiov plan Hplan.
  assert (HF : Forall byte iov) by (by eapply (bytes_at_bytes page_bits page_bits_ok m addr)).
  split; [|by apply planned_size_le]. unfold dumpiov_upto.
  rewrite !uint_small by (unfold in_uint; lia). rewrite Hm, orb_false_r.
  replace (2 * ws * len / (2 * ws) =? len) with true
    by (symmetry; apply Z.eqb_eq; rewrite Z.mul_comm; apply Z.div_mul; lia). cbn [negb].
  destruct (umoven_spec page_bits page_bits_ok narrow m c addr (2 * ws * len) Hc Ha ltac:(lia) He Hv)
    as (rc & l' & c' & -> & Hc' & _ & _ & Hres). rewrite Hiov in Hres. destruct Hres as [-> ->].
  cbn [mbind option_bind Z.leb Z.compare]. by apply iov_loop_spec.
Qed.

End correct.

(** ** A concrete dump *)

Lemma dump0_ok : tail_ok 16 0 (outbuf dump0).
Proof. repeat (eexists _, _, _; split; [reflexivity|]). reflexivity. Qed.

Example dump_20_bytes :
  option_map (fun r => r.1.1) (dumpstr (2 ^ demo_bits) false (fun _ => true) demo_fresh 1 (letters : @mstate demo_memory)
    empty_cache dump0 30 18)
  = Some (codes " | 00000  65 66 67 68 69 6a 6b 6c  6d 6e 6f 70 71 72 73 74  efghijklmnopqrst |" ++ [10] ++
          codes " | 00010  00 76                                             .v               |" ++ [10]).
Proof. vm_compute. reflexivity. Qed.

Lemma dumpstr_correct_witness :
  exists c' st', dumpstr (2 ^ demo_bits) false (fun _ => true) demo_fresh 1 (letters : @mstate demo_memory)
    empty_cache dump0 30 18
  = Some (codes " | 00000  65 66 67 68 69 6a 6b 6c  6d 6e 6f 70 71 72 73 74  efghijklmnopqrst |" ++ [10] ++
          codes " | 00010  00 76                                             .v               |" ++ [10], c', st').
Proof.
  destruct (dumpstr_correct demo_bits ltac:(vm_compute; split; congruence) false (fun _ => true) demo_fresh 1 demo_fresh_length
    (letters : @mstate demo_memory) empty_cache dump0 30 18 (empty_cache_ok _) dump0_ok ltac:(reflexivity)
    ltac:(lia) ltac:(lia) ltac:(reflexivity) ltac:(reflexivity) ltac:(reflexivity)) as [(c' & st' & E & _) _].
  exists c', st'. exact E.
Defined.

(** Two iovecs at 16: 5 bytes at 30 and 40 bytes at 20; 9 bytes of data. *)
Definition iovecs : demo_mem := mk_mem (fun p => (1 <=? p) && (p <=? 3))
  (fun a => if a =? 16 then 30 else if a =? 20 then 5 else if a =? 24 then 20 else if a =? 28 then 40 else 0).

Lemma dumpiov_upto_correct_witness :
  exists text c' st', dumpiov_upto (2 ^ demo_bits) false (fun _ => true) demo_fresh 1 (iovecs : @mstate demo_memory)
    empty_cache dump0 4 2 16 9 = Some (text, c', st').
Proof.
  destruct (dumpiov_upto_correct demo_bits ltac:(vm_compute; split; congruence) false (fun _ => true) demo_fresh 1 demo_fresh_length
    (iovecs : @mstate demo_memory) empty_cache dump0 4 2 16 9 [30; 0; 0; 0; 5; 0; 0; 0; 20; 0; 0; 0; 40; 0; 0; 0]
    (empty_cache_ok _) dump0_ok ltac:(reflexivity) ltac:(by left) ltac:(lia) ltac:(lia) ltac:(lia) ltac:(reflexivity) eq_refl
    ltac:(reflexivity)) as [(c' & st' & E & _) _].
  - repeat constructor.
  - eexists _, c', st'. exact E.
Defined.
