(* ===== verification/Arena.v ===== *)
(** * Checked allocation and index arenas
    (src/xmalloc.c, src/retval.c, src/delay.c, src/poke.c)

    Sizes are 64-bit [size_t] values.  Whether [malloc] or [realloc] of a number
    of bytes succeeds is the parameter [malloc_ok].  The arenas of injected
    return values, delays and pokes are lists of their allocated capacity with
    the number of cells in use. *)

From S2P Require Import Prelude Util.
Open Scope Z_scope.

Definition SIZE_BITS := 64.
Definition HALF_SIZE_T := 2 ^ 32.
Definition DEFAULT_ALLOC_SIZE := 64 * 8 / 4.
Definition ROUNDUP_DIV (n d : Z) : Z := (n + d - 1) / d.

Section xmalloc.
Variable malloc_ok : Z -> bool.

Definition die_out_of_memory {A} : outcome A := Die "Out of memory".

(** The number of bytes [xallocarray] and [xreallocarray] ask for. *)
Definition xreallocarray (nmemb size : Z) : outcome Z :=
  let bytes := uint SIZE_BITS (nmemb * size) in
  if (HALF_SIZE_T <=? Z.lor nmemb size) && negb (size =? 0) && negb (bytes / size =? nmemb)
  then die_out_of_memory
  else if malloc_ok bytes then Ret bytes else die_out_of_memory.

Definition xallocarray (nmemb size : Z) : outcome Z := xreallocarray nmemb size.

(** The new number of members; [is_null] tells whether the array is not
    allocated yet. *)
Definition xgrowarray (is_null : bool) (nmemb memb_size : Z) : outcome Z :=
  let grow_memb :=
    if is_null then (if nmemb =? 0 then ROUNDUP_DIV DEFAULT_ALLOC_SIZE memb_size else 0)
    else Z.shiftr nmemb 1 + 1 in
  if uint SIZE_BITS (nmemb + grow_memb) <? nmemb then die_out_of_memory
  else
    let nmemb := uint SIZE_BITS (nmemb + grow_memb) in
    _ ← xreallocarray nmemb memb_size; Ret nmemb.

(** ** Arenas

    The used cells are the first [ar_size] ones of the vector, whose length is
    the capacity; [zero] is what [memset] leaves in new cells. *)

Record arena (A : Type) := mk_arena { ar_vec : list A; ar_size : Z }.
Arguments mk_arena {A} ar_vec ar_size.
Arguments ar_vec {A} a.
Arguments ar_size {A} a.

Definition arena_init {A} : arena A := mk_arena [] 0.

Section arena.
Context {A : Type} (zero : A) (memb_size : Z).

Definition expand_vec (a : arena A) : outcome (arena A) :=
  let old_capacity := lenZ (ar_vec a) in
  capacity ← xgrowarray (old_capacity =? 0) old_capacity memb_size;
  Ret (mk_arena (ar_vec a ++ replicate (Z.to_nat (capacity - old_capacity)) zero) (ar_size a)).

(** The allocation pattern shared by [retval_new], [alloc_delay_data] and
    [alloc_poke_data]: a 16-bit index, growth on demand, then [v] stored in the
    new cell. *)
Definition arena_new (overflow : string) (v : A) (a : arena A) : outcome (Z * arena A) :=
  let idx := uint 16 (ar_size a) in
  if idx <? ar_size a then Die overflow
  else
    a' ← (if ar_size a =? lenZ (ar_vec a) then expand_vec a else Ret a);
    Ret (idx, mk_arena (<[Z.to_nat idx := v]> (ar_vec a')) (ar_size a' + 1)).

Definition arena_get (out_of_range : string) (idx : Z) (a : arena A) : outcome A :=
  if ar_size a <=? idx then Die out_of_range
  else Ret (nth (Z.to_nat idx) (ar_vec a) zero).
End arena.

(** ** Return values *)

Definition retval_new (rval : Z) : arena Z -> outcome (Z * arena Z) :=
  arena_new 0 8 "retval index overflow" rval.
Definition retval_get (rval_idx : Z) : arena Z -> outcome Z :=
  arena_get 0 "rval_idx >= retval_vec_size" rval_idx.

(** ** Delays *)

Record delay_data := mk_delay { ts_enter : timespec; ts_exit : timespec }.
Definition delay0 : delay_data := mk_delay (mk_ts 0 0) (mk_ts 0 0).

Definition alloc_delay_data : arena delay_data -> outcome (Z * arena delay_data) :=
  arena_new delay0 32 "delay index overflow" delay0.

Definition fill_delay_data (delay_idx : Z) (val : timespec) (isenter : bool) (a : arena delay_data)
  : outcome (arena delay_data) :=
  if ar_size a <=? delay_idx then Die "delay_idx >= delay_data_vec_size"
  else
    let d := nth (Z.to_nat delay_idx) (ar_vec a) delay0 in
    let d' := if isenter then mk_delay val (ts_exit d) else mk_delay (ts_enter d) val in
    Ret (mk_arena (<[Z.to_nat delay_idx := d']> (ar_vec a)) (ar_size a)).

(** ** Pokes *)

Record poke_payload := mk_poke { poke_is_enter : bool; arg_no : Z; poke_data : list Z }.

Definition alloc_poke_data : arena (list poke_payload) -> outcome (Z * arena (list poke_payload)) :=
  arena_new [] 16 "poke index overflow" [].

(** [true] is the duplicate error; a new payload goes to the head. *)
Definition poke_add (poke_idx : Z) (poke : poke_payload) (a : arena (list poke_payload))
  : arena (list poke_payload) * bool :=
  let l := nth (Z.to_nat poke_idx) (ar_vec a) [] in
  if existsb (fun i => eqb (poke_is_enter i) (poke_is_enter poke) && (arg_no i =? arg_no poke)) l
  then (a, true)
  else (mk_arena (<[Z.to_nat poke_idx := poke :: l]> (ar_vec a)) (ar_size a), false).

End xmalloc.

Arguments mk_arena {A} ar_vec ar_size.
Arguments ar_vec {A} a.
Arguments ar_size {A} a.

(** ** Overflow checks *)

Lemma le_lor a b : 0 <= a -> 0 <= b -> a <= Z.lor a b.
Proof.
  intros Ha Hb. replace (Z.lor a b) with (a + Z.ldiff b a).
  - assert (0 <= Z.ldiff b a) by (apply Z.ldiff_nonneg; lia). lia.
  - rewrite <- Z.add_lor_land.
    replace (Z.land a (Z.ldiff b a)) with 0 by (rewrite Z.land_comm; symmetry; apply Z.land_ldiff).
    rewrite Z.add_0_r. apply Z.bits_inj'. intros i Hi.
    rewrite !Z.lor_spec, Z.ldiff_spec. by destruct (Z.testbit a i), (Z.testbit b i).
Qed.

Section xmalloc_proofs.
Variable malloc_ok : Z -> bool.

(** The array allocators ask for exactly [nmemb * size] bytes, or die: the
    overflow test rejects the products that do not fit [size_t] and no other. *)
Theorem xreallocarray_exact nmemb size :
  in_uint 64 nmemb -> in_uint 64 size ->
  xreallocarray malloc_ok nmemb size
  = if (nmemb * size <? 2 ^ 64) && malloc_ok (nmemb * size) then Ret (nmemb * size)
    else Die "Out of memory".
Proof.
  unfold in_uint, xreallocarray, die_out_of_memory, SIZE_BITS. intros Hn Hs.
  destruct (Z.ltb_spec (nmemb * size) (2 ^ 64)) as [Hlt|Hge]; cbn [andb].
  - rewrite uint_small by (unfold in_uint; nia).
    destruct (Z.eqb_spec size 0) as [->|Hz]; [by rewrite andb_false_r, Z.mul_0_r|].
    rewrite Z.div_mul, Z.eqb_refl, andb_false_r by done. done.
  - assert (0 < size) by nia.
    pose proof (le_lor nmemb size ltac:(lia) ltac:(lia)).
    pose proof (le_lor size nmemb ltac:(lia) ltac:(lia)) as H1. rewrite Z.lor_comm in H1.
    unfold HALF_SIZE_T. replace (2 ^ 32 <=? Z.lor nmemb size) with true
      by (symmetry; apply Z.leb_le; change (2^64) with (2^32 * 2^32) in Hge; nia).
    replace (size =? 0) with false by lia. cbn [andb negb].
    set (bytes := uint 64 (nmemb * size)).
    pose proof (uint_range 64 (nmemb * size) ltac:(lia)) as Hb. unfold in_uint in Hb. fold bytes in Hb.
    destruct (Z.eqb_spec (bytes / size) nmemb) as [E|]; [|done].
    pose proof (Z.mul_div_le bytes size ltac:(lia)). nia.
Qed.

(** A successful growth makes room for at least one more member. *)
Lemma xgrowarray_grows is_null nmemb memb_size n :
  in_uint 64 nmemb -> 0 < memb_size <= DEFAULT_ALLOC_SIZE -> (is_null = true -> nmemb = 0) ->
  xgrowarray malloc_ok is_null nmemb memb_size = Ret n -> nmemb < n < 2 ^ 64.
Proof.
  unfold xgrowarray, in_uint, SIZE_BITS. intros Hn Hm Hnull.
  set (g := if is_null then _ else _).
  assert (Hg : 1 <= g < 2 ^ 64).
  { unfold g. destruct is_null.
    - rewrite Hnull by done. cbn [Z.eqb]. unfold ROUNDUP_DIV, DEFAULT_ALLOC_SIZE in *.
      change (64 * 8 / 4) with 128 in *. split.
      + apply Z.div_le_lower_bound; lia.
      + apply Z.div_lt_upper_bound; lia.
    - rewrite Z.shiftr_div_pow2 by lia. change (2 ^ 1) with 2.
      Z.to_euclidean_division_equations. lia. }
  clearbody g. destruct (Z.ltb_spec (uint 64 (nmemb + g)) nmemb) as [|Hge]; [done|].
  intros [b [_ [= <-]]]%outcome_bind_Ret.
  pose proof (uint_range 64 (nmemb + g) ltac:(lia)) as Hr. unfold in_uint in Hr.
  split; [|lia]. destruct (Z_lt_ge_dec (nmemb + g) (2 ^ 64)).
  - rewrite uint_small in * by (unfold in_uint; lia). lia.
  - unfold uint in *. replace ((nmemb + g) mod 2 ^ 64) with (nmemb + g - 2 ^ 64) in *.
    + lia.
    + apply Z.mod_unique_pos with 1; lia.
Qed.
End xmalloc_proofs.

Lemma xreallocarray_exact_witness :
  xreallocarray (fun _ => true) (2 ^ 62) 4 = Die "Out of memory"
  /\ xreallocarray (fun _ => true) (2 ^ 61) 7 = Ret (2 ^ 61 * 7).
Proof.
  split.
  - apply (xreallocarray_exact (fun _ => true) (2 ^ 62) 4); vm_compute; split; congruence.
  - apply (xreallocarray_exact (fun _ => true) (2 ^ 61) 7); vm_compute; split; congruence.
Defined.

(** ** Arenas *)

Definition arena_wf {A} (a : arena A) : Prop :=
  0 <= ar_size a <= lenZ (ar_vec a) /\ ar_size a <= 2 ^ 16 /\ lenZ (ar_vec a) < 2 ^ 64.

Section arena_proofs.
Context {A : Type} (malloc_ok : Z -> bool) (zero : A) (memb_size : Z).
Hypothesis memb_size_ok : 0 < memb_size <= DEFAULT_ALLOC_SIZE.

Lemma expand_vec_spec (a a' : arena A) :
  arena_wf a -> expand_vec malloc_ok zero memb_size a = Ret a' ->
  ar_size a' = ar_size a /\ lenZ (ar_vec a) < lenZ (ar_vec a') < 2 ^ 64
  /\ exists k, ar_vec a' = ar_vec a ++ replicate k zero.
Proof.
  intros (Hs & _ & Hc) (cap & Hg & [= <-])%outcome_bind_Ret. pose proof (lenZ_nonneg (ar_vec a)).
  apply xgrowarray_grows in Hg; [|by unfold in_uint|done|lia].
  split; [done|]. split; [|eauto].
  cbn [ar_vec]. rewrite lenZ_app, lenZ_replicate. lia.
Qed.

Lemma arena_new_spec msg1 msg2 v (a a' : arena A) idx :
  arena_wf a -> arena_new malloc_ok zero memb_size msg1 v a = Ret (idx, a') ->
  arena_wf a' /\ idx = ar_size a /\ ar_size a' = ar_size a + 1 /\ idx < 2 ^ 16
  /\ arena_get zero msg2 idx a' = Ret v
  /\ forall j, 0 <= j < ar_size a -> arena_get zero msg2 j a' = arena_get zero msg2 j a.
Proof.
  intros Hwf. unfold arena_new. destruct (Z.ltb_spec (uint 16 (ar_size a)) (ar_size a)) as [|Hlt]; [done|].
  destruct Hwf as (Hs & H16 & Hc).
  pose proof (uint_range 16 (ar_size a) ltac:(lia)) as Hr. unfold in_uint in Hr.
  rewrite (uint_small 16 (ar_size a)) in * by (unfold in_uint; lia).
  intros (a1 & He & [= <- <-])%outcome_bind_Ret.
  assert (H1 : ar_size a1 = ar_size a /\ ar_size a < lenZ (ar_vec a1) < 2 ^ 64
               /\ exists k, ar_vec a1 = ar_vec a ++ replicate k zero).
  { destruct (Z.eqb_spec (ar_size a) (lenZ (ar_vec a))) as [E|E].
    - apply expand_vec_spec in He as (? & ? & ?); [|done]. repeat split; try done; lia.
    - injection He as <-. repeat split; try lia. exists 0%nat. by rewrite app_nil_r. }
  destruct H1 as (E1 & Hlen & k & Ek). unfold arena_wf, arena_get. cbn [ar_vec ar_size].
  rewrite E1. unfold lenZ in *. rewrite length_insert.
  repeat split; try lia.
  - replace (ar_size a + 1 <=? ar_size a) with false by lia. f_equal.
    apply nth_lookup_Some. apply list_lookup_insert_eq. lia.
  - intros j Hj. replace (ar_size a + 1 <=? j) with false by lia.
    replace (ar_size a <=? j) with false by lia. f_equal.
    rewrite !nth_lookup. rewrite list_lookup_insert_ne by lia.
    rewrite Ek, lookup_app_l by lia. done.
Qed.
End arena_proofs.

(** A value stored by [retval_new] is read back by [retval_get] under the
    index returned, the earlier indices keep their values, and the invariant of
    the arena is kept. *)
Theorem retval_roundtrip malloc_ok rval a idx a' :
  arena_wf a -> retval_new malloc_ok rval a = Ret (idx, a') ->
  arena_wf a' /\ idx < 2 ^ 16 /\ retval_get idx a' = Ret rval
  /\ forall j, 0 <= j < ar_size a -> retval_get j a' = retval_get j a.
Proof.
  intros Hwf Hn. eapply (arena_new_spec malloc_ok 0 8) in Hn as (? & ? & ? & ? & ? & ?); try done.
Qed.

Lemma retval_roundtrip_witness :
  exists a', retval_new (fun _ => true) (-7) (mk_arena [] 0) = Ret (0, a')
             /\ retval_get 0 a' = Ret (-7).
Proof.
  eexists. split; [vm_compute; reflexivity|].
  refine (proj1 (proj2 (proj2 (retval_roundtrip (fun _ => true) (-7) (mk_arena [] 0) 0 _ _ _)))).
  - split; [vm_compute; split; congruence|]. split; [vm_compute; congruence|reflexivity].
  - vm_compute. reflexivity.
Defined.

(** An arena serves exactly 65536 allocations: while memory lasts the index
    allocation fails only when all 16-bit indices are taken. *)
Theorem retval_new_total rval a :
  arena_wf a ->
  retval_new (fun _ => true) rval a = Die "retval index overflow" <-> ar_size a = 2 ^ 16.
Proof.
  intros (Hs & H16 & Hc). unfold retval_new, arena_new. split.
  - destruct (Z.ltb_spec (uint 16 (ar_size a)) (ar_size a)) as [Hlt|].
    + intros _. destruct (Z.eq_dec (ar_size a) (2 ^ 16)); [done|].
      rewrite uint_small in Hlt by (unfold in_uint; lia). lia.
    + destruct (_ =? _); [|done]. unfold expand_vec, xgrowarray.
      destruct (_ <? _); [done|]. unfold xreallocarray. cbn. by destruct (_ && _ && _).
  - intros ->. done.
Qed.

Lemma retval_new_total_witness :
  retval_new (fun _ => true) 5 (mk_arena [1] 1) = Die "retval index overflow" <-> 1 = 2 ^ 16.
Proof. apply (retval_new_total 5 (mk_arena [1] 1)). vm_compute. repeat split; congruence. Defined.

(** [poke_add] keeps at most one payload per phase and argument of a poke
    list, and reports an error exactly for a duplicate. *)
Theorem poke_add_unique poke_idx poke a a' dup :
  let key p := (poke_is_enter p, arg_no p) in
  let at_idx x := nth (Z.to_nat poke_idx) (ar_vec x) [] in
  0 <= poke_idx < lenZ (ar_vec a) ->
  NoDup (map key (at_idx a)) -> poke_add poke_idx poke a = (a', dup) ->
  NoDup (map key (at_idx a'))
  /\ (dup = true <-> In (key poke) (map key (at_idx a)))
  /\ (dup = false -> at_idx a' = poke :: at_idx a).
Proof.
  intros key at_idx Hidx Hnd. unfold poke_add. fold (at_idx a).
  assert (Hex : forall l, existsb (fun i => eqb (poke_is_enter i) (poke_is_enter poke)
      && (arg_no i =? arg_no poke)) l = true <-> In (key poke) (map key l)).
  { intros l. rewrite existsb_exists, in_map_iff. split.
    - intros (x & Hin & E). exists x. split; [|done]. unfold key.
      apply andb_true_iff in E as [E1%eqb_prop E2%Z.eqb_eq]. by rewrite E1, E2.
    - intros (x & E & Hin). exists x. split; [done|]. unfold key in E. injection E as -> ->.
      by rewrite eqb_reflx, Z.eqb_refl. }
  specialize (Hex (at_idx a)).
  destruct (existsb _ _); intros [= <- <-].
  - split; [done|]. split; [|done]. tauto.
  - assert (E : at_idx (mk_arena (<[Z.to_nat poke_idx:=poke :: at_idx a]> (ar_vec a)) (ar_size a))
      = poke :: at_idx a).
    { unfold at_idx at 1. cbn [ar_vec]. apply nth_lookup_Some, list_lookup_insert_eq.
      unfold lenZ in Hidx. lia. }
    rewrite E. split; [|split; [|done]].
    + cbn [map]. apply List.NoDup_cons; [|done]. intuition congruence.
    + intuition congruence.
Qed.

Lemma poke_add_unique_witness :
  snd (poke_add 0 (mk_poke true 1 [7]) (mk_arena [[mk_poke true 1 [9]]] 1)) = true.
Proof.
  refine (proj2 (proj1 (proj2 (poke_add_unique 0 (mk_poke true 1 [7])
    (mk_arena [[mk_poke true 1 [9]]] 1) _ _ _ _ eq_refl))) _).
  - vm_compute. split; congruence.
  - apply List.NoDup_cons; [intros []|apply List.NoDup_nil].
  - left. reflexivity.
Defined.
