(* ===== verification/Tcb.v ===== *)
(** * Tracees: the table of tcbs, the tracer's state and its output

    The state strace keeps while it follows tracees (src/defs.h, src/strace.c):
    one [tcb] per tracee, the table that holds them, the queue of events that
    were waited for and not yet handled, the output stream.  Every request to
    the kernel (and to the architecture's register access) goes through the
    interface [Machine]; the requests made and the replies are recorded, so that theorems can
    speak about them.  The functions of the source are translated into the
    state monad [M], whose runs end normally, in a fatal error, or without
    fuel in the loops that wait for the kernel. *)

From stdpp Require Import gmap pretty.
From S2P Require Import Prelude NumberSet Wait Util.
Open Scope Z_scope.

(** ** Flags *)

Definition TCB_STARTUP := 0x01.
Definition TCB_IGNORE_ONE_SIGSTOP := 0x02.
Definition TCB_INSYSCALL := 0x04.
Definition TCB_ATTACHED := 0x08.
Definition TCB_REPRINT := 0x10.
Definition TCB_FILTERED := 0x20.
Definition TCB_TAMPERED := 0x40.
Definition TCB_HIDE_LOG := 0x80.
Definition TCB_CHECK_EXEC_SYSCALL := 0x100.
Definition TCB_SKIP_DETACH_ON_FIRST_EXEC := 0x200.
Definition TCB_GRABBED := 0x400.
Definition TCB_RECOVERING := 0x800.
Definition TCB_INJECT_DELAY_EXIT := 0x1000.
Definition TCB_INJECT_POKE_EXIT := 0x2000.
Definition TCB_DELAYED := 0x4000.
Definition TCB_TAMPERED_DELAYED := 0x8000.
Definition TCB_TAMPERED_POKED := 0x10000.
Definition TCB_TAMPERED_NO_FAIL := 0x20000.
Definition TCB_SECCOMP_FILTER := 0x40000.

Definition QUAL_TRACE := 0x001.
Definition QUAL_ABBREV := 0x002.
Definition QUAL_VERBOSE := 0x004.
Definition QUAL_RAW := 0x008.
Definition QUAL_INJECT := 0x010.
Definition DEFAULT_QUAL_FLAGS := Z.lor (Z.lor QUAL_TRACE QUAL_ABBREV) QUAL_VERBOSE.

Definition CFLAG_NONE := 0.
Definition CFLAG_ONLY_STATS := 1.
Definition CFLAG_BOTH := 2.

Definition QUIET_ATTACH := 0.
Definition QUIET_EXIT := 1.
Definition QUIET_PATH_RESOLVE := 2.
Definition QUIET_PERSONALITY := 3.
Definition QUIET_THREAD_EXECVE := 4.

Definition STATUS_SUCCESSFUL := 0.
Definition STATUS_FAILED := 1.
Definition STATUS_UNFINISHED := 2.
Definition STATUS_UNAVAILABLE := 3.
Definition STATUS_DETACHED := 4.
Definition NUMBER_OF_STATUSES := 5.

(** [flags |= m] and [flags &= ~m]. *)
Definition set_bits (f m : Z) : Z := Z.lor f m.
Definition clear_bits (f m : Z) : Z := Z.land f (Z.lnot m).

(** ** Data *)

(** [enum trace_event]; [TE_BREAK] is the zero of a cleared wait record. *)
Inductive trace_event :=
  | TE_BREAK | TE_NEXT | TE_RESTART | TE_SYSCALL_STOP | TE_SIGNAL_DELIVERY_STOP
  | TE_SIGNALLED | TE_GROUP_STOP | TE_EXITED | TE_STOP_BEFORE_EXECVE
  | TE_STOP_BEFORE_EXIT | TE_SECCOMP.

#[export] Instance trace_event_eq_dec : EqDecision trace_event.
Proof. solve_decision. Defined.

Record tcb_wait_data := mk_wd {
  te : trace_event;
  status : Z;
  msg : Z;              (* PTRACE_GETEVENTMSG of an exec event *)
}.

Definition wd0 : tcb_wait_data := mk_wd TE_BREAK 0 0.

Record sysent := mk_sysent {
  nargs : Z;
  sysent_flags : Z;
  sen : Z;
  sys_name : string;
}.

Record inject_data := mk_inject_data {
  inject_flags : Z;
  signo : Z;
  rval_idx : Z;
  delay_idx : Z;
  poke_idx : Z;
  inject_scno : Z;
}.

Record inject_opts := mk_inject_opts {
  first : Z;
  last : Z;
  step : Z;
  data : inject_data;
}.

(** The output file of a tracee: the shared log, or its own file under -ff. *)
Inductive file := shared_log | own_log (pid : Z).

#[export] Instance file_eq_dec : EqDecision file.
Proof. solve_decision. Defined.

(** [FILE *]: none, an output file, or a memory stream.  The contents of the
    memory stream in use are in [staged_output]; what is written to a memory
    stream nobody refers to any more is lost. *)
Inductive stream := Null | File (f : file) | Mem.

Record staged_output := mk_staged {
  memf : list string;
  real_outf : stream;
}.

(** The part of [struct ptrace_syscall_info] strace uses; 0xff is the
    marker of [clear_regs]. *)
Record syscall_info := mk_sci {
  sci_op : Z;
  entry_nr : Z;
  exit_is_error : bool;
  exit_rval : Z;
}.

Definition PTRACE_SYSCALL_INFO_NONE := 0.
Definition PTRACE_SYSCALL_INFO_ENTRY := 1.
Definition PTRACE_SYSCALL_INFO_EXIT := 2.
Definition PTRACE_SYSCALL_INFO_SECCOMP := 3.
Definition sci_cleared : syscall_info := mk_sci 0xff 0 false 0.

Record tcb := mk_tcb {
  flags : Z;
  pid : Z;  (* 0: the entry is free *)
  qual_flg : Z;
  currpers : Z;
  u_error : Z;
  scno : Z;
  u_rval : Z;
  sys_func_rval : Z;
  curcol : Z;
  outf : stream;
  staged_output_data : option staged_output;
  s_ent : option sysent;
  s_prev_ent : option sysent;
  tcb_inject_vec : gmap Z (list inject_opts);  (* inject_vec[personality] *)
  stime : timespec;
  ltime : timespec;
  atime : timespec;
  etime : timespec;
  delay_expiration_time : timespec;
  wait_data_idx : nat;
  delayed_wait_data : option tcb_wait_data;
}.

(** The state [memset] leaves. *)
Definition ts0 : timespec := mk_ts 0 0.
Definition tcb0 : tcb :=
  mk_tcb 0 0 0 0 0 0 0 0 0 Null None None None ∅ ts0 ts0 ts0 ts0 ts0 0 None.

Definition set_flags (v : Z) (t : tcb) : tcb :=   mk_tcb v (pid t) (qual_flg t) (currpers t)
    (u_error t) (scno t) (u_rval t) (sys_func_rval t) (curcol t) (outf t) (staged_output_data t)
    (s_ent t) (s_prev_ent t) (tcb_inject_vec t) (stime t) (ltime t) (atime t) (etime t)
    (delay_expiration_time t) (wait_data_idx t) (delayed_wait_data t).
Definition set_pid (v : Z) (t : tcb) : tcb :=   mk_tcb (flags t) v (qual_flg t) (currpers t)
    (u_error t) (scno t) (u_rval t) (sys_func_rval t) (curcol t) (outf t) (staged_output_data t)
    (s_ent t) (s_prev_ent t) (tcb_inject_vec t) (stime t) (ltime t) (atime t) (etime t)
    (delay_expiration_time t) (wait_data_idx t) (delayed_wait_data t).
Definition set_qual_flg (v : Z) (t : tcb) : tcb :=   mk_tcb (flags t) (pid t) v (currpers t)
    (u_error t) (scno t) (u_rval t) (sys_func_rval t) (curcol t) (outf t) (staged_output_data t)
    (s_ent t) (s_prev_ent t) (tcb_inject_vec t) (stime t) (ltime t) (atime t) (etime t)
    (delay_expiration_time t) (wait_data_idx t) (delayed_wait_data t).
Definition set_currpers (v : Z) (t : tcb) : tcb :=   mk_tcb (flags t) (pid t) (qual_flg t) v
    (u_error t) (scno t) (u_rval t) (sys_func_rval t) (curcol t) (outf t) (staged_output_data t)
    (s_ent t) (s_prev_ent t) (tcb_inject_vec t) (stime t) (ltime t) (atime t) (etime t)
    (delay_expiration_time t) (wait_data_idx t) (delayed_wait_data t).
Definition set_u_error (v : Z) (t : tcb) : tcb :=   mk_tcb (flags t) (pid t) (qual_flg t)
    (currpers t) v (scno t) (u_rval t) (sys_func_rval t) (curcol t) (outf t) (staged_output_data
    t) (s_ent t) (s_prev_ent t) (tcb_inject_vec t) (stime t) (ltime t) (atime t) (etime t)
    (delay_expiration_time t) (wait_data_idx t) (delayed_wait_data t).
Definition set_scno (v : Z) (t : tcb) : tcb :=   mk_tcb (flags t) (pid t) (qual_flg t) (currpers
    t) (u_error t) v (u_rval t) (sys_func_rval t) (curcol t) (outf t) (staged_output_data t)
    (s_ent t) (s_prev_ent t) (tcb_inject_vec t) (stime t) (ltime t) (atime t) (etime t)
    (delay_expiration_time t) (wait_data_idx t) (delayed_wait_data t).
Definition set_u_rval (v : Z) (t : tcb) : tcb :=   mk_tcb (flags t) (pid t) (qual_flg t)
    (currpers t) (u_error t) (scno t) v (sys_func_rval t) (curcol t) (outf t)
    (staged_output_data t) (s_ent t) (s_prev_ent t) (tcb_inject_vec t) (stime t) (ltime t)
    (atime t) (etime t) (delay_expiration_time t) (wait_data_idx t) (delayed_wait_data t).
Definition set_sys_func_rval (v : Z) (t : tcb) : tcb :=   mk_tcb (flags t) (pid t) (qual_flg t)
    (currpers t) (u_error t) (scno t) (u_rval t) v (curcol t) (outf t) (staged_output_data t)
    (s_ent t) (s_prev_ent t) (tcb_inject_vec t) (stime t) (ltime t) (atime t) (etime t)
    (delay_expiration_time t) (wait_data_idx t) (delayed_wait_data t).
Definition set_curcol (v : Z) (t : tcb) : tcb :=   mk_tcb (flags t) (pid t) (qual_flg t)
    (currpers t) (u_error t) (scno t) (u_rval t) (sys_func_rval t) v (outf t)
    (staged_output_data t) (s_ent t) (s_prev_ent t) (tcb_inject_vec t) (stime t) (ltime t)
    (atime t) (etime t) (delay_expiration_time t) (wait_data_idx t) (delayed_wait_data t).
Definition set_outf (v : stream) (t : tcb) : tcb :=   mk_tcb (flags t) (pid t) (qual_flg t)
    (currpers t) (u_error t) (scno t) (u_rval t) (sys_func_rval t) (curcol t) v
    (staged_output_data t) (s_ent t) (s_prev_ent t) (tcb_inject_vec t) (stime t) (ltime t)
    (atime t) (etime t) (delay_expiration_time t) (wait_data_idx t) (delayed_wait_data t).
Definition set_staged_output_data (v : option staged_output) (t : tcb) : tcb :=   mk_tcb (flags
    t) (pid t) (qual_flg t) (currpers t) (u_error t) (scno t) (u_rval t) (sys_func_rval t)
    (curcol t) (outf t) v (s_ent t) (s_prev_ent t) (tcb_inject_vec t) (stime t) (ltime t) (atime
    t) (etime t) (delay_expiration_time t) (wait_data_idx t) (delayed_wait_data t).
Definition set_s_ent (v : option sysent) (t : tcb) : tcb :=   mk_tcb (flags t) (pid t) (qual_flg
    t) (currpers t) (u_error t) (scno t) (u_rval t) (sys_func_rval t) (curcol t) (outf t)
    (staged_output_data t) v (s_prev_ent t) (tcb_inject_vec t) (stime t) (ltime t) (atime t)
    (etime t) (delay_expiration_time t) (wait_data_idx t) (delayed_wait_data t).
Definition set_s_prev_ent (v : option sysent) (t : tcb) : tcb :=   mk_tcb (flags t) (pid t)
    (qual_flg t) (currpers t) (u_error t) (scno t) (u_rval t) (sys_func_rval t) (curcol t) (outf
    t) (staged_output_data t) (s_ent t) v (tcb_inject_vec t) (stime t) (ltime t) (atime t)
    (etime t) (delay_expiration_time t) (wait_data_idx t) (delayed_wait_data t).
Definition set_tcb_inject_vec (v : gmap Z (list inject_opts)) (t : tcb) : tcb :=   mk_tcb (flags
    t) (pid t) (qual_flg t) (currpers t) (u_error t) (scno t) (u_rval t) (sys_func_rval t)
    (curcol t) (outf t) (staged_output_data t) (s_ent t) (s_prev_ent t) v (stime t) (ltime t)
    (atime t) (etime t) (delay_expiration_time t) (wait_data_idx t) (delayed_wait_data t).
Definition set_stime (v : timespec) (t : tcb) : tcb :=   mk_tcb (flags t) (pid t) (qual_flg t)
    (currpers t) (u_error t) (scno t) (u_rval t) (sys_func_rval t) (curcol t) (outf t)
    (staged_output_data t) (s_ent t) (s_prev_ent t) (tcb_inject_vec t) v (ltime t) (atime t)
    (etime t) (delay_expiration_time t) (wait_data_idx t) (delayed_wait_data t).
Definition set_ltime (v : timespec) (t : tcb) : tcb :=   mk_tcb (flags t) (pid t) (qual_flg t)
    (currpers t) (u_error t) (scno t) (u_rval t) (sys_func_rval t) (curcol t) (outf t)
    (staged_output_data t) (s_ent t) (s_prev_ent t) (tcb_inject_vec t) (stime t) v (atime t)
    (etime t) (delay_expiration_time t) (wait_data_idx t) (delayed_wait_data t).
Definition set_atime (v : timespec) (t : tcb) : tcb :=   mk_tcb (flags t) (pid t) (qual_flg t)
    (currpers t) (u_error t) (scno t) (u_rval t) (sys_func_rval t) (curcol t) (outf t)
    (staged_output_data t) (s_ent t) (s_prev_ent t) (tcb_inject_vec t) (stime t) (ltime t) v
    (etime t) (delay_expiration_time t) (wait_data_idx t) (delayed_wait_data t).
Definition set_etime (v : timespec) (t : tcb) : tcb :=   mk_tcb (flags t) (pid t) (qual_flg t)
    (currpers t) (u_error t) (scno t) (u_rval t) (sys_func_rval t) (curcol t) (outf t)
    (staged_output_data t) (s_ent t) (s_prev_ent t) (tcb_inject_vec t) (stime t) (ltime t)
    (atime t) v (delay_expiration_time t) (wait_data_idx t) (delayed_wait_data t).
Definition set_delay_expiration_time (v : timespec) (t : tcb) : tcb :=   mk_tcb (flags t) (pid
    t) (qual_flg t) (currpers t) (u_error t) (scno t) (u_rval t) (sys_func_rval t) (curcol t)
    (outf t) (staged_output_data t) (s_ent t) (s_prev_ent t) (tcb_inject_vec t) (stime t) (ltime
    t) (atime t) (etime t) v (wait_data_idx t) (delayed_wait_data t).
Definition set_wait_data_idx (v : nat) (t : tcb) : tcb :=   mk_tcb (flags t) (pid t) (qual_flg
    t) (currpers t) (u_error t) (scno t) (u_rval t) (sys_func_rval t) (curcol t) (outf t)
    (staged_output_data t) (s_ent t) (s_prev_ent t) (tcb_inject_vec t) (stime t) (ltime t)
    (atime t) (etime t) (delay_expiration_time t) v (delayed_wait_data t).
Definition set_delayed_wait_data (v : option tcb_wait_data) (t : tcb) : tcb :=   mk_tcb (flags
    t) (pid t) (qual_flg t) (currpers t) (u_error t) (scno t) (u_rval t) (sys_func_rval t)
    (curcol t) (outf t) (staged_output_data t) (s_ent t) (s_prev_ent t) (tcb_inject_vec t)
    (stime t) (ltime t) (atime t) (etime t) (delay_expiration_time t) (wait_data_idx t) v.

Definition entering (t : tcb) : bool := negb (has (flags t) TCB_INSYSCALL).
Definition exiting (t : tcb) : bool := has (flags t) TCB_INSYSCALL.
Definition syserror (t : tcb) : bool := negb (u_error t =? 0).
Definition flag (m : Z) (t : tcb) : bool := has (flags t) m.
Definition qual (m : Z) (t : tcb) : bool := has (qual_flg t) m.
Definition flag_on (m : Z) (t : tcb) : tcb := set_flags (set_bits (flags t) m) t.
Definition flag_off (m : Z) (t : tcb) : tcb := set_flags (clear_bits (flags t) m) t.

(** ** The environment

    What strace asks of the kernel, and of the architecture-specific
    accessors of registers under src/linux/. *)

Inductive request :=
  | Wait4 (nohang : bool)
  | Waitpid (pid : Z)
  | Ptrace (op pid data : Z)
  | Tkill (pid sig : Z)
  | Kill (pid sig : Z)
  | ClockMonotonic
  | TimerCreate
  | TimerGettime
  | TimerExpired
  | TimerSettime (t : timespec)
  | GetSyscallInfo (pid : Z)
  | SetSyscallInfo (pid : Z) (i : syscall_info)
  | GetRegs (pid : Z)
  | ArchCheckScno (pid : Z)
  | ArchGetScno (pid : Z)
  | ArchGetSyscallArgs (pid : Z)
  | ArchSetScno (pid scno : Z)
  | ArchGetError (pid : Z) (check_errno : bool)
  | ArchSetError (pid err : Z)
  | ArchSetSuccess (pid rval : Z)
  | Upoken (pid arg_no : Z) (data : list Z).

Record reply := mk_reply {
  rc : Z;                  (* the value returned *)
  errno : Z;
  wstatus : Z;             (* the status of a wait *)
  value : Z;               (* a result stored through a pointer *)
  rtime : timespec;        (* a time or rusage *)
  info : syscall_info;
}.

Class Machine := {
  kstate : Type;
  answer : request -> kstate -> reply * kstate;
}.

(** ** The tracer's state *)

Section state.
Context {MA : Machine}.

Record st := mk_st {
  tcbtab : list tcb;  (* tcbtab[i] is the tcb i points to *)
  nprocs : Z;
  current_tcp : option nat;
  printing_tcp : option nat;
  current_personality : Z;
  pid2tcb_cache : gmap Z nat;
  pending_tcps : list nat;  (* the list through wait_list *)
  extra_tcp : option nat;
  wait_extra_data_idx : nat;
  tcb_wait_tab : list tcb_wait_data;
  ptrace_sci : syscall_info;
  get_regs_error : Z;
  delay_timer_created : bool;
  delay_timer_is_armed : bool;
  interrupted : Z;
  restart_failed : bool;
  exit_code : Z;
  strace_child : Z;
  popen_pid : Z;
  syscall_limit : Z;
  calls_counted : list Z;  (* syscalls passed to count_syscall *)
  log : list (file * string);  (* what was written to the output files *)
  kernel : kstate;
  requests : list (request * reply);  (* the requests made so far and their replies, in order *)
}.

Definition set_tcbtab (v : list tcb) (s : st) : st :=   mk_st v (nprocs s) (current_tcp s)
    (printing_tcp s) (current_personality s) (pid2tcb_cache s) (pending_tcps s) (extra_tcp s)
    (wait_extra_data_idx s) (tcb_wait_tab s) (ptrace_sci s) (get_regs_error s)
    (delay_timer_created s) (delay_timer_is_armed s) (interrupted s) (restart_failed s)
    (exit_code s) (strace_child s) (popen_pid s) (syscall_limit s) (calls_counted s) (log s)
    (kernel s) (requests s).
Definition set_nprocs (v : Z) (s : st) : st :=   mk_st (tcbtab s) v (current_tcp s)
    (printing_tcp s) (current_personality s) (pid2tcb_cache s) (pending_tcps s) (extra_tcp s)
    (wait_extra_data_idx s) (tcb_wait_tab s) (ptrace_sci s) (get_regs_error s)
    (delay_timer_created s) (delay_timer_is_armed s) (interrupted s) (restart_failed s)
    (exit_code s) (strace_child s) (popen_pid s) (syscall_limit s) (calls_counted s) (log s)
    (kernel s) (requests s).
Definition set_current_tcp (v : option nat) (s : st) : st :=   mk_st (tcbtab s) (nprocs s) v
    (printing_tcp s) (current_personality s) (pid2tcb_cache s) (pending_tcps s) (extra_tcp s)
    (wait_extra_data_idx s) (tcb_wait_tab s) (ptrace_sci s) (get_regs_error s)
    (delay_timer_created s) (delay_timer_is_armed s) (interrupted s) (restart_failed s)
    (exit_code s) (strace_child s) (popen_pid s) (syscall_limit s) (calls_counted s) (log s)
    (kernel s) (requests s).
Definition set_printing_tcp (v : option nat) (s : st) : st :=   mk_st (tcbtab s) (nprocs s)
    (current_tcp s) v (current_personality s) (pid2tcb_cache s) (pending_tcps s) (extra_tcp s)
    (wait_extra_data_idx s) (tcb_wait_tab s) (ptrace_sci s) (get_regs_error s)
    (delay_timer_created s) (delay_timer_is_armed s) (interrupted s) (restart_failed s)
    (exit_code s) (strace_child s) (popen_pid s) (syscall_limit s) (calls_counted s) (log s)
    (kernel s) (requests s).
Definition set_current_personality (v : Z) (s : st) : st :=   mk_st (tcbtab s) (nprocs s)
    (current_tcp s) (printing_tcp s) v (pid2tcb_cache s) (pending_tcps s) (extra_tcp s)
    (wait_extra_data_idx s) (tcb_wait_tab s) (ptrace_sci s) (get_regs_error s)
    (delay_timer_created s) (delay_timer_is_armed s) (interrupted s) (restart_failed s)
    (exit_code s) (strace_child s) (popen_pid s) (syscall_limit s) (calls_counted s) (log s)
    (kernel s) (requests s).
Definition set_pid2tcb_cache (v : gmap Z nat) (s : st) : st :=   mk_st (tcbtab s) (nprocs s)
    (current_tcp s) (printing_tcp s) (current_personality s) v (pending_tcps s) (extra_tcp s)
    (wait_extra_data_idx s) (tcb_wait_tab s) (ptrace_sci s) (get_regs_error s)
    (delay_timer_created s) (delay_timer_is_armed s) (interrupted s) (restart_failed s)
    (exit_code s) (strace_child s) (popen_pid s) (syscall_limit s) (calls_counted s) (log s)
    (kernel s) (requests s).
Definition set_pending_tcps (v : list nat) (s : st) : st :=   mk_st (tcbtab s) (nprocs s)
    (current_tcp s) (printing_tcp s) (current_personality s) (pid2tcb_cache s) v (extra_tcp s)
    (wait_extra_data_idx s) (tcb_wait_tab s) (ptrace_sci s) (get_regs_error s)
    (delay_timer_created s) (delay_timer_is_armed s) (interrupted s) (restart_failed s)
    (exit_code s) (strace_child s) (popen_pid s) (syscall_limit s) (calls_counted s) (log s)
    (kernel s) (requests s).
Definition set_extra_tcp (v : option nat) (s : st) : st :=   mk_st (tcbtab s) (nprocs s)
    (current_tcp s) (printing_tcp s) (current_personality s) (pid2tcb_cache s) (pending_tcps s)
    v (wait_extra_data_idx s) (tcb_wait_tab s) (ptrace_sci s) (get_regs_error s)
    (delay_timer_created s) (delay_timer_is_armed s) (interrupted s) (restart_failed s)
    (exit_code s) (strace_child s) (popen_pid s) (syscall_limit s) (calls_counted s) (log s)
    (kernel s) (requests s).
Definition set_wait_extra_data_idx (v : nat) (s : st) : st :=   mk_st (tcbtab s) (nprocs s)
    (current_tcp s) (printing_tcp s) (current_personality s) (pid2tcb_cache s) (pending_tcps s)
    (extra_tcp s) v (tcb_wait_tab s) (ptrace_sci s) (get_regs_error s) (delay_timer_created s)
    (delay_timer_is_armed s) (interrupted s) (restart_failed s) (exit_code s) (strace_child s)
    (popen_pid s) (syscall_limit s) (calls_counted s) (log s) (kernel s) (requests s).
Definition set_tcb_wait_tab (v : list tcb_wait_data) (s : st) : st :=   mk_st (tcbtab s) (nprocs
    s) (current_tcp s) (printing_tcp s) (current_personality s) (pid2tcb_cache s) (pending_tcps
    s) (extra_tcp s) (wait_extra_data_idx s) v (ptrace_sci s) (get_regs_error s)
    (delay_timer_created s) (delay_timer_is_armed s) (interrupted s) (restart_failed s)
    (exit_code s) (strace_child s) (popen_pid s) (syscall_limit s) (calls_counted s) (log s)
    (kernel s) (requests s).
Definition set_ptrace_sci (v : syscall_info) (s : st) : st :=   mk_st (tcbtab s) (nprocs s)
    (current_tcp s) (printing_tcp s) (current_personality s) (pid2tcb_cache s) (pending_tcps s)
    (extra_tcp s) (wait_extra_data_idx s) (tcb_wait_tab s) v (get_regs_error s)
    (delay_timer_created s) (delay_timer_is_armed s) (interrupted s) (restart_failed s)
    (exit_code s) (strace_child s) (popen_pid s) (syscall_limit s) (calls_counted s) (log s)
    (kernel s) (requests s).
Definition set_get_regs_error (v : Z) (s : st) : st :=   mk_st (tcbtab s) (nprocs s)
    (current_tcp s) (printing_tcp s) (current_personality s) (pid2tcb_cache s) (pending_tcps s)
    (extra_tcp s) (wait_extra_data_idx s) (tcb_wait_tab s) (ptrace_sci s) v (delay_timer_created
    s) (delay_timer_is_armed s) (interrupted s) (restart_failed s) (exit_code s) (strace_child
    s) (popen_pid s) (syscall_limit s) (calls_counted s) (log s) (kernel s) (requests s).
Definition set_delay_timer_created (v : bool) (s : st) : st :=   mk_st (tcbtab s) (nprocs s)
    (current_tcp s) (printing_tcp s) (current_personality s) (pid2tcb_cache s) (pending_tcps s)
    (extra_tcp s) (wait_extra_data_idx s) (tcb_wait_tab s) (ptrace_sci s) (get_regs_error s) v
    (delay_timer_is_armed s) (interrupted s) (restart_failed s) (exit_code s) (strace_child s)
    (popen_pid s) (syscall_limit s) (calls_counted s) (log s) (kernel s) (requests s).
Definition set_delay_timer_is_armed (v : bool) (s : st) : st :=   mk_st (tcbtab s) (nprocs s)
    (current_tcp s) (printing_tcp s) (current_personality s) (pid2tcb_cache s) (pending_tcps s)
    (extra_tcp s) (wait_extra_data_idx s) (tcb_wait_tab s) (ptrace_sci s) (get_regs_error s)
    (delay_timer_created s) v (interrupted s) (restart_failed s) (exit_code s) (strace_child s)
    (popen_pid s) (syscall_limit s) (calls_counted s) (log s) (kernel s) (requests s).
Definition set_interrupted (v : Z) (s : st) : st :=   mk_st (tcbtab s) (nprocs s) (current_tcp
    s) (printing_tcp s) (current_personality s) (pid2tcb_cache s) (pending_tcps s) (extra_tcp s)
    (wait_extra_data_idx s) (tcb_wait_tab s) (ptrace_sci s) (get_regs_error s)
    (delay_timer_created s) (delay_timer_is_armed s) v (restart_failed s) (exit_code s)
    (strace_child s) (popen_pid s) (syscall_limit s) (calls_counted s) (log s) (kernel s)
    (requests s).
Definition set_restart_failed (v : bool) (s : st) : st :=   mk_st (tcbtab s) (nprocs s)
    (current_tcp s) (printing_tcp s) (current_personality s) (pid2tcb_cache s) (pending_tcps s)
    (extra_tcp s) (wait_extra_data_idx s) (tcb_wait_tab s) (ptrace_sci s) (get_regs_error s)
    (delay_timer_created s) (delay_timer_is_armed s) (interrupted s) v (exit_code s)
    (strace_child s) (popen_pid s) (syscall_limit s) (calls_counted s) (log s) (kernel s)
    (requests s).
Definition set_exit_code (v : Z) (s : st) : st :=   mk_st (tcbtab s) (nprocs s) (current_tcp s)
    (printing_tcp s) (current_personality s) (pid2tcb_cache s) (pending_tcps s) (extra_tcp s)
    (wait_extra_data_idx s) (tcb_wait_tab s) (ptrace_sci s) (get_regs_error s)
    (delay_timer_created s) (delay_timer_is_armed s) (interrupted s) (restart_failed s) v
    (strace_child s) (popen_pid s) (syscall_limit s) (calls_counted s) (log s) (kernel s)
    (requests s).
Definition set_strace_child (v : Z) (s : st) : st :=   mk_st (tcbtab s) (nprocs s) (current_tcp
    s) (printing_tcp s) (current_personality s) (pid2tcb_cache s) (pending_tcps s) (extra_tcp s)
    (wait_extra_data_idx s) (tcb_wait_tab s) (ptrace_sci s) (get_regs_error s)
    (delay_timer_created s) (delay_timer_is_armed s) (interrupted s) (restart_failed s)
    (exit_code s) v (popen_pid s) (syscall_limit s) (calls_counted s) (log s) (kernel s)
    (requests s).
Definition set_popen_pid (v : Z) (s : st) : st :=   mk_st (tcbtab s) (nprocs s) (current_tcp s)
    (printing_tcp s) (current_personality s) (pid2tcb_cache s) (pending_tcps s) (extra_tcp s)
    (wait_extra_data_idx s) (tcb_wait_tab s) (ptrace_sci s) (get_regs_error s)
    (delay_timer_created s) (delay_timer_is_armed s) (interrupted s) (restart_failed s)
    (exit_code s) (strace_child s) v (syscall_limit s) (calls_counted s) (log s) (kernel s)
    (requests s).
Definition set_syscall_limit (v : Z) (s : st) : st :=   mk_st (tcbtab s) (nprocs s) (current_tcp
    s) (printing_tcp s) (current_personality s) (pid2tcb_cache s) (pending_tcps s) (extra_tcp s)
    (wait_extra_data_idx s) (tcb_wait_tab s) (ptrace_sci s) (get_regs_error s)
    (delay_timer_created s) (delay_timer_is_armed s) (interrupted s) (restart_failed s)
    (exit_code s) (strace_child s) (popen_pid s) v (calls_counted s) (log s) (kernel s)
    (requests s).
Definition set_calls_counted (v : list Z) (s : st) : st :=   mk_st (tcbtab s) (nprocs s)
    (current_tcp s) (printing_tcp s) (current_personality s) (pid2tcb_cache s) (pending_tcps s)
    (extra_tcp s) (wait_extra_data_idx s) (tcb_wait_tab s) (ptrace_sci s) (get_regs_error s)
    (delay_timer_created s) (delay_timer_is_armed s) (interrupted s) (restart_failed s)
    (exit_code s) (strace_child s) (popen_pid s) (syscall_limit s) v (log s) (kernel s)
    (requests s).
Definition set_log (v : list (file * string)) (s : st) : st :=   mk_st (tcbtab s) (nprocs s)
    (current_tcp s) (printing_tcp s) (current_personality s) (pid2tcb_cache s) (pending_tcps s)
    (extra_tcp s) (wait_extra_data_idx s) (tcb_wait_tab s) (ptrace_sci s) (get_regs_error s)
    (delay_timer_created s) (delay_timer_is_armed s) (interrupted s) (restart_failed s)
    (exit_code s) (strace_child s) (popen_pid s) (syscall_limit s) (calls_counted s) v (kernel
    s) (requests s).
Definition set_kernel (v : kstate) (s : st) : st :=   mk_st (tcbtab s) (nprocs s) (current_tcp
    s) (printing_tcp s) (current_personality s) (pid2tcb_cache s) (pending_tcps s) (extra_tcp s)
    (wait_extra_data_idx s) (tcb_wait_tab s) (ptrace_sci s) (get_regs_error s)
    (delay_timer_created s) (delay_timer_is_armed s) (interrupted s) (restart_failed s)
    (exit_code s) (strace_child s) (popen_pid s) (syscall_limit s) (calls_counted s) (log s) v
    (requests s).
Definition set_requests (v : list (request * reply)) (s : st) : st :=   mk_st (tcbtab s) (nprocs
    s) (current_tcp s) (printing_tcp s) (current_personality s) (pid2tcb_cache s) (pending_tcps
    s) (extra_tcp s) (wait_extra_data_idx s) (tcb_wait_tab s) (ptrace_sci s) (get_regs_error s)
    (delay_timer_created s) (delay_timer_is_armed s) (interrupted s) (restart_failed s)
    (exit_code s) (strace_child s) (popen_pid s) (syscall_limit s) (calls_counted s) (log s)
    (kernel s) v.

(** ** The monad *)

Inductive result (A : Type) :=
  | Done (a : A) (s : st)
  | Fatal (m : string)          (* a _and_die message, or a write through NULL *)
  | NoFuel.
Arguments Done {A} a s.
Arguments Fatal {A} m.
Arguments NoFuel {A}.

Definition M (A : Type) : Type := st -> result A.

#[export] Instance M_ret : MRet M := fun A a s => Done a s.
#[export] Instance M_bind : MBind M :=
  fun A B k m s => match m s with
                   | Done a s' => k a s'
                   | Fatal e => Fatal e
                   | NoFuel => NoFuel
                   end.

Definition gets {A} (f : st -> A) : M A := fun s => Done (f s) s.
Definition modify (f : st -> st) : M () := fun s => Done tt (f s).
Definition die {A} (m : string) : M A := fun _ => Fatal m.
Definition out_of_fuel {A} : M A := fun _ => NoFuel.
Definition when (b : bool) (m : M ()) : M () := if b then m else mret tt.

Definition ask (q : request) : M reply := fun s =>
  let '(r, k) := answer q (kernel s) in
  Done r (set_requests (requests s ++ [(q, r)]) (set_kernel k s)).

Definition tcb_at (s : st) (i : nat) : tcb := nth i (tcbtab s) tcb0.
Definition get_tcb (i : nat) : M tcb := gets (fun s => tcb_at s i).
Definition upd_tcb (i : nat) (f : tcb -> tcb) : M () :=
  modify (fun s => set_tcbtab (alter f i (tcbtab s)) s).

End state.

Arguments Done {MA A} a s.
Arguments Fatal {MA A} m.
Arguments NoFuel {MA A}.
