(* ===== verification/PrintArray.v ===== *)
(** * Objects and arrays of a tracee (src/util.c)

    Fetching an object of a tracee's memory, with the conditions under which a
    decoder looks at it, and [print_array_ex], by which the decoders print
    arrays: elements are fetched one after the other and printed by a callback. *)

From S2P Require Import Prelude Wait Util Xlat Quote UCopy PrintStr Tcb.
Open Scope Z_scope.

Definition PAF_PRINT_INDICES : Z := 0x20.
Definition PAF_ARRAY_TRUNCATED : Z := 0x40.
Definition XLAT_STYLE_MASK : Z := 0xf.

(** ** Fetching *)

Section fetch.
Context {TM : TraceeMemory}.
Variables (page_size : Z) (narrow : bool).

Definition verbose (t : tcb) : bool := has (qual_flg t) QUAL_VERBOSE.
Definition abbrev (t : tcb) : bool := has (qual_flg t) QUAL_ABBREV.
Definition entering (t : tcb) : bool := negb (has (flags t) TCB_INSYSCALL).
Definition syserror (t : tcb) : bool := negb (u_error t =? 0).

(** The bytes stored on success, and the cache. *)
Definition tfetch_mem64_ignore_syserror (t : tcb) (m : mstate) (c : ucopy) (addr len : Z)
  : option (option (list Z) * ucopy) :=
  if negb (addr =? 0) && verbose t then
    '(rc, bytes, c) ← umoven page_size narrow m c addr len;
    Some (if rc =? 0 then Some bytes else None, c)
  else Some (None, c).

Definition tfetch_mem64 (t : tcb) (m : mstate) (c : ucopy) (addr len : Z) : option (option (list Z) * ucopy) :=
  if negb (addr =? 0) && verbose t && (entering t || negb (syserror t)) then
    '(rc, bytes, c) ← umoven page_size narrow m c addr len;
    Some (if rc =? 0 then Some bytes else None, c)
  else Some (None, c).

(** The text printed when nothing is fetched. *)
Definition umoven_or_printaddr64 (t : tcb) (m : mstate) (c : ucopy) (addr len : Z)
  : option ((list Z + list Z) * ucopy) :=
  '(r, c) ← tfetch_mem64 t m c addr len;
  Some (match r with Some bytes => inl bytes | None => inr (printaddr64 addr) end, c).

Definition umoven_or_printaddr64_ignore_syserror (t : tcb) (m : mstate) (c : ucopy) (addr len : Z)
  : option ((list Z + list Z) * ucopy) :=
  '(r, c) ← tfetch_mem64_ignore_syserror t m c addr len;
  Some (match r with Some bytes => inl bytes | None => inr (printaddr64 addr) end, c).

(** The value of bytes, the least significant one first, or last. *)
Fixpoint le_value (l : list Z) : Z := match l with [] => 0 | c :: l' => c + 256 * le_value l' end.
Definition word_value (is_bigendian : bool) (l : list Z) : Z := le_value (if is_bigendian then rev l else l).

(** [data.val] after [len] bytes are stored at [offs] of a zero word. *)
Definition tfetch_to_uint64_64 (is_bigendian : bool) (t : tcb) (m : mstate) (c : ucopy) (addr len : Z)
  : option (option Z * ucopy) :=
  if len <=? 8 then
    '(r, c) ← tfetch_mem64_ignore_syserror t m c addr len;
    let zeros := replicate (Z.to_nat (8 - len)) 0 in
    Some (match r with
          | Some bytes => Some (word_value is_bigendian (if is_bigendian then zeros ++ bytes else bytes ++ zeros))
          | None => None
          end, c)
  else Some (None, c).
End fetch.

(** ** Arrays *)

Section array.
(** What the callbacks change: the page cache, the state of a decoder. *)
Context {St : Type}.
(** [tfetch_mem_func], if there is one: the element, or [None] for false. *)
Variable fetch : option (Z -> St -> option (list Z) * St).
(** The elements of an array in the tracer's own memory. *)
Variable local : Z -> list Z.
(** [print_func]: the text and the result. *)
Variable print_func : list Z -> St -> list Z * bool * St.
Variables (xlat_verbosity max_strlen : Z) (t : tcb).
Variables (elem_size fl : Z) (index_xlat : option xlat) (index_dflt : option string).

Definition sequence_truncation_needed (len : Z) : bool := abbrev t && (max_strlen <? uint 32 len).

Definition index_text (idx : Z) : list Z :=
  if has fl PAF_PRINT_INDICES then
    codes "[" ++ codes (match index_xlat with
                        | None => print_xlat_ex xlat_verbosity idx None (Z.land fl XLAT_STYLE_MASK)
                        | Some x => fst (printxvals_ex xlat_verbosity idx index_dflt (Z.land fl XLAT_STYLE_MASK) [x])
                        end) ++ codes "]="
  else [].

Definition printaddr_comment (addr : Z) : list Z := codes (" /* " +:+ fmt_hex addr +:+ " */").

(** The element at [cur], the state. *)
Definition get_elem (cur : Z) (st : St) : option (list Z) * St :=
  match fetch with Some f => f cur st | None => (Some (local cur), st) end.

(** The loop from [cur], at most [n] rounds: the text, the final [cur], [truncated]
    and the state. *)
Fixpoint array_loop (n : nat) (start_addr end_addr abbrev_end cur idx : Z) (st : St) : list Z * Z * bool * St :=
  match n with
  | O => ([], cur, false, st)
  | S n' =>
      if cur <? end_addr then
        let next := if cur =? start_addr then [] else codes ", " in
        match get_elem cur st with
        | (None, st) =>
            if cur =? start_addr then (next ++ printaddr64 cur, cur, false, st)
            else (next ++ more_data_follows ++ printaddr_comment cur, cur, true, st)
        | (Some elem, st) =>
            let begin := if cur =? start_addr then codes "[" else [] in
            if abbrev_end <=? cur then (next ++ begin ++ more_data_follows, end_addr, true, st)
            else
              let '(text, ok, st) := print_func elem st in
              let text := next ++ begin ++ index_text idx ++ text in
              if ok : bool then
                let '(texts, cur, truncated, st) :=
                  array_loop n' start_addr end_addr abbrev_end (cur + elem_size) (idx + 1) st in
                (text ++ texts, cur, truncated, st)
              else (text, end_addr, false, st)
        end
      else ([], cur, false, st)
  end.

(** The text, the result and the state. *)
Definition print_array_ex (start_addr nmemb : Z) (st : St) : list Z * bool * St :=
  if start_addr =? 0 then (null_text, false, st)
  else if nmemb =? 0 then
    (codes "[" ++ (if has fl PAF_ARRAY_TRUNCATED then more_data_follows else []) ++ codes "]", false, st)
  else
    let size := uint 64 (nmemb * elem_size) in
    let end_addr := uint 64 (start_addr + size) in
    if (end_addr <=? start_addr) || negb (size / elem_size =? nmemb) then
      (match fetch with Some _ => printaddr64 start_addr | None => unavailable end, false, st)
    else
      let abbrev_end := if sequence_truncation_needed nmemb
                        then uint 64 (start_addr + elem_size * max_strlen) else end_addr in
      let '(text, cur, truncated, st) := array_loop (Z.to_nat nmemb) start_addr end_addr abbrev_end start_addr 0 st in
      let tail :=
        if negb (cur =? start_addr) || match fetch with None => true | Some _ => false end then
          (if has fl PAF_ARRAY_TRUNCATED && negb truncated
           then (if cur =? start_addr then [] else codes ", ") ++ more_data_follows else [])
          ++ codes "]"
        else [] in
      (text ++ tail, end_addr <=? cur, st).

End array.

(** ** What is printed of an array *)

(** Texts with commas between. *)
Definition joined (l : list (list Z)) : list Z :=
  match l with [] => [] | x :: l' => x ++ concat (map (app (codes ", ")) l') end.

Lemma joined_snoc l x : l <> [] -> joined (l ++ [x]) = joined l ++ codes ", " ++ x.
Proof.
  destruct l as [|y l]; [done|]. intros _. cbn [joined app]. rewrite map_app, concat_app. cbn [map concat].
  by rewrite app_nil_r, app_assoc.
Qed.

Section array_correct.
Context {St : Type}.
Variable fetch : option (Z -> St -> option (list Z) * St).
Variable local : Z -> list Z.
Variable print_func : list Z -> St -> list Z * bool * St.
Variables (xlat_verbosity max_strlen : Z) (t : tcb).
Variables (elem_size fl : Z) (index_xlat : option xlat) (index_dflt : option string).
(** In states with [Inv], which the callbacks keep, the element at an address
    between [lo] and [hi] is [elem], and [show] is what is printed for it; [cont] whether to go on. *)
Variables (Inv : St -> Prop) (elem : Z -> option (list Z)) (show : list Z -> list Z) (cont : list Z -> bool).
Variables lo hi : Z.
Hypothesis get_elem_ok : forall cur st, lo <= cur < hi -> Inv st ->
  exists st', get_elem fetch local cur st = (elem cur, st') /\ Inv st'.
Hypothesis print_ok : forall e st, Inv st -> exists st', print_func e st = (show e, cont e, st') /\ Inv st'.
Hypothesis elem_size_pos : 0 < elem_size.
Hypothesis max_strlen_pos : 0 <= max_strlen.

Abbreviation idx_text := (index_text xlat_verbosity fl index_xlat index_dflt).
Abbreviation loop := (array_loop fetch local print_func xlat_verbosity elem_size fl index_xlat index_dflt).

(** The items printed for [n] elements from number [i], when at most [limit]
    elements are to be shown; whether the last one stands for more; whether the
    array was not left for an element that cannot be fetched. *)
Fixpoint items (n : nat) (addr i limit : Z) : list (list Z) * bool * bool :=
  match n with
  | O => ([], false, true)
  | S n' =>
      match elem addr with
      | None => ([more_data_follows ++ printaddr_comment addr], true, false)
      | Some e =>
          if limit <=? i then ([more_data_follows], true, true)
          else if cont e then
            let '(l, truncated, complete) := items n' (addr + elem_size) (i + 1) limit in
            ((idx_text i ++ show e) :: l, truncated, complete)
          else ([idx_text i ++ show e], false, true)
      end
  end.

Lemma items_bound n addr i limit l tr complete :
  items n addr i limit = (l, tr, complete) -> i <= limit -> lenZ l <= limit - i + 1 /\ lenZ l <= Z.of_nat n.
Proof.
  revert addr i l tr complete. induction n as [|n IH]; intros addr i l tr complete E Hi; cbn [items] in E.
  { injection E as <- <- <-. rewrite lenZ_nil. lia. }
  assert (H1 : forall x : list Z, lenZ [x] = 1) by done.
  destruct (elem addr) as [e|]; [|injection E as <- <- <-; rewrite H1; lia].
  destruct (Z.leb_spec limit i); [injection E as <- <- <-; rewrite H1; lia|].
  destruct (cont e); [|injection E as <- <- <-; rewrite H1; lia].
  destruct (items n (addr + elem_size) (i + 1) limit) as [[l' ?] ?] eqn:E'. injection E as <- <- <-.
  apply IH in E'; [|lia]. rewrite lenZ_cons. lia.
Qed.

(** The loop after the first element. *)
Lemma array_loop_spec n start end_ abbrev_end limit i st :
  Inv st -> 0 < start -> lo <= start -> end_ <= hi -> 0 < i -> end_ = start + (i + Z.of_nat n) * elem_size ->
  (forall k, 0 <= k < i + Z.of_nat n -> (abbrev_end <=? start + k * elem_size) = (limit <=? k)) ->
  let cur := start + i * elem_size in
  let '(l, tr, complete) := items n cur i limit in
  exists cur' st', loop n start end_ abbrev_end cur i st = (concat (map (app (codes ", ")) l), cur', tr, st') /\
    Inv st' /\ start < cur' /\ (end_ <=? cur') = complete.
Proof.
  intros HI Hs Hlo Hhi. revert i st HI. induction n as [|n IH]; intros i st HI Hi He Ha; cbn [items array_loop].
  { exists (start + i * elem_size), st. split; [done|]. split; [done|]. split; [nia|]. apply Z.leb_le. lia. }
  replace (start + i * elem_size <? end_) with true by nia.
  replace (start + i * elem_size =? start) with false by nia.
  destruct (get_elem_ok (start + i * elem_size) st ltac:(nia) HI) as (st1 & -> & H1).
  destruct (elem (start + i * elem_size)) as [e|].
  2: { cbn [map concat]. rewrite app_nil_r. eexists _, st1. split; [done|]. split; [done|]. split; [nia|]. nia. }
  rewrite Ha by lia. destruct (limit <=? i).
  { cbn [map concat]. rewrite app_nil_r. eexists _, st1. split; [done|]. split; [done|]. split; [nia|]. lia. }
  destruct (print_ok e st1 H1) as (st2 & -> & H2). destruct (cont e).
  - specialize (IH (i + 1) st2 H2 ltac:(lia) ltac:(lia)). cbv zeta in IH.
    replace (start + i * elem_size + elem_size) with (start + (i + 1) * elem_size) by lia.
    destruct (items n (start + (i + 1) * elem_size) (i + 1) limit) as [[l tr] complete].
    destruct IH as (cur' & st' & -> & H' & Hc & Hend); [intros k Hk; apply Ha; lia|].
    eexists cur', st'. split; [|done]. cbn [map concat]. by rewrite <- !app_assoc.
  - cbn [map concat]. rewrite app_nil_r. eexists _, st2. split; [done|]. split; [done|]. split; [nia|]. lia.
Qed.

(** The number of elements shown at most. *)
Definition limit_of (nmemb : Z) : Z := if sequence_truncation_needed max_strlen t nmemb then max_strlen else nmemb.

(** All of the loop, when the first element is there. *)
Lemma loop_first n start end_ abbrev_end limit st e :
  Inv st -> 0 < start -> lo <= start -> end_ <= hi -> end_ = start + Z.of_nat (S n) * elem_size -> elem start = Some e ->
  (forall k, 0 <= k < Z.of_nat (S n) -> (abbrev_end <=? start + k * elem_size) = (limit <=? k)) ->
  let '(l, tr, complete) := items (S n) start 0 limit in
  exists cur' st', loop (S n) start end_ abbrev_end start 0 st = (codes "[" ++ joined l, cur', tr, st') /\
    l <> [] /\ Inv st' /\ start < cur' /\ (end_ <=? cur') = complete.
Proof.
  intros HI Hs Hlo Hhi He Ee Ha. cbn [items array_loop]. rewrite Ee, Z.eqb_refl. replace (start <? end_) with true by nia.
  destruct (get_elem_ok start st ltac:(nia) HI) as (st1 & -> & H1). rewrite Ee.
  pose proof (Ha 0 ltac:(lia)) as Ha0. rewrite Z.mul_0_l, Z.add_0_r in Ha0. rewrite Ha0.
  destruct (limit <=? 0); [eexists _, st1; split; [done|]; split; [done|]; split; [done|]; split; [nia|lia]|].
  destruct (print_ok e st1 H1) as (st2 & -> & H2). destruct (cont e).
  - pose proof (array_loop_spec n start end_ abbrev_end limit 1 st2 H2 Hs Hlo Hhi ltac:(lia) ltac:(lia)) as Hl. cbv zeta in Hl.
    rewrite Z.mul_1_l in Hl. change (0 + 1) with 1.
    destruct (items n (start + elem_size) 1 limit) as [[l tr] complete].
    destruct Hl as (cur' & st' & -> & H' & Hc & Hend); [intros k Hk; apply Ha; lia|].
    eexists cur', st'. split; [|done]. cbn [joined app]. by rewrite <- !app_assoc.
  - eexists _, st2. cbn [joined map concat app]. rewrite app_nil_r. split; [done|]. split; [done|]. split; [done|]. split; [nia|lia].
Qed.

(** The test for arrays that do not fit the address space is exact. *)
Lemma array_fits start nmemb : 0 < start < 2 ^ 64 -> 0 < nmemb ->
  (uint 64 (start + uint 64 (nmemb * elem_size)) <=? start)
    || negb (uint 64 (nmemb * elem_size) / elem_size =? nmemb)
  = (2 ^ 64 <=? start + nmemb * elem_size).
Proof.
  intros Hs Hn. destruct (Z.leb_spec (2 ^ 64) (start + nmemb * elem_size)) as [Hbig|Hfit].
  - destruct (Z.le_gt_cases (2 ^ 64) (nmemb * elem_size)) as [Hm|Hm].
    + apply orb_true_iff. right. apply negb_true_iff, Z.eqb_neq. intros E.
      pose proof (uint_range 64 (nmemb * elem_size) ltac:(lia)) as Hr. unfold in_uint in Hr.
      pose proof (Z.mul_div_le (uint 64 (nmemb * elem_size)) elem_size elem_size_pos). nia.
    + rewrite (uint_small 64 (nmemb * elem_size)) by (unfold in_uint; nia).
      apply orb_true_iff. left. apply Z.leb_le. unfold uint.
      rewrite <- (Z.mod_unique_pos (start + nmemb * elem_size) (2 ^ 64) 1 (start + nmemb * elem_size - 2 ^ 64)) by lia. lia.
  - rewrite (uint_small 64 (nmemb * elem_size)) by (unfold in_uint; nia).
    rewrite uint_small by (unfold in_uint; nia). rewrite Z.div_mul, Z.eqb_refl by lia.
    apply orb_false_iff. split; [nia|done].
Qed.

Lemma print_array_ex_spec (start nmemb : Z) (st : St) :
  Inv st -> 0 <= start < 2 ^ 64 -> 0 <= nmemb < 2 ^ 32 ->
  (start + nmemb * elem_size < 2 ^ 64 -> lo <= start /\ start + nmemb * elem_size <= hi) ->
  exists text ok st', print_array_ex fetch local print_func xlat_verbosity max_strlen t elem_size fl index_xlat index_dflt
      start nmemb st = (text, ok, st') /\ Inv st' /\
    if start =? 0 then text = null_text /\ ok = false
    else if nmemb =? 0 then
      text = codes "[" ++ (if has fl PAF_ARRAY_TRUNCATED then more_data_follows else []) ++ codes "]" /\ ok = false
    else if 2 ^ 64 <=? start + nmemb * elem_size then
      text = match fetch with Some _ => printaddr64 start | None => unavailable end /\ ok = false
    else match elem start with
    | None => fetch <> None -> text = printaddr64 start /\ ok = false
    | Some _ =>
        let '(l, truncated, complete) := items (Z.to_nat nmemb) start 0 (limit_of nmemb) in
        text = codes "[" ++ joined (l ++ (if has fl PAF_ARRAY_TRUNCATED && negb truncated then [more_data_follows] else []))
               ++ codes "]"
        /\ ok = complete /\ lenZ l <= limit_of nmemb + 1
    end.
Proof.
  intros HI Hs Hn Hrange. unfold print_array_ex.
  destruct (Z.eqb_spec start 0) as [|Hs0]; [by eexists _, _, st|]. destruct (Z.eqb_spec nmemb 0) as [|Hn0]; [by eexists _, _, st|].
  rewrite array_fits by lia. destruct (Z.leb_spec (2 ^ 64) (start + nmemb * elem_size)) as [|Hfit]; [by eexists _, _, st|].
  destruct (Hrange ltac:(lia)) as [Hlo Hhi].
  rewrite (uint_small 64 (nmemb * elem_size)) by (unfold in_uint; nia).
  rewrite (uint_small 64 (start + nmemb * elem_size)) by (unfold in_uint; nia).
  set (ae := if sequence_truncation_needed max_strlen t nmemb then _ else _).
  assert (Ha : forall k, 0 <= k < nmemb -> (ae <=? start + k * elem_size) = (limit_of nmemb <=? k)).
  { intros k Hk. unfold ae, limit_of, sequence_truncation_needed. rewrite (uint_small 32) by done.
    destruct (abbrev t && (max_strlen <? nmemb)) eqn:Et.
    - apply andb_true_iff in Et as [_ Et]. rewrite uint_small by (unfold in_uint; nia). bcase; nia.
    - bcase; nia. }
  destruct (Z.to_nat nmemb) as [|n] eqn:En; [lia|]. assert (En' : nmemb = Z.of_nat (S n)) by lia.
  destruct (elem start) as [e|] eqn:Ee.
  - pose proof (loop_first n start (start + nmemb * elem_size) ae (limit_of nmemb) st e HI ltac:(lia) Hlo Hhi ltac:(lia) Ee
      ltac:(intros; apply Ha; lia)) as Hl.
    pose proof (items_bound (S n) start 0 (limit_of nmemb)) as Hb.
    destruct (items (S n) start 0 (limit_of nmemb)) as [[l tr] complete].
    destruct Hl as (cur' & st' & -> & Hne & H' & Hc & Hend). replace (cur' =? start) with false by lia. cbn [negb orb].
    eexists _, _, st'. split; [done|]. split; [done|]. split; [|split; [done|]].
    + destruct (has fl PAF_ARRAY_TRUNCATED && negb tr); [|by rewrite app_nil_r, <- app_assoc].
      rewrite joined_snoc by done. by rewrite <- !app_assoc.
    + destruct (Hb l tr complete eq_refl); [|lia]. unfold limit_of. destruct (sequence_truncation_needed _ _ _); lia.
  - cbn [array_loop]. replace (start <? start + nmemb * elem_size) with true by nia. rewrite Z.eqb_refl.
    destruct (get_elem_ok start st ltac:(nia) HI) as (st1 & -> & H1). rewrite Ee, Z.eqb_refl. cbn [negb orb app].
    eexists _, _, st1. split; [done|]. split; [done|]. intros Hf. destruct fetch; [|done].
    split; [by rewrite app_nil_r|nia].
Qed.

End array_correct.

(** ** Arrays in the memory of the tracee *)

Lemma le_value_bytes l : Forall byte l -> 0 <= le_value l < 256 ^ lenZ l.
Proof.
  induction 1 as [|c l Hc HF IH]; [done|]. cbn [le_value]. rewrite lenZ_cons, Z.pow_add_r by (done || apply lenZ_nonneg).
  unfold byte in Hc. lia.
Qed.

Section memory.
Context {TM : TraceeMemory}.
Variable page_bits : Z.
Hypothesis page_bits_ok : 3 <= page_bits < 32.
Abbreviation page_size := (2 ^ page_bits).
Context {ML : MemoryLaws TM page_size}.
Variables (narrow : bool) (t : tcb) (m : mstate).

(** When a decoder looks at an object. *)
Definition looks (t : tcb) : bool := verbose t && (entering t || negb (syserror t)).

(** Addresses where a read is not rejected. *)
Definition range_ok (lo hi : Z) : Prop :=
  0 < lo /\ hi + page_size < 2 ^ 64 /\ forall a, lo <= a < hi -> tracee_addr_is_invalid narrow a = false.

Lemma tfetch_mem64_spec c addr len lo hi :
  range_ok lo hi -> lo <= addr < hi -> addr + len <= hi -> 0 <= len < 2 ^ 31 -> cache_ok page_bits m c ->
  exists c', tfetch_mem64 page_size narrow t m c addr len
    = Some (if looks t then bytes_at byte_at m addr len else None, c') /\ cache_ok page_bits m c'.
Proof.
  intros (Hlo & Hhi & Hv) Ha He Hl Hc. unfold tfetch_mem64. replace (addr =? 0) with false by lia. cbn [negb andb].
  fold (looks t). destruct (looks t); [|by exists c].
  destruct (umoven_spec page_bits page_bits_ok narrow m c addr len Hc ltac:(lia) Hl ltac:(lia) (Hv addr Ha))
    as (rc & l' & c' & -> & Hc' & _ & _ & Hr). exists c'. split; [|done]. cbn [mbind option_bind].
  destruct (bytes_at byte_at m addr len); [by destruct Hr as [-> ->]|by subst rc].
Qed.

Lemma le_value_zeros l n : le_value (l ++ replicate n 0) = le_value l.
Proof.
  induction l as [|c l IH]; cbn [app le_value]; [|by rewrite IH]. induction n as [|n IH]; [done|].
  cbn [replicate le_value]. by rewrite IH.
Qed.

Lemma rev_replicate {A} n (x : A) : rev (replicate n x) = replicate n x.
Proof. rewrite rev_alt. apply reverse_replicate. Qed.

(** [tfetch_to_uint64_64] gives the value of an object of at most eight
    bytes in either byte order, below [256 ^ len], and nothing when it is longer
    or cannot be read. *)
Theorem tfetch_to_uint64_correct (big : bool) c addr len lo hi :
  range_ok lo hi -> lo <= addr < hi -> addr + len <= hi -> 0 <= len < 2 ^ 31 -> cache_ok page_bits m c ->
  exists r c', tfetch_to_uint64_64 page_size narrow big t m c addr len = Some (r, c') /\ cache_ok page_bits m c' /\
    match (if (len <=? 8) && verbose t then bytes_at byte_at m addr len else None) with
    | None => r = None
    | Some l => r = Some (word_value big l) /\ 0 <= word_value big l < 256 ^ len
    end.
Proof.
  intros (Hlo & Hhi & Hv) Ha He Hl Hc. unfold tfetch_to_uint64_64.
  destruct (len <=? 8); [|by eexists _, c]. unfold tfetch_mem64_ignore_syserror.
  replace (addr =? 0) with false by lia. cbn [negb andb]. destruct (verbose t); [|by eexists _, c].
  destruct (umoven_spec page_bits page_bits_ok narrow m c addr len Hc ltac:(lia) Hl ltac:(lia) (Hv addr Ha))
    as (rc & l' & c' & -> & Hc' & _ & _ & Hr). cbn [mbind option_bind]. eexists _, c'. split; [done|]. split; [done|].
  destruct (bytes_at byte_at m addr len) as [l|] eqn:El; [destruct Hr as [-> ->]|by subst rc].
  pose proof (bytes_at_bytes page_bits page_bits_ok m addr len l El) as HF.
  apply bytes_at_Some in El as [El _]; [|lia]. cbn [Z.eqb]. split.
  - f_equal. unfold word_value. destruct big; [|apply le_value_zeros]. rewrite rev_app_distr, rev_replicate. apply le_value_zeros.
  - rewrite <- El. unfold word_value. destruct big; [|by apply le_value_bytes].
    replace (lenZ l) with (lenZ (rev l)) by (unfold lenZ; by rewrite length_rev). by apply le_value_bytes, Forall_rev.
Qed.

(** The fetcher of [print_array]. *)
Definition tfetch_mem (len : Z) (cur : Z) (c : ucopy) : option (list Z) * ucopy :=
  default (None, c) (tfetch_mem64 page_size narrow t m c cur len).

Lemma tfetch_mem_elem len lo hi cur c :
  range_ok lo (hi + len) -> 0 <= len < 2 ^ 31 -> lo <= cur < hi -> cache_ok page_bits m c ->
  exists c', get_elem (Some (tfetch_mem len)) (fun _ => []) cur c
    = (if looks t then bytes_at byte_at m cur len else None, c') /\ cache_ok page_bits m c'.
Proof.
  intros Hr Hl Hc Hok. destruct (tfetch_mem64_spec c cur len lo (hi + len) Hr) as (c' & E & Hc'); [lia..|done|].
  exists c'. cbn [get_elem]. unfold tfetch_mem. by rewrite E.
Qed.
End memory.

(** ** A concrete array *)

(** An element as its value. *)
Definition show_value (e : list Z) : list Z := codes (fmt_hex (le_value e)).

Definition decoding : tcb := set_qual_flg (Z.lor QUAL_VERBOSE QUAL_ABBREV) tcb0.

Lemma letters_range : range_ok demo_bits false 40 (48 + 2).
Proof. split; [lia|]. split; [reflexivity|]. by intros a _. Qed.


Lemma tfetch_to_uint64_correct_witness :
  exists c', tfetch_to_uint64_64 (2 ^ demo_bits) false true decoding (letters : @mstate demo_memory) empty_cache 40 2
    = Some (Some 0x6f70, c').
Proof.
  destruct (tfetch_to_uint64_correct demo_bits ltac:(vm_compute; split; congruence) false decoding
    (letters : @mstate demo_memory) true empty_cache 40 2 40 50 letters_range ltac:(lia) ltac:(lia) ltac:(lia) (empty_cache_ok _))
    as (r & c' & E & _ & Hr). vm_compute in Hr. destruct Hr as [-> _]. exists c'. exact E.
Defined.
