(* ===== verification/Nlattr.v ===== *)
(** * Netlink attributes (src/nlattr.c)

    A netlink message carries attributes, each a header with its length and type
    followed by data and padding to a multiple of four.  [decode_nlattr] walks
    over them in the memory of the tracee and gives the data of each to the
    decoder of its type.  The walk over the messages of a buffer (src/netlink.c)
    has the same form, so the loop is a section of its own. *)

From stdpp Require Import strings pretty.
From S2P Require Import Prelude Wait Util Xlat Quote UCopy PrintStr Tcb PrintArray.
Open Scope Z_scope.

Abbreviation text := (list Z).

Definition QUOTE_FORCE_HEX : Z := Z.lor QUOTE_OVERWRITE_HEXSTR (Z.shiftl HEXSTR_ALL QUOTE_HEXSTR_SHIFT).

(** ** The memory of the tracee as the decoders use it

    [St] is what the functions change: the page cache and the static buffers.
    The result of a fetch is the bytes, or [None] for false. *)
Class Printing (St : Type) := {
  p_fetch : Z -> Z -> St -> option (list Z) * St;
  p_fetch_ignore_syserror : Z -> Z -> St -> option (list Z) * St;
  p_printstr : Z -> Z -> Z -> St -> text * St }.   (* printstr_ex: address, length, style *)

(** ** Walking over a sequence of records

    A record starts with a header [H] of [hdr_size] bytes that holds its length. *)
Section sequence.
Context {St H : Type} {P : Printing St}.
Variables (hdr_size HDRLEN : Z) (parse : list Z -> H) (rec_len aligned : H -> Z).
(** The conditions of [-s] and [-v], and the printing of a record: header,
    address and length of what is left. *)
Variables (truncation : Z -> bool) (with_data : H -> Z -> Z -> St -> option (text * St)).

(** [fetch_nlattr], [fetch_nlmsghdr]: the text printed when there is no header. *)
Definition fetch_hdr (addr len : Z) (in_array : bool) (st : St) : text * option H * St :=
  if len <? hdr_size then
    let '(t, st) := p_printstr addr len QUOTE_FORCE_HEX st in (t, None, st)
  else
    match p_fetch addr hdr_size st with
    | (Some b, st) => ([], Some (parse b), st)
    | (None, st) => (if in_array then more_data_follows ++ printaddr_comment addr else printaddr64 addr, None, st)
    end.

(** [next_addr] and [next_len]. *)
Definition next (h : H) (addr len : Z) : Z * Z :=
  if HDRLEN <=? rec_len h then
    let next_len := if aligned h <=? len then len - aligned h else 0 in
    (if negb (next_len =? 0) && (addr <? uint 64 (addr + aligned h)) then uint 64 (addr + aligned h) else 0, next_len)
  else (0, 0).

(** The text from the record number [elt] on, [is_array] at the end and the
    state; [None] when the fuel runs out. *)
Fixpoint seq_loop (fuel : nat) (addr len elt : Z) (is_array : bool) (st : St) : option (text * bool * St) :=
  match fuel with
  | O => None
  | S fuel' =>
      match fetch_hdr addr len is_array st with
      | (t, None, st) => Some (t, is_array, st)
      | (_, Some h, st) =>
          if truncation (elt + 1) then Some (more_data_follows, is_array, st)
          else
            let '(next_addr, next_len) := next h addr len in
            let '(begin, is_array) :=
              if negb is_array && negb (next_addr =? 0) then (codes "[", true) else ([], is_array) in
            '(t, st) ← with_data h addr len st;
            if next_addr =? 0 then Some (begin ++ t, is_array, st)
            else '(rest, is_array, st) ← seq_loop fuel' next_addr next_len (elt + 1) is_array st;
                 Some (begin ++ t ++ codes ", " ++ rest, is_array, st)
      end
  end.

(** A record takes at least [HDRLEN] bytes, so this many rounds are enough. *)
Definition seq_fuel (len : Z) : nat := S (Z.to_nat len).

Definition decode_seq (addr len : Z) (st : St) : option (text * St) :=
  '(t, is_array, st) ← seq_loop (seq_fuel len) addr len 0 false st;
  Some (t ++ (if is_array : bool then codes "]" else []), st).

End sequence.

(** ** Attributes *)

Definition NLA_F_NESTED : Z := 0x8000.
Definition NLA_F_NET_BYTEORDER : Z := 0x4000.
Definition NLA_TYPE_MASK : Z := Z.lnot (Z.lor NLA_F_NESTED NLA_F_NET_BYTEORDER).
Definition NLA_ALIGN (len : Z) : Z := Z.land (uint 32 (len + 3)) (Z.lnot 3).
Definition NLA_HDRLEN : Z := 4.

Record nlattr := mk_nla { nla_len : Z; nla_type : Z }.

(** What is passed to a decoder as opaque data: a number in place of a pointer, or
    a pointer to something. *)
Inductive opaque (D : Type) := OInt (z : Z) | OData (d : D).
Arguments OInt {D} z.
Arguments OData {D} d.

(** The options of [decode_nla_xval] and [decode_nla_flags]. *)
Record decode_nla_xlat_opts := mk_opts {
  o_xlat : xlat; o_dflt : option string; o_style : Z; o_fn_str : option string;
  o_process_fn : option (Z -> Z); o_size : Z }.

Section nlattr.
Context {St D : Type} {P : Printing St}.
Variables (is_bigendian : bool) (xlat_verbosity max_strlen : Z) (t : tcb).

(** The text, whether the data was decoded, the state; [None] when the fuel runs
    out in a decoder that walks over attributes. *)
Abbreviation decoded := (option (text * bool * St)).
Definition nla_decoder : Type := Z -> Z -> opaque D -> St -> decoded.

Definition parse_nlattr (b : list Z) : nlattr :=
  mk_nla (word_value is_bigendian (take 2 b)) (word_value is_bigendian (drop 2 b)).

Definition printxval (x : option xlat) (v : Z) (dflt : option string) : text :=
  codes (fst (printxvals_ex xlat_verbosity v dflt XLAT_STYLE_DEFAULT (option_list x))).

Definition print_nlattr (nla : nlattr) (table : option xlat) (dflt : option string) : text :=
  codes ("{nla_len=" +:+ pretty (nla_len nla) +:+ ", nla_type=") ++
  (if has (nla_type nla) NLA_F_NESTED
   then codes (print_xlat_ex xlat_verbosity NLA_F_NESTED (Some "NLA_F_NESTED"%string) XLAT_STYLE_DEFAULT) ++ codes "|" else []) ++
  (if has (nla_type nla) NLA_F_NET_BYTEORDER
   then codes (print_xlat_ex xlat_verbosity NLA_F_NET_BYTEORDER (Some "NLA_F_NET_BYTEORDER"%string) XLAT_STYLE_DEFAULT) ++ codes "|" else []) ++
  printxval table (Z.land (nla_type nla) NLA_TYPE_MASK) dflt ++ codes "}".

Definition UINT_MAX : Z := 2 ^ 32 - 1.

(** [decoders] is [None] for NULL; with a size of 0 or -1U it has one element. *)
Definition decode_nlattr_with_data (table : option xlat) (dflt : option string)
    (decoders : option (list (option nla_decoder))) (size : Z) (opaque_data : opaque D)
    (nla : nlattr) (addr len : Z) (st : St) : option (text * St) :=
  let nla_len := Z.min (nla_len nla) len in
  let use_type := negb (size =? UINT_MAX) in
  let header := print_nlattr nla table dflt in
  if NLA_HDRLEN <? nla_len then
    let idx := if use_type && negb (size =? 0) then Z.land (nla_type nla) NLA_TYPE_MASK else 0 in
    let addr := uint 64 (addr + NLA_HDRLEN) in
    '(data, ok, st) ←
      match decoders with
      | None => Some ([], false, st)
      | Some ds =>
          if use_type && negb (size =? 0) && (size <=? idx) then Some ([], false, st)
          else match nth (Z.to_nat idx) ds None with
               | None => Some ([], false, st)
               | Some d => d addr (nla_len - NLA_HDRLEN)
                             (if size =? 0 then OInt (nla_type nla) else opaque_data) st
               end
      end;
    let '(data', st) := if ok : bool then ([], st) else p_printstr addr (nla_len - NLA_HDRLEN) QUOTE_FORCE_HEX st in
    Some (codes "[" ++ header ++ codes ", " ++ data ++ data' ++ codes "]", st)
  else Some (header, st).

Definition decode_nlattr (addr len : Z) (table : option xlat) (dflt : option string)
    (decoders : option (list (option nla_decoder))) (size : Z) (opaque_data : opaque D) (st : St) : option (text * St) :=
  decode_seq 4 NLA_HDRLEN parse_nlattr nla_len (fun nla => NLA_ALIGN (nla_len nla))
    (sequence_truncation_needed max_strlen t)
    (decode_nlattr_with_data table dflt decoders size opaque_data) addr len st.

Definition decode_nlattr_notype (addr len : Z) (table : option xlat) (dflt : option string)
    (decoder : option nla_decoder) (opaque_data : opaque D) (st : St) : option (text * St) :=
  decode_nlattr addr len table dflt (Some [decoder]) UINT_MAX opaque_data st.

(** ** Decoders of simple types *)

(** [umove_or_printaddr] of [n] bytes, and [show] on their value. *)
Definition with_obj (n : Z) (show : list Z -> text) (addr len : Z) (st : St) : decoded :=
  if len <? n then Some ([], false, st)
  else match p_fetch addr n st with
       | (Some b, st) => Some (show b, true, st)
       | (None, st) => Some (printaddr64 addr, true, st)
       end.

Definition fn_call (name : string) (arg : text) : text := codes name ++ codes "(" ++ arg ++ codes ")".

(** [ntohs], [ntohl], [be64toh] of a value of [n] bytes: the bytes are swapped on a
    little-endian host. *)
Definition swap (n : nat) (v : Z) : Z :=
  le_value (rev (map (fun i => Z.land (Z.shiftr v (8 * Z.of_nat i)) 0xff) (seq 0 n))).
Definition ntoh (n : nat) (v : Z) : Z := if is_bigendian then v else swap n v.

Definition decode_nla_str (addr len : Z) (op : opaque D) (st : St) : decoded :=
  let '(s, st) := p_printstr addr len (Z.lor QUOTE_OMIT_TRAILING_0 QUOTE_EXPECT_TRAILING_0) st in Some (s, true, st).

Definition decode_nla_strn (addr len : Z) (op : opaque D) (st : St) : decoded :=
  let '(s, st) := p_printstr addr len 0 st in Some (s, true, st).

Definition value (b : list Z) : Z := word_value is_bigendian b.

(** Printing functions of other files. *)
Variables (printfd printuid print_clock_t print_ifindex : Z -> text)
          (print_hwaddr : list Z -> Z -> text) (print_inet_addr : Z -> list Z -> text).

Definition decode_nla_fd (addr len : Z) (op : opaque D) : St -> decoded :=
  with_obj 4 (fun b => printfd (sint 32 (value b))) addr len.

Definition decode_nla_uid (addr len : Z) (op : opaque D) : St -> decoded :=
  with_obj 4 (fun b => printuid (value b)) addr len.

Definition decode_nla_gid : Z -> Z -> opaque D -> St -> decoded := decode_nla_uid.

(** [umoven_to_uint64_or_printaddr]. *)
Definition with_uint64 (show : Z -> text) (addr len : Z) (st : St) : text * St :=
  if len <=? 8 then
    match p_fetch_ignore_syserror addr len st with
    | (Some b, st) => (show (value b), st)
    | (None, st) => (printaddr64 addr, st)
    end
  else (printaddr64 addr, st).

Definition decode_nla_clock_t (addr len : Z) (op : opaque D) (st : St) : decoded :=
  if 8 <? len then Some ([], false, st)
  else let '(s, st) := with_uint64 print_clock_t addr len st in Some (s, true, st).

Definition decode_nla_ifindex (addr len : Z) (op : opaque D) : St -> decoded :=
  with_obj 4 (fun b => print_ifindex (value b)) addr len.

Definition in_fn (fn : option string) (s : text) : text :=
  match fn with Some f => fn_call f s | None => s end.

(** The common part of [decode_nla_xval] and [decode_nla_flags]. *)
Definition with_opts (opts : decode_nla_xlat_opts) (show : Z -> text) (addr len : Z) (st : St) : decoded :=
  if (8 <? len) || (len <? o_size opts) then Some ([], false, st)
  else
    let fetch_len := if o_size opts =? 0 then len else Z.min len (o_size opts) in
    let '(s, st) := with_uint64 (fun data =>
      let data := match o_process_fn opts with Some f => f data | None => data end in
      in_fn (o_fn_str opts) (show data)) addr fetch_len st in
    Some (s, true, st).

Definition decode_nla_xval (opts : decode_nla_xlat_opts) : Z -> Z -> St -> decoded :=
  with_opts opts (fun data => codes (fst (printxvals_ex xlat_verbosity data (o_dflt opts) (o_style opts) [o_xlat opts]))).

Definition decode_nla_flags (opts : decode_nla_xlat_opts) : Z -> Z -> St -> decoded :=
  with_opts opts (fun data => codes (fst (printflags_ex xlat_verbosity data (o_dflt opts) (o_style opts) [o_xlat opts]))).

Definition process_host_order (val : Z) : Z := ntoh 2 (uint 16 val).

Variables ethernet_protocols inet_protocols netlink_sk_meminfo_indices : xlat.

Definition decode_nla_ether_proto (addr len : Z) (op : opaque D) : St -> decoded :=
  decode_nla_xval (mk_opts ethernet_protocols (Some "ETHER_P_???"%string) 0 (Some "htons"%string)
                     (Some process_host_order) 2) addr len.

Definition decode_nla_ip_proto (addr len : Z) (op : opaque D) : St -> decoded :=
  decode_nla_xval (mk_opts inet_protocols (Some "IPPROTO_???"%string) 0 None None 0) addr len.

Definition MAX_ADDR_LEN : Z := 32.
Definition NLA_HWADDR_FAMILY_OFFSET : Z := 1024.

(** [op] holds a number. *)
Definition decode_nla_hwaddr (addr len arphrd : Z) (st : St) : decoded :=
  if MAX_ADDR_LEN <? len then Some ([], false, st)
  else
    match p_fetch addr len st with
    | (Some b, st) =>
        Some (print_hwaddr b (if has arphrd NLA_HWADDR_FAMILY_OFFSET
                         then Z.land arphrd (Z.lnot NLA_HWADDR_FAMILY_OFFSET) else UINT_MAX), true, st)
    | (None, st) => Some (printaddr64 addr, true, st)
    end.

Definition decode_nla_hwaddr_family (addr len arphrd : Z) : St -> decoded :=
  decode_nla_hwaddr addr len (if NLA_HWADDR_FAMILY_OFFSET <? arphrd then 0 else Z.lor NLA_HWADDR_FAMILY_OFFSET arphrd).

Definition decode_nla_hwaddr_nofamily (addr len : Z) (op : opaque D) : St -> decoded :=
  decode_nla_hwaddr addr len 0.

Definition AF_INET : Z := 2.
Definition AF_INET6 : Z := 10.

Definition decode_nla_in_addr (addr len : Z) (op : opaque D) : St -> decoded :=
  with_obj 4 (print_inet_addr AF_INET) addr len.
Definition decode_nla_in6_addr (addr len : Z) (op : opaque D) : St -> decoded :=
  with_obj 16 (print_inet_addr AF_INET6) addr len.

Definition decode_nla_be16 (addr len : Z) (op : opaque D) : St -> decoded :=
  with_obj 2 (fun b => fn_call "htons" (codes (pretty (ntoh 2 (value b))))) addr len.
Definition decode_nla_be32 (addr len : Z) (op : opaque D) : St -> decoded :=
  with_obj 4 (fun b => fn_call "htonl" (codes (pretty (ntoh 4 (value b))))) addr len.
Definition decode_nla_be64 (addr len : Z) (op : opaque D) : St -> decoded :=
  with_obj 8 (fun b => fn_call "htobe64" (codes (pretty (ntoh 8 (value b))))) addr len.

(** [DECODE_NLA_INTEGER]: the size of the type and the format. *)
Inductive int_fmt := FmtX | FmtU | FmtD.
Definition sprint_int (f : int_fmt) (n : Z) (v : Z) : text :=
  codes (match f with FmtX => fmt_hex v | FmtU => pretty v | FmtD => pretty (sint (8 * n) v) end).
Definition DECODE_NLA_INTEGER (n : Z) (f : int_fmt) (addr len : Z) (op : opaque D) : St -> decoded :=
  with_obj n (fun b => sprint_int f n (value b)) addr len.

Definition decode_nla_x8 := DECODE_NLA_INTEGER 1 FmtX.
Definition decode_nla_x16 := DECODE_NLA_INTEGER 2 FmtX.
Definition decode_nla_x32 := DECODE_NLA_INTEGER 4 FmtX.
Definition decode_nla_x64 := DECODE_NLA_INTEGER 8 FmtX.
Definition decode_nla_u8 := DECODE_NLA_INTEGER 1 FmtU.
Definition decode_nla_u16 := DECODE_NLA_INTEGER 2 FmtU.
Definition decode_nla_u32 := DECODE_NLA_INTEGER 4 FmtU.
Definition decode_nla_u64 := DECODE_NLA_INTEGER 8 FmtU.
Definition decode_nla_s8 := DECODE_NLA_INTEGER 1 FmtD.
Definition decode_nla_s16 := DECODE_NLA_INTEGER 2 FmtD.
Definition decode_nla_s32 := DECODE_NLA_INTEGER 4 FmtD.
Definition decode_nla_s64 := DECODE_NLA_INTEGER 8 FmtD.

Definition decode_nla_xint (addr len : Z) (op : opaque D) (st : St) : decoded :=
  if len =? 1 then decode_nla_x8 addr len op st
  else if len =? 2 then decode_nla_x16 addr len op st
  else if len =? 4 then decode_nla_x32 addr len op st
  else if len =? 8 then decode_nla_x64 addr len op st
  else Some ([], false, st).

(** The counts of a socket, an array indexed by names; [print_uint_array_member]
    prints an element. *)
Definition decode_nla_meminfo (addr len : Z) (op : opaque D) (st : St) : decoded :=
  let nmemb := len / 4 in
  if nmemb =? 0 then Some ([], false, st)
  else
    let '(s, _, st) := print_array_ex (Some (fun cur st => p_fetch cur 4 st)) (fun _ => [])
      (fun elem st => (codes (pretty (value elem)), true, st)) xlat_verbosity max_strlen t 4
      (Z.lor PAF_PRINT_INDICES XLAT_STYLE_FMT_U) (Some netlink_sk_meminfo_indices) (Some "SK_MEMINFO_???"%string) addr nmemb st in
    Some (s, true, st).

Record af_spec_decoder_desc := mk_desc {
  af : Z; d_xlat : option xlat; d_dflt : option string; d_table : option (list (option nla_decoder)); d_size : Z }.

Fixpoint find_desc (a : Z) (descs : list af_spec_decoder_desc) : option af_spec_decoder_desc :=
  match descs with
  | [] => None
  | d :: l => if af d =? a then Some d else find_desc a l
  end.

Definition decode_nla_af_spec (addr len a : Z) (descs : list af_spec_decoder_desc) (st : St) : option (text * St) :=
  match find_desc a descs with
  | None => Some (p_printstr addr len QUOTE_FORCE_HEX st)
  | Some d => decode_nlattr addr len (d_xlat d) (d_dflt d) (d_table d) (d_size d) (OInt 0) st
  end.

End nlattr.

(** ** What a walk shows *)

(** A record with the address and what is left of the buffer there; the end of the
    buffer where no header fits; a header that cannot be read; the mark that
    the rest is left out. *)
Inductive item (H : Type) := IRec (h : H) (a l : Z) | IShort (a l : Z) | IUnread (a : Z) | IMore.
Arguments IRec {H} h a l.
Arguments IShort {H} a l.
Arguments IUnread {H} a.
Arguments IMore {H}.

Section walk.
Context {St H : Type} {P : Printing St}.
Variables (hdr_size HDRLEN : Z) (parse : list Z -> H) (rec_len aligned : H -> Z).
Variables (truncation : Z -> bool) (with_data : H -> Z -> Z -> St -> option (text * St)).
(** The header at an address, if it can be read. *)
Variable hdr : Z -> option (list Z).
Abbreviation next_rec := (next HDRLEN rec_len aligned).
Abbreviation loop := (seq_loop hdr_size HDRLEN parse rec_len aligned truncation with_data).

Fixpoint walk (fuel : nat) (addr len elt : Z) : list (item H) :=
  match fuel with
  | O => []
  | S fuel' =>
      if len <? hdr_size then [IShort addr len]
      else match hdr addr with
           | None => [IUnread addr]
           | Some b =>
               if truncation (elt + 1) then [IMore]
               else let h := parse b in
                    let '(a, l) := next_rec h addr len in
                    IRec h addr len :: if a =? 0 then [] else walk fuel' a l (elt + 1)
           end
  end.

(** The texts of items: what is printed of a record and of the end of the buffer
    is given by relations. *)
Variables (hex : Z -> Z -> text -> Prop) (show : H -> Z -> Z -> text -> Prop).
Definition shows (in_array : bool) (i : item H) (s : text) : Prop :=
  match i with
  | IRec h a l => show h a l s
  | IShort a l => hex a l s
  | IUnread a => s = if in_array then more_data_follows ++ printaddr_comment a else printaddr64 a
  | IMore => s = more_data_follows
  end.

Definition all_shown (l : list (item H)) (texts : list text) : Prop :=
  match l, texts with
  | i :: l', s :: texts' => shows false i s /\ Forall2 (shows true) l' texts'
  | [], [] => True
  | _, _ => False
  end.

Lemma all_shown_length l texts : all_shown l texts -> length l = length texts.
Proof.
  destruct l as [|i l], texts as [|s texts]; try done. intros [_ HF]. cbn. f_equal. by apply list.Forall2_length in HF.
Qed.

Definition bracketed (texts : list text) : text :=
  match texts with
  | [] => []
  | [s] => s
  | _ => codes "[" ++ joined texts ++ codes "]"
  end.

Lemma walk_nonempty fuel addr len elt : exists i l, walk (S fuel) addr len elt = i :: l.
Proof.
  cbn [walk]. destruct (len <? hdr_size); [eauto|]. destruct (hdr addr); [|eauto]. destruct (truncation _); [eauto|].
  destruct (next_rec _ _ _). eauto.
Qed.

(** The buffer is from [lo] to [hi], and the states are those with [Inv]. *)
Variables (Inv : St -> Prop) (lo hi : Z).
Hypothesis fetch_ok : forall a st, lo <= a -> a + hdr_size <= hi -> Inv st ->
  exists st', p_fetch a hdr_size st = (hdr a, st') /\ Inv st'.
Hypothesis hex_ok : forall a n st, lo <= a -> 0 <= n < hdr_size -> a + n <= hi -> Inv st ->
  exists s st', p_printstr a n QUOTE_FORCE_HEX st = (s, st') /\ hex a n s /\ Inv st'.
Hypothesis data_ok : forall h a l st, lo <= a -> hdr_size <= l -> a + l <= hi -> Inv st ->
  exists s st', with_data h a l st = Some (s, st') /\ show h a l s /\ Inv st'.
Hypothesis aligned_range : forall h, 0 <= aligned h < 2 ^ 64.

Lemma next_progress h addr len a l :
  0 <= addr < 2 ^ 64 -> 0 <= len -> next_rec h addr len = (a, l) -> a <> 0 ->
  addr < a < 2 ^ 64 /\ a = addr + aligned h /\ 0 < l < len /\ l = len - aligned h /\ HDRLEN <= rec_len h.
Proof.
  intros Haddr Hl. unfold next. destruct (Z.leb_spec HDRLEN (rec_len h)) as [Hr|]; [|by intros [= <- <-]].
  pose proof (aligned_range h) as Hal. destruct (Z.leb_spec (aligned h) len); [|by intros [= <- <-]].
  destruct (Z.eqb_spec (len - aligned h) 0) as [|Hne]; cbn [negb andb]; [by intros [= <- <-]|].
  destruct (Z.ltb_spec addr (uint 64 (addr + aligned h))) as [Hlt|]; [|by intros [= <- <-]]. intros [= <- <-] Ha.
  pose proof (uint_range 64 (addr + aligned h) ltac:(lia)) as Hu. unfold in_uint in Hu.
  assert (E : uint 64 (addr + aligned h) = addr + aligned h).
  { destruct (Z_lt_ge_dec (addr + aligned h) (2 ^ 64)); [apply uint_small; unfold in_uint; lia|].
    unfold uint in *. assert (Em : (addr + aligned h) mod 2 ^ 64 = addr + aligned h - 2 ^ 64); [|lia].
    symmetry. apply Z.mod_unique_pos with (q := 1); lia. }
  rewrite E in *. lia.
Qed.

Lemma walk_enough fuel fuel' addr len elt :
  0 <= addr < 2 ^ 64 -> 0 <= len -> len < Z.of_nat fuel -> len < Z.of_nat fuel' ->
  walk fuel addr len elt = walk fuel' addr len elt.
Proof.
  revert fuel' addr len elt. induction fuel as [|fuel IH]; intros fuel' addr len elt Ha Hl Hf Hf'; [lia|].
  destruct fuel' as [|fuel']; [lia|]. cbn [walk]. destruct (len <? hdr_size); [done|].
  destruct (hdr addr) as [b|]; [|done]. destruct (truncation (elt + 1)); [done|].
  destruct (next_rec (parse b) addr len) as [a l] eqn:E. destruct (Z.eqb_spec a 0); [done|].
  destruct (next_progress _ _ _ _ _ Ha Hl E n) as (? & _ & ? & _). f_equal. apply IH; lia.
Qed.

Lemma fetch_hdr_ok addr len in_array st : lo <= addr -> 0 <= len -> addr + len <= hi -> Inv st ->
  exists s st', Inv st' /\
    fetch_hdr hdr_size parse addr len in_array st = (s, if len <? hdr_size then None else parse <$> hdr addr, st') /\
    (if len <? hdr_size then hex addr len s
     else match hdr addr with Some _ => True | None => shows in_array (IUnread addr) s end).
Proof.
  intros Hlo Hl Hhi Hst. unfold fetch_hdr. destruct (Z.ltb_spec len hdr_size).
  - destruct (hex_ok addr len st) as (s & st' & -> & Hx & H'); [done|done|done|done|]. by exists s, st'.
  - destruct (fetch_ok addr st) as (st' & -> & H'); [done|lia|done|]. destruct (hdr addr); by eexists _, st'.
Qed.

Lemma loop_in_array fuel addr len elt st :
  0 <= addr < 2 ^ 64 -> 0 <= len < Z.of_nat fuel -> lo <= addr -> addr + len <= hi -> Inv st ->
  exists texts st', Inv st' /\ loop fuel addr len elt true st = Some (joined texts, true, st') /\
    Forall2 (shows true) (walk fuel addr len elt) texts.
Proof.
  revert addr len elt st. induction fuel as [|fuel IH]; intros addr len elt st Ha Hl Hlo Hhi Hst; [lia|].
  assert (Hone : forall i s st', Inv st' -> shows true i s -> exists texts st'', Inv st'' /\
    Some (s, true, st') = Some (joined texts, true, st'') /\ Forall2 (shows true) [i] texts).
  { intros i s st' H' Hs. exists [s], st'. split; [done|]. split; [cbn; by rewrite app_nil_r|]. by constructor. }
  cbn [seq_loop walk]. destruct (fetch_hdr_ok addr len true st Hlo ltac:(lia) Hhi Hst) as (s1 & st1 & H1 & -> & Hs1).
  destruct (Z.ltb_spec len hdr_size); [by apply Hone|].
  destruct (hdr addr) as [b|]; [|by apply Hone]. cbn [fmap option_fmap option_map].
  destruct (truncation (elt + 1)); [by apply Hone|].
  destruct (next_rec (parse b) addr len) as [a l] eqn:E. cbn [negb andb].
  destruct (data_ok (parse b) addr len st1) as (s2 & st2 & -> & Hs2 & H2); [done|done|done|done|]. cbn [mbind option_bind].
  destruct (Z.eqb_spec a 0) as [|Hne]; [by apply Hone|].
  destruct (next_progress (parse b) addr len a l Ha ltac:(lia) E Hne) as (Ha' & Ea & Hl' & El & _).
  destruct (IH a l (elt + 1) st2) as (texts & st3 & H3 & -> & HF); [lia|lia|lia|lia|done|].
  exists (s2 :: texts), st3. split; [done|]. split; [|by constructor]. cbn [mbind option_bind app]. do 3 f_equal.
  destruct fuel; [lia|]. destruct (walk_nonempty fuel a l (elt + 1)) as (i & il & Ew). rewrite Ew in HF.
  inversion HF; subst. cbn [joined map concat]. by rewrite <- !app_assoc.
Qed.

(** The loop ends, and prints what the walk shows: an item alone, or several in
    brackets. *)
Lemma decode_seq_spec addr len st :
  0 <= addr < 2 ^ 64 -> 0 <= len -> lo <= addr -> addr + len <= hi -> Inv st ->
  exists texts st', Inv st' /\
    decode_seq hdr_size HDRLEN parse rec_len aligned truncation with_data addr len st = Some (bracketed texts, st') /\
    all_shown (walk (seq_fuel len) addr len 0) texts.
Proof.
  intros Ha Hl Hlo Hhi Hst. unfold decode_seq, seq_fuel. cbn [seq_loop walk].
  assert (Hone : forall i s st', Inv st' -> shows false i s -> exists texts st'', Inv st'' /\
    Some (s ++ [], st') = Some (bracketed texts, st'') /\ all_shown [i] texts).
  { intros i s st' H' Hs. exists [s], st'. split; [done|]. split; [cbn; by rewrite app_nil_r|]. by repeat constructor. }
  destruct (fetch_hdr_ok addr len false st Hlo Hl Hhi Hst) as (s1 & st1 & H1 & -> & Hs1).
  destruct (Z.ltb_spec len hdr_size); [by apply Hone|].
  destruct (hdr addr) as [b|]; [|by apply Hone]. cbn [fmap option_fmap option_map].
  destruct (truncation (0 + 1)); [by apply Hone|].
  destruct (next_rec (parse b) addr len) as [a l] eqn:E. cbn [negb andb].
  destruct (data_ok (parse b) addr len st1) as (s2 & st2 & Ed & Hs2 & H2); [done|done|done|done|].
  destruct (Z.eqb_spec a 0) as [|Hne]; cbn [negb]; rewrite Ed; cbn [mbind option_bind]; [by apply Hone|].
  destruct (next_progress (parse b) addr len a l Ha ltac:(lia) E Hne) as (Ha' & Ea & Hl' & El & _).
  destruct (Z.to_nat len) as [|fuel] eqn:Ef; [lia|].
  destruct (loop_in_array (S fuel) a l (0 + 1) st2) as (texts & st3 & H3 & -> & HF); [lia|lia|lia|lia|done|].
  exists (s2 :: texts), st3. split; [done|]. split; [|done]. cbn [mbind option_bind].
  destruct (walk_nonempty fuel a l (0 + 1)) as (i & il & Ew). rewrite Ew in HF. inversion HF; subst.
  cbn [bracketed joined map concat]. by rewrite <- !app_assoc.
Qed.

(** Items are inside the buffer, and a record has room for its header. *)
Definition in_buffer (lo n : Z) (i : item H) : Prop :=
  match i with
  | IRec h a l => lo <= a /\ a + l = lo + n /\ hdr_size <= l
  | IShort a l => lo <= a /\ a + l = lo + n /\ 0 <= l < hdr_size
  | IUnread a => lo <= a /\ a + hdr_size <= lo + n
  | IMore => True
  end.

Lemma walk_in_buffer fuel addr len elt : 0 <= addr < 2 ^ 64 -> 0 <= len ->
  Forall (in_buffer addr len) (walk fuel addr len elt).
Proof.
  revert addr len elt. induction fuel as [|fuel IH]; intros addr len elt Ha Hl; [constructor|]. cbn [walk].
  destruct (Z.ltb_spec len hdr_size); [constructor; [cbn; lia|constructor]|].
  destruct (hdr addr) as [b|]; [|constructor; [cbn; lia|constructor]].
  destruct (truncation (elt + 1)); [by constructor|]. destruct (next_rec (parse b) addr len) as [a l] eqn:E.
  constructor; [cbn; lia|]. destruct (Z.eqb_spec a 0) as [|Hne]; [constructor|].
  destruct (next_progress (parse b) addr len a l Ha Hl E Hne) as (Ha' & Ea & Hl' & El & _).
  eapply list.Forall_impl; [apply (IH a l); lia|]. intros [h a' l'|a' l'|a'|]; cbn; lia.
Qed.

End walk.

(** ** Walking over encoded records *)

Section encoded.
Context {H R : Type}.
Variables (hdr_size HDRLEN : Z) (parse : list Z -> H) (rec_len aligned : H -> Z).
(** The bytes of a record, and its header. *)
Variables (enc : R -> list Z) (hdr_of : R -> H).

Record encoded_ok (x : R) : Prop := {
  e_parse : forall rest, parse (take (Z.to_nat hdr_size) (enc x ++ rest)) = hdr_of x;
  e_length : lenZ (enc x) = aligned (hdr_of x);
  e_hdrlen : HDRLEN <= rec_len (hdr_of x);
  e_size : hdr_size <= aligned (hdr_of x) }.

Definition encode_all (l : list R) : list Z := concat (map enc l).

(** The items of a list of records at [addr], [len] bytes before the end. *)
Fixpoint recs (l : list R) (addr len : Z) : list (item H) :=
  match l with
  | [] => []
  | x :: l' => IRec (hdr_of x) addr len :: recs l' (addr + aligned (hdr_of x)) (len - aligned (hdr_of x))
  end.

(** What is shown when at most [max] records are. *)
Definition shown (limit : option Z) (l : list (item H)) : list (item H) :=
  match limit with
  | Some max => if max <? lenZ l then take (Z.to_nat max) l ++ [IMore] else l
  | None => l
  end.

(** The limit for the records after the first [elt]. *)
Definition limit_after (lim : option Z) (elt : Z) : option Z := (fun max => max - elt) <$> lim.
Definition over (lim : option Z) (elt : Z) : bool := match lim with Some max => max <? elt | None => false end.

Lemma shown_cons lim elt i r : over lim elt = false ->
  (if over lim (elt + 1) then [IMore]
   else i :: match r with [] => [] | _ => shown (limit_after lim (elt + 1)) r end) =
  shown (limit_after lim elt) (i :: r).
Proof.
  destruct lim as [max|]; [|by destruct r]. unfold over, limit_after, shown. cbn [fmap option_fmap option_map].
  intros Hm%Z.ltb_ge. rewrite lenZ_cons. len_facts. destruct (Z.ltb_spec max (elt + 1)).
  - replace (max - elt) with 0 by lia. by rewrite (proj2 (Z.ltb_lt 0 _)) by lia.
  - destruct r as [|y r].
    + by rewrite (proj2 (Z.ltb_ge _ _)) by (change (lenZ (@nil (item H))) with 0; lia).
    + destruct (Z.ltb_spec (max - (elt + 1)) (lenZ (y :: r))), (Z.ltb_spec (max - elt) (1 + lenZ (y :: r))); try lia; [|done].
      by replace (Z.to_nat (max - elt)) with (S (Z.to_nat (max - (elt + 1)))) by lia.
Qed.

Hypothesis hdr_size_pos : 0 < hdr_size.

Lemma encode_all_length l : Forall encoded_ok l -> hdr_size * lenZ l <= lenZ (encode_all l).
Proof.
  induction 1 as [|x l Hx Hl IH]; [change (lenZ (@nil R)) with 0; change (lenZ (encode_all [])) with 0; lia|].
  unfold encode_all in *. cbn [map concat]. rewrite lenZ_app, lenZ_cons, (e_length x Hx). pose proof (e_size x Hx). lia.
Qed.

Variables (lim : option Z) (truncation : Z -> bool) (hdr : Z -> option (list Z)).
Hypothesis truncation_ok : forall elt, 0 <= elt < 2 ^ 32 -> truncation elt = over lim elt.

Lemma walk_encoded base l pre elt fuel :
  Forall encoded_ok l -> l <> [] -> 0 < base -> 0 <= elt -> elt + lenZ l < 2 ^ 32 -> over lim elt = false ->
  let buf := pre ++ encode_all l in
  base + lenZ buf <= 2 ^ 64 ->
  (forall i, 0 <= i -> i + hdr_size <= lenZ buf -> hdr (base + i) = Some (take (Z.to_nat hdr_size) (drop (Z.to_nat i) buf))) ->
  let len := lenZ (encode_all l) in let a := base + lenZ pre in
  len < Z.of_nat fuel ->
  walk hdr_size HDRLEN parse rec_len aligned truncation hdr fuel a len elt = shown (limit_after lim elt) (recs l a len).
Proof.
  revert pre elt fuel. induction l as [|x l IH]; intros pre elt fuel HF Hne Hb He Hc Hm buf Hbuf Hhdr len a Hf; [done|].
  inversion HF as [|?? Hx HF']; subst. pose proof (lenZ_nonneg (encode_all (x :: l))) as Hnn. fold len in Hnn.
  destruct fuel as [|fuel]; [lia|]. destruct Hx as [Hparse Hel Hhl Hsz]. set (al := aligned (hdr_of x)) in *.
  assert (Hlen : len = al + lenZ (encode_all l)) by (unfold len, encode_all; cbn [map concat]; by rewrite lenZ_app, Hel).
  assert (Hbl : lenZ buf = lenZ pre + len) by (unfold buf; by rewrite lenZ_app).
  pose proof (encode_all_length l HF') as Hnx. pose proof (lenZ_nonneg pre). pose proof (lenZ_nonneg l).
  cbn [walk recs]. fold al. rewrite (proj2 (Z.ltb_ge len hdr_size)) by nia.
  assert (Hd : drop (Z.to_nat (lenZ pre)) buf = enc x ++ encode_all l)
    by (unfold lenZ; rewrite Nat2Z.id; apply drop_app_length).
  unfold a. rewrite (Hhdr (lenZ pre)), Hd, Hparse by nia.
  rewrite lenZ_cons in Hc. rewrite truncation_ok by lia.
  rewrite <- shown_cons by done. destruct (over lim (elt + 1)) eqn:Ho; [done|].
  unfold next. fold al. rewrite (proj2 (Z.leb_le HDRLEN _)) by lia.
  rewrite (proj2 (Z.leb_le al len)) by nia. replace (len - al) with (lenZ (encode_all l)) by lia.
  destruct l as [|y l]; [by cbn|].
  rewrite lenZ_cons in *. len_facts. rewrite (proj2 (Z.eqb_neq (lenZ (encode_all (y :: l))) 0)) by nia. cbn [negb andb].
  rewrite uint_small by (unfold in_uint; nia). rewrite (proj2 (Z.ltb_lt _ _)) by lia.
  rewrite (proj2 (Z.eqb_neq (base + lenZ pre + al) 0)) by lia. f_equal.
  assert (Epre : base + lenZ pre + al = base + lenZ (pre ++ enc x)) by (rewrite lenZ_app, Hel; lia).
  rewrite Epre. rewrite <- (IH (pre ++ enc x) (elt + 1) fuel); try done; try lia.
  - rewrite <- app_assoc. done.
  - rewrite <- app_assoc. done.
Qed.

(** A buffer that holds exactly the records. *)
Lemma walk_all addr len l :
  Forall encoded_ok l -> l <> [] -> 0 < addr -> addr + len <= 2 ^ 64 -> len < 2 ^ 32 -> over lim 0 = false ->
  lenZ (encode_all l) = len ->
  (forall i, 0 <= i -> i + hdr_size <= len -> hdr (addr + i) = Some (take (Z.to_nat hdr_size) (drop (Z.to_nat i) (encode_all l)))) ->
  walk hdr_size HDRLEN parse rec_len aligned truncation hdr (seq_fuel len) addr len 0 = shown lim (recs l addr len).
Proof.
  intros HE Hne H0 H64 H32 Ho <- Hh. pose proof (encode_all_length l HE). len_facts. pose proof (lenZ_nonneg l).
  pose proof (walk_encoded addr l [] 0 (seq_fuel (lenZ (encode_all l))) HE Hne) as Hw.
  cbn [app] in Hw. change (lenZ (@nil Z)) with 0 in Hw. rewrite Z.add_0_r in Hw. rewrite Hw; try done; try nia.
  - unfold limit_after. destruct lim; cbn; [|done]. by rewrite Z.sub_0_r.
  - unfold seq_fuel. lia.
Qed.

End encoded.

Definition limit (t : tcb) (max_strlen : Z) : option Z := if abbrev t then Some max_strlen else None.

Lemma truncation_limit t max_strlen elt : 0 <= elt < 2 ^ 32 ->
  sequence_truncation_needed max_strlen t elt = over (limit t max_strlen) elt.
Proof.
  intros He. unfold sequence_truncation_needed, limit, over. rewrite uint_small by done. by destruct (abbrev t).
Qed.

(** ** Encoding of attributes *)

Fixpoint le_bytes (n : nat) (v : Z) : list Z :=
  match n with O => [] | S n' => v mod 256 :: le_bytes n' (v / 256) end.
Definition word_bytes (is_bigendian : bool) (n : nat) (v : Z) : list Z :=
  if is_bigendian then rev (le_bytes n v) else le_bytes n v.

Lemma le_bytes_length n v : length (le_bytes n v) = n.
Proof. revert v. induction n as [|n IH]; intros v; [done|]. cbn. by rewrite IH. Qed.

Lemma le_value_le_bytes n v : 0 <= v < 256 ^ Z.of_nat n -> le_value (le_bytes n v) = v.
Proof.
  revert v. induction n as [|n IH]; intros v Hv; [cbn in *; lia|]. cbn [le_bytes le_value].
  rewrite IH; [pose proof (Z.div_mod v 256); lia|].
  rewrite Nat2Z.inj_succ, Z.pow_succ_r in Hv by lia. split; [apply Z.div_pos; lia|]. apply Z.div_lt_upper_bound; lia.
Qed.

Lemma word_bytes_length be n v : length (word_bytes be n v) = n.
Proof. unfold word_bytes. destruct be; [rewrite length_rev|]; apply le_bytes_length. Qed.

Lemma word_value_bytes be n v : 0 <= v < 256 ^ Z.of_nat n -> word_value be (word_bytes be n v) = v.
Proof. intros Hv. unfold word_value, word_bytes. destruct be; [rewrite rev_involutive|]; by apply le_value_le_bytes. Qed.

(** An attribute: its type and its data. *)
Definition attr : Type := Z * list Z.
Definition attr_ok (x : attr) : Prop := 0 <= x.1 < 2 ^ 16 /\ 4 + lenZ x.2 < 2 ^ 16.
Definition attr_len (x : attr) : Z := 4 + lenZ x.2.
Definition attr_pad (x : attr) : nat := Z.to_nat (NLA_ALIGN (attr_len x) - attr_len x).
Definition encode_attr (be : bool) (x : attr) : list Z :=
  word_bytes be 2 (attr_len x) ++ word_bytes be 2 x.1 ++ x.2 ++ replicate (attr_pad x) 0.
Definition encode (be : bool) (l : list attr) : list Z := encode_all (encode_attr be) l.

Lemma NLA_ALIGN_eq n : NLA_ALIGN n = 4 * (uint 32 (n + 3) / 4).
Proof.
  unfold NLA_ALIGN. change 3 with (Z.ones 2) at 2. rewrite <- Z.ldiff_land, Z.ldiff_ones_r by lia.
  rewrite Z.shiftl_mul_pow2, Z.shiftr_div_pow2 by lia. change (2 ^ 2) with 4. lia.
Qed.

Lemma NLA_ALIGN_range n : 0 <= NLA_ALIGN n < 2 ^ 64.
Proof.
  rewrite NLA_ALIGN_eq. pose proof (uint_range 32 (n + 3) ltac:(lia)) as [H0 H1].
  pose proof (Z.div_mod (uint 32 (n + 3)) 4). pose proof (Z.mod_pos_bound (uint 32 (n + 3)) 4). lia.
Qed.

Lemma NLA_ALIGN_spec n : 0 <= n < 2 ^ 32 - 3 -> n <= NLA_ALIGN n <= n + 3.
Proof.
  intros Hn. rewrite NLA_ALIGN_eq, uint_small by (unfold in_uint; lia).
  pose proof (Z.div_mod (n + 3) 4). pose proof (Z.mod_pos_bound (n + 3) 4). lia.
Qed.

Lemma encode_attr_length be x : attr_ok x -> lenZ (encode_attr be x) = NLA_ALIGN (attr_len x).
Proof.
  intros [_ Hx]. unfold encode_attr, attr_pad, attr_len in *. len_facts.
  pose proof (NLA_ALIGN_spec (4 + lenZ x.2) ltac:(lia)) as Ha.
  unfold lenZ in *. rewrite !length_app, !word_bytes_length, length_replicate. lia.
Qed.

Lemma parse_encoded be x rest : attr_ok x ->
  parse_nlattr be (take 4 (encode_attr be x ++ rest)) = mk_nla (attr_len x) x.1.
Proof.
  intros [Ht Hl]. unfold encode_attr. rewrite <- !app_assoc.
  assert (E : forall r, take 4 (word_bytes be 2 (attr_len x) ++ word_bytes be 2 x.1 ++ r) = word_bytes be 2 (attr_len x) ++ word_bytes be 2 x.1).
  { intros r. rewrite app_assoc. apply take_app_length'. by rewrite length_app, !word_bytes_length. }
  rewrite E. unfold parse_nlattr.
  rewrite take_app_length', drop_app_length' by (by rewrite word_bytes_length).
  rewrite !word_value_bytes; [done|change (256 ^ Z.of_nat 2) with (2 ^ 16); lia|].
  unfold attr_len. len_facts. change (256 ^ Z.of_nat 2) with (2 ^ 16). lia.
Qed.

Definition attr_hdr (x : attr) : nlattr := mk_nla (attr_len x) x.1.

Lemma attr_encoded be x : attr_ok x ->
  encoded_ok 4 NLA_HDRLEN (parse_nlattr be) nla_len (fun nla => NLA_ALIGN (nla_len nla)) (encode_attr be) attr_hdr x.
Proof.
  intros Hx. assert (Hal : 4 <= attr_len x < 2 ^ 16) by (unfold attr_len; destruct Hx; len_facts; lia).
  pose proof (NLA_ALIGN_spec (attr_len x) ltac:(lia)). split; cbn; [by intros; apply parse_encoded|by apply encode_attr_length|unfold NLA_HDRLEN; lia|lia].
Qed.

(** ** Decoding attributes *)

Section attributes.
Context {St D : Type} {P : Printing St}.
Variables (is_bigendian : bool) (xlat_verbosity max_strlen : Z) (t : tcb).
Variables (table : option xlat) (dflt : option string) (decoders : option (list (option (@nla_decoder St D)))) (size : Z) (opaque_data : opaque D).
(** The buffer is from [lo] to [hi]; there the memory has the headers [hdr] and
    the bytes that print as [hex] says, and decoder number [i] prints and returns
    what [dec] says. *)
Variables (Inv : St -> Prop) (lo hi : Z) (hdr : Z -> option (list Z)) (hex : Z -> Z -> text -> Prop).
Variable dec : nat -> Z -> Z -> opaque D -> text -> bool -> Prop.
Hypothesis hi_ok : hi <= 2 ^ 64.
Hypothesis fetch_ok : forall a st, lo <= a -> a + 4 <= hi -> Inv st ->
  exists st', p_fetch a 4 st = (hdr a, st') /\ Inv st'.
Hypothesis hex_ok : forall a n st, lo <= a -> 0 <= n -> a + n <= hi -> Inv st ->
  exists s st', p_printstr a n QUOTE_FORCE_HEX st = (s, st') /\ hex a n s /\ Inv st'.
Hypothesis dec_ok : forall ds i d a n op st, decoders = Some ds -> nth i ds None = Some d ->
  lo <= a -> 0 < n -> a + n <= hi -> Inv st ->
  exists s ok st', d a n op st = Some (s, ok, st') /\ dec i a n op s ok /\ Inv st'.

(** The decoder for an attribute. *)
Definition chosen (nla : nlattr) : option nat :=
  ds ← decoders;
  let by_type := negb (size =? UINT_MAX) && negb (size =? 0) in
  let idx := if by_type then Z.land (nla_type nla) NLA_TYPE_MASK else 0 in
  if by_type && (size <=? idx) then None
  else match nth (Z.to_nat idx) ds None with Some _ => Some (Z.to_nat idx) | None => None end.

(** What its argument is. *)
Definition argument (nla : nlattr) : opaque D := if size =? 0 then OInt (nla_type nla) else opaque_data.

(** The data of an attribute: by the decoder, and in hexadecimal when there is
    none or it gives up. *)
Definition shows_data (nla : nlattr) (a n : Z) (s : text) : Prop :=
  match chosen nla with
  | None => hex a n s
  | Some i => exists d ok, dec i a n (argument nla) d ok /\ if ok : bool then s = d else exists x, s = d ++ x /\ hex a n x
  end.

Definition shows_attr (nla : nlattr) (a l : Z) (s : text) : Prop :=
  let header := print_nlattr xlat_verbosity nla table dflt in
  let n := Z.min (nla_len nla) l in
  if 4 <? n then exists data, s = codes "[" ++ header ++ codes ", " ++ data ++ codes "]" /\ shows_data nla (a + 4) (n - 4) data
  else s = header.

Lemma with_data_ok nla a l st : 0 <= lo -> lo <= a -> 4 <= l -> a + l <= hi -> Inv st ->
  exists s st', decode_nlattr_with_data xlat_verbosity table dflt decoders size opaque_data nla a l st = Some (s, st') /\
    shows_attr nla a l s /\ Inv st'.
Proof.
  intros Hlo0 Hlo Hl Hhi Hst. unfold decode_nlattr_with_data, shows_attr, NLA_HDRLEN. set (n := Z.min (nla_len nla) l).
  destruct (Z.ltb_spec 4 n) as [Hn|]; [|by eexists _, st].
  rewrite uint_small by (unfold in_uint; lia).
  assert (Hhex : forall d st, Inv st -> exists s st', (let '(data', st) := p_printstr (a + 4) (n - 4) QUOTE_FORCE_HEX st in
      Some (codes "[" ++ print_nlattr xlat_verbosity nla table dflt ++ codes ", " ++ d ++ data' ++ codes "]", st)) = Some (s, st') /\ Inv st' /\
    exists x, hex (a + 4) (n - 4) x /\ s = codes "[" ++ print_nlattr xlat_verbosity nla table dflt ++ codes ", " ++ (d ++ x) ++ codes "]").
  { intros d st' H'. destruct (hex_ok (a + 4) (n - 4) st') as (x & st2 & -> & Hx & H2); [lia|lia|lia|done|].
    eexists _, st2. split; [done|]. split; [done|]. exists x. split; [done|]. by rewrite <- !app_assoc. }
  assert (Hnone : chosen nla = None -> exists s st', (let '(data', st) := p_printstr (a + 4) (n - 4) QUOTE_FORCE_HEX st in
      Some (codes "[" ++ print_nlattr xlat_verbosity nla table dflt ++ codes ", " ++ [] ++ data' ++ codes "]", st)) = Some (s, st') /\
    (exists data, s = codes "[" ++ print_nlattr xlat_verbosity nla table dflt ++ codes ", " ++ data ++ codes "]" /\
       shows_data nla (a + 4) (n - 4) data) /\ Inv st').
  { intros Hc. destruct (Hhex [] st Hst) as (s & st' & E & H' & x & Hx & ->). eexists _, st'. split; [exact E|].
    split; [|done]. exists x. split; [done|]. unfold shows_data. by rewrite Hc. }
  unfold shows_data, chosen, argument in *. destruct decoders as [ds|] eqn:Eds; cbn [mbind option_bind] in *; [|by apply Hnone].
  set (by_type := negb (size =? UINT_MAX) && negb (size =? 0)) in *.
  set (idx := if by_type then _ else _) in *. destruct (by_type && (size <=? idx)); [by apply Hnone|].
  destruct (nth (Z.to_nat idx) ds None) as [d|] eqn:Ed; [|by apply Hnone].
  destruct (dec_ok ds (Z.to_nat idx) d (a + 4) (n - 4) (if size =? 0 then OInt (nla_type nla) else opaque_data) st eq_refl Ed)
    as (s & ok & st1 & -> & Hdec & H1); [lia|lia|lia|done|].
  destruct ok.
  - eexists _, st1. split; [done|]. split; [|done]. exists s. cbn [app]. split; [done|]. by exists s, true.
  - destruct (Hhex s st1 H1) as (s' & st' & E & H' & x & Hx & ->). eexists _, st'. split; [exact E|]. split; [|done].
    exists (s ++ x). split; [done|]. exists s, false. split; [done|]. by exists x.
Qed.

Abbreviation attr_walk addr len := (walk 4 NLA_HDRLEN (parse_nlattr is_bigendian) nla_len (fun nla => NLA_ALIGN (nla_len nla))
  (sequence_truncation_needed max_strlen t) hdr (seq_fuel len) addr len 0).

Lemma decode_nlattr_spec addr len st : 0 <= lo -> lo <= addr < 2 ^ 64 -> 0 <= len -> addr + len <= hi -> Inv st ->
  exists texts st', Inv st' /\
    decode_nlattr is_bigendian xlat_verbosity max_strlen t addr len table dflt decoders size opaque_data st = Some (bracketed texts, st') /\
    all_shown hex shows_attr (attr_walk addr len) texts.
Proof.
  intros Hlo0 Ha Hl Hhi Hst. unfold decode_nlattr.
  apply (decode_seq_spec 4 NLA_HDRLEN _ nla_len _ _ _ hdr hex shows_attr Inv lo hi); try done; try lia.
  - intros a n st' H1 H2 H3 H4. by apply hex_ok; [..|lia|lia|].
  - intros h a l st' H1 H2 H3 H4. by apply with_data_ok.
  - intros h. apply NLA_ALIGN_range.
Qed.

End attributes.

(** ** In the memory of a tracee *)

Section tracee.
Context {TM : TraceeMemory}.
Variable page_bits : Z.
Hypothesis page_bits_ok : 3 <= page_bits < 32.
Abbreviation page_size := (2 ^ page_bits).
Context {ML : MemoryLaws TM page_size}.
Variables (narrow : bool) (xflag max_strlen : Z) (fresh : Z -> list Z) (t : tcb) (m : mstate).
Hypothesis max_strlen_ok : 0 <= max_strlen /\ 4 * max_strlen < 2 ^ 32.
Hypothesis fresh_length : forall n, 0 <= n -> lenZ (fresh n) = n.

(** The page cache and the static buffer of [printstr_ex]. *)
Definition world : Type := ucopy * option (list Z).

Definition fetch_with (f : ucopy -> option (option (list Z) * ucopy)) (st : world) : option (list Z) * world :=
  match f st.1 with Some (r, c) => (r, (c, st.2)) | None => (None, st) end.

#[export] Instance tracee_printing : Printing world := {|
  p_fetch a n := fetch_with (fun c => tfetch_mem64 page_size narrow t m c a n);
  p_fetch_ignore_syserror a n := fetch_with (fun c => tfetch_mem64_ignore_syserror page_size narrow t m c a n);
  p_printstr a n style st :=
    match printstr_ex page_size narrow xflag max_strlen fresh m st.1 st.2 a n style with
    | Some (s, _, c, str) => (s, (c, str))
    | None => ([], st)
    end |}.

Definition world_ok (st : world) : Prop :=
  cache_ok page_bits m st.1 /\ process_vm_readv_not_supported st.1 = false /\ str_ok max_strlen st.2.

(** Bytes in hexadecimal, in quotes, or the address when they cannot be read. *)
Definition hex_text (a n : Z) (s : text) : Prop :=
  match contents page_bits max_strlen m a n QUOTE_FORCE_HEX with
  | None => s = printaddr64 a
  | Some (l, complete) => exists q, quotes max_strlen (firstn (Z.to_nat max_strlen) l) q /\
      s = q ++ (if complete : bool then [] else more_data_follows)
  end.

Definition seen (a n : Z) : option (list Z) := if looks t then bytes_at byte_at m a n else None.

(** A buffer where no read is rejected, not at the end of the address space. *)
Definition buffer_ok (lo hi : Z) : Prop := range_ok page_bits narrow lo (hi + max_strlen + 1).

Lemma tracee_fetch_ok lo hi n a st : buffer_ok lo hi -> lo <= a -> 0 <= n < 2 ^ 31 -> a + n <= hi -> world_ok st ->
  exists st', p_fetch a n st = (seen a n, st') /\ world_ok st'.
Proof.
  intros Hr Hlo Hn Hhi (Hc & Hs & Hstr). cbn. unfold fetch_with.
  destruct Hr as (H0 & H1 & Hv). assert (Ha : tracee_addr_is_invalid narrow a = false) by (apply Hv; lia).
  unfold tfetch_mem64. replace (a =? 0) with false by lia. cbn [negb andb]. fold (looks t). unfold seen.
  destruct st as [c str]. cbn [fst snd] in *. destruct (looks t); [|by exists (c, str)].
  destruct (umoven_spec page_bits page_bits_ok narrow m c a n Hc ltac:(lia) Hn ltac:(lia) Ha)
    as (rc & l' & c' & -> & Hc' & Hs' & _ & Hr). exists (c', str). cbn [mbind option_bind].
  split; [|split; [done|]; split; [by rewrite <- Hs|done]]. destruct (bytes_at byte_at m a n); [by destruct Hr as [-> ->]|by subst rc].
Qed.

Lemma tracee_hex_ok lo hi a n st : buffer_ok lo hi -> lo <= a -> 0 <= n -> a + n <= hi -> world_ok st ->
  exists s st', p_printstr a n QUOTE_FORCE_HEX st = (s, st') /\ hex_text a n s /\ world_ok st'.
Proof.
  intros (H0 & H1 & Hv) Hlo Hn Hhi (Hc & Hs & Hstr). cbn.
  destruct (printstr_ex_spec page_bits page_bits_ok narrow xflag max_strlen fresh max_strlen_ok fresh_length
    m st.1 st.2 a n QUOTE_FORCE_HEX) as (s & rc & c' & str' & -> & Hc' & Hstr' & Hs' & Hm); try done.
  { split; [done|done|lia|lia|apply Hv; lia]. }
  exists s, (c', str'). split; [done|]. split; [|done]. unfold hex_text.
  destruct (contents page_bits max_strlen m a n QUOTE_FORCE_HEX) as [[l complete]|]; [done|by destruct Hm].
Qed.

Lemma tracee_str_ok lo hi a n style st : buffer_ok lo hi -> lo <= a -> 0 <= n -> a + n <= hi -> world_ok st ->
  exists s st', p_printstr a n style st = (s, st') /\ world_ok st'.
Proof.
  intros (H0 & H1 & Hv) Hlo Hn Hhi (Hc & Hs & Hstr). cbn.
  destruct (printstr_ex_safe page_bits page_bits_ok narrow xflag max_strlen fresh max_strlen_ok fresh_length
    m st.1 st.2 a n style) as (s & rc & c' & str' & -> & Hc' & Hstr' & Hs'); try done.
  { split; [done|done|lia|lia|apply Hv; lia]. }
  by exists s, (c', str').
Qed.

Section decode.
Context {D : Type}.
Variables (is_bigendian : bool) (xlat_verbosity : Z) (table : option xlat) (dflt : option string).
Variables (decoders : option (list (option (@nla_decoder world D)))) (size : Z) (opaque_data : opaque D).
Variable dec : nat -> Z -> Z -> opaque D -> text -> bool -> Prop.
Variables (addr len : Z) (st : world).
Hypothesis buffer : buffer_ok addr (addr + len).
Hypothesis len_ok : 0 <= len.
Hypothesis st_ok : world_ok st.
(** Each decoder, on data inside the buffer, prints and returns what [dec] says. *)
Hypothesis dec_ok : forall ds i d a n op st, decoders = Some ds -> nth i ds None = Some d ->
  addr <= a -> 0 < n -> a + n <= addr + len -> world_ok st ->
  exists s ok st', d a n op st = Some (s, ok, st') /\ dec i a n op s ok /\ world_ok st'.
Abbreviation shows_nla := (shows_attr xlat_verbosity table dflt decoders size opaque_data hex_text dec).

Lemma decode_nlattr_tracee : exists texts st', world_ok st' /\
  decode_nlattr is_bigendian xlat_verbosity max_strlen t addr len table dflt decoders size opaque_data st
    = Some (bracketed texts, st') /\
  all_shown hex_text shows_nla
    (walk 4 NLA_HDRLEN (parse_nlattr is_bigendian) nla_len (fun nla => NLA_ALIGN (nla_len nla))
       (sequence_truncation_needed max_strlen t) (fun a => seen a 4) (seq_fuel len) addr len 0) texts.
Proof.
  pose proof buffer as (H0 & H1 & _). pose proof (pow2_pos page_bits ltac:(lia)).
  apply (decode_nlattr_spec is_bigendian xlat_verbosity max_strlen t table dflt decoders size opaque_data world_ok addr (addr + len));
    try done; try lia.
  - intros a st' Ha Hh Hst'. by apply (tracee_fetch_ok addr (addr + len)).
  - intros a n st' Ha Hn Hh Hst'. by apply (tracee_hex_ok addr (addr + len)).
Qed.

(** Whatever is in the memory of the tracee, [decode_nlattr] ends, and looks at
    nothing outside the buffer: a decoder is only called with data inside it (which
    is all that is asked of decoders here), and every attribute shown has its
    header inside it.  What is printed are the attributes found by following the
    lengths, in brackets if there is more than one item. *)
Theorem decode_nlattr_in_buffer :
  exists items texts st', world_ok st' /\
    decode_nlattr is_bigendian xlat_verbosity max_strlen t addr len table dflt decoders size opaque_data st
      = Some (bracketed texts, st') /\
    all_shown hex_text shows_nla items texts /\ Forall (in_buffer 4 addr len) items.
Proof.
  destruct decode_nlattr_tracee as (texts & st' & H1 & H2 & H3). eexists _, texts, st'.
  split; [exact H1|]. split; [exact H2|]. split; [exact H3|]. pose proof buffer as (? & ? & _).
  pose proof (pow2_pos page_bits ltac:(lia)). apply walk_in_buffer; try lia. intros h. apply NLA_ALIGN_range.
Qed.

(** A buffer with the encoding of a list of attributes is printed as exactly
    these attributes in order, each with its length, type and data, up to the
    limit on the number of elements and then three dots. *)
Theorem decode_nlattr_correct (l : list attr) :
  looks t = true -> l <> [] -> Forall attr_ok l -> len < 2 ^ 32 ->
  bytes_at byte_at m addr len = Some (encode is_bigendian l) ->
  exists texts st', world_ok st' /\
    decode_nlattr is_bigendian xlat_verbosity max_strlen t addr len table dflt decoders size opaque_data st
      = Some (bracketed texts, st') /\
    all_shown hex_text shows_nla
      (shown (limit t max_strlen) (recs (fun nla => NLA_ALIGN (nla_len nla)) attr_hdr l addr len)) texts.
Proof.
  intros Hlook Hne HF H32 Hm. destruct decode_nlattr_tracee as (texts & st' & H1 & H2 & H3). exists texts, st'.
  split; [exact H1|]. split; [exact H2|]. pose proof buffer as (Hb0 & Hb1 & _). pose proof (pow2_pos page_bits ltac:(lia)).
  rewrite (walk_all 4 NLA_HDRLEN _ _ _ (encode_attr is_bigendian) attr_hdr eq_refl (limit t max_strlen)) with (l := l) in H3;
    try done; try lia.
  - intros elt. apply truncation_limit.
  - by apply (Forall_impl _ (attr_encoded is_bigendian)).
  - unfold over, limit. destruct (abbrev t); [lia|done].
  - by apply (bytes_at_Some byte_at m addr len _ len_ok) in Hm as [Hlen _].
  - intros i Hi Hi4. unfold seen. rewrite Hlook. by apply (bytes_at_slice byte_at m addr len); try lia.
Qed.

End decode.
End tracee.

(** ** Numbers *)

Lemma le_value_digit b i : Forall byte b -> (i < length b)%nat ->
  Z.land (Z.shiftr (le_value b) (8 * Z.of_nat i)) 0xff = nth i b 0.
Proof.
  intros Hb. revert i. induction Hb as [|c b Hc Hb IH]; intros i Hi; [simpl in Hi; lia|]. unfold byte in Hc.
  change 0xff with (Z.ones 8) in *. cbn [le_value]. destruct i as [|i].
  - rewrite Z.shiftr_0_r, Z.land_ones by lia. cbn [nth]. change (2 ^ 8) with 256.
    rewrite Z.mul_comm, Z.mod_add, Z.mod_small by lia. done.
  - cbn [nth length] in *. rewrite <- IH by lia. f_equal. replace (8 * Z.of_nat (S i)) with (8 + 8 * Z.of_nat i) by lia.
    rewrite <- Z.shiftr_shiftr by lia. f_equal. rewrite Z.shiftr_div_pow2 by lia. change (2 ^ 8) with 256.
    rewrite Z.mul_comm, Z.div_add, Z.div_small by lia. lia.
Qed.

Lemma swap_bytes b : Forall byte b -> swap (length b) (le_value b) = le_value (rev b).
Proof.
  intros Hb. unfold swap. f_equal. f_equal. set (f := fun i => Z.land _ _).
  apply nth_ext with (d := f 0%nat) (d' := 0); [by rewrite length_map, length_seq|].
  intros i Hi. rewrite length_map, length_seq in Hi. rewrite map_nth, seq_nth by done. by apply le_value_digit.
Qed.

Lemma ntoh_value be b : Forall byte b -> ntoh be (length b) (value be b) = le_value (rev b).
Proof. intros Hb. unfold ntoh, value, word_value. destruct be; [done|]. by apply swap_bytes. Qed.

Lemma with_obj_read {St} {P : Printing St} n show addr len st b st' :
  n <= len -> p_fetch addr n st = (Some b, st') -> with_obj n show addr len st = Some (show b, true, st').
Proof. intros Hn E. unfold with_obj. rewrite (proj2 (Z.ltb_ge len n)) by lia. by rewrite E. Qed.

Section numbers.
Context {St D : Type} {P : Printing St}.
Variables (is_bigendian : bool) (op : opaque D) (addr len : Z) (st st' : St).

(** [decode_nla_be16], [decode_nla_be32] and [decode_nla_be64] print the value
    of the data in network byte order, whatever the byte order of the host. *)
Theorem decode_nla_be_correct (b : list Z) :
  Forall byte b -> lenZ b <= len -> p_fetch addr (lenZ b) st = (Some b, st') ->
  let result name := Some (fn_call name (codes (pretty (le_value (rev b)))), true, st') in
  (lenZ b = 2 -> decode_nla_be16 is_bigendian addr len op st = result "htons"%string) /\
  (lenZ b = 4 -> decode_nla_be32 is_bigendian addr len op st = result "htonl"%string) /\
  (lenZ b = 8 -> decode_nla_be64 is_bigendian addr len op st = result "htobe64"%string).
Proof.
  intros Hb Hl E result. unfold result. rewrite <- (ntoh_value is_bigendian b Hb).
  assert (Hlen : forall n, lenZ b = n -> length b = Z.to_nat n) by (unfold lenZ; lia).
  split; [|split]; intros Hn; rewrite (Hlen _ Hn); rewrite Hn in *; 
    unfold decode_nla_be16, decode_nla_be32, decode_nla_be64; by rewrite (with_obj_read _ _ _ _ _ b st' Hl E).
Qed.

(** The integers of [n] bytes that a format shows. *)
Definition in_format (f : int_fmt) (n v : Z) : Prop :=
  match f with FmtD => - 2 ^ (8 * n - 1) <= v < 2 ^ (8 * n - 1) | _ => 0 <= v < 2 ^ (8 * n) end.

(** The decoders made by [DECODE_NLA_INTEGER] print an integer of their type that
    is stored in the byte order of the host as it is, with its sign in the signed
    ones. *)
Theorem decode_nla_integer_roundtrip (n : nat) (f : int_fmt) (v : Z) :
  (0 < n)%nat -> Z.of_nat n <= len -> in_format f (Z.of_nat n) v ->
  p_fetch addr (Z.of_nat n) st = (Some (word_bytes is_bigendian n (v mod 2 ^ (8 * Z.of_nat n))), st') ->
  DECODE_NLA_INTEGER is_bigendian (Z.of_nat n) f addr len op st =
  Some (codes (match f with FmtX => fmt_hex v | _ => pretty v end), true, st').
Proof.
  intros H0 Hl Hv E. unfold DECODE_NLA_INTEGER. rewrite (with_obj_read _ _ _ _ _ _ st' Hl E). do 3 f_equal.
  assert (Hp : 256 ^ Z.of_nat n = 2 ^ (8 * Z.of_nat n)) by (change 256 with (2 ^ 8); rewrite <- Z.pow_mul_r by lia; done).
  pose proof (pow2_pos (8 * Z.of_nat n) ltac:(lia)) as Hpos.
  unfold value. rewrite word_value_bytes by (rewrite Hp; by apply Z.mod_pos_bound).
  unfold sprint_int. destruct f; cbn [in_format] in Hv; [by rewrite Z.mod_small|by rewrite Z.mod_small|].
  do 2 f_equal. rewrite <- (sint_small (8 * Z.of_nat n) v) at 2 by lia. unfold sint. by rewrite Z.mod_mod by lia.
Qed.
End numbers.

(** ** A concrete message *)

Definition demo_attrs : list attr := [(1, [42; 0; 0; 0]); (0x8002, [97; 98; 0])].
Definition demo_msg : demo_mem :=
  mk_mem (fun p => (1 <=? p) && (p <=? 3)) (fun a => nthZ (encode false demo_attrs) (a - 16)).
Abbreviation demo_m := (demo_msg : @mstate demo_memory).
Definition demo_table : xlat := mk_xlat [mk_xd 1 (Some "DEMO_VALUE"%string); mk_xd 2 (Some "DEMO_NAME"%string)] XT_NORMAL.
Definition demo_world : world := (empty_cache, None).
#[local] Instance demo_printing : Printing world := tracee_printing demo_bits false 0 32 demo_fresh decoding demo_m.

Definition demo_decoders : list (option (@nla_decoder world unit)) :=
  [None; Some (decode_nla_u32 false); Some decode_nla_str].

Example demo_decoded :
  (fst <$> decode_nlattr false 2 32 decoding 16 16 (Some demo_table) (Some "DEMO_???"%string) (Some demo_decoders) 3 (OData tt) demo_world)
  = Some (codes "[[{nla_len=8, nla_type=DEMO_VALUE}, 42], [{nla_len=7, nla_type=NLA_F_NESTED|DEMO_NAME}, " ++ [34; 97; 98; 34] ++ codes "]]").
Proof. vm_compute. reflexivity. Qed.

Lemma demo_buffer : buffer_ok demo_bits false 32 16 (16 + 16).
Proof. split; [lia|]. split; [reflexivity|]. by intros a _. Qed.

Lemma demo_world_ok : world_ok demo_bits 32 demo_m demo_world.
Proof. split; [apply empty_cache_ok|]. split; [done|]. by intros b. Qed.

Lemma decode_nlattr_in_buffer_witness :
  exists items texts st',
    decode_nlattr false 2 32 decoding 16 16 (Some demo_table) None (@None (list (option (@nla_decoder world unit)))) 0 (OInt 0) demo_world
      = Some (bracketed texts, st') /\ length items = length texts /\ Forall (in_buffer (H := nlattr) 4 16 16) items.
Proof.
  destruct (decode_nlattr_in_buffer demo_bits ltac:(vm_compute; split; congruence) false 0 32 demo_fresh decoding demo_m
    ltac:(lia) demo_fresh_length false 2 (Some demo_table) None (@None (list (option (@nla_decoder world unit)))) 0 (OInt 0)
    (fun _ _ _ _ _ _ => True) 16 16 demo_world demo_buffer ltac:(lia) demo_world_ok ltac:(intros; discriminate))
    as (items & texts & st' & _ & E & Hs & Hb).
  exists items, texts, st'. split; [exact E|]. split; [exact (all_shown_length _ _ _ _ Hs)|exact Hb].
Defined.

Lemma decode_nlattr_correct_witness :
  exists texts st',
    decode_nlattr false 2 32 decoding 16 16 (Some demo_table) None (@None (list (option (@nla_decoder world unit)))) 0 (OInt 0) demo_world
      = Some (bracketed texts, st') /\ length texts = 2%nat.
Proof.
  destruct (decode_nlattr_correct demo_bits ltac:(vm_compute; split; congruence) false 0 32 demo_fresh decoding demo_m
    ltac:(lia) demo_fresh_length false 2 (Some demo_table) None (@None (list (option (@nla_decoder world unit)))) 0 (OInt 0)
    (fun _ _ _ _ _ _ => True) 16 16 demo_world demo_buffer ltac:(lia) demo_world_ok ltac:(intros; discriminate) demo_attrs)
    as (texts & st' & _ & E & Hs).
  - reflexivity.
  - discriminate.
  - repeat constructor; vm_compute; congruence.
  - lia.
  - vm_compute. reflexivity.
  - exists texts, st'. split; [exact E|]. rewrite <- (all_shown_length _ _ _ _ Hs). vm_compute. reflexivity.
Defined.

Lemma decode_nla_be_correct_witness :
  exists st', decode_nla_be32 false 20 4 (OData tt) demo_world = Some (codes "htonl(704643072)", true, st').
Proof.
  destruct (p_fetch 20 4 demo_world) as [r st'] eqn:E. exists st'.
  assert (Hr : r = Some [42; 0; 0; 0]) by (vm_compute in E; congruence). rewrite Hr in E.
  refine (proj1 (proj2 (decode_nla_be_correct false (OData tt) 20 4 demo_world st' [42; 0; 0; 0] _ _ E)) _).
  - repeat constructor; lia.
  - vm_compute. congruence.
  - reflexivity.
Defined.

Lemma decode_nla_integer_roundtrip_witness :
  exists st', DECODE_NLA_INTEGER false 4 FmtD 20 4 (OData tt) demo_world = Some (codes (pretty 42), true, st').
Proof.
  destruct (p_fetch 20 4 demo_world) as [r st'] eqn:E. exists st'.
  assert (Hr : r = Some [42; 0; 0; 0]) by (vm_compute in E; congruence). rewrite Hr in E.
  apply (decode_nla_integer_roundtrip false (OData tt) 20 4 demo_world st' 4 FmtD 42).
  - lia.
  - lia.
  - vm_compute. split; congruence.
  - exact E.
Defined.
