(* ===== verification/Netlink.v ===== *)
(** * Netlink messages (src/netlink.c)

    What is sent over a netlink socket is a sequence of messages, each a header
    with its length and type followed by a payload and padding.  [decode_netlink]
    walks over the messages in the memory of the tracee, as [decode_nlattr] does
    over attributes (Nlattr), and gives the payload of each to the decoder of the
    family of the socket.  The payload of an error is another message and
    attributes, so the decoding of a message calls itself; the depth is bounded.
    The tables of names are parameters, as are the decoders of the families. *)

From stdpp Require Import strings pretty.
From Stdlib Require Import Ascii.
From S2P Require Import Prelude Wait Util Xlat Filters Quote UCopy PrintStr Tcb PrintArray Nlattr.
Open Scope Z_scope.

(** ** Constants of the kernel *)

Definition CRYPTO_MSG_NEWALG : Z := 16.
Definition CRYPTO_MSG_DELALG : Z := 17.
Definition CRYPTO_MSG_GETALG : Z := 19.
Definition CRYPTO_MSG_DELRNG : Z := 20.
Definition IPCTNL_MSG_CT_NEW : Z := 0.
Definition IPCTNL_MSG_TIMEOUT_NEW : Z := 0.
Definition IPCTNL_MSG_EXP_NEW : Z := 0.
Definition IPCTNL_MSG_EXP_GET : Z := 1.
Definition IPCTNL_MSG_CT_GET : Z := 1.
Definition IPCTNL_MSG_TIMEOUT_GET : Z := 1.
Definition IPCTNL_MSG_CT_DELETE : Z := 2.
Definition IPCTNL_MSG_TIMEOUT_DELETE : Z := 2.
Definition IPCTNL_MSG_EXP_DELETE : Z := 2.
Definition IPCTNL_MSG_EXP_GET_STATS_CPU : Z := 3.
Definition IPCTNL_MSG_CT_GET_CTRZERO : Z := 3.
Definition IPCTNL_MSG_CT_GET_STATS_CPU : Z := 4.
Definition IPCTNL_MSG_CT_GET_STATS : Z := 5.
Definition IPCTNL_MSG_CT_GET_DYING : Z := 6.
Definition IPCTNL_MSG_CT_GET_UNCONFIRMED : Z := 7.
Definition NETLINK_AUDIT : Z := 9.
Definition NETLINK_CRYPTO : Z := 21.
Definition NETLINK_GENERIC : Z := 16.
Definition NETLINK_KOBJECT_UEVENT : Z := 15.
Definition NETLINK_NETFILTER : Z := 12.
Definition NETLINK_ROUTE : Z := 0.
Definition NETLINK_SELINUX : Z := 7.
Definition NETLINK_SOCK_DIAG : Z := 4.
Definition NETLINK_XFRM : Z := 6.
Definition NFNL_MSG_COMPAT_GET : Z := 0.
Definition NFNL_MSG_HOOK_GET : Z := 0.
Definition NFNL_MSG_ACCT_NEW : Z := 0.
Definition NFNL_MSG_CTHELPER_NEW : Z := 0.
Definition NFNL_MSG_ACCT_GET : Z := 1.
Definition NFNL_MSG_CTHELPER_GET : Z := 1.
Definition NFNL_MSG_ACCT_GET_CTRZERO : Z := 2.
Definition NFNL_MSG_CTHELPER_DEL : Z := 2.
Definition NFNL_MSG_ACCT_DEL : Z := 3.
Definition NFNL_SUBSYS_CTNETLINK : Z := 1.
Definition NFNL_SUBSYS_CTNETLINK_EXP : Z := 2.
Definition NFNL_SUBSYS_QUEUE : Z := 3.
Definition NFNL_SUBSYS_ULOG : Z := 4.
Definition NFNL_SUBSYS_OSF : Z := 5.
Definition NFNL_SUBSYS_IPSET : Z := 6.
Definition NFNL_SUBSYS_ACCT : Z := 7.
Definition NFNL_SUBSYS_CTNETLINK_TIMEOUT : Z := 8.
Definition NFNL_SUBSYS_CTHELPER : Z := 9.
Definition NFNL_SUBSYS_NFTABLES : Z := 10.
Definition NFNL_SUBSYS_NFT_COMPAT : Z := 11.
Definition NFNL_SUBSYS_HOOK : Z := 12.
Definition NFT_MSG_NEWTABLE : Z := 0.
Definition NFT_MSG_GETTABLE : Z := 1.
Definition NFT_MSG_DELTABLE : Z := 2.
Definition NFT_MSG_NEWCHAIN : Z := 3.
Definition NFT_MSG_GETCHAIN : Z := 4.
Definition NFT_MSG_DELCHAIN : Z := 5.
Definition NFT_MSG_NEWRULE : Z := 6.
Definition NFT_MSG_GETRULE : Z := 7.
Definition NFT_MSG_DELRULE : Z := 8.
Definition NFT_MSG_NEWSET : Z := 9.
Definition NFT_MSG_GETSET : Z := 10.
Definition NFT_MSG_DELSET : Z := 11.
Definition NFT_MSG_NEWSETELEM : Z := 12.
Definition NFT_MSG_GETSETELEM : Z := 13.
Definition NFT_MSG_DELSETELEM : Z := 14.
Definition NFT_MSG_NEWGEN : Z := 15.
Definition NFT_MSG_GETGEN : Z := 16.
Definition NFT_MSG_NEWOBJ : Z := 18.
Definition NFT_MSG_GETOBJ : Z := 19.
Definition NFT_MSG_DELOBJ : Z := 20.
Definition NFT_MSG_GETOBJ_RESET : Z := 21.
Definition NFT_MSG_NEWFLOWTABLE : Z := 22.
Definition NFT_MSG_GETFLOWTABLE : Z := 23.
Definition NFT_MSG_DELFLOWTABLE : Z := 24.
Definition NFT_MSG_GETRULE_RESET : Z := 25.
Definition NFT_MSG_DESTROYTABLE : Z := 26.
Definition NFT_MSG_DESTROYCHAIN : Z := 27.
Definition NFT_MSG_DESTROYRULE : Z := 28.
Definition NFT_MSG_DESTROYSET : Z := 29.
Definition NFT_MSG_DESTROYSETELEM : Z := 30.
Definition NFT_MSG_DESTROYOBJ : Z := 31.
Definition NFT_MSG_DESTROYFLOWTABLE : Z := 32.
Definition NFT_MSG_GETSETELEM_RESET : Z := 33.
Definition NLMSGERR_ATTR_MSG : Z := 1.
Definition NLMSGERR_ATTR_OFFS : Z := 2.
Definition NLMSGERR_ATTR_COOKIE : Z := 3.
Definition NLMSG_DONE : Z := 3.
Definition NLMSG_ERROR : Z := 2.
Definition NLMSG_MIN_TYPE : Z := 16.
Definition NLM_F_CAPPED : Z := 256.
Definition RTM_DELACTION : Z := 49.
Definition XFRM_MSG_NEWSA : Z := 16.
Definition XFRM_MSG_DELSA : Z := 17.
Definition XFRM_MSG_GETSA : Z := 18.
Definition XFRM_MSG_NEWPOLICY : Z := 19.
Definition XFRM_MSG_DELPOLICY : Z := 20.
Definition XFRM_MSG_GETPOLICY : Z := 21.
Definition XFRM_MSG_NEWAE : Z := 30.
Definition XFRM_MSG_GETAE : Z := 31.
Definition XFRM_MSG_NEWSADINFO : Z := 34.
Definition XFRM_MSG_GETSADINFO : Z := 35.
Definition XFRM_MSG_NEWSPDINFO : Z := 36.
Definition XFRM_MSG_GETSPDINFO : Z := 37.
Definition NLMSG_HDRLEN : Z := 16.
Definition NLMSG_ALIGN (len : Z) : Z := Z.land (uint 32 (len + 3)) (Z.lnot 3).
Definition NLMSG_ERROR_MAX_NESTING : nat := 8.

Record nlmsghdr := mk_hdr { nlmsg_len : Z; nlmsg_type : Z; nlmsg_flags : Z; nlmsg_seq : Z; nlmsg_pid : Z }.

Definition is_one_of (v : Z) (l : list Z) : bool := existsb (Z.eqb v) l.

(** The value at an index of an array given by its designated initialisers. *)
Fixpoint designated {A} (i : Z) (l : list (Z * A)) : option A :=
  match l with
  | [] => None
  | (k, x) :: l' => if k =? i then Some x else designated i l'
  end.

(** ** The family of a socket *)

(** [STR_STRIP_PREFIX (s, "NETLINK_")]. *)
Definition protocol_name (s : string) : string := default s (strip_prefix "NETLINK_" s).

Definition atoi (s : string) : Z := match strtoll s with Some (v, _, _) => sint 32 v | None => 0 end.

Fixpoint match_protocol (l : list xlat_data) (nl_details : string) : option Z :=
  match l with
  | [] => None
  | x :: l' =>
      match str x with
      | None => match_protocol l' nl_details
      | Some s => match strip_prefix (protocol_name s) nl_details with
                  | Some _ => Some (sint 32 (val x))
                  | None => match_protocol l' nl_details
                  end
      end
  end.

(** [inode] is that of the descriptor, 0 if it is not a socket; [details] is what
    [get_sockaddr_by_inode] says of an inode. *)
Definition get_fd_nl_family (netlink_protocols : xlat) (inode : Z) (details : Z -> option string) : Z :=
  if inode =? 0 then -1
  else match details inode with
       | None => -1
       | Some d =>
           match strip_prefix "NETLINK:[" d with
           | None => -1
           | Some nl_details =>
               match match_protocol (xdata netlink_protocols) nl_details with
               | Some v => v
               | None => match nl_details with
                         | String c _ => if is_digit c then atoi nl_details else -1
                         | EmptyString => -1
                         end
               end
           end
       end.

(** What the kernel says of a netlink socket, and the text that
    [netlink_parse_response] (src/socketutils.c) keeps for its inode: [None] is the
    result -1, [Some None] is 0. *)
Record netlink_diag_msg := mk_diag { ndiag_family : Z; ndiag_protocol : Z; ndiag_ino : Z; ndiag_portid : Z }.
Definition AF_NETLINK : Z := 16.

Definition netlink_parse_response (netlink_protocols : xlat) (msg : netlink_diag_msg) (data_len inode : Z) (proto_name : string)
  : option (option string) :=
  if data_len <? 44 then None
  else if negb (ndiag_ino msg =? inode) then Some None
  else if negb (ndiag_family msg =? AF_NETLINK) then None
  else Some (Some (match xlookup netlink_protocols (ndiag_protocol msg) with
                   | Some p => proto_name +:+ ":[" +:+ protocol_name p +:+ ":" +:+ pretty (ndiag_portid msg) +:+ "]"
                   | None => proto_name +:+ ":[" +:+ pretty (ndiag_protocol msg) +:+ "]"
                   end)).

(** ** Types and flags of messages *)

Class NetlinkTables := {
  netlink_types : xlat; netlink_flags : xlat; netlink_ack_flags : xlat;
  netlink_new_flags : xlat; netlink_delete_flags : xlat; netlink_get_flags : xlat;
  nl_audit_types : xlat; nl_crypto_types : xlat; nl_netfilter_subsys_ids : xlat; nl_netfilter_msg_types : xlat;
  nl_route_types : xlat; nl_selinux_types : xlat; nl_sock_diag_types : xlat; nl_xfrm_types : xlat;
  nf_ctnetlink_msg_types : xlat; nf_ctnetlink_exp_msg_types : xlat; nf_queue_msg_types : xlat;
  nf_ulog_msg_types : xlat; nf_osf_msg_types : xlat; nf_ipset_msg_types : xlat; nf_acct_msg_types : xlat;
  nf_cttimeout_msg_types : xlat; nf_cthelper_msg_types : xlat; nf_tables_msg_types : xlat;
  nf_nft_compat_msg_types : xlat; nf_hook_msg_types : xlat; nlmsgerr_attrs : xlat;
  genl_families_xlat : xlat;                  (* made from the answers of the kernel *)
  errnoent : list (option string) }.

(** The tables of flags that depend on the type. *)
Inductive flag_table := NewFlags | DeleteFlags | GetFlags | AckFlags.

Definition decode_nlmsg_flags_crypto (type : Z) : option flag_table :=
  if is_one_of type [CRYPTO_MSG_NEWALG] then Some NewFlags else
  if is_one_of type [CRYPTO_MSG_DELALG; CRYPTO_MSG_DELRNG] then Some DeleteFlags else
  if is_one_of type [CRYPTO_MSG_GETALG] then Some GetFlags else
  None.

Definition decode_nlmsg_flags_generic (type : Z) : option flag_table := Some GetFlags.

Definition decode_nlmsg_flags_netfilter (type : Z) : option flag_table :=
  let subsys_id := uint 8 (Z.shiftr type 8) in
  let msg_type := uint 8 type in
  if subsys_id =? NFNL_SUBSYS_CTNETLINK then
    if is_one_of msg_type [IPCTNL_MSG_CT_NEW] then Some NewFlags else
    if is_one_of msg_type [IPCTNL_MSG_CT_GET; IPCTNL_MSG_CT_GET_CTRZERO; IPCTNL_MSG_CT_GET_STATS_CPU;
                 IPCTNL_MSG_CT_GET_STATS; IPCTNL_MSG_CT_GET_DYING; IPCTNL_MSG_CT_GET_UNCONFIRMED] then Some GetFlags else
    if is_one_of msg_type [IPCTNL_MSG_CT_DELETE] then Some DeleteFlags else
    None
  else
  if subsys_id =? NFNL_SUBSYS_CTNETLINK_EXP then
    if is_one_of msg_type [IPCTNL_MSG_EXP_NEW] then Some NewFlags else
    if is_one_of msg_type [IPCTNL_MSG_EXP_GET; IPCTNL_MSG_EXP_GET_STATS_CPU] then Some GetFlags else
    if is_one_of msg_type [IPCTNL_MSG_EXP_DELETE] then Some DeleteFlags else
    None
  else
  if subsys_id =? NFNL_SUBSYS_ACCT then
    if is_one_of msg_type [NFNL_MSG_ACCT_NEW] then Some NewFlags else
    if is_one_of msg_type [NFNL_MSG_ACCT_GET; NFNL_MSG_ACCT_GET_CTRZERO] then Some GetFlags else
    if is_one_of msg_type [NFNL_MSG_ACCT_DEL] then Some DeleteFlags else
    None
  else
  if subsys_id =? NFNL_SUBSYS_CTNETLINK_TIMEOUT then
    if is_one_of msg_type [IPCTNL_MSG_TIMEOUT_NEW] then Some NewFlags else
    if is_one_of msg_type [IPCTNL_MSG_TIMEOUT_GET] then Some GetFlags else
    if is_one_of msg_type [IPCTNL_MSG_TIMEOUT_DELETE] then Some DeleteFlags else
    None
  else
  if subsys_id =? NFNL_SUBSYS_CTHELPER then
    if is_one_of msg_type [NFNL_MSG_CTHELPER_NEW] then Some NewFlags else
    if is_one_of msg_type [NFNL_MSG_CTHELPER_GET] then Some GetFlags else
    if is_one_of msg_type [NFNL_MSG_CTHELPER_DEL] then Some DeleteFlags else
    None
  else
  if subsys_id =? NFNL_SUBSYS_NFTABLES then
    if is_one_of msg_type [NFT_MSG_NEWTABLE; NFT_MSG_NEWCHAIN; NFT_MSG_NEWRULE; NFT_MSG_NEWSET; NFT_MSG_NEWSETELEM;
                 NFT_MSG_NEWGEN; NFT_MSG_NEWOBJ; NFT_MSG_NEWFLOWTABLE] then Some NewFlags else
    if is_one_of msg_type [NFT_MSG_GETTABLE; NFT_MSG_GETCHAIN; NFT_MSG_GETRULE; NFT_MSG_GETSET; NFT_MSG_GETSETELEM;
                 NFT_MSG_GETGEN; NFT_MSG_GETOBJ; NFT_MSG_GETOBJ_RESET; NFT_MSG_GETFLOWTABLE;
                 NFT_MSG_GETRULE_RESET; NFT_MSG_GETSETELEM_RESET] then Some GetFlags else
    if is_one_of msg_type [NFT_MSG_DELTABLE; NFT_MSG_DELCHAIN; NFT_MSG_DELRULE; NFT_MSG_DELSET; NFT_MSG_DELSETELEM;
                 NFT_MSG_DELOBJ; NFT_MSG_DELFLOWTABLE; NFT_MSG_DESTROYTABLE; NFT_MSG_DESTROYCHAIN;
                 NFT_MSG_DESTROYRULE; NFT_MSG_DESTROYSET; NFT_MSG_DESTROYSETELEM; NFT_MSG_DESTROYOBJ;
                 NFT_MSG_DESTROYFLOWTABLE] then Some DeleteFlags else
    None
  else
  if subsys_id =? NFNL_SUBSYS_NFT_COMPAT then
    if is_one_of msg_type [NFNL_MSG_COMPAT_GET] then Some GetFlags else
    None
  else
  if subsys_id =? NFNL_SUBSYS_HOOK then
    if is_one_of msg_type [NFNL_MSG_HOOK_GET] then Some GetFlags else
    None
  else
  None.

Definition decode_nlmsg_flags_route (type : Z) : option flag_table :=
  if type =? RTM_DELACTION then Some GetFlags
  else if Z.land type 3 =? 0 then Some NewFlags
  else if Z.land type 3 =? 1 then Some DeleteFlags
  else if Z.land type 3 =? 2 then Some GetFlags else None.

Definition decode_nlmsg_flags_sock_diag (type : Z) : option flag_table := Some GetFlags.

Definition decode_nlmsg_flags_xfrm (type : Z) : option flag_table :=
  if is_one_of type [XFRM_MSG_NEWSA; XFRM_MSG_NEWPOLICY; XFRM_MSG_NEWAE; XFRM_MSG_NEWSADINFO;
               XFRM_MSG_NEWSPDINFO] then Some NewFlags else
  if is_one_of type [XFRM_MSG_DELSA; XFRM_MSG_DELPOLICY] then Some DeleteFlags else
  if is_one_of type [XFRM_MSG_GETSA; XFRM_MSG_GETPOLICY; XFRM_MSG_GETAE; XFRM_MSG_GETSADINFO;
               XFRM_MSG_GETSPDINFO] then Some GetFlags else
  None.

Definition nlmsg_flags_decoders : list (Z * (Z -> option flag_table)) :=
  [(NETLINK_CRYPTO, decode_nlmsg_flags_crypto); (NETLINK_GENERIC, decode_nlmsg_flags_generic);
   (NETLINK_NETFILTER, decode_nlmsg_flags_netfilter); (NETLINK_ROUTE, decode_nlmsg_flags_route);
   (NETLINK_SOCK_DIAG, decode_nlmsg_flags_sock_diag); (NETLINK_XFRM, decode_nlmsg_flags_xfrm)].

Section netlink.
Context {NT : NetlinkTables} {St : Type} {P : Printing St}.
Variables (is_bigendian : bool) (xlat_verbosity max_strlen : Z) (t : tcb).
Abbreviation printxval := (printxval xlat_verbosity).
Abbreviation value := (value is_bigendian).

Definition flag_xlat (f : flag_table) : xlat :=
  match f with
  | NewFlags => netlink_new_flags | DeleteFlags => netlink_delete_flags
  | GetFlags => netlink_get_flags | AckFlags => netlink_ack_flags
  end.

(** [nf_nlmsg_types], an array of 13 elements. *)
Definition nf_nlmsg_types : list (Z * (xlat * string)) :=
  [(NFNL_SUBSYS_CTNETLINK, (nf_ctnetlink_msg_types, "IPCTNL_MSG_CT_???"%string));
   (NFNL_SUBSYS_CTNETLINK_EXP, (nf_ctnetlink_exp_msg_types, "IPCTNL_MSG_EXP_???"%string));
   (NFNL_SUBSYS_QUEUE, (nf_queue_msg_types, "NFQNL_MSG_???"%string));
   (NFNL_SUBSYS_ULOG, (nf_ulog_msg_types, "NFULNL_MSG_???"%string));
   (NFNL_SUBSYS_OSF, (nf_osf_msg_types, "OSF_MSG_???"%string));
   (NFNL_SUBSYS_IPSET, (nf_ipset_msg_types, "IPSET_CMD_???"%string));
   (NFNL_SUBSYS_ACCT, (nf_acct_msg_types, "NFNL_MSG_ACCT_???"%string));
   (NFNL_SUBSYS_CTNETLINK_TIMEOUT, (nf_cttimeout_msg_types, "IPCTNL_MSG_TIMEOUT_???"%string));
   (NFNL_SUBSYS_CTHELPER, (nf_cthelper_msg_types, "NFNL_MSG_CTHELPER_???"%string));
   (NFNL_SUBSYS_NFTABLES, (nf_tables_msg_types, "NFT_MSG_???"%string));
   (NFNL_SUBSYS_NFT_COMPAT, (nf_nft_compat_msg_types, "NFNL_MSG_COMPAT_???"%string));
   (NFNL_SUBSYS_HOOK, (nf_hook_msg_types, "NFT_MSG_HOOK_???"%string))].

(** A decoder of types has the table and the default text as arguments. *)
Definition decode_nlmsg_type_default (x : option xlat) (type : Z) (dflt : option string) : text := printxval x type dflt.

Definition decode_nlmsg_type_generic (x : option xlat) (type : Z) (dflt : option string) : text :=
  printxval (Some genl_families_xlat) type dflt.

Definition decode_nlmsg_type_netfilter (x : option xlat) (type : Z) (dflt : option string) : text :=
  match xlookup nl_netfilter_msg_types type with
  | Some s => codes (print_xlat_ex xlat_verbosity type (Some s) XLAT_STYLE_DEFAULT)
  | None =>
      let subsys_id := uint 8 (Z.shiftr type 8) in
      let msg_type := uint 8 type in
      printxval x subsys_id dflt ++ codes "<<8|" ++
      (if subsys_id <? 13 then
         let e := designated subsys_id nf_nlmsg_types in printxval (fst <$> e) msg_type (snd <$> e)
       else codes (fmt_hex msg_type))
  end.

Definition nlmsg_types : list (Z * (option (option xlat -> Z -> option string -> text) * option xlat * string)) :=
  [(NETLINK_AUDIT, (None, Some nl_audit_types, "AUDIT_???"%string));
   (NETLINK_CRYPTO, (None, Some nl_crypto_types, "CRYPTO_MSG_???"%string));
   (NETLINK_GENERIC, (Some decode_nlmsg_type_generic, None, "GENERIC_FAMILY_???"%string));
   (NETLINK_NETFILTER, (Some decode_nlmsg_type_netfilter, Some nl_netfilter_subsys_ids, "NFNL_SUBSYS_???"%string));
   (NETLINK_ROUTE, (None, Some nl_route_types, "RTM_???"%string));
   (NETLINK_SELINUX, (None, Some nl_selinux_types, "SELNL_MSG_???"%string));
   (NETLINK_SOCK_DIAG, (None, Some nl_sock_diag_types, "SOCK_DIAG_???"%string));
   (NETLINK_XFRM, (None, Some nl_xfrm_types, "XFRM_MSG_???"%string))].

(** A family without an entry, in the array or beyond it, has the defaults. *)
Definition decode_nlmsg_type (type family : Z) : text :=
  match (if NLMSG_MIN_TYPE <=? type then designated (uint 32 family) nlmsg_types else None) with
  | Some (decoder, x, dflt) =>
      default decode_nlmsg_type_default decoder (match x with Some _ => x | None => Some netlink_types end) type (Some dflt)
  | None => decode_nlmsg_type_default (Some netlink_types) type (Some "NLMSG_???"%string)
  end.

Definition nlmsg_flags_table (type family : Z) : option flag_table :=
  if type <? NLMSG_MIN_TYPE then if type =? NLMSG_ERROR then Some AckFlags else None
  else f ← designated (uint 32 family) nlmsg_flags_decoders; f type.

Definition decode_nlmsg_flags (flags type family : Z) : text :=
  codes (fst (printflags_ex xlat_verbosity flags (Some "NLM_F_???"%string) XLAT_STYLE_DEFAULT
    (netlink_flags :: option_list (flag_xlat <$> nlmsg_flags_table type family)))).

(** ** Messages *)

Definition parse_nlmsghdr (b : list Z) : nlmsghdr :=
  mk_hdr (value (take 4 b)) (value (take 2 (drop 4 b))) (value (take 2 (drop 6 b)))
         (value (take 4 (drop 8 b))) (value (drop 12 b)).

(** [printpid (tcp, pid, PT_TGID)]. *)
Variable print_tgid : Z -> St -> text * St.

(** The header, whose sender is printed as [pid]. *)
Definition nlmsghdr_text (family : Z) (h : nlmsghdr) (pid : text) : text :=
  codes ("{nlmsg_len=" +:+ pretty (nlmsg_len h) +:+ ", nlmsg_type=") ++ decode_nlmsg_type (nlmsg_type h) family ++
  codes ", nlmsg_flags=" ++ decode_nlmsg_flags (nlmsg_flags h) (nlmsg_type h) family ++
  codes (", nlmsg_seq=" +:+ pretty (nlmsg_seq h) +:+ ", nlmsg_pid=") ++ pid ++ codes "}".

Definition print_nlmsghdr (family : Z) (h : nlmsghdr) (st : St) : text * St :=
  let '(pid, st) := print_tgid (sint 32 (nlmsg_pid h)) st in (nlmsghdr_text family h pid, st).

Definition print_cookie (elem : list Z) (st : St) : text * bool * St := (codes (pretty (value elem)), true, st).

Definition decode_nlmsgerr_attr_cookie (addr len : Z) (op : opaque unit) (st : St) : option (text * bool * St) :=
  let '(s, _, st) := print_array_ex (Some (fun cur st => p_fetch cur 1 st)) (fun _ => []) print_cookie
                       xlat_verbosity max_strlen t 1 0 None None addr len st in
  Some (s, true, st).

Definition nlmsgerr_nla_decoders : list (option (@nla_decoder St unit)) :=
  [None; Some decode_nla_str; Some (decode_nla_u32 is_bigendian); Some decode_nlmsgerr_attr_cookie].

(** [print_err (err, true)] (src/syscall.c). *)
Definition err_name (err : Z) : option string :=
  if uint 64 err <? lenZ errnoent then nth (Z.to_nat (uint 64 err)) errnoent None else None.

Definition print_err_negated (err : Z) : text :=
  let str := err_name (- err) in
  let style := xlat_verbose xlat_verbosity in
  let number := match str with
                | Some _ => if style =? XLAT_STYLE_ABBREV then EmptyString else pretty err
                | None => pretty err
                end in
  match str with
  | None => codes number
  | Some s => if style =? XLAT_STYLE_RAW then codes number
              else codes (number +:+ (if style =? XLAT_STYLE_ABBREV then "-" +:+ s else " /* -" +:+ s +:+ " */"))
  end.

(** The decoding of a message inside another one. *)
Abbreviation msg_decoder := (nlmsghdr -> Z -> Z -> St -> option (text * St)).

Definition decode_nlmsgerr (with_payload : msg_decoder) (capped : bool) (addr len : Z) (st : St) : option (text * St) :=
  if len <? 20 then Some (p_printstr addr len QUOTE_FORCE_HEX st)
  else
    match p_fetch addr 20 st with
    | (None, st) => Some (printaddr64 addr, st)
    | (Some err, st) =>
        let msg := parse_nlmsghdr (drop 4 err) in
        let addr := uint 64 (addr + 4) in
        let len := len - 4 in
        let nlmsg_len := Z.max 16 (nlmsg_len msg) in
        let payload := Z.min len (if capped then 16 else nlmsg_len) in
        '(text, st) ← with_payload msg addr payload st;
        let s := codes "{error=" ++ print_err_negated (sint 32 (value (take 4 err))) ++ codes ", msg=" ++ text ++ codes "}" in
        if payload <? len then
          '(attrs, st) ← decode_nlattr is_bigendian xlat_verbosity max_strlen t (uint 64 (addr + payload)) (len - payload)
                           (Some nlmsgerr_attrs) (Some "NLMSGERR_ATTR_???"%string) (Some nlmsgerr_nla_decoders) 4 (OInt 0) st;
          Some (codes "[" ++ s ++ codes ", " ++ attrs ++ codes "]", st)
        else Some (s, st)
    end.

(** The decoders of the payloads of the families: text, whether the payload was
    decoded, state. *)
Definition netlink_decoder : Type := nlmsghdr -> Z -> Z -> St -> option (text * bool * St).
Variables decode_netlink_crypto decode_netlink_generic decode_netlink_netfilter decode_netlink_route
          decode_netlink_selinux decode_netlink_sock_diag : netlink_decoder.

Definition netlink_decoders : list (Z * netlink_decoder) :=
  [(NETLINK_CRYPTO, decode_netlink_crypto); (NETLINK_GENERIC, decode_netlink_generic);
   (NETLINK_NETFILTER, decode_netlink_netfilter); (NETLINK_ROUTE, decode_netlink_route);
   (NETLINK_SELINUX, decode_netlink_selinux); (NETLINK_SOCK_DIAG, decode_netlink_sock_diag)].

Variable family : Z.

Definition family_decoder (type : Z) : option netlink_decoder :=
  if (NLMSG_MIN_TYPE <=? type) || (type =? NLMSG_DONE) then designated (uint 32 family) netlink_decoders else None.

(** [nlmsgerr] decodes an error, or is the mark printed at the maximal nesting. *)
Definition decode_payload (nlmsgerr : bool -> Z -> Z -> St -> option (text * St)) (h : nlmsghdr) (addr len : Z) (st : St)
  : option (text * St) :=
  if nlmsg_type h =? NLMSG_ERROR then nlmsgerr (has (nlmsg_flags h) NLM_F_CAPPED) addr len st
  else
    '(s, ok, st) ← match family_decoder (nlmsg_type h) with
                   | Some d => d h addr len st
                   | None => Some ([], false, st)
                   end;
    if ok : bool then Some (s, st)
    else if (nlmsg_type h =? NLMSG_DONE) && (len =? 4) then
      match p_fetch addr 4 st with
      | (Some b, st) => Some (s ++ codes (pretty (sint 32 (value b))), st)
      | (None, st) => Some (s ++ printaddr64 addr, st)
      end
    else let '(s', st) := p_printstr addr len QUOTE_FORCE_HEX st in Some (s ++ s', st).

(** [nesting] is how many more errors may be nested, [NLMSG_ERROR_MAX_NESTING]
    less [error_nesting]. *)
Fixpoint decode_nlmsghdr_with_payload (nesting : nat) (h : nlmsghdr) (addr len : Z) (st : St) : option (text * St) :=
  let nlmsg_len := Z.min (nlmsg_len h) len in
  let '(header, st) := print_nlmsghdr family h st in
  if NLMSG_HDRLEN <? nlmsg_len then
    let nlmsgerr := match nesting with
                    | O => fun _ _ _ st => Some (more_data_follows, st)
                    | S n => decode_nlmsgerr (decode_nlmsghdr_with_payload n)
                    end in
    '(payload, st) ← decode_payload nlmsgerr h (uint 64 (addr + NLMSG_HDRLEN)) (nlmsg_len - NLMSG_HDRLEN) st;
    Some (codes "[" ++ header ++ codes ", " ++ payload ++ codes "]", st)
  else Some (header, st).

Definition decode_messages (addr len : Z) (st : St) : option (text * St) :=
  decode_seq 16 NLMSG_HDRLEN parse_nlmsghdr nlmsg_len (fun h => NLMSG_ALIGN (nlmsg_len h))
    (sequence_truncation_needed max_strlen t)
    (decode_nlmsghdr_with_payload NLMSG_ERROR_MAX_NESTING) addr len st.

End netlink.

(** [kobject_uevent] decodes the events of udev. *)
Definition decode_netlink {NT : NetlinkTables} {St} {P : Printing St} (is_bigendian : bool) (xlat_verbosity max_strlen : Z) (t : tcb)
    (print_tgid : Z -> St -> text * St) (crypto generic netfilter route selinux sock_diag : netlink_decoder)
    (kobject_uevent : Z -> Z -> St -> text * St)
    (netlink_protocols : xlat) (inode : Z) (details : Z -> option string) (addr len : Z) (st : St) : option (text * St) :=
  let family := get_fd_nl_family netlink_protocols inode details in
  if family =? NETLINK_KOBJECT_UEVENT then Some (kobject_uevent addr len st)
  else decode_messages is_bigendian xlat_verbosity max_strlen t print_tgid crypto generic netfilter route selinux sock_diag
         family addr len st.

(** ** What is shown of messages *)

Section messages.
Context {NT : NetlinkTables} {St : Type} {P : Printing St}.
Variables (is_bigendian : bool) (xlat_verbosity max_strlen : Z) (t : tcb).
Variables (print_tgid : Z -> St -> text * St)
          (crypto generic netfilter route selinux sock_diag : @netlink_decoder St) (family : Z).
(** The buffer is from [lo] to [hi]; there the memory has the bytes [mem], which
    print in hexadecimal as [hex] says; the sender is printed as [pid_text] says,
    and the decoder of the family prints and returns what [fam] says. *)
Variables (Inv : St -> Prop) (lo hi : Z) (mem : Z -> Z -> option (list Z)) (hex : Z -> Z -> text -> Prop)
          (pid_text : Z -> text -> Prop) (fam : nlmsghdr -> Z -> Z -> text -> bool -> Prop).
Abbreviation value := (value is_bigendian).
Abbreviation parse := (parse_nlmsghdr is_bigendian).
Abbreviation decoder := (family_decoder crypto generic netfilter route selinux sock_diag family).

Hypothesis max_strlen_ok : 0 <= max_strlen.
Hypothesis range : 0 < lo /\ hi <= 2 ^ 64 /\ hi - lo < 2 ^ 32.
Hypothesis fetch_ok : forall a n st, lo <= a -> 0 <= n < 2 ^ 31 -> a + n <= hi -> Inv st ->
  exists st', p_fetch a n st = (mem a n, st') /\ Inv st'.
Hypothesis hex_ok : forall a n st, lo <= a -> 0 <= n -> a + n <= hi -> Inv st ->
  exists s st', p_printstr a n QUOTE_FORCE_HEX st = (s, st') /\ hex a n s /\ Inv st'.
Hypothesis str_ok : forall a n style st, lo <= a -> 0 <= n -> a + n <= hi -> Inv st ->
  exists s st', p_printstr a n style st = (s, st') /\ Inv st'.
Hypothesis pid_ok : forall pid st, Inv st -> exists s st', print_tgid pid st = (s, st') /\ pid_text pid s /\ Inv st'.
Hypothesis fam_ok : forall h d a n st, decoder (nlmsg_type h) = Some d -> lo <= a -> 0 < n -> a + n <= hi -> Inv st ->
  exists s ok st', d h a n st = Some (s, ok, st') /\ fam h a n s ok /\ Inv st'.

(** The number at an address, or the address. *)
Definition number_text (show : list Z -> text) (a n : Z) : text :=
  match mem a n with Some b => show b | None => printaddr64 a end.

(** The decoders of the attributes of an error: which they decode, and what the
    offset is printed as. *)
Definition err_attr (i : nat) (a n : Z) (op : opaque unit) (s : text) (ok : bool) : Prop :=
  if (i =? 2)%nat then
    if n <? 4 then ok = false /\ s = [] else ok = true /\ s = number_text (fun b => codes (pretty (value b))) a 4
  else ok = true.

Definition shows_err_attrs (a n : Z) (s : text) : Prop :=
  exists texts, s = bracketed texts /\
    all_shown hex (shows_attr xlat_verbosity (Some nlmsgerr_attrs) (Some "NLMSGERR_ATTR_???"%string)
                     (Some (nlmsgerr_nla_decoders is_bigendian xlat_verbosity max_strlen t)) 4 (OInt 0) hex err_attr)
      (walk 4 NLA_HDRLEN (parse_nlattr is_bigendian) nla_len (fun nla => NLA_ALIGN (nla_len nla))
         (sequence_truncation_needed max_strlen t) (fun a => mem a 4) (seq_fuel n) a n 0) texts.

(** The length of the message inside an error of [n] bytes after the error code. *)
Definition err_payload (capped : bool) (msg : nlmsghdr) (n : Z) : Z :=
  Z.min n (if capped then 16 else Z.max 16 (nlmsg_len msg)).

Definition shows_err (shows_msg : nlmsghdr -> Z -> Z -> text -> Prop) (capped : bool) (a n : Z) (s : text) : Prop :=
  if n <? 20 then hex a n s
  else match mem a 20 with
       | None => s = printaddr64 a
       | Some err =>
           let msg := parse (drop 4 err) in
           let payload := err_payload capped msg (n - 4) in
           exists m, shows_msg msg (a + 4) payload m /\
             let e := codes "{error=" ++ print_err_negated xlat_verbosity (sint 32 (value (take 4 err))) ++ codes ", msg=" ++ m ++ codes "}" in
             if payload <? n - 4
             then exists attrs, shows_err_attrs (a + 4 + payload) (n - 4 - payload) attrs /\
                    s = codes "[" ++ e ++ codes ", " ++ attrs ++ codes "]"
             else s = e
       end.

Definition shows_payload (shows_error : bool -> Z -> Z -> text -> Prop) (h : nlmsghdr) (a n : Z) (s : text) : Prop :=
  if nlmsg_type h =? NLMSG_ERROR then shows_error (has (nlmsg_flags h) NLM_F_CAPPED) a n s
  else exists s1 ok, match decoder (nlmsg_type h) with Some _ => fam h a n s1 ok | None => s1 = [] /\ ok = false end /\
    if ok : bool then s = s1
    else exists s2, s = s1 ++ s2 /\
      if (nlmsg_type h =? NLMSG_DONE) && (n =? 4) then s2 = number_text (fun b => codes (pretty (sint 32 (value b)))) a 4
      else hex a n s2.

Fixpoint shows_msg (nesting : nat) (h : nlmsghdr) (a l : Z) (s : text) : Prop :=
  exists pid, pid_text (sint 32 (nlmsg_pid h)) pid /\
    let header := nlmsghdr_text xlat_verbosity family h pid in
    let n := Z.min (nlmsg_len h) l in
    if 16 <? n then
      exists data, s = codes "[" ++ header ++ codes ", " ++ data ++ codes "]" /\
        shows_payload (match nesting with
                       | O => fun _ _ _ s => s = more_data_follows
                       | S k => shows_err (shows_msg k)
                       end) h (a + 16) (n - 16) data
    else s = header.

Lemma cookie_ok a n op st : lo <= a -> 0 < n -> a + n <= hi -> Inv st ->
  exists s st', decode_nlmsgerr_attr_cookie is_bigendian xlat_verbosity max_strlen t a n op st = Some (s, true, st') /\ Inv st'.
Proof.
  intros Ha Hn Hh Hst. unfold decode_nlmsgerr_attr_cookie. destruct range as (Hl0 & Hh64 & H32).
  destruct (print_array_ex_spec (Some (fun cur st => p_fetch cur 1 st)) (fun _ => []) (print_cookie is_bigendian)
    xlat_verbosity max_strlen t 1 0 None None Inv (fun cur => mem cur 1) (fun e => codes (pretty (value e))) (fun _ => true) lo hi)
    with (start := a) (nmemb := n) (st := st) as (text & ok & st' & -> & H' & _); try done; try lia.
  - intros cur st' Hc H'. cbn [get_elem]. apply fetch_ok; lia || done.
  - intros e st' H'. by exists st'.
  - by exists text, st'.
Qed.

Lemma err_attr_ok ds i d a n op st :
  Some (nlmsgerr_nla_decoders is_bigendian xlat_verbosity max_strlen t) = Some ds -> nth i ds None = Some d ->
  lo <= a -> 0 < n -> a + n <= hi -> Inv st ->
  exists s ok st', d a n op st = Some (s, ok, st') /\ err_attr i a n op s ok /\ Inv st'.
Proof.
  intros [= <-] Hi Ha Hn Hh Hst. destruct i as [|[|[|[|i]]]]; cbn in Hi; try done; [| | |by destruct i]; injection Hi as <-;
    unfold err_attr; cbn [Nat.eqb].
  - unfold decode_nla_str. destruct (str_ok a n (Z.lor QUOTE_OMIT_TRAILING_0 QUOTE_EXPECT_TRAILING_0) st) as (s & st' & -> & H'); [lia|lia|lia|done|].
    by exists s, true, st'.
  - unfold decode_nla_u32, DECODE_NLA_INTEGER, with_obj, number_text. destruct (Z.ltb_spec n 4); [by exists [], false, st|].
    destruct (fetch_ok a 4 st) as (st' & -> & H'); [lia|lia|lia|done|]. destruct (mem a 4); by eexists _, true, st'.
  - destruct (cookie_ok a n op st) as (s & st' & -> & H'); [done|done|done|done|]. by exists s, true, st'.
Qed.

(** The decoding of messages that [show] describes. *)
Definition decodes (dec : nlmsghdr -> Z -> Z -> St -> option (text * St)) (show : nlmsghdr -> Z -> Z -> text -> Prop) : Prop :=
  forall h a l st, lo <= a -> 16 <= l -> a + l <= hi -> Inv st ->
    exists s st', dec h a l st = Some (s, st') /\ show h a l s /\ Inv st'.

Lemma nlmsgerr_ok dec show capped a n st : decodes dec show -> lo <= a -> 0 < n -> a + n <= hi -> Inv st ->
  exists s st', decode_nlmsgerr is_bigendian xlat_verbosity max_strlen t dec capped a n st = Some (s, st') /\
    shows_err show capped a n s /\ Inv st'.
Proof.
  intros Hdec Ha Hn Hh Hst. destruct range as (Hl0 & Hh64 & H32). unfold decode_nlmsgerr, shows_err, err_payload.
  destruct (Z.ltb_spec n 20).
  { destruct (hex_ok a n st) as (s & st' & -> & Hx & H'); [lia|lia|lia|done|]. by exists s, st'. }
  destruct (fetch_ok a 20 st) as (st1 & -> & H1); [lia|lia|lia|done|]. destruct (mem a 20) as [err|]; [|by eexists _, st1].
  set (msg := parse (drop 4 err)). set (payload := Z.min (n - 4) _).
  rewrite (uint_small 64 (a + 4)) by (unfold in_uint; lia).
  assert (Hp : 16 <= payload) by (unfold payload; destruct capped; lia).
  destruct (Hdec msg (a + 4) payload st1) as (m & st2 & -> & Hm & H2); [lia|lia|lia|done|]. cbn [mbind option_bind].
  destruct (Z.ltb_spec payload (n - 4)) as [Hlt|]; [|by eexists _, st2; split; [done|]; split; [exists m|]].
  rewrite (uint_small 64 (a + 4 + payload)) by (unfold in_uint; lia).
  destruct (decode_nlattr_spec is_bigendian xlat_verbosity max_strlen t (Some nlmsgerr_attrs) (Some "NLMSGERR_ATTR_???"%string)
    (Some (nlmsgerr_nla_decoders is_bigendian xlat_verbosity max_strlen t)) 4 (OInt 0) Inv lo hi (fun a => mem a 4) hex err_attr)
    with (addr := a + 4 + payload) (len := n - 4 - payload) (st := st2) as (texts & st3 & H3 & -> & Hs); try done; try lia.
  { intros a' st' Ha' Hh' H'. by apply fetch_ok. }
  { apply err_attr_ok. }
  eexists _, st3. cbn [mbind option_bind]. split; [done|]. split; [|done]. exists m. split; [done|].
  eexists. split; [|done]. by exists texts.
Qed.

Lemma payload_ok err shows_error h a n st :
  (forall capped a n st, lo <= a -> 0 < n -> a + n <= hi -> Inv st ->
     exists s st', err capped a n st = Some (s, st') /\ shows_error capped a n s /\ Inv st') ->
  lo <= a -> 0 < n -> a + n <= hi -> Inv st ->
  exists s st', decode_payload is_bigendian crypto generic netfilter route selinux sock_diag family err h a n st = Some (s, st') /\
    shows_payload shows_error h a n s /\ Inv st'.
Proof.
  intros Herr Ha Hn Hh Hst. unfold decode_payload, shows_payload, number_text.
  destruct (nlmsg_type h =? NLMSG_ERROR); [by apply Herr|].
  assert (Hd : exists s1 ok st1, match decoder (nlmsg_type h) with Some d => d h a n st | None => Some ([], false, st) end
      = Some (s1, ok, st1) /\ match decoder (nlmsg_type h) with Some _ => fam h a n s1 ok | None => s1 = [] /\ ok = false end /\ Inv st1).
  { destruct (decoder (nlmsg_type h)) as [d|] eqn:Ed; [|by exists [], false, st].
    by apply fam_ok. }
  destruct Hd as (s1 & ok & st1 & -> & Hs1 & H1). cbn [mbind option_bind].
  destruct ok; [exists s1, st1; split; [done|]; split; [by exists s1, true|done]|].
  destruct (_ && (n =? 4)) eqn:Ec.
  - apply andb_true_iff in Ec as [_ En%Z.eqb_eq].
    destruct (fetch_ok a 4 st1) as (st2 & -> & H2); [lia|lia|lia|done|].
    destruct (mem a 4); eexists _, st2; (split; [done|]); (split; [|done]); exists s1, false; eauto.
  - destruct (hex_ok a n st1) as (s2 & st2 & -> & Hx & H2); [lia|lia|lia|done|].
    eexists _, st2. split; [done|]. split; [|done]. exists s1, false. eauto.
Qed.

Lemma with_payload_ok nesting :
  decodes (decode_nlmsghdr_with_payload is_bigendian xlat_verbosity max_strlen t print_tgid crypto generic netfilter route selinux
             sock_diag family nesting) (shows_msg nesting).
Proof.
  induction nesting as [|k IH]; intros h a l st Ha Hl Hh Hst; cbn [decode_nlmsghdr_with_payload shows_msg];
    destruct range as (Hl0 & Hh64 & H32); unfold print_nlmsghdr, NLMSG_HDRLEN;
    destruct (pid_ok (sint 32 (nlmsg_pid h)) st Hst) as (pid & st1 & -> & Hpid & H1);
    (destruct (Z.ltb_spec 16 (Z.min (nlmsg_len h) l));
      [|eexists _, st1; split; [done|]; split; [exists pid; by split|done]]);
    rewrite uint_small by (unfold in_uint; lia).
  - edestruct (payload_ok (fun _ _ _ st => Some (more_data_follows, st)) (fun _ _ _ s => s = more_data_follows) h (a + 16))
      as (s & st2 & -> & Hs & H2); [..|exact H1|]; [by intros; eexists _, _|lia|lia|lia|].
    eexists _, st2. split; [done|]. split; [|done]. exists pid. split; [done|]. by exists s.
  - edestruct (payload_ok (decode_nlmsgerr is_bigendian xlat_verbosity max_strlen t
        (decode_nlmsghdr_with_payload is_bigendian xlat_verbosity max_strlen t print_tgid crypto generic netfilter route selinux
           sock_diag family k)) (shows_err (shows_msg k)) h (a + 16))
      as (s & st2 & -> & Hs & H2); [..|exact H1|]; [by intros; apply nlmsgerr_ok|lia|lia|lia|].
    eexists _, st2. split; [done|]. split; [|done]. exists pid. split; [done|]. by exists s.
Qed.

Abbreviation msg_walk addr len := (walk 16 NLMSG_HDRLEN parse nlmsg_len (fun h => NLMSG_ALIGN (nlmsg_len h))
  (sequence_truncation_needed max_strlen t) (fun a => mem a 16) (seq_fuel len) addr len 0).

Lemma decode_messages_spec addr len st : lo <= addr -> 0 <= len -> addr + len <= hi -> addr < 2 ^ 64 -> Inv st ->
  exists texts st', Inv st' /\
    decode_messages is_bigendian xlat_verbosity max_strlen t print_tgid crypto generic netfilter route selinux sock_diag family
      addr len st = Some (bracketed texts, st') /\
    all_shown hex (shows_msg NLMSG_ERROR_MAX_NESTING) (msg_walk addr len) texts.
Proof.
  intros Ha Hl Hh H64 Hst. destruct range as (Hl0 & Hh64 & H32). unfold decode_messages.
  apply (decode_seq_spec 16 NLMSG_HDRLEN _ nlmsg_len _ _ _ (fun a => mem a 16) hex _ Inv lo hi); try done; try lia.
  - intros a st' Ha' Hh' H'. apply fetch_ok; done || lia.
  - intros a n st' H1 H2 H3 H4. apply hex_ok; done || lia.
  - apply with_payload_ok.
  - intros h. apply NLA_ALIGN_range.
Qed.

End messages.

(** ** The family from what is kept for a socket *)

(** src/xlat/netlink_protocols.in; 17 is not used. *)
Definition netlink_protocols : xlat :=
  mk_xlat [mk_xd 0 (Some "NETLINK_ROUTE"%string); mk_xd 1 (Some "NETLINK_UNUSED"%string); mk_xd 2 (Some
   "NETLINK_USERSOCK"%string); mk_xd 3 (Some "NETLINK_FIREWALL"%string); mk_xd 4 (Some
   "NETLINK_SOCK_DIAG"%string); mk_xd 5 (Some "NETLINK_NFLOG"%string); mk_xd 6 (Some "NETLINK_XFRM"%string);
   mk_xd 7 (Some "NETLINK_SELINUX"%string); mk_xd 8 (Some "NETLINK_ISCSI"%string); mk_xd 9 (Some
   "NETLINK_AUDIT"%string); mk_xd 10 (Some "NETLINK_FIB_LOOKUP"%string); mk_xd 11 (Some
   "NETLINK_CONNECTOR"%string); mk_xd 12 (Some "NETLINK_NETFILTER"%string); mk_xd 13 (Some
   "NETLINK_IP6_FW"%string); mk_xd 14 (Some "NETLINK_DNRTMSG"%string); mk_xd 15 (Some
   "NETLINK_KOBJECT_UEVENT"%string); mk_xd 16 (Some "NETLINK_GENERIC"%string); xd0; mk_xd 18 (Some
   "NETLINK_SCSITRANSPORT"%string); mk_xd 19 (Some "NETLINK_ECRYPTFS"%string); mk_xd 20 (Some
   "NETLINK_RDMA"%string); mk_xd 21 (Some "NETLINK_CRYPTO"%string); mk_xd 22 (Some "NETLINK_SMC"%string)] XT_INDEXED.

(** The names do not start with digits. *)
Definition named (x : xlat_data) : bool :=
  match str x with
  | None => true
  | Some s => match protocol_name s with String c _ => negb (is_digit c) | EmptyString => false end
  end.

Lemma match_protocol_digit l c s : forallb named l = true -> is_digit c = true -> match_protocol l (String c s) = None.
Proof.
  intros Hl Hc. induction l as [|x l IH]; [done|]. cbn [forallb] in Hl. apply andb_true_iff in Hl as [Hx Hl].
  cbn [match_protocol]. unfold named in Hx. destruct (str x) as [n|]; [|by apply IH].
  destruct (protocol_name n) as [|a n']; [done|]. cbn [strip_prefix]. destruct (Ascii.eqb_spec a c) as [->|]; [|by apply IH].
  by rewrite Hc in Hx.
Qed.

(** The text that [netlink_parse_response] keeps for a netlink socket is read
    back by [get_fd_nl_family] as the protocol of the socket, for the protocols
    that have a name and for those that are kept as a number. *)
Theorem netlink_family_roundtrip (msg : netlink_diag_msg) (data_len : Z) :
  ndiag_family msg = AF_NETLINK -> 0 <= ndiag_protocol msg < 256 -> ndiag_ino msg <> 0 -> 44 <= data_len ->
  exists d, netlink_parse_response netlink_protocols msg data_len (ndiag_ino msg) "NETLINK" = Some (Some d) /\
    forall details, details (ndiag_ino msg) = Some d ->
      get_fd_nl_family netlink_protocols (ndiag_ino msg) details = ndiag_protocol msg.
Proof.
  intros Hf Hp Hi Hl. unfold netlink_parse_response.
  rewrite (proj2 (Z.ltb_ge _ _) Hl), Z.eqb_refl, Hf. cbn [negb Z.eqb].
  change (AF_NETLINK =? AF_NETLINK) with true. cbn [negb].
  eexists. split; [done|]. intros details Hd. unfold get_fd_nl_family. rewrite (proj2 (Z.eqb_neq _ _) Hi), Hd. clear Hd.
  destruct msg as [fam p ino port]. cbn [ndiag_family ndiag_protocol ndiag_ino ndiag_portid] in *.
  destruct (xlookup netlink_protocols p) as [s|] eqn:Ex.
  - assert (Hs : p < 23).
    { destruct (Z_lt_ge_dec p 23); [done|]. unfold xlookup in Ex. cbn [xtype netlink_protocols] in Ex.
      change (xsize netlink_protocols) with 23 in Ex. by rewrite (proj2 (Z.ltb_ge p 23)) in Ex by lia. }
    set (port_text := pretty port). clearbody port_text.
    assert (Hcase : forall k, 0 <= k < 23 -> exists j, (j < 23)%nat /\ k = Z.of_nat j) by (intros k ?; exists (Z.to_nat k); lia).
    destruct (Hcase p ltac:(lia)) as (j & Hj & ->). clear -Ex Hj.
    do 23 (destruct j as [|j]; [first [discriminate Ex|injection Ex as <-; reflexivity]|]). lia.
  - change ("NETLINK" +:+ ":[" +:+ pretty p +:+ "]") with ("NETLINK:[" +:+ (pretty p +:+ "]")).
    rewrite strip_prefix_app. destruct (pretty_digits p "]" ltac:(lia)) as [_ (c & s & E & Hc)].
    rewrite E, match_protocol_digit by done. rewrite Hc. unfold atoi. rewrite <- E, strtoll_pretty by (done || unfold LLONG_MAX; lia).
    apply sint_small; lia.
Qed.

(** ** Encoding of messages *)

(** A message: type, flags, sequence number, sender, payload. *)
Record msg := mk_msg { m_type : Z; m_flags : Z; m_seq : Z; m_pid : Z; m_payload : list Z }.
Definition msg_len (x : msg) : Z := 16 + lenZ (m_payload x).
Definition msg_hdr (x : msg) : nlmsghdr := mk_hdr (msg_len x) (m_type x) (m_flags x) (m_seq x) (m_pid x).
Definition msg_pad (x : msg) : nat := Z.to_nat (NLMSG_ALIGN (msg_len x) - msg_len x).

Record msg_ok (x : msg) : Prop := {
  ok_type : 0 <= m_type x < 2 ^ 16; ok_flags : 0 <= m_flags x < 2 ^ 16;
  ok_seq : 0 <= m_seq x < 2 ^ 32; ok_pid : 0 <= m_pid x < 2 ^ 32; ok_len : msg_len x < 2 ^ 32 - 3 }.

Definition encode_hdr (be : bool) (x : msg) : list Z :=
  word_bytes be 4 (msg_len x) ++ word_bytes be 2 (m_type x) ++ word_bytes be 2 (m_flags x) ++
  word_bytes be 4 (m_seq x) ++ word_bytes be 4 (m_pid x).
Definition encode_msg (be : bool) (x : msg) : list Z := encode_hdr be x ++ m_payload x ++ replicate (msg_pad x) 0.
Definition encode_msgs (be : bool) (l : list msg) : list Z := encode_all (encode_msg be) l.

Lemma encode_hdr_length be x : length (encode_hdr be x) = 16%nat.
Proof. unfold encode_hdr. by rewrite !length_app, !word_bytes_length. Qed.

Lemma msg_len_align x : msg_ok x -> 16 <= msg_len x /\ msg_len x <= NLMSG_ALIGN (msg_len x) <= msg_len x + 3.
Proof.
  intros Hx. pose proof (ok_len x Hx). assert (16 <= msg_len x) by (unfold msg_len; len_facts; lia).
  pose proof (NLA_ALIGN_spec (msg_len x) ltac:(lia)). unfold NLMSG_ALIGN. unfold NLA_ALIGN in *. lia.
Qed.

Lemma encode_msg_length be x : msg_ok x -> lenZ (encode_msg be x) = NLMSG_ALIGN (msg_len x).
Proof.
  intros Hx. pose proof (msg_len_align x Hx). unfold encode_msg, msg_pad, msg_len in *. unfold lenZ in *.
  rewrite !length_app, encode_hdr_length, length_replicate. lia.
Qed.

Lemma take_word be n v l : take n (word_bytes be n v ++ l) = word_bytes be n v.
Proof. apply take_app_length'. by rewrite word_bytes_length. Qed.
Lemma drop_word be n v l k : drop (n + k) (word_bytes be n v ++ l) = drop k l.
Proof.
  replace (n + k)%nat with (length (word_bytes be n v) + k)%nat by (by rewrite word_bytes_length). apply drop_app_add.
Qed.

Lemma parse_encode_hdr be x : msg_ok x -> parse_nlmsghdr be (encode_hdr be x) = msg_hdr x.
Proof.
  intros Hx. pose proof (msg_len_align x Hx). destruct Hx as [H1 H2 H3 H4 H5]. unfold parse_nlmsghdr, encode_hdr, value.
  assert (E4 : forall l, drop 4 (word_bytes be 4 (msg_len x) ++ l) = l) by (intros l; apply (drop_word be 4 _ l 0)).
  assert (E6 : forall l, drop 6 (word_bytes be 4 (msg_len x) ++ word_bytes be 2 (m_type x) ++ l) = l)
    by (intros l; etrans; [apply (drop_word be 4 _ _ 2)|apply (drop_word be 2 _ _ 0)]).
  assert (E8 : forall l, drop 8 (word_bytes be 4 (msg_len x) ++ word_bytes be 2 (m_type x) ++ word_bytes be 2 (m_flags x) ++ l) = l)
    by (intros l; etrans; [apply (drop_word be 4 _ _ 4)|etrans; [apply (drop_word be 2 _ _ 2)|apply (drop_word be 2 _ _ 0)]]).
  assert (E12 : forall l, drop 12 (word_bytes be 4 (msg_len x) ++ word_bytes be 2 (m_type x) ++ word_bytes be 2 (m_flags x) ++
      word_bytes be 4 (m_seq x) ++ l) = l)
    by (intros l; etrans; [apply (drop_word be 4 _ _ 8)|etrans; [apply (drop_word be 2 _ _ 6)|etrans;
      [apply (drop_word be 2 _ _ 4)|apply (drop_word be 4 _ _ 0)]]]).
  rewrite E4, E6, E8, E12, !take_word.
  rewrite !word_value_bytes; [done|..]; change (256 ^ Z.of_nat 4) with (2 ^ 32); change (256 ^ Z.of_nat 2) with (2 ^ 16); lia.
Qed.

Lemma msg_encoded be x : msg_ok x ->
  encoded_ok 16 NLMSG_HDRLEN (parse_nlmsghdr be) nlmsg_len (fun h => NLMSG_ALIGN (nlmsg_len h)) (encode_msg be) msg_hdr x.
Proof.
  intros Hx. pose proof (msg_len_align x Hx). split; cbn; [|by apply encode_msg_length|unfold NLMSG_HDRLEN; lia|lia].
  intros rest. unfold encode_msg. rewrite <- !app_assoc. change (Z.to_nat 16) with 16%nat.
  rewrite take_app_length' by (by rewrite encode_hdr_length). by apply parse_encode_hdr.
Qed.

(** ** In the memory of a tracee *)

Section tracee.
Context {NT : NetlinkTables} {TM : TraceeMemory}.
Variable page_bits : Z.
Hypothesis page_bits_ok : 3 <= page_bits < 32.
Context {ML : MemoryLaws TM (2 ^ page_bits)}.
Variables (narrow : bool) (xflag max_strlen : Z) (fresh : Z -> list Z) (t : tcb) (m : mstate).
Hypothesis max_strlen_ok : 0 <= max_strlen /\ 4 * max_strlen < 2 ^ 32.
Hypothesis fresh_length : forall n, 0 <= n -> lenZ (fresh n) = n.
#[local] Instance printing : Printing world := tracee_printing page_bits narrow xflag max_strlen fresh t m.
Abbreviation ok := (world_ok page_bits max_strlen m).
Abbreviation hex := (hex_text page_bits max_strlen m).
Abbreviation mem := (seen page_bits t m).

Variables (is_bigendian : bool) (xlat_verbosity : Z).
Variables (print_tgid : Z -> world -> text * world)
          (crypto generic netfilter route selinux sock_diag : @netlink_decoder world)
          (kobject_uevent : Z -> Z -> world -> text * world).
Variables (pid_text : Z -> text -> Prop) (fam : nlmsghdr -> Z -> Z -> text -> bool -> Prop) (uevent : text -> Prop).
Variables (protocols : xlat) (inode : Z) (details : Z -> option string) (addr len : Z) (st : world).
Abbreviation family := (get_fd_nl_family protocols inode details).
Abbreviation decoder := (family_decoder crypto generic netfilter route selinux sock_diag family).

Hypothesis buffer : buffer_ok page_bits narrow max_strlen addr (addr + len).
Hypothesis len_ok : 0 <= len < 2 ^ 32.
Hypothesis st_ok : ok st.
Hypothesis pid_ok : forall pid st, ok st -> exists s st', print_tgid pid st = (s, st') /\ pid_text pid s /\ ok st'.
(** The decoder of the family, on a payload inside the buffer, prints and returns
    what [fam] says; the decoder of udev's events prints what [uevent] says. *)
Hypothesis fam_ok : forall h d a n st, decoder (nlmsg_type h) = Some d ->
  addr <= a -> 0 < n -> a + n <= addr + len -> ok st ->
  exists s r st', d h a n st = Some (s, r, st') /\ fam h a n s r /\ ok st'.
Hypothesis uevent_ok : family = NETLINK_KOBJECT_UEVENT ->
  exists s st', kobject_uevent addr len st = (s, st') /\ uevent s /\ ok st'.

Abbreviation shows_message := (shows_msg is_bigendian xlat_verbosity max_strlen t crypto generic netfilter route selinux sock_diag
  family mem hex pid_text fam NLMSG_ERROR_MAX_NESTING).
Abbreviation decode := (decode_netlink is_bigendian xlat_verbosity max_strlen t print_tgid crypto generic netfilter route selinux
  sock_diag kobject_uevent protocols inode details addr len st).

Lemma decode_netlink_spec :
  if family =? NETLINK_KOBJECT_UEVENT then exists s st', decode = Some (s, st') /\ uevent s /\ ok st'
  else exists texts st', ok st' /\ decode = Some (bracketed texts, st') /\
    all_shown hex shows_message
      (walk 16 NLMSG_HDRLEN (parse_nlmsghdr is_bigendian) nlmsg_len (fun h => NLMSG_ALIGN (nlmsg_len h))
         (sequence_truncation_needed max_strlen t) (fun a => mem a 16) (seq_fuel len) addr len 0) texts.
Proof.
  unfold decode_netlink. destruct (Z.eqb_spec family NETLINK_KOBJECT_UEVENT) as [Hf|Hf].
  { destruct (uevent_ok Hf) as (s & st' & E & Hs & H'). exists s, st'. by rewrite E. }
  pose proof buffer as (H0 & H1 & _). pose proof (pow2_pos page_bits ltac:(lia)).
  apply (decode_messages_spec is_bigendian xlat_verbosity max_strlen t print_tgid crypto generic netfilter route selinux sock_diag
    family ok addr (addr + len)); try done; try lia.
  - intros a n st' Ha Hn Hh H'. by apply (tracee_fetch_ok page_bits page_bits_ok narrow xflag max_strlen fresh t m max_strlen_ok addr (addr + len)).
  - intros a n st' Ha Hn Hh H'.
    by apply (tracee_hex_ok page_bits page_bits_ok narrow xflag max_strlen fresh t m max_strlen_ok fresh_length addr (addr + len)).
  - intros a n style st' Ha Hn Hh H'.
    by apply (tracee_str_ok page_bits page_bits_ok narrow xflag max_strlen fresh t m max_strlen_ok fresh_length addr (addr + len)).
Qed.

(** C29: whatever is in the memory of the tracee, [decode_netlink] ends: the messages
    found by following the lengths are shown, each with its header inside the
    buffer, the decoder of the family is only called for payloads inside it
    (which is all that is asked of it here), and errors are followed no deeper
    than eight levels.  This holds for lengths whose alignment wraps around, and
    where the memory cannot be read. *)
Theorem decode_netlink_in_buffer :
  exists s st', ok st' /\ decode = Some (s, st') /\
    if family =? NETLINK_KOBJECT_UEVENT then uevent s
    else exists items texts, s = bracketed texts /\ all_shown hex shows_message items texts /\
           Forall (in_buffer 16 addr len) items.
Proof.
  pose proof decode_netlink_spec as H. destruct (family =? NETLINK_KOBJECT_UEVENT).
  { destruct H as (s & st' & E & Hs & H'). by exists s, st'. }
  destruct H as (texts & st' & H' & E & Hs). exists (bracketed texts), st'. split; [done|]. split; [done|].
  eexists _, texts. split; [done|]. split; [exact Hs|]. pose proof buffer as (? & ? & _).
  pose proof (pow2_pos page_bits ltac:(lia)). apply walk_in_buffer; try lia. intros h. apply NLA_ALIGN_range.
Qed.

(** C30: a buffer with the encoding of a list of messages is shown as exactly these
    messages in order, each with its header and its payload as the decoder of
    the family shows it, up to the limit on the number of elements and then three
    dots. *)
Theorem decode_netlink_correct (l : list msg) :
  family <> NETLINK_KOBJECT_UEVENT -> looks t = true -> l <> [] -> Forall msg_ok l ->
  bytes_at byte_at m addr len = Some (encode_msgs is_bigendian l) ->
  exists texts st', ok st' /\ decode = Some (bracketed texts, st') /\
    all_shown hex shows_message
      (shown (limit t max_strlen) (recs (fun h => NLMSG_ALIGN (nlmsg_len h)) msg_hdr l addr len)) texts.
Proof.
  intros Hf Hlook Hne HF Hm. pose proof decode_netlink_spec as H. rewrite (proj2 (Z.eqb_neq _ _) Hf) in H.
  destruct H as (texts & st' & H1 & H2 & H3). exists texts, st'. split; [exact H1|]. split; [exact H2|].
  pose proof buffer as (Hb0 & Hb1 & _). pose proof (pow2_pos page_bits ltac:(lia)).
  rewrite (walk_all 16 NLMSG_HDRLEN _ _ _ (encode_msg is_bigendian) msg_hdr eq_refl (limit t max_strlen)) with (l := l) in H3;
    try done; try lia.
  - intros elt. apply truncation_limit.
  - by apply (Forall_impl _ (msg_encoded is_bigendian)).
  - unfold over, limit. destruct (abbrev t); [lia|done].
  - by apply (bytes_at_Some byte_at m addr len _ (proj1 len_ok)) in Hm as [Hlen _].
  - intros i Hi Hi4. unfold seen. rewrite Hlook. by apply (bytes_at_slice byte_at m addr len); try lia.
Qed.

(** ** Attributes of an error *)

(** An error as linux/netlink.h describes it: the code, the request with padding to
    a multiple of four, the attributes. *)
Definition error_payload (be : bool) (code : Z) (request : msg) (attrs : list attr) : list Z :=
  word_bytes be 4 code ++ encode_msg be request ++ encode be attrs.

Lemma msg_pad_two x : msg_ok x -> lenZ (m_payload x) mod 4 = 2 -> msg_pad x = 2%nat.
Proof.
  intros Hx Hm. pose proof (ok_len x Hx). unfold msg_pad. replace (NLMSG_ALIGN (msg_len x)) with (NLA_ALIGN (msg_len x)) by done.
  rewrite NLA_ALIGN_eq. unfold msg_len in *. len_facts. rewrite uint_small by (unfold in_uint; lia).
  pose proof (Z.div_mod (lenZ (m_payload x)) 4 ltac:(lia)).
  pose proof (Z.div_mod (16 + lenZ (m_payload x) + 3) 4 ltac:(lia)). pose proof (Z.mod_pos_bound (16 + lenZ (m_payload x) + 3) 4). lia.
Qed.

Section error.
Variables (code : Z) (request : msg) (x : attr) (attrs : list attr) (flags seq pid : Z).
Definition error_msg : msg := mk_msg NLMSG_ERROR flags seq pid (error_payload is_bigendian code request (x :: attrs)).
Hypothesis request_ok : msg_ok request.
Hypothesis x_ok : attr_ok x.
Hypothesis error_ok : msg_ok error_msg.
Hypothesis padded : lenZ (m_payload request) mod 4 = 2.
Hypothesis code_ok : 0 <= code < 2 ^ 32.
Hypothesis looking : looks t = true.
Hypothesis at_addr : bytes_at byte_at m addr len = Some (encode_msg is_bigendian error_msg).

(** What follows the header, and the lengths. *)
Lemma error_bytes : exists rest, encode_msg is_bigendian error_msg =
  encode_hdr is_bigendian error_msg ++ (word_bytes is_bigendian 4 code ++ encode_hdr is_bigendian request) ++ m_payload request ++
  ([0; 0] ++ word_bytes is_bigendian 2 (attr_len x)) ++ rest /\
  msg_len error_msg = 20 + msg_len request + 4 + lenZ rest - Z.of_nat (msg_pad error_msg) /\
  2 + Z.of_nat (msg_pad error_msg) <= lenZ rest.
Proof.
  eexists (word_bytes is_bigendian 2 x.1 ++ x.2 ++ replicate (attr_pad x) 0 ++ encode is_bigendian attrs ++ replicate (msg_pad error_msg) 0).
  set (pad := msg_pad error_msg). split.
  - unfold encode_msg at 1. fold pad. cbn [m_payload error_msg]. unfold error_payload, encode_msg. rewrite (msg_pad_two request request_ok padded).
    unfold encode, encode_all. cbn [map concat]. unfold encode_attr at 1. cbn [replicate]. by rewrite <- !app_assoc.
  - unfold msg_len at 1. cbn [m_payload error_msg]. unfold error_payload, encode, encode_all. cbn [map concat].
    rewrite !lenZ_app. rewrite encode_msg_length by done. pose proof (encode_attr_length is_bigendian x x_ok) as Hx.
    unfold encode_attr in Hx. rewrite !lenZ_app in Hx. unfold encode_attr. rewrite !lenZ_app, !lenZ_replicate in *.
    assert (Hw : forall n v, lenZ (word_bytes is_bigendian n v) = Z.of_nat n) by (intros; unfold lenZ; by rewrite word_bytes_length).
    rewrite !Hw in *. pose proof (msg_pad_two request request_ok padded) as Hp. unfold msg_pad in Hp.
    pose proof (msg_len_align request request_ok). len_facts.
    set (e := lenZ (concat (map (fun _ => _) attrs))) || set (e := lenZ (concat _)). lia.
Qed.

Lemma seen_mid pre mid post o k : encode_msg is_bigendian error_msg = pre ++ mid ++ post ->
  lenZ pre = o -> lenZ mid = k -> mem (addr + o) k = Some mid.
Proof.
  intros E Ho Hk. unfold seen. rewrite looking. pose proof at_addr as Hm. rewrite E in Hm.
  pose proof Hm as Hlen. apply (bytes_at_Some byte_at m addr len _ (proj1 len_ok)) in Hlen as [Hlen _].
  rewrite !lenZ_app in Hlen. len_facts. rewrite (bytes_at_slice byte_at m addr len _ o k) with (4 := Hm) by lia. f_equal.
  subst o k. unfold lenZ. rewrite !Nat2Z.id. rewrite (drop_app_length pre). apply take_app_length.
Qed.

(** The attributes of the error start after the padding, but are looked for before
    it: the padding is taken for an attribute of length 0. *)
Lemma error_attrs_walk k : 4 <= k -> 1 <= max_strlen ->
  walk 4 NLA_HDRLEN (parse_nlattr is_bigendian) nla_len (fun nla => NLA_ALIGN (nla_len nla))
    (sequence_truncation_needed max_strlen t) (fun a => mem a 4) (seq_fuel k) (addr + 20 + msg_len request) k 0
  = [IRec (mk_nla 0 (attr_len x)) (addr + 20 + msg_len request) k].
Proof.
  intros Hk H1. unfold seq_fuel. cbn [walk]. rewrite (proj2 (Z.ltb_ge k 4)) by lia.
  destruct error_bytes as (rest & E & _).
  replace (addr + 20 + msg_len request) with (addr + (20 + msg_len request)) by lia.
  rewrite (seen_mid (encode_hdr is_bigendian error_msg ++ (word_bytes is_bigendian 4 code ++ encode_hdr is_bigendian request) ++ m_payload request)
    ([0; 0] ++ word_bytes is_bigendian 2 (attr_len x)) rest); [|by rewrite E, <- !app_assoc|..].
  - rewrite truncation_limit by lia. unfold over, limit.
    replace (match (if abbrev t then Some max_strlen else None) with Some max => max <? 0 + 1 | None => false end) with false
      by (destruct (abbrev t); [symmetry; apply Z.ltb_ge; lia|done]).
    assert (Hp : parse_nlattr is_bigendian ([0; 0] ++ word_bytes is_bigendian 2 (attr_len x)) = mk_nla 0 (attr_len x)).
    { unfold parse_nlattr. cbn [take drop app]. unfold attr_len, attr_ok in *. destruct x_ok as [_ Hl]. len_facts.
      rewrite take_0, drop_0, word_value_bytes by (change (256 ^ Z.of_nat 2) with (2 ^ 16); lia). by destruct is_bigendian. }
    rewrite Hp. unfold next. by cbn.
  - unfold lenZ, msg_len, lenZ. rewrite !length_app, !encode_hdr_length, word_bytes_length. lia.
  - unfold lenZ. by rewrite length_app, word_bytes_length.
Qed.

Abbreviation shows_at nesting := (shows_msg is_bigendian xlat_verbosity max_strlen t crypto generic netfilter route selinux sock_diag
  family mem hex pid_text fam nesting).

Lemma error_alone : family <> NETLINK_KOBJECT_UEVENT -> 1 <= max_strlen ->
  exists s st', ok st' /\ decode = Some (s, st') /\ shows_message (msg_hdr error_msg) addr len s.
Proof.
  intros Hf H1. pose proof decode_netlink_spec as H. rewrite (proj2 (Z.eqb_neq _ _) Hf) in H.
  destruct H as (texts & st' & H' & E & Hs). pose proof buffer as (Hb0 & Hb1 & _). pose proof (pow2_pos page_bits ltac:(lia)).
  pose proof at_addr as Hlen. apply (bytes_at_Some byte_at m addr len _ (proj1 len_ok)) in Hlen as [Hlen _].
  rewrite encode_msg_length in Hlen by done. pose proof (msg_len_align error_msg error_ok) as Hal.
  rewrite (walk_all 16 NLMSG_HDRLEN _ _ _ (encode_msg is_bigendian) msg_hdr eq_refl (limit t max_strlen)) with (l := [error_msg]) in Hs;
    try done; try lia.
  2: { intros elt. apply truncation_limit. }
  2: { constructor; [by apply msg_encoded|constructor]. }
  2: { unfold over, limit. destruct (abbrev t); [lia|done]. }
  2: { unfold encode_all. cbn [map concat]. rewrite app_nil_r, encode_msg_length by done. done. }
  2: { intros i Hi Hi4. unfold seen. rewrite looking. unfold encode_all. cbn [map concat]. rewrite app_nil_r.
       by apply (bytes_at_slice byte_at m addr len); try lia. }
  cbn [recs] in Hs. unfold shown in Hs.
  assert (Hlim : match limit t max_strlen with
    | Some max => if max <? lenZ [IRec (msg_hdr error_msg) addr len] then take (Z.to_nat max) [IRec (msg_hdr error_msg) addr len] ++ [IMore]
                  else [IRec (msg_hdr error_msg) addr len]
    | None => [IRec (msg_hdr error_msg) addr len] end = [IRec (msg_hdr error_msg) addr len]).
  { unfold limit. destruct (abbrev t); [|done]. by rewrite (proj2 (Z.ltb_ge _ _)) by (change (lenZ [_]) with 1; lia). }
  rewrite Hlim in Hs. destruct texts as [|s [|? ?]]; [done| |by destruct Hs as [_ Hs]; inversion Hs]. destruct Hs as [Hs _].
  by exists s, st'.
Qed.

Lemma error_shown k s : 1 <= max_strlen -> has flags NLM_F_CAPPED = false -> shows_at (S k) (msg_hdr error_msg) addr len s ->
  exists p request_text, s = codes "[" ++ nlmsghdr_text xlat_verbosity family (msg_hdr error_msg) p ++ codes ", " ++
    (codes "[" ++ (codes "{error=" ++ print_err_negated xlat_verbosity (sint 32 code) ++ codes ", msg=" ++ request_text ++ codes "}") ++
     codes ", " ++ print_nlattr xlat_verbosity (mk_nla 0 (attr_len x)) (Some nlmsgerr_attrs) (Some "NLMSGERR_ATTR_???"%string) ++ codes "]")
    ++ codes "]".
Proof.
  intros H1 Hcap (p & _ & Hs). pose proof at_addr as Hlen. apply (bytes_at_Some byte_at m addr len _ (proj1 len_ok)) in Hlen as [Hlen _].
  rewrite encode_msg_length in Hlen by done. pose proof (msg_len_align error_msg error_ok) as Hal.
  destruct error_bytes as (rest & E & Hml & Hrest). pose proof (msg_len_align request request_ok) as Hreq.
  cbn [msg_hdr nlmsg_len] in Hs. rewrite (Z.min_l (msg_len error_msg) len) in Hs by lia.
  rewrite (proj2 (Z.ltb_lt 16 _)) in Hs by lia. destruct Hs as (data & -> & Hd). exists p.
  unfold shows_payload in Hd. cbn [msg_hdr nlmsg_type nlmsg_flags error_msg m_type m_flags] in Hd.
  change (NLMSG_ERROR =? NLMSG_ERROR) with true in Hd. cbv iota in Hd. rewrite Hcap in Hd. unfold shows_err, err_payload in Hd.
  rewrite (proj2 (Z.ltb_ge _ 20)) in Hd by lia.
  rewrite (seen_mid (encode_hdr is_bigendian error_msg) (word_bytes is_bigendian 4 code ++ encode_hdr is_bigendian request) _ 16 20 E) in Hd;
    [|by unfold lenZ; rewrite encode_hdr_length|by unfold lenZ; rewrite length_app, word_bytes_length, encode_hdr_length].
  rewrite take_word in Hd. rewrite (drop_word is_bigendian 4 code _ 0 : drop 4 _ = _) in Hd. rewrite drop_0 in Hd.
  rewrite parse_encode_hdr in Hd by done. cbn [msg_hdr nlmsg_len] in Hd.
  rewrite (Z.max_r 16) in Hd by lia. rewrite (Z.min_r (msg_len error_msg - 16 - 4)) in Hd by lia.
  unfold Nlattr.value in Hd. rewrite word_value_bytes in Hd by (change (256 ^ Z.of_nat 4) with (2 ^ 32); lia).
  destruct Hd as (request_text & _ & Hd). exists request_text. rewrite (proj2 (Z.ltb_lt _ _)) in Hd by lia.
  destruct Hd as (a & (texts & -> & Ha) & ->). replace (addr + 16 + 4 + msg_len request) with (addr + 20 + msg_len request) in Ha by lia.
  rewrite error_attrs_walk in Ha by lia. destruct texts as [|s [|? ?]]; [done| |by destruct Ha as [_ Ha]; inversion Ha].
  destruct Ha as [Ha _]. cbn [shows] in Ha. unfold shows_attr in Ha. cbn [nla_len] in Ha.
  rewrite (proj2 (Z.ltb_ge 4 _)) in Ha by lia. by subst s.
Qed.

(** An error whose request has a length that is not a multiple of four (here two
    more than one) and which carries attributes is not shown with them: one
    attribute of length 0 is shown, whose type is the length of the first
    attribute. *)
Theorem error_attrs_misread :
  family <> NETLINK_KOBJECT_UEVENT -> 1 <= max_strlen -> has flags NLM_F_CAPPED = false ->
  exists p request_text st', ok st' /\
    decode = Some (codes "[" ++ nlmsghdr_text xlat_verbosity family (msg_hdr error_msg) p ++ codes ", [{error=" ++
      print_err_negated xlat_verbosity (sint 32 code) ++ codes ", msg=" ++ request_text ++ codes "}, " ++
      print_nlattr xlat_verbosity (mk_nla 0 (attr_len x)) (Some nlmsgerr_attrs) (Some "NLMSGERR_ATTR_???"%string) ++ codes "]]", st').
Proof.
  intros Hf H1 Hcap. destruct (error_alone Hf H1) as (s & st' & H' & E & Hs).
  destruct (error_shown 7 s H1 Hcap Hs) as (p & r & ->). exists p, r, st'. split; [done|]. rewrite E. by rewrite <- !app_assoc.
Qed.
End error.

End tracee.

(** ** Concrete messages *)

#[local] Instance demo_tables : NetlinkTables :=
  let x := mk_xlat [] XT_NORMAL in
  {| netlink_types := mk_xlat [mk_xd 2 (Some "NLMSG_ERROR"%string); mk_xd 3 (Some "NLMSG_DONE"%string)] XT_NORMAL;
     netlink_flags := mk_xlat [mk_xd 1 (Some "NLM_F_REQUEST"%string)] XT_NORMAL; netlink_ack_flags := x;
     netlink_new_flags := x; netlink_delete_flags := x;
     netlink_get_flags := mk_xlat [mk_xd 0x300 (Some "NLM_F_DUMP"%string)] XT_NORMAL;
     nl_audit_types := x; nl_crypto_types := x; nl_netfilter_subsys_ids := x; nl_netfilter_msg_types := x;
     nl_route_types := mk_xlat [mk_xd 18 (Some "RTM_GETLINK"%string)] XT_NORMAL;
     nl_selinux_types := x; nl_sock_diag_types := x; nl_xfrm_types := x;
     nf_ctnetlink_msg_types := x; nf_ctnetlink_exp_msg_types := x; nf_queue_msg_types := x; nf_ulog_msg_types := x;
     nf_osf_msg_types := x; nf_ipset_msg_types := x; nf_acct_msg_types := x; nf_cttimeout_msg_types := x;
     nf_cthelper_msg_types := x; nf_tables_msg_types := x; nf_nft_compat_msg_types := x; nf_hook_msg_types := x;
     nlmsgerr_attrs := mk_xlat [mk_xd 1 (Some "NLMSGERR_ATTR_MSG"%string); mk_xd 2 (Some "NLMSGERR_ATTR_OFFS"%string)] XT_NORMAL;
     genl_families_xlat := x; errnoent := [None; Some "EPERM"%string] |}.

Definition demo_holding (bytes : list Z) : demo_mem :=
  mk_mem (fun p => (1 <=? p) && (p <=? 3)) (fun a => nthZ bytes (a - 16)).
Definition demo_tgid (pid : Z) (st : world) : text * world := (codes (pretty pid), st).
Definition demo_family (h : nlmsghdr) (a n : Z) (st : world) : option (text * bool * world) := Some ([], false, st).
Definition demo_uevent (a n : Z) (st : world) : text * world := ([], st).
Definition demo_details (inode : Z) : option string := if inode =? 7 then Some "NETLINK:[ROUTE:0]"%string else None.

(** A request, and the end of an answer. *)
Definition demo_msgs : list msg := [mk_msg 18 0x301 1 0 [17; 0]; mk_msg 3 0 2 0 [255; 255; 255; 255]].
Definition demo_m : @mstate demo_memory := demo_holding (encode_msgs false demo_msgs).
Definition demo_request : msg := mk_msg 18 1 1 0 [17; 0].
Definition demo_error : msg := error_msg false (2 ^ 32 - 1) demo_request (2, [4; 0; 0; 0]) [] 0 1 5.
Definition demo_err_m : @mstate demo_memory := demo_holding (encode_msg false demo_error).

Definition demo_decode (mem : @mstate demo_memory) (len : Z) : option (text * world) :=
  @decode_netlink demo_tables world (tracee_printing demo_bits false 0 32 demo_fresh decoding mem) false 2 32 decoding demo_tgid
    demo_family demo_family demo_family demo_family demo_family demo_family demo_uevent netlink_protocols 7 demo_details 16 len demo_world.

Definition quoted (s : string) : text := [34] ++ codes s ++ [34].

Example demo_messages_decoded :
  fst <$> demo_decode demo_m 40 = Some (codes "[[{nlmsg_len=18, nlmsg_type=RTM_GETLINK, nlmsg_flags=NLM_F_REQUEST|NLM_F_DUMP, nlmsg_seq=1, nlmsg_pid=0}, "
    ++ quoted "\x11\x00" ++ codes "], [{nlmsg_len=20, nlmsg_type=NLMSG_DONE, nlmsg_flags=0, nlmsg_seq=2, nlmsg_pid=0}, -1]]").
Proof. vm_compute. reflexivity. Qed.

Lemma demo_range len : len < 1000 -> buffer_ok demo_bits false 32 16 (16 + len).
Proof.
  intros Hl. split; [lia|]. split; [|by intros a _]. change (2 ^ demo_bits) with 16. lia.
Qed.

Lemma demo_ok mem : world_ok demo_bits 32 (mem : @mstate demo_memory) demo_world.
Proof. split; [apply empty_cache_ok|]. split; [done|]. by intros b. Qed.

Definition demo_pid_text (pid : Z) (s : text) : Prop := s = codes (pretty pid).
Definition demo_fam_text (h : nlmsghdr) (a n : Z) (s : text) (r : bool) : Prop := s = [] /\ r = false.

Lemma demo_tgid_ok mem pid st : world_ok demo_bits 32 (mem : @mstate demo_memory) st ->
  exists s st', demo_tgid pid st = (s, st') /\ demo_pid_text pid s /\ world_ok demo_bits 32 mem st'.
Proof. intros H. by eexists _, st. Qed.

Lemma demo_family_ok mem len h d a n st :
  family_decoder demo_family demo_family demo_family demo_family demo_family demo_family
    (get_fd_nl_family netlink_protocols 7 demo_details) (nlmsg_type h) = Some d ->
  16 <= a -> 0 < n -> a + n <= 16 + len -> world_ok demo_bits 32 (mem : @mstate demo_memory) st ->
  exists s r st', d h a n st = Some (s, r, st') /\ demo_fam_text h a n s r /\ world_ok demo_bits 32 mem st'.
Proof.
  unfold family_decoder. destruct (_ || _); [|done]. vm_compute (get_fd_nl_family _ _ _). cbn.
  intros [= <-] _ _ _ Hst. by eexists _, _, st.
Qed.

Lemma decode_netlink_in_buffer_witness : exists s st', demo_decode demo_m 40 = Some (s, st').
Proof.
  destruct (decode_netlink_in_buffer demo_bits ltac:(vm_compute; split; congruence) false 0 32 demo_fresh decoding demo_m
    ltac:(lia) demo_fresh_length false 2 demo_tgid demo_family demo_family demo_family demo_family demo_family demo_family demo_uevent
    demo_pid_text demo_fam_text (fun _ => True) netlink_protocols 7 demo_details 16 40 demo_world (demo_range 40 ltac:(lia))
    ltac:(lia) (demo_ok demo_m) (demo_tgid_ok demo_m) (demo_family_ok demo_m 40)) as (s & st' & _ & E & _).
  - intros _. by eexists _, demo_world.
  - exists s, st'. exact E.
Defined.

Lemma decode_netlink_correct_witness :
  exists texts st', demo_decode demo_m 40 = Some (bracketed texts, st') /\ length texts = 2%nat.
Proof.
  destruct (decode_netlink_correct demo_bits ltac:(vm_compute; split; congruence) false 0 32 demo_fresh decoding demo_m
    ltac:(lia) demo_fresh_length false 2 demo_tgid demo_family demo_family demo_family demo_family demo_family demo_family demo_uevent
    demo_pid_text demo_fam_text (fun _ => True) netlink_protocols 7 demo_details 16 40 demo_world (demo_range 40 ltac:(lia))
    ltac:(lia) (demo_ok demo_m) (demo_tgid_ok demo_m) (demo_family_ok demo_m 40)) with (l := demo_msgs) as (texts & st' & _ & E & Hs).
  - intros _. by eexists _, demo_world.
  - vm_compute. discriminate.
  - reflexivity.
  - discriminate.
  - repeat constructor; vm_compute; congruence.
  - vm_compute. reflexivity.
  - exists texts, st'. split; [exact E|]. rewrite <- (all_shown_length _ _ _ _ Hs). vm_compute. reflexivity.
Defined.

Lemma netlink_family_roundtrip_witness :
  exists d, netlink_parse_response netlink_protocols (mk_diag 16 17 7 0) 44 7 "NETLINK" = Some (Some d) /\
    get_fd_nl_family netlink_protocols 7 (fun _ => Some d) = 17.
Proof.
  destruct (netlink_family_roundtrip (mk_diag 16 17 7 0) 44) as (d & E & H).
  - reflexivity.
  - cbn. lia.
  - discriminate.
  - lia.
  - exists d. split; [exact E|]. by apply H.
Defined.

Lemma error_attrs_misread_witness : exists p r st',
  demo_decode demo_err_m 48 = Some (codes "[" ++ nlmsghdr_text 2 0 (msg_hdr demo_error) p ++ codes ", [{error=" ++
    print_err_negated 2 (-1) ++ codes ", msg=" ++ r ++ codes "}, " ++ codes "{nla_len=0, nla_type=0x8 /* NLMSGERR_ATTR_??? */}" ++ codes "]]", st').
Proof.
  destruct (error_attrs_misread demo_bits ltac:(vm_compute; split; congruence) false 0 32 demo_fresh decoding demo_err_m
    ltac:(lia) demo_fresh_length false 2 demo_tgid demo_family demo_family demo_family demo_family demo_family demo_family demo_uevent
    demo_pid_text demo_fam_text (fun _ => True) netlink_protocols 7 demo_details 16 48 demo_world (demo_range 48 ltac:(lia))
    ltac:(lia) (demo_ok demo_err_m) (demo_tgid_ok demo_err_m) (demo_family_ok demo_err_m 48)) with
    (code := 2 ^ 32 - 1) (request := demo_request) (x := (2, [4; 0; 0; 0])) (attrs := @nil attr) (flags := 0) (seq := 1) (pid := 5)
    as (p & r & st' & _ & E).
  - intros _. by eexists _, demo_world.
  - split; vm_compute; repeat split; congruence.
  - split; vm_compute; repeat split; congruence.
  - split; vm_compute; repeat split; congruence.
  - reflexivity.
  - lia.
  - reflexivity.
  - vm_compute. reflexivity.
  - discriminate.
  - lia.
  - reflexivity.
  - exists p, r, st'. exact E.
Defined.
