(* ===== verification/Sockets.v ===== *)
(** * Names of sockets (src/socketutils.c, src/dyxlat.c)

    For a descriptor that is a socket strace asks the kernel, over a netlink
    socket of its own, what the socket is connected to, and keeps the answer in a
    cache.  The names of the generic netlink families are found in the same way.
    The answers are parsed in the buffer they are received in, which is static: a
    read outside of the message that is parsed would see what an earlier answer
    left there, or memory that is not part of the buffer.  Such a read is the
    result [Stuck] of the model. *)

From stdpp Require Import strings pretty.
From Stdlib Require Import Ascii.
From S2P Require Import Prelude Wait Util Xlat Filters Quote UCopy PrintStr Tcb PrintArray Nlattr Netlink.
Open Scope Z_scope.

(** ** Results and state *)

Inductive result (A : Type) := Done (a : A) | Stuck | NoFuel.
Arguments Done {A} a.
Arguments Stuck {A}.
Arguments NoFuel {A}.

#[export] Instance result_ret : MRet result := fun A a => Done a.
#[export] Instance result_bind : MBind result := fun A B f r =>
  match r with Done a => f a | Stuck => Stuck | NoFuel => NoFuel end.

(** What sendmsg and recvmsg on the netlink socket do; [Recv] has the bytes that
    were stored in the buffer. *)
Inductive sent := Sent | SendIntr | SendFail.
Inductive received := Recv (bytes : list Z) | RecvIntr | RecvFail.

Class NetlinkSocket (K : Type) := {
  k_socket : Z -> K -> bool * K;
  k_send : list Z -> K -> sent * K;
  k_recv : Z -> K -> received * K;
  k_close : K -> K }.

(** recvmsg stores no more than the buffer holds. *)
Class SocketLaws (K : Type) (NS : NetlinkSocket K) : Prop :=
  recv_fits : forall flags k b k', k_recv flags k = (Recv b, k') -> lenZ b <= 8192.

(** An entry of the cache: the inode and the details. *)
Definition cache_entry : Type := Z * option text.
Definition CACHE_SIZE : Z := 1024.
Definition CACHE_MASK : Z := CACHE_SIZE - 1.

(** [struct dyxlat]: values with the bytes of their names; the capacity of the
    array is left out. *)
Definition dyxlat : Type := list (Z * list Z).

Section state.
Context {K : Type}.
Record state := mk_state { cache : list cache_entry; families : option dyxlat; kern : K }.
Definition set_cache (c : list cache_entry) (s : state) : state := mk_state c (families s) (kern s).
Definition set_families (d : option dyxlat) (s : state) : state := mk_state (cache s) d (kern s).
Definition set_kern (k : K) (s : state) : state := mk_state (cache s) (families s) k.

Definition M (A : Type) : Type := state -> result (A * state).
#[export] Instance M_ret : MRet M := fun A a s => Done (a, s).
#[export] Instance M_bind : MBind M := fun A B f m s => '(a, s) ← m s; f a s.

Definition lift {A} (r : result A) : M A := fun s => a ← r; Done (a, s).
Definition call {A} (f : K -> A * K) : M A := fun s => let '(a, k) := f (kern s) in Done (a, set_kern k s).
Definition get_state : M state := fun s => Done (s, s).
Definition put_state (f : state -> state) : M unit := fun s => Done (tt, f s).
End state.
Arguments state K : clear implicits.
Arguments M K A : clear implicits.

(** ** Reading a message *)

(** [n] bytes at offset [o]. *)
Definition rd (b : list Z) (o n : Z) : result (list Z) :=
  if (0 <=? o) && (0 <=? n) && (o + n <=? lenZ b) then Done (take (Z.to_nat n) (drop (Z.to_nat o) b)) else Stuck.

Section host.
Variable is_bigendian : bool.
Definition rd_value (b : list Z) (o n : Z) : result Z := x ← rd b o n; Done (word_value is_bigendian x).

Definition RTA_ALIGN (len : Z) : Z := Z.land (uint 32 (len + 3)) (Z.lnot 3).

(** The loop over attributes with [RTA_OK] and [RTA_NEXT]: [step] gets the type
    and the payload. *)
Fixpoint rta_loop {A} (fuel : nat) (step : Z -> list Z -> A -> result A) (b : list Z) (off rta_len : Z) (acc : A) : result A :=
  match fuel with
  | O => NoFuel
  | S fuel' =>
      if rta_len <? 4 then Done acc
      else
        len ← rd_value b off 2;
        if (4 <=? len) && (len <=? rta_len) then
          type ← rd_value b (off + 2) 2;
          payload ← rd b (off + 4) (len - 4);
          acc ← step type payload acc;
          rta_loop fuel' step b (off + RTA_ALIGN len) (sint 32 (rta_len - RTA_ALIGN len)) acc
        else Done acc
  end.

Definition rta_all {A} (step : Z -> list Z -> A -> result A) (b : list Z) (off rta_len : Z) (acc : A) : result A :=
  rta_loop (S (Z.to_nat rta_len)) step b off rta_len acc.

(** ** The cache *)

Definition slot (inode : Z) : nat := Z.to_nat (Z.land inode CACHE_MASK).

Definition cache_inode_details {K} (inode : Z) (details : text) : M K Z :=
  put_state (fun s => set_cache (<[slot inode := (inode, Some details)]> (cache s)) s);; mret 1.

Definition get_sockaddr_by_inode_cached {K} (inode : Z) : M K (option text) :=
  s ← get_state;
  let '(i, details) := nth (slot inode) (cache s) (0, None) in
  mret (if inode =? i then details else None).

(** ** Parsers of answers

    The arguments are the bytes after the header of the message, its length, the
    inode and the name of the protocol; the result is 1 when the inode was found,
    0 when the message is about another one, and -1 to give up. *)

Definition AF_UNIX : Z := 1.
Definition INET_DIAG_MSG : Z := 72.
Definition NLMSG_LENGTH (n : Z) : Z := n + 16.

(** [inet_ntop] of the C library. *)
Variable inet_ntop : Z -> list Z -> option text.

Definition inet_details (proto_name : string) (family : Z) (src : text) (sport : Z) (dst : option (text * Z)) : text :=
  let ob := if family =? AF_INET6 then codes "[" else [] in
  let cb := if family =? AF_INET6 then codes "]" else [] in
  codes proto_name ++ codes ":[" ++ ob ++ src ++ cb ++ codes ":" ++ codes (pretty sport) ++
  match dst with
  | Some (dst, dport) => codes "->" ++ ob ++ dst ++ cb ++ codes ":" ++ codes (pretty dport)
  | None => []
  end ++ codes "]".

Definition inet_parse_response {K} (data : list Z) (data_len inode : Z) (proto_name : string) : M K Z :=
  if data_len <? NLMSG_LENGTH INET_DIAG_MSG then mret (-1)
  else
    ino ← lift (rd_value data 68 4);
    if negb (ino =? inode) then mret 0
    else
      family ← lift (rd_value data 0 1);
      if negb ((family =? AF_INET) || (family =? AF_INET6)) then mret (-1)
      else
        let addr_size := if family =? AF_INET then 4 else 16 in
        srcb ← lift (rd data 8 addr_size);
        match inet_ntop family srcb with
        | None => mret (-1)
        | Some src =>
            sport ← lift (rd_value data 4 2);
            dport ← lift (rd_value data 6 2);
            dstb ← lift (rd data 24 addr_size);
            if negb (dport =? 0) || negb (forallb (Z.eqb 0) dstb) then
              match inet_ntop family dstb with
              | None => mret (-1)
              | Some dst =>
                  cache_inode_details inode
                    (inet_details proto_name family src (ntoh is_bigendian 2 sport) (Some (dst, ntoh is_bigendian 2 dport)))
              end
            else cache_inode_details inode (inet_details proto_name family src (ntoh is_bigendian 2 sport) None)
        end.

Definition UNIX_PATH_MAX : Z := 108.
Definition UNIX_DIAG_NAME : Z := 0.
Definition UNIX_DIAG_PEER : Z := 2.

(** The path and the peer found so far. *)
Definition unix_attr (type : Z) (payload : list Z) (acc : list Z * Z) : result (list Z * Z) :=
  let '(path, peer) := acc in
  if type =? UNIX_DIAG_NAME then
    if lenZ path =? 0 then Done (take (Z.to_nat (Z.min (lenZ payload) UNIX_PATH_MAX)) payload, peer) else Done acc
  else if type =? UNIX_DIAG_PEER then
    if 4 <=? lenZ payload then p ← rd_value payload 0 4; Done (path, p) else Done acc
  else Done acc.

Variable xflag : Z.

Definition quoted_path (s : list Z) (size : Z) : text :=
  fst (string_quote (hexstr_style xflag QUOTE_0_TERMINATED) QUOTE_0_TERMINATED None (s ++ [0]) size).

Definition unix_path_text (path : list Z) : text :=
  match path with
  | [] => []
  | c :: name => codes "," ++ (if c =? 0 then codes "@" ++ quoted_path name (lenZ path - 1) else quoted_path path (lenZ path))
  end.

Definition unix_details (proto_name : string) (inode : Z) (path : list Z) (peer : Z) : text :=
  codes proto_name ++ codes ":[" ++ codes (pretty inode) ++
  (if peer =? 0 then [] else codes "->" ++ codes (pretty peer)) ++ unix_path_text path ++ codes "]".

Definition unix_parse_response {K} (data : list Z) (data_len inode : Z) (proto_name : string) : M K Z :=
  let rta_len := sint 32 (data_len - NLMSG_LENGTH 16) in
  if rta_len <? 0 then mret (-1)
  else
    ino ← lift (rd_value data 4 4);
    if negb (ino =? inode) then mret 0
    else
      family ← lift (rd_value data 0 1);
      if negb (family =? AF_UNIX) then mret (-1)
      else
        '(path, peer) ← lift (rta_all unix_attr data 16 rta_len ([], 0));
        if (peer =? 0) && (lenZ path =? 0) then mret (-1)
        else cache_inode_details inode (unix_details proto_name inode path peer).

(** The fields of the message, for [Netlink.netlink_parse_response]. *)
Definition netlink_parse {K} (data : list Z) (data_len inode : Z) (proto_name : string) : M K Z :=
  if data_len <? NLMSG_LENGTH 28 then mret (-1)
  else
    family ← lift (rd_value data 0 1);
    protocol ← lift (rd_value data 2 1);
    portid ← lift (rd_value data 4 4);
    ino ← lift (rd_value data 16 4);
    match netlink_parse_response netlink_protocols (mk_diag family protocol ino portid) data_len inode proto_name with
    | None => mret (-1)
    | Some None => mret 0
    | Some (Some details) => cache_inode_details inode (codes details)
    end.

(** ** Questions and answers *)

Context {K : Type} {NS : NetlinkSocket K}.

Fixpoint send_query (fuel : nat) (req : list Z) : M K bool :=
  match fuel with
  | O => lift NoFuel
  | S fuel' =>
      r ← call (k_send req);
      match r with Sent => mret true | SendIntr => send_query fuel' req | SendFail => mret false end
  end.

Definition SOCK_DIAG_BY_FAMILY : Z := 20.
Definition NLM_F_REQUEST : Z := 1.
Definition NLM_F_DUMP : Z := 0x300.
Abbreviation word n v := (word_bytes is_bigendian n (uint (8 * Z.of_nat n) v)).

(** A header and the body of a request; the sequence number and the sender are 0. *)
Definition request (type flags : Z) (body : list Z) : list Z :=
  word 4 (16 + lenZ body) ++ word 2 type ++ word 2 flags ++ word 4 0 ++ word 4 0 ++ body.

Definition inet_send_query (fuel : nat) (family proto : Z) : M K bool :=
  send_query fuel (request SOCK_DIAG_BY_FAMILY (Z.lor NLM_F_DUMP NLM_F_REQUEST)
    (word 1 family ++ word 1 proto ++ [0; 0] ++ word 4 (-1) ++ replicate 48 0)).

(** [dump] tells whether the kernel is older than 4.4.4. *)
Definition unix_send_query (fuel : nat) (dump : bool) (inode : Z) : M K bool :=
  send_query fuel (request SOCK_DIAG_BY_FAMILY (Z.lor NLM_F_REQUEST (if dump then NLM_F_DUMP else 0))
    (word 1 AF_UNIX ++ [0; 0; 0] ++ word 4 (-1) ++ word 4 inode ++ word 4 5 ++ word 4 (-1) ++ word 4 (-1))).

Definition netlink_send_query (fuel : nat) : M K bool :=
  send_query fuel (request SOCK_DIAG_BY_FAMILY (Z.lor NLM_F_DUMP NLM_F_REQUEST)
    (word 1 AF_NETLINK ++ word 1 255 ++ replicate 18 0)).

(** [is_nlmsg_ok] for the header at an offset, [len] bytes before the end: the
    length of the message if it is. *)
Definition is_nlmsg_ok (b : list Z) (off len : Z) : result (option Z) :=
  if len <? 16 then Done None
  else n ← rd_value b off 4; Done (if (16 <=? n) && (n <=? len) then Some n else None).

Section receive.
Variables (expected_msg_type : Z) (parser : list Z -> Z -> M K Z).

(** The messages of an answer; [None] is the end of them. *)
Fixpoint parse_messages (fuel : nat) (b : list Z) (off ret : Z) : M K (option bool) :=
  match fuel with
  | O => lift NoFuel
  | S fuel' =>
      ok ← lift (is_nlmsg_ok b off ret);
      match ok with
      | None => mret None
      | Some n =>
          type ← lift (rd_value b (off + 4) 2);
          if negb (type =? expected_msg_type) then mret (Some false)
          else
            data ← lift (rd b (off + 16) (n - 16));
            rc ← parser data n;
            if 0 <? rc then mret (Some true)
            else if rc <? 0 then mret (Some false)
            else parse_messages fuel' b (off + NLMSG_ALIGN n) (ret - NLMSG_ALIGN n)
      end
  end.

Definition MSG_DONTWAIT : Z := 0x40.

(** [fuel] bounds the number of answers; the kernel decides how many there are. *)
Fixpoint receive_loop (fuel : nat) (flags : Z) : M K bool :=
  match fuel with
  | O => lift NoFuel
  | S fuel' =>
      r ← call (k_recv flags);
      match r with
      | RecvFail => mret false
      | RecvIntr => receive_loop fuel' flags
      | Recv b =>
          first ← lift (is_nlmsg_ok b 0 (lenZ b));
          match first with
          | None => mret false
          | Some _ =>
              r ← parse_messages (S (length b)) b 0 (lenZ b);
              match r with Some found => mret found | None => receive_loop fuel' MSG_DONTWAIT end
          end
      end
  end.
Definition receive_responses (fuel : nat) : M K bool := receive_loop fuel 0.
End receive.

(** ** Protocols *)

Inductive getter := unix_get | inet_get | netlink_get.
Record protocol := mk_proto { p_name : string; p_get : getter; p_family : Z; p_proto : Z }.

(** [protocols], from the index 1 on; the element 0 (SOCK_PROTO_UNKNOWN) is empty. *)
Definition protocols : list protocol :=
  [mk_proto "UNIX" unix_get AF_UNIX 0; mk_proto "UNIX-STREAM" unix_get AF_UNIX 0;
   mk_proto "TCP" inet_get AF_INET 6; mk_proto "UDP" inet_get AF_INET 17; mk_proto "UDPLITE" inet_get AF_INET 136;
   mk_proto "DCCP" inet_get AF_INET 33; mk_proto "SCTP" inet_get AF_INET 132; mk_proto "L2TP/IP" inet_get AF_INET 115;
   mk_proto "PING" inet_get AF_INET 1; mk_proto "RAW" inet_get AF_INET 255;
   mk_proto "TCPv6" inet_get AF_INET6 6; mk_proto "UDPv6" inet_get AF_INET6 17; mk_proto "UDPLITEv6" inet_get AF_INET6 136;
   mk_proto "DCCPv6" inet_get AF_INET6 33; mk_proto "L2TP/IPv6" inet_get AF_INET6 115; mk_proto "SCTPv6" inet_get AF_INET6 132;
   mk_proto "PINGv6" inet_get AF_INET6 1; mk_proto "RAWv6" inet_get AF_INET6 255; mk_proto "NETLINK" netlink_get AF_NETLINK 0].

Definition SOCK_PROTO_UNKNOWN : Z := 0.
Definition protocol_at (proto : Z) : option protocol := if 1 <=? proto then protocols !! Z.to_nat (proto - 1) else None.

Fixpoint find_name (name : string) (l : list protocol) (i : Z) : Z :=
  match l with
  | [] => SOCK_PROTO_UNKNOWN
  | p :: l' => if String.eqb name (p_name p) then i else find_name name l' (i + 1)
  end.
Definition get_proto_by_name (name : string) : Z := find_name name protocols 1.

Definition get_family_by_proto (proto : Z) : Z := match protocol_at proto with Some p => p_family p | None => 0 end.

Variables (fuel : nat) (old_kernel : bool).

Definition query (p : protocol) (inode : Z) : M K bool :=
  match p_get p with
  | unix_get => unix_send_query fuel old_kernel inode
  | inet_get => inet_send_query fuel (p_family p) (p_proto p)
  | netlink_get => netlink_send_query fuel
  end.

Definition parser_of (g : getter) (inode : Z) (name : string) (data : list Z) (data_len : Z) : M K Z :=
  match g with
  | unix_get => unix_parse_response data data_len inode name
  | inet_get => inet_parse_response data data_len inode name
  | netlink_get => netlink_parse data data_len inode name
  end.

(** [unix_get], [inet_get] and [netlink_get]. *)
Definition get_details (p : protocol) (inode : Z) : M K (option text) :=
  sent ← query p inode;
  if sent : bool then
    found ← receive_responses SOCK_DIAG_BY_FAMILY (parser_of (p_get p) inode (p_name p)) fuel;
    if found : bool then get_sockaddr_by_inode_cached inode else mret None
  else mret None.

Fixpoint try_protocols (l : list protocol) (inode : Z) : M K (option text) :=
  match l with
  | [] => mret None
  | p :: l' => d ← get_details p inode;
               match d with Some _ => mret d | None => try_protocols l' inode end
  end.

Definition NETLINK_SOCK_DIAG_PROTO : Z := 4.

Definition get_sockaddr_by_inode_lookup (inode proto : Z) : M K (option text) :=
  if negb (proto =? SOCK_PROTO_UNKNOWN) && match protocol_at proto with None => true | Some _ => false end then mret None
  else
    ok ← call (k_socket NETLINK_SOCK_DIAG_PROTO);
    if negb ok then mret None
    else
      details ← match protocol_at proto with
                | Some p => get_details p inode
                | None => try_protocols protocols inode
                end;
      call (fun k => (tt, k_close k));; mret details.

Definition get_sockaddr_by_inode_uncached (inode proto : Z) : M K (option text) :=
  details ← get_sockaddr_by_inode_lookup inode proto;
  match details with
  | Some _ => mret details
  | None => mret ((fun p => codes (p_name p) ++ codes ":[" ++ codes (pretty inode) ++ codes "]") <$> protocol_at proto)
  end.

(** [proto] is the protocol of the descriptor, as [getfdproto] says. *)
Definition get_sockaddr_by_inode (inode proto : Z) : M K (option text) :=
  details ← get_sockaddr_by_inode_cached inode;
  match details with Some _ => mret details | None => get_sockaddr_by_inode_uncached inode proto end.

(** ** The names of generic netlink families *)

(** [strncmp (a, b, n) == 0], where [a] ends with a NUL and [b] has [n] bytes. *)
Fixpoint strncmp_eq (n : nat) (a b : list Z) : bool :=
  match n, a, b with
  | O, _, _ => true
  | S n', x :: a', y :: b' => if x =? y then if x =? 0 then true else strncmp_eq n' a' b' else false
  | _, _, _ => false
  end.

(** [xstrndup]: the bytes before the first NUL, at most [n]. *)
Fixpoint xstrndup (n : nat) (s : list Z) : list Z :=
  match n, s with
  | S n', x :: s' => if x =? 0 then [] else x :: xstrndup n' s'
  | _, _ => []
  end.

(** The character [len] of a stored name is read in the block of the name, which
    has one byte more than the name. *)
Fixpoint dyxlat_add_pair (d : dyxlat) (val : Z) (str : list Z) (len : Z) : result dyxlat :=
  match d with
  | [] => Done [(val, xstrndup (Z.to_nat len) str)]
  | (v, s) :: d' =>
      if v =? val then
        if strncmp_eq (Z.to_nat len) (s ++ [0]) str then
          c ← rd (s ++ [0]) len 1;
          Done (if nthZ c 0 =? 0 then d else (v, xstrndup (Z.to_nat len) str) :: d')
        else Done ((v, xstrndup (Z.to_nat len) str) :: d')
      else d' ← dyxlat_add_pair d' val str len; Done ((v, s) :: d')
  end.

Definition text_string (l : list Z) : string := foldr (fun c s => String (ascii_of_nat (Z.to_nat c)) s) EmptyString l.
Definition dyxlat_get (d : dyxlat) : xlat := mk_xlat (map (fun x => mk_xd x.1 (Some (text_string x.2))) d) XT_NORMAL.

Definition GENL_ID_CTRL : Z := 16.
Definition CTRL_CMD_NEWFAMILY : Z := 1.
Definition CTRL_CMD_GETFAMILY : Z := 3.
Definition CTRL_ATTR_FAMILY_ID : Z := 1.
Definition CTRL_ATTR_FAMILY_NAME : Z := 2.

Definition genl_send_dump_families : M K bool :=
  send_query fuel (request GENL_ID_CTRL (Z.lor NLM_F_DUMP NLM_F_REQUEST) (word 1 CTRL_CMD_GETFAMILY ++ [0; 0; 0])).

(** The name and the id found since the last pair. *)
Definition genl_attr (type : Z) (payload : list Z) (acc : option (list Z) * option Z * dyxlat)
  : result (option (list Z) * option Z * dyxlat) :=
  let '(name, id, d) := acc in
  let name := if type =? CTRL_ATTR_FAMILY_NAME then match name with None => Some payload | Some _ => name end else name in
  id ← (if type =? CTRL_ATTR_FAMILY_ID then
          match id with
          | None => if lenZ payload =? 2 then v ← rd_value payload 0 2; Done (Some v) else Done None
          | Some _ => Done id
          end
        else Done id);
  match name, id with
  | Some n, Some i => d ← dyxlat_add_pair d i n (lenZ n); Done (None, None, d)
  | _, _ => Done (name, id, d)
  end.

Definition genl_parse_families_response (data : list Z) (data_len : Z) : M K Z :=
  let rta_len := sint 32 (data_len - NLMSG_LENGTH 4) in
  if rta_len <? 0 then mret (-1)
  else
    cmd ← lift (rd_value data 0 1);
    if negb (cmd =? CTRL_CMD_NEWFAMILY) then mret (-1)
    else
      version ← lift (rd_value data 1 1);
      if negb (version =? 2) then mret (-1)
      else
        s ← get_state;
        '(_, _, d) ← lift (rta_all genl_attr data 4 rta_len (None, None, default [] (families s)));
        put_state (set_families (Some d));; mret 0.

Definition NETLINK_GENERIC_PROTO : Z := 16.

Definition genl_families_xlat : M K xlat :=
  s ← get_state;
  match families s with
  | Some d => mret (dyxlat_get d)
  | None =>
      put_state (set_families (Some []));;
      ok ← call (k_socket NETLINK_GENERIC_PROTO);
      (if ok : bool then
         sent ← genl_send_dump_families;
         (if sent : bool then _ ← receive_responses GENL_ID_CTRL genl_parse_families_response fuel; mret tt else mret tt);;
         call (fun k => (tt, k_close k))
       else mret tt);;
      s ← get_state;
      mret (dyxlat_get (default [] (families s)))
  end.
End host.

(** ** Running without a read outside the message *)

(** [m] from [s] makes no read outside, and what it gives satisfies [Q]; it may run
    out of fuel. *)
Definition runs {K A} (m : M K A) (s : state K) (Q : A -> state K -> Prop) : Prop :=
  match m s with Done (a, s') => Q a s' | Stuck => False | NoFuel => True end.

Section runs.
Context {K : Type}.
Implicit Type s : state K.

Lemma runs_ret {A} (a : A) s (Q : A -> state K -> Prop) : Q a s -> runs (mret a) s Q.
Proof. done. Qed.
Lemma runs_bind {A B} (m : M K A) (f : A -> M K B) s Q : runs m s (fun a s' => runs (f a) s' Q) -> runs (m ≫= f) s Q.
Proof.
  unfold runs, mbind, M_bind, mbind, result_bind. by destruct (m s) as [[a s']| |].
Qed.
Lemma runs_lift {A} (r : result A) s Q : match r with Done a => Q a s | Stuck => False | NoFuel => True end -> runs (lift r) s Q.
Proof. unfold runs, lift, mbind, result_bind. by destruct r. Qed.
Lemma runs_call {A} (f : K -> A * K) s Q : (forall a k, f (kern s) = (a, k) -> Q a (set_kern k s)) -> runs (call f) s Q.
Proof. intros H. unfold runs, call. destruct (f (kern s)) as [a k] eqn:E. by apply H. Qed.
Lemma runs_get s Q : Q s s -> runs get_state s Q.
Proof. done. Qed.
Lemma runs_put f s (Q : unit -> state K -> Prop) : Q tt (f s) -> runs (put_state f) s Q.
Proof. done. Qed.
Lemma runs_impl {A} (m : M K A) s (Q Q' : A -> state K -> Prop) : runs m s Q -> (forall a s', Q a s' -> Q' a s') -> runs m s Q'.
Proof. unfold runs. destruct (m s) as [[a s']| |]; auto. Qed.
Lemma runs_if {A} (b : bool) (m n : M K A) s Q : (b = true -> runs m s Q) -> (b = false -> runs n s Q) -> runs (if b then m else n) s Q.
Proof. by destruct b; auto. Qed.
End runs.

Lemma rd_done (b : list Z) o n : 0 <= o -> 0 <= n -> o + n <= lenZ b -> rd b o n = Done (take (Z.to_nat n) (drop (Z.to_nat o) b)).
Proof. intros Ho Hn Hl. unfold rd. by rewrite (proj2 (Z.leb_le 0 o)), (proj2 (Z.leb_le 0 n)), (proj2 (Z.leb_le _ _)) by lia. Qed.

Lemma rd_length (b : list Z) o n : 0 <= o -> 0 <= n -> o + n <= lenZ b -> lenZ (take (Z.to_nat n) (drop (Z.to_nat o) b)) = n.
Proof. intros Ho Hn Hl. unfold lenZ in *. rewrite length_take, length_drop. lia. Qed.

Section attrs.
Variable be : bool.

Lemma rd_value_done (b : list Z) o n : 0 <= o -> 0 <= n -> o + n <= lenZ b -> exists v, rd_value be b o n = Done v.
Proof. intros Ho Hn Hl. unfold rd_value. rewrite rd_done by done. by eexists. Qed.

Lemma RTA_ALIGN_spec n : 0 <= n < 2 ^ 32 - 3 -> n <= RTA_ALIGN n <= n + 3.
Proof. apply NLA_ALIGN_spec. Qed.

(** The loop over attributes ends and stays inside the message. *)
Lemma rta_loop_safe {A} (Inv : A -> Prop) (step : Z -> list Z -> A -> result A) b :
  (forall type payload acc, Inv acc -> exists acc', step type payload acc = Done acc' /\ Inv acc') ->
  forall fuel off rta_len acc, Inv acc -> 0 <= off -> off + rta_len <= lenZ b -> - 2 ^ 31 <= rta_len < 2 ^ 31 ->
  rta_len < Z.of_nat fuel -> (0 < fuel)%nat ->
  exists acc', rta_loop be fuel step b off rta_len acc = Done acc' /\ Inv acc'.
Proof.
  intros Hstep. induction fuel as [|fuel IH]; intros off rta_len acc HI Ho Hl Hr Hf H0; [lia|]. cbn [rta_loop].
  destruct (Z.ltb_spec rta_len 4); [by exists acc|].
  destruct (rd_value_done b off 2) as [len ->]; [lia..|]. cbn [mbind result_bind].
  destruct (_ && _) eqn:Ec; [|by exists acc]. apply andb_true_iff in Ec as [H4%Z.leb_le Hle%Z.leb_le].
  destruct (rd_value_done b (off + 2) 2) as [type ->]; [lia..|]. cbn [mbind result_bind].
  rewrite rd_done by lia. cbn [mbind result_bind].
  destruct (Hstep type (take (Z.to_nat (len - 4)) (drop (Z.to_nat (off + 4)) b)) acc HI) as (acc1 & -> & H1). cbn [mbind result_bind].
  pose proof (RTA_ALIGN_spec len ltac:(lia)). rewrite sint_small by lia. apply IH; try done; try lia.
Qed.

Lemma rta_all_safe {A} (Inv : A -> Prop) (step : Z -> list Z -> A -> result A) b off rta_len acc :
  (forall type payload acc, Inv acc -> exists acc', step type payload acc = Done acc' /\ Inv acc') ->
  Inv acc -> 0 <= off -> 0 <= rta_len < 2 ^ 31 -> off + rta_len <= lenZ b ->
  exists acc', rta_all be step b off rta_len acc = Done acc' /\ Inv acc'.
Proof. intros Hs HI Ho Hr Hl. unfold rta_all. apply (rta_loop_safe Inv); try done; lia. Qed.
End attrs.

(** ** The cache *)

(** Every entry that holds something is in the slot of its inode. *)
Definition cache_wf (c : list cache_entry) : Prop :=
  lenZ c = CACHE_SIZE /\ forall i ino d, c !! i = Some (ino, Some d) -> slot ino = i.

Lemma slot_range inode : 0 <= inode -> (slot inode < 1024)%nat.
Proof.
  intros Hi. unfold slot, CACHE_MASK, CACHE_SIZE. change (1024 - 1) with (Z.ones 10). rewrite Z.land_ones by lia.
  pose proof (Z.mod_pos_bound inode (2 ^ 10) ltac:(lia)). lia.
Qed.

(** From [c] to [c'] nothing changed but the slot of [inode], which if it changed
    holds details of this inode. *)
Definition only_slot (inode : Z) (c c' : list cache_entry) : Prop :=
  c' = c \/ exists d, c' = <[slot inode := (inode, Some d)]> c.

Lemma only_slot_trans inode c1 c2 c3 : only_slot inode c1 c2 -> only_slot inode c2 c3 -> only_slot inode c1 c3.
Proof.
  intros [->|[d ->]] [->|[d' ->]]; [by left|right; by exists d'|right; by exists d|].
  right. exists d'. apply list_insert_insert_eq.
Qed.

Lemma only_slot_wf inode c c' : 0 <= inode -> cache_wf c -> only_slot inode c c' -> cache_wf c'.
Proof.
  intros Hi [Hl Hs] [->|[d ->]]; [done|]. split; [unfold lenZ in *; by rewrite length_insert|].
  intros i ino d' E. destruct (decide (i = slot inode)) as [->|Hne].
  - rewrite list_lookup_insert_eq in E; [by injection E as <- _|]. pose proof (slot_range inode Hi). unfold lenZ, CACHE_SIZE, cache_entry in *. lia.
  - rewrite list_lookup_insert_ne in E by done. by apply (Hs i ino d').
Qed.

Definition touches {K} (inode : Z) (s s' : state K) : Prop :=
  only_slot inode (cache s) (cache s') /\ families s' = families s.

Lemma touches_refl {K} inode (s : state K) : touches inode s s.
Proof. split; [by left|done]. Qed.
Lemma touches_trans {K} inode (s1 s2 s3 : state K) : touches inode s1 s2 -> touches inode s2 s3 -> touches inode s1 s3.
Proof. intros [H1 H2] [H3 H4]. split; [by eapply only_slot_trans|congruence]. Qed.
Lemma touches_kern {K} inode k (s : state K) : touches inode s (set_kern k s).
Proof. split; [by left|done]. Qed.
#[export] Hint Resolve touches_refl touches_kern : core.

(** What the cache says of an inode. *)
Definition cached {K} (s : state K) (inode : Z) : option text :=
  let '(i, d) := nth (slot inode) (cache s) (0, None) in if inode =? i then d else None.

Lemma runs_cached {K} inode (s : state K) (Q : option text -> state K -> Prop) :
  Q (cached s inode) s -> runs (get_sockaddr_by_inode_cached inode) s Q.
Proof.
  intros H. unfold get_sockaddr_by_inode_cached. apply runs_bind, runs_get. unfold cached in H.
  by destruct (nth _ _ _) as [i d].
Qed.

Lemma runs_cache_inode {K} inode details (s : state K) (Q : Z -> state K -> Prop) :
  (forall s', touches inode s s' -> Q 1 s') -> runs (cache_inode_details inode details) s Q.
Proof.
  intros H. unfold cache_inode_details. apply runs_bind, runs_put, runs_ret, H. split; [|done]. right. by exists details.
Qed.

(** ** Answers *)

Section answers.
Variables (be : bool) (inet_ntop : Z -> list Z -> option text) (xflag : Z).
Context {K : Type} {NS : NetlinkSocket K}.

(** A message of [n] bytes can be parsed: only the slot of the inode changes. *)
Definition parses (inode : Z) (parser : list Z -> Z -> M K Z) : Prop :=
  forall data n s, 16 <= n <= 8192 -> lenZ data = n - 16 -> runs (parser data n) s (fun _ s' => touches inode s s').

Ltac read_value :=
  apply runs_bind, runs_lift;
  match goal with |- context [rd_value ?b ?d ?o ?n] => let v := fresh "v" in destruct (rd_value_done b d o n) as [v ->]; [lia..|] end.
Ltac checked := apply runs_if; intros ?; [by apply runs_ret|].

Lemma inet_parses inode name : parses inode (fun data n => inet_parse_response be inet_ntop data n inode name).
Proof.
  intros data n s Hn Hl. unfold inet_parse_response, NLMSG_LENGTH, INET_DIAG_MSG.
  destruct (Z.ltb_spec n (72 + 16)); [by apply runs_ret|]. read_value. checked. read_value. checked.
  set (size := if v0 =? AF_INET then 4 else 16). assert (Hs : 0 <= size <= 16) by (unfold size; destruct (v0 =? AF_INET); lia).
  apply runs_bind, runs_lift. rewrite rd_done by lia. destruct (inet_ntop v0 _) as [src|]; [|by apply runs_ret].
  read_value. read_value. apply runs_bind, runs_lift. rewrite rd_done by lia.
  apply runs_if; intros _; [|by apply runs_cache_inode]. destruct (inet_ntop v0 _); [by apply runs_cache_inode|by apply runs_ret].
Qed.

Lemma unix_attr_done type payload acc : exists acc', unix_attr be type payload acc = Done acc' /\ True.
Proof.
  destruct acc as [path peer]. unfold unix_attr. destruct (type =? UNIX_DIAG_NAME); [destruct (lenZ path =? 0); by eexists|].
  destruct (type =? UNIX_DIAG_PEER); [|by eexists]. destruct (Z.leb_spec 4 (lenZ payload)); [|by eexists].
  destruct (rd_value_done be payload 0 4) as [v ->]; [lia..|]. by eexists.
Qed.

Lemma unix_parses inode name : parses inode (fun data n => unix_parse_response be xflag data n inode name).
Proof.
  intros data n s Hn Hl. unfold unix_parse_response, NLMSG_LENGTH. rewrite sint_small by lia.
  destruct (Z.ltb_spec (n - (16 + 16)) 0); [by apply runs_ret|]. read_value. checked. read_value. checked.
  apply runs_bind, runs_lift.
  destruct (rta_all_safe be (fun _ => True) (unix_attr be) data 16 (n - (16 + 16)) ([], 0)) as ([path peer] & -> & _); try done; try lia.
  { intros type payload acc _. apply unix_attr_done. }
  apply runs_if; intros _; [by apply runs_ret|by apply runs_cache_inode].
Qed.

Lemma netlink_parses inode name : parses inode (fun data n => netlink_parse be data n inode name).
Proof.
  intros data n s Hn Hl. unfold netlink_parse, NLMSG_LENGTH. destruct (Z.ltb_spec n (28 + 16)); [by apply runs_ret|].
  do 4 read_value. destruct (netlink_parse_response _ _ _ _ _) as [[d|]|]; [by apply runs_cache_inode|by apply runs_ret..].
Qed.

Lemma nlmsg_ok_done b off len : 0 <= off -> off + len <= lenZ b ->
  exists r, is_nlmsg_ok be b off len = Done r /\ match r with Some n => 16 <= n <= len | None => True end.
Proof.
  intros Ho Hl. unfold is_nlmsg_ok. destruct (Z.ltb_spec len 16); [by eexists|].
  destruct (rd_value_done be b off 4) as [n ->]; [lia..|]. cbn [mbind result_bind]. eexists. split; [done|].
  destruct (_ && _) eqn:E; [|done]. apply andb_true_iff in E as [?%Z.leb_le ?%Z.leb_le]. lia.
Qed.

(** What keeps a relation between states through every message. *)
Section messages.
Variables (R : state K -> state K -> Prop) (type : Z) (parser : list Z -> Z -> M K Z).
Hypothesis R_refl : forall s, R s s.
Hypothesis R_trans : forall s1 s2 s3, R s1 s2 -> R s2 s3 -> R s1 s3.
Hypothesis R_kern : forall k s, R s (set_kern k s).
Hypothesis parser_ok : forall data n s, 16 <= n <= 8192 -> lenZ data = n - 16 -> runs (parser data n) s (fun _ s' => R s s').

Lemma parse_messages_ok fuel b off ret s : lenZ b <= 8192 -> 0 <= off -> off + ret <= lenZ b ->
  runs (parse_messages be type parser fuel b off ret) s (fun _ s' => R s s').
Proof.
  intros Hb. revert off ret s. induction fuel as [|fuel IH]; intros off ret s Ho Hl; [done|]. cbn [parse_messages].
  apply runs_bind, runs_lift. destruct (nlmsg_ok_done b off ret Ho Hl) as (r & -> & Hr). destruct r as [n|]; [|by apply runs_ret].
  apply runs_bind, runs_lift. destruct (rd_value_done be b (off + 4) 2) as [ty ->]; [lia..|].
  apply runs_if; intros _; [by apply runs_ret|]. apply runs_bind, runs_lift. rewrite rd_done by lia.
  eapply runs_bind, runs_impl; [apply parser_ok; [lia|apply rd_length; lia]|]. cbn beta. intros rc s' Hs.
  apply runs_if; intros _; [by apply runs_ret|]. apply runs_if; intros _; [by apply runs_ret|].
  pose proof (NLA_ALIGN_spec n ltac:(lia)). change (NLA_ALIGN n) with (NLMSG_ALIGN n) in *.
  eapply runs_impl; [apply IH; lia|]. intros r s'' H''. by eapply R_trans.
Qed.

Lemma receive_ok {SL : SocketLaws K NS} fuel s : runs (receive_responses be type parser fuel) s (fun _ s' => R s s').
Proof.
  unfold receive_responses. generalize 0 as flags. revert s. induction fuel as [|fuel IH]; intros s flags; [done|]. cbn [receive_loop].
  assert (Hk : forall k s', R (set_kern k s) s' -> R s s') by (intros k s' H; eapply R_trans; [apply R_kern|exact H]).
  apply runs_bind, runs_call. intros r k Er. destruct r as [b| |]; [|eapply runs_impl; [apply IH|intros r s'; apply Hk]|by apply runs_ret].
  apply recv_fits in Er. apply runs_bind, runs_lift. destruct (nlmsg_ok_done b 0 (lenZ b)) as (first & -> & _); [lia..|].
  destruct first as [n|]; [|by apply runs_ret]. eapply runs_bind, runs_impl; [apply parse_messages_ok; lia|]. cbn beta.
  intros r s' Hs. destruct r as [found|]; [apply runs_ret; by apply Hk in Hs|].
  eapply runs_impl; [apply IH|]. intros r s'' H. apply (Hk k). by eapply R_trans.
Qed.
End messages.

Context {SL : SocketLaws K NS}.
Variables (fuel : nat) (old_kernel : bool).

Lemma send_ok (R : state K -> state K -> Prop) n req s : (forall s, R s s) -> (forall k s s', R (set_kern k s) s' -> R s s') ->
  runs (send_query n req) s (fun _ s' => R s s').
Proof.
  intros Hr Ht. revert s. induction n as [|n IH]; intros s; [done|]. cbn [send_query]. apply runs_bind, runs_call. intros r k _.
  destruct r; [apply runs_ret, (Ht k), Hr|eapply runs_impl; [apply IH|intros r s'; apply Ht]|apply runs_ret, (Ht k), Hr].
Qed.

Lemma touches_kern_l inode k (s s' : state K) : touches inode (set_kern k s) s' -> touches inode s s'.
Proof. done. Qed.

Lemma get_details_ok p inode s :
  runs (get_details be inet_ntop xflag fuel old_kernel p inode) s (fun _ s' => touches inode s s').
Proof.
  unfold get_details. apply runs_bind.
  apply runs_impl with (Q := fun _ s' => touches inode s s').
  { unfold query. destruct (p_get p); apply send_ok; try done; intros; by eapply touches_kern_l. }
  intros snt s1 H1. apply runs_if; intros _; [|by apply runs_ret]. apply runs_bind.
  apply runs_impl with (Q := fun _ s' => touches inode s1 s').
  { apply receive_ok; [done|apply touches_trans|done| |exact SL].
    unfold parser_of. destruct (p_get p); [apply unix_parses|apply inet_parses|apply netlink_parses]. }
  intros found s2 H2. apply runs_if; intros _; [apply runs_cached|apply runs_ret]; by eapply touches_trans.
Qed.

Lemma try_protocols_ok l inode s :
  runs (try_protocols be inet_ntop xflag fuel old_kernel l inode) s (fun _ s' => touches inode s s').
Proof.
  revert s. induction l as [|p l IH]; intros s; [by apply runs_ret|]. cbn [try_protocols].
  eapply runs_bind, runs_impl; [apply get_details_ok|]. cbn beta. intros d s' Hs. destruct d; [by apply runs_ret|].
  eapply runs_impl; [apply IH|]. intros ? ? H. by eapply touches_trans.
Qed.

Lemma lookup_ok inode proto s :
  runs (get_sockaddr_by_inode_lookup be inet_ntop xflag fuel old_kernel inode proto) s (fun _ s' => touches inode s s').
Proof.
  unfold get_sockaddr_by_inode_lookup. apply runs_if; intros _; [by apply runs_ret|]. apply runs_bind, runs_call. intros ok k _.
  apply runs_if; intros _; [by apply runs_ret|]. apply runs_bind.
  apply runs_impl with (Q := fun _ s' => touches inode s s').
  { eapply runs_impl; [destruct (protocol_at proto); [apply get_details_ok|apply try_protocols_ok]|].
    intros r s'. apply touches_kern_l. }
  intros d s' Hs. apply runs_bind, runs_call. intros [] k' _. apply runs_ret. by eapply touches_trans.
Qed.

Lemma get_sockaddr_ok inode proto s :
  runs (get_sockaddr_by_inode be inet_ntop xflag fuel old_kernel inode proto) s (fun _ s' => touches inode s s').
Proof.
  unfold get_sockaddr_by_inode, get_sockaddr_by_inode_uncached. apply runs_bind, runs_cached.
  destruct (cached s inode); [by apply runs_ret|]. eapply runs_bind, runs_impl; [apply lookup_ok|]. cbn beta.
  intros d s' Hs. by destruct d; apply runs_ret.
Qed.
End answers.

(** ** Answers as the kernel writes them *)

Fixpoint fold_attrs {A} (step : Z -> list Z -> A -> result A) (l : list attr) (acc : A) : result A :=
  match l with
  | [] => Done acc
  | x :: l' => acc ← step x.1 x.2 acc; fold_attrs step l' acc
  end.

Lemma rd_mid pre mid post o n : lenZ pre = o -> lenZ mid = n -> rd (pre ++ mid ++ post) o n = Done mid.
Proof.
  intros Ho Hn. len_facts. pose proof (lenZ_nonneg pre). pose proof (lenZ_nonneg mid). pose proof (lenZ_nonneg post).
  rewrite rd_done by (rewrite ?lenZ_app; lia). f_equal. subst o n. unfold lenZ. rewrite !Nat2Z.id, drop_app_length. apply take_app_length.
Qed.

Lemma rd_value_mid be pre post o (n : nat) k v : lenZ pre = o -> k = Z.of_nat n -> 0 <= v < 2 ^ (8 * k) ->
  rd_value be (pre ++ word_bytes be n v ++ post) o k = Done v.
Proof.
  intros Ho -> Hv. replace (2 ^ (8 * Z.of_nat n)) with (256 ^ Z.of_nat n) in Hv by (change 256 with (2 ^ 8); rewrite <- Z.pow_mul_r by lia; done). unfold rd_value. rewrite (rd_mid pre _ post o) by (done || unfold lenZ; by rewrite word_bytes_length).
  cbn [mbind result_bind]. by rewrite word_value_bytes.
Qed.

Lemma rta_loop_encoded {A} be (step : Z -> list Z -> A -> result A) l :
  Forall attr_ok l -> forall fuel pre acc, lenZ (encode be l) < Z.of_nat fuel -> lenZ (encode be l) < 2 ^ 31 ->
  rta_loop be fuel step (pre ++ encode be l) (lenZ pre) (lenZ (encode be l)) acc = fold_attrs step l acc.
Proof.
  induction 1 as [|x l Hx Hl IH]; intros fuel pre acc Hf H31.
  { change (lenZ (encode be [])) with 0 in *. destruct fuel; [lia|done]. }
  assert (Ee : encode be (x :: l) = encode_attr be x ++ encode be l) by done.
  pose proof (encode_attr_length be x Hx) as Hxl. destruct (attr_encoded be x Hx) as [_ _ Hlen Hal]. cbn in Hlen, Hal.
  rewrite Ee in *. rewrite lenZ_app in *. pose proof (lenZ_nonneg (encode be l)). destruct fuel as [|fuel]; [lia|].
  cbn [rta_loop fold_attrs]. unfold NLA_HDRLEN in Hlen. rewrite (proj2 (Z.ltb_ge _ 4)) by lia.
  destruct Hx as [Ht Hn]. assert (Hal16 : attr_len x < 2 ^ 16) by (unfold attr_len; lia).
  assert (Hw : forall v, lenZ (word_bytes be 2 v) = 2) by (intros; unfold lenZ; by rewrite word_bytes_length).
  assert (R1 : rd_value be (pre ++ encode_attr be x ++ encode be l) (lenZ pre) 2 = Done (attr_len x)).
  { unfold encode_attr. rewrite <- !app_assoc. apply rd_value_mid; done || lia. }
  assert (R2 : rd_value be (pre ++ encode_attr be x ++ encode be l) (lenZ pre + 2) 2 = Done x.1).
  { unfold encode_attr. rewrite <- !app_assoc, (app_assoc pre). apply rd_value_mid; rewrite ?lenZ_app, ?Hw; done || lia. }
  assert (R3 : rd (pre ++ encode_attr be x ++ encode be l) (lenZ pre + 4) (attr_len x - 4) = Done x.2).
  { unfold encode_attr. rewrite <- !app_assoc, (app_assoc pre), (app_assoc (pre ++ _)).
    apply rd_mid; rewrite ?lenZ_app, ?Hw; unfold attr_len; lia. }
  pose proof (NLA_ALIGN_spec (attr_len x) ltac:(lia)) as Hna. rewrite R1. cbn [mbind result_bind].
  rewrite (proj2 (Z.leb_le 4 _)), (proj2 (Z.leb_le (attr_len x) _)) by lia. cbn [andb].
  rewrite R2. cbn [mbind result_bind]. rewrite R3. cbn [mbind result_bind].
  destruct (step x.1 x.2 acc) as [acc'| |]; [|done|done]. cbn [mbind result_bind].
  change (RTA_ALIGN (attr_len x)) with (NLA_ALIGN (attr_len x)). rewrite <- Hxl, sint_small by lia.
  replace (lenZ (encode_attr be x) + lenZ (encode be l) - lenZ (encode_attr be x)) with (lenZ (encode be l)) by lia.
  rewrite (app_assoc pre).
  replace (lenZ pre + lenZ (encode_attr be x)) with (lenZ (pre ++ encode_attr be x)) by (by rewrite lenZ_app).
  apply IH; lia.
Qed.

Lemma rta_all_encoded {A} be (step : Z -> list Z -> A -> result A) l pre off n acc :
  Forall attr_ok l -> lenZ pre = off -> lenZ (encode be l) = n -> n < 2 ^ 31 ->
  rta_all be step (pre ++ encode be l) off n acc = fold_attrs step l acc.
Proof. intros Hl <- <- Hn. unfold rta_all. apply rta_loop_encoded; try done. len_facts. lia. Qed.

(** The messages of an answer one after another. *)
Section answer.
Context {K : Type}.
Variables (be : bool) (type : Z) (parser : list Z -> Z -> M K Z).

Fixpoint answer (l : list msg) : M K (option bool) :=
  match l with
  | [] => mret None
  | x :: l' =>
      if negb (m_type x =? type) then mret (Some false)
      else rc ← parser (m_payload x) (msg_len x);
           if 0 <? rc then mret (Some true) else if rc <? 0 then mret (Some false) else answer l'
  end.

Lemma nlmsg_ok_encoded x pre post : msg_ok x ->
  is_nlmsg_ok be (pre ++ encode_msg be x ++ post) (lenZ pre) (lenZ (encode_msg be x ++ post)) = Done (Some (msg_len x)).
Proof.
  intros Hx. pose proof (msg_len_align x Hx). pose proof (lenZ_nonneg post). unfold is_nlmsg_ok.
  rewrite lenZ_app, encode_msg_length by done. rewrite (proj2 (Z.ltb_ge _ 16)) by lia.
  assert (R : rd_value be (pre ++ encode_msg be x ++ post) (lenZ pre) 4 = Done (msg_len x)).
  { unfold encode_msg, encode_hdr. rewrite <- !app_assoc. pose proof (ok_len x Hx). apply rd_value_mid; done || lia. }
  rewrite R. cbn [mbind result_bind]. by rewrite (proj2 (Z.leb_le 16 _)), (proj2 (Z.leb_le (msg_len x) _)) by lia.
Qed.

Lemma parse_messages_encoded l : Forall msg_ok l -> forall fuel pre s, lenZ (encode_msgs be l) < Z.of_nat fuel ->
  parse_messages be type parser fuel (pre ++ encode_msgs be l) (lenZ pre) (lenZ (encode_msgs be l)) s = answer l s.
Proof.
  induction 1 as [|x l Hx Hl IH]; intros fuel pre s Hf.
  { change (lenZ (encode_msgs be [])) with 0 in *. destruct fuel; [lia|done]. }
  assert (Ee : encode_msgs be (x :: l) = encode_msg be x ++ encode_msgs be l) by done.
  pose proof (encode_msg_length be x Hx) as Hxl. pose proof (msg_len_align x Hx) as Hal.
  rewrite Ee in *. pose proof (lenZ_nonneg (encode_msgs be l)). destruct fuel as [|fuel]; [rewrite lenZ_app in Hf; lia|].
  cbn [parse_messages answer]. rewrite nlmsg_ok_encoded by done. unfold mbind, M_bind, lift. cbn [mbind result_bind mret result_ret].
  assert (R1 : rd_value be (pre ++ encode_msg be x ++ encode_msgs be l) (lenZ pre + 4) 2 = Done (m_type x)).
  { unfold encode_msg, encode_hdr. rewrite <- !app_assoc, (app_assoc pre). pose proof (ok_type x Hx).
    apply rd_value_mid; [|done|lia]. rewrite lenZ_app. unfold lenZ. rewrite word_bytes_length. lia. }
  assert (R2 : rd (pre ++ encode_msg be x ++ encode_msgs be l) (lenZ pre + 16) (msg_len x - 16) = Done (m_payload x)).
  { unfold encode_msg. rewrite <- !app_assoc, (app_assoc pre). apply rd_mid; [|unfold msg_len; lia].
    rewrite lenZ_app. unfold lenZ. rewrite encode_hdr_length. lia. }
  rewrite R1. cbn [mbind result_bind]. destruct (negb (m_type x =? type)); [done|]. rewrite R2. cbn [mbind result_bind].
  destruct (parser (m_payload x) (msg_len x) s) as [[rc s']| |]; [|done|done]. cbn [mbind result_bind].
  destruct (0 <? rc); [done|]. destruct (rc <? 0); [done|]. rewrite lenZ_app, <- Hxl.
  replace (lenZ (encode_msg be x) + lenZ (encode_msgs be l) - lenZ (encode_msg be x)) with (lenZ (encode_msgs be l)) by lia.
  rewrite (app_assoc pre). replace (lenZ pre + lenZ (encode_msg be x)) with (lenZ (pre ++ encode_msg be x)) by (by rewrite lenZ_app).
  apply IH. rewrite lenZ_app in Hf. lia.
Qed.

Context {NS : NetlinkSocket K}.

(** An answer that comes next, and what is left to receive. *)
Lemma receive_loop_answer fuel flags l s k : k_recv flags (kern s) = (Recv (encode_msgs be l), k) -> Forall msg_ok l -> l <> [] ->
  receive_loop be type parser (S fuel) flags s =
    match answer l (set_kern k s) with
    | Done (Some found, s') => Done (found, s')
    | Done (None, s') => receive_loop be type parser fuel MSG_DONTWAIT s'
    | Stuck => Stuck
    | NoFuel => NoFuel
    end.
Proof.
  intros Hk Hl Hne. destruct l as [|x l]; [done|]. cbn [receive_loop]. unfold mbind at 1, M_bind at 1, call. rewrite Hk. cbn [mbind result_bind].
  unfold mbind at 1, M_bind at 1, lift at 1. inversion Hl as [|? ? Hx Hl']; subst.
  pose proof (nlmsg_ok_encoded x [] (encode_msgs be l) Hx) as Hok. cbn [app] in Hok. change (lenZ (@nil Z)) with 0 in Hok.
  assert (Ee : encode_msgs be (x :: l) = encode_msg be x ++ encode_msgs be l) by done. rewrite <- Ee in Hok. rewrite Hok. cbn [mbind result_bind].
  unfold mbind at 1, M_bind at 1. pose proof (parse_messages_encoded (x :: l) Hl (S (length (encode_msgs be (x :: l)))) [] (set_kern k s)) as Hp.
  cbn [app] in Hp. change (lenZ (@nil Z)) with 0 in Hp. rewrite Hp by (unfold lenZ; lia).
  destruct (answer (x :: l) (set_kern k s)) as [[[found|] s']| |]; done.
Qed.
End answer.

(** *** Unix sockets *)

Section unix.
Variables (be : bool) (inet_ntop : Z -> list Z -> option text) (xflag : Z).

(** The name is that of the first attribute that has one, cut to the length of a
    path; the peer is that of the last attribute with one. *)
Fixpoint unix_name (l : list attr) : list Z :=
  match l with
  | [] => []
  | x :: l' => if (x.1 =? UNIX_DIAG_NAME) && (0 <? lenZ x.2) then take (Z.to_nat UNIX_PATH_MAX) x.2 else unix_name l'
  end.
Fixpoint unix_peer (l : list attr) (peer : Z) : Z :=
  match l with
  | [] => peer
  | x :: l' => unix_peer l' (if (x.1 =? UNIX_DIAG_PEER) && (4 <=? lenZ x.2) then word_value be (take 4 x.2) else peer)
  end.

Lemma fold_unix l path peer :
  fold_attrs (unix_attr be) l (path, peer) = Done (if lenZ path =? 0 then unix_name l else path, unix_peer l peer).
Proof.
  revert path peer. induction l as [|x l IH]; intros path peer.
  { cbn. destruct (Z.eqb_spec (lenZ path) 0); [|done]. by destruct path. }
  cbn [fold_attrs unix_name unix_peer unix_attr]. destruct (Z.eqb_spec x.1 UNIX_DIAG_NAME) as [->|Hn].
  - change (UNIX_DIAG_NAME =? UNIX_DIAG_PEER) with false. cbn [andb].
    destruct (Z.eqb_spec (lenZ path) 0) as [Hp|Hp]; cbn [mbind result_bind]; rewrite IH; [|by rewrite (proj2 (Z.eqb_neq _ _) Hp)].
    len_facts. f_equal. f_equal. assert (Hm : take (Z.to_nat (Z.min (lenZ x.2) UNIX_PATH_MAX)) x.2 = take (Z.to_nat UNIX_PATH_MAX) x.2).
    { destruct (Z.le_ge_cases (lenZ x.2) UNIX_PATH_MAX); [|f_equal; lia]. rewrite !take_ge by (unfold lenZ in *; lia). done. }
    rewrite Hm. unfold lenZ at 1. rewrite length_take. unfold lenZ, UNIX_PATH_MAX in *.
    destruct (Z.ltb_spec 0 (Z.of_nat (length x.2))); [by rewrite (proj2 (Z.eqb_neq _ _)) by lia|by rewrite (proj2 (Z.eqb_eq _ _)) by lia].
  - cbn [andb]. destruct (x.1 =? UNIX_DIAG_PEER); cbn [andb]; [|cbn [mbind result_bind]; apply IH].
    destruct (Z.leb_spec 4 (lenZ x.2)); [|cbn [mbind result_bind]; apply IH].
    unfold rd_value. rewrite rd_done by lia. cbn [mbind result_bind]. apply IH.
Qed.

(** The text of a path and its NUL fit the buffer of [4 * path_len + 4] bytes. *)
Lemma unix_path_fits path : 0 < lenZ path <= UNIX_PATH_MAX -> lenZ (unix_path_text xflag path) + 1 <= 4 * lenZ path + 4.
Proof.
  intros Hp. unfold UNIX_PATH_MAX in Hp.
  assert (Hq : forall s n, 0 <= n <= 108 -> lenZ (quoted_path xflag s n) <= 4 * n + 2).
  { intros s n Hn. unfold quoted_path.
    pose proof (string_quote_length (hexstr_style xflag QUOTE_0_TERMINATED) QUOTE_0_TERMINATED None (s ++ [0]) n ltac:(lia) ltac:(lia)) as H.
    unfold quote_alloc_size in H. rewrite uint_small in H by (unfold in_uint; lia).
    change (if has QUOTE_0_TERMINATED QUOTE_OMIT_LEADING_TRAILING_QUOTES then 0 else 2) with 2 in H.
    change (if has QUOTE_0_TERMINATED QUOTE_EMIT_COMMENT then 7 else 0) with 0 in H. lia. }
  destruct path as [|c name]; [change (lenZ (@nil Z)) with 0 in Hp; lia|]. unfold unix_path_text. rewrite lenZ_app. change (lenZ (codes ",")) with 1.
  destruct (c =? 0).
  - rewrite lenZ_app. change (lenZ (codes "@")) with 1. pose proof (Hq name (lenZ (c :: name) - 1) ltac:(lia)). lia.
  - pose proof (Hq (c :: name) (lenZ (c :: name)) ltac:(lia)). lia.
Qed.

(** An answer about a socket: type and state, inode, cookie, attributes. *)
Definition encode_unix (type sstate ino : Z) (cookie : list Z) (attrs : list attr) : list Z :=
  ([AF_UNIX; type; sstate; 0] ++ word_bytes be 4 ino ++ cookie) ++ encode be attrs.

Context {K : Type} {NS : NetlinkSocket K}.

Lemma unix_parse_encoded type sstate ino cookie attrs inode name (s : state K) :
  0 <= ino < 2 ^ 32 -> lenZ cookie = 8 -> Forall attr_ok attrs -> lenZ (encode be attrs) < 2 ^ 31 - 16 ->
  let data := encode_unix type sstate ino cookie attrs in
  unix_parse_response be xflag data (16 + lenZ data) inode name s =
    if negb (ino =? inode) then Done (0, s)
    else if (unix_peer attrs 0 =? 0) && (lenZ (unix_name attrs) =? 0) then Done (-1, s)
    else cache_inode_details inode (unix_details xflag name inode (unix_name attrs) (unix_peer attrs 0)) s.
Proof.
  intros Hi Hc Ha Hl data. pose proof (lenZ_nonneg (encode be attrs)).
  assert (Hpre : lenZ ([AF_UNIX; type; sstate; 0] ++ word_bytes be 4 ino ++ cookie) = 16).
  { rewrite !lenZ_app, Hc. unfold lenZ. rewrite word_bytes_length. done. }
  assert (Hd : lenZ data = 16 + lenZ (encode be attrs)) by (unfold data, encode_unix; rewrite lenZ_app, Hpre; lia).
  unfold unix_parse_response, NLMSG_LENGTH. rewrite Hd, sint_small by lia.
  replace (16 + (16 + lenZ (encode be attrs)) - (16 + 16)) with (lenZ (encode be attrs)) by lia.
  rewrite (proj2 (Z.ltb_ge _ 0)) by lia.
  assert (R1 : rd_value be data 4 4 = Done ino).
  { unfold data, encode_unix. rewrite <- !app_assoc. apply rd_value_mid; done || lia. }
  assert (R2 : rd_value be data 0 1 = Done AF_UNIX).
  { unfold rd_value. rewrite rd_done by lia. unfold data, encode_unix. cbn. by destruct be. }
  unfold mbind, M_bind, lift. rewrite R1. cbn [mbind result_bind mret M_ret result_ret]. destruct (negb (ino =? inode)); [done|].
  rewrite R2. cbn [mbind result_bind]. change (negb (AF_UNIX =? AF_UNIX)) with false. cbv iota.
  unfold data, encode_unix. rewrite rta_all_encoded by (done || lia). rewrite fold_unix. cbn [mbind result_bind].
  change (lenZ (@nil Z) =? 0) with true. cbv iota. by destruct (_ && _).
Qed.

Record sock := mk_sock { s_type : Z; s_state : Z; s_ino : Z; s_cookie : list Z; s_attrs : list attr }.
Record sock_ok (x : sock) : Prop := {
  so_ino : 0 <= s_ino x < 2 ^ 32; so_cookie : lenZ (s_cookie x) = 8; so_attrs : Forall attr_ok (s_attrs x);
  so_len : lenZ (encode be (s_attrs x)) < 2 ^ 31 - 16 }.
Definition sock_msg (x : sock) : msg :=
  mk_msg SOCK_DIAG_BY_FAMILY 0 0 0 (encode_unix (s_type x) (s_state x) (s_ino x) (s_cookie x) (s_attrs x)).

Lemma sock_msg_ok x : sock_ok x -> msg_ok (sock_msg x).
Proof.
  intros [_ Hc _ Hl]. assert (Hp : lenZ ([AF_UNIX; s_type x; s_state x; 0] ++ word_bytes be 4 (s_ino x) ++ s_cookie x) = 16).
  { rewrite !lenZ_app, Hc. unfold lenZ. rewrite word_bytes_length. done. }
  split; cbn [sock_msg m_type m_flags m_seq m_pid]; [vm_compute; split; congruence|lia|lia|lia|].
  unfold msg_len, sock_msg, encode_unix. cbn [m_payload]. rewrite lenZ_app, Hp. lia.
Qed.

Definition with_entry (inode : Z) (details : text) (s : state K) : state K :=
  set_cache (<[slot inode := (inode, Some details)]> (cache s)) s.

(** The answers about other sockets are passed over. *)
Lemma answer_unix name inode before x after (s : state K) :
  Forall sock_ok before -> Forall (fun y => s_ino y <> inode) before -> sock_ok x -> s_ino x = inode ->
  unix_peer (s_attrs x) 0 <> 0 \/ unix_name (s_attrs x) <> [] ->
  answer SOCK_DIAG_BY_FAMILY (parser_of be inet_ntop xflag unix_get inode name) (map sock_msg before ++ sock_msg x :: after) s
    = Done (Some true, with_entry inode (unix_details xflag name inode (unix_name (s_attrs x)) (unix_peer (s_attrs x) 0)) s).
Proof.
  intros Hb Hne Hx Hi Hsome.
  assert (Hparse : forall y (s : state K), sock_ok y -> parser_of be inet_ntop xflag unix_get inode name (m_payload (sock_msg y)) (msg_len (sock_msg y)) s =
    if negb (s_ino y =? inode) then Done (0, s)
    else if (unix_peer (s_attrs y) 0 =? 0) && (lenZ (unix_name (s_attrs y)) =? 0) then Done (-1, s)
    else cache_inode_details inode (unix_details xflag name inode (unix_name (s_attrs y)) (unix_peer (s_attrs y) 0)) s).
  { intros y s' [H1 H2 H3 H4]. unfold parser_of, msg_len, sock_msg. cbn [m_payload]. by apply unix_parse_encoded. }
  induction Hb as [|y before Hy Hb IH].
  - cbn [map app answer]. change (negb (m_type (sock_msg x) =? SOCK_DIAG_BY_FAMILY)) with false. cbv iota.
    unfold mbind, M_bind. rewrite Hparse by done. rewrite Hi, Z.eqb_refl. cbn [negb].
    assert (Hf : (unix_peer (s_attrs x) 0 =? 0) && (lenZ (unix_name (s_attrs x)) =? 0) = false).
    { apply andb_false_iff. destruct Hsome as [Hp|Hn]; [left; by apply Z.eqb_neq|right].
      apply Z.eqb_neq. destruct (unix_name (s_attrs x)); [done|]. rewrite lenZ_cons. len_facts. lia. }
    by rewrite Hf.
  - inversion Hne as [|? ? Hy' Hne']; subst. cbn [map app answer]. change (negb (m_type (sock_msg y) =? SOCK_DIAG_BY_FAMILY)) with false. cbv iota.
    unfold mbind, M_bind at 1. rewrite Hparse by done. rewrite (proj2 (Z.eqb_neq _ _) Hy'). cbn [negb mbind result_bind Z.ltb Z.compare].
    by apply IH.
Qed.

(** The parameters of a lookup: the socket is made, the question is sent, the
    answer is received. *)
Variables (fuel : nat) (old_kernel : bool) (inode : Z) (s : state K) (k1 k2 k3 : K).
Hypothesis inode_ok : 0 <= inode.
Hypothesis cache_size : lenZ (cache s) = CACHE_SIZE.
Hypothesis made : k_socket 4 (kern s) = (true, k1).
Hypothesis asked : k_send (request be SOCK_DIAG_BY_FAMILY (Z.lor NLM_F_REQUEST (if old_kernel then NLM_F_DUMP else 0))
    (word_bytes be 1 AF_UNIX ++ [0; 0; 0] ++ word_bytes be 4 (2 ^ 32 - 1) ++ word_bytes be 4 (uint 32 inode) ++ word_bytes be 4 5 ++
     word_bytes be 4 (2 ^ 32 - 1) ++ word_bytes be 4 (2 ^ 32 - 1))) k1 = (Sent, k2).
Variables (before : list sock) (x : sock) (after : list sock).
Hypothesis answered : k_recv 0 k2 = (Recv (encode_msgs be (map sock_msg (before ++ x :: after))), k3).
Hypothesis all_ok : Forall sock_ok (before ++ x :: after).
Hypothesis others : Forall (fun y => s_ino y <> inode) before.
Hypothesis this : s_ino x = inode.
Hypothesis known : unix_peer (s_attrs x) 0 <> 0 \/ unix_name (s_attrs x) <> [].

Lemma cached_entry d (s' : state K) : lenZ (cache s') = CACHE_SIZE -> cached (with_entry inode d s') inode = Some d.
Proof.
  intros Hl. unfold cached, with_entry. cbn [cache set_cache]. pose proof (slot_range inode inode_ok) as Hs.
  rewrite (nth_lookup_Some _ _ _ (inode, Some d)); [by rewrite Z.eqb_refl|]. apply list_lookup_insert_eq.
  unfold lenZ, CACHE_SIZE, cache_entry in *. lia.
Qed.

Abbreviation name := (unix_details xflag "UNIX" inode (unix_name (s_attrs x)) (unix_peer (s_attrs x) 0)).

Lemma unix_asked : unix_send_query be (S fuel) old_kernel inode (set_kern k1 s) = Done (true, set_kern k2 s).
Proof.
  unfold unix_send_query. cbn [send_query]. unfold mbind, M_bind, call. cbn [kern set_kern].
  change (uint (8 * Z.of_nat 1) AF_UNIX) with AF_UNIX. change (uint (8 * Z.of_nat 4) (-1)) with (2 ^ 32 - 1).
  change (uint (8 * Z.of_nat 4) 5) with 5. change (8 * Z.of_nat 4) with 32. rewrite asked. by cbn [mbind result_bind].
Qed.

Lemma unix_received :
  receive_responses be SOCK_DIAG_BY_FAMILY (parser_of be inet_ntop xflag unix_get inode "UNIX") (S fuel) (set_kern k2 s)
  = Done (true, with_entry inode name (set_kern k3 s)).
Proof.
  unfold receive_responses. rewrite (receive_loop_answer be _ _ fuel 0 _ (set_kern k2 s) k3 answered).
  - change (set_kern k3 (set_kern k2 s)) with (set_kern k3 s). rewrite map_app. cbn [map].
    pose proof all_ok as Hall. apply Forall_app in Hall as [Hb Hx]. apply list.Forall_cons in Hx as [Hx _].
    by rewrite (answer_unix "UNIX" inode before x _ (set_kern k3 s) Hb others Hx this known).
  - apply Forall_fmap. eapply list.Forall_impl; [exact all_ok|]. intros y. apply sock_msg_ok.
  - by destruct before.
Qed.

End unix.

(** *** Generic netlink families *)

Definition ids (l : dyxlat) : list Z := map fst l.

Lemma add_pair_new d val str len : ~ In val (ids d) -> dyxlat_add_pair d val str len = Done (d ++ [(val, xstrndup (Z.to_nat len) str)]).
Proof.
  induction d as [|[v s] d IH]; intros Hn; [done|]. cbn [dyxlat_add_pair ids map fst In] in *.
  rewrite (proj2 (Z.eqb_neq v val)) by tauto. rewrite IH by tauto. done.
Qed.

Definition plain (name : list Z) : Prop := Forall (fun c => c <> 0) name.

Lemma xstrndup_plain name : plain name -> xstrndup (S (length name)) (name ++ [0]) = name.
Proof.
  induction 1 as [|c name Hc Hn IH]; [done|]. cbn [length app]. cbn [xstrndup]. rewrite (proj2 (Z.eqb_neq c 0) Hc). f_equal. exact IH.
Qed.

Lemma strncmp_same name n : plain name -> (length name < n)%nat -> strncmp_eq n (name ++ [0]) (name ++ [0]) = true.
Proof.
  intros Hp. revert n. induction Hp as [|c name Hc Hn IH]; intros n Hl; (destruct n as [|n]; [lia|]); cbn [app strncmp_eq]; [done|].
  rewrite Z.eqb_refl, (proj2 (Z.eqb_neq c 0) Hc). apply IH. cbn in Hl. lia.
Qed.

(** When a family is added that the table already has with the same name, and
    the name is passed with its terminating NUL, as the kernel sends it,
    [dyxlat_add_pair] reads one byte past the end of the stored name. *)
Theorem dyxlat_add_pair_overrun (before after : dyxlat) (val : Z) (name : list Z) :
  ~ In val (ids before) -> plain name ->
  dyxlat_add_pair (before ++ (val, name) :: after) val (name ++ [0]) (lenZ name + 1) = Stuck.
Proof.
  intros Hn Hp. assert (Hlen : Z.to_nat (lenZ name + 1) = S (length name)) by (unfold lenZ; lia).
  induction before as [|[v s] before IH]; cbn [app dyxlat_add_pair].
  - rewrite Z.eqb_refl, Hlen, strncmp_same by (done || lia). unfold rd. rewrite lenZ_app.
    change (lenZ [0]) with 1. rewrite (proj2 (Z.leb_gt (lenZ name + 1 + 1) (lenZ name + 1))) by lia. by rewrite !andb_false_r.
  - cbn [ids map fst In] in Hn. rewrite (proj2 (Z.eqb_neq v val)) by tauto. by rewrite IH by tauto.
Qed.

Section genl.
Variable be : bool.
Context {K : Type} {NS : NetlinkSocket K}.

(** A family as the kernel describes it: name, id, and attributes that are not
    looked at. *)
Record fam := mk_fam { f_id : Z; f_name : list Z; f_more : list attr }.
Definition fam_attrs (f : fam) : list attr :=
  (CTRL_ATTR_FAMILY_NAME, f_name f ++ [0]) :: (CTRL_ATTR_FAMILY_ID, word_bytes be 2 (f_id f)) :: f_more f.
Definition fam_msg (f : fam) : msg := mk_msg GENL_ID_CTRL 2 0 0 ([CTRL_CMD_NEWFAMILY; 2; 0; 0] ++ encode be (fam_attrs f)).
Record fam_ok (f : fam) : Prop := {
  fo_id : 0 <= f_id f < 2 ^ 16; fo_name : plain (f_name f); fo_attrs : Forall attr_ok (fam_attrs f);
  fo_more : Forall (fun x => x.1 <> CTRL_ATTR_FAMILY_NAME /\ x.1 <> CTRL_ATTR_FAMILY_ID) (f_more f);
  fo_len : lenZ (encode be (fam_attrs f)) < 2 ^ 31 - 16 }.
Definition pair_of (f : fam) : Z * list Z := (f_id f, f_name f).

Lemma fam_msg_ok f : fam_ok f -> msg_ok (fam_msg f).
Proof.
  intros [_ _ _ _ Hl]. split; cbn [fam_msg m_type m_flags m_seq m_pid]; [unfold GENL_ID_CTRL; lia|lia|lia|lia|].
  unfold msg_len, fam_msg. cbn [m_payload]. rewrite lenZ_app. change (lenZ [_; _; _; _]) with 4. lia.
Qed.

Lemma fold_more l d : Forall (fun x : attr => x.1 <> CTRL_ATTR_FAMILY_NAME /\ x.1 <> CTRL_ATTR_FAMILY_ID) l ->
  fold_attrs (genl_attr be) l (None, None, d) = Done (None, None, d).
Proof.
  induction 1 as [|x l [H1 H2] Hl IH]; [done|]. cbn [fold_attrs genl_attr].
  rewrite (proj2 (Z.eqb_neq _ _) H1), (proj2 (Z.eqb_neq _ _) H2). exact IH.
Qed.

Lemma fold_fam f d : fam_ok f -> ~ In (f_id f) (ids d) ->
  fold_attrs (genl_attr be) (fam_attrs f) (None, None, d) = Done (None, None, d ++ [pair_of f]).
Proof.
  intros [Hi Hn _ Hm _] Hd. unfold fam_attrs. cbn [fold_attrs fst snd].
  assert (E1 : genl_attr be CTRL_ATTR_FAMILY_NAME (f_name f ++ [0]) (None, None, d) = Done (Some (f_name f ++ [0]), None, d)) by done.
  rewrite E1. cbn [mbind result_bind].
  assert (E2 : genl_attr be CTRL_ATTR_FAMILY_ID (word_bytes be 2 (f_id f)) (Some (f_name f ++ [0]), None, d)
    = (d ← dyxlat_add_pair d (f_id f) (f_name f ++ [0]) (lenZ (f_name f ++ [0])); Done (None, None, d))).
  { unfold genl_attr. change (CTRL_ATTR_FAMILY_ID =? CTRL_ATTR_FAMILY_NAME) with false. change (CTRL_ATTR_FAMILY_ID =? CTRL_ATTR_FAMILY_ID) with true.
    cbv iota. replace (lenZ (word_bytes be 2 (f_id f))) with 2 by (unfold lenZ; by rewrite word_bytes_length). cbn [Z.eqb Pos.eqb].
    pose proof (rd_value_mid be [] [] 0 2 2 (f_id f)) as R. cbn [app] in R. rewrite app_nil_r in R. by rewrite R by (done || lia). }
  rewrite E2, add_pair_new by done. cbn [mbind result_bind]. rewrite fold_more by done. do 3 f_equal. unfold pair_of.
  rewrite lenZ_app. change (lenZ [0]) with 1. replace (Z.to_nat (lenZ (f_name f) + 1)) with (S (length (f_name f))) by (unfold lenZ; lia).
  by rewrite xstrndup_plain.
Qed.

Lemma genl_parse_fam f d (s : state K) : families s = Some d -> fam_ok f -> ~ In (f_id f) (ids d) ->
  genl_parse_families_response be (m_payload (fam_msg f)) (msg_len (fam_msg f)) s = Done (0, set_families (Some (d ++ [pair_of f])) s).
Proof.
  intros Hs Hf Hd. destruct (Hf) as [_ _ Ha _ Hl]. pose proof (lenZ_nonneg (encode be (fam_attrs f))).
  unfold genl_parse_families_response, msg_len, fam_msg, NLMSG_LENGTH. cbn [m_payload].
  assert (Hd4 : lenZ ([CTRL_CMD_NEWFAMILY; 2; 0; 0] ++ encode be (fam_attrs f)) = 4 + lenZ (encode be (fam_attrs f))) by (by rewrite lenZ_app).
  rewrite Hd4, sint_small by lia. replace (16 + (4 + lenZ (encode be (fam_attrs f))) - (4 + 16)) with (lenZ (encode be (fam_attrs f))) by lia.
  rewrite (proj2 (Z.ltb_ge _ 0)) by lia. set (data := [CTRL_CMD_NEWFAMILY; 2; 0; 0] ++ encode be (fam_attrs f)) in *.
  assert (R1 : rd_value be data 0 1 = Done CTRL_CMD_NEWFAMILY) by (unfold rd_value; rewrite rd_done by lia; cbn; by destruct be).
  assert (R2 : rd_value be data 1 1 = Done 2) by (unfold rd_value; rewrite rd_done by lia; cbn; by destruct be).
  unfold mbind, M_bind, lift, get_state. rewrite R1. cbn [mbind result_bind]. change (negb (CTRL_CMD_NEWFAMILY =? CTRL_CMD_NEWFAMILY)) with false.
  cbv iota. rewrite R2. cbn [mbind result_bind]. change (negb (2 =? 2)) with false. cbv iota. cbn [mbind result_bind].
  rewrite Hs. cbn [default from_option]. unfold data. rewrite rta_all_encoded by (done || lia). by rewrite fold_fam.
Qed.

Abbreviation parser := (genl_parse_families_response be).

Lemma set_families_same d (s : state K) : families s = Some d -> set_families (Some (d ++ [])) s = s.
Proof. rewrite app_nil_r. destruct s as [c f k]. cbn. by intros ->. Qed.

Lemma answer_fams l d (s : state K) : families s = Some d -> Forall fam_ok l -> base.NoDup (ids d ++ map f_id l) ->
  answer GENL_ID_CTRL parser (map fam_msg l) s = Done (None, set_families (Some (d ++ map pair_of l)) s).
Proof.
  revert d s. induction l as [|f l IH]; intros d s Hs Hl Hd.
  { cbn [map answer]. by rewrite set_families_same. }
  inversion Hl as [|? ? Hf Hl']; subst. cbn [map answer]. change (negb (m_type (fam_msg f) =? GENL_ID_CTRL)) with false. cbv iota.
  cbn [map] in Hd. assert (Hn : ~ In (f_id f) (ids d)).
  { intros Hin. apply list.NoDup_app in Hd as (_ & Hd & _). apply (Hd (f_id f)); [by apply list_elem_of_In|constructor]. }
  unfold mbind, M_bind. rewrite (genl_parse_fam f d s Hs Hf Hn). cbn [mbind result_bind Z.ltb Z.compare].
  rewrite (IH (d ++ [pair_of f]) (set_families (Some (d ++ [pair_of f])) s) eq_refl Hl'); [by rewrite <- app_assoc|].
  unfold ids in *. rewrite map_app, <- app_assoc. exact Hd.
Qed.

(** The kernel delivers these answers one after another. *)
Fixpoint delivers (k : K) (ds : list (list msg)) (k' : K) : Prop :=
  match ds with
  | [] => k' = k
  | l :: ds' => exists k1, (forall flags, k_recv flags k = (Recv (encode_msgs be l), k1)) /\ delivers k1 ds' k'
  end.

Definition done_msg : msg := mk_msg NLMSG_DONE 2 0 0 [0; 0; 0; 0].

Lemma receive_fams ds fuel flags d (s : state K) k :
  families s = Some d -> Forall (fun l => l <> [] /\ Forall fam_ok l) ds -> base.NoDup (ids d ++ map f_id (concat ds)) ->
  delivers (kern s) (map (map fam_msg) ds ++ [[done_msg]]) k -> (length ds < fuel)%nat ->
  receive_loop be GENL_ID_CTRL parser fuel flags s
    = Done (false, set_kern k (set_families (Some (d ++ map pair_of (concat ds))) s)).
Proof.
  revert fuel flags d s. induction ds as [|l ds IH]; intros fuel flags d s Hs Hds Hd Hk Hf; (destruct fuel as [|fuel]; [cbn in Hf; lia|]).
  - destruct Hk as (k1 & Hr & ->). rewrite (receive_loop_answer be _ _ fuel flags _ s k1 (Hr flags)); [|by repeat constructor|done].
    cbn [answer concat map]. by rewrite set_families_same.
  - destruct Hk as (k1 & Hr & Hk). inversion Hds as [|? ? [Hne Hl] Hds']; subst. cbn [map concat] in *.
    rewrite (receive_loop_answer be _ _ fuel flags _ s k1 (Hr flags)); [..|by destruct l].
    + rewrite map_app, app_assoc in Hd. rewrite (answer_fams l d (set_kern k1 s) Hs Hl) by (by apply list.NoDup_app in Hd as (? & _)).
      rewrite (IH fuel MSG_DONTWAIT (d ++ map pair_of l) (set_families (Some (d ++ map pair_of l)) (set_kern k1 s)) eq_refl Hds'); [|..|exact Hk|cbn in Hf; lia].
      * rewrite map_app, app_assoc. by destruct s.
      * unfold ids. rewrite map_app, map_map. exact Hd.
    + apply Forall_fmap. eapply list.Forall_impl; [exact Hl|]. apply fam_msg_ok.
Qed.

Lemma xlookup_dyxlat d id : xlookup (dyxlat_get d) id = (fun x => text_string x.2) <$> find (fun x => x.1 =? id) d.
Proof.
  unfold xlookup, dyxlat_get. cbn [xtype xdata]. induction d as [|[v n] d IH]; [done|].
  cbn [map linear_search find val fst]. by destruct (v =? id).
Qed.

Lemma find_pair (d : dyxlat) id name : base.NoDup (ids d) -> In (id, name) d -> find (fun x => x.1 =? id) d = Some (id, name).
Proof.
  induction d as [|[v n] d IH]; [done|]. cbn [ids map fst find In]. intros Hd [E|Hin].
  - injection E as -> ->. by rewrite Z.eqb_refl.
  - inversion Hd as [|? ? Hv Hd']; subst. rewrite (proj2 (Z.eqb_neq v id)); [by apply IH|].
    intros ->. apply Hv, list_elem_of_In. unfold ids. apply in_map_iff. by exists (id, name).
Qed.

Variables (fuel : nat) (s : state K) (k1 k2 k3 : K) (ds : list (list fam)).
Hypothesis first_time : families s = None.
Hypothesis made : k_socket 16 (kern s) = (true, k1).
Hypothesis asked : k_send (request be GENL_ID_CTRL (Z.lor NLM_F_DUMP NLM_F_REQUEST) (word_bytes be 1 CTRL_CMD_GETFAMILY ++ [0; 0; 0])) k1 = (Sent, k2).
Hypothesis answered : delivers k2 (map (map fam_msg) ds ++ [[done_msg]]) k3.
Hypothesis ds_ok : Forall (fun l => l <> [] /\ Forall fam_ok l) ds.
Hypothesis distinct : base.NoDup (map f_id (concat ds)).

(** The table of generic netlink families has exactly the families that the
    kernel lists, each under its id, however they are spread over messages and
    answers; it is made once, and used without asking again. *)
Theorem genl_families_correct : (length ds < fuel)%nat ->
  exists x s', genl_families_xlat be fuel s = Done (x, s') /\
    (forall f, In f (concat ds) -> xlookup x (f_id f) = Some (text_string (f_name f))) /\
    (forall id, ~ In id (map f_id (concat ds)) -> xlookup x id = None) /\
    genl_families_xlat be fuel s' = Done (x, s').
Proof.
  intros Hf. set (all := map pair_of (concat ds)). assert (Hids : ids all = map f_id (concat ds)) by (unfold all, ids; by rewrite map_map).
  exists (dyxlat_get all), (set_kern (k_close k3) (set_families (Some all) s)). split; [|split; [|split]].
  - unfold genl_families_xlat, mbind, M_bind, get_state. cbn [mbind result_bind]. rewrite first_time. unfold put_state, call.
    cbn [mbind result_bind kern set_families]. change NETLINK_GENERIC_PROTO with 16. rewrite made. cbn [mbind result_bind].
    destruct fuel as [|n]; [lia|]. unfold genl_send_dump_families. cbn [send_query]. unfold mbind, M_bind, call. cbn [kern set_kern].
    change (uint (8 * Z.of_nat 1) CTRL_CMD_GETFAMILY) with CTRL_CMD_GETFAMILY. rewrite asked. cbn [mbind result_bind].
    unfold receive_responses, mret, M_ret, result_bind. cbv beta iota.
    change (set_kern k2 (set_kern k1 (set_families (Some []) s))) with (set_kern k2 (set_families (Some []) s)).
    by rewrite (receive_fams ds (S n) 0 [] (set_kern k2 (set_families (Some []) s)) k3 eq_refl ds_ok distinct answered Hf).
  - intros f Hin. rewrite xlookup_dyxlat, (find_pair all (f_id f) (f_name f)); [done|by rewrite Hids|].
    unfold all. apply in_map_iff. by exists f.
  - intros id Hn. rewrite xlookup_dyxlat. destruct (find _ all) as [[v n]|] eqn:E; [|done].
    apply find_some in E as [Hin Ev%Z.eqb_eq]. cbn in Ev. subst v. destruct Hn. rewrite <- Hids. apply in_map_iff. by exists (id, n).
  - done.
Qed.
End genl.

Section safe.
Context {K : Type} {NS : NetlinkSocket K} {SL : SocketLaws K NS}.

End safe.

(** ** The socket of a descriptor (src/util.c) *)

Definition ULONG_MAX : Z := 2 ^ 64 - 1.

(** [strtoul (s, &end, 10)]: the value and [end]. *)
Definition strtoul (s : string) : Z * string :=
  let s1 := skip_spaces s in
  let '(neg, s2) := match s1 with
                    | String c s' => if Ascii.eqb c "-" then (true, s') else if Ascii.eqb c "+" then (false, s') else (false, s1)
                    | EmptyString => (false, s1)
                    end in
  match s2 with
  | String c _ =>
      if is_digit c then
        let '(v, e) := take_digits s2 0 in
        (if ULONG_MAX <? v then ULONG_MAX else if neg : bool then uint 64 (- v) else v, e)
      else (0, s)
  | EmptyString => (0, s)
  end.

Fixpoint last_char (s : string) : option ascii :=
  match s with EmptyString => None | String c EmptyString => Some c | String _ s' => last_char s' end.

Definition get_inode_of_socket_path (path : string) : Z :=
  match strip_prefix "socket:[" path with
  | None => 0
  | Some str =>
      match last_char str with
      | Some c => if Ascii.eqb c "]" then
                    let '(r, e) := strtoul str in
                    if negb (r =? 0) && Nat.eqb (String.length e) 1 then r else 0
                  else 0
      | None => 0
      end
  end.

(** [path] is what the link of the descriptor in /proc says. *)
Definition getfdinode (path : option string) : Z := match path with Some p => get_inode_of_socket_path p | None => 0 end.

(** [xattr] is what getxattr stores of "system.sockprotoname", at most 255 bytes. *)
Definition getfdproto (fd : Z) (xattr : option (list Z)) : Z :=
  if fd <? 0 then SOCK_PROTO_UNKNOWN
  else match xattr with
       | None => SOCK_PROTO_UNKNOWN
       | Some b => if lenZ b =? 0 then SOCK_PROTO_UNKNOWN else get_proto_by_name (text_string (xstrndup (length b) b))
       end.

(** What is printed after a descriptor that is a socket; [None] if it is not one. *)
Definition printsocket {K} {NS : NetlinkSocket K} (be : bool) (inet_ntop : Z -> list Z -> option text) (xflag : Z) (fuel : nat)
    (old_kernel : bool) (fd : Z) (path : string) (xattr : option (list Z)) : M K (option text) :=
  let inode := get_inode_of_socket_path path in
  if inode =? 0 then mret None
  else
    details ← get_sockaddr_by_inode be inet_ntop xflag fuel old_kernel inode (getfdproto fd xattr);
    mret (Some (codes "<" ++ default (codes path) details ++ codes ">")).

Lemma last_char_app s c : last_char (s +:+ String c EmptyString) = Some c.
Proof.
  induction s as [|a s IH]; [done|]. change (last_char (String a (s +:+ String c EmptyString)) = Some c). cbn [last_char].
  destruct s; [done|exact IH].
Qed.

Lemma strtoul_pretty n r : 0 <= n <= ULONG_MAX -> ends_number r = true -> strtoul (pretty n +:+ r) = (n, r).
Proof.
  intros Hn He. destruct (pretty_digits n r) as [Ht (c & s' & Es & Hc)]; [lia|]. unfold strtoul.
  destruct (is_digit_plain c Hc) as (H1 & H2 & H3).
  assert (Hs : skip_spaces (pretty n +:+ r) = String c s') by (rewrite Es; cbn; by rewrite H1).
  rewrite Hs, H2, H3, Hc, <- Es, Ht.
  assert (Htd : take_digits r n = (n, r)) by (destruct r as [|c' r']; [done|]; cbn in He |- *; by destruct (is_digit c')).
  rewrite Htd. by rewrite (proj2 (Z.ltb_ge _ _)) by lia.
Qed.

(** The link of a socket names its inode. *)
Lemma socket_path_roundtrip n : 0 < n < 2 ^ 64 -> get_inode_of_socket_path ("socket:[" +:+ pretty n +:+ "]") = n.
Proof.
  intros Hn. unfold get_inode_of_socket_path. rewrite strip_prefix_app, last_char_app. rewrite Ascii.eqb_refl.
  rewrite strtoul_pretty by (done || unfold ULONG_MAX; lia). by rewrite (proj2 (Z.eqb_neq n 0)) by lia.
Qed.

(** ** A scripted kernel *)

(** The answers that are still to be received. *)
#[local] Instance demo_socket : NetlinkSocket (list (list Z)) := {|
  k_socket _ k := (true, k);
  k_send _ k := (Sent, k);
  k_recv _ k := match k with b :: k' => (if lenZ b <=? 8192 then Recv b else RecvFail, k') | [] => (RecvFail, []) end;
  k_close k := k |}.

Lemma demo_socket_laws : SocketLaws (list (list Z)) demo_socket.
Proof.
  intros flags [|b k] b' k' E; cbn in E; [done|]. destruct (Z.leb_spec (lenZ b) 8192); [|done]. by injection E as <- _.
Qed.

Definition demo_start (answers : list (list Z)) : state (list (list Z)) := mk_state (replicate 1024 (0, None)) None answers.

Definition demo_other : sock := mk_sock 1 1 5 (replicate 8 0) [(UNIX_DIAG_NAME, codes "/dev/log")].
Definition demo_sock : sock := mk_sock 1 1 7 (replicate 8 0) [(UNIX_DIAG_NAME, 0 :: codes "bus"); (UNIX_DIAG_PEER, [9; 0; 0; 0])].
Definition demo_ntop (family : Z) (b : list Z) : option text := Some (codes "0.0.0.0").

Example demo_sock_name : unix_details 0 "UNIX" 7 (unix_name (s_attrs demo_sock)) (unix_peer false (s_attrs demo_sock) 0)
  = codes "UNIX:[7->9,@" ++ quoted "bus" ++ codes "]".
Proof. vm_compute. reflexivity. Qed.

Lemma demo_socks_ok : Forall (sock_ok false) [demo_other; demo_sock].
Proof. repeat constructor; vm_compute; congruence. Qed.


Definition demo_fams : list (list fam) :=
  [[mk_fam 16 (codes "nlctrl") [(3, [2; 0; 0; 0])]]; [mk_fam 21 (codes "acpi_event") []; mk_fam 22 (codes "tcp_metrics") []]].

Lemma genl_families_correct_witness :
  exists x s', genl_families_xlat false 5
      (demo_start (map (fun l => encode_msgs false (map (fam_msg false) l)) demo_fams ++ [encode_msgs false [done_msg]])) = Done (x, s') /\
    xlookup x 22 = Some "tcp_metrics"%string /\ xlookup x 17 = None.
Proof.
  set (answers := map (fun l => encode_msgs false (map (fam_msg false) l)) demo_fams ++ [encode_msgs false [done_msg]]).
  destruct (genl_families_correct false 5 (demo_start answers) answers answers [] demo_fams) as (x & s' & E & Hin & Hout & _).
  - reflexivity.
  - reflexivity.
  - reflexivity.
  - cbn [demo_fams map app delivers]. eexists. split; [intros; reflexivity|]. eexists. split; [intros; reflexivity|].
    eexists. split; [intros; reflexivity|reflexivity].
  - repeat constructor; vm_compute; congruence.
  - apply (bool_decide_unpack _). vm_compute. exact I.
  - cbn. lia.
  - exists x, s'. split; [exact E|]. split.
    + exact (Hin (mk_fam 22 (codes "tcp_metrics") []) ltac:(cbn; tauto)).
    + apply Hout. cbn. lia.
Defined.

Lemma dyxlat_add_pair_overrun_witness :
  dyxlat_add_pair [(16, codes "nlctrl")] 16 (codes "nlctrl" ++ [0]) 7 = Stuck.
Proof.
  apply (dyxlat_add_pair_overrun [] [] 16 (codes "nlctrl")).
  - intros [].
  - repeat constructor; discriminate.
Defined.

