(* ===== verification/PathTrace.v ===== *)
(** * Selection by paths and descriptors (src/pathtrace.c)

    With -P and -e trace-fds strace shows a syscall when one of its arguments
    names a selected path or descriptor.  The file models the set of selected
    paths, the path of a descriptor, and the tests of the arguments, which read
    strings, sets of descriptors and arrays of a tracee (UCopy).  Paths are the
    lists of their characters' codes; the capacity of the array of a set is
    left out, as is the death of xmalloc. *)

From S2P Require Import Prelude Wait Util NumberSet Quote UCopy PrintStr Tcb PrintArray.
Open Scope Z_scope.

Definition bytes_eqb (a b : list Z) : bool := bool_decide (a = b).

(** ** The selected paths *)

Definition path_set : Type := list (list Z).

Definition pathmatch (path : list Z) (set : option path_set) : bool :=
  match set with None => false | Some l => existsb (fun p => bytes_eqb path p) l end.

Definition storepath (path : list Z) (set : path_set) : path_set :=
  if pathmatch path (Some set) then set else set ++ [path].

(** The set, and the message with the two paths as they are quoted.  [realpath]
    is that of the C library. *)
Definition pathtrace_select_set (xflag : Z) (realpath : list Z -> option (list Z)) (quiet_set : option number_set)
  (path : list Z) (set : path_set) : path_set * option (list Z * list Z) :=
  let set := storepath path set in
  match realpath path with
  | None => (set, None)
  | Some rpath =>
      if bytes_eqb path rpath then (set, None)
      else
        let quoted p := fst (string_quote (hexstr_style xflag QUOTE_0_TERMINATED) QUOTE_0_TERMINATED None (p ++ [0]) (lenZ p + 1)) in
        (storepath rpath set,
         if negb (is_number_in_set QUIET_PATH_RESOLVE quiet_set) then Some (quoted path, quoted rpath) else None)
  end.

(** ** The path of a descriptor *)

(** What the tracer asks the system: the text of the link /proc/PID/fd/FD, the
    inode and device of what it leads to, those of a path, and the number in
    /proc of a process (0: none). *)
Class FdSystem := {
  readlink : Z -> Z -> option (list Z);
  stat_link : Z -> Z -> option (Z * Z);
  lstat_file : list Z -> option (Z * Z);
  get_proc_pid : Z -> Z }.

Definition del_sfx : list Z := codes " (deleted)".

Section fdpath.
Context {FS : FdSystem}.

(** The result, and the path stored in the buffer with [*deleted]; [None] when
    they are left alone. *)
Definition get_proc_pid_fd_path (proc_pid fd bufsize : Z) : Z * option (list Z * bool) :=
  if fd <? 0 then (-1, None)
  else match readlink proc_pid fd with
  | None => (-1, None)
  | Some link =>
      let buf := firstn (Z.to_nat (bufsize - 1)) link in
      let n := lenZ buf in
      if n <=? lenZ del_sfx + 1 then (n, Some (buf, false))
      else
        let del := n - lenZ del_sfx in
        if negb (bytes_eqb (skipn (Z.to_nat del) buf) del_sfx) then (n, Some (buf, false))
        else match stat_link proc_pid fd with
        | None => (n, Some (buf, false))
        | Some st_link =>
            if bool_decide (lstat_file buf = Some st_link) then (n, Some (buf, false))
            else (del + 1, Some (firstn (Z.to_nat del) buf, true))
        end
  end.

Definition getfdpath_pid (pid fd bufsize : Z) : Z * option (list Z * bool) :=
  if fd <? 0 then (-1, None)
  else let proc_pid := get_proc_pid pid in
       if proc_pid =? 0 then (-1, None) else get_proc_pid_fd_path proc_pid fd bufsize.

Definition fdmatch (pid fd : Z) (set : option path_set) (fdset : option number_set) : bool :=
  if (match fdset with Some _ => true | None => false end) && (0 <=? fd) && is_number_in_set fd fdset then true
  else match set with
  | None => false
  | Some _ => match getfdpath_pid pid fd (PATH_MAX + 1) with
              | (n, Some (path, _)) => (0 <=? n) && pathmatch path set
              | (n, None) => false
              end
  end.
End fdpath.

(** ** Arguments *)

(** The syscalls that [pathtrace_match_set] tells apart. *)
Inductive sen :=
  SEN_dup2 | SEN_dup3 | SEN_kexec_file_load | SEN_sendfile | SEN_sendfile64 | SEN_tee | SEN_execveat |
  SEN_faccessat | SEN_faccessat2 | SEN_fchmodat | SEN_fchmodat2 | SEN_fchownat | SEN_file_getattr |
  SEN_file_setattr | SEN_fspick | SEN_fstatat64 | SEN_futimesat | SEN_getxattrat | SEN_inotify_add_watch |
  SEN_listxattrat | SEN_mkdirat | SEN_mknodat | SEN_mount_setattr | SEN_name_to_handle_at | SEN_newfstatat |
  SEN_open_tree | SEN_open_tree_attr | SEN_openat | SEN_openat2 | SEN_readlinkat | SEN_removexattrat |
  SEN_setxattrat | SEN_statx | SEN_unlinkat | SEN_utimensat_time32 | SEN_utimensat_time64 | SEN_link | SEN_mount
  | SEN_pivotroot | SEN_quotactl | SEN_symlink | SEN_linkat | SEN_move_mount | SEN_renameat2 | SEN_renameat |
  SEN_old_mmap | SEN_old_mmap_pgoff | SEN_mmap | SEN_mmap_4koff | SEN_mmap_pgoff | SEN_ARCH_mmap | SEN_symlinkat
  | SEN_copy_file_range | SEN_splice | SEN_epoll_ctl | SEN_fanotify_mark | SEN_oldselect | SEN_pselect6_time32 |
  SEN_pselect6_time64 | SEN_select | SEN_poll_time32 | SEN_poll_time64 | SEN_ppoll_time32 | SEN_ppoll_time64 |
  SEN_fsconfig | SEN_bpf | SEN_epoll_create | SEN_epoll_create1 | SEN_eventfd2 | SEN_eventfd | SEN_fanotify_init
  | SEN_fsopen | SEN_inotify_init | SEN_inotify_init1 | SEN_io_uring_setup | SEN_landlock_create_ruleset |
  SEN_memfd_create | SEN_memfd_secret | SEN_mq_open | SEN_perf_event_open | SEN_pidfd_open | SEN_pipe |
  SEN_pipe2 | SEN_printargs | SEN_socket | SEN_socketpair | SEN_timerfd_create | SEN_userfaultfd | SEN_other.

Definition TRACE_FILE : Z := 1.
Definition TRACE_NETWORK : Z := 4.
Definition TRACE_DESC : Z := 32.
Definition MAX_FDS : Z := 1024 * 1024.
Definition SIZEOF_POLLFD : Z := 8.

(** The string in a buffer. *)
Definition cstr (bytes : list Z) : list Z :=
  match find_nul bytes with Some k => firstn k bytes | None => bytes end.

Section matching.
Context {TM : TraceeMemory} {FS : FdSystem}.
Variables (page_size : Z) (narrow is_bigendian : bool).
(** HAVE_ARCH_OLD_MMAP, HAVE_ARCH_OLD_MMAP_PGOFF, HAVE_ARCH_OLD_SELECT; whether
    64-bit arguments take two registers, and start at an even one then. *)
Variables (have_old_mmap have_old_mmap_pgoff have_old_select klong_narrow align_even : bool).
(** The tracee. *)
Variables (m : mstate) (pid : Z).

Definition wordsize : Z := if narrow then 4 else 8.

(** A test that may read memory through the cache; [None]: out of fuel. *)
Definition test : Type := ucopy -> option (bool * ucopy).
Definition retM (b : bool) : test := fun c => Some (b, c).
(** The operator || of C. *)
Definition orM (a b : test) : test :=
  fun c => '(r, c) ← a c; if r : bool then Some (true, c) else b c.

Definition upathmatch (upath : Z) (set : option path_set) : test :=
  fun c => match set with
  | None => Some (false, c)
  | Some _ =>
      '(n, bytes, c) ← umovestr page_size narrow m c upath (PATH_MAX + 1);
      Some ((0 <? n) && pathmatch (cstr bytes) set, c)
  end.

(** The array of arguments at [addr]. *)
Fixpoint words (n : nat) (bytes : list Z) : list Z :=
  match n with
  | O => []
  | S n' => word_value is_bigendian (firstn (Z.to_nat wordsize) bytes) :: words n' (skipn (Z.to_nat wordsize) bytes)
  end.
Definition fetch_indirect_syscall_args (addr n_args : Z) (c : ucopy) : option (option (list Z) * ucopy) :=
  '(rc, bytes, c) ← umoven page_size narrow m c addr (wordsize * n_args);
  Some (if rc =? 0 then Some (words (Z.to_nat n_args) bytes) else None, c).

Definition ULONG_LONG (a b : Z) : Z :=
  if is_bigendian then Z.lor (uint 32 b) (uint 64 (Z.shiftl a 32)) else Z.lor (uint 32 a) (uint 64 (Z.shiftl b 32)).

(** The value and the index of the next argument, on kernels of 64 bits. *)
Definition getllval (u_arg : list Z) (arg_no : Z) : Z * Z :=
  if klong_narrow then
    let arg_no := if align_even then Z.land (arg_no + 1) 0xe else arg_no in
    (ULONG_LONG (nthZ u_arg arg_no) (nthZ u_arg (arg_no + 1)), arg_no + 2)
  else (nthZ u_arg arg_no, arg_no + 1).

(** The loop over the bits of one set. *)
Fixpoint bits_loop (fuel : nat) (fds : list Z) (j nfds : Z) (set : option path_set) (fdset : option number_set)
  : option bool :=
  match fuel with
  | O => None
  | S fuel' =>
      j ← next_set_bit fds (if is_bigendian then wordsize - 1 else 0) j nfds;
      if j <? 0 then Some false
      else if fdmatch pid j set fdset then Some true
      else bits_loop fuel' fds (j + 1) nfds set fdset
  end.

(** The loop over the sets at the addresses [l]. *)
Fixpoint sets_loop (l : list Z) (fdsize nfds : Z) (set : option path_set) (fdset : option number_set) : test :=
  match l with
  | [] => retM false
  | a :: l' => fun c =>
      if a =? 0 then sets_loop l' fdsize nfds set fdset c
      else
        '(rc, fds, c) ← umoven page_size narrow m c a fdsize;
        if rc <? 0 then sets_loop l' fdsize nfds set fdset c
        else
          r ← bits_loop (Z.to_nat nfds + 1) fds 0 nfds set fdset;
          if r : bool then Some (true, c) else sets_loop l' fdsize nfds set fdset c
  end.

Definition select_fdsize (nfds : Z) : Z := Z.land (uint 32 ((nfds + 7) / 8 + wordsize - 1)) (uint 32 (- wordsize)).

Definition match_xselect_args (args : list Z) (set : option path_set) (fdset : option number_set) : test :=
  let nfds := sint 32 (nthZ args 0) in
  if nfds <=? 0 then retM false
  else
    let nfds := if MAX_FDS <? nfds then MAX_FDS else nfds in
    sets_loop [nthZ args 1; nthZ args 2; nthZ args 3] (select_fdsize nfds) nfds set fdset.

(** The loop over the array of [struct pollfd]. *)
Fixpoint poll_loop (fuel : nat) (cur end_ : Z) (set : option path_set) (fdset : option number_set) : test :=
  fun c =>
  if end_ <=? cur then Some (false, c)
  else match fuel with
  | O => None
  | S fuel' =>
      '(rc, bytes, c) ← umoven page_size narrow m c cur SIZEOF_POLLFD;
      if negb (rc =? 0) then Some (false, c)
      else if fdmatch pid (sint 32 (word_value is_bigendian (firstn 4 bytes))) set fdset then Some (true, c)
      else poll_loop fuel' (uint 64 (cur + SIZEOF_POLLFD)) end_ set fdset c
  end.

Definition match_poll (u_arg : list Z) (set : option path_set) (fdset : option number_set) : test :=
  let start := nthZ u_arg 0 in
  let nfds := uint 32 (nthZ u_arg 1) in
  let nfds := if MAX_FDS <? nfds then MAX_FDS else nfds in
  let end_ := uint 64 (start + SIZEOF_POLLFD * nfds) in
  if (nfds =? 0) || (end_ <? start) then retM false
  else poll_loop (Z.to_nat nfds) start end_ set fdset.

(** [s] and [sys_flags] are those of the syscall, [u_arg] its arguments; a
    descriptor is the low half of its argument. *)
Definition pathtrace_match_set (s : sen) (sys_flags : Z) (u_arg : list Z)
  (set : option path_set) (fdset : option number_set) : test :=
  let fd i := retM (fdmatch pid (sint 32 (nthZ u_arg i)) set fdset) in
  let path i := upathmatch (nthZ u_arg i) set in
  let mbind_args n k := fun c =>
    '(args, c) ← fetch_indirect_syscall_args (nthZ u_arg 0) n c;
    match args with Some args => k args c | None => Some (false, c) end in
  let old_mmap := mbind_args 6 (fun args => retM (fdmatch pid (sint 32 (nthZ args 4)) set fdset)) in
  let fallback :=
    if has sys_flags TRACE_FILE then path 0
    else if has sys_flags (Z.lor TRACE_DESC TRACE_NETWORK) then fd 0
    else retM false in
  if negb (has sys_flags (Z.lor (Z.lor TRACE_FILE TRACE_DESC) TRACE_NETWORK)) then retM false
  else
  match s with
    | SEN_dup2 | SEN_dup3 | SEN_kexec_file_load | SEN_sendfile | SEN_sendfile64 | SEN_tee =>
      orM (fd 0) (fd 1)
    | SEN_execveat | SEN_faccessat | SEN_faccessat2 | SEN_fchmodat | SEN_fchmodat2 | SEN_fchownat |
      SEN_file_getattr | SEN_file_setattr | SEN_fspick | SEN_fstatat64 | SEN_futimesat | SEN_getxattrat |
      SEN_inotify_add_watch | SEN_listxattrat | SEN_mkdirat | SEN_mknodat | SEN_mount_setattr |
      SEN_name_to_handle_at | SEN_newfstatat | SEN_open_tree | SEN_open_tree_attr | SEN_openat | SEN_openat2 |
      SEN_readlinkat | SEN_removexattrat | SEN_setxattrat | SEN_statx | SEN_unlinkat | SEN_utimensat_time32 |
      SEN_utimensat_time64 =>
      orM (fd 0) (path 1)
    | SEN_link | SEN_mount | SEN_pivotroot =>
      orM (path 0) (path 1)
    | SEN_quotactl | SEN_symlink =>
      path 1
    | SEN_linkat | SEN_move_mount | SEN_renameat2 | SEN_renameat =>
      orM (fd 0) (orM (fd 2) (orM (path 1) (path 3)))
    | SEN_old_mmap => if have_old_mmap then old_mmap else fallback
    | SEN_old_mmap_pgoff => if have_old_mmap && have_old_mmap_pgoff then old_mmap else fallback
    | SEN_mmap | SEN_mmap_4koff | SEN_mmap_pgoff | SEN_ARCH_mmap =>
      fd 4
    | SEN_symlinkat =>
      orM (fd 1) (path 2)
    | SEN_copy_file_range | SEN_splice =>
      orM (fd 0) (fd 2)
    | SEN_epoll_ctl => fd 2
    | SEN_fanotify_mark => let argn := snd (getllval u_arg 2) in orM (fd argn) (path (argn + 1))
    | SEN_oldselect =>
        if have_old_select then
          mbind_args 5 (fun args => match_xselect_args args set fdset)
        else fallback
    | SEN_pselect6_time32 | SEN_pselect6_time64 | SEN_select =>
      match_xselect_args u_arg set fdset
    | SEN_poll_time32 | SEN_poll_time64 | SEN_ppoll_time32 | SEN_ppoll_time64 =>
      match_poll u_arg set fdset
    | SEN_fsconfig =>
        let cmd := uint 32 (nthZ u_arg 1) in
        if (cmd =? 3) || (cmd =? 4) then orM (fd 4) (path 3)
        else if cmd =? 5 then fd 4
        else retM false
    | SEN_bpf | SEN_epoll_create | SEN_epoll_create1 | SEN_eventfd2 | SEN_eventfd | SEN_fanotify_init |
      SEN_fsopen | SEN_inotify_init | SEN_inotify_init1 | SEN_io_uring_setup | SEN_landlock_create_ruleset |
      SEN_memfd_create | SEN_memfd_secret | SEN_mq_open | SEN_perf_event_open | SEN_pidfd_open | SEN_pipe |
      SEN_pipe2 | SEN_printargs | SEN_socket | SEN_socketpair | SEN_timerfd_create | SEN_userfaultfd =>
      retM false
    | SEN_other => fallback
  end.
End matching.

(** ** Selecting paths *)

Lemma bytes_eqb_spec a b : bytes_eqb a b = true <-> a = b.
Proof. apply bool_decide_eq_true. Qed.

Lemma pathmatch_elem path (l : path_set) : pathmatch path (Some l) = true <-> path ∈ l.
Proof.
  simpl. rewrite existsb_exists. split.
  - intros (p & Hp & ->%bytes_eqb_spec). by apply list_elem_of_In.
  - intros Hp. exists path. split; [by apply list_elem_of_In|by apply bytes_eqb_spec].
Qed.

Lemma storepath_elem path (l : path_set) p : p ∈ storepath path l <-> p = path \/ p ∈ l.
Proof.
  unfold storepath. destruct (pathmatch path (Some l)) eqn:E.
  - apply pathmatch_elem in E. naive_solver.
  - rewrite elem_of_app, list_elem_of_singleton. tauto.
Qed.

Lemma storepath_NoDup path (l : path_set) : base.NoDup l -> base.NoDup (storepath path l).
Proof.
  intros Hl. unfold storepath. destruct (pathmatch path (Some l)) eqn:E; [done|].
  apply list.NoDup_app. split; [done|]. split; [|apply list.NoDup_singleton].
  intros x Hx ->%list_elem_of_singleton. apply pathmatch_elem in Hx. congruence.
Qed.

Section select.
Variables (xflag : Z) (realpath : list Z -> option (list Z)) (quiet_set : option number_set).

(** -P for each of the paths. *)
Definition select_all (paths : list (list Z)) (set : path_set) : path_set :=
  fold_left (fun set p => fst (pathtrace_select_set xflag realpath quiet_set p set)) paths set.

Lemma select_elem path set p :
  p ∈ fst (pathtrace_select_set xflag realpath quiet_set path set)
  <-> p = path \/ realpath path = Some p \/ p ∈ set.
Proof.
  unfold pathtrace_select_set. destruct (realpath path) as [r|]; cbn [fst].
  - destruct (bytes_eqb path r) eqn:E; cbn [fst]; rewrite !storepath_elem; [|naive_solver].
    apply bytes_eqb_spec in E as ->. naive_solver.
  - rewrite storepath_elem. naive_solver.
Qed.

Lemma select_NoDup path set : base.NoDup set -> base.NoDup (fst (pathtrace_select_set xflag realpath quiet_set path set)).
Proof.
  intros H. unfold pathtrace_select_set. destruct (realpath path) as [r|]; cbn [fst]; [|by apply storepath_NoDup].
  destruct (bytes_eqb path r); cbn [fst]; auto using storepath_NoDup.
Qed.

Lemma select_all_spec paths : forall set, base.NoDup set ->
  base.NoDup (select_all paths set)
  /\ forall p, p ∈ select_all paths set <-> p ∈ set \/ exists q, q ∈ paths /\ (p = q \/ realpath q = Some p).
Proof.
  induction paths as [|q paths IH]; intros set Hnd.
  - split; [done|]. intros p. split; [by left|]. intros [|(q & Hq & _)]; [done|]. by apply not_elem_of_nil in Hq.
  - destruct (IH _ (select_NoDup q set Hnd)) as [Hnd' Hel]. split; [done|]. intros p.
    change (select_all (q :: paths) set) with (select_all paths (fst (pathtrace_select_set xflag realpath quiet_set q set))).
    rewrite Hel, select_elem. setoid_rewrite elem_of_cons. naive_solver.
Qed.

(** After -P for each of some paths, a path matches exactly when it is one
    of them or what [realpath] makes of one of them; no path is stored twice;
    the message about a resolved path shows both so that they read back, within
    buffers of four characters for each of theirs and four more. *)
Theorem pathtrace_select_correct paths :
  base.NoDup (select_all paths [])
  /\ (forall p, pathmatch p (Some (select_all paths [])) = true
                <-> exists q, q ∈ paths /\ (p = q \/ realpath q = Some p))
  /\ (forall q set r a b, realpath q = Some r ->
        snd (pathtrace_select_set xflag realpath quiet_set q set) = Some (a, b) ->
        Forall byte q -> Forall byte r -> ~ In 0 q -> ~ In 0 r -> lenZ q < 2 ^ 30 - 1 -> lenZ r < 2 ^ 30 - 1 ->
        q <> r /\ is_number_in_set QUIET_PATH_RESOLVE quiet_set = false
        /\ unquote a = Some (q, []) /\ unquote b = Some (r, [])
        /\ lenZ a + 1 <= lenZ q * 4 + 4 /\ lenZ b + 1 <= lenZ r * 4 + 4).
Proof.
  destruct (select_all_spec paths [] (base.NoDup_nil_2)) as [Hnd Hel]. split; [done|]. split.
  { intros p. rewrite pathmatch_elem, Hel. split; [|by right]. intros [H|H]; [by apply not_elem_of_nil in H|done]. }
  intros q set r a b Hr Hm Hq Hr' Hq0 Hr0 Hql Hrl. unfold pathtrace_select_set in Hm. rewrite Hr in Hm.
  destruct (bytes_eqb q r) eqn:E; [done|]. cbn [snd] in Hm.
  split; [intros ->; by rewrite (proj2 (bytes_eqb_spec r r) eq_refl) in E|].
  destruct (is_number_in_set QUIET_PATH_RESOLVE quiet_set); [done|]. split; [done|]. injection Hm as <- <-.
  assert (Hquoted : forall p, Forall byte p -> ~ In 0 p -> lenZ p < 2 ^ 30 - 1 ->
    let t := fst (string_quote (hexstr_style xflag QUOTE_0_TERMINATED) QUOTE_0_TERMINATED None (p ++ [0]) (lenZ p + 1)) in
    unquote t = Some (p, []) /\ lenZ t + 1 <= lenZ p * 4 + 4).
  { intros p Hp Hp0 Hpl. pose proof (lenZ_nonneg p).
    destruct (quote_terminated xflag (lenZ p) ltac:(lia) QUOTE_0_TERMINATED eq_refl eq_refl p [] (lenZ p + 1)
      eq_refl Hp Hp0 ltac:(lia) ltac:(lia)) as (t & -> & Ht & Hlen). cbn [fst].
    split; [by rewrite <- (app_nil_r t)|]. unfold outstr_size in Hlen. rewrite uint_small in Hlen by (unfold in_uint; lia). lia. }
  destruct (Hquoted q Hq Hq0 Hql), (Hquoted r Hr' Hr0 Hrl). auto.
Qed.
End select.

(** ** The path of a descriptor *)

Section fd_facts.
Context {FS : FdSystem}.

Lemma del_suffix p : skipn (length p) (p ++ del_sfx) = del_sfx.
Proof. apply drop_app_length. Qed.

(** [get_proc_pid_fd_path] gives the path the link shows when it fits the
    buffer: whole when it does not end in " (deleted)" or when a file of that
    very name is the one the descriptor refers to; otherwise the suffix is taken
    off and the path reported as deleted.  The result is the length of the path
    in the first case and one more in the second. *)
Theorem get_proc_pid_fd_path_correct proc_pid fd bufsize link :
  0 <= fd -> readlink proc_pid fd = Some link -> lenZ link < bufsize ->
  ((forall p, link <> p ++ del_sfx) ->
     get_proc_pid_fd_path proc_pid fd bufsize = (lenZ link, Some (link, false)))
  /\ (forall p, link = p ++ del_sfx -> 2 <= lenZ p ->
     get_proc_pid_fd_path proc_pid fd bufsize
     = match stat_link proc_pid fd with
       | Some st => if decide (lstat_file link = Some st) then (lenZ link, Some (link, false))
                    else (lenZ p + 1, Some (p, true))
       | None => (lenZ link, Some (link, false))
       end).
Proof.
  intros Hfd Hl Hfit. unfold get_proc_pid_fd_path. replace (fd <? 0) with false by lia. rewrite Hl.
  rewrite firstn_all2 by (unfold lenZ in Hfit; lia). change (lenZ del_sfx) with 10. split.
  - intros Hn. destruct (Z.leb_spec (lenZ link) (10 + 1)); [done|].
    destruct (bytes_eqb _ del_sfx) eqn:E; [|done]. apply bytes_eqb_spec in E.
    destruct (Hn (firstn (Z.to_nat (lenZ link - 10)) link)). rewrite <- E. by rewrite firstn_skipn.
  - intros p -> Hp. rewrite lenZ_app. change (lenZ del_sfx) with 10.
    replace (lenZ p + 10 <=? 10 + 1) with false by lia.
    replace (Z.to_nat (lenZ p + 10 - 10)) with (length p) by (unfold lenZ; lia).
    rewrite del_suffix, (proj2 (bytes_eqb_spec del_sfx del_sfx) eq_refl). cbn [negb].
    destruct (stat_link proc_pid fd) as [st|]; [|done]. rewrite bool_decide_decide.
    destruct (decide (lstat_file (p ++ del_sfx) = Some st)); [done|]. rewrite take_app_length.
    f_equal. lia.
Qed.

Lemma fd_path_nonneg pid fd bufsize n p : getfdpath_pid pid fd bufsize = (n, Some p) -> 0 <= n.
Proof.
  unfold getfdpath_pid, get_proc_pid_fd_path. intros H.
  repeat case_match; simplify_eq; try apply lenZ_nonneg. lia.
Qed.

(** ** What a syscall names *)

Inductive object := Ofd (fd : Z) | Opath (p : list Z).

(** What is selected with -P and -e trace-fds. *)
Definition selected (pid : Z) (set : option path_set) (fdset : option number_set) (o : object) : Prop :=
  match o with
  | Ofd fd => (exists s, fdset = Some s /\ 0 <= fd /\ is_number_in_set fd (Some s) = true)
              \/ exists l n p d, set = Some l /\ getfdpath_pid pid fd (PATH_MAX + 1) = (n, Some (p, d)) /\ p ∈ l
  | Opath p => exists l, set = Some l /\ p ∈ l
  end.

Lemma fdmatch_spec pid fd set fdset : fdmatch pid fd set fdset = true <-> selected pid set fdset (Ofd fd).
Proof.
  unfold fdmatch. cbn [selected].
  destruct ((match fdset with Some _ => true | None => false end) && (0 <=? fd) && is_number_in_set fd fdset) eqn:E.
  - split; [intros _|done]. left. destruct fdset as [s|]; [|done]. exists s. split; [done|].
    apply andb_true_iff in E as [E ?]. split; [lia|done].
  - assert (Hno : ~ exists s, fdset = Some s /\ 0 <= fd /\ is_number_in_set fd (Some s) = true).
    { intros (s & -> & Hfd & Hs). rewrite Hs, andb_true_r in E. lia. }
    destruct set as [l|]; [|split; [done|]; intros [?|(l & n & p & d & ? & _)]; done].
    destruct (getfdpath_pid pid fd (PATH_MAX + 1)) as [n [[p d]|]] eqn:Ep.
    + pose proof (fd_path_nonneg _ _ _ _ _ Ep). replace (0 <=? n) with true by lia. cbn [andb].
      rewrite pathmatch_elem. split.
      * intros Hp. right. by exists l, n, p, d.
      * intros [?|(l' & n' & p' & d' & [= <-] & [= <- <- <-] & Hp)]; done.
    + split; [done|]. intros [?|(l' & n' & p' & d' & _ & ? & _)]; done.
Qed.
End fd_facts.

(** ** The arguments *)

(** Where the objects of a syscall are: an argument that is a descriptor, or
    points to a path; the arguments of select or mmap in memory; the sets of
    select; the array of poll. *)
Inductive place := FdArg (i : Z) | PathArg (i : Z) | OldMmap | OldSelect | Select | Poll.

Section spec.
Context {TM : TraceeMemory} {FS : FdSystem}.
Variable page_bits : Z.
Hypothesis page_bits_ok : 3 <= page_bits < 32.
Abbreviation page_size := (2 ^ page_bits).
Context {ML : MemoryLaws TM page_size}.
Variables (narrow is_bigendian have_old_mmap have_old_mmap_pgoff have_old_select klong_narrow align_even : bool).
Variables (m : mstate) (pid : Z).
Abbreviation valid a := (tracee_addr_is_invalid narrow a = false).

(** The places of each syscall. *)
Definition places (s : sen) (sys_flags : Z) (u_arg : list Z) : list place :=
  let other := if has sys_flags TRACE_FILE then [PathArg 0] else [FdArg 0] in
  if negb (has sys_flags (Z.lor (Z.lor TRACE_FILE TRACE_DESC) TRACE_NETWORK)) then []
  else
  match s with
    | SEN_dup2 | SEN_dup3 | SEN_kexec_file_load | SEN_sendfile | SEN_sendfile64 | SEN_tee =>
      [FdArg 0; FdArg 1]
    | SEN_execveat | SEN_faccessat | SEN_faccessat2 | SEN_fchmodat | SEN_fchmodat2 | SEN_fchownat |
      SEN_file_getattr | SEN_file_setattr | SEN_fspick | SEN_fstatat64 | SEN_futimesat | SEN_getxattrat |
      SEN_inotify_add_watch | SEN_listxattrat | SEN_mkdirat | SEN_mknodat | SEN_mount_setattr |
      SEN_name_to_handle_at | SEN_newfstatat | SEN_open_tree | SEN_open_tree_attr | SEN_openat | SEN_openat2 |
      SEN_readlinkat | SEN_removexattrat | SEN_setxattrat | SEN_statx | SEN_unlinkat | SEN_utimensat_time32 |
      SEN_utimensat_time64 =>
      [FdArg 0; PathArg 1]
    | SEN_link | SEN_mount | SEN_pivotroot =>
      [PathArg 0; PathArg 1]
    | SEN_quotactl | SEN_symlink =>
      [PathArg 1]
    | SEN_linkat | SEN_move_mount | SEN_renameat2 | SEN_renameat =>
      [FdArg 0; PathArg 1; FdArg 2; PathArg 3]
    | SEN_old_mmap => if have_old_mmap then [OldMmap] else other
    | SEN_old_mmap_pgoff => if have_old_mmap && have_old_mmap_pgoff then [OldMmap] else other
    | SEN_mmap | SEN_mmap_4koff | SEN_mmap_pgoff | SEN_ARCH_mmap =>
      [FdArg 4]
    | SEN_symlinkat =>
      [FdArg 1; PathArg 2]
    | SEN_copy_file_range | SEN_splice =>
      [FdArg 0; FdArg 2]
    | SEN_epoll_ctl => [FdArg 2]
    | SEN_fanotify_mark => if klong_narrow then [FdArg 4; PathArg 5] else [FdArg 3; PathArg 4]
    | SEN_oldselect =>
        if have_old_select then [OldSelect] else other
    | SEN_pselect6_time32 | SEN_pselect6_time64 | SEN_select =>
      [Select]
    | SEN_poll_time32 | SEN_poll_time64 | SEN_ppoll_time32 | SEN_ppoll_time64 =>
      [Poll]
    | SEN_fsconfig =>
        let cmd := uint 32 (nthZ u_arg 1) in
        if (cmd =? 3) || (cmd =? 4) then [FdArg 4; PathArg 3] else if cmd =? 5 then [FdArg 4] else []
    | SEN_bpf | SEN_epoll_create | SEN_epoll_create1 | SEN_eventfd2 | SEN_eventfd | SEN_fanotify_init |
      SEN_fsopen | SEN_inotify_init | SEN_inotify_init1 | SEN_io_uring_setup | SEN_landlock_create_ruleset |
      SEN_memfd_create | SEN_memfd_secret | SEN_mq_open | SEN_perf_event_open | SEN_pidfd_open | SEN_pipe |
      SEN_pipe2 | SEN_printargs | SEN_socket | SEN_socketpair | SEN_timerfd_create | SEN_userfaultfd =>
      []
    | SEN_other => other
  end.

(** The path of at most PATH_MAX bytes at an address. *)
Definition names_path (a : Z) (p : list Z) : Prop :=
  valid a /\ string_at page_bits m a (Z.to_nat (PATH_MAX + 1)) = Some (p, true).

(** Arguments in memory. *)
Definition args_at (a n : Z) (args : list Z) : Prop :=
  valid a /\ exists bytes, bytes_at byte_at m a (wordsize narrow * n) = Some bytes
    /\ args = words narrow is_bigendian (Z.to_nat n) bytes.

(** Descriptor [j] is in one of the sets; the number of descriptors is limited. *)
Definition in_select (args : list Z) (j : Z) : Prop :=
  0 <= j < Z.min (sint 32 (nthZ args 0)) MAX_FDS
  /\ exists a fds, In a [nthZ args 1; nthZ args 2; nthZ args 3] /\ a <> 0 /\ valid a
       /\ bytes_at byte_at m a (select_fdsize narrow (Z.min (sint 32 (nthZ args 0)) MAX_FDS)) = Some fds
       /\ bit_at fds (if is_bigendian then wordsize narrow - 1 else 0) j = true.

(** The descriptor of element [i] of the array, which is accessible up to it. *)
Definition in_poll (start nfds fd : Z) : Prop :=
  exists i bytes, 0 <= i < Z.min (uint 32 nfds) MAX_FDS
    /\ (forall j, 0 <= j < i -> valid (start + SIZEOF_POLLFD * j)
          /\ is_Some (bytes_at byte_at m (start + SIZEOF_POLLFD * j) SIZEOF_POLLFD))
    /\ valid (start + SIZEOF_POLLFD * i)
    /\ bytes_at byte_at m (start + SIZEOF_POLLFD * i) SIZEOF_POLLFD = Some bytes
    /\ fd = sint 32 (word_value is_bigendian (firstn 4 bytes)).

(** The objects at a place. *)
Inductive holds_object (u_arg : list Z) : place -> object -> Prop :=
  | H_fd i : holds_object u_arg (FdArg i) (Ofd (sint 32 (nthZ u_arg i)))
  | H_path i p : names_path (nthZ u_arg i) p -> holds_object u_arg (PathArg i) (Opath p)
  | H_mmap args : args_at (nthZ u_arg 0) 6 args -> holds_object u_arg OldMmap (Ofd (sint 32 (nthZ args 4)))
  | H_oldselect args j : args_at (nthZ u_arg 0) 5 args -> in_select args j -> holds_object u_arg OldSelect (Ofd j)
  | H_select j : in_select u_arg j -> holds_object u_arg Select (Ofd j)
  | H_poll fd : in_poll (nthZ u_arg 0) (nthZ u_arg 1) fd -> holds_object u_arg Poll (Ofd fd).

(** Pointers are below the middle of the address space. *)
Definition user_args (args : list Z) : Prop := forall i, 0 <= nthZ args i < 2 ^ 63.

(** ** The tests decide the specification *)

Definition good (c : ucopy) : Prop := cache_ok page_bits m c /\ process_vm_readv_not_supported c = false.
Definition decides (t : test) (P : Prop) : Prop :=
  forall c, good c -> exists b c', t c = Some (b, c') /\ good c' /\ (b = true <-> P).

Lemma decides_iff t P Q : (P <-> Q) -> decides t P -> decides t Q.
Proof. intros HPQ H c Hc. destruct (H c Hc) as (b & c' & ? & ? & ?). exists b, c'. split_and!; tauto. Qed.

Lemma decides_ret b P : (b = true <-> P) -> decides (retM b) P.
Proof. intros H c Hc. by exists b, c. Qed.

Lemma decides_or a b P Q : decides a P -> decides b Q -> decides (orM a b) (P \/ Q).
Proof.
  intros Ha Hb c Hc. destruct (Ha c Hc) as (r & c' & E & Hc' & Hr). unfold orM. rewrite E. cbn [mbind option_bind].
  destruct r.
  - exists true, c'. split_and!; [done..|tauto].
  - destruct (Hb c' Hc') as (r & c'' & -> & Hc'' & Hr'). exists r, c''. split_and!; [done..|]. rewrite Hr'.
    split; [by right|]. intros [HP|]; [|done]. by apply Hr in HP.
Qed.

Lemma decides_fd fd set fdset : decides (retM (fdmatch pid fd set fdset)) (selected pid set fdset (Ofd fd)).
Proof. apply decides_ret, fdmatch_spec. Qed.

Lemma cstr_string p rest : ~ In 0 p -> cstr ((p ++ [0]) ++ rest) = p.
Proof.
  intros Hp. unfold cstr. replace (find_nul ((p ++ [0]) ++ rest)) with (Some (length p)).
  - rewrite <- app_assoc. apply take_app_length.
  - induction p as [|x p IH]; [done|]. cbn. destruct (Z.eqb_spec x 0) as [->|]; [by destruct Hp; left|].
    rewrite <- IH; [done|]. intros H. apply Hp. by right.
Qed.

Lemma decides_path a set fdset :
  0 <= a < 2 ^ 63 ->
  decides (upathmatch page_size narrow m a set) (exists p, names_path a p /\ selected pid set fdset (Opath p)).
Proof.
  intros Ha c [Hc Hs]. unfold upathmatch. destruct set as [l|].
  2: { exists false, c. split_and!; [done..|]. split; [done|]. by intros (p & _ & l & ? & _). }
  destruct (tracee_addr_is_invalid narrow a) eqn:Hv.
  { unfold umovestr. rewrite Hv. eexists _, c. split_and!; [done..|]. split; [done|].
    intros (p & [? _] & _). congruence. }
  pose proof (page_size_pos page_bits page_bits_ok).
  destruct (umovestr_spec page_bits page_bits_ok narrow m c a (PATH_MAX + 1) Hc Hs ltac:(lia) ltac:(done)
    ltac:(unfold PATH_MAX; lia) Hv) as (n & bytes & c' & -> & Hc' & Hs' & _ & Hres). cbn [mbind option_bind].
  eexists _, c'. split; [done|]. split; [done|]. unfold names_path.
  pose proof (scan_string page_bits m a (Z.to_nat (PATH_MAX + 1))) as Hscan.
  destruct (scan page_bits m a (Z.to_nat (PATH_MAX + 1))) as [[k|]|].
  - destruct Hscan as (p & -> & Hk & Hp0 & _ & Hpb). destruct Hres as (-> & l1 & rest & Hl1 & ->).
    unfold bytes_at in Hl1. replace (Z.to_nat (Z.of_nat k + 1)) with (S k) in Hl1 by lia.
    rewrite Hpb in Hl1. injection Hl1 as <-. rewrite cstr_string by done.
    replace (0 <? Z.of_nat k + 1) with true by lia. rewrite andb_true_l, pathmatch_elem. split.
    + intros Hp. exists p. split; [done|]. by exists l.
    + intros (p' & [_ [= <-]] & l' & [= <-] & Hp'). done.
  - destruct Hscan as (p & -> & _), Hres as (-> & _). split; [done|]. by intros (p' & [_ ?] & _).
  - subst n. rewrite Hscan. split; [done|]. by intros (p' & [_ ?] & _).
Qed.

(** Reads at pointers of the tracee. *)
Lemma umoven_user c a len :
  good c -> 0 <= a < 2 ^ 63 + 2 ^ 31 -> 0 <= len < 2 ^ 31 ->
  exists rc bytes c', umoven page_size narrow m c a len = Some (rc, bytes, c') /\ good c'
    /\ ((rc = 0 /\ valid a /\ bytes_at byte_at m a len = Some bytes)
        \/ (rc = -1 /\ ~ (valid a /\ is_Some (bytes_at byte_at m a len)))).
Proof.
  intros [Hc Hs] Ha Hlen. destruct (tracee_addr_is_invalid narrow a) eqn:Hv.
  { unfold umoven. rewrite Hv. eexists _, _, c. split_and!; [done..|]. right. split; [done|]. by intros [? _]. }
  pose proof (page_size_pos page_bits page_bits_ok).
  destruct (umoven_spec page_bits page_bits_ok narrow m c a len Hc ltac:(lia) Hlen ltac:(lia) Hv)
    as (rc & bytes & c' & -> & Hc' & Hs' & _ & Hres). exists rc, bytes, c'. split; [done|].
  split; [split; [done|congruence]|]. destruct (bytes_at byte_at m a len) as [l|].
  - destruct Hres as [-> ->]. by left.
  - right. split; [done|]. by intros [_ []].
Qed.

Variables (set : option path_set) (fdset : option number_set).
Abbreviation chosen fd := (selected pid set fdset (Ofd fd)).

Lemma bits_loop_spec fuel fds j nfds :
  0 <= j <= nfds -> nfds < 2 ^ 31 -> nfds - j < Z.of_nat fuel ->
  exists r, bits_loop narrow is_bigendian pid fuel fds j nfds set fdset = Some r
    /\ (r = true <-> exists k, j <= k < nfds /\ bit_at fds (if is_bigendian then wordsize narrow - 1 else 0) k = true /\ chosen k).
Proof.
  revert j. induction fuel as [|fuel IH]; intros j Hj Hn Hf; [lia|]. cbn [bits_loop].
  destruct (next_set_bit_spec fds (if is_bigendian then wordsize narrow - 1 else 0) j nfds ltac:(lia) ltac:(lia))
    as (k & -> & Hk). cbn [mbind option_bind]. destruct Hk as [[-> Hz]|(Hk & Hb & Hz)].
  - exists false. split; [done|]. split; [done|]. intros (i & Hi & Hbi & _). rewrite Hz in Hbi by lia. done.
  - replace (k <? 0) with false by lia. destruct (fdmatch pid k set fdset) eqn:E.
    + exists true. split; [done|]. split; [intros _|done]. exists k. split; [done|]. split; [done|].
      by apply fdmatch_spec.
    + destruct (IH (k + 1)) as (r & -> & Hr); [lia..|]. exists r. split; [done|]. rewrite Hr. split.
      * intros (i & Hi & H). exists i. split; [lia|done].
      * intros (i & Hi & Hbi & Hs). exists i. split; [|done]. destruct (Z.eq_dec i k) as [->|].
        -- apply fdmatch_spec in Hs. congruence.
        -- destruct (Z_lt_ge_dec i k); [|lia]. rewrite Hz in Hbi by lia. done.
Qed.

(** A descriptor of a set at [a]. *)
Definition set_names (fdsize nfds a : Z) : Prop :=
  a <> 0 /\ valid a /\ exists fds j, bytes_at byte_at m a fdsize = Some fds /\ 0 <= j < nfds
    /\ bit_at fds (if is_bigendian then wordsize narrow - 1 else 0) j = true /\ chosen j.

Lemma decides_sets l fdsize nfds :
  Forall (fun a => 0 <= a < 2 ^ 63) l -> 0 <= fdsize < 2 ^ 31 -> 0 <= nfds < 2 ^ 31 ->
  decides (sets_loop page_size narrow is_bigendian m pid l fdsize nfds set fdset) (Exists (set_names fdsize nfds) l).
Proof.
  intros Hl Hfs Hn. induction Hl as [|a l Ha Hl IH]; cbn [sets_loop].
  { apply decides_ret. split; [done|]. by intros ?%Exists_nil. }
  intros c Hc. setoid_rewrite Exists_cons.
  destruct (Z.eqb_spec a 0) as [->|Hnz].
  { destruct (IH c Hc) as (b & c' & ? & ? & Hb). exists b, c'. split_and!; [done..|]. rewrite Hb.
    split; [by right|]. by intros [[? _]|]. }
  destruct (umoven_user c a fdsize Hc ltac:(lia) Hfs) as (rc & fds & c' & -> & Hc' & Hr). cbn [mbind option_bind].
  destruct Hr as [(-> & Hv & Hfds)|(-> & Hno)].
  - cbn [Z.ltb Z.compare]. destruct (bits_loop_spec (Z.to_nat nfds + 1) fds 0 nfds) as (r & -> & Hr); [lia..|].
    cbn [mbind option_bind].
    assert (Hset : r = true <-> set_names fdsize nfds a).
    { rewrite Hr. unfold set_names. split.
      - intros (k & H1 & H2 & H3). split; [done|]. split; [done|]. exists fds, k. auto.
      - intros (_ & _ & fds' & k & E & H1 & H2 & H3). rewrite Hfds in E. injection E as <-. eauto. }
    destruct r; [exists true, c'; split_and!; [done..|]; split; [left; by apply Hset|done]|].
    destruct (IH c' Hc') as (b & c'' & ? & ? & Hb). exists b, c''. split_and!; [done..|]. rewrite Hb.
    split; [by right|]. by intros [Hs%Hset|].
  - destruct (IH c' Hc') as (b & c'' & ? & ? & Hb). exists b, c''. split_and!; [done..|]. rewrite Hb.
    split; [by right|]. intros [(_ & Hv & fds' & k & E & _)|]; [|done]. destruct Hno. rewrite E. done.
Qed.

Lemma select_fdsize_range n : 0 <= n <= MAX_FDS -> 0 <= select_fdsize narrow n < 2 ^ 31.
Proof.
  unfold MAX_FDS, select_fdsize. intros Hn.
  assert (Hd : 0 <= (n + 7) / 8 <= 2 ^ 20) by (split; [apply Z.div_pos|apply Z.div_le_upper_bound]; lia).
  rewrite (uint_small 32 (_ + _ - 1)) by (unfold in_uint, wordsize; destruct narrow; lia).
  assert (Hx : in_uint 31 ((n + 7) / 8 + wordsize narrow - 1)) by (unfold in_uint, wordsize; destruct narrow; lia).
  apply (in_uint_bits 31); [lia|apply Z.land_nonneg; left; apply Hx|].
  intros i Hi. by rewrite Z.land_spec, (testbit_high 31 _ i Hx Hi).
Qed.

Lemma decides_select args :
  user_args args ->
  decides (match_xselect_args page_size narrow is_bigendian m pid args set fdset) (exists j, in_select args j /\ chosen j).
Proof.
  intros Hu. unfold match_xselect_args. set (n := sint 32 (nthZ args 0)).
  destruct (Z.leb_spec n 0).
  { apply decides_ret. split; [done|]. intros (j & [Hj _] & _). fold n in Hj. lia. }
  replace (if MAX_FDS <? n then MAX_FDS else n) with (Z.min n MAX_FDS) by (bcase; lia).
  eapply decides_iff; [|apply decides_sets]; [| |apply select_fdsize_range; unfold MAX_FDS; lia|unfold MAX_FDS; lia].
  - rewrite List.Exists_exists. unfold in_select, set_names. fold n. split.
    + intros (a & Hin & Hnz & Hv & fds & j & Hb & Hj & Hbit & Hs). exists j. split; [|done]. split; [done|]. by exists a, fds.
    + intros (j & (Hj & a & fds & Hin & Hnz & Hv & Hb & Hbit) & Hs). exists a. do 3 (split; [done|]). by exists fds, j.
  - repeat constructor; apply Hu.
Qed.

(** The elements from the [k]-th on, of [n]. *)
Lemma decides_poll_loop fuel start k n :
  0 <= start < 2 ^ 63 -> 0 <= k -> 0 <= n <= MAX_FDS -> n - k <= Z.of_nat fuel ->
  (forall j, 0 <= j < k -> valid (start + SIZEOF_POLLFD * j)
     /\ exists bytes, bytes_at byte_at m (start + SIZEOF_POLLFD * j) SIZEOF_POLLFD = Some bytes
        /\ fdmatch pid (sint 32 (word_value is_bigendian (firstn 4 bytes))) set fdset = false) ->
  decides (poll_loop page_size narrow is_bigendian m pid fuel (start + SIZEOF_POLLFD * k)
             (start + SIZEOF_POLLFD * n) set fdset)
    (exists i bytes, 0 <= i < n
      /\ (forall j, 0 <= j < i -> valid (start + SIZEOF_POLLFD * j)
            /\ is_Some (bytes_at byte_at m (start + SIZEOF_POLLFD * j) SIZEOF_POLLFD))
      /\ valid (start + SIZEOF_POLLFD * i)
      /\ bytes_at byte_at m (start + SIZEOF_POLLFD * i) SIZEOF_POLLFD = Some bytes
      /\ chosen (sint 32 (word_value is_bigendian (firstn 4 bytes)))).
Proof.
  intros Hs Hk Hn. unfold MAX_FDS in Hn. revert k Hk.
  induction fuel as [|fuel IH]; intros k Hk Hf Hbefore c Hc; cbn [poll_loop].
  all: assert (Hnone : forall i bytes, 0 <= i < k ->
         bytes_at byte_at m (start + SIZEOF_POLLFD * i) SIZEOF_POLLFD = Some bytes ->
         ~ chosen (sint 32 (word_value is_bigendian (firstn 4 bytes)))).
  1,3: intros i bytes Hi Hb Hch; destruct (Hbefore i Hi) as (_ & bytes' & Hb' & Hno); rewrite Hb in Hb';
       injection Hb' as <-; apply fdmatch_spec in Hch; congruence.
  all: destruct (Z.leb_spec (start + SIZEOF_POLLFD * n) (start + SIZEOF_POLLFD * k)) as [Hend|Hin];
    unfold SIZEOF_POLLFD in Hend || unfold SIZEOF_POLLFD in Hin; [|try lia].
  1,2: exists false, c; split_and!; [done..|]; split; [done|];
       intros (i & bytes & Hi & _ & _ & Hb & Hch); destruct (Hnone i bytes ltac:(lia) Hb Hch).
  destruct (umoven_user c (start + SIZEOF_POLLFD * k) SIZEOF_POLLFD Hc ltac:(unfold SIZEOF_POLLFD; lia)
    ltac:(unfold SIZEOF_POLLFD; lia)) as (rc & bytes & c' & -> & Hc' & Hr). cbn [mbind option_bind].
  destruct Hr as [(-> & Hv & Hb)|(-> & Hno)]; cbn [Z.eqb negb].
  - destruct (fdmatch pid _ set fdset) eqn:E.
    + exists true, c'. split_and!; [done..|]. split; [intros _|done]. exists k, bytes. split; [lia|].
      split; [|split; [done|]; split; [done|by apply fdmatch_spec]].
      intros j Hj. destruct (Hbefore j Hj) as (? & bytes' & -> & _). done.
    + rewrite uint_small by (unfold in_uint, SIZEOF_POLLFD; lia).
      replace (start + SIZEOF_POLLFD * k + SIZEOF_POLLFD) with (start + SIZEOF_POLLFD * (k + 1)) by lia.
      apply IH; [lia..| |done]. intros j Hj. destruct (Z.eq_dec j k) as [->|]; [|apply Hbefore; lia].
      split; [done|]. by exists bytes.
  - exists false, c'. split_and!; [done..|]. split; [done|]. intros (i & bytes' & Hi & Hacc & Hvi & Hb & Hch).
    destruct (Z_lt_ge_dec i k); [by destruct (Hnone i bytes' ltac:(lia) Hb Hch)|]. destruct Hno.
    destruct (Z.eq_dec i k) as [->|]; [rewrite Hb; done|]. apply Hacc. lia.
Qed.

Lemma decides_poll u_arg :
  user_args u_arg ->
  decides (match_poll page_size narrow is_bigendian m pid u_arg set fdset)
    (exists fd, in_poll (nthZ u_arg 0) (nthZ u_arg 1) fd /\ chosen fd).
Proof.
  intros Hu. unfold match_poll, in_poll. pose proof (Hu 0) as Hs. set (start := nthZ u_arg 0) in *.
  set (n := uint 32 (nthZ u_arg 1)). pose proof (uint_range 32 (nthZ u_arg 1) ltac:(lia)) as Hn. fold n in Hn. unfold in_uint in Hn.
  replace (if MAX_FDS <? n then MAX_FDS else n) with (Z.min n MAX_FDS) by (bcase; lia).
  set (k := Z.min n MAX_FDS). assert (Hk : 0 <= k <= MAX_FDS) by (unfold k, MAX_FDS; lia). unfold MAX_FDS in Hk.
  rewrite uint_small by (unfold in_uint, SIZEOF_POLLFD; lia).
  replace (start + SIZEOF_POLLFD * k <? start) with false by (unfold SIZEOF_POLLFD; lia). rewrite orb_false_r.
  destruct (Z.eqb_spec k 0) as [->|Hk0].
  { apply decides_ret. split; [done|]. intros (fd & (i & bytes & Hi & _) & _). lia. }
  pose proof (decides_poll_loop (Z.to_nat k) start 0 k Hs ltac:(lia) ltac:(unfold MAX_FDS; lia) ltac:(lia) ltac:(lia)) as H.
  rewrite Z.mul_0_r, Z.add_0_r in H. eapply decides_iff; [|exact H]. split.
  - intros (i & bytes & H1 & H2 & H3 & H4 & H5). eexists. split; [|exact H5]. by exists i, bytes.
  - intros (fd & (i & bytes & H1 & H2 & H3 & H4 & ->) & H5). by exists i, bytes.
Qed.

Lemma decides_indirect a n k (P : list Z -> Prop) :
  0 <= a < 2 ^ 63 -> 0 <= n <= 6 -> (forall args, args_at a n args -> decides (k args) (P args)) ->
  decides (fun c => '(args, c) ← fetch_indirect_syscall_args page_size narrow is_bigendian m a n c;
                    match args with Some args => k args c | None => Some (false, c) end)
    (exists args, args_at a n args /\ P args).
Proof.
  intros Ha Hn Hk c Hc. unfold fetch_indirect_syscall_args.
  destruct (umoven_user c a (wordsize narrow * n) Hc ltac:(lia) ltac:(unfold wordsize; destruct narrow; lia))
    as (rc & bytes & c' & -> & Hc' & Hr). cbn [mbind option_bind].
  destruct Hr as [(-> & Hv & Hb)|(-> & Hno)]; cbn [Z.eqb mbind option_bind].
  - assert (Hat : args_at a n (words narrow is_bigendian (Z.to_nat n) bytes)) by (split; [done|]; by exists bytes).
    destruct (Hk _ Hat c' Hc') as (b & c'' & -> & Hc'' & Hb'). exists b, c''. split_and!; [done..|]. rewrite Hb'.
    split; [by eexists|]. intros (args & (_ & bytes' & E & ->) & HP). rewrite Hb in E. by injection E as <-.
  - exists false, c'. split_and!; [done..|]. split; [done|]. intros (args & (Hv & bytes' & E & _) & _).
    destruct Hno. rewrite E. done.
Qed.

(** *** The switch *)

Section switch.
Variable u_arg : list Z.
Hypothesis user : user_args u_arg.

(** A selected object is at the place. *)
Definition place_chosen (pl : place) : Prop := exists o, holds_object u_arg pl o /\ selected pid set fdset o.

Lemma place_fd i : decides (retM (fdmatch pid (sint 32 (nthZ u_arg i)) set fdset)) (place_chosen (FdArg i)).
Proof.
  eapply decides_iff; [|apply decides_fd]. split; [intros H; eexists; split; [constructor|done]|].
  intros (o & Ho & H). by inversion Ho; subst.
Qed.

Lemma place_path i : decides (upathmatch page_size narrow m (nthZ u_arg i) set) (place_chosen (PathArg i)).
Proof.
  eapply decides_iff; [|apply (decides_path _ set fdset), user]. split.
  - intros (p & Hp & H). exists (Opath p). split; [by constructor|done].
  - intros (o & Ho & H). inversion Ho; subst. eauto.
Qed.

Lemma place_select : decides (match_xselect_args page_size narrow is_bigendian m pid u_arg set fdset) (place_chosen Select).
Proof.
  eapply decides_iff; [|by apply decides_select]. split.
  - intros (j & Hj & H). exists (Ofd j). split; [by constructor|done].
  - intros (o & Ho & H). inversion Ho; subst. eauto.
Qed.

Lemma place_poll : decides (match_poll page_size narrow is_bigendian m pid u_arg set fdset) (place_chosen Poll).
Proof.
  eapply decides_iff; [|by apply decides_poll]. split.
  - intros (j & Hj & H). exists (Ofd j). split; [by constructor|done].
  - intros (o & Ho & H). inversion Ho; subst. eauto.
Qed.

Lemma place_mmap :
  decides (fun c => '(args, c) ← fetch_indirect_syscall_args page_size narrow is_bigendian m (nthZ u_arg 0) 6 c;
             match args with
             | Some args => retM (fdmatch pid (sint 32 (nthZ args 4)) set fdset) c
             | None => Some (false, c)
             end) (place_chosen OldMmap).
Proof.
  eapply decides_iff; [|apply (decides_indirect _ 6 (fun args => retM (fdmatch pid (sint 32 (nthZ args 4)) set fdset))
    (fun args => chosen (sint 32 (nthZ args 4)))); [apply user|lia|intros; apply decides_fd]]. split.
  - intros (args & Ha & H). eexists. split; [by apply H_mmap|done].
  - intros (o & Ho & H). inversion Ho; subst. eauto.
Qed.

Lemma place_oldselect :
  (forall args, args_at (nthZ u_arg 0) 5 args -> user_args args) ->
  decides (fun c => '(args, c) ← fetch_indirect_syscall_args page_size narrow is_bigendian m (nthZ u_arg 0) 5 c;
             match args with
             | Some args => match_xselect_args page_size narrow is_bigendian m pid args set fdset c
             | None => Some (false, c)
             end) (place_chosen OldSelect).
Proof.
  intros Hu. eapply decides_iff; [|apply (decides_indirect _ 5
    (fun args => match_xselect_args page_size narrow is_bigendian m pid args set fdset)
    (fun args => exists j, in_select args j /\ chosen j)); [apply user|lia|intros; apply decides_select; auto]]. split.
  - intros (args & Ha & j & Hj & H). eexists. split; [by eapply H_oldselect|done].
  - intros (o & Ho & H). inversion Ho; subst. eauto.
Qed.

Lemma decides_1 t pl : decides t (place_chosen pl) -> decides t (Exists place_chosen [pl]).
Proof. apply decides_iff. rewrite Exists_cons, Exists_nil. tauto. Qed.

Lemma decides_2 t t' pl pl' : decides t (place_chosen pl) -> decides t' (place_chosen pl') ->
  decides (orM t t') (Exists place_chosen [pl; pl']).
Proof.
  intros H H'. eapply decides_iff; [|exact (decides_or _ _ _ _ H H')]. rewrite !Exists_cons, Exists_nil. tauto.
Qed.

Lemma decides_4 t1 t2 t3 t4 pl1 pl2 pl3 pl4 :
  decides t1 (place_chosen pl1) -> decides t2 (place_chosen pl2) ->
  decides t3 (place_chosen pl3) -> decides t4 (place_chosen pl4) ->
  decides (orM t1 (orM t3 (orM t2 t4))) (Exists place_chosen [pl1; pl2; pl3; pl4]).
Proof.
  intros H1 H2 H3 H4. eapply decides_iff;
    [|exact (decides_or _ _ _ _ H1 (decides_or _ _ _ _ H3 (decides_or _ _ _ _ H2 H4)))].
  rewrite !Exists_cons, Exists_nil. tauto.
Qed.

Lemma decides_none : decides (retM false) (Exists place_chosen []).
Proof. apply decides_ret. rewrite Exists_nil. done. Qed.
End switch.

#[local] Hint Resolve place_fd place_path place_select place_poll place_mmap place_oldselect
  decides_1 decides_2 decides_none : strace.

End spec.

(** ** A concrete tracee *)

(** Descriptor 3 is an unlinked file, descriptor 4 one whose name ends so. *)
#[export] Instance demo_fds : FdSystem := {|
  readlink pid fd := if fd =? 3 then Some (codes "/tmp/x (deleted)")
                     else if fd =? 4 then Some (codes "/y (deleted)") else None;
  stat_link pid fd := Some (fd, 1);
  lstat_file p := if bytes_eqb p (codes "/y (deleted)") then Some (4, 1) else None;
  get_proc_pid pid := pid |}.

Lemma user_args_Forall l : Forall (fun a => 0 <= a < 2 ^ 63) l -> user_args l.
Proof.
  intros Hl i. unfold nthZ. destruct (nth_in_or_default (Z.to_nat i) l 0) as [Hin| ->]; [|lia].
  rewrite Forall_forall in Hl. by apply Hl.
Qed.

Lemma pathtrace_select_correct_witness :
  pathmatch (codes "/b") (Some (select_all 0 (fun p => if bytes_eqb p (codes "/a") then Some (codes "/b") else None) None [codes "/a"] [])) = true.
Proof.
  apply (proj1 (proj2 (pathtrace_select_correct 0 (fun p => if bytes_eqb p (codes "/a") then Some (codes "/b") else None) None [codes "/a"]))).
  exists (codes "/a"). split; [by apply list_elem_of_singleton|]. right. by vm_compute.
Defined.

Lemma get_proc_pid_fd_path_correct_witness :
  get_proc_pid_fd_path 1 3 4097 = (lenZ (codes "/tmp/x") + 1, Some (codes "/tmp/x", true)).
Proof.
  refine (eq_trans (proj2 (get_proc_pid_fd_path_correct 1 3 4097 (codes "/tmp/x (deleted)") _ _ _) (codes "/tmp/x") _ _) _);
    by vm_compute.
Defined.

