(* ===== verification/Signals.v ===== *)
(** * Signals and sets of signals (src/signal.c)

    The names of signals and [sprintsigmask_n], which shows a set of signals in
    a static buffer, as those in it or, when most are, as those not in it.  The
    table of names is a parameter; machines are little endian.  A text is a
    [string]; the buffer matters by its size only: the functions that append
    with a check die when the text would not fit. *)

From Stdlib Require Import Ascii.
From stdpp Require Import pretty.
From S2P Require Import Prelude Wait Util NumberSet Xlat Quote UCopy PrintStr Tcb PrintArray.
Open Scope Z_scope.

Definition strlen (s : string) : Z := Z.of_nat (String.length s).

(** The string [n] characters further. *)
Fixpoint skip_chars (n : nat) (s : string) : string :=
  match n, s with S n', String _ s' => skip_chars n' s' | _, _ => s end.

Section signals.
(** [signalent] with [nsignals] entries, ASM_SIGRTMIN and ASM_SIGRTMAX. *)
Variables (nsignals : Z) (signalent : Z -> string) (ASM_SIGRTMIN ASM_SIGRTMAX : Z).
(** NSIG_BYTES and -X. *)
Variables (NSIG_BYTES xlat_verbosity : Z).
Abbreviation style := (xlat_verbose xlat_verbosity).

Definition signame (sig : Z) : option string :=
  if 0 <? sig then
    if sig <? nsignals then Some (signalent sig)
    else if (ASM_SIGRTMIN <=? sig) && (sig <=? ASM_SIGRTMAX) then Some ("SIGRT_" +:+ pretty (sig - ASM_SIGRTMIN))
    else None
  else None.

Definition sprintsigname (sig : Z) : string :=
  match signame sig with Some str => str | None => pretty sig end.

(** What is printed for a signal. *)
Definition printsignal (nr : Z) : string :=
  match signame nr with
  | None => pretty nr
  | Some str =>
      (if negb (style =? XLAT_STYLE_ABBREV) then pretty nr else EmptyString) +:+
      (if style =? XLAT_STYLE_RAW then EmptyString
       else if style =? XLAT_STYLE_VERBOSE then " /* " +:+ str +:+ " */" else str)
  end.

(** ** Sets *)

Definition outstr_bytes : Z := 128 + 8 * (NSIG_BYTES * 8 * 2 / 3).

(** Appending with [xappendstr]: the position must be in the buffer and the text
    fit with its NUL. *)
Definition xappendstr (outstr s : string) : outcome string :=
  if outstr_bytes <? strlen outstr then Die "got position beyond string"
  else if outstr_bytes - strlen outstr <=? strlen s then Die "got unexpected return value"
  else Ret (outstr +:+ s).

Definition when_append (b : bool) (s outstr : string) : outcome string :=
  if b then xappendstr outstr s else Ret outstr.

(** The body of the loop: separator and signal [i]. *)
Definition sigmask_item (i : Z) (sep : ascii) (s : string) : outcome string :=
  let s := s +:+ String sep EmptyString in
  s ← when_append (negb (style =? XLAT_STYLE_ABBREV)) (pretty i) s;
  s ← when_append (style =? XLAT_STYLE_VERBOSE) " /* " s;
  s ← (if negb (style =? XLAT_STYLE_RAW) then
         if i <? nsignals then Ret (s +:+ skip_chars 3 (signalent i))
         else if (ASM_SIGRTMIN <=? i) && (i <=? ASM_SIGRTMAX) then xappendstr s ("RT_" +:+ pretty (i - ASM_SIGRTMIN))
         else when_append (negb (style =? XLAT_STYLE_ABBREV)) (pretty i) s
       else Ret s);
  when_append (style =? XLAT_STYLE_VERBOSE) " */" s.

(** The bytes of the words of a mask. *)
Definition word_bytes (w : Z) : list Z := [w mod 256; w / 256 mod 256; w / 65536 mod 256; w / 16777216 mod 256].

(** The loop; [None]: out of fuel, and the separator tells whether a signal was shown. *)
Fixpoint sigmask_loop (fuel : nat) (mask : list Z) (i bits : Z) (sep : ascii) (s : string)
  : option (outcome (ascii * string)) :=
  match fuel with
  | O => None
  | S fuel' =>
      i ← next_set_bit (flat_map word_bytes mask) 0 i bits;
      if i <? 0 then Some (Ret (sep, s))
      else match sigmask_item (i + 1) sep s with
           | Ret s => sigmask_loop fuel' mask (i + 1) bits " " s
           | Die e => Some (Die e)
           end
  end.

(** Length of the mask in words. *)
Definition sigmask_size (bytes : Z) : Z := (Z.min bytes NSIG_BYTES + 3) / 4.

(** Whether the complement is shown. *)
Definition sigmask_inverted (size : Z) (mask : list Z) : bool := size * (4 * 8) * 2 / 3 <=? popcount32 mask.

Definition sprintsigmask_n (prefix : string) (sig_mask : list Z) (bytes : Z) : option (outcome string) :=
  let size := sigmask_size bytes in
  let mask := firstn (Z.to_nat size) sig_mask in
  let '(s, mask) := if sigmask_inverted size mask then (prefix +:+ "~", map (fun w => uint 32 (Z.lnot w)) mask)
                    else (prefix, mask) in
  r ← sigmask_loop (Z.to_nat (size * (4 * 8)) + 1) mask 0 (size * (4 * 8)) "[" s;
  Some (match r with
        | Ret (sep, s) => Ret ((if Ascii.eqb sep "[" then s +:+ "[" else s) +:+ "]")
        | Die e => Die e
        end).

(** ** Sets of a tracee *)

Context {TM : TraceeMemory}.
Variables (page_size : Z) (narrow : bool).

(** The words of little-endian bytes. *)
Fixpoint le_words (n : nat) (bytes : list Z) : list Z :=
  match n with O => [] | S n' => le_value (firstn 4 bytes) :: le_words n' (skipn 4 bytes) end.

(** The text, and the cache. *)
Definition print_sigset_addr_len_limit (t : tcb) (m : mstate) (c : ucopy) (addr len min_len : Z)
  : option (outcome (list Z) * ucopy) :=
  if (len <? min_len) || (NSIG_BYTES <? len) then Some (Ret (printaddr64 addr), c)
  else
    '(r, c) ← umoven_or_printaddr64 page_size narrow t m c addr len;
    match r with
    | inr text => Some (Ret text, c)
    | inl bytes =>
        let mask := bytes ++ replicate (Z.to_nat (NSIG_BYTES - len)) 0 in
        o ← sprintsigmask_n EmptyString (le_words (Z.to_nat (NSIG_BYTES / 4)) mask) len;
        Some (match o with Ret s => Ret (codes s) | Die e => Die e end, c)
    end.

Definition print_sigset_addr_len (t : tcb) (m : mstate) (c : ucopy) (addr len : Z) : option (outcome (list Z) * ucopy) :=
  print_sigset_addr_len_limit t m c addr len (if narrow then 4 else 8).
End signals.

(** ** Words, bytes and bits *)

Lemma byte_of_word w r : 0 <= r < 4 -> nth (Z.to_nat r) (word_bytes w) 0 = w / 256 ^ r mod 256.
Proof.
  intros Hr. assert (r = 0 \/ r = 1 \/ r = 2 \/ r = 3) as [-> |[-> |[-> | ->]]] by lia; [|done..].
  change (nth (Z.to_nat 0) (word_bytes w) 0) with (w mod 256). by rewrite Z.pow_0_r, Z.div_1_r.
Qed.

Lemma nthZ_word_bytes mask q r : 0 <= q -> 0 <= r < 4 ->
  nthZ (flat_map word_bytes mask) (4 * q + r) = nthZ mask q / 256 ^ r mod 256.
Proof.
  intros Hq Hr. revert q Hq. induction mask as [|w mask IH]; intros q Hq.
  - unfold nthZ. destruct (Z.to_nat (4 * q + r)), (Z.to_nat q); cbn; by rewrite Z.div_0_l by (apply Z.pow_nonzero; lia).
  - cbn [flat_map]. unfold nthZ. destruct (Z.eq_dec q 0) as [->|].
    + change (Z.to_nat 0) with 0%nat. replace (4 * 0 + r) with r by lia.
      rewrite app_nth1 by (cbn; lia). by rewrite byte_of_word.
    + rewrite app_nth2 by (cbn; lia).
      replace (Z.to_nat (4 * q + r) - length (word_bytes w))%nat with (Z.to_nat (4 * (q - 1) + r)) by (cbn; lia).
      fold (nthZ (flat_map word_bytes mask) (4 * (q - 1) + r)). rewrite IH by lia. unfold nthZ.
      by replace (Z.to_nat q) with (S (Z.to_nat (q - 1))) by lia.
Qed.

Lemma bit_at_words mask j : 0 <= j -> bit_at (flat_map word_bytes mask) 0 j = number_isset j mask.
Proof.
  intros Hj. unfold bit_at. rewrite Z.lxor_0_r, number_isset_testbit.
  pose proof (Z.div_mod j 32 ltac:(lia)) as E. pose proof (Z.mod_pos_bound j 32 ltac:(lia)) as Hm.
  set (q := j / 32) in *. set (t := j mod 32) in *.
  assert (0 <= q) by (apply Z.div_pos; lia).
  pose proof (Z.div_mod t 8 ltac:(lia)) as Et. pose proof (Z.mod_pos_bound t 8 ltac:(lia)) as Hb.
  set (r := t / 8) in *. set (b := t mod 8) in *.
  assert (0 <= r < 4) by (split; [apply Z.div_pos; lia|apply Z.div_lt_upper_bound; lia]).
  replace (j / 8) with (4 * q + r) by (apply Z.div_unique with b; lia).
  replace (j mod 8) with b by (apply Z.mod_unique with (4 * q + r); lia).
  rewrite nthZ_word_bytes by lia. change 256 with (2 ^ 8) at 2. rewrite Z.mod_pow2_bits_low by lia.
  change 256 with (2 ^ 8). rewrite <- Z.pow_mul_r, Z.div_pow2_bits by lia. f_equal. lia.
Qed.

Lemma isset_lnot mask n : 0 <= n < 32 * lenZ mask ->
  number_isset n (map (fun w => uint 32 (Z.lnot w)) mask) = negb (number_isset n mask).
Proof.
  intros Hn. rewrite !number_isset_testbit.
  pose proof (Z.mod_pos_bound n 32 ltac:(lia)).
  assert (Hq : 0 <= n / 32 < lenZ mask) by (split; [apply Z.div_pos; lia|apply Z.div_lt_upper_bound; lia]).
  unfold nthZ. rewrite (nth_indep _ 0 (uint 32 (Z.lnot 0))) by (rewrite length_map; unfold lenZ in Hq; lia).
  rewrite (map_nth (fun w => uint 32 (Z.lnot w))). unfold uint.
  rewrite Z.mod_pow2_bits_low by lia. by rewrite Z.lnot_spec by lia.
Qed.

(** The members of a mask of [bits] bits from [i] on. *)
Definition members (mask : list Z) (i bits : Z) : list Z :=
  base.filter (fun n => Is_true (number_isset n mask)) (seqZ i (bits - i)).

Lemma filter_none (P : Z -> Prop) `{!forall x, Decision (P x)} l : (forall x, x ∈ l -> ~ P x) -> base.filter P l = [].
Proof.
  induction l as [|x l IH]; intros Hl; [done|]. rewrite filter_cons_False by (apply Hl; by left).
  apply IH. intros y Hy. apply Hl. by right.
Qed.

Lemma filter_ext_elem (P Q : Z -> Prop) `{!forall x, Decision (P x)} `{!forall x, Decision (Q x)} (l : list Z) :
  (forall x, x ∈ l -> (P x <-> Q x)) -> base.filter P l = base.filter Q l.
Proof.
  induction l as [|x l IH]; intros Hl; [done|]. rewrite !filter_cons, IH by (intros y Hy; apply Hl; by right).
  pose proof (Hl x ltac:(by left)). destruct (decide (P x)), (decide (Q x)); tauto.
Qed.

Lemma members_step mask i bits : 0 <= i <= bits -> bits < 2 ^ 31 ->
  exists r, next_set_bit (flat_map word_bytes mask) 0 i bits = Some r
    /\ ((r = -1 /\ members mask i bits = [])
        \/ (i <= r < bits /\ members mask i bits = r :: members mask (r + 1) bits)).
Proof.
  intros Hi Hb. destruct (next_set_bit_spec (flat_map word_bytes mask) 0 i bits ltac:(lia) ltac:(lia)) as (r & E & Hr).
  exists r. split; [done|]. destruct Hr as [[-> Hz]|(Hr & Hbit & Hz)].
  - left. split; [done|]. apply filter_none. intros x Hx%elem_of_seqZ.
    rewrite <- bit_at_words, Hz by lia. by intros [].
  - right. split; [done|]. unfold members. replace (bits - i) with ((r - i) + (1 + (bits - (r + 1)))) by lia.
    rewrite seqZ_app by lia. rewrite list.filter_app, filter_none.
    2: { intros x Hx%elem_of_seqZ. rewrite <- bit_at_words, Hz by lia. by intros []. }
    replace (i + (r - i)) with r by lia. rewrite Z.add_1_l, seqZ_cons, Z.pred_succ by lia. cbn [app].
    rewrite filter_cons_True by (rewrite <- bit_at_words, Hbit by lia; done). done.
Qed.

(** ** Texts *)

Lemma string_app_cons c a b : String c a +:+ b = String c (a +:+ b).
Proof. done. Qed.

Lemma strlen_app a b : strlen (a +:+ b) = strlen a + strlen b.
Proof. unfold strlen. induction a as [|c a IH]; [done|]. rewrite string_app_cons. simpl String.length. lia. Qed.

Lemma strlen_nonneg s : 0 <= strlen s.
Proof. unfold strlen. lia. Qed.

Section facts.
Variables (nsignals : Z) (signalent : Z -> string) (ASM_SIGRTMIN ASM_SIGRTMAX NSIG_BYTES xlat_verbosity : Z).
Abbreviation style := (xlat_verbose xlat_verbosity).
Abbreviation room := (outstr_bytes NSIG_BYTES).

(** The name of a signal in a set, and the text of a member. *)
Definition mask_name (i : Z) : string :=
  if i <? nsignals then skip_chars 3 (signalent i)
  else if (ASM_SIGRTMIN <=? i) && (i <=? ASM_SIGRTMAX) then "RT_" +:+ pretty (i - ASM_SIGRTMIN)
  else if style =? XLAT_STYLE_ABBREV then EmptyString else pretty i.
Definition mask_text (i : Z) : string :=
  if style =? XLAT_STYLE_ABBREV then mask_name i
  else if style =? XLAT_STYLE_RAW then pretty i
  else if style =? XLAT_STYLE_VERBOSE then pretty i +:+ " /* " +:+ mask_name i +:+ " */"
  else pretty i +:+ mask_name i.

(** The members [l] (counted from 0) after a separator. *)
Fixpoint items (sep : ascii) (l : list Z) : string :=
  match l with [] => EmptyString | n :: l' => String sep (mask_text (n + 1)) +:+ items " " l' end.

Lemma append_fits s t : strlen s + strlen t < room -> xappendstr NSIG_BYTES s t = Ret (s +:+ t).
Proof.
  intros H. pose proof (strlen_nonneg t). unfold xappendstr.
  replace (room <? strlen s) with false by lia. by replace (room - strlen s <=? strlen t) with false by lia.
Qed.

Lemma item_fits i sep s :
  strlen s + strlen (String sep (mask_text i)) < room ->
  sigmask_item nsignals signalent ASM_SIGRTMIN ASM_SIGRTMAX NSIG_BYTES xlat_verbosity i sep s
  = Ret (s +:+ String sep (mask_text i)).
Proof.
  intros H. unfold sigmask_item, when_append.
  change (String sep (mask_text i)) with (String sep EmptyString +:+ mask_text i) in *.
  rewrite <- (string_app_assoc s). set (s1 := s +:+ String sep EmptyString) in *.
  rewrite strlen_app, Z.add_assoc, <- strlen_app in H. fold s1 in H. clearbody s1. clear s.
  assert (Hname : forall t, strlen t + strlen (mask_name i) < room ->
    (if i <? nsignals then Ret (t +:+ skip_chars 3 (signalent i))
     else if (ASM_SIGRTMIN <=? i) && (i <=? ASM_SIGRTMAX) then xappendstr NSIG_BYTES t ("RT_" +:+ pretty (i - ASM_SIGRTMIN))
     else if negb (style =? XLAT_STYLE_ABBREV) then xappendstr NSIG_BYTES t (pretty i) else Ret t) = Ret (t +:+ mask_name i)).
  { intros t Ht. unfold mask_name in *. destruct (i <? nsignals); [done|].
    destruct ((ASM_SIGRTMIN <=? i) && (i <=? ASM_SIGRTMAX)); [by apply append_fits|].
    destruct (style =? XLAT_STYLE_ABBREV); cbn [negb]; [by rewrite string_app_nil|by apply append_fits]. }
  unfold mask_text in *.
  destruct (Z.eqb_spec style XLAT_STYLE_ABBREV) as [Ea|Ea]; cbn [negb].
  { rewrite Ea in *. cbn [Z.eqb Pos.eqb XLAT_STYLE_ABBREV XLAT_STYLE_VERBOSE XLAT_STYLE_RAW negb mbind outcome_bind].
    rewrite Hname by done. done. }
  pose proof (strlen_nonneg (mask_name i)). pose proof (strlen_nonneg (pretty i)).
  destruct (Z.eqb_spec style XLAT_STYLE_RAW) as [Er|Er]; cbn [negb].
  { rewrite Er. cbn [Z.eqb Pos.eqb XLAT_STYLE_VERBOSE XLAT_STYLE_RAW]. rewrite append_fits by done. done. }
  destruct (Z.eqb_spec style XLAT_STYLE_VERBOSE) as [Ev|Ev]; cbn [mbind outcome_bind].
  - rewrite !strlen_app in H. change (strlen " /* ") with 4 in H. change (strlen " */") with 3 in H.
    rewrite append_fits by lia. cbn [mbind outcome_bind].
    rewrite append_fits by (rewrite strlen_app; change (strlen " /* ") with 4; lia). cbn [mbind outcome_bind].
    rewrite Hname by (rewrite !strlen_app; change (strlen " /* ") with 4; lia). cbn [mbind outcome_bind].
    rewrite append_fits by (rewrite !strlen_app; change (strlen " /* ") with 4; change (strlen " */") with 3; lia).
    by rewrite !string_app_assoc.
  - rewrite strlen_app in H. rewrite append_fits by lia. cbn [mbind outcome_bind].
    rewrite Hname by (rewrite strlen_app; lia). cbn [mbind outcome_bind]. by rewrite string_app_assoc.
Qed.

Lemma loop_fits mask bits fuel : forall i sep s,
  0 <= i <= bits -> bits < 2 ^ 31 -> bits - i < Z.of_nat fuel ->
  strlen s + strlen (items sep (members mask i bits)) < room ->
  sigmask_loop nsignals signalent ASM_SIGRTMIN ASM_SIGRTMAX NSIG_BYTES xlat_verbosity fuel mask i bits sep s
  = Some (Ret (match members mask i bits with [] => sep | _ => " "%char end, s +:+ items sep (members mask i bits))).
Proof.
  induction fuel as [|fuel IH]; intros i sep s Hi Hb Hf Hroom; [lia|]. cbn [sigmask_loop].
  destruct (members_step mask i bits Hi Hb) as (r & -> & Hr). cbn [mbind option_bind].
  destruct Hr as [[-> Hm]|[Hr Hm]]; rewrite Hm in *.
  - cbn [Z.ltb Z.compare items]. by rewrite string_app_nil.
  - replace (r <? 0) with false by lia. cbn [items] in *. rewrite strlen_app in Hroom.
    pose proof (strlen_nonneg (items " " (members mask (r + 1) bits))).
    rewrite item_fits by lia. rewrite IH; [|lia..|rewrite strlen_app; lia].
    rewrite string_app_assoc. by destruct (members mask (r + 1) bits).
Qed.

(** ** The result *)

Definition mask_words (sig_mask : list Z) (bytes : Z) : list Z := firstn (Z.to_nat (sigmask_size NSIG_BYTES bytes)) sig_mask.

(** The signals shown, from 0. *)
Definition shown_signals (mask : list Z) : list Z :=
  let bits := 32 * lenZ mask in
  if sigmask_inverted (lenZ mask) mask
  then base.filter (fun n => ~ Is_true (number_isset n mask)) (seqZ 0 bits) else members mask 0 bits.

Definition ref_text (prefix : string) (mask : list Z) : string :=
  prefix +:+ (if sigmask_inverted (lenZ mask) mask then "~" else EmptyString)
  +:+ (match shown_signals mask with [] => "[" | l => items "[" l end) +:+ "]".

Lemma members_lnot mask :
  members (map (fun w => uint 32 (Z.lnot w)) mask) 0 (32 * lenZ mask)
  = base.filter (fun n => ~ Is_true (number_isset n mask)) (seqZ 0 (32 * lenZ mask)).
Proof.
  unfold members. rewrite Z.sub_0_r. apply filter_ext_elem. intros n Hn%elem_of_seqZ.
  rewrite isset_lnot by lia. by destruct (number_isset n mask); simpl; tauto.
Qed.

Lemma sprintsigmask_fits prefix sig_mask bytes :
  0 < bytes -> 0 < NSIG_BYTES < 2 ^ 20 -> sigmask_size NSIG_BYTES bytes <= lenZ sig_mask ->
  strlen (ref_text prefix (mask_words sig_mask bytes)) < room ->
  sprintsigmask_n nsignals signalent ASM_SIGRTMIN ASM_SIGRTMAX NSIG_BYTES xlat_verbosity prefix sig_mask bytes
  = Some (Ret (ref_text prefix (mask_words sig_mask bytes))).
Proof.
  intros Hb Hn Hl Hroom. unfold sprintsigmask_n. fold (mask_words sig_mask bytes).
  set (size := sigmask_size NSIG_BYTES bytes) in *. set (mask := mask_words sig_mask bytes) in *.
  assert (Hs : 0 <= size < 2 ^ 20) by (unfold size, sigmask_size; split; [apply Z.div_pos|apply Z.div_lt_upper_bound]; lia).
  assert (Hm : lenZ mask = size).
  { unfold mask, mask_words, lenZ in *. fold size. rewrite length_firstn. lia. }
  clearbody mask size. unfold ref_text in *.
  assert (Hloop : forall s mask', lenZ mask' = size -> strlen s + strlen (items "[" (members mask' 0 (32 * size))) < room ->
    (r ← sigmask_loop nsignals signalent ASM_SIGRTMIN ASM_SIGRTMAX NSIG_BYTES xlat_verbosity
           (Z.to_nat (size * (4 * 8)) + 1) mask' 0 (size * (4 * 8)) "[" s;
     Some (match r with
           | Ret (sep, s) => Ret ((if Ascii.eqb sep "[" then s +:+ "[" else s) +:+ "]")
           | Die e => Die e
           end))
    = Some (Ret (s +:+ (match members mask' 0 (32 * size) with [] => "[" | l => items "[" l end) +:+ "]"))).
  { intros s mask' Hm' Hfit. replace (size * (4 * 8)) with (32 * size) by lia.
    rewrite loop_fits by (try done; lia). cbn [mbind option_bind]. rewrite <- string_app_assoc.
    destruct (members mask' 0 (32 * size)); [|done]. cbn [items Ascii.eqb]. by rewrite string_app_nil. }
  unfold shown_signals in *. rewrite Hm in *. destruct (sigmask_inverted size mask) eqn:Ei.
  - rewrite <- Hm, <- members_lnot, Hm in *. rewrite !strlen_app in Hroom. change (strlen "~") with 1 in Hroom.
    change (strlen "]") with 1 in Hroom. rewrite Hloop.
    + by rewrite (string_app_assoc prefix).
    + unfold lenZ in *. by rewrite length_map.
    + rewrite strlen_app. change (strlen "~") with 1.
      destruct (members _ 0 (32 * size)) eqn:E; [cbn [items]; change (strlen EmptyString) with 0|];
        pose proof (strlen_nonneg prefix); [|lia]. change (strlen "[") with 1 in Hroom. lia.
  - rewrite !strlen_app in Hroom. change (strlen "]") with 1 in Hroom. rewrite Hloop; [done..|].
    destruct (members _ 0 (32 * size)) eqn:E; [cbn [items]; change (strlen EmptyString) with 0|];
      [change (strlen "[") with 1 in Hroom; change (strlen EmptyString) with 0 in Hroom; lia|].
    change (strlen EmptyString) with 0 in Hroom. lia.
Qed.

(** *** How many signals are shown *)

Lemma members_count mask : Forall (in_uint 32) mask -> lenZ (members mask 0 (32 * lenZ mask)) = popcount32 mask.
Proof.
  intros Hm. unfold members, popcount32. rewrite Z.sub_0_r, popcount_foldl, filter_isset_vec by done. lia.
Qed.

Lemma filter_complement (P : Z -> Prop) `{!forall x, Decision (P x)} (l : list Z) :
  lenZ (base.filter (fun x => ~ P x) l) + lenZ (base.filter P l) = lenZ l.
Proof.
  induction l as [|x l IH]; [done|]. rewrite !filter_cons.
  destruct (decide (P x)), (decide (~ P x)); try tauto; rewrite !lenZ_cons; lia.
Qed.

Lemma shown_count mask : Forall (in_uint 32) mask -> 0 < lenZ mask ->
  lenZ (shown_signals mask) <= lenZ mask * 32 * 2 / 3.
Proof.
  intros Hm Hpos. unfold shown_signals, sigmask_inverted. pose proof (members_count mask Hm) as Hc.
  change (4 * 8) with 32. set (k := lenZ mask * 32 * 2 / 3).
  pose proof (Z.div_mod (lenZ mask * 32 * 2) 3 ltac:(lia)). pose proof (Z.mod_pos_bound (lenZ mask * 32 * 2) 3 ltac:(lia)).
  fold k in H. destruct (Z.leb_spec k (popcount32 mask)); [|lia].
  pose proof (filter_complement (fun n => Is_true (number_isset n mask)) (seqZ 0 (32 * lenZ mask))) as Hf.
  unfold members in Hc. rewrite Z.sub_0_r in Hc. rewrite Hc in Hf.
  assert (Hl : lenZ (seqZ 0 (32 * lenZ mask)) = 32 * lenZ mask) by (unfold lenZ; rewrite length_seqZ; lia). lia.
Qed.

Lemma items_length l : forall sep, Forall (fun n => strlen (mask_text (n + 1)) <= 7) l -> strlen (items sep l) <= 8 * lenZ l.
Proof.
  induction l as [|n l IH]; intros sep Hl; [done|]. apply list.Forall_cons in Hl as [Hn Hl].
  cbn [items]. rewrite strlen_app, lenZ_cons. specialize (IH " "%char Hl).
  change (strlen (String sep (mask_text (n + 1)))) with (Z.of_nat (S (String.length (mask_text (n + 1))))).
  unfold strlen in *. lia.
Qed.

Lemma pretty_short n : 0 <= n < 1000 -> strlen (pretty n) <= 3.
Proof.
  intros Hn. assert (Hall : forallb (fun n => strlen (pretty n) <=? 3) (seqZ 0 1000) = true) by (by vm_compute).
  rewrite forallb_forall in Hall. specialize (Hall n). rewrite <- list_elem_of_In, elem_of_seqZ in Hall.
  apply Z.leb_le, Hall. lia.
Qed.

Lemma skip_chars_length k t : strlen (skip_chars k t) <= Z.max 0 (strlen t - Z.of_nat k).
Proof.
  unfold strlen. revert t. induction k as [|k IH]; intros t; [destruct t; simpl String.length; lia|].
  destruct t as [|c t]; simpl; [lia|]. specialize (IH t). lia.
Qed.

Lemma sprintsigmask_spec prefix sig_mask bytes :
  NSIG_BYTES = 8 \/ NSIG_BYTES = 16 -> 0 < bytes -> sigmask_size NSIG_BYTES bytes <= lenZ sig_mask ->
  Forall (in_uint 32) sig_mask -> strlen prefix <= 16 -> 0 <= ASM_SIGRTMIN ->
  (forall i, strlen (signalent i) <= 10) -> style = XLAT_STYLE_ABBREV \/ style = XLAT_STYLE_RAW ->
  let mask := mask_words sig_mask bytes in
  sprintsigmask_n nsignals signalent ASM_SIGRTMIN ASM_SIGRTMAX NSIG_BYTES xlat_verbosity prefix sig_mask bytes
  = Some (Ret (ref_text prefix mask))
  /\ strlen (ref_text prefix mask) + 1 <= outstr_bytes NSIG_BYTES
  /\ forall n, n ∈ shown_signals mask
       <-> 0 <= n < 32 * sigmask_size NSIG_BYTES bytes
           /\ number_isset n mask = negb (sigmask_inverted (sigmask_size NSIG_BYTES bytes) mask).
Proof.
  intros Hns Hb Hl Hm Hp Hrt Hnames Hst mask. set (size := sigmask_size NSIG_BYTES bytes) in *.
  assert (Hs : 0 < size /\ 4 * size <= NSIG_BYTES).
  { unfold size, sigmask_size. destruct Hns as [-> | ->]; Z.to_euclidean_division_equations; lia. }
  assert (Hlen : lenZ mask = size).
  { unfold mask, mask_words, lenZ in *. fold size. rewrite length_firstn. lia. }
  assert (Hmw : Forall (in_uint 32) mask) by (by apply list.Forall_take).
  assert (Hshown : forall n, n ∈ shown_signals mask
       <-> 0 <= n < 32 * size /\ number_isset n mask = negb (sigmask_inverted size mask)).
  { intros n. unfold shown_signals, members. rewrite Hlen, Z.sub_0_r.
    destruct (sigmask_inverted size mask); rewrite list_elem_of_filter, elem_of_seqZ;
      destruct (number_isset n mask); simpl; naive_solver lia. }
  assert (Htext : Forall (fun n => strlen (mask_text (n + 1)) <= 7) (shown_signals mask)).
  { apply list.Forall_forall. intros n [Hn _]%Hshown. unfold mask_text.
    assert (n + 1 <= 128) by lia. pose proof (pretty_short (n + 1) ltac:(lia)).
    destruct Hst as [-> | ->]; cbn [Z.eqb Pos.eqb XLAT_STYLE_ABBREV XLAT_STYLE_RAW]; [|lia].
    unfold mask_name. destruct (n + 1 <? nsignals).
    { pose proof (skip_chars_length 3 (signalent (n + 1))). pose proof (Hnames (n + 1)). lia. }
    destruct (Z.leb_spec ASM_SIGRTMIN (n + 1)); cbn [andb]; [destruct (n + 1 <=? ASM_SIGRTMAX)|]; cbn [andb].
    - rewrite strlen_app. change (strlen "RT_") with 3. pose proof (pretty_short (n + 1 - ASM_SIGRTMIN) ltac:(lia)). lia.
    - destruct (_ =? _); [change (strlen EmptyString) with 0|]; lia.
    - destruct (_ =? _); [change (strlen EmptyString) with 0|]; lia. }
  assert (Hfit : strlen (ref_text prefix mask) + 1 <= room).
  { unfold ref_text. rewrite !strlen_app. pose proof (items_length _ "[" Htext) as Hi.
    pose proof (shown_count mask Hmw ltac:(lia)) as Hc. rewrite Hlen in Hc.
    assert (strlen (if sigmask_inverted (lenZ mask) mask then "~" else EmptyString) <= 1) by (destruct (sigmask_inverted (lenZ mask) mask); [change (strlen "~") with 1|change (strlen EmptyString) with 0]; lia).
    change (strlen "]") with 1.
    assert (strlen (match shown_signals mask with [] => "[" | l => items "[" l end) <= 1 + 8 * lenZ (shown_signals mask)).
    { destruct (shown_signals mask); [change (strlen "[") with 1; change (lenZ []) with 0; lia|]. lia. }
    assert (size * 32 * 2 / 3 <= NSIG_BYTES * 8 * 2 / 3) by (apply Z.div_le_mono; lia).
    unfold outstr_bytes. lia. }
  split; [apply sprintsigmask_fits; [done|lia|done|fold mask; lia]|]. split; [done|exact Hshown].
Qed.

(** C25: in the abbreviated and raw styles, for sets of 64 or 128 signals,
    [sprintsigmask_n] ends without an error, and the text, which fits the
    buffer with its NUL, shows in order the signals that are in the set, or,
    after a tilde, those that are not when two thirds or more are. *)
Theorem sprintsigmask_correct prefix sig_mask bytes :
  NSIG_BYTES = 8 \/ NSIG_BYTES = 16 -> 0 < bytes -> sigmask_size NSIG_BYTES bytes <= lenZ sig_mask ->
  Forall (in_uint 32) sig_mask -> strlen prefix <= 16 -> 0 <= ASM_SIGRTMIN ->
  (forall i, strlen (signalent i) <= 10) -> style = XLAT_STYLE_ABBREV \/ style = XLAT_STYLE_RAW ->
  let mask := mask_words sig_mask bytes in
  sprintsigmask_n nsignals signalent ASM_SIGRTMIN ASM_SIGRTMAX NSIG_BYTES xlat_verbosity prefix sig_mask bytes
  = Some (Ret (ref_text prefix mask))
  /\ strlen (ref_text prefix mask) + 1 <= outstr_bytes NSIG_BYTES
  /\ forall n, n ∈ shown_signals mask
       <-> 0 <= n < 32 * sigmask_size NSIG_BYTES bytes
           /\ number_isset n mask = negb (sigmask_inverted (sigmask_size NSIG_BYTES bytes) mask).
Proof. apply sprintsigmask_spec. Qed.
End facts.

(** ** Sets in the memory of a tracee *)

Section tracee.
Context {TM : TraceeMemory}.
Variable page_bits : Z.
Hypothesis page_bits_ok : 3 <= page_bits < 32.
Context {ML : MemoryLaws TM (2 ^ page_bits)}.
Variables (nsignals : Z) (signalent : Z -> string) (ASM_SIGRTMIN ASM_SIGRTMAX xlat_verbosity : Z) (narrow : bool).
Hypothesis names_short : forall i, strlen (signalent i) <= 10.
Hypothesis rtmin_ok : 0 <= ASM_SIGRTMIN.
Hypothesis style_ok : xlat_verbose xlat_verbosity = XLAT_STYLE_ABBREV \/ xlat_verbose xlat_verbosity = XLAT_STYLE_RAW.
Variables (t : tcb) (m : mstate).

Lemma le_words_range n : forall bytes, Forall byte bytes -> Forall (in_uint 32) (le_words n bytes).
Proof.
  induction n as [|n IH]; intros bytes Hb; cbn [le_words]; constructor.
  - pose proof (le_value_bytes (firstn 4 bytes) ltac:(by apply list.Forall_take)) as Hv. unfold in_uint.
    assert (256 ^ lenZ (firstn 4 bytes) <= 256 ^ 4).
    { apply Z.pow_le_mono_r; [lia|]. unfold lenZ. rewrite length_firstn. lia. }
    change (2 ^ 32) with (256 ^ 4). lia.
  - by apply IH, list.Forall_drop.
Qed.

Lemma le_words_length n bytes : length (le_words n bytes) = n.
Proof. revert bytes. induction n as [|n IH]; intros bytes; cbn [le_words length]; auto. Qed.

(** A set of at most 64 signals in the memory of a tracee is shown when a
    decoder looks at it, its size is one the kernel accepts and it can be read;
    otherwise its address is. *)
Theorem print_sigset_addr_len_correct c addr len lo hi :
  range_ok page_bits narrow lo hi -> lo <= addr < hi -> addr + len <= hi -> 0 <= len -> cache_ok page_bits m c ->
  exists c', cache_ok page_bits m c' /\
    print_sigset_addr_len nsignals signalent ASM_SIGRTMIN ASM_SIGRTMAX 8 xlat_verbosity (2 ^ page_bits) narrow t m c addr len
    = Some (Ret (if ((if narrow then 4 else 8) <=? len) && (len <=? 8) && looks t then
              match bytes_at byte_at m addr len with
              | Some bytes => codes (ref_text nsignals signalent ASM_SIGRTMIN ASM_SIGRTMAX xlat_verbosity EmptyString
                  (mask_words 8 (le_words 2 (bytes ++ replicate (Z.to_nat (8 - len)) 0)) len))
              | None => printaddr64 addr
              end else printaddr64 addr), c').
Proof.
  intros Hr Ha He Hl Hc. unfold print_sigset_addr_len, print_sigset_addr_len_limit.
  destruct (Z.leb_spec (if narrow then 4 else 8) len) as [Hmin|Hmin]; cbn [andb].
  2: { replace (len <? _) with true by lia. by exists c. }
  replace (len <? _) with false by lia. rewrite orb_false_l.
  destruct (Z.leb_spec len 8) as [Hmax|Hmax]; cbn [andb]; [replace (8 <? len) with false by lia|replace (8 <? len) with true by lia; by exists c].
  destruct (tfetch_mem64_spec page_bits page_bits_ok narrow t m c addr len lo hi Hr Ha He ltac:(lia) Hc) as (c' & E & Hc').
  exists c'. split; [done|]. unfold umoven_or_printaddr64. rewrite E. cbn [mbind option_bind].
  destruct (looks t); [|done]. destruct (bytes_at byte_at m addr len) as [bytes|] eqn:Eb; [|done].
  assert (Hpos : 0 < len) by (destruct narrow; lia).
  assert (HF : Forall byte (bytes ++ replicate (Z.to_nat (8 - len)) 0)).
  { apply list.Forall_app. split; [by eapply bytes_at_bytes|]. apply Forall_replicate. by vm_compute. }
  change (Z.to_nat (8 / 4)) with 2%nat.
  destruct (sprintsigmask_spec nsignals signalent ASM_SIGRTMIN ASM_SIGRTMAX 8 xlat_verbosity EmptyString
    (le_words 2 (bytes ++ replicate (Z.to_nat (8 - len)) 0)) len) as [-> _]; try done.
  - by left.
  - unfold lenZ. rewrite le_words_length. unfold sigmask_size. Z.to_euclidean_division_equations; lia.
  - by apply le_words_range.
Qed.
End tracee.

Module Generic.
(** The table of src/linux/generic/signalent.h. *)
Definition signalent : list string :=
  ["0"; "SIGHUP"; "SIGINT"; "SIGQUIT"; "SIGILL"; "SIGTRAP"; "SIGABRT"; "SIGBUS"; "SIGFPE"; "SIGKILL"; "SIGUSR1";
   "SIGSEGV"; "SIGUSR2"; "SIGPIPE"; "SIGALRM"; "SIGTERM"; "SIGSTKFLT"; "SIGCHLD"; "SIGCONT"; "SIGSTOP"; "SIGTSTP";
   "SIGTTIN"; "SIGTTOU"; "SIGURG"; "SIGXCPU"; "SIGXFSZ"; "SIGVTALRM"; "SIGPROF"; "SIGWINCH"; "SIGIO"; "SIGPWR";
   "SIGSYS"; "SIGRTMIN"].
Definition ent (i : Z) : string := nth (Z.to_nat i) signalent EmptyString.
Definition sigmask (xlat_verbosity : Z) (mask : list Z) : option (outcome string) :=
  sprintsigmask_n 33 ent 32 64 8 xlat_verbosity EmptyString mask 8.
End Generic.


Lemma generic_names i : strlen (Generic.ent i) <= 10.
Proof.
  unfold Generic.ent. assert (Hall : forallb (fun s => strlen s <=? 10) Generic.signalent = true) by (by vm_compute).
  rewrite forallb_forall in Hall. destruct (nth_in_or_default (Z.to_nat i) Generic.signalent EmptyString) as [Hin| ->]; [|done].
  by apply Z.leb_le, Hall.
Qed.

Lemma sprintsigmask_correct_witness :
  sprintsigmask_n 33 Generic.ent 32 64 8 XLAT_STYLE_ABBREV "old mask " [0xfffffffb; 0xffffffff] 8
  = Some (Ret "old mask ~[QUIT]").
Proof.
  refine (eq_trans (proj1 (sprintsigmask_correct 33 Generic.ent 32 64 8 XLAT_STYLE_ABBREV "old mask "
    [0xfffffffb; 0xffffffff] 8 _ _ _ _ _ _ _ _)) _); [by left|lia|by vm_compute| |by vm_compute|lia| |by left|].
  - repeat constructor; by vm_compute.
  - exact generic_names.
  - by vm_compute.
Defined.

(** The eight bytes at 40 as a set. *)
Lemma print_sigset_addr_len_correct_witness :
  exists c', print_sigset_addr_len 33 Generic.ent 32 64 8 XLAT_STYLE_RAW (2 ^ demo_bits) false decoding
      (letters : @mstate demo_memory) empty_cache 40 8
    = Some (Ret (codes "[1 2 3 4 6 7 13 14 15 17 21 22 23 26 29 30 31 33 34 37 38 39 43 45 46 47 58 59 61 62 63]"), c').
Proof.
  destruct (print_sigset_addr_len_correct demo_bits ltac:(vm_compute; split; congruence) 33 Generic.ent 32 64
    XLAT_STYLE_RAW false generic_names ltac:(lia) ltac:(by right) decoding (letters : @mstate demo_memory)
    empty_cache 40 8 40 50 letters_range ltac:(lia) ltac:(lia) ltac:(lia) (empty_cache_ok _)) as (c' & _ & E).
  exists c'. rewrite E. vm_compute. reflexivity.
Defined.
