(* ===== verification/Tracee.v ===== *)
(** * Output and the life cycle of a tracee (src/strace.c, src/stage_output.c)

    The primitives that write to the log on behalf of the current tracee, the
    table operations [alloctcb], [pid2tcb] and [droptcb], and detaching. *)

From stdpp Require Import gmap pretty.
From S2P Require Import Prelude NumberSet Wait Util Arena Tcb.
Open Scope Z_scope.

(** The options that stay fixed while tracees are followed. *)
Class Options := {
  supported_personalities : Z;
  use_seize : bool;
  followfork : bool;
  cflag : Z;
  Tflag : bool;
  output_separately : bool;
  outfname : bool;                      (* -o was given *)
  print_pid_pfx : bool;
  detach_on_execve : bool;
  post_attach_sigstop : Z;
  syscall_trap_sig : Z;
  ptrace_setoptions : Z;
  os_release : Z;
  acolumn : Z;
  quiet_set : option number_set;
  signal_set : option number_set;
  status_set : option number_set;
  ptrace_op_str : Z -> string;
  strerror : Z -> string;
  comm_text : tcb -> string;            (* what print_comm_str writes; empty unless -Y *)
  leader_suffix : tcb -> string;        (* SELinux context, timestamps, -n and -i of a leader *)
}.

Definition nl : string := String (Ascii.ascii_of_nat 10) EmptyString.
Definition slen (str : string) : Z := Z.of_nat (String.length str).
Definition spaces (n : Z) : string :=
  Nat.iter (Z.to_nat n) (String (Ascii.ascii_of_nat 32)) EmptyString.
Definition pad_right (w : Z) (str : string) : string := (str +:+ spaces (w - slen str))%string.
Definition pad_left (w : Z) (str : string) : string := (spaces (w - slen str) +:+ str)%string.

Section tracee.
Context {MA : Machine} {OP : Options}.

(** ** Writing *)

(** [fputs] of strings to a stream that is not the memory stream of a tcb. *)
Definition fputs_stream (o : stream) (strs : list string) : M () :=
  match o with
  | File f => modify (fun s => set_log (log s ++ map (pair f) strs) s)
  | Mem => mret tt
  | Null => die "write to a null stream"
  end.

(** A write to [tcbtab[i]->outf]. *)
Definition fputs_tcb (i : nat) (str : string) : M () :=
  t ← get_tcb i;
  match staged_output_data t with
  | Some b => upd_tcb i (set_staged_output_data (Some (mk_staged (memf b ++ [str]) (real_outf b))))
  | None => fputs_stream (outf t) [str]
  end.

Definition tprints_string (str : string) : M () :=
  c ← gets current_tcp;
  match c with
  | None => mret tt
  | Some i => _ ← fputs_tcb i str; upd_tcb i (fun t => set_curcol (curcol t + slen str) t)
  end.

Definition tprint_space : M () := tprints_string " ".
Definition tprint_newline : M () := tprints_string nl.

Definition line_ended : M () :=
  c ← gets current_tcp;
  _ ← match c with Some i => upd_tcb i (set_curcol 0) | None => mret tt end;
  p ← gets printing_tcp;
  match p with
  | Some j => _ ← upd_tcb j (set_curcol 0); modify (set_printing_tcp None)
  | None => mret tt
  end.

Definition set_personality (personality : Z) : M () :=
  cur ← gets current_personality;
  if personality =? cur then mret tt
  else if supported_personalities <=? personality then die "Requested switch to unsupported personality"
  else modify (set_current_personality personality).

Definition set_current_tcp (tcp : option nat) : M () :=
  _ ← modify (Tcb.set_current_tcp tcp);
  match tcp with
  | Some i => t ← get_tcb i; set_personality (currpers t)
  | None => mret tt
  end.

(** The part of [printleader] after the unfinished line is closed. *)
Definition print_leader_prefix (tcp : nat) : M () :=
  t ← get_tcb tcp;
  n ← gets nprocs;
  _ ← (if print_pid_pfx || ((1 <? n) && negb outfname) then
         _ ← (if print_pid_pfx
              then tprints_string (if slen (comm_text t) =? 0 then pad_right 5 (pretty (pid t))
                                   else pretty (pid t))
              else _ ← tprints_string "["; tprints_string ("pid " +:+ pad_left 5 (pretty (pid t))));
         _ ← tprints_string (comm_text t);
         _ ← when (negb print_pid_pfx) (tprints_string "]");
         tprint_space
       else mret tt);
  tprints_string (leader_suffix t).

(** The test that the line of [p] is left unfinished by a leader of [tcp]. *)
Definition unfinished_line (tcp p : nat) (pt : tcb) : bool :=
  negb (curcol pt =? 0)
  && ((p =? tcp)%nat || (negb output_separately
                         && match staged_output_data pt with None => true | Some _ => false end)).

Definition printleader (tcp : nat) : M () :=
  _ ← when output_separately (modify (set_printing_tcp (Some tcp)));
  p ← gets printing_tcp;
  _ ← match p with
      | Some j =>
          pt ← get_tcb j;
          if unfinished_line tcp j pt then
            _ ← set_current_tcp (Some j);
            _ ← tprint_space;
            _ ← tprints_string "<unfinished ...>";
            _ ← tprint_newline;
            upd_tcb j (set_curcol 0)
          else mret tt
      | None => mret tt
      end;
  _ ← modify (set_printing_tcp (Some tcp));
  _ ← set_current_tcp (Some tcp);
  _ ← upd_tcb tcp (set_curcol 0);
  print_leader_prefix tcp.

Definition tabto : M () :=
  c ← gets current_tcp;
  match c with
  | Some i => t ← get_tcb i;
              if curcol t <? acolumn then tprints_string (spaces (acolumn - curcol t)) else mret tt
  | None => mret tt
  end.

(** ** Staged output *)

Definition strace_open_memstream (tcp : nat) : M () :=
  upd_tcb tcp (fun t => set_outf Mem (set_staged_output_data (Some (mk_staged [] (outf t))) t)).

Definition strace_close_memstream (tcp : nat) (publish : bool) : M () :=
  t ← get_tcb tcp;
  match staged_output_data t with
  | None => mret tt
  | Some b =>
      _ ← upd_tcb tcp (fun t => set_staged_output_data None (set_outf (real_outf b) t));
      if publish then fputs_stream (real_outf b) (memf b) else mret tt
  end.

(** ** The table *)

Definition after_successful_attach (tcp : nat) (fl : Z) : M () :=
  upd_tcb tcp (fun t =>
    set_outf (File (if output_separately then own_log (pid t) else shared_log))
      (flag_on (Z.lor (Z.lor TCB_ATTACHED TCB_STARTUP) fl) t)).

Definition expand_tcbtab : M () := fun s =>
  let old := lenZ (tcbtab s) in
  match xgrowarray (fun _ => true) (old =? 0) old 8 with
  | Ret n => Done tt (set_tcbtab (tcbtab s ++ replicate (Z.to_nat (n - old)) tcb0) s)
  | Die m => Fatal m
  end.

(** The first free entry at or after [i]. *)
Fixpoint find_free (i : nat) (l : list tcb) : option nat :=
  match l with
  | [] => None
  | t :: l' => if pid t =? 0 then Some i else find_free (S i) l'
  end.

Definition alloctcb (p : Z) : M nat :=
  n ← gets nprocs;
  size ← gets (fun s => lenZ (tcbtab s));
  _ ← when (n =? size) expand_tcbtab;
  free ← gets (fun s => find_free 0 (tcbtab s));
  match free with
  | Some i =>
      pers ← gets current_personality;
      _ ← upd_tcb i (fun _ => set_currpers pers (set_pid p tcb0));
      _ ← modify (fun s => set_nprocs (nprocs s + 1) s);
      mret i
  | None => die "bug in alloctcb"
  end.

Fixpoint find_pid (p : Z) (i : nat) (l : list tcb) : option nat :=
  match l with
  | [] => None
  | t :: l' => if pid t =? p then Some i else find_pid p (S i) l'
  end.

Definition PID2TCB_CACHE_MASK := 1023.

Definition pid2tcb (p : Z) : M (option nat) :=
  if p <=? 0 then mret None
  else
    let slot := Z.land p PID2TCB_CACHE_MASK in
    cached ← gets (fun s => pid2tcb_cache s !! slot);
    hit ← gets (fun s => match cached with
                         | Some i => if pid (tcb_at s i) =? p then Some i else None
                         | None => None
                         end);
    match hit with
    | Some i => mret (Some i)
    | None =>
        found ← gets (fun s => find_pid p 0 (tcbtab s));
        match found with
        | Some i =>
            _ ← modify (fun s => set_pid2tcb_cache (<[slot := i]> (pid2tcb_cache s)) s);
            mret (Some i)
        | None => mret None
        end
    end.

(** [list_remove(&tcp->wait_list)]. *)
Definition unlink (i : nat) (l : list nat) : list nat := List.filter (fun j => negb (i =? j)%nat) l.

(** The output part of [droptcb], for a tcb with a stream. *)
Definition droptcb_output (tcp : nat) : M () :=
  let filtering := negb (is_complete_set status_set NUMBER_OF_STATUSES) in
  let publish := if filtering then is_number_in_set STATUS_DETACHED status_set else true in
  _ ← when filtering (strace_close_memstream tcp publish);
  t ← get_tcb tcp;
  p ← gets printing_tcp;
  let mine := output_separately || match p with Some j => (j =? tcp)%nat | None => false end in
  if mine && negb (curcol t =? 0) && publish
  then fputs_stream (outf t) [(" <detached ...>" +:+ nl)%string] else mret tt.

Definition droptcb (tcp : nat) : M () :=
  t ← get_tcb tcp;
  if pid t =? 0 then mret tt
  else
    _ ← modify (fun s => set_nprocs (nprocs s - 1) s);
    _ ← match outf t with Null => mret tt | _ => droptcb_output tcp end;
    c ← gets current_tcp;
    _ ← match c with
        | Some i => if (i =? tcp)%nat then set_current_tcp None else mret tt
        | None => mret tt
        end;
    p ← gets printing_tcp;
    _ ← match p with
        | Some i => if (i =? tcp)%nat then modify (set_printing_tcp None) else mret tt
        | None => mret tt
        end;
    _ ← modify (fun s => set_pending_tcps (unlink tcp (pending_tcps s)) s);
    upd_tcb tcp (fun _ => tcb0).

(** The message "Process %u detached" goes to stderr. *)
Definition droptcb_verbose (tcp : nat) : M () := droptcb tcp.

(** ** Restarting and detaching *)

Definition ptrace_restart (op : Z) (tcp : nat) (sig : Z) : M Z :=
  t ← get_tcb tcp;
  r ← ask (Ptrace op (pid t) sig);
  let err := errno r in
  if (err =? 0) || (err =? ESRCH) then mret 0
  else
    c ← gets current_tcp;
    _ ← match c with
        | Some i =>
            ct ← get_tcb i;
            if negb (curcol ct =? 0) then
              _ ← tprint_space;
              _ ← tprints_string ("<Cannot restart pid " +:+ pretty (pid t) +:+ " with ptrace("
                                 +:+ ptrace_op_str op +:+ "): " +:+ strerror err +:+ ">");
              _ ← tprint_newline;
              line_ended
            else mret tt
        | None => mret tt
        end;
    mret (-1).

Definition detach_or_interrupt_or_stop (tcp : nat) : M bool :=
  t ← get_tcb tcp;
  if negb (flag TCB_ATTACHED t) then mret false
  else if flag TCB_IGNORE_ONE_SIGSTOP t then mret true
  else
    r ← ask (Ptrace PTRACE_DETACH (pid t) 0);
    if rc r =? 0 then mret false
    else if negb (errno r =? ESRCH) then mret false
    else
      r ← ask (Tkill (pid t) 0);
      if rc r <? 0 then mret false
      else
        r ← (if use_seize then ask (Ptrace PTRACE_INTERRUPT (pid t) 0)
             else ask (Tkill (pid t) SIGSTOP));
        mret (rc r =? 0).

Definition detach_interrupted_or_stopped (tcp : nat) (status : Z) : M bool :=
  if negb (WIFSTOPPED status) then mret true
  else
    let sig := WSTOPSIG status in
    if use_seize then
      let sig := if event_of status =? PTRACE_EVENT_STOP then 0 else sig in
      let sig := if sig =? syscall_trap_sig then 0 else sig in
      _ ← ptrace_restart PTRACE_DETACH tcp sig; mret true
    else if sig =? SIGSTOP then _ ← ptrace_restart PTRACE_DETACH tcp 0; mret true
    else
      let sig := if sig =? syscall_trap_sig then 0 else sig in
      error ← ptrace_restart PTRACE_CONT tcp sig;
      mret (error <? 0).

(** The waiting loop of [detach]. *)
Fixpoint detach_wait (fuel : nat) (tcp : nat) : M () :=
  match fuel with
  | O => out_of_fuel
  | S fuel' =>
      t ← get_tcb tcp;
      r ← ask (Waitpid (pid t));
      if rc r <? 0 then
        if errno r =? EINTR then detach_wait fuel' tcp else mret tt
      else
        b ← detach_interrupted_or_stopped tcp (wstatus r);
        if (b : bool) then mret tt else detach_wait fuel' tcp
  end.

Definition detach (fuel : nat) (tcp : nat) : M () :=
  b ← detach_or_interrupt_or_stop tcp;
  _ ← when b (detach_wait fuel tcp);
  droptcb_verbose tcp.

Lemma bind_Done {A B} (m : M A) (k : A -> M B) s b s' :
  (m ≫= k) s = Done b s' -> exists a s1, m s = Done a s1 /\ k a s1 = Done b s'.
Proof. unfold mbind, M_bind. destruct (m s); [eauto|done..]. Qed.

(** ** Frame reasoning

    [keeps R m]: every normal run of [m] relates its states by [R].  The
    output functions keep every relation that looks neither at the output nor
    at the fields of a tcb other than its pid and wait record; requests are kept only by the
    relations that ignore them. *)

Definition keeps (R : st -> st -> Prop) {A} (m : M A) : Prop :=
  forall s a s', m s = Done a s' -> R s s'.

(** What the table and the queue refer to in a tcb, and a tcb without the
    fields the output functions change. *)
Definition key (t : tcb) : Z * nat := (pid t, wait_data_idx t).
Definition okey (t : tcb) : tcb := set_curcol 0 (set_outf Null (set_staged_output_data None t)).

Class StepRel (R : st -> st -> Prop) := {
  frame_refl s : R s s;
  frame_trans s1 s2 s3 : R s1 s2 -> R s2 s3 -> R s1 s3;
}.

Class OutRel (R : st -> st -> Prop) := {
  #[global] out_step :: StepRel R;
  out_upd i f s : (forall t, okey (f t) = okey t) -> R s (set_tcbtab (alter f i (tcbtab s)) s);
  frame_log l s : R s (set_log l s);
  frame_current c s : R s (Tcb.set_current_tcp c s);
  frame_printing p s : R s (set_printing_tcp p s);
  frame_personality p s : R s (set_current_personality p s);
}.

Class FrameRel (R : st -> st -> Prop) := {
  #[global] frame_out :: OutRel R;
  frame_upd i f s : (forall t, key (f t) = key t) -> R s (set_tcbtab (alter f i (tcbtab s)) s);
}.

Class AskRel (R : st -> st -> Prop) := {
  ask_ask q s : R s (set_requests (requests s ++ [(q, fst (answer q (kernel s)))])
                         (set_kernel (snd (answer q (kernel s))) s));
  ask_sci i s : R s (set_ptrace_sci i s);
  ask_regs e s : R s (set_get_regs_error e s);
  ask_created b s : R s (set_delay_timer_created b s);
  ask_armed b s : R s (set_delay_timer_is_armed b s);
  ask_counted l s : R s (set_calls_counted l s);
  ask_limit n s : R s (set_syscall_limit n s);
  ask_exit_code c s : R s (set_exit_code c s);
  ask_child p s : R s (set_strace_child p s);
  ask_popen p s : R s (set_popen_pid p s);
  ask_failed b s : R s (set_restart_failed b s);
  ask_wait_tab l s : R s (set_tcb_wait_tab l s);
  ask_cache c s : R s (set_pid2tcb_cache c s);
}.

Section keeps.
Context {R : st -> st -> Prop} {PR : StepRel R}.

Lemma keeps_ret {A} (a : A) : keeps R (mret a).
Proof. intros s x s' [= <- <-]. apply frame_refl. Qed.
Lemma keeps_bind {A B} (m : M A) (k : A -> M B) :
  keeps R m -> (forall a, keeps R (k a)) -> keeps R (m ≫= k).
Proof.
  intros Hm Hk s b s' H. unfold mbind, M_bind in H.
  destruct (m s) as [a s1| |] eqn:E; [|done..].
  eapply frame_trans; [by eapply Hm|by eapply Hk].
Qed.
Lemma keeps_gets {A} (f : st -> A) : keeps R (gets f).
Proof. intros s a s' [= <- <-]. apply frame_refl. Qed.
Lemma keeps_die {A} m : keeps R (die (A := A) m).
Proof. done. Qed.
Lemma keeps_fuel {A} : keeps R (out_of_fuel (A := A)).
Proof. done. Qed.
Lemma keeps_modify f : (forall s, R s (f s)) -> keeps R (modify f).
Proof. intros H s a s' Hm. injection Hm as <- <-. apply H. Qed.
Lemma keeps_when b m : keeps R m -> keeps R (when b m).
Proof. destruct b; [done|]. intros _. apply keeps_ret. Qed.
Lemma keeps_get_tcb i : keeps R (get_tcb i).
Proof. apply keeps_gets. Qed.
Lemma keeps_upd_out {OR : OutRel R} i f : (forall t, okey (f t) = okey t) -> keeps R (upd_tcb i f).
Proof. intros H. apply keeps_modify. intros s. by apply out_upd. Qed.
Lemma keeps_upd {FR : FrameRel R} i f : (forall t, key (f t) = key t) -> keeps R (upd_tcb i f).
Proof. intros H. apply keeps_modify. intros s. by apply frame_upd. Qed.
Lemma keeps_ask {AR : AskRel R} q : keeps R (ask q).
Proof.
  intros s a s'. unfold ask. pose proof (ask_ask q s) as H.
  destruct (answer q (kernel s)). by intros [= <- <-].
Qed.
End keeps.
End tracee.

Create HintDb frame.
#[export] Hint Extern 0 (StepRel _) => typeclasses eauto : frame.
#[export] Hint Extern 0 (OutRel _) => typeclasses eauto : frame.
#[export] Hint Extern 0 (FrameRel _) => typeclasses eauto : frame.
#[export] Hint Extern 0 (AskRel _) => typeclasses eauto : frame.
#[export] Hint Resolve keeps_ret keeps_gets keeps_die keeps_fuel keeps_get_tcb : frame.

(** A chain of updates of fields the relation ignores. *)
Ltac frame_rel :=
  repeat first
    [ apply frame_refl
    | eapply frame_trans; [|first [ apply frame_log | apply frame_current | apply frame_printing
        | apply frame_personality | apply ask_sci | apply ask_regs | apply ask_created
        | apply ask_armed | apply ask_counted | apply ask_limit | apply ask_exit_code
        | apply ask_child | apply ask_popen | apply ask_failed | apply ask_wait_tab
        | apply ask_cache ]] ].

(** Split the run of a sequence; the run of its first part gets the name [H0]. *)
Ltac run_step H H0 := apply bind_Done in H as (? & ? & H0 & H).
(** The same, when the first part only reads the state. *)
Ltac run_get H := apply bind_Done in H as (? & ? & [= <- <-] & H).

(** One step through the structure of a monadic term. *)
Ltac frame_step :=
  match goal with
  | |- keeps _ (mbind _ _) => apply keeps_bind; [|intros ?]
  | |- keeps _ (mret _) => apply keeps_ret
  | |- keeps _ (when _ _) => apply keeps_when
  | |- keeps _ (modify _) => apply keeps_modify; intros ?; solve [frame_rel]
  | |- keeps _ (upd_tcb _ _) =>
      first [ apply keeps_upd_out; intros ?; reflexivity
            | apply keeps_upd; intros ?; solve [reflexivity | repeat case_match; reflexivity] ]
  | |- keeps _ (ask _) => apply keeps_ask
  | |- keeps _ _ => solve [eauto with frame]
  | |- keeps _ (match ?x with _ => _ end) => destruct x
  | |- keeps _ (if ?x then _ else _) => destruct x
  | |- keeps _ (let '(_, _) := ?x in _) => destruct x
  end.
Ltac frame := repeat frame_step.

Section output_frames.
Context {MA : Machine} {OP : Options} {R : st -> st -> Prop} {OR : OutRel R}.

Lemma keeps_fputs_stream o l : keeps R (fputs_stream o l).
Proof. unfold fputs_stream. frame. Qed.
Hint Resolve keeps_fputs_stream : frame.
Lemma keeps_fputs_tcb i str : keeps R (fputs_tcb i str).
Proof. unfold fputs_tcb. frame. Qed.
Hint Resolve keeps_fputs_tcb : frame.
Lemma keeps_tprints str : keeps R (tprints_string str).
Proof. unfold tprints_string. frame. Qed.
Hint Resolve keeps_tprints : frame.
Lemma keeps_line_ended : keeps R line_ended.
Proof. unfold line_ended. frame. Qed.
Lemma keeps_set_personality p : keeps R (set_personality p).
Proof. unfold set_personality. frame. Qed.
Hint Resolve keeps_set_personality : frame.
Lemma keeps_set_current c : keeps R (set_current_tcp c).
Proof. unfold set_current_tcp. frame. Qed.
Hint Resolve keeps_set_current : frame.
Lemma keeps_space : keeps R tprint_space.
Proof. apply keeps_tprints. Qed.
Lemma keeps_newline : keeps R tprint_newline.
Proof. apply keeps_tprints. Qed.
Hint Resolve keeps_space keeps_newline : frame.
Lemma keeps_prefix i : keeps R (print_leader_prefix i).
Proof. unfold print_leader_prefix. frame. Qed.
Hint Resolve keeps_prefix : frame.
Lemma keeps_printleader i : keeps R (printleader i).
Proof. unfold printleader. frame. Qed.
Lemma keeps_tabto : keeps R tabto.
Proof. unfold tabto. frame. Qed.
Lemma keeps_open i : keeps R (strace_open_memstream i).
Proof. unfold strace_open_memstream. frame. Qed.
Lemma keeps_close i b : keeps R (strace_close_memstream i b).
Proof. unfold strace_close_memstream. frame. Qed.
Hint Resolve keeps_close : frame.
Lemma keeps_droptcb_output i : keeps R (droptcb_output i).
Proof. unfold droptcb_output. frame. Qed.
Lemma keeps_attach {FR : FrameRel R} i fl : keeps R (after_successful_attach i fl).
Proof. unfold after_successful_attach. frame. Qed.
Context {AR : AskRel R}.
Lemma keeps_pid2tcb p : keeps R (pid2tcb p).
Proof. unfold pid2tcb. frame. Qed.
Hint Resolve keeps_line_ended : frame.
Lemma keeps_ptrace_restart op i sig : keeps R (ptrace_restart op i sig).
Proof. unfold ptrace_restart. frame. Qed.
Hint Resolve keeps_ptrace_restart : frame.
Lemma keeps_detach_or i : keeps R (detach_or_interrupt_or_stop i).
Proof. unfold detach_or_interrupt_or_stop. frame. Qed.
Lemma keeps_detach_int i x : keeps R (detach_interrupted_or_stopped i x).
Proof. unfold detach_interrupted_or_stopped. frame. Qed.
Hint Resolve keeps_detach_int : frame.
Lemma keeps_detach_wait n i : keeps R (detach_wait n i).
Proof. induction n; cbn [detach_wait]; frame. Qed.
End output_frames.

#[export] Hint Resolve keeps_fputs_stream keeps_fputs_tcb keeps_tprints keeps_line_ended
  keeps_set_personality keeps_set_current keeps_space keeps_newline keeps_prefix keeps_printleader
  keeps_tabto keeps_open keeps_close keeps_droptcb_output keeps_attach keeps_pid2tcb
  keeps_ptrace_restart keeps_detach_or keeps_detach_int keeps_detach_wait : frame.

(** ** The table invariant

    [nprocs] counts the entries in use, no two of them have the same pid, and
    the queued tracees are distinct entries in use. *)

Definition live (l : list Z) : list Z := base.filter (fun p => p <> 0) l.

Lemma live_split l i x :
  l !! i = Some x -> live l = live (take i l) ++ live [x] ++ live (drop (S i) l)
  /\ forall y, live (<[i := y]> l) = live (take i l) ++ live [y] ++ live (drop (S i) l).
Proof.
  intros Hi. pose proof (lookup_lt_Some _ _ _ Hi). unfold live. split.
  - rewrite <- (take_drop_middle l i x Hi) at 1. rewrite list.filter_app. f_equal.
    apply (list.filter_app _ [x]).
  - intros y. rewrite insert_take_drop by done. rewrite list.filter_app. f_equal.
    apply (list.filter_app _ [y]).
Qed.

Lemma live_one x : live [x] = if x =? 0 then [] else [x].
Proof.
  unfold live. rewrite filter_cons. destruct (Z.eqb_spec x 0) as [->|].
  - by rewrite decide_False by naive_solver.
  - by rewrite decide_True.
Qed.

Lemma live_clear l i x : l !! i = Some x -> x <> 0 -> live l ≡ₚ x :: live (<[i := 0]> l).
Proof.
  intros Hi Hx. destruct (live_split l i x Hi) as [-> E]. rewrite E, !live_one.
  replace (x =? 0) with false by lia. simpl. by rewrite Permutation_middle.
Qed.

Lemma live_set l i x : l !! i = Some 0 -> x <> 0 -> live (<[i := x]> l) ≡ₚ x :: live l.
Proof.
  intros Hi Hx. destruct (live_split l i 0 Hi) as [-> E]. rewrite E, !live_one.
  replace (x =? 0) with false by lia. simpl. by rewrite Permutation_middle.
Qed.

Lemma live_app l k : live (l ++ k) = live l ++ live k.
Proof. apply list.filter_app. Qed.

Lemma live_zeros n : live (replicate n 0) = [].
Proof. induction n; [done|]. simpl. unfold live. rewrite filter_cons, decide_False; naive_solver. Qed.

Lemma live_elem l x : x ∈ live l <-> x <> 0 /\ x ∈ l.
Proof. unfold live. by rewrite list_elem_of_filter. Qed.

(** A table without free entry is full. *)
Lemma live_full l : (forall i, l !! i <> Some 0) -> live l = l.
Proof.
  intros H. induction l as [|x l IH]; [done|]. unfold live in *. rewrite filter_cons.
  rewrite decide_True by (intros ->; by apply (H 0%nat)). f_equal. apply IH. intros i. apply (H (S i)).
Qed.

Lemma live_nonfull l : length (live l) <> length l -> exists i, l !! i = Some 0.
Proof.
  induction l as [|x l IH]; [done|]. unfold live in *. rewrite filter_cons.
  destruct (Z.eq_dec x 0) as [->|Hx]; [by exists 0%nat|].
  rewrite decide_True by done. simpl. intros H. destruct IH as [i Hi]; [lia|]. by exists (S i).
Qed.

Section table.
Context {MA : Machine} {OP : Options}.

Definition pids (s : st) : list Z := map pid (tcbtab s).

Record inv (s : st) : Prop := {
  inv_nprocs : nprocs s = lenZ (live (pids s));
  inv_distinct : base.NoDup (live (pids s));
  inv_nonneg : Forall (fun p => 0 <= p) (pids s);
  inv_queue : base.NoDup (pending_tcps s);
  inv_queued : Forall (fun i => exists p, pids s !! i = Some p /\ p <> 0) (pending_tcps s);
}.

(** The part of the state the invariant is about. *)
Definition same_core (s s' : st) : Prop :=
  pids s' = pids s /\ nprocs s' = nprocs s /\ pending_tcps s' = pending_tcps s
  /\ extra_tcp s' = extra_tcp s.

Lemma pids_alter f i l :
  (forall t, pid (f t) = pid t) -> map pid (alter f i l) = map pid l.
Proof. apply map_alter. Qed.

#[export] Instance same_core_frame : FrameRel same_core.
Proof.
  split; [split; [split|..]|]; unfold same_core, pids; try done.
  - intros s1 s2 s3 (-> & -> & -> & ->) (-> & -> & -> & ->). done.
  - intros i f s Hf. simpl. rewrite pids_alter; [done|]. intros t. apply (f_equal pid (Hf t)).
  - intros i f s Hf. simpl. rewrite pids_alter; [done|]. intros t. by injection (Hf t).
Qed.

#[export] Instance same_core_ask : AskRel same_core.
Proof. by split. Qed.

Lemma inv_core s s' : same_core s s' -> inv s -> inv s'.
Proof. intros (E1 & E2 & E3 & _) []. split; rewrite ?E1, ?E2, ?E3; done. Qed.

Lemma inv_keeps {A} (m : M A) s a s' : keeps same_core m -> m s = Done a s' -> inv s -> inv s'.
Proof. intros Hk Hm. apply inv_core. by eapply Hk. Qed.

Lemma tcb_at_pid s i : pid (tcb_at s i) = default 0 (pids s !! i).
Proof.
  unfold tcb_at, pids. rewrite list_lookup_fmap.
  destruct (tcbtab s !! i) as [t|] eqn:E; simpl.
  - by rewrite (nth_lookup_Some _ _ _ _ E).
  - rewrite nth_overflow; [done|]. by apply lookup_ge_None.
Qed.

Lemma find_pid_spec p l k :
  match find_pid p k l with
  | Some i => (k <= i)%nat /\ map pid l !! (i - k)%nat = Some p
  | None => p ∉ map pid l
  end.
Proof.
  revert k. induction l as [|t l IH]; intros k; simpl; [apply not_elem_of_nil|].
  destruct (Z.eqb_spec (pid t) p) as [<-|Hne].
  - split; [lia|]. by rewrite Nat.sub_diag.
  - specialize (IH (S k)). destruct (find_pid p (S k) l) as [i|].
    + destruct IH as [? IH]. split; [lia|]. replace (i - k)%nat with (S (i - S k)) by lia. done.
    + rewrite not_elem_of_cons. naive_solver.
Qed.

Lemma find_free_spec l k :
  match find_free k l with
  | Some i => (k <= i)%nat /\ map pid l !! (i - k)%nat = Some 0
  | None => forall i, map pid l !! i <> Some 0
  end.
Proof.
  revert k. induction l as [|t l IH]; intros k; simpl; [done|].
  destruct (Z.eqb_spec (pid t) 0) as [E|Hne].
  - split; [lia|]. rewrite Nat.sub_diag, E. done.
  - specialize (IH (S k)). destruct (find_free (S k) l) as [i|].
    + destruct IH as [? IH]. split; [lia|]. replace (i - k)%nat with (S (i - S k)) by lia. done.
    + intros [|i]; [simpl; congruence|]. apply IH.
Qed.

Lemma pid2tcb_spec p s :
  0 < p ->
  exists r s', pid2tcb p s = Done r s' /\ same_core s s' /\ tcbtab s' = tcbtab s
    /\ match r with
       | Some i => pids s !! i = Some p
       | None => p ∉ pids s
       end.
Proof.
  intros Hp. unfold pid2tcb. replace (p <=? 0) with false by lia.
  set (slot := Z.land p PID2TCB_CACHE_MASK). unfold gets, mbind, M_bind, mret, M_ret, modify.
  assert (Hhit : forall i, pid (tcb_at s i) = p -> pids s !! i = Some p).
  { intros i. rewrite tcb_at_pid. destruct (pids s !! i); simpl; [by intros ->|lia]. }
  assert (Hsearch : match find_pid p 0 (tcbtab s) with
                    | Some i => pids s !! i = Some p | None => p ∉ pids s end).
  { pose proof (find_pid_spec p (tcbtab s) 0) as H. destruct (find_pid p 0 (tcbtab s)); [|done].
    destruct H as [_ H]. by rewrite Nat.sub_0_r in H. }
  destruct (match pid2tcb_cache s !! slot with Some i => _ | None => _ end) as [i|] eqn:E.
  - eexists (Some i), s. repeat split; try done. apply Hhit.
    destruct (pid2tcb_cache s !! slot) as [j|]; [|done].
    destruct (Z.eqb_spec (pid (tcb_at s j)) p); [|done]. congruence.
  - destruct (find_pid p 0 (tcbtab s)) as [i|]; eexists _, _; repeat split; done.
Qed.

Lemma inv_alloc s i p :
  inv s -> 0 < p -> p ∉ pids s -> pids s !! i = Some 0 ->
  forall s', pids s' = <[i := p]> (pids s) -> nprocs s' = nprocs s + 1 ->
  pending_tcps s' = pending_tcps s -> inv s'.
Proof.
  intros [Hn Hd Hnn Hq Hl] Hp Hnew Hi s' E1 E2 E3.
  assert (HP := live_set _ _ p Hi ltac:(lia)). split; rewrite ?E1, ?E2, ?E3; try done.
  - rewrite Hn. unfold lenZ. rewrite (Permutation_length HP). simpl. lia.
  - rewrite HP. apply NoDup_cons_2; [|done]. rewrite live_elem. tauto.
  - apply Forall_insert; [done|lia].
  - eapply list.Forall_impl; [exact Hl|]. intros j (q & Hq' & Hqz). exists q. split; [|done].
    rewrite list_lookup_insert_ne; [done|]. congruence.
Qed.

Lemma xgrowarray_tcbtab n :
  0 <= n < 2 ^ 59 ->
  exists m, xgrowarray (fun _ => true) (n =? 0) n 8 = Ret m /\ n < m.
Proof.
  intros Hn. unfold xgrowarray, SIZE_BITS.
  set (g := if n =? 0 then _ else _).
  assert (Hg : 0 < g < 2 ^ 60).
  { unfold g. destruct (Z.eqb_spec n 0) as [->|]; [vm_compute; split; congruence|].
    rewrite Z.shiftr_div_pow2 by lia. change (2 ^ 1) with 2.
    Z.to_euclidean_division_equations. lia. }
  clearbody g. rewrite uint_small by (unfold in_uint; lia).
  replace (n + g <? n) with false by lia. exists (n + g). split; [|lia].
  rewrite xreallocarray_exact by (unfold in_uint; lia).
  by replace ((n + g) * 8 <? 2 ^ 64) with true by lia.
Qed.

Lemma inv_expand s k :
  inv s -> inv (set_tcbtab (tcbtab s ++ replicate k tcb0) s)
  /\ pids (set_tcbtab (tcbtab s ++ replicate k tcb0) s) = pids s ++ replicate k 0.
Proof.
  intros [Hn Hd Hnn Hq Hl].
  assert (E : pids (set_tcbtab (tcbtab s ++ replicate k tcb0) s) = pids s ++ replicate k 0).
  { unfold pids. simpl. rewrite map_app. f_equal. apply fmap_replicate. }
  split; [|done]. split; rewrite ?E; rewrite ?live_app, ?live_zeros, ?app_nil_r; try done.
  - apply Forall_app. split; [done|]. by apply Forall_replicate.
  - eapply list.Forall_impl; [exact Hl|]. intros i (p & Hi & Hp). exists p.
    split; [|done]. by apply lookup_app_l_Some.
Qed.

(** The table [alloctcb] searches: expanded when it is full. *)
Lemma alloctcb_expand s :
  inv s -> lenZ (tcbtab s) < 2 ^ 59 ->
  exists s1 k, when (nprocs s =? lenZ (tcbtab s)) expand_tcbtab s = Done tt s1
    /\ inv s1 /\ nprocs s1 = nprocs s /\ pids s1 = pids s ++ replicate k 0
    /\ pending_tcps s1 = pending_tcps s /\ extra_tcp s1 = extra_tcp s
    /\ exists i, pids s1 !! i = Some 0.
Proof.
  intros Hinv Hsz. destruct (Z.eqb_spec (nprocs s) (lenZ (tcbtab s))) as [E|E]; cbn [when].
  - unfold expand_tcbtab.
    destruct (xgrowarray_tcbtab (lenZ (tcbtab s))) as (m & -> & Hm); [unfold lenZ in *; lia|].
    destruct (inv_expand s (Z.to_nat (m - lenZ (tcbtab s))) Hinv) as [Hi Ep].
    eexists _, _. split; [done|]. split; [done|]. split; [done|]. split; [exact Ep|].
    split; [done|]. split; [done|]. exists (length (pids s)). rewrite Ep.
    rewrite lookup_app_r by done. rewrite Nat.sub_diag. apply lookup_replicate_2. lia.
  - exists s, 0%nat. rewrite app_nil_r. do 6 (split; [done|]).
    apply live_nonfull. rewrite (inv_nprocs _ Hinv) in E. unfold lenZ, pids in *.
    rewrite length_map. lia.
Qed.

(** In a consistent table [alloctcb] succeeds (its "bug in alloctcb" is
    unreachable), gives the new pid a free entry of its own and keeps the table
    consistent. *)
Theorem alloctcb_correct p s :
  inv s -> 0 < p -> p ∉ pids s -> lenZ (tcbtab s) < 2 ^ 59 ->
  exists i s', alloctcb p s = Done i s' /\ inv s' /\ pids s' !! i = Some p
    /\ nprocs s' = nprocs s + 1
    /\ (forall j q, j <> i -> pids s !! j = Some q -> pids s' !! j = Some q).
Proof.
  intros Hinv Hp Hnew Hsz. unfold alloctcb, gets, mbind, M_bind.
  destruct (alloctcb_expand s Hinv Hsz) as (s1 & k & -> & Hi1 & En & Ep & Eq & _ & Hfree).
  pose proof (find_free_spec (tcbtab s1) 0) as Hf.
  destruct (find_free 0 (tcbtab s1)) as [i|]; [|by destruct Hfree as [i Hi]; destruct (Hf i)].
  destruct Hf as [_ Hi]. rewrite Nat.sub_0_r in Hi. fold (pids s1) in Hi.
  eexists i, _. split; [done|].
  match goal with |- inv ?s2 /\ _ => assert (E2 : pids s2 = <[i := p]> (pids s1)) end.
  { unfold pids. simpl. rewrite <- list_insert_alter. apply list_fmap_insert. }
  assert (Hnew1 : p ∉ pids s1).
  { rewrite Ep, elem_of_app. intros [?|[-> _]%elem_of_replicate]; [done|lia]. }
  assert (Hlt : (i < length (pids s1))%nat) by by eapply lookup_lt_Some.
  split; [|split; [|split]].
  - by eapply inv_alloc.
  - rewrite E2. by apply list_lookup_insert_eq.
  - simpl. lia.
  - intros j q Hj Hq. rewrite E2, list_lookup_insert_ne by done. rewrite Ep.
    by apply lookup_app_l_Some.
Qed.

End table.

(** Turn the run [H] of a framed term into the relation of its states. *)
Ltac core_of H :=
  match type of H with
  | ?m ?s = Done _ _ =>
      let K := fresh in assert (K : keeps same_core m) by frame; apply K in H; clear K
  end.

(** ** Dropping *)

Section dropping.
Context {MA : Machine} {OP : Options}.

Lemma elem_unlink i j l : j ∈ unlink i l <-> j ∈ l /\ j <> i.
Proof.
  unfold unlink. rewrite !list_elem_of_In, List.filter_In, negb_true_iff, Nat.eqb_neq. intuition congruence.
Qed.

Lemma NoDup_unlink i l : base.NoDup l -> base.NoDup (unlink i l).
Proof. rewrite !NoDup_ListNoDup. apply List.NoDup_filter. Qed.

(** What [droptcb] leaves of the core when the entry [i] was in use. *)
Definition dropped (i : nat) (s s' : st) : Prop :=
  pids s' = <[i := 0]> (pids s) /\ nprocs s' = nprocs s - 1
  /\ pending_tcps s' = unlink i (pending_tcps s) /\ extra_tcp s' = extra_tcp s.

Lemma droptcb_core i s a s' :
  droptcb i s = Done a s' ->
  (pid (tcb_at s i) = 0 /\ s' = s) \/ (pid (tcb_at s i) <> 0 /\ dropped i s s').
Proof.
  unfold droptcb. intros H. run_get H.
  destruct (Z.eqb_spec (pid (tcb_at s i)) 0) as [E|E].
  { injection H as _ <-. by left. }
  right. split; [done|]. apply bind_Done in H as (? & s0 & H0 & H). injection H0 as _ <-.
  run_step H Hout. run_get H. run_step H Hcur. run_get H. run_step H Hprn.
  apply bind_Done in H as (? & s4 & H4 & H). injection H4 as _ <-. injection H as _ <-.
  core_of Hout. core_of Hcur. core_of Hprn.
  pose proof (frame_trans _ _ _ (frame_trans _ _ _ Hout Hcur) Hprn) as (Fp & Fn & Fq & Fx).
  unfold dropped. unfold pids at 1. simpl in *. rewrite Fn, Fq, Fx. split; [|done].
  rewrite <- list_insert_alter. unfold pids in Fp. simpl in Fp. unfold pids. rewrite <- Fp.
  apply list_fmap_insert.
Qed.

Lemma inv_dropped i s s' : inv s -> pid (tcb_at s i) <> 0 -> dropped i s s' -> inv s'.
Proof.
  intros [Hn Hd Hnn Hq Hl] Hp (E1 & E2 & E3 & _). rewrite tcb_at_pid in Hp.
  destruct (pids s !! i) as [p|] eqn:Hi; [|done]. simpl in Hp.
  pose proof (live_clear _ _ _ Hi Hp) as HP. rewrite HP in Hd. apply list.NoDup_cons in Hd as [_ Hd].
  split; rewrite ?E1, ?E2, ?E3; try done.
  - rewrite Hn. unfold lenZ. rewrite (Permutation_length HP). simpl. lia.
  - apply Forall_insert; [done|lia].
  - by apply NoDup_unlink.
  - apply list.Forall_forall. intros j [Hj Hne]%elem_unlink.
    rewrite list.Forall_forall in Hl. destruct (Hl j Hj) as (q & ? & ?). exists q.
    split; [|done]. by rewrite list_lookup_insert_ne.
Qed.

Lemma inv_droptcb i s a s' : droptcb i s = Done a s' -> inv s -> inv s'.
Proof.
  intros Hd Hinv. apply droptcb_core in Hd as [[_ ->]|[? ?]]; [done|]. by eapply inv_dropped.
Qed.

Lemma inv_detach n i s a s' : detach n i s = Done a s' -> inv s -> inv s'.
Proof.
  unfold detach. intros H Hinv. run_step H H1. run_step H H2.
  eapply inv_droptcb; [exact H|].
  eapply inv_keeps; [|exact H2|]; [frame|]. eapply inv_keeps; [|exact H1|done]. frame.
Qed.
End dropping.

(** ** Reading updated tcbs *)

Section tables.
Context {MA : Machine}.

Lemma tcb_at_alter_ne f i j s :
  i <> j -> tcb_at (set_tcbtab (alter f i (tcbtab s)) s) j = tcb_at s j.
Proof.
  intros Hne. unfold tcb_at. simpl. rewrite !nth_lookup, list_lookup_alter_ne by done. done.
Qed.

Lemma tcb_at_alter_eq f i s :
  (i < length (tcbtab s))%nat ->
  tcb_at (set_tcbtab (alter f i (tcbtab s)) s) i = f (tcb_at s i).
Proof.
  intros Hlt. unfold tcb_at. simpl. rewrite !nth_lookup, list_lookup_alter_eq.
  by destruct (lookup_lt_is_Some_2 _ _ Hlt) as [t ->].
Qed.
End tables.

Lemma flag_on_same m t : m <> 0 -> flag m (flag_on m t) = true.
Proof.
  intros Hm. unfold flag, flag_on, has, set_bits. simpl. apply negb_true_iff, Z.eqb_neq.
  rewrite Z.land_lor_distr_l, Z.land_diag. intros [_ ?]%Z.lor_eq_0_iff. done.
Qed.

Lemma flag_off_sub m m' t : Z.land (Z.lnot m') m = 0 -> flag m (flag_off m' t) = false.
Proof.
  intros Hm. unfold flag, flag_off, has, clear_bits. simpl.
  rewrite <- Z.land_assoc, Hm, Z.land_0_r. done.
Qed.

Lemma flag_on_other m m' t : Z.land m' m = 0 -> flag m (flag_on m' t) = flag m t.
Proof.
  intros Hm. unfold flag, flag_on, has, set_bits. simpl.
  by rewrite Z.land_lor_distr_l, Hm, Z.lor_0_r.
Qed.

Lemma flag_off_other m m' t : Z.land (Z.lnot m') m = m -> flag m (flag_off m' t) = flag m t.
Proof.
  intros Hm. unfold flag, flag_off, has, clear_bits. simpl. by rewrite <- Z.land_assoc, Hm.
Qed.
