(* ===== verification/Syscall.v ===== *)
(** * Syscall stops: decoding phases and tampering (src/syscall.c, src/delay.c)

    What strace does at a syscall-entry and a syscall-exit stop: fetching the
    number and the result, deciding whether the call is traced, injecting
    errors, results, signals, delays and pokes, printing the line.  The decoder
    of a syscall ([sys_func] of its table entry) gives the text of the
    arguments and the return-value format. *)

From stdpp Require Import gmap pretty.
From S2P Require Import Prelude NumberSet Wait Util Arena Seccomp Tcb Tracee.
Open Scope Z_scope.

Definition INJECT_F_SIGNAL := 0x01.
Definition INJECT_F_ERROR := 0x02.
Definition INJECT_F_RETVAL := 0x04.
Definition INJECT_F_DELAY_ENTER := 0x08.
Definition INJECT_F_DELAY_EXIT := 0x10.
Definition INJECT_F_SYSCALL := 0x20.
Definition INJECT_F_POKE_ENTER := 0x40.
Definition INJECT_F_POKE_EXIT := 0x80.
Definition INJECT_LAST_INF := 0xffff.
Definition MAX_ERRNO_VALUE := 4095.

Definition RVAL_UDECIMAL := 0x00.
Definition RVAL_HEX := 0x01.
Definition RVAL_OCTAL := 0x02.
Definition RVAL_FD := 0x08.
Definition RVAL_TID := 0x09.
Definition RVAL_SID := 0x0a.
Definition RVAL_TGID := 0x0b.
Definition RVAL_PGID := 0x0c.
Definition RVAL_MASK := 0x0f.
Definition RVAL_STR := 0x10.
Definition RVAL_NONE := 0x20.
Definition RVAL_DECODED := 0x40.

Definition ERESTARTSYS := 512.
Definition ERESTARTNOINTR := 513.
Definition ERESTARTNOHAND := 514.
Definition ERESTART_RESTARTBLOCK := 516.

Definition SYSCALL_NEVER_FAILS := 0x80.

(** How the return value of a syscall is shown. *)
Inductive ret_text :=
  | RT_err                              (* -1 with the name and text of the error *)
  | RT_erestart (name text : string)
  | RT_none
  | RT_hex | RT_octal | RT_unsigned | RT_fd | RT_decimal
  | RT_pid (ty : Z)
  | RT_invalid.

(** The syscall tables of the build, and the tables the options fill. *)
Class Syscalls := {
  seccomp_config : config;
  sysent_vec : Z -> Z -> option sysent;      (* with a sys_func and not a subcall *)
  qual_flags : Z -> Z -> Z;
  shuffle_scno : Z -> Z;
  is_exec : Z -> bool;                       (* SEN_execve, SEN_execveat, SEN_execv *)
  SEN_restart_syscall : Z;
  sys_func : sysent -> tcb -> string * Z;
  printargs : tcb -> string * Z;
  render_ret : ret_text -> tcb -> string;
  fmt_elapsed : timespec -> string;          (* with Tflag_width and Tflag_scale *)
  aux_text : tcb -> string;                  (* auxstr *)
  klong_small : Z -> bool;                   (* current_klongsize < sizeof(u_rval) *)
  sprintsigname : Z -> string;
  printsiginfo : tcb -> string;
  tracing_paths : bool;                      (* tracing_paths || tracing_fds *)
  pathtrace_match : tcb -> bool;
  inject_vec : Z -> option (list inject_opts);
  retval_vec : arena Z;
  delay_data_vec : arena delay_data;
  poke_data_vec : arena (list poke_payload);
  ptrace_get_syscall_info_supported : bool;
  ptrace_set_syscall_info_supported : bool;
  arch_needs_set_error_for_scno_tampering : bool;
}.

Definition stub_sysent : sysent := mk_sysent 6 0x100 0 "???".
Definition tcp_sysent (t : tcb) : sysent := default stub_sysent (s_ent t).

Section syscall.
Context {MA : Machine} {OP : Options} {SY : Syscalls}.

Definition lift {A} (o : outcome A) : M A :=
  match o with Ret a => mret a | Die m => die m end.

(** ** Registers and syscall information *)

Definition clear_regs : M () :=
  modify (fun s => set_get_regs_error (-1) (set_ptrace_sci sci_cleared s)).

Definition info_is_valid (s : st) : bool :=
  ptrace_get_syscall_info_supported && (sci_op (ptrace_sci s) <=? PTRACE_SYSCALL_INFO_SECCOMP).
Definition info_is_entry (s : st) : bool :=
  ptrace_get_syscall_info_supported
  && ((sci_op (ptrace_sci s) =? PTRACE_SYSCALL_INFO_ENTRY)
      || (sci_op (ptrace_sci s) =? PTRACE_SYSCALL_INFO_SECCOMP)).
Definition info_is_exit (s : st) : bool :=
  ptrace_get_syscall_info_supported && (sci_op (ptrace_sci s) =? PTRACE_SYSCALL_INFO_EXIT).

Definition get_regs (tcp : nat) : M Z :=
  e ← gets get_regs_error;
  if negb (e =? -1) then mret e
  else
    t ← get_tcb tcp;
    r ← ask (GetRegs (pid t));
    _ ← modify (set_get_regs_error (rc r));
    mret (rc r).

Definition strace_get_syscall_info (tcp : nat) : M bool :=
  op ← gets (fun s => sci_op (ptrace_sci s));
  if op =? 0xff then
    t ← get_tcb tcp;
    r ← ask (GetSyscallInfo (pid t));
    if rc r <? 0 then _ ← modify (set_get_regs_error (-2)); mret false
    else _ ← modify (set_ptrace_sci (info r)); mret true
  else mret true.

Definition get_syscall_regs (tcp : nat) : M Z :=
  e ← gets get_regs_error;
  if negb (e =? -1) then mret e
  else if ptrace_get_syscall_info_supported then
    ok ← strace_get_syscall_info tcp;
    if negb ok then gets get_regs_error
    else
      t ← get_tcb tcp;
      ent ← gets info_is_entry;
      ex ← gets info_is_exit;
      if (entering t && ent) || (exiting t && ex) then mret 0 else get_regs tcp
  else get_regs tcp.

Definition get_scno (tcp : nat) : M Z :=
  _ ← upd_tcb tcp (fun t => set_qual_flg (Z.lor QUAL_RAW DEFAULT_QUAL_FLAGS)
                              (set_s_ent None (set_scno (uint 64 (-1)) t)));
  e ← get_syscall_regs tcp;
  if e <? 0 then mret (-1)
  else
    t ← get_tcb tcp;
    ent ← gets info_is_entry;
    sci ← gets ptrace_sci;
    r ← ask (if ent : bool then ArchCheckScno (pid t) else ArchGetScno (pid t));
    if negb (rc r =? 1) then mret (rc r)
    else
      let nr := shuffle_scno (if ent : bool then entry_nr sci else value r) in
      pers ← gets current_personality;
      _ ← upd_tcb tcp (fun t =>
            let t := set_scno nr t in
            let t := match sysent_vec pers nr with
                     | Some e => set_qual_flg (qual_flags pers nr) (set_s_ent (Some e) t)
                     | None => set_s_ent (Some (mk_sysent 6 0x100 0 ("syscall_" +:+ fmt_hex (shuffle_scno nr)))) t
                     end in
            if flag TCB_RECOVERING t then set_qual_flg (Z.lor (qual_flg t) QUAL_RAW) t else t);
      mret 1.

Definition get_syscall_args (tcp : nat) : M Z :=
  ent ← gets info_is_entry;
  if ent : bool then mret 1
  else t ← get_tcb tcp; r ← ask (ArchGetSyscallArgs (pid t)); mret (rc r).

Definition get_error (tcp : nat) (check_errno : bool) : M () :=
  ex ← gets info_is_exit;
  sci ← gets ptrace_sci;
  if ex : bool then
    upd_tcb tcp (fun t => if exit_is_error sci then set_u_error (- exit_rval sci) (set_u_rval (-1) t)
                          else set_u_rval (exit_rval sci) (set_u_error 0 t))
  else
    t ← get_tcb tcp;
    r ← ask (ArchGetError (pid t) check_errno);
    upd_tcb tcp (fun t => set_u_rval (value r) (set_u_error (errno r) t)).

Definition get_syscall_result (tcp : nat) : M Z :=
  e ← get_syscall_regs tcp;
  if e <? 0 then mret (-1)
  else
    t ← get_tcb tcp;
    _ ← get_error tcp
          ((negb (has (sysent_flags (tcp_sysent t)) SYSCALL_NEVER_FAILS) || flag TCB_TAMPERED t)
           && negb (flag TCB_TAMPERED_NO_FAIL t));
    mret 1.

(** ** Setting the number and the result *)

Definition set_scno (tcp : nat) (nr : Z) : M Z :=
  t ← get_tcb tcp;
  ent ← gets info_is_entry;
  sci ← gets ptrace_sci;
  r ← (if ptrace_set_syscall_info_supported && ent then
         let sci' := mk_sci (sci_op sci) (uint 64 nr) (exit_is_error sci) (exit_rval sci) in
         _ ← modify (set_ptrace_sci sci');
         r ← ask (SetSyscallInfo (pid t) sci'); mret (rc r)
       else mret (-1));
  if r =? 0 then mret 1
  else r ← ask (ArchSetScno (pid t) (uint 64 nr)); mret (rc r).

(** The common part of [set_error] and [set_success]: try to set the exit
    information, otherwise the registers.  [commit] is applied when
    PTRACE_SET_SYSCALL_INFO succeeded, [revert] when nothing did. *)
Definition set_result (tcp : nat) (is_error : bool) (rval : Z) (arch : Z -> request)
    (commit revert : tcb -> tcb) : M () :=
  t ← get_tcb tcp;
  ex ← gets info_is_exit;
  sci ← gets ptrace_sci;
  let fallback :=
    e ← get_regs tcp;
    if e <? 0 then upd_tcb tcp revert
    else
      r ← ask (arch (pid t));
      if negb (rc r =? 0) then upd_tcb tcp revert
      else
        valid ← gets info_is_valid;
        if valid : bool then upd_tcb tcp commit
        else
          t ← get_tcb tcp;
          get_error tcp (negb (has (sysent_flags (tcp_sysent t)) SYSCALL_NEVER_FAILS)) in
  if ptrace_set_syscall_info_supported && ex then
    let sci' := mk_sci (sci_op sci) (entry_nr sci) is_error rval in
    _ ← modify (set_ptrace_sci sci');
    r ← ask (SetSyscallInfo (pid t) sci');
    if rc r =? 0 then upd_tcb tcp commit
    else _ ← modify (set_ptrace_sci sci); fallback
  else fallback.

Definition set_error (tcp : nat) (new_error : Z) : M () :=
  t ← get_tcb tcp;
  let old_error := u_error t in
  if (new_error =? old_error) || (MAX_ERRNO_VALUE <? new_error) then mret tt
  else
    _ ← upd_tcb tcp (set_u_error new_error);
    set_result tcp true (- new_error) (fun p => ArchSetError p new_error)
      (set_u_rval (-1)) (set_u_error old_error).

Definition set_success (tcp : nat) (new_rval : Z) : M () :=
  t ← get_tcb tcp;
  let old_rval := u_rval t in
  _ ← upd_tcb tcp (set_u_rval new_rval);
  set_result tcp false new_rval (fun p => ArchSetSuccess p new_rval)
    (set_u_error 0) (set_u_rval old_rval).

(** ** Delays and pokes *)

Definition arm_delay_timer (tcp : nat) : M () :=
  t ← get_tcb tcp;
  r ← ask (TimerSettime (delay_expiration_time t));
  if negb (rc r =? 0) then die "timer_settime"
  else modify (set_delay_timer_is_armed true).

Definition delay_tcb (tcp : nat) (idx : Z) (isenter : bool) : M () :=
  d ← lift (arena_get delay0 "delay_idx >= delay_data_vec_size" idx delay_data_vec);
  _ ← upd_tcb tcp (fun t => flag_on TCB_TAMPERED_DELAYED (flag_on TCB_DELAYED t));
  let ts_diff := if isenter then ts_enter d else ts_exit d in
  now ← ask ClockMonotonic;
  _ ← upd_tcb tcp (set_delay_expiration_time (ts_add (rtime now) ts_diff));
  created ← gets delay_timer_created;
  if created : bool then
    r ← ask TimerGettime;
    if negb (rc r =? 0) then die "timer_gettime"
    else if ts_nz (rtime r) && (0 <? ts_cmp ts_diff (rtime r)) then mret tt
    else arm_delay_timer tcp
  else
    r ← ask TimerCreate;
    if negb (rc r =? 0) then die "timer_create"
    else _ ← modify (set_delay_timer_created true); arm_delay_timer tcp.

Definition MAX_ARGS := 6.
Definition n_args (t : tcb) : Z := Z.min (nargs (tcp_sysent t)) MAX_ARGS.

(** The loop over the payloads; [Upoken] writes to the address the argument
    holds, its reply is the number of bytes written. *)
Fixpoint poke_payloads (tcp : nat) (is_enter : bool) (l : list poke_payload) (poked : bool) : M bool :=
  match l with
  | [] => mret poked
  | i :: l' =>
      t ← get_tcb tcp;
      if negb (eqb (poke_is_enter i) is_enter) then poke_payloads tcp is_enter l' poked
      else if n_args t <? arg_no i then poke_payloads tcp is_enter l' poked
      else
        r ← ask (Upoken (pid t) (arg_no i) (poke_data i));
        poke_payloads tcp is_enter l' (if rc r =? 0 then poked else true)
  end.

Definition poke_tcb (tcp : nat) (idx : Z) (is_enter : bool) : M () :=
  l ← lift (arena_get [] "poke_idx >= poke_data_vec_size" idx poke_data_vec);
  poked ← poke_payloads tcp is_enter l false;
  if (poked : bool) then upd_tcb tcp (flag_on TCB_TAMPERED_POKED) else mret tt.

(** ** Tampering *)

Definition nsyscalls (pers : Z) : Z := nsyscalls_at seccomp_config pers.

(** [tcb_inject_opts]: the options of the tcb for its current syscall. *)
Definition tcb_inject_opts (pers : Z) (t : tcb) : option inject_opts :=
  if scno t <? nsyscalls pers then v ← tcb_inject_vec t !! pers; v !! Z.to_nat (scno t) else None.

Definition set_inject_opts (pers : Z) (o : inject_opts) (t : tcb) : tcb :=
  set_tcb_inject_vec (alter (fun v => <[Z.to_nat (scno t) := o]> v) pers (tcb_inject_vec t)) t.

(** The counters of one hit; the flag tells whether the injection applies. *)
Definition inject_hit (o : inject_opts) : inject_opts * bool :=
  if (first o =? 0) || (last o =? 0) then (o, false)
  else
    let l := if last o =? INJECT_LAST_INF then last o else last o - 1 in
    let f := first o - 1 in
    if negb (f =? 0) then (mk_inject_opts f l (step o) (data o), false)
    else (mk_inject_opts (step o) l (step o) (data o), true).

Definition inject_has (d : inject_data) (m : Z) : bool := has (inject_flags d) m.

(** Changing the syscall number, of an injected error or return value. *)
Definition tamper_scno (tcp : nat) (d : inject_data) : M () :=
  if inject_has d (Z.lor INJECT_F_ERROR INJECT_F_RETVAL) then
    let nr := if inject_has d INJECT_F_SYSCALL then shuffle_scno (inject_scno d) else -1 in
    r ← set_scno tcp nr;
    if 0 <=? r then
      _ ← upd_tcb tcp (flag_on TCB_TAMPERED);
      if negb (nr =? -1) then upd_tcb tcp (flag_on TCB_TAMPERED_NO_FAIL)
      else if arch_needs_set_error_for_scno_tampering && (r =? 0) then
        rval ← (if inject_has d INJECT_F_RETVAL then mret ENOSYS
                else lift (retval_get (rval_idx d) retval_vec));
        _ ← upd_tcb tcp (set_u_error 0);
        set_error tcp (uint 64 rval)
      else mret tt
    else mret tt
  else mret tt.

(** [tamper_with_syscall_entering]; the result is the new value of [*signo]. *)
Definition tamper_with_syscall_entering (tcp : nat) (signo : Z) : M Z :=
  pers ← gets current_personality;
  _ ← upd_tcb tcp (fun t => match tcb_inject_vec t !! pers, inject_vec pers with
                            | None, Some v => set_tcb_inject_vec (<[pers := v]> (tcb_inject_vec t)) t
                            | _, _ => t
                            end);
  t ← get_tcb tcp;
  match tcb_inject_opts pers t with
  | None => mret signo
  | Some opts =>
      let '(opts', hit) := inject_hit opts in
      _ ← upd_tcb tcp (set_inject_opts pers opts');
      if hit && negb (flag TCB_RECOVERING t) then
        let d := data opts in
        _ ← tamper_scno tcp d;
        _ ← when (inject_has d INJECT_F_POKE_ENTER) (poke_tcb tcp (poke_idx d) true);
        _ ← when (inject_has d INJECT_F_POKE_EXIT) (upd_tcb tcp (flag_on TCB_INJECT_POKE_EXIT));
        _ ← when (inject_has d INJECT_F_DELAY_ENTER) (delay_tcb tcp (delay_idx d) true);
        _ ← when (inject_has d INJECT_F_DELAY_EXIT) (upd_tcb tcp (flag_on TCB_INJECT_DELAY_EXIT));
        mret (if inject_has d INJECT_F_SIGNAL then Tcb.signo d else signo)
      else mret signo
  end.

Definition tamper_with_syscall_exiting (tcp : nat) : M Z :=
  pers ← gets current_personality;
  t ← get_tcb tcp;
  match tcb_inject_opts pers t with
  | None => mret 0
  | Some opts =>
      let d := data opts in
      _ ← when (flag TCB_INJECT_POKE_EXIT t) (poke_tcb tcp (poke_idx d) false);
      _ ← when (flag TCB_INJECT_DELAY_EXIT t) (delay_tcb tcp (delay_idx d) false);
      t ← get_tcb tcp;
      if negb (flag TCB_TAMPERED t) then mret 0
      else if xorb (negb (syserror t)) (flag TCB_TAMPERED_NO_FAIL t) then mret 1
      else
        rval ← lift (retval_get (rval_idx d) retval_vec);
        _ ← (if inject_has d INJECT_F_RETVAL then set_success tcp rval
             else set_error tcp (uint 64 rval));
        mret 0
  end.

(** ** The entering phase *)

Definition tprints_arg_begin (name : string) : M () :=
  _ ← tprints_string name; tprints_string "(".
Definition tprint_arg_end : M () := tprints_string ")".

(** 0: ignore the stop; 1: decoded; other: an error of a ptrace request. *)
Definition syscall_entering_decode (tcp : nat) : M Z :=
  res ← get_scno tcp;
  if res =? 0 then mret 0
  else
    res ← (if res =? 1 then get_syscall_args tcp else mret res);
    if negb (res =? 1) then
      _ ← printleader tcp;
      t ← get_tcb tcp;
      _ ← tprints_arg_begin (sys_name (tcp_sysent t));
      mret res
    else mret 1.

Definition status_filtering : bool := negb (is_complete_set status_set NUMBER_OF_STATUSES).

(** While the tracee executes strace's own code: no tampering, and the first
    exec makes the log visible. *)
Definition entering_hidden (t : tcb) : tcb :=
  if flag TCB_HIDE_LOG t then
    let t := set_qual_flg (clear_bits (qual_flg t) QUAL_INJECT) t in
    if is_exec (sen (tcp_sysent t))
    then flag_on TCB_CHECK_EXEC_SYSCALL (flag_off TCB_HIDE_LOG t) else t
  else t.

(** The result is the return value and the new value of [*sig]. *)
Definition syscall_entering_trace (tcp : nat) (sig : Z) : M (Z * Z) :=
  _ ← upd_tcb tcp entering_hidden;
  t ← get_tcb tcp;
  if flag TCB_HIDE_LOG t || negb (qual QUAL_TRACE t) || (tracing_paths && negb (pathtrace_match t))
  then _ ← upd_tcb tcp (flag_on TCB_FILTERED); mret (0, sig)
  else
    _ ← upd_tcb tcp (flag_off TCB_FILTERED);
    sig ← (if qual QUAL_INJECT t then tamper_with_syscall_entering tcp sig else mret sig);
    if cflag =? CFLAG_ONLY_STATS then mret (0, sig)
    else
      _ ← when status_filtering (strace_open_memstream tcp);
      _ ← printleader tcp;
      t ← get_tcb tcp;
      _ ← tprints_arg_begin (sys_name (tcp_sysent t));
      let '(text, res) := if qual QUAL_RAW t then printargs t else sys_func (tcp_sysent t) t in
      _ ← tprints_string text;
      mret (res, sig).

Definition syscall_entering_finish (tcp : nat) (res : Z) : M () :=
  _ ← upd_tcb tcp (fun t => set_sys_func_rval res (flag_on TCB_INSYSCALL t));
  t ← get_tcb tcp;
  _ ← (if (Tflag || negb (cflag =? 0)) && negb (flag TCB_FILTERED t) then
         now ← ask ClockMonotonic; upd_tcb tcp (set_etime (rtime now))
       else mret tt);
  when (negb (cflag =? 0)) (upd_tcb tcp (fun t => set_ltime (stime t) t)).

(** ** The exiting phase *)

(** The first component is the exit time, when measured. *)
Definition syscall_exiting_decode (tcp : nat) : M (timespec * Z) :=
  t ← get_tcb tcp;
  ts ← (if (Tflag || negb (cflag =? 0)) && negb (flag TCB_FILTERED t) then
          now ← ask ClockMonotonic; mret (rtime now)
        else mret ts0);
  if flag TCB_FILTERED t then mret (ts, 0)
  else
    _ ← when (flag TCB_CHECK_EXEC_SYSCALL t) (upd_tcb tcp (flag_on TCB_HIDE_LOG));
    _ ← set_personality (currpers t);
    res ← get_syscall_result tcp;
    mret (ts, res).

Definition print_syscall_resume (tcp : nat) : M () :=
  t ← get_tcb tcp;
  p ← gets printing_tcp;
  let other := match p with Some j => negb (j =? tcp)%nat | None => true end in
  let unstaged := match staged_output_data t with None => true | Some _ => false end in
  _ ← (if (negb output_separately && other && unstaged) || flag TCB_REPRINT t then
         _ ← upd_tcb tcp (flag_off TCB_REPRINT);
         _ ← printleader tcp;
         _ ← tprints_string "<... ";
         _ ← tprints_string (sys_name (tcp_sysent t));
         tprints_string " resumed>"
       else mret tt);
  modify (set_printing_tcp (Some tcp)).

Definition count_syscall (tcp : nat) : M () :=
  t ← get_tcb tcp;
  modify (fun s => set_calls_counted (calls_counted s ++ [scno t]) s).

(** The form the return value is printed in. *)
Definition sysret_text (small : bool) (t : tcb) (sys_res : Z) : ret_text :=
  if qual QUAL_RAW t then (if syserror t then RT_err else RT_hex)
  else if negb (has sys_res RVAL_NONE) && syserror t then
    if u_error t =? ERESTARTSYS then RT_erestart "ERESTARTSYS" "To be restarted if SA_RESTART is set"
    else if u_error t =? ERESTARTNOINTR then RT_erestart "ERESTARTNOINTR" "To be restarted"
    else if u_error t =? ERESTARTNOHAND then RT_erestart "ERESTARTNOHAND" "To be restarted if no handler"
    else if u_error t =? ERESTART_RESTARTBLOCK
         then RT_erestart "ERESTART_RESTARTBLOCK" "Interrupted by signal"
    else RT_err
  else if has sys_res RVAL_NONE then RT_none
  else
    let form := Z.land sys_res RVAL_MASK in
    if form =? RVAL_HEX then RT_hex
    else if form =? RVAL_OCTAL then RT_octal
    else if form =? RVAL_UDECIMAL then RT_unsigned
    else if form =? RVAL_FD then
      (if small || (uint 64 (u_rval t) <=? 0x7fffffff) then RT_fd else RT_decimal)
    else if (RVAL_TID <=? form) && (form <=? RVAL_PGID) then RT_pid (form - RVAL_TID)
    else RT_invalid.

Definition injected_note (t : tcb) : string :=
  ((if flag TCB_TAMPERED t && flag TCB_TAMPERED_POKED t then " (INJECTED: args, retval)"
    else if flag TCB_TAMPERED_POKED t then " (INJECTED: args)"
    else if flag TCB_TAMPERED t then " (INJECTED)" else EmptyString)
   +:+ (if flag TCB_TAMPERED_DELAYED t then " (DELAYED)" else EmptyString))%string.

Definition sysret_begin : M () :=
  _ ← tprint_arg_end; _ ← tprint_space; _ ← tabto; tprints_string "=".

(** [syscall_exiting_trace] after an error of a ptrace request. *)
Definition exiting_unavailable (tcp : nat) (res : Z) : M Z :=
  let publish := if status_filtering then is_number_in_set STATUS_UNAVAILABLE status_set else true in
  _ ← when (negb (cflag =? 0) && publish) (count_syscall tcp);
  _ ← (if negb (cflag =? CFLAG_ONLY_STATS) then
         _ ← sysret_begin;
         _ ← tprints_string " ? <unavailable>";
         _ ← tprint_newline;
         _ ← when status_filtering (strace_close_memstream tcp publish);
         line_ended
       else mret tt);
  mret res.

(** Whether the status of the finished call is to be shown. *)
Definition publish_status (t : tcb) : bool :=
  (syserror t && is_number_in_set STATUS_FAILED status_set)
  || (negb (syserror t) && is_number_in_set STATUS_SUCCESSFUL status_set).

(** The line's end: the return value, the notes and the time spent. *)
Definition print_sysret (tcp : nat) (ts : timespec) (sys_res : Z) : M () :=
  _ ← sysret_begin;
  t ← get_tcb tcp;
  pers ← gets current_personality;
  _ ← tprints_string (" " +:+ render_ret (sysret_text (klong_small pers) t sys_res) t);
  _ ← (if has sys_res RVAL_STR && negb (slen (aux_text t) =? 0)
       then tprints_string (" (" +:+ aux_text t +:+ ")") else mret tt);
  _ ← tprints_string (injected_note t);
  _ ← (if Tflag then
         tprints_string (" <" +:+ fmt_elapsed (ts_sub ts (etime t)) +:+ ">")
       else mret tt);
  _ ← tprint_newline;
  line_ended.

Definition syscall_exiting_trace (tcp : nat) (ts : timespec) (res : Z) : M Z :=
  t ← get_tcb tcp;
  _ ← (if flag TCB_TAMPERED t || flag TCB_INJECT_DELAY_EXIT t || flag TCB_INJECT_POKE_EXIT t
       then _ ← tamper_with_syscall_exiting tcp; mret tt else mret tt);
  _ ← when (negb (cflag =? CFLAG_ONLY_STATS)) (print_syscall_resume tcp);
  t ← get_tcb tcp;
  let prev_ent := if sen (tcp_sysent t) =? SEN_restart_syscall then s_prev_ent t else s_ent t in
  _ ← upd_tcb tcp (set_s_prev_ent None);
  if negb (res =? 1) then exiting_unavailable tcp res
  else
    _ ← upd_tcb tcp (set_s_prev_ent prev_ent);
    t ← get_tcb tcp;
    sys_res ← (if (cflag =? CFLAG_ONLY_STATS) || qual QUAL_RAW t then mret 0
               else if has (sys_func_rval t) RVAL_DECODED then mret (sys_func_rval t)
               else
                 let '(text, r) := sys_func (tcp_sysent t) t in
                 _ ← tprints_string text; mret r);
    t ← get_tcb tcp;
    let publish := publish_status t in
    _ ← when (status_filtering && negb (cflag =? CFLAG_ONLY_STATS))
             (strace_close_memstream tcp publish);
    if status_filtering && negb publish then
      _ ← when (negb (cflag =? CFLAG_ONLY_STATS)) line_ended;
      mret 0
    else
      limit ← gets syscall_limit;
      _ ← when (negb (limit =? -1)) (modify (set_syscall_limit (limit - 1)));
      _ ← when (negb (cflag =? 0)) (count_syscall tcp);
      if cflag =? CFLAG_ONLY_STATS then mret 0
      else _ ← print_sysret tcp ts sys_res; mret 0.

Definition exiting_cleared_flags : Z :=
  Z.lor (Z.lor (Z.lor (Z.lor (Z.lor TCB_INSYSCALL TCB_TAMPERED) TCB_INJECT_DELAY_EXIT)
                      TCB_INJECT_POKE_EXIT) TCB_TAMPERED_DELAYED) TCB_TAMPERED_POKED.

Definition syscall_exiting_finish (tcp : nat) : M () :=
  _ ← upd_tcb tcp (fun t => set_sys_func_rval 0 (flag_off exiting_cleared_flags t));
  when (negb (cflag =? 0)) (upd_tcb tcp (fun t => set_ltime (stime t) t)).

(** [trace_syscall] of src/strace.c; the result is paired with the new [*sig]. *)
Definition trace_syscall (tcp : nat) (sig : Z) : M (Z * Z) :=
  t ← get_tcb tcp;
  if entering t then
    res ← syscall_entering_decode tcp;
    if res =? 0 then mret (0, sig)
    else
      rs ← (if res =? 1 then syscall_entering_trace tcp sig else mret (res, sig));
      _ ← syscall_entering_finish tcp (fst rs);
      mret rs
  else
    tr ← syscall_exiting_decode tcp;
    res ← (if negb (snd tr =? 0) then syscall_exiting_trace tcp (fst tr) (snd tr) else mret (snd tr));
    _ ← syscall_exiting_finish tcp;
    mret (res, sig).

End syscall.

(** ** Frames: a syscall stop changes no pid and no queue *)

Section syscall_frames.
Context {MA : Machine} {OP : Options} {SY : Syscalls}.
Context {R : st -> st -> Prop} {FR : FrameRel R} {AR : AskRel R}.

Lemma keeps_lift {A} (o : outcome A) : keeps R (lift o).
Proof. destruct o; frame. Qed.
Hint Resolve keeps_lift : frame.
Lemma keeps_clear_regs : keeps R clear_regs.
Proof. unfold clear_regs. frame. Qed.
Lemma keeps_get_regs i : keeps R (get_regs i).
Proof. unfold get_regs. frame. Qed.
Hint Resolve keeps_get_regs : frame.
Lemma keeps_get_info i : keeps R (strace_get_syscall_info i).
Proof. unfold strace_get_syscall_info. frame. Qed.
Hint Resolve keeps_get_info : frame.
Lemma keeps_get_syscall_regs i : keeps R (get_syscall_regs i).
Proof. unfold get_syscall_regs. frame. Qed.
Hint Resolve keeps_get_syscall_regs : frame.
Lemma keeps_get_scno i : keeps R (get_scno i).
Proof. unfold get_scno. frame. Qed.
Lemma keeps_get_args i : keeps R (get_syscall_args i).
Proof. unfold get_syscall_args. frame. Qed.
Lemma keeps_get_error i b : keeps R (get_error i b).
Proof. unfold get_error. frame. Qed.
Hint Resolve keeps_get_error : frame.
Lemma keeps_get_result i : keeps R (get_syscall_result i).
Proof. unfold get_syscall_result. frame. Qed.
Lemma keeps_set_scno i n : keeps R (set_scno i n).
Proof. unfold set_scno. frame. Qed.
Lemma keeps_set_result i b v ar c r :
  (forall t, key (c t) = key t) -> (forall t, key (r t) = key t) ->
  keeps R (set_result i b v ar c r).
Proof.
  intros Hc Hr. assert (keeps R (upd_tcb i c)) by by apply keeps_upd.
  assert (keeps R (upd_tcb i r)) by by apply keeps_upd.
  unfold set_result. frame.
Qed.
Lemma keeps_set_error i e : keeps R (set_error i e).
Proof. unfold set_error. frame. by apply keeps_set_result. Qed.
Lemma keeps_set_success i v : keeps R (set_success i v).
Proof. unfold set_success. frame. by apply keeps_set_result. Qed.
Lemma keeps_arm i : keeps R (arm_delay_timer i).
Proof. unfold arm_delay_timer. frame. Qed.
Hint Resolve keeps_arm keeps_set_error keeps_set_success keeps_set_scno : frame.
Lemma keeps_delay i x b : keeps R (delay_tcb i x b).
Proof. unfold delay_tcb. frame. Qed.
Lemma keeps_payloads i b l p : keeps R (poke_payloads i b l p).
Proof. revert p. induction l; intros p; cbn [poke_payloads]; frame. Qed.
Hint Resolve keeps_payloads : frame.
Lemma keeps_poke i x b : keeps R (poke_tcb i x b).
Proof. unfold poke_tcb. frame. Qed.
Hint Resolve keeps_delay keeps_poke : frame.
Lemma keeps_tamper_scno i d : keeps R (tamper_scno i d).
Proof. unfold tamper_scno. frame. Qed.
Hint Resolve keeps_tamper_scno : frame.
Lemma keeps_tamper_entering i n : keeps R (tamper_with_syscall_entering i n).
Proof. unfold tamper_with_syscall_entering. frame. Qed.
Lemma keeps_tamper_exiting i : keeps R (tamper_with_syscall_exiting i).
Proof. unfold tamper_with_syscall_exiting. frame. Qed.
Hint Resolve keeps_tamper_entering keeps_tamper_exiting keeps_get_scno keeps_get_args
  keeps_get_result : frame.
Lemma keeps_arg_begin n : keeps R (tprints_arg_begin n).
Proof. unfold tprints_arg_begin. frame. Qed.
Hint Resolve keeps_arg_begin : frame.
Lemma keeps_entering_decode i : keeps R (syscall_entering_decode i).
Proof. unfold syscall_entering_decode. frame. Qed.
Lemma entering_hidden_key t : key (entering_hidden t) = key t.
Proof. unfold entering_hidden. by repeat case_match. Qed.
Lemma keeps_entering_trace i n : keeps R (syscall_entering_trace i n).
Proof.
  assert (keeps R (upd_tcb i entering_hidden)) by (apply keeps_upd, entering_hidden_key).
  unfold syscall_entering_trace. frame.
Qed.
Lemma keeps_entering_finish i r : keeps R (syscall_entering_finish i r).
Proof. unfold syscall_entering_finish. frame. Qed.
Lemma keeps_exiting_decode i : keeps R (syscall_exiting_decode i).
Proof. unfold syscall_exiting_decode. frame. Qed.
Lemma keeps_resume i : keeps R (print_syscall_resume i).
Proof. unfold print_syscall_resume. frame. Qed.
Lemma keeps_count i : keeps R (count_syscall i).
Proof. unfold count_syscall. frame. Qed.
Lemma keeps_sysret_begin : keeps R sysret_begin.
Proof. unfold sysret_begin, tprint_arg_end. frame. Qed.
Hint Resolve keeps_resume keeps_count keeps_sysret_begin : frame.
Lemma keeps_unavailable i r : keeps R (exiting_unavailable i r).
Proof. unfold exiting_unavailable. frame. Qed.
Lemma keeps_print_sysret i ts r : keeps R (print_sysret i ts r).
Proof. unfold print_sysret. frame. Qed.
Hint Resolve keeps_unavailable keeps_print_sysret : frame.
Lemma keeps_exiting_trace i ts r : keeps R (syscall_exiting_trace i ts r).
Proof. unfold syscall_exiting_trace. frame. Qed.
Lemma keeps_exiting_finish i : keeps R (syscall_exiting_finish i).
Proof. unfold syscall_exiting_finish. frame. Qed.
Hint Resolve keeps_entering_decode keeps_entering_trace keeps_entering_finish keeps_exiting_decode
  keeps_exiting_trace keeps_exiting_finish : frame.
Lemma keeps_trace_syscall i n : keeps R (trace_syscall i n).
Proof. unfold trace_syscall. frame. Qed.
End syscall_frames.

#[export] Hint Resolve keeps_entering_decode keeps_entering_trace keeps_entering_finish
  keeps_exiting_decode keeps_exiting_trace keeps_exiting_finish keeps_set_error keeps_set_success
  keeps_delay keeps_poke keeps_tamper_entering keeps_tamper_exiting : frame.
#[export] Hint Resolve keeps_lift keeps_clear_regs keeps_get_scno keeps_arm keeps_trace_syscall
  keeps_resume keeps_count keeps_sysret_begin : frame.

(** ** The schedule of an injection *)

(** Whether the [k]-th further invocation (from 1) of a syscall is tampered
    with, by the counters of [inject_hit]. *)
Fixpoint nth_hit (o : inject_opts) (k : nat) : bool :=
  match k with
  | O => false
  | S O => snd (inject_hit o)
  | S k' => nth_hit (fst (inject_hit o)) k'
  end.

(** The [when=first..last+step] expression: invocations [first],
    [first + step], ... up to [last]. *)
Definition scheduled (o : inject_opts) (k : Z) : bool :=
  (1 <=? first o) && ((last o =? INJECT_LAST_INF) || (k <=? last o)) && (first o <=? k)
  && (if step o =? 0 then k =? first o else (k - first o) mod step o =? 0).

Lemma mod_shift k s : 0 < s -> (k - s) mod s = k mod s.
Proof. intros. replace (k - s) with (k + -1 * s) by lia. apply Z_mod_plus_full. Qed.

Lemma scheduled_step o k :
  0 <= first o -> 0 <= last o <= INJECT_LAST_INF -> 0 <= step o -> 1 <= k ->
  scheduled (fst (inject_hit o)) k = scheduled o (k + 1).
Proof.
  intros Hf Hl Hs Hk. destruct o as [f l st d]. simpl in *. unfold scheduled, inject_hit.
  cbn [first last step data] in *. unfold INJECT_LAST_INF in *.
  destruct (Z.eqb_spec f 0) as [->|Hf0]; cbn [orb fst first last step].
  { done. }
  destruct (Z.eqb_spec l 0) as [->|Hl0]; cbn [orb fst first last step].
  { replace (k <=? 0) with false by lia. replace (k + 1 <=? 0) with false by lia.
    by rewrite !andb_false_r. }
  assert (Hlast : ((if l =? 65535 then l else l - 1) =? 65535)
    || (k <=? (if l =? 65535 then l else l - 1)) = (l =? 65535) || (k + 1 <=? l)).
  { destruct (Z.eqb_spec l 65535) as [->|]; [done|]. replace (l - 1 =? 65535) with false by lia.
    cbn [orb]. lia. }
  destruct (Z.eqb_spec (f - 1) 0) as [E1|E1]; cbn [negb fst first last step]; rewrite Hlast; clear Hlast.
  - assert (f = 1) as -> by lia. set (L := (_ || _)). change (1 <=? 1) with true. cbn [andb].
    replace (1 <=? k + 1) with true by lia. rewrite andb_true_r.
    destruct (Z.eqb_spec st 0) as [->|].
    + replace (k + 1 =? 1) with false by lia. by rewrite andb_false_r.
    + replace (1 <=? st) with true by lia. rewrite mod_shift by lia. cbn [andb].
      replace (k + 1 - 1) with k by lia. destruct L; [|done]. cbn [andb].
      destruct (Z.leb_spec st k); [done|]. rewrite Z.mod_small by lia.
      by replace (k =? 0) with false by lia.
  - replace (1 <=? f - 1) with true by lia. replace (1 <=? f) with true by lia.
    replace (f - 1 <=? k) with (f <=? k + 1) by lia.
    replace (k =? f - 1) with (k + 1 =? f) by lia. by replace (k - (f - 1)) with (k + 1 - f) by lia.
Qed.

Lemma inject_hit_range o :
  0 <= first o -> 0 <= last o <= INJECT_LAST_INF -> 0 <= step o ->
  let o' := fst (inject_hit o) in
  0 <= first o' /\ 0 <= last o' <= INJECT_LAST_INF /\ 0 <= step o'.
Proof.
  unfold inject_hit, INJECT_LAST_INF. intros. destruct o as [f l st d]. simpl in *.
  bcase; simpl; lia.
Qed.

Lemma nth_hit_scheduled o k :
  0 <= first o -> 0 <= last o <= INJECT_LAST_INF -> 0 <= step o -> (1 <= k)%nat ->
  nth_hit o k = scheduled o (Z.of_nat k).
Proof.
  revert o. induction k as [|k IH]; intros o Hf Hl Hs Hk; [lia|].
  destruct k as [|k].
  - cbn [nth_hit]. unfold inject_hit, scheduled, INJECT_LAST_INF in *.
    destruct o as [f l st d]. simpl in *. change (Z.of_nat 1) with 1.
    destruct (Z.eqb_spec f 0) as [->|]; [done|]. destruct (Z.eqb_spec l 0) as [->|]; [by rewrite andb_false_r|].
    replace (1 <=? f) with true by lia. replace ((l =? 65535) || (1 <=? l)) with true by lia.
    cbn [orb andb negb]. destruct (Z.eqb_spec (f - 1) 0) as [E|E]; cbn [negb snd].
    + assert (f = 1) as -> by lia. simpl. by destruct (st =? 0).
    + by replace (f <=? 1) with false by lia.
  - destruct (inject_hit_range o) as (? & ? & ?); [done..|].
    change (nth_hit o (S (S k))) with (nth_hit (fst (inject_hit o)) (S k)).
    rewrite IH by (done || lia). rewrite scheduled_step by (done || lia).
    f_equal. lia.
Qed.

(** C9: the injection counters implement the [when=] expression: the [k]-th
    invocation of the syscall by the tracee is tampered with exactly when it is
    one of [first], [first + step], ... that does not exceed [last] (without
    step, [first] alone). *)
Theorem injection_schedule o k :
  0 <= first o -> 0 <= last o <= INJECT_LAST_INF -> 0 <= step o -> (1 <= k)%nat ->
  nth_hit o k = scheduled o (Z.of_nat k).
Proof. apply nth_hit_scheduled. Qed.

Definition demo_opts : inject_opts := mk_inject_opts 3 10 2 (mk_inject_data 0 0 0 0 0 0).
Lemma injection_schedule_witness : nth_hit demo_opts 5 = scheduled demo_opts 5.
Proof. apply (injection_schedule demo_opts 5); vm_compute; try split; congruence || lia. Defined.

Example demo_schedule :
  map (nth_hit demo_opts) [1; 2; 3; 4; 5; 6; 7; 8; 9; 10; 11]%nat
  = [false; false; true; false; true; false; true; false; true; false; false].
Proof. reflexivity. Qed.

(** ** The two phases of a syscall stop *)

Section phases.
Context {MA : Machine} {OP : Options} {SY : Syscalls}.

Lemma core_length s s' : same_core s s' -> length (tcbtab s') = length (tcbtab s).
Proof. intros (E & _). apply (f_equal length) in E. unfold pids in E. by rewrite !length_map in E. Qed.

(** The flags and the decoder's result are left alone. *)
Definition same_phase (s s' : st) : Prop :=
  map (fun t => (flags t, sys_func_rval t)) (tcbtab s')
  = map (fun t => (flags t, sys_func_rval t)) (tcbtab s).

Lemma same_phase_at s s' i :
  same_phase s s' ->
  flags (tcb_at s' i) = flags (tcb_at s i) /\ sys_func_rval (tcb_at s' i) = sys_func_rval (tcb_at s i).
Proof.
  intros E. pose proof (map_nth (fun t => (flags t, sys_func_rval t)) (tcbtab s') tcb0 i) as H1.
  pose proof (map_nth (fun t => (flags t, sys_func_rval t)) (tcbtab s) tcb0 i) as H2.
  unfold same_phase in E. rewrite E in H1. rewrite H2 in H1. unfold tcb_at. by injection H1.
Qed.

#[export] Instance same_phase_step : StepRel same_phase.
Proof. split; unfold same_phase; congruence. Qed.

Lemma same_phase_upd i f :
  (forall t, flags (f t) = flags t /\ sys_func_rval (f t) = sys_func_rval t) ->
  keeps same_phase (upd_tcb i f).
Proof.
  intros Hf s a s' H. injection H as _ <-. unfold same_phase. simpl. apply map_alter.
  intros t. by destruct (Hf t) as [-> ->].
Qed.

Lemma same_phase_ask q : keeps same_phase (ask q).
Proof. intros s a s'. unfold ask. destruct (answer _ _). by intros [= <- <-]. Qed.

Lemma entering_finish_phase i res s a s' :
  syscall_entering_finish i res s = Done a s' -> (i < length (tcbtab s))%nat ->
  exiting (tcb_at s' i) = true /\ sys_func_rval (tcb_at s' i) = res.
Proof.
  unfold syscall_entering_finish. intros H Hlt.
  apply bind_Done in H as (u & s1 & Hu & H). injection Hu as _ <-. run_get H.
  match type of H with ?m _ = _ => assert (K : keeps same_phase m) end.
  { apply keeps_bind; [|intros _].
    - destruct (_ && _); [|apply keeps_ret]. apply keeps_bind; [apply same_phase_ask|intros now].
      by apply same_phase_upd.
    - apply keeps_when. by apply same_phase_upd. }
  apply K in H. apply (same_phase_at _ _ i) in H as [Hf Hr].
  rewrite tcb_at_alter_eq in Hf, Hr by done. split; [|done].
  unfold exiting. rewrite Hf. by apply (flag_on_same TCB_INSYSCALL).
Qed.

Lemma exiting_finish_phase i s a s' :
  syscall_exiting_finish i s = Done a s' -> (i < length (tcbtab s))%nat ->
  entering (tcb_at s' i) = true /\ sys_func_rval (tcb_at s' i) = 0
  /\ forall m, Z.land (Z.lnot exiting_cleared_flags) m = 0 -> flag m (tcb_at s' i) = false.
Proof.
  unfold syscall_exiting_finish. intros H Hlt.
  apply bind_Done in H as (u & s1 & Hu & H). injection Hu as _ <-.
  match type of H with ?m _ = _ => assert (K : keeps same_phase m) end.
  { apply keeps_when. by apply same_phase_upd. }
  apply K in H. apply (same_phase_at _ _ i) in H as [Hf Hr].
  rewrite tcb_at_alter_eq in Hf, Hr by done.
  assert (Hall : forall m, Z.land (Z.lnot exiting_cleared_flags) m = 0 ->
    flag m (tcb_at s' i) = false).
  { intros m Hm. unfold flag. rewrite Hf. by apply (flag_off_sub m). }
  split; [|done]. unfold entering. specialize (Hall TCB_INSYSCALL eq_refl). unfold flag in Hall.
  by rewrite Hall.
Qed.


(** ** Injected results *)

(** The table is left alone, and so is the kind of stop. *)
Definition same_tab (s s' : st) : Prop :=
  tcbtab s' = tcbtab s /\ sci_op (ptrace_sci s') = sci_op (ptrace_sci s).
#[export] Instance same_tab_step : StepRel same_tab.
Proof.
  split; unfold same_tab; [done|]. intros s1 s2 s3 [-> ->] [-> ->]. done.
Qed.
Lemma same_tab_ask q : keeps same_tab (ask q).
Proof. intros s a s'. unfold ask. destruct (answer _ _). by intros [= <- <-]. Qed.
Lemma same_tab_get_regs i : keeps same_tab (get_regs i).
Proof.
  unfold get_regs. apply keeps_bind; [apply keeps_gets|intros e].
  destruct (negb _); [apply keeps_ret|]. apply keeps_bind; [apply keeps_gets|intros t].
  apply keeps_bind; [apply same_tab_ask|intros r].
  apply keeps_bind; [by apply keeps_modify|intros _]. apply keeps_ret.
Qed.
Lemma same_tab_sci i s : sci_op i = sci_op (ptrace_sci s) -> same_tab s (set_ptrace_sci i s).
Proof. intros E. by split. Qed.

Lemma set_result_atomic i b v ar commit revert s a s' :
  set_result i b v ar commit revert s = Done a s' -> info_is_valid s = true ->
  (i < length (tcbtab s))%nat ->
  tcb_at s' i = commit (tcb_at s i) \/ tcb_at s' i = revert (tcb_at s i).
Proof.
  unfold set_result. intros H Hv Hlt. run_get H. run_get H. run_get H.
  assert (Hupd : forall f s1, same_tab s s1 -> upd_tcb i f s1 = Done a s' ->
    tcb_at s' i = f (tcb_at s i)).
  { intros f s1 [Et _] Hu. injection Hu as _ <-. rewrite tcb_at_alter_eq by by rewrite Et.
    unfold tcb_at. by rewrite Et. }
  match type of H with (if _ then _ else ?fb) _ = _ =>
    assert (Hfb : forall s1, same_tab s s1 -> fb s1 = Done a s' ->
      tcb_at s' i = commit (tcb_at s i) \/ tcb_at s' i = revert (tcb_at s i)) end.
  { intros s1 Hs Hf. apply bind_Done in Hf as (e & s2 & He & Hf). apply same_tab_get_regs in He.
    pose proof (frame_trans _ _ _ Hs He) as Hs2. destruct (e <? 0); [right; by eapply Hupd|].
    apply bind_Done in Hf as (r & s3 & Hr & Hf). apply same_tab_ask in Hr.
    pose proof (frame_trans _ _ _ Hs2 Hr) as Hs3. destruct (negb _); [right; by eapply Hupd|].
    run_get Hf. assert (info_is_valid s3 = true) as Hv3.
    { unfold info_is_valid in *. by destruct Hs3 as [_ ->]. }
    rewrite Hv3 in Hf. left. by eapply Hupd. }
  destruct (_ && _); [|eapply Hfb; [apply frame_refl|exact H]].
  apply bind_Done in H as (u & s1 & Hm & H). injection Hm as _ <-.
  apply bind_Done in H as (r & s2 & Hr & H). apply same_tab_ask in Hr.
  assert (Hs2 : same_tab s s2) by (eapply frame_trans; [by apply same_tab_sci|exact Hr]).
  destruct (rc r =? 0); [left; by eapply Hupd|].
  apply bind_Done in H as (u' & s3 & Hm & H). injection Hm as _ <-.
  eapply Hfb; [|exact H]. eapply frame_trans; [exact Hs2|]. apply same_tab_sci.
  by destruct Hs2 as [_ ->].
Qed.


(** ** A stale mark

    [syscall_exiting_finish] clears the marks of the call except
    TCB_TAMPERED_NO_FAIL. *)

Lemma exiting_finish_no_fail i s a s' :
  syscall_exiting_finish i s = Done a s' -> (i < length (tcbtab s))%nat ->
  flag TCB_TAMPERED_NO_FAIL (tcb_at s' i) = flag TCB_TAMPERED_NO_FAIL (tcb_at s i).
Proof.
  unfold syscall_exiting_finish. intros H Hlt.
  apply bind_Done in H as (u & s1 & Hu & H). injection Hu as _ <-.
  match type of H with ?m _ = _ => assert (K : keeps same_phase m) end.
  { apply keeps_when. by apply same_phase_upd. }
  apply K in H. apply (same_phase_at _ _ i) in H as [Hf Hr].
  rewrite tcb_at_alter_eq in Hf by done. unfold flag. rewrite Hf.
  by apply (flag_off_other TCB_TAMPERED_NO_FAIL).
Qed.

(** The mark of an injected syscall number outlives the call: after
    [syscall_exiting_finish] TCB_TAMPERED_NO_FAIL is what it was, and while it
    is set an error injected into a later call (which makes the call fail with
    ENOSYS, as intended) is taken for a failure: nothing is injected. *)
Theorem stale_no_fail_mark i s o :
  tcb_inject_opts (current_personality s) (tcb_at s i) = Some o ->
  flag TCB_TAMPERED (tcb_at s i) = true -> flag TCB_TAMPERED_NO_FAIL (tcb_at s i) = true ->
  flag TCB_INJECT_POKE_EXIT (tcb_at s i) = false -> flag TCB_INJECT_DELAY_EXIT (tcb_at s i) = false ->
  syserror (tcb_at s i) = true -> (i < length (tcbtab s))%nat ->
  tamper_with_syscall_exiting i s = Done 1 s
  /\ forall a s', syscall_exiting_finish i s = Done a s' ->
       flag TCB_TAMPERED_NO_FAIL (tcb_at s' i) = true.
Proof.
  intros Ho Ht Hn Hp Hd He Hlt. split.
  - unfold tamper_with_syscall_exiting, gets, get_tcb, mbind, M_bind.
    unfold gets. rewrite Ho, Hp, Hd. cbn [when]. unfold mret, M_ret.
    rewrite Ht, He, Hn. done.
  - intros a s' H. by rewrite (exiting_finish_no_fail _ _ _ _ H).
Qed.

End phases.
