(* ===== verification/Decode.v ===== *)
(** * What decoders are made of

    A decoder prints the arguments of a syscall with the functions of
    src/print_fields.c and the printing functions of src/util.c and src/xlat.c.
    The file has the monad in which decoders are translated (they read the memory
    of the tracee and print), the printing functions they share, and the grammar of
    what may be printed: brackets are closed in the order in which they were
    opened, elements are separated, and every name is followed by a value.  *)

From stdpp Require Import strings pretty.
From Stdlib Require Import Ascii.
From S2P Require Import Prelude Wait Tcb Tracee Syscall Util Xlat Filters Quote UCopy PrintStr PrintArray Style.
Open Scope Z_scope.

Abbreviation text := (list Z).

(** ** The grammar of the output *)

Inductive bracket := BArgs | BStruct | BUnion | BArray | BIndex | BBitset | BComment | BIndirect | BAttribute | BInfo | BFn.
Definition bracket_eqb (b b' : bracket) : bool :=
  match b, b' with
  | BArgs, BArgs | BStruct, BStruct | BUnion, BUnion | BArray, BArray | BIndex, BIndex | BBitset, BBitset | BComment, BComment | BIndirect, BIndirect | BAttribute, BAttribute | BInfo, BInfo | BFn, BFn => true
  | _, _ => false
  end.

(** What was printed last at a level: nothing yet, a separator, a name, a value. *)
Inductive slot := SEmpty | SSep | SName | SValue.

(** The levels that are open, the innermost first, and the names of arguments so far. *)
Record ostate := mk_o { frames : list (bracket * slot); names : list string }.

Definition valued (s : ostate) : ostate :=
  match frames s with (b, _) :: r => mk_o ((b, SValue) :: r) (names s) | [] => s end.
Arguments valued : simpl nomatch.
Definition opens (b : bracket) (s : ostate) : option ostate := Some (mk_o ((b, SEmpty) :: frames s) (names s)).
Definition closes (b : bracket) (s : ostate) : option ostate :=
  match frames s with
  | (b', (SEmpty | SValue)) :: r => if bracket_eqb b' b then Some (valued (mk_o r (names s))) else None
  | _ => None
  end.
Definition separates (b : bracket) (s : ostate) : option ostate :=
  match frames s with
  | (b', SValue) :: r => if bracket_eqb b' b then Some (mk_o ((b, SSep) :: r) (names s)) else None
  | _ => None
  end.
(** A field of a structure or of a union. *)
Definition field (s : ostate) : option ostate :=
  match frames s with
  | (((BStruct | BUnion) as b), (SEmpty | SSep)) :: r => Some (mk_o ((b, SName) :: r) (names s))
  | _ => None
  end.
Definition argument (n : string) (s : ostate) : option ostate :=
  match frames s with
  | (BArgs, (SEmpty | SSep)) :: r => Some (mk_o ((BArgs, SName) :: r) (names s ++ [n]))
  | _ => None
  end.
(** An infix sign between two values. *)
Definition infix (s : ostate) : option ostate :=
  match frames s with (b, SValue) :: r => Some (mk_o ((b, SName) :: r) (names s)) | _ => None end.
Definition index_begin (s : ostate) : option ostate :=
  match frames s with (BArray, (SEmpty | SSep)) :: _ => opens BIndex s | _ => None end.
Definition index_equal (s : ostate) : option ostate :=
  match frames s with
  | (BIndex, SValue) :: (BArray, _) :: r => Some (mk_o ((BArray, SName) :: r) (names s))
  | _ => None
  end.

Definition step (s : ostate) (c : call) : option ostate :=
  match c with
  | call_tprint_struct_begin => opens BStruct s
  | call_tprint_struct_next => separates BStruct s
  | call_tprint_struct_end => closes BStruct s
  | call_tprint_union_begin => opens BUnion s
  | call_tprint_union_next => separates BUnion s
  | call_tprint_union_end => closes BUnion s
  | call_tprint_array_begin => opens BArray s
  | call_tprint_array_next => separates BArray s
  | call_tprint_array_end => closes BArray s
  | call_tprint_array_index_begin => index_begin s
  | call_tprint_array_index_equal => index_equal s
  | call_tprint_arg_next => separates BArgs s
  | call_tprints_arg_name n | call_tprints_arg_name_unconditionally n => argument n s
  | call_tprints_arg_next_name n | call_tprints_arg_next_name_unconditionally n => s ← separates BArgs s; argument n s
  | call_tprints_fn_begin _ => opens BFn s
  | call_tprint_fn_next => separates BFn s
  | call_tprint_fn_end => closes BFn s
  | call_tprint_bitset_begin => opens BBitset s
  | call_tprint_bitset_next => separates BBitset s
  | call_tprint_bitset_end => closes BBitset s
  | call_tprint_comment_begin => opens BComment s
  | call_tprint_comment_end => closes BComment s
  | call_tprint_indirect_begin => opens BIndirect s
  | call_tprint_indirect_end => closes BIndirect s
  | call_tprint_attribute_begin => opens BAttribute s
  | call_tprint_attribute_end => closes BAttribute s
  | call_tprint_associated_info_begin => opens BInfo s
  | call_tprint_associated_info_end => closes BInfo s
  | call_tprints_field_name _ => field s
  | call_tprint_value_changed | call_tprint_alternative_value | call_tprint_flags_or
  | call_tprint_shift | call_tprint_plus => infix s
  | call_tprint_more_data_follows | call_tprint_unavailable | call_tprint_null | call_tprints_string _ => Some (valued s)
  | call_tprints_comment _ => Some s
  | _ => None   (* not for decoders: the name of the syscall, the end of the arguments, the result *)
  end.

Fixpoint steps (s : ostate) (l : list call) : option ostate :=
  match l with [] => Some s | c :: l' => s ← step s c; steps s l' end.

Lemma steps_app s a b : steps s (a ++ b) = s ← steps s a; steps s b.
Proof. revert s; induction a as [|c a IH]; intros s; cbn; [done|]. destruct (step s c); cbn; [apply IH | done]. Qed.

(** ** The monad *)

(** Functions of other files that a decoder calls: what they print, their result. *)
Record leaves (St : Type) := mk_leaves {
  lf_umoven : Z -> Z -> St -> option (list Z) * St;            (* address, length *)
  lf_printstr_ex : Z -> Z -> Z -> St -> text * Z * St;         (* address, length, style *)
  lf_printpathn : Z -> Z -> St -> text * Z * St;               (* address, length *)
  lf_print_nonzero_bytes : Z -> Z -> Z -> Z -> St -> option text * St;  (* None: nothing to print *)
  lf_printfd : Z -> Z -> St -> text * St;                      (* pid, fd *)
  lf_printpid : Z -> Z -> St -> text * St;                     (* pid, type *)
  lf_other : string -> list Z -> St -> text * Z * St }.        (* name, arguments *)
Arguments lf_umoven {St} _.
Arguments lf_printstr_ex {St} _.
Arguments lf_printpathn {St} _.
Arguments lf_print_nonzero_bytes {St} _.
Arguments lf_printfd {St} _.
Arguments lf_printpid {St} _.
Arguments lf_other {St} _.

(** What a decoder sees of a tracee: its tcb, the arguments of the syscall. *)
Record dtcb (St : Type) := mk_dtcb { tcb_of :> tcb; args_of : Z -> Z; leaf : leaves St }.
Arguments tcb_of {St} _.
Arguments args_of {St} _.
Arguments leaf {St} _.
(** [tcp->u_arg], of type kernel_ulong_t. *)
Definition u_arg {St} (tcp : dtcb St) (i : Z) : Z := uint 64 (args_of tcp i).

(** Options and properties of the current personality.  [sprinttime_ex] is a date,
    where there is one; [xlat_of] the tables of constants, by name; [sprintsigname]
    the names of signals. *)
Class Globals := {
  xlat_verbosity : Z; max_strlen : Z; xflag : Z; malloc_ok : Z -> bool; current_wordsize : Z; current_klongsize : Z; is_bigendian : bool;
  get_pagesize : Z; xlat_of : string -> xlat; sprintsigname : Z -> string; ngroups_max : Z;
  current_wordsize_pos : 0 < current_wordsize; sprinttime_ex : Z -> Z -> Z -> Z -> option text }.

(** The private data of a tcb. *)
Inductive priv_data := PNone | PUlong (v : Z) | PText (t : text) | PInts (t : text) (l : list Z).

(** [d_data] is what an array's element printer keeps in its opaque data. *)
Record dstate (St : Type) := mk_d { d_st : St; d_priv : priv_data; d_auxstr : option text; d_rval : option Z; d_data : Z }.
Arguments mk_d {St} _ _ _ _ _.
Arguments d_st {St} _.
Arguments d_priv {St} _.
Arguments d_auxstr {St} _.
Arguments d_rval {St} _.
Arguments d_data {St} _.

(** The result, what is printed, the state; [None] when a loop runs out of fuel. *)
Definition D (St A : Type) : Type := dstate St -> option (A * list call * dstate St).
#[export] Instance D_ret St : MRet (D St) := fun A a d => Some (a, [], d).
#[export] Instance D_bind St : MBind (D St) := fun A B f m d =>
  '(a, e1, d) ← m d; '(b, e2, d) ← f a d; Some (b, e1 ++ e2, d).

Section prims.
Context {St : Type} {G : Globals}.
Abbreviation D := (D St).

Definition emit (c : call) : D () := fun d => Some ((), [c], d).

(** A function that changes the memory state and gives a value. *)
Definition lift {A} (f : St -> A * St) : D A := fun d =>
  let '(a, st) := f (d_st d) in Some (a, [], mk_d st (d_priv d) (d_auxstr d) (d_rval d) (d_data d)).

Definition set_tcb_priv (p : priv_data) : D () := fun d => Some ((), [], mk_d (d_st d) p (d_auxstr d) (d_rval d) (d_data d)).
Definition get_tcb_priv : D priv_data := fun d => Some (d_priv d, [], d).
Definition set_tcb_priv_ulong (v : Z) : D () := set_tcb_priv (PUlong v).
Definition get_tcb_priv_ulong : D Z := p ← get_tcb_priv; mret (match p with PUlong v => v | _ => 0 end).
Definition set_auxstr (t : option text) : D () := fun d => Some ((), [], mk_d (d_st d) (d_priv d) t (d_rval d) (d_data d)).
Definition set_u_rval (v : Z) : D () := fun d => Some ((), [], mk_d (d_st d) (d_priv d) (d_auxstr d) (Some v) (d_data d)).
Definition set_data (v : Z) : D () := fun d => Some ((), [], mk_d (d_st d) (d_priv d) (d_auxstr d) (d_rval d) v).
Definition get_data : D Z := fun d => Some (d_data d, [], d).
Definition nothing : D () := mret ().

Definition tprints_arg_name (n : string) : D () := emit (call_tprints_arg_name n).
Definition tprints_arg_next_name (n : string) : D () := emit (call_tprints_arg_next_name n).
Definition tprint_arg_next : D () := emit call_tprint_arg_next.
Definition tprint_struct_begin : D () := emit call_tprint_struct_begin.
Definition tprint_struct_next : D () := emit call_tprint_struct_next.
Definition tprint_struct_end : D () := emit call_tprint_struct_end.
Definition tprint_union_begin : D () := emit call_tprint_union_begin.
Definition tprint_union_next : D () := emit call_tprint_union_next.
Definition tprint_union_end : D () := emit call_tprint_union_end.
Definition tprint_array_begin : D () := emit call_tprint_array_begin.
Definition tprint_array_next : D () := emit call_tprint_array_next.
Definition tprint_array_end : D () := emit call_tprint_array_end.
Definition tprint_array_index_begin : D () := emit call_tprint_array_index_begin.
Definition tprint_array_index_equal : D () := emit call_tprint_array_index_equal.
Definition tprint_array_index_end : D () := nothing.
Definition tprint_indirect_begin : D () := emit call_tprint_indirect_begin.
Definition tprint_indirect_end : D () := emit call_tprint_indirect_end.
Definition tprint_bitset_begin : D () := emit call_tprint_bitset_begin.
Definition tprint_bitset_next : D () := emit call_tprint_bitset_next.
Definition tprint_bitset_end : D () := emit call_tprint_bitset_end.
Definition tprint_comment_begin : D () := emit call_tprint_comment_begin.
Definition tprint_comment_end : D () := emit call_tprint_comment_end.
Definition tprint_associated_info_begin : D () := emit call_tprint_associated_info_begin.
Definition tprint_associated_info_end : D () := emit call_tprint_associated_info_end.
Definition tprints_fn_begin (n : string) : D () := emit (call_tprints_fn_begin n).
Definition tprint_fn_next : D () := emit call_tprint_fn_next.
Definition tprint_fn_end : D () := emit call_tprint_fn_end.
Definition tprints_field_name (n : string) : D () := emit (call_tprints_field_name n).
Definition tprint_more_data_follows : D () := emit call_tprint_more_data_follows.
Definition tprint_value_changed : D () := emit call_tprint_value_changed.
Definition tprint_alternative_value : D () := emit call_tprint_alternative_value.
Definition tprint_unavailable : D () := emit call_tprint_unavailable.
Definition tprint_flags_or : D () := emit call_tprint_flags_or.
Definition tprint_shift : D () := emit call_tprint_shift.
Definition tprint_plus : D () := emit call_tprint_plus.
Definition tprint_null : D () := emit call_tprint_null.
Definition tprint_flags_begin : D () := nothing.
Definition tprint_flags_end : D () := nothing.
Definition tprint_shift_begin : D () := nothing.
Definition tprint_shift_end : D () := nothing.
Definition tprints_text (t : text) : D () := emit (call_tprints_string t).
Definition tprints_string (s : string) : D () := tprints_text (codes s).
Definition tprints_comment (t : option text) : D () := emit (call_tprints_comment t).

(** *** Numbers *)

(** The arguments are the numbers that the conversions of the source give. *)
Definition int (v : Z) : Z := sint 32 v.
Definition PRINT_VAL_D (v : Z) : D () := tprints_string (pretty v).
Definition PRINT_VAL_U (v : Z) : D () := tprints_string (pretty v).
Definition PRINT_VAL_X (v : Z) : D () := tprints_string (fmt_hex v).

(** "%#03llo": at least three characters, the first digit is 0. *)
Fixpoint oct_digits (fuel : nat) (v : Z) (acc : string) : string :=
  match fuel with
  | O => acc
  | S f => let acc := String (ascii_of_nat (48 + Z.to_nat (v mod 8))) acc in
           if v / 8 =? 0 then acc else oct_digits f (v / 8) acc
  end.
Definition fmt_03o (v : Z) : string :=
  let s := if v =? 0 then "0" else String "0" (oct_digits 22 v EmptyString) in
  match String.length s with 1%nat => "00" +:+ s | 2%nat => "0" +:+ s | _ => s end.
Definition PRINT_VAL_03O (v : Z) : D () := tprints_string (fmt_03o v).
(** "%#0*llx" with the width of [n] bytes. *)
Definition fmt_0x (n v : Z) : string :=
  let digits := if v =? 0 then "0" else fmt_hex v in
  let pad := String.concat EmptyString (replicate (Z.to_nat (2 * n) - String.length digits) "0") in
  if v =? 0 then pad +:+ digits else "0x" +:+ pad +:+ String.substring 2 (String.length digits - 2) digits.
Definition PRINT_VAL_0X (n v : Z) : D () := tprints_string (fmt_0x n v).
(** [PRINT_VAL_ID] of a value of 32 bits. *)
Definition PRINT_VAL_ID (v : Z) : D () := if int v =? -1 then PRINT_VAL_D (-1) else PRINT_VAL_U v.

Definition printaddr64 (addr : Z) : D () := if addr =? 0 then tprint_null else PRINT_VAL_X addr.
Definition printaddr (addr : Z) : D () := printaddr64 addr.
Definition printaddr_comment (addr : Z) : D () := tprints_comment (Some (codes (fmt_hex addr))).
Definition printuid (uid : Z) : D () := PRINT_VAL_ID uid.
Definition print_numeric_umode_t (mode : Z) : D () := PRINT_VAL_03O (uint 16 mode).

(** *** Names of constants *)

Definition printxvals_ex (v : Z) (dflt : option string) (style : Z) (x : xlat) : D () :=
  tprints_string (fst (Xlat.printxvals_ex xlat_verbosity v dflt style [x])).
Definition printxvals (v : Z) (dflt : option string) (l : list xlat) : D () :=
  tprints_string (fst (Xlat.printxvals_ex xlat_verbosity v dflt XLAT_STYLE_DEFAULT l)).
(** [printxval], with its result: whether there is a name. *)
Definition printxval_rc (x : xlat) (v : Z) (dflt : option string) : D bool :=
  let '(s, found) := Xlat.printxvals_ex xlat_verbosity (uint 32 v) dflt XLAT_STYLE_DEFAULT [x] in tprints_string s ;; mret found.
Definition printxval_ex (x : xlat) (v : Z) (dflt : option string) (style : Z) : D () := printxvals_ex v dflt style x.
Definition printxval64 (x : xlat) (v : Z) (dflt : option string) : D () := printxvals_ex v dflt XLAT_STYLE_DEFAULT x.
Definition printxval (x : xlat) (v : Z) (dflt : option string) : D () := printxval64 x (uint 32 v) dflt.
Definition printxval_d (x : xlat) (v : Z) (dflt : option string) : D () := printxvals_ex (uint 64 (int v)) dflt XLAT_STYLE_FMT_D x.
Definition printxval_u (x : xlat) (v : Z) (dflt : option string) : D () := printxvals_ex (uint 32 v) dflt XLAT_STYLE_FMT_U x.
(** The number of flags printed. *)
Definition printflags_ex (v : Z) (dflt : option string) (style : Z) (x : xlat) : D Z :=
  let '(s, n) := Xlat.printflags_ex xlat_verbosity v dflt style [x] in tprints_string s ;; mret n.
Definition printflags64_in (x : xlat) (v : Z) (dflt : option string) : D Z := printflags_ex v dflt XLAT_STYLE_DEFAULT x.
Definition printflags_in (x : xlat) (v : Z) (dflt : option string) : D Z := printflags64_in x (uint 32 v) dflt.
Definition printflags64 (x : xlat) (v : Z) (dflt : option string) : D Z :=
  tprint_flags_begin ;; r ← printflags64_in x v dflt; tprint_flags_end ;; mret r.
Definition printflags (x : xlat) (v : Z) (dflt : option string) : D Z := printflags64 x (uint 32 v) dflt.
Definition print_xlat_ex (v : Z) (s : option string) (style : Z) : D () := tprints_string (Xlat.print_xlat_ex xlat_verbosity v s style).
(** [print_xlat], [print_xlat_d], [print_xlat_u]: the value and the name of a constant. *)
Definition print_xlat (v : Z) (name : string) : D () := print_xlat_ex v (Some name) XLAT_STYLE_DEFAULT.
Definition print_xlat_d (v : Z) (name : string) : D () := print_xlat_ex (uint 64 v) (Some name) XLAT_STYLE_FMT_D.
Definition print_xlat_u (v : Z) (name : string) : D () := print_xlat_ex v (Some name) XLAT_STYLE_FMT_U.

(** *** Memory *)

Definition umoven (tcp : dtcb St) (addr len : Z) : D (option (list Z)) := lift (lf_umoven (leaf tcp) addr len).
Definition tfetch_mem (tcp : dtcb St) (addr len : Z) : D (option (list Z)) :=
  if negb (addr =? 0) && verbose tcp && (entering tcp || negb (syserror tcp)) then umoven tcp addr len else mret None.
Definition tfetch_mem_ignore_syserror (tcp : dtcb St) (addr len : Z) : D (option (list Z)) :=
  if negb (addr =? 0) && verbose tcp then umoven tcp addr len else mret None.

(** The bytes, or [None] after the address is printed. *)
Definition umoven_or_printaddr (tcp : dtcb St) (addr len : Z) : D (option (list Z)) :=
  b ← tfetch_mem tcp addr len;
  match b with Some _ => mret b | None => printaddr addr ;; mret None end.
Definition umoven_or_printaddr_ignore_syserror (tcp : dtcb St) (addr len : Z) : D (option (list Z)) :=
  b ← tfetch_mem_ignore_syserror tcp addr len;
  match b with Some _ => mret b | None => printaddr addr ;; mret None end.

(** A member of a structure: [n] bytes at the offset [off]. *)
Definition fu (n off : Z) (b : list Z) : Z := word_value is_bigendian (take (Z.to_nat n) (drop (Z.to_nat off) b)).
Definition fs (n off : Z) (b : list Z) : Z := sint (8 * n) (fu n off b).
(** A structure of [n] bytes, of which the first were fetched and the others are 0. *)
Definition padded (n : Z) (b : list Z) : list Z := take (Z.to_nat n) (b ++ replicate (Z.to_nat n) 0).
Definition bytes_at (n off : Z) (b : list Z) : list Z := take (Z.to_nat n) (drop (Z.to_nat off) b).

Definition tfetch_to_uint64 (tcp : dtcb St) (addr len : Z) : D (option Z) :=
  if len <=? 8 then b ← tfetch_mem_ignore_syserror tcp addr len; mret (fu len 0 <$> b) else mret None.
Definition umoven_to_uint64_or_printaddr (tcp : dtcb St) (addr len : Z) : D (option Z) :=
  v ← tfetch_to_uint64 tcp addr len;
  match v with Some _ => mret v | None => printaddr addr ;; mret None end.

Definition PRINT_FIELD_D (name : string) (v : Z) : D () := tprints_field_name name ;; PRINT_VAL_D v.
Definition PRINT_FIELD_U (name : string) (v : Z) : D () := tprints_field_name name ;; PRINT_VAL_U v.
Definition PRINT_FIELD_X (name : string) (v : Z) : D () := tprints_field_name name ;; PRINT_VAL_X v.
Definition PRINT_FIELD_ID (name : string) (v : Z) : D () := tprints_field_name name ;; PRINT_VAL_ID v.
Definition PRINT_FIELD_PTR (name : string) (v : Z) : D () := tprints_field_name name ;; printaddr v.
Definition PRINT_FIELD_FLAGS (name : string) (v : Z) (x : xlat) (dflt : option string) : D () :=
  tprints_field_name name ;; printflags64 x v dflt ;; nothing.
Definition PRINT_FIELD_XVAL (name : string) (v : Z) (x : xlat) (dflt : option string) : D () :=
  tprints_field_name name ;; printxval64 x v dflt.

(** *** Strings, paths, descriptors, processes *)

Definition QUOTE_FORCE_HEX : Z := Z.lor QUOTE_OVERWRITE_HEXSTR (Z.shiftl HEXSTR_ALL QUOTE_HEXSTR_SHIFT).
Definition printstr_ex (tcp : dtcb St) (addr len style : Z) : D Z :=
  '(t, rc) ← lift (lf_printstr_ex (leaf tcp) addr len style); tprints_text t ;; mret rc.
Definition printstrn (tcp : dtcb St) (addr len : Z) : D Z := printstr_ex tcp addr len 0.
Definition printstr (tcp : dtcb St) (addr : Z) : D Z := printstr_ex tcp addr (2 ^ 64 - 1) QUOTE_0_TERMINATED.
Definition printpathn (tcp : dtcb St) (addr n : Z) : D Z :=
  '(t, rc) ← lift (lf_printpathn (leaf tcp) addr (uint 32 n)); tprints_text t ;; mret rc.
(** Size must correspond to char path[] in umovestr. *)
Definition printpath (tcp : dtcb St) (addr : Z) : D Z := printpathn tcp addr (PATH_MAX - 1).
(** [print_nonzero_bytes (tcp, tprint_struct_next, addr, start, len, style)]. *)
Definition print_nonzero_bytes (tcp : dtcb St) (addr start_offs total_len style : Z) : D () :=
  t ← lift (lf_print_nonzero_bytes (leaf tcp) addr start_offs total_len style);
  match t with Some t => tprint_struct_next ;; tprints_text t | None => nothing end.
Definition print_quoted_string (str : list Z) (size style : Z) : D () :=
  tprints_text (fst (print_quoted_string_ex xflag malloc_ok str size style None)).
Definition print_quoted_cstring (str : list Z) (size : Z) : D () :=
  tprints_text (fst (Quote.print_quoted_cstring xflag malloc_ok str size)).
Definition PRINT_FIELD_CSTRING (name : string) (str : list Z) : D () :=
  tprints_field_name name ;; print_quoted_cstring str (lenZ str).

Definition printfd_pid (tcp : dtcb St) (pid fd : Z) : D () := t ← lift (lf_printfd (leaf tcp) pid fd); tprints_text t.
Definition printfd (tcp : dtcb St) (fd : Z) : D () := printfd_pid tcp (pid tcp) (int fd).
Definition PT_TID : Z := 0.
Definition PT_TGID : Z := 1.
Definition PT_PGID : Z := 2.
Definition PT_SID : Z := 3.
Definition printpid (tcp : dtcb St) (pid type : Z) : D () := t ← lift (lf_printpid (leaf tcp) (int pid) type); tprints_text t.
(** A function of another file that prints one value; its result. *)
Definition other (tcp : dtcb St) (name : string) (args : list Z) : D Z :=
  '(t, rc) ← lift (lf_other (leaf tcp) name args); tprints_text t ;; mret rc.

End prims.

(** ** Decoders that print by the grammar *)

(** [m], run from what [s] says is printed, ends, prints by the grammar, and [Q] is
    true of its result and of what is printed then. *)
Definition emits {St A} (m : D St A) (s : ostate) (Q : A -> ostate -> Prop) : Prop :=
  forall d, match m d with
            | Some (a, evs, _) => match steps s evs with Some s' => Q a s' | None => False end
            | None => False
            end.

Section rules.
Context {St : Type}.

Lemma emits_ret {A} (a : A) s (Q : A -> ostate -> Prop) : Q a s -> emits (mret a : D St A) s Q.
Proof. by intros H d. Qed.

Lemma emits_bind {A B} (m : D St A) (f : A -> D St B) s Q :
  emits m s (fun a s => emits (f a) s Q) -> emits (m ≫= f) s Q.
Proof.
  intros H d. specialize (H d). unfold mbind, D_bind. destruct (m d) as [[[a e1] d1]|]; [|done]. cbn.
  destruct (steps s e1) as [s1|] eqn:E1; [|done]. specialize (H d1).
  destruct (f a d1) as [[[b e2] d2]|]; [|done]. cbn. rewrite steps_app, E1. exact H.
Qed.

Lemma emits_mono {A} (m : D St A) s (Q Q' : A -> ostate -> Prop) :
  emits m s Q -> (forall a s', Q a s' -> Q' a s') -> emits m s Q'.
Proof.
  intros H HQ d. specialize (H d). destruct (m d) as [[[a e] d']|]; [|done].
  destruct (steps s e); [by apply HQ | done].
Qed.

Lemma emits_total {A} (m : D St A) s Q d : emits m s Q -> exists a e d', m d = Some (a, e, d').
Proof. intros H. specialize (H d). destruct (m d) as [[[a e] d']|]; [by exists a, e, d' | done]. Qed.

Lemma emits_emit c s (Q : () -> ostate -> Prop) :
  match step s c with Some s' => Q () s' | None => False end -> emits (emit c : D St ()) s Q.
Proof. intros H d. cbn. destruct (step s c); [exact H | done]. Qed.

Lemma emits_step c s s' (Q : () -> ostate -> Prop) : step s c = Some s' -> Q () s' -> emits (emit c : D St ()) s Q.
Proof. intros H HQ. apply emits_emit. by rewrite H. Qed.

(** Operations that print nothing. *)
Class Silent {A} (m : D St A) : Prop := silent : forall s Q, (forall a, Q a s) -> emits m s Q.
(** Operations that print a value. *)
Class IsValue {A} (m : D St A) : Prop := value_emits : forall s Q, (forall a, Q a (valued s)) -> emits m s Q.

Lemma o_eta s : mk_o (frames s) (names s) = s.
Proof. by destruct s. Qed.
Lemma valued_valued s : valued (valued s) = valued s.
Proof. destruct s as [[|[b q] r] n]; done. Qed.

#[export] Instance lift_silent {A} (f : St -> A * St) : Silent (lift f).
Proof. intros s Q H d. unfold lift. destruct (f (d_st d)). apply H. Qed.
#[export] Instance set_priv_silent p : Silent (set_tcb_priv p).
Proof. intros s Q H d. apply H. Qed.
#[export] Instance set_priv_ulong_silent p : Silent (set_tcb_priv_ulong p).
Proof. intros s Q H d. apply H. Qed.
#[export] Instance get_priv_silent : Silent get_tcb_priv.
Proof. intros s Q H d. apply H. Qed.
#[export] Instance ret_silent {A} (a : A) : Silent (mret a).
Proof. intros s Q H. apply emits_ret, H. Qed.
#[export] Instance bind_silent {A B} (m : D St A) (f : A -> D St B) : Silent m -> (forall a, Silent (f a)) -> Silent (m ≫= f).
Proof. intros H1 H2 s Q H. apply emits_bind, H1. intros a. apply H2, H. Qed.
#[export] Instance get_priv_ulong_silent : Silent get_tcb_priv_ulong.
Proof. unfold get_tcb_priv_ulong. apply _. Qed.
#[export] Instance set_auxstr_silent t : Silent (set_auxstr t).
Proof. intros s Q H d. apply H. Qed.
#[export] Instance set_u_rval_silent v : Silent (set_u_rval v).
Proof. intros s Q H d. apply H. Qed.
#[export] Instance set_data_silent v : Silent (set_data v).
Proof. intros s Q H d. apply H. Qed.
#[export] Instance get_data_silent : Silent get_data.
Proof. intros s Q H d. apply H. Qed.
#[export] Instance nothing_silent : Silent nothing.
Proof. apply ret_silent. Qed.
#[export] Instance if_silent {A} (b : bool) (m m' : D St A) : Silent m -> Silent m' -> Silent (if b then m else m').
Proof. by destruct b. Qed.

#[export] Instance text_value t : IsValue (tprints_text t).
Proof. intros s Q H. apply emits_emit, H. Qed.
#[export] Instance string_value t : IsValue (tprints_string t).
Proof. apply text_value. Qed.
#[export] Instance null_value : IsValue tprint_null.
Proof. intros s Q H. apply emits_emit, H. Qed.
#[export] Instance unavailable_value : IsValue tprint_unavailable.
Proof. intros s Q H. apply emits_emit, H. Qed.
#[export] Instance more_value : IsValue tprint_more_data_follows.
Proof. intros s Q H. apply emits_emit, H. Qed.
#[export] Instance comment_silent t : Silent (tprints_comment t).
Proof. intros s Q H. apply emits_emit, H. Qed.

(** A value after something silent, and something silent after a value. *)
Lemma silent_value {A B} (m : D St A) (f : A -> D St B) : Silent m -> (forall a, IsValue (f a)) -> IsValue (m ≫= f).
Proof. intros H1 H2 s Q H. apply emits_bind, H1. intros a. apply H2, H. Qed.
Lemma value_silent {A B} (m : D St A) (f : A -> D St B) : IsValue m -> (forall a, Silent (f a)) -> IsValue (m ≫= f).
Proof. intros H1 H2 s Q H. apply emits_bind, H1. intros a. apply H2, H. Qed.
Lemma value_value {A B} (m : D St A) (f : A -> D St B) : IsValue m -> (forall a, IsValue (f a)) -> IsValue (m ≫= f).
Proof. intros H1 H2 s Q H. apply emits_bind, H1. intros a. apply H2. intros b. rewrite valued_valued. apply H. Qed.
#[export] Instance if_value {A} (b : bool) (m m' : D St A) : IsValue m -> IsValue m' -> IsValue (if b then m else m').
Proof. by destruct b. Qed.
End rules.
#[export] Hint Extern 3 (IsValue (_ ≫= _)) => apply silent_value : typeclass_instances.
#[export] Hint Extern 4 (IsValue (_ ≫= _)) => apply value_silent : typeclass_instances.
#[export] Hint Extern 5 (IsValue (_ ≫= _)) => apply value_value : typeclass_instances.

(** The printing functions print values. *)
Section values.
Context {St : Type} {G : Globals}.
Implicit Type tcp : dtcb St.

#[export] Instance PRINT_VAL_D_value v : IsValue (St := St) (PRINT_VAL_D v). Proof. apply string_value. Qed.
#[export] Instance PRINT_VAL_U_value v : IsValue (St := St) (PRINT_VAL_U v). Proof. apply string_value. Qed.
#[export] Instance PRINT_VAL_X_value v : IsValue (St := St) (PRINT_VAL_X v). Proof. apply string_value. Qed.
#[export] Instance PRINT_VAL_03O_value v : IsValue (St := St) (PRINT_VAL_03O v). Proof. apply string_value. Qed.
#[export] Instance PRINT_VAL_0X_value n v : IsValue (St := St) (PRINT_VAL_0X n v). Proof. apply string_value. Qed.
#[export] Instance PRINT_VAL_ID_value v : IsValue (St := St) (PRINT_VAL_ID v). Proof. unfold PRINT_VAL_ID. apply _. Qed.
#[export] Instance printaddr64_value a : IsValue (St := St) (printaddr64 a). Proof. unfold printaddr64. apply _. Qed.
#[export] Instance printaddr_value a : IsValue (St := St) (printaddr a). Proof. apply printaddr64_value. Qed.
#[export] Instance printaddr_comment_silent a : Silent (St := St) (printaddr_comment a). Proof. apply comment_silent. Qed.
#[export] Instance printuid_value a : IsValue (St := St) (printuid a). Proof. apply PRINT_VAL_ID_value. Qed.
#[export] Instance print_numeric_umode_t_value a : IsValue (St := St) (print_numeric_umode_t a). Proof. apply string_value. Qed.
#[export] Instance printxvals_ex_value v d st x : IsValue (St := St) (printxvals_ex v d st x). Proof. apply string_value. Qed.
#[export] Instance printxvals_value v d l : IsValue (St := St) (printxvals v d l). Proof. apply string_value. Qed.
#[export] Instance printxval_rc_value x v d : IsValue (St := St) (printxval_rc x v d).
Proof. unfold printxval_rc. destruct (Xlat.printxvals_ex _ _ _ _ _). apply _. Qed.
#[export] Instance printxval_ex_value x v d st : IsValue (St := St) (printxval_ex x v d st). Proof. apply string_value. Qed.
#[export] Instance printxval64_value x v d : IsValue (St := St) (printxval64 x v d). Proof. apply string_value. Qed.
#[export] Instance printxval_value x v d : IsValue (St := St) (printxval x v d). Proof. apply string_value. Qed.
#[export] Instance printxval_d_value x v d : IsValue (St := St) (printxval_d x v d). Proof. apply string_value. Qed.
#[export] Instance printxval_u_value x v d : IsValue (St := St) (printxval_u x v d). Proof. apply string_value. Qed.
#[export] Instance printflags_ex_value v d st x : IsValue (St := St) (printflags_ex v d st x).
Proof. unfold printflags_ex. destruct (Xlat.printflags_ex _ _ _ _ _). apply _. Qed.
#[export] Instance printflags64_in_value x v d : IsValue (St := St) (printflags64_in x v d). Proof. apply printflags_ex_value. Qed.
#[export] Instance printflags_in_value x v d : IsValue (St := St) (printflags_in x v d). Proof. apply printflags_ex_value. Qed.
#[export] Instance printflags64_value x v d : IsValue (St := St) (printflags64 x v d).
Proof. unfold printflags64, tprint_flags_begin, tprint_flags_end. apply _. Qed.
#[export] Instance printflags_value x v d : IsValue (St := St) (printflags x v d). Proof. apply printflags64_value. Qed.
#[export] Instance print_xlat_ex_value v s st : IsValue (St := St) (print_xlat_ex v s st). Proof. apply string_value. Qed.
#[export] Instance print_xlat_value v s : IsValue (St := St) (print_xlat v s). Proof. apply string_value. Qed.
#[export] Instance print_xlat_d_value v s : IsValue (St := St) (print_xlat_d v s). Proof. apply string_value. Qed.
#[export] Instance print_xlat_u_value v s : IsValue (St := St) (print_xlat_u v s). Proof. apply string_value. Qed.
#[export] Instance umoven_silent tcp a n : Silent (umoven tcp a n). Proof. apply lift_silent. Qed.
#[export] Instance tfetch_mem_silent tcp a n : Silent (tfetch_mem tcp a n). Proof. unfold tfetch_mem. apply _. Qed.
#[export] Instance tfetch_mem_ignore_syserror_silent tcp a n : Silent (tfetch_mem_ignore_syserror tcp a n).
Proof. unfold tfetch_mem_ignore_syserror. apply _. Qed.
#[export] Instance tfetch_to_uint64_silent tcp a n : Silent (tfetch_to_uint64 tcp a n). Proof. unfold tfetch_to_uint64. apply _. Qed.
#[export] Instance printstr_ex_value tcp a n st : IsValue (printstr_ex tcp a n st).
Proof. apply silent_value; [apply _|]. intros [t rc]. apply _. Qed.
#[export] Instance printstrn_value tcp a n : IsValue (printstrn tcp a n). Proof. apply printstr_ex_value. Qed.
#[export] Instance printstr_value tcp a : IsValue (printstr tcp a). Proof. apply printstr_ex_value. Qed.
#[export] Instance printpathn_value tcp a n : IsValue (printpathn tcp a n).
Proof. apply silent_value; [apply _|]. intros [t rc]. apply _. Qed.
#[export] Instance printpath_value tcp a : IsValue (printpath tcp a). Proof. apply printpathn_value. Qed.
#[export] Instance print_quoted_string_value str n st : IsValue (St := St) (print_quoted_string str n st). Proof. apply text_value. Qed.
#[export] Instance print_quoted_cstring_value str n : IsValue (St := St) (print_quoted_cstring str n). Proof. apply text_value. Qed.
#[export] Instance printfd_pid_value tcp p fd : IsValue (printfd_pid tcp p fd). Proof. unfold printfd_pid. apply _. Qed.
#[export] Instance printfd_value tcp fd : IsValue (printfd tcp fd). Proof. apply printfd_pid_value. Qed.
#[export] Instance printpid_value tcp p ty : IsValue (printpid tcp p ty). Proof. unfold printpid. apply _. Qed.
#[export] Instance other_value tcp n l : IsValue (other tcp n l).
Proof. apply silent_value; [apply _|]. intros [t rc]. apply _. Qed.

(** A fetch prints nothing, or the address. *)
Lemma umoven_or_printaddr_emits tcp a n s Q :
  (forall b, Q (Some b) s) -> Q None (valued s) -> emits (umoven_or_printaddr tcp a n) s Q.
Proof.
  intros H1 H2. apply emits_bind, silent. intros [b|]; [apply emits_ret, H1|].
  apply emits_bind, value_emits. intros _. apply emits_ret, H2.
Qed.
Lemma umoven_or_printaddr_ignore_syserror_emits tcp a n s Q :
  (forall b, Q (Some b) s) -> Q None (valued s) -> emits (umoven_or_printaddr_ignore_syserror tcp a n) s Q.
Proof.
  intros H1 H2. apply emits_bind, silent. intros [b|]; [apply emits_ret, H1|].
  apply emits_bind, value_emits. intros _. apply emits_ret, H2.
Qed.
Lemma umoven_to_uint64_or_printaddr_emits tcp a n s Q :
  (forall v, Q (Some v) s) -> Q None (valued s) -> emits (umoven_to_uint64_or_printaddr tcp a n) s Q.
Proof.
  intros H1 H2. apply emits_bind, silent. intros [b|]; [apply emits_ret, H1|].
  apply emits_bind, value_emits. intros _. apply emits_ret, H2.
Qed.
Lemma print_nonzero_bytes_emits tcp a o n st f ns Q :
  Q () (mk_o ((BStruct, SValue) :: f) ns) -> emits (print_nonzero_bytes tcp a o n st) (mk_o ((BStruct, SValue) :: f) ns) Q.
Proof.
  intros H. apply emits_bind, silent. intros [t|]; [|by apply emits_ret].
  apply emits_bind, emits_emit. cbn. apply value_emits. intros []. exact H.
Qed.
End values.

(** The search for instances goes by the names of the functions. *)
#[export] Typeclasses Opaque emit lift set_tcb_priv get_tcb_priv set_tcb_priv_ulong get_tcb_priv_ulong set_auxstr
  set_u_rval set_data get_data nothing tprints_arg_name tprints_arg_next_name tprint_arg_next tprint_struct_begin tprint_struct_next
  tprint_struct_end tprint_union_begin tprint_union_next tprint_union_end tprint_array_begin tprint_array_next
  tprint_array_end tprint_array_index_begin tprint_array_index_equal tprint_indirect_begin tprint_indirect_end
  tprint_bitset_begin tprint_bitset_next tprint_bitset_end tprint_comment_begin tprint_comment_end
  tprint_associated_info_begin tprint_associated_info_end tprints_fn_begin tprint_fn_next tprint_fn_end
  tprints_field_name tprint_more_data_follows tprint_value_changed tprint_alternative_value tprint_unavailable
  tprint_flags_or tprint_shift tprint_plus tprint_null tprint_flags_begin tprint_flags_end tprint_shift_begin
  tprint_shift_end tprints_text tprints_string tprints_comment PRINT_VAL_D PRINT_VAL_U PRINT_VAL_X PRINT_VAL_03O
  PRINT_VAL_0X printxval_rc PRINT_VAL_ID printaddr64 printaddr printaddr_comment printuid print_numeric_umode_t printxvals_ex printxvals printxval_ex
  printxval64 printxval printxval_d printxval_u printflags_ex printflags64_in printflags_in printflags64 printflags
  print_xlat_ex print_xlat print_xlat_d print_xlat_u umoven tfetch_mem tfetch_mem_ignore_syserror
  umoven_or_printaddr umoven_or_printaddr_ignore_syserror tfetch_to_uint64 umoven_to_uint64_or_printaddr
  PRINT_FIELD_D PRINT_FIELD_U PRINT_FIELD_X PRINT_FIELD_ID PRINT_FIELD_PTR PRINT_FIELD_FLAGS PRINT_FIELD_XVAL
  printstr_ex printstrn printstr printpathn printpath print_nonzero_bytes print_quoted_string print_quoted_cstring
  PRINT_FIELD_CSTRING printfd_pid printfd printpid other.

(** Evaluation of the state, and of a condition on the tcb, in place. *)
Ltac norm_state :=
  cbv beta;
  lazymatch goal with
  | |- emits ?m ?s ?Q => let s' := eval cbn [valued frames names] in s in change (emits m s' Q)
  | |- _ => cbn [valued frames names]
  end.
Ltac norm_cond :=
  lazymatch goal with
  | |- emits (if ?b then ?x else ?y) ?s ?Q =>
      let b0 := eval cbv beta iota delta [u_arg args_of tcb_of leaf] in b in
      let b' := eval cbn [andb orb negb existsb] in b0 in change (emits (if b' then x else y) s Q)
  end.
Ltac literal x := lazymatch x with Z0 => idtac | Zpos _ => idtac | Zneg _ => idtac | Z.opp (Zpos _) => idtac end.
(** The atom of a condition that is decided first. *)
Ltac atom b :=
  lazymatch b with
  | ?x || _ => atom x
  | ?x && _ => atom x
  | negb ?x => atom x
  | _ => b
  end.
Ltac decide_cond :=
  norm_cond;
  lazymatch goal with
  | |- emits (if true then _ else _) _ _ => cbv iota
  | |- emits (if false then _ else _) _ _ => cbv iota
  | |- emits (if ?b then _ else _) _ _ =>
      let x := atom b in
      lazymatch goal with
      | H : x = true |- _ => rewrite H
      | H : x = false |- _ => rewrite H
      | |- _ =>
          lazymatch x with
          | (?u <? ?v)%Z => literal u; literal v; let r := eval vm_compute in x in change x with r
          | (?u <=? ?v)%Z => literal u; literal v; let r := eval vm_compute in x in change x with r
          | (?u =? ?v)%Z => literal u; literal v; let r := eval vm_compute in x in change x with r
          | _ => destruct x eqn:?
          end || destruct x eqn:?
      end;
      try norm_cond
  end.
(** A number is not equal to two constants. *)
Lemma two_constants v a b : (v =? a) = true -> (v =? b) = true -> (a =? b) = false -> False.
Proof. intros H1%Z.eqb_eq H2%Z.eqb_eq H3%Z.eqb_neq. lia. Qed.
Ltac contra_eq :=
  exfalso;
  match goal with
  | H1 : (?v =? ?a) = true, H2 : (?v =? ?b) = true |- _ => apply (two_constants v a b H1 H2); reflexivity
  end.

(** Where both branches of a condition leave the same state, the proof goes on once. *)
Lemma emits_join {St A} (b : bool) (m m' : D St ()) (k : () -> D St A) s Q :
  emits m s (fun _ s' => s' = s) -> emits m' s (fun _ s' => s' = s) -> emits (k ()) s Q ->
  emits ((if b then m else m') ≫= k) s Q.
Proof.
  intros H1 H2 Hk. apply emits_bind. destruct b; (eapply emits_mono; [eassumption|]); intros [] s' ->; exact Hk.
Qed.

(** One step of a proof that a decoder prints by the grammar. *)
Ltac wf_step :=
  lazymatch goal with
  | |- emits (if has ?v RVAL_DECODED then _ else _) _ _ =>
      let r := eval vm_compute in (has v RVAL_DECODED) in
      lazymatch r with
      | true => change (has v RVAL_DECODED) with true; cbv iota
      | false => change (has v RVAL_DECODED) with false; cbv iota
      | _ => destruct (has v RVAL_DECODED) eqn:?
      end
  | |- emits (if _ then _ else _) _ _ =>
      decide_cond
  | |- emits (_ ≫= _) _ _ => apply emits_bind
  | |- emits (mret _) _ _ => apply emits_ret
  | |- emits (emit _) _ _ => eapply emits_step; [cbn; reflexivity|]
  | |- emits (umoven_or_printaddr _ _ _) _ _ => apply umoven_or_printaddr_emits; [intros ?|]
  | |- emits (umoven_or_printaddr_ignore_syserror _ _ _) _ _ => apply umoven_or_printaddr_ignore_syserror_emits; [intros ?|]
  | |- emits (umoven_to_uint64_or_printaddr _ _ _) _ _ => apply umoven_to_uint64_or_printaddr_emits; [intros ?|]
  | |- emits (print_nonzero_bytes _ _ _ _ _) _ _ => apply print_nonzero_bytes_emits
  | |- emits (match ?x with _ => _ end) _ _ => destruct x eqn:?
  | |- emits ?m _ _ =>
      first [ let i := constr:(_ : IsValue m) in refine (@value_emits _ _ m i _ _ _); intros ?
            | let i := constr:(_ : Silent m) in refine (@silent _ _ m i _ _ _); intros ?
            | let h := get_head m in unfold h ]
  end; norm_state.
Ltac wf := repeat wf_step.
(** A member that is printed only sometimes. *)
Ltac join_step :=
  lazymatch goal with
  | |- emits ((if _ then _ else _) ≫= _) (mk_o ((BStruct, SValue) :: _) _) _ =>
      apply emits_join;
        [solve [repeat first [join_step | wf_step]; reflexivity] | solve [repeat first [join_step | wf_step]; reflexivity] | norm_state]
  end.

(** ** Arrays *)

Section arrays.
Context {St : Type} {G : Globals}.
Variable tcp : dtcb St.
(** [tfetch_mem_func], if there is one; the elements of an array of the tracer. *)
Variables (fetch : option (Z -> D St (option (list Z)))) (local : Z -> list Z).
Variable print_func : list Z -> D St bool.
Variables (elem_size fl : Z) (index_xlat : option xlat) (index_dflt : option string).

Definition print_index (idx : Z) : D St () :=
  if has fl PAF_PRINT_INDICES then
    tprint_array_index_begin ;;
    (match index_xlat with
     | None => print_xlat_ex idx None (Z.land fl XLAT_STYLE_MASK)
     | Some x => printxval_ex x idx index_dflt (Z.land fl XLAT_STYLE_MASK)
     end) ;;
    tprint_array_index_equal
  else nothing.

(** The rounds from [cur] on, at most [n]: the final [cur], and [truncated]. *)
Fixpoint array_loop (n : nat) (start_addr end_addr abbrev_end cur idx : Z) : D St (Z * bool) :=
  match n with
  | O => mret (cur, false)
  | S n' =>
      if cur <? end_addr then
        (if cur =? start_addr then nothing else tprint_array_next) ;;
        elem ← match fetch with Some f => f cur | None => mret (Some (local cur)) end;
        match elem with
        | None =>
            if cur =? start_addr then printaddr cur ;; mret (cur, false)
            else tprint_more_data_follows ;; printaddr_comment cur ;; mret (cur, true)
        | Some elem =>
            (if cur =? start_addr then tprint_array_begin else nothing) ;;
            if abbrev_end <=? cur then tprint_more_data_follows ;; mret (end_addr, true)
            else
              print_index idx ;;
              ok ← print_func elem;
              (if has fl PAF_PRINT_INDICES then tprint_array_index_end else nothing) ;;
              if ok : bool then array_loop n' start_addr end_addr abbrev_end (cur + elem_size) (idx + 1)
              else mret (end_addr, false)
        end
      else mret (cur, false)
  end.

Definition print_array_ex (start_addr nmemb : Z) : D St bool :=
  if start_addr =? 0 then tprint_null ;; mret false
  else if nmemb =? 0 then
    tprint_array_begin ;;
    (if has fl PAF_ARRAY_TRUNCATED then tprint_more_data_follows else nothing) ;;
    tprint_array_end ;; mret false
  else
    let size := uint 64 (nmemb * elem_size) in
    let end_addr := uint 64 (start_addr + size) in
    if (end_addr <=? start_addr) || negb (size / elem_size =? nmemb) then
      (match fetch with Some _ => printaddr start_addr | None => tprint_unavailable end) ;; mret false
    else
      let abbrev_end := if sequence_truncation_needed max_strlen tcp nmemb
                        then uint 64 (start_addr + elem_size * max_strlen) else end_addr in
      '(cur, truncated) ← array_loop (Z.to_nat nmemb) start_addr end_addr abbrev_end start_addr 0;
      (if negb (cur =? start_addr) || match fetch with None => true | Some _ => false end then
         (if has fl PAF_ARRAY_TRUNCATED && negb truncated
          then (if cur =? start_addr then nothing else tprint_array_next) ;; tprint_more_data_follows
          else nothing) ;;
         tprint_array_end
       else nothing) ;;
      mret (end_addr <=? cur).

(** *** What the loop leaves open *)

Hypothesis print_func_value : forall e, IsValue (print_func e).
Hypothesis fetch_silent : forall f cur, fetch = Some f -> Silent (f cur).
Hypothesis elem_size_pos : 0 < elem_size.

Definition in_array (s : ostate) : ostate := mk_o ((BArray, SValue) :: frames s) (names s).
Definition after_loop (start_addr : Z) (s : ostate) (r : Z * bool) (s' : ostate) : Prop :=
  (r.1 = start_addr /\ s' = valued s /\ exists f, fetch = Some f) \/ (start_addr < r.1 /\ s' = in_array s).

Lemma print_index_emits idx s q Q : q = SEmpty \/ q = SSep ->
  (forall q', Q () (mk_o ((BArray, q') :: frames s) (names s))) ->
  emits (print_index idx) (mk_o ((BArray, q) :: frames s) (names s)) Q.
Proof.
  intros Hq HQ. unfold print_index. wf_step; [|apply emits_ret, HQ].
  apply emits_bind, emits_emit. destruct Hq as [-> | ->]; cbn; wf; apply HQ.
Qed.

Lemma array_loop_emits n start_addr end_addr abbrev_end cur idx s :
  start_addr < end_addr -> start_addr <= cur -> (cur = start_addr -> n <> O) ->
  emits (array_loop n start_addr end_addr abbrev_end cur idx) (if cur =? start_addr then s else in_array s)
    (after_loop start_addr s).
Proof.
  revert cur idx; induction n as [|n IH]; intros cur idx Hse Hcur Hn; cbn [array_loop].
  { assert (cur <> start_addr) by naive_solver. rewrite (proj2 (Z.eqb_neq _ _)) by done.
    apply emits_ret. right. cbn. split; [lia | done]. }
  assert (Hbody : forall elem q, q = SEmpty \/ q = SSep ->
    emits (if abbrev_end <=? cur then tprint_more_data_follows ;; mret (end_addr, true)
           else print_index idx ;; ok ← print_func elem;
                (if has fl PAF_PRINT_INDICES then tprint_array_index_end else nothing) ;;
                if ok : bool then array_loop n start_addr end_addr abbrev_end (cur + elem_size) (idx + 1)
                else mret (end_addr, false)) (mk_o ((BArray, q) :: frames s) (names s)) (after_loop start_addr s)).
  { intros elem q Hq. wf_step.
    - wf. right. by split.
    - apply emits_bind, print_index_emits; [done|]. intros q'.
      apply emits_bind, print_func_value. intros ok. apply emits_bind. change tprint_array_index_end with (nothing (St := St)). apply silent. intros [].
      destruct ok; cbn [valued frames]; [|apply emits_ret; right; by split].
      specialize (IH (cur + elem_size) (idx + 1)). rewrite (proj2 (Z.eqb_neq (cur + elem_size) _)) in IH by lia.
      apply IH; lia. }
  destruct (cur <? end_addr) eqn:Hend.
  2: { apply Z.ltb_ge in Hend. rewrite (proj2 (Z.eqb_neq _ _)) by lia. apply emits_ret. right. cbn. split; [lia | done]. }
  apply emits_bind. destruct (cur =? start_addr) eqn:Hc.
  - apply Z.eqb_eq in Hc as ->. apply emits_ret, emits_bind. destruct fetch as [f|] eqn:Hf.
    + apply (fetch_silent f); [done|]. intros [elem|].
      * apply emits_bind, emits_emit. cbn. apply (Hbody elem SEmpty). by left.
      * wf. left. split_and!; [done|done|by exists f].
    + apply emits_ret, emits_bind, emits_emit. cbn. apply (Hbody _ SEmpty). by left.
  - apply Z.eqb_neq in Hc. apply emits_emit. cbn. apply emits_bind. destruct fetch as [f|] eqn:Hf.
    + apply (fetch_silent f); [done|]. intros [elem|].
      * apply emits_bind, emits_ret. apply (Hbody elem SSep). by right.
      * wf. right. cbn. split; [lia | done].
    + apply emits_ret, emits_bind, emits_ret. apply (Hbody _ SSep). by right.
Qed.

Lemma print_array_ex_value start_addr nmemb : 0 <= nmemb -> IsValue (print_array_ex start_addr nmemb).
Proof.
  intros Hn s Q HQ. unfold print_array_ex. destruct (start_addr =? 0); [wf; apply HQ|].
  destruct (nmemb =? 0) eqn:H0; [destruct s; wf; apply HQ|]. apply Z.eqb_neq in H0.
  match goal with |- context [if ?b then _ else _] => destruct b eqn:Hb end.
  { apply emits_bind. destruct fetch; wf; apply HQ. }
  apply orb_false_iff in Hb as [Hlt%Z.leb_gt _]. apply emits_bind.
  pose proof (array_loop_emits (Z.to_nat nmemb) start_addr (uint 64 (start_addr + uint 64 (nmemb * elem_size)))
    (if sequence_truncation_needed max_strlen tcp nmemb then uint 64 (start_addr + elem_size * max_strlen)
     else uint 64 (start_addr + uint 64 (nmemb * elem_size))) start_addr 0 s Hlt ltac:(lia) ltac:(lia)) as H.
  rewrite Z.eqb_refl in H. eapply emits_mono; [exact H|]. clear H.
  intros [cur tr] s' [(Hc & -> & f & Hf) | [Hc ->]]; cbn [fst] in Hc; cbv iota beta.
  - rewrite Hc, Z.eqb_refl, Hf. cbn [negb orb]. wf. apply HQ.
  - rewrite (proj2 (Z.eqb_neq cur _)) by lia. cbn [negb orb]. unfold in_array. destruct s; wf; apply HQ.
Qed.
End arrays.

Section array_functions.
Context {St : Type} {G : Globals}.
Implicit Type tcp : dtcb St.

Definition print_array tcp (addr count elem_size : Z) (print_func : list Z -> D St bool) : D St bool :=
  print_array_ex tcp (Some (fun cur => tfetch_mem tcp cur elem_size)) (fun _ => []) print_func elem_size 0 None None addr count.

(** [print_array] with [tfetch_mem_ignore_syserror]. *)
Definition print_array_ignore_syserror tcp (addr count elem_size : Z) (print_func : list Z -> D St bool) : D St bool :=
  print_array_ex tcp (Some (fun cur => tfetch_mem_ignore_syserror tcp cur elem_size)) (fun _ => []) print_func elem_size 0 None None addr count.

(** An array of the tracer; the buffer is at some address. *)
Definition local_addr : Z := 2 ^ 20.
Definition print_local_array_ex tcp (buf : list Z) (count elem_size : Z) (print_func : list Z -> D St bool)
    (fl : Z) (index_xlat : option xlat) (index_dflt : option string) : D St bool :=
  print_array_ex tcp None (fun cur => bytes_at elem_size (cur - local_addr) buf) print_func elem_size fl index_xlat index_dflt
    local_addr count.

Definition print_int_array_member (elem_size : Z) (e : list Z) : D St bool := PRINT_VAL_D (fs elem_size 0 e) ;; mret true.
Definition print_uint_array_member (elem_size : Z) (e : list Z) : D St bool := PRINT_VAL_U (fu elem_size 0 e) ;; mret true.
Definition print_xint_array_member (elem_size : Z) (e : list Z) : D St bool := PRINT_VAL_X (fu elem_size 0 e) ;; mret true.
Definition print_fd_array_member tcp (e : list Z) : D St bool := printfd tcp (fs 4 0 e) ;; mret true.

#[export] Instance print_int_array_member_value n e : IsValue (print_int_array_member n e). Proof. unfold print_int_array_member. apply _. Qed.
#[export] Instance print_uint_array_member_value n e : IsValue (print_uint_array_member n e). Proof. unfold print_uint_array_member. apply _. Qed.
#[export] Instance print_xint_array_member_value n e : IsValue (print_xint_array_member n e). Proof. unfold print_xint_array_member. apply _. Qed.
#[export] Instance print_fd_array_member_value tcp e : IsValue (print_fd_array_member tcp e). Proof. unfold print_fd_array_member. apply _. Qed.

Lemma print_array_value tcp a n sz f : 0 < sz -> 0 <= n -> (forall e, IsValue (f e)) -> IsValue (print_array tcp a n sz f).
Proof. intros Hs Hn Hf. apply print_array_ex_value; [done| |done|done]. intros g cur [= <-]. apply _. Qed.
Lemma print_array_ignore_syserror_value tcp a n sz f :
  0 < sz -> 0 <= n -> (forall e, IsValue (f e)) -> IsValue (print_array_ignore_syserror tcp a n sz f).
Proof. intros Hs Hn Hf. apply print_array_ex_value; [done| |done|done]. intros g cur [= <-]. apply _. Qed.
Lemma print_local_array_ex_value tcp b n sz f fl x d : 0 < sz -> 0 <= n -> (forall e, IsValue (f e)) ->
  IsValue (print_local_array_ex tcp b n sz f fl x d).
Proof. intros Hs Hn Hf. by apply print_array_ex_value. Qed.
End array_functions.

(** ** Printing functions shared by the decoders *)

Section shared.
Context {St : Type} {G : Globals}.
Implicit Type tcp : dtcb St.

(** [getllval]: a 64-bit argument, and the index of the next one. *)
Definition getllval tcp (arg_no : Z) : Z * Z :=
  if current_klongsize <? 8 then
    let a := uint 32 (u_arg tcp arg_no) in
    let b := uint 32 (u_arg tcp (arg_no + 1)) in
    (if is_bigendian then Z.lor (Z.shiftl a 32) b else Z.lor (Z.shiftl b 32) a, arg_no + 2)
  else (u_arg tcp arg_no, arg_no + 1).
Definition print_arg_lld tcp (arg_no : Z) : D St Z := let '(v, n) := getllval tcp arg_no in PRINT_VAL_D (sint 64 v) ;; mret n.
Definition print_arg_llu tcp (arg_no : Z) : D St Z := let '(v, n) := getllval tcp arg_no in PRINT_VAL_U v ;; mret n.

(** [DEF_PRINTNUM] of a type of [n] bytes and a format. *)
Inductive num_fmt := FmtD | FmtU | FmtX.
Definition printnum (n : Z) (fmt : num_fmt) tcp (addr : Z) : D St bool :=
  num ← umoven_or_printaddr tcp addr n;
  match num with
  | None => mret false
  | Some b => tprint_indirect_begin ;;
              (match fmt with FmtD => PRINT_VAL_D (fs n 0 b) | FmtU => PRINT_VAL_U (fu n 0 b) | FmtX => PRINT_VAL_X (fu n 0 b) end) ;;
              tprint_indirect_end ;; mret true
  end.
Definition printnum_addr (n : Z) tcp (addr : Z) : D St bool :=
  num ← umoven_or_printaddr tcp addr n;
  match num with
  | None => mret false
  | Some b => tprint_indirect_begin ;; printaddr64 (fu n 0 b) ;; tprint_indirect_end ;; mret true
  end.
Definition printnum_fd tcp (addr : Z) : D St bool :=
  num ← umoven_or_printaddr tcp addr 4;
  match num with
  | None => mret false
  | Some b => tprint_indirect_begin ;; printfd tcp (fs 4 0 b) ;; tprint_indirect_end ;; mret true
  end.

Definition AT_FDCWD : Z := -100.
Definition indirect_ipccall tcp : bool :=
  match s_ent tcp with Some e => has (sysent_flags e) TRACE_INDIRECT_SUBCALL | None => false end.
Definition is_erestart tcp : bool := existsb (Z.eqb (u_error tcp)) [ERESTARTSYS; ERESTARTNOINTR; ERESTARTNOHAND; ERESTART_RESTARTBLOCK].
(** The same tcb with the error cleared, until it is restored. *)
Definition temporarily_clear_syserror tcp : dtcb St := mk_dtcb St (set_u_error 0 tcp) (args_of tcp) (leaf tcp).

(** The path of the working directory, if it is to be printed and can be read,
    comes from the leaf "cwd". *)
Definition print_dirfd tcp (fd : Z) : D St () :=
  if int fd =? AT_FDCWD then
    print_xlat_d AT_FDCWD "AT_FDCWD" ;;
    '(path, rc) ← lift (lf_other (leaf tcp) "cwd" []);
    if rc =? 0 then nothing
    else tprint_associated_info_begin ;; tprints_text path ;; tprint_associated_info_end
  else printfd tcp fd.

Definition dev_major (dev : Z) : Z := uint 32 (Z.lor (Z.land (Z.shiftr dev 8) 0xfff) (Z.land (Z.shiftr dev 32) (Z.lnot 0xfff))).
Definition dev_minor (dev : Z) : Z := uint 32 (Z.lor (Z.land dev 0xff) (Z.land (Z.shiftr dev 12) (Z.lnot 0xff))).
Definition print_dev_t (dev : Z) : D St () :=
  (if negb (xlat_verbose xlat_verbosity =? XLAT_STYLE_ABBREV) then PRINT_VAL_X dev else nothing) ;;
  if xlat_verbose xlat_verbosity =? XLAT_STYLE_RAW then nothing
  else
    (if xlat_verbose xlat_verbosity =? XLAT_STYLE_VERBOSE then tprint_comment_begin else nothing) ;;
    tprints_fn_begin "makedev" ;; PRINT_VAL_X (dev_major dev) ;;
    tprint_fn_next ;; PRINT_VAL_X (dev_minor dev) ;; tprint_fn_end ;;
    (if xlat_verbose xlat_verbosity =? XLAT_STYLE_VERBOSE then tprint_comment_end else nothing).

Definition S_IFMT : Z := 0xf000.
Definition S_ISUID : Z := 0x800.
Definition S_ISGID : Z := 0x400.
Definition S_ISVTX : Z := 0x200.
Definition print_symbolic_mode_t (mode : Z) : D St () :=
  let ifmt := if has mode S_IFMT then xlookup (xlat_of "modetypes") (Z.land mode S_IFMT) else Some EmptyString in
  (match ifmt with
   | Some _ => if negb (xlat_verbose xlat_verbosity =? XLAT_STYLE_ABBREV) then PRINT_VAL_03O mode else nothing
   | None => PRINT_VAL_03O mode
   end) ;;
  match ifmt with
  | None => nothing
  | Some ifmt =>
      if xlat_verbose xlat_verbosity =? XLAT_STYLE_RAW then nothing
      else
        let s := codes (ifmt +:+ (if String.eqb ifmt EmptyString then EmptyString else "|")
                        +:+ (if has mode S_ISUID then "S_ISUID|" else EmptyString)
                        +:+ (if has mode S_ISGID then "S_ISGID|" else EmptyString)
                        +:+ (if has mode S_ISVTX then "S_ISVTX|" else EmptyString)
                        +:+ fmt_03o (Z.land mode (Z.lnot (Z.lor (Z.lor S_IFMT S_ISUID) (Z.lor S_ISGID S_ISVTX))))) in
        if xlat_verbose xlat_verbosity =? XLAT_STYLE_ABBREV then tprints_text s else tprints_comment (Some s)
  end.

(** The text after "flags" and the separator. *)
Definition sprint_open_mode_flags (flags : Z) (more : list xlat) : string :=
  match xlookup (xlat_of "open_access_modes") (Z.land flags 3) with
  | Some s =>
      let flags := Z.land flags (Z.lnot 3) in
      if flags =? 0 then s
      else default s (sprintflags_exv xlat_verbosity s flags "|" XLAT_STYLE_ABBREV (xlat_of "open_mode_flags") more)
  | None => default EmptyString (sprintflags_exv xlat_verbosity EmptyString flags EmptyString XLAT_STYLE_ABBREV (xlat_of "open_mode_flags") more)
  end.
Definition tprint_open_modes64 (flags : Z) : D St () := print_xlat_ex flags (Some (sprint_open_mode_flags flags [])) XLAT_STYLE_DEFAULT.
Definition tprint_open_modes (flags : Z) : D St () := tprint_open_modes64 (uint 32 flags).

#[export] Instance print_arg_lld_value tcp n : IsValue (print_arg_lld tcp n).
Proof. unfold print_arg_lld. destruct (getllval tcp n). apply _. Qed.
#[export] Instance print_arg_llu_value tcp n : IsValue (print_arg_llu tcp n).
Proof. unfold print_arg_llu. destruct (getllval tcp n). apply _. Qed.
#[export] Instance printnum_value n fmt tcp a : IsValue (printnum n fmt tcp a).
Proof. intros [f ns] Q H. unfold printnum. wf; apply H. Qed.
#[export] Instance printnum_addr_value n tcp a : IsValue (printnum_addr n tcp a).
Proof. intros [f ns] Q H. unfold printnum_addr. wf; apply H. Qed.
#[export] Instance printnum_fd_value tcp a : IsValue (printnum_fd tcp a).
Proof. intros [f ns] Q H. unfold printnum_fd. wf; apply H. Qed.
#[export] Instance print_dirfd_value tcp fd : IsValue (print_dirfd tcp fd).
Proof. intros [f ns] Q H. unfold print_dirfd. wf; rewrite ?o_eta, ?valued_valued; apply H. Qed.

#[export] Instance print_dev_t_value dev : IsValue (St := St) (print_dev_t dev).
Proof.
  intros [f ns] Q H. unfold print_dev_t. wf; rewrite ?o_eta, ?valued_valued; try apply H. contra_eq.
Qed.
#[export] Instance print_symbolic_mode_t_value mode : IsValue (St := St) (print_symbolic_mode_t mode).
Proof.
  intros [f ns] Q H. unfold print_symbolic_mode_t. destruct (if has mode S_IFMT then _ else _) as [ifmt|]; wf;
    rewrite ?o_eta, ?valued_valued; try apply H. contra_eq.
Qed.
#[export] Instance tprint_open_modes_value v : IsValue (St := St) (tprint_open_modes v). Proof. apply string_value. Qed.
End shared.
#[export] Typeclasses Opaque print_arg_lld print_arg_llu printnum printnum_addr printnum_fd print_dirfd print_dev_t
  print_symbolic_mode_t tprint_open_modes64 tprint_open_modes print_array print_array_ignore_syserror print_local_array_ex
  print_int_array_member print_uint_array_member print_xint_array_member print_fd_array_member.

(** ** A syscall *)

(** The decoder on entry, and on exit unless everything was decoded on entry. *)
Definition run_decoder {St} (f : dtcb St -> D St Z) (t1 t2 : tcb) (args : Z -> Z) (l1 l2 : leaves St) : D St Z :=
  rv ← f (mk_dtcb St t1 args l1);
  if has rv RVAL_DECODED then mret rv else f (mk_dtcb St t2 args l2).

Definition no_args : ostate := mk_o [(BArgs, SEmpty)] [].
(** Nothing is open, and the last name has a value. *)
Definition complete (s : ostate) : bool :=
  match frames s with [(BArgs, (SEmpty | SValue))] => true | _ => false end.

(** Whatever the memory holds and the kernel answers, the decoder ends, prints by the
    grammar, and the names of the arguments are one of the lists. *)
Definition well_formed {St} (f : dtcb St -> D St Z) (allowed : list (list string)) : Prop :=
  forall t1 t2 args l1 l2, entering t1 = true -> entering t2 = false ->
  emits (run_decoder f t1 t2 args l1 l2) no_args (fun _ s => complete s = true /\ In (names s) allowed).

(** A decoder, and the arguments it prints. *)
Record decoder (St : Type) := mk_decoder { dec_name : string; dec_func : dtcb St -> D St Z; dec_args : list (list string) }.
Arguments mk_decoder {St} _ _ _.
Arguments dec_name {St} _.
Arguments dec_func {St} _.
Arguments dec_args {St} _.

(** A value of the tracee's word. *)
Definition truncate_kulong_to_current_wordsize {G : Globals} (v : Z) : Z := if current_wordsize <? 8 then uint 32 v else v.
Definition truncate_klong_to_current_wordsize {G : Globals} (v : Z) : Z := if current_wordsize <? 8 then int v else v.

Abbreviation exiting tcp := (negb (entering tcp)).

(** Side conditions of arrays: sizes and counts. *)
Lemma count_nonneg w x : 0 < w -> 0 <= uint w x.
Proof. intros Hw. apply Z.mod_pos_bound. lia. Qed.
Ltac array_side :=
  lazymatch goal with
  | |- forall _, IsValue _ => intros ?; apply _
  | |- _ < current_wordsize => apply current_wordsize_pos
  | |- _ <= uint _ _ => apply count_nonneg; reflexivity
  | |- _ <= u_arg _ _ => apply count_nonneg; reflexivity
  | |- _ <= Z.min _ _ => apply Z.min_glb; apply Z.mod_pos_bound; reflexivity
  | |- _ => pose proof current_wordsize_pos; lia
  end.
Ltac array_step :=
  lazymatch goal with
  | |- emits (print_array _ _ _ _ _) _ _ => apply print_array_value; [array_side | array_side | array_side | intros ?]
  | |- emits (print_array_ignore_syserror _ _ _ _ _) _ _ =>
      apply print_array_ignore_syserror_value; [array_side | array_side | array_side | intros ?]
  | |- emits (print_local_array_ex _ _ _ _ _ _ _ _) _ _ => apply print_local_array_ex_value; [array_side | array_side | array_side | intros ?]
  end; cbn [valued frames].

(** The names are in the list. *)
Ltac listed := cbn; solve [repeat first [left; reflexivity | right]].

(** With [join_step] first, for structures with many optional members. *)
Ltac prove_wf_join :=
  let t1 := fresh "t1" in let t2 := fresh "t2" in
  intros t1 t2 ?args ?l1 ?l2 ?Hin ?Hout;
  unfold run_decoder, no_args; repeat first [join_step | array_step | wf_step];
  first [ split; [reflexivity | listed] | contra_eq | idtac ].

Ltac prove_wf :=
  let t1 := fresh "t1" in let t2 := fresh "t2" in
  intros t1 t2 ?args ?l1 ?l2 ?Hin ?Hout;
  unfold run_decoder, no_args; repeat first [array_step | wf_step];
  first [ split; [reflexivity | listed] | contra_eq | idtac ].
