(* ===== verification/SysFs.v ===== *)
(** * Decoders of syscalls on files and descriptors

    Each decoder is the translation of a SYS_FUNC: the statements in their order, as
    operations of the monad of [Decode].  Members of structures are read at their
    offsets in the bytes that were fetched. *)

From stdpp Require Import strings pretty.
From S2P Require Import Prelude Wait Tcb Tracee Syscall Util Xlat Filters Quote UCopy PrintStr PrintArray Style Decode.
Open Scope Z_scope.

Definition MAX_HANDLE_SZ : Z := 128.
Definition S_IFMT : Z := 0xf000.
Definition S_IFCHR : Z := 0x2000.
Definition S_IFBLK : Z := 0x6000.
Definition MS_MGC_VAL : Z := 0xc0ed0000.
Definition MS_MGC_MSK : Z := 0xffff0000.
Definition MS_REMOUNT : Z := 32.
Definition MS_BIND : Z := 4096.
Definition MS_MOVE : Z := 8192.
Definition MS_SHARED : Z := 0x100000.
Definition MS_PRIVATE : Z := 0x40000.
Definition MS_SLAVE : Z := 0x80000.
Definition MS_UNBINDABLE : Z := 0x20000.
Definition FSCONFIG_SET_FLAG : Z := 0.
Definition FSCONFIG_SET_STRING : Z := 1.
Definition FSCONFIG_SET_BINARY : Z := 2.
Definition FSCONFIG_SET_PATH : Z := 3.
Definition FSCONFIG_SET_PATH_EMPTY : Z := 4.
Definition FSCONFIG_SET_FD : Z := 5.
Definition MOUNT_ATTR_SIZE_VER0 : Z := 32.
Definition MOUNT_ATTR_IDMAP : Z := 0x100000.
Definition FILE_ATTR_SIZE_VER0 : Z := 24.
Definition EOVERFLOW : Z := 75.
Definition FAN_ALL_CLASS_BITS : Z := 0xc.
Definition FAN_NOFD : Z := -1.
Definition SWAP_FLAG_PRIO_MASK : Z := 0x7fff.
Definition MFD_NAME_MAX_LEN : Z := 249.
Definition MFD_HUGE_MASK : Z := 0x3f.
Definition MFD_HUGE_SHIFT : Z := 26.
Definition MNT_ID_REQ_SIZE_VER0 : Z := 24.
Definition MNT_ID_REQ_SIZE_VER1 : Z := 32.
Definition EPOLL_CTL_DEL : Z := 2.
Definition FD_FAILFS_ROOT : Z := -10004.

Section fs.
Context {St : Type} {G : Globals}.

(** ** src/chdir.c *)

Definition sys_chdir (tcp : dtcb St) : D St Z :=
  tprints_arg_name "path" ;;
  printpath tcp (u_arg tcp 0) ;;
  mret RVAL_DECODED.

(** ** src/access.c *)

Definition decode_access (tcp : dtcb St) (offset : Z) : D St () :=
  tprints_arg_name "pathname" ;;
  printpath tcp (u_arg tcp offset) ;;
  tprints_arg_next_name "mode" ;;
  printflags (xlat_of "access_modes") (u_arg tcp (offset + 1)) (Some "?_OK"%string) ;;
  nothing.

Definition sys_access (tcp : dtcb St) : D St Z :=
  decode_access tcp 0 ;;
  mret RVAL_DECODED.

Definition decode_faccessat (tcp : dtcb St) : D St () :=
  tprints_arg_name "dirfd" ;;
  print_dirfd tcp (u_arg tcp 0) ;;
  tprint_arg_next ;;
  decode_access tcp 1.

Definition sys_faccessat (tcp : dtcb St) : D St Z :=
  decode_faccessat tcp ;;
  mret RVAL_DECODED.

Definition sys_faccessat2 (tcp : dtcb St) : D St Z :=
  decode_faccessat tcp ;;
  tprints_arg_next_name "flags" ;;
  printflags (xlat_of "faccessat_flags") (u_arg tcp 3) (Some "AT_???"%string) ;;
  mret RVAL_DECODED.

(** ** src/chmod.c *)

Definition decode_chmod (tcp : dtcb St) (offset : Z) : D St () :=
  tprints_arg_name "pathname" ;;
  printpath tcp (u_arg tcp offset) ;;
  tprints_arg_next_name "mode" ;;
  print_numeric_umode_t (u_arg tcp (offset + 1)).

Definition sys_chmod (tcp : dtcb St) : D St Z :=
  decode_chmod tcp 0 ;;
  mret RVAL_DECODED.

Definition decode_fchmodat (tcp : dtcb St) : D St () :=
  tprints_arg_name "dirfd" ;;
  print_dirfd tcp (u_arg tcp 0) ;;
  tprint_arg_next ;;
  decode_chmod tcp 1.

Definition sys_fchmodat (tcp : dtcb St) : D St Z :=
  decode_fchmodat tcp ;;
  mret RVAL_DECODED.

Definition sys_fchmodat2 (tcp : dtcb St) : D St Z :=
  decode_fchmodat tcp ;;
  tprints_arg_next_name "flags" ;;
  printflags (xlat_of "fchmodat_flags") (u_arg tcp 3) (Some "AT_???"%string) ;;
  mret RVAL_DECODED.

Definition sys_fchmod (tcp : dtcb St) : D St Z :=
  tprints_arg_name "fd" ;;
  printfd tcp (u_arg tcp 0) ;;
  tprints_arg_next_name "mode" ;;
  print_numeric_umode_t (u_arg tcp 1) ;;
  mret RVAL_DECODED.

(** ** src/link.c *)

Definition sys_link (tcp : dtcb St) : D St Z :=
  tprints_arg_name "oldpath" ;;
  printpath tcp (u_arg tcp 0) ;;
  tprints_arg_next_name "newpath" ;;
  printpath tcp (u_arg tcp 1) ;;
  mret RVAL_DECODED.

Definition sys_linkat (tcp : dtcb St) : D St Z :=
  tprints_arg_name "olddirfd" ;;
  print_dirfd tcp (u_arg tcp 0) ;;
  tprints_arg_next_name "oldpath" ;;
  printpath tcp (u_arg tcp 1) ;;
  tprints_arg_next_name "newdirfd" ;;
  print_dirfd tcp (u_arg tcp 2) ;;
  tprints_arg_next_name "newpath" ;;
  printpath tcp (u_arg tcp 3) ;;
  tprints_arg_next_name "flags" ;;
  printflags (xlat_of "at_flags") (u_arg tcp 4) (Some "AT_???"%string) ;;
  mret RVAL_DECODED.

Definition sys_unlinkat (tcp : dtcb St) : D St Z :=
  tprints_arg_name "dirfd" ;;
  print_dirfd tcp (u_arg tcp 0) ;;
  tprints_arg_next_name "pathname" ;;
  printpath tcp (u_arg tcp 1) ;;
  tprints_arg_next_name "flags" ;;
  printflags (xlat_of "at_flags") (u_arg tcp 2) (Some "AT_???"%string) ;;
  mret RVAL_DECODED.

Definition sys_symlinkat (tcp : dtcb St) : D St Z :=
  tprints_arg_name "target" ;;
  printpath tcp (u_arg tcp 0) ;;
  tprints_arg_next_name "newdirfd" ;;
  print_dirfd tcp (u_arg tcp 1) ;;
  tprints_arg_next_name "linkpath" ;;
  printpath tcp (u_arg tcp 2) ;;
  mret RVAL_DECODED.

(** ** src/mknod.c *)

Definition decode_mknod (tcp : dtcb St) (offset : Z) : D St () :=
  let mode := (uint 16 (u_arg tcp (offset + 1))) in
  tprints_arg_name "pathname" ;;
  printpath tcp (u_arg tcp offset) ;;
  tprints_arg_next_name "mode" ;;
  print_symbolic_mode_t mode ;;
  if ((Z.land mode S_IFMT) =? S_IFCHR) || ((Z.land mode S_IFMT) =? S_IFBLK) then
    let dev := (uint 32 (u_arg tcp (offset + 2))) in
    tprints_arg_next_name "dev" ;;
    print_dev_t dev
  else nothing.

Definition sys_mknod (tcp : dtcb St) : D St Z :=
  decode_mknod tcp 0 ;;
  mret RVAL_DECODED.

Definition sys_mknodat (tcp : dtcb St) : D St Z :=
  tprints_arg_name "dirfd" ;;
  print_dirfd tcp (u_arg tcp 0) ;;
  tprint_arg_next ;;
  decode_mknod tcp 1 ;;
  mret RVAL_DECODED.

(** ** src/readlink.c *)

Definition decode_readlink (tcp : dtcb St) (offset : Z) : D St Z :=
  (if (entering tcp) then
    tprints_arg_name "pathname" ;;
    printpath tcp (u_arg tcp offset) ;;
    nothing
  else
    tprints_arg_next_name "buf" ;;
    (if (syserror tcp) then
      printaddr (u_arg tcp (offset + 1))
    else
      printstrn tcp (u_arg tcp (offset + 1)) (uint 64 (u_rval tcp)) ;;
      nothing) ;;
    tprints_arg_next_name "bufsiz" ;;
    PRINT_VAL_U (u_arg tcp (offset + 2))) ;;
  mret 0.

Definition sys_readlink (tcp : dtcb St) : D St Z :=
  decode_readlink tcp 0.

Definition sys_readlinkat (tcp : dtcb St) : D St Z :=
  (if (entering tcp) then
    tprints_arg_name "dirfd" ;;
    print_dirfd tcp (u_arg tcp 0) ;;
    tprint_arg_next
  else
    nothing) ;;
  decode_readlink tcp 1.

(** ** src/renameat.c *)

Definition decode_renameat (tcp : dtcb St) : D St () :=
  tprints_arg_name "olddirfd" ;;
  print_dirfd tcp (u_arg tcp 0) ;;
  tprints_arg_next_name "oldpath" ;;
  printpath tcp (u_arg tcp 1) ;;
  tprints_arg_next_name "newdirfd" ;;
  print_dirfd tcp (u_arg tcp 2) ;;
  tprints_arg_next_name "newpath" ;;
  printpath tcp (u_arg tcp 3) ;;
  nothing.

Definition sys_renameat (tcp : dtcb St) : D St Z :=
  decode_renameat tcp ;;
  mret RVAL_DECODED.

Definition sys_renameat2 (tcp : dtcb St) : D St Z :=
  decode_renameat tcp ;;
  tprints_arg_next_name "flags" ;;
  printflags (xlat_of "rename_flags") (u_arg tcp 4) (Some "RENAME_???"%string) ;;
  mret RVAL_DECODED.

(** ** src/statfs.c *)

Definition sys_statfs (tcp : dtcb St) : D St Z :=
  (if (entering tcp) then
    tprints_arg_name "pathname" ;;
    printpath tcp (u_arg tcp 0) ;;
    nothing
  else
    tprints_arg_next_name "buf" ;;
    other tcp "print_struct_statfs" [(u_arg tcp 1)] ;;
    nothing) ;;
  mret 0.

(** ** src/fstatfs.c *)

Definition sys_fstatfs (tcp : dtcb St) : D St Z :=
  (if (entering tcp) then
    tprints_arg_name "fd" ;;
    printfd tcp (u_arg tcp 0)
  else
    tprints_arg_next_name "buf" ;;
    other tcp "print_struct_statfs" [(u_arg tcp 1)] ;;
    nothing) ;;
  mret 0.

(** ** src/statfs64.c *)

Definition sys_statfs64 (tcp : dtcb St) : D St Z :=
  (if (entering tcp) then
    tprints_arg_name "pathname" ;;
    printpath tcp (u_arg tcp 0) ;;
    tprints_arg_next_name "size" ;;
    PRINT_VAL_U (u_arg tcp 1)
  else
    tprints_arg_next_name "buf" ;;
    other tcp "print_struct_statfs64" [(u_arg tcp 2); (u_arg tcp 1)] ;;
    nothing) ;;
  mret 0.

(** ** src/fstatfs64.c *)

Definition sys_fstatfs64 (tcp : dtcb St) : D St Z :=
  (if (entering tcp) then
    tprints_arg_name "fd" ;;
    printfd tcp (u_arg tcp 0) ;;
    tprints_arg_next_name "size" ;;
    PRINT_VAL_U (u_arg tcp 1)
  else
    tprints_arg_next_name "buf" ;;
    other tcp "print_struct_statfs64" [(u_arg tcp 2); (u_arg tcp 1)] ;;
    nothing) ;;
  mret 0.

(** ** src/stat.c *)

(** [fetch_struct_stat] and [print_struct_stat] are leaves. *)
Definition decode_struct_stat (tcp : dtcb St) (addr : Z) : D St () := other tcp "decode_struct_stat" [addr] ;; nothing.

Definition sys_stat (tcp : dtcb St) : D St Z :=
  (if (entering tcp) then
    tprints_arg_name "pathname" ;;
    printpath tcp (u_arg tcp 0) ;;
    nothing
  else
    tprints_arg_next_name "statbuf" ;;
    decode_struct_stat tcp (u_arg tcp 1)) ;;
  mret 0.

Definition sys_fstat (tcp : dtcb St) : D St Z :=
  (if (entering tcp) then
    tprints_arg_name "fd" ;;
    printfd tcp (u_arg tcp 0)
  else
    tprints_arg_next_name "statbuf" ;;
    decode_struct_stat tcp (u_arg tcp 1)) ;;
  mret 0.

Definition sys_newfstatat (tcp : dtcb St) : D St Z :=
  (if (entering tcp) then
    tprints_arg_name "dirfd" ;;
    print_dirfd tcp (u_arg tcp 0) ;;
    tprints_arg_next_name "pathname" ;;
    printpath tcp (u_arg tcp 1) ;;
    nothing
  else
    tprints_arg_next_name "statbuf" ;;
    decode_struct_stat tcp (u_arg tcp 2) ;;
    tprints_arg_next_name "flags" ;;
    printflags (xlat_of "at_flags") (u_arg tcp 3) (Some "AT_???"%string) ;;
    nothing) ;;
  mret 0.

(** ** src/stat64.c *)

Definition decode_struct_stat64 (tcp : dtcb St) (addr : Z) : D St () := other tcp "decode_struct_stat64" [addr] ;; nothing.

Definition sys_stat64 (tcp : dtcb St) : D St Z :=
  (if (entering tcp) then
    tprints_arg_name "pathname" ;;
    printpath tcp (u_arg tcp 0) ;;
    nothing
  else
    tprints_arg_next_name "statbuf" ;;
    decode_struct_stat64 tcp (u_arg tcp 1)) ;;
  mret 0.

Definition sys_fstat64 (tcp : dtcb St) : D St Z :=
  (if (entering tcp) then
    tprints_arg_name "fd" ;;
    printfd tcp (u_arg tcp 0)
  else
    tprints_arg_next_name "statbuf" ;;
    decode_struct_stat64 tcp (u_arg tcp 1)) ;;
  mret 0.

Definition sys_fstatat64 (tcp : dtcb St) : D St Z :=
  (if (entering tcp) then
    tprints_arg_name "dirfd" ;;
    print_dirfd tcp (u_arg tcp 0) ;;
    tprints_arg_next_name "pathname" ;;
    printpath tcp (u_arg tcp 1) ;;
    nothing
  else
    tprints_arg_next_name "statbuf" ;;
    decode_struct_stat64 tcp (u_arg tcp 2) ;;
    tprints_arg_next_name "flags" ;;
    printflags (xlat_of "at_flags") (u_arg tcp 3) (Some "AT_???"%string) ;;
    nothing) ;;
  mret 0.

(** ** src/truncate.c *)

Definition sys_truncate (tcp : dtcb St) : D St Z :=
  tprints_arg_name "path" ;;
  printpath tcp (u_arg tcp 0) ;;
  tprints_arg_next_name "length" ;;
  PRINT_VAL_U (u_arg tcp 1) ;;
  mret RVAL_DECODED.

Definition sys_truncate64 (tcp : dtcb St) : D St Z :=
  tprints_arg_name "path" ;;
  printpath tcp (u_arg tcp 0) ;;
  tprints_arg_next_name "length" ;;
  print_arg_llu tcp 1 ;;
  mret RVAL_DECODED.

Definition sys_ftruncate (tcp : dtcb St) : D St Z :=
  tprints_arg_name "fd" ;;
  printfd tcp (u_arg tcp 0) ;;
  tprints_arg_next_name "length" ;;
  PRINT_VAL_U (u_arg tcp 1) ;;
  mret RVAL_DECODED.

Definition sys_ftruncate64 (tcp : dtcb St) : D St Z :=
  tprints_arg_name "fd" ;;
  printfd tcp (u_arg tcp 0) ;;
  tprints_arg_next_name "length" ;;
  print_arg_llu tcp 1 ;;
  mret RVAL_DECODED.

(** ** src/umask.c *)

Definition sys_umask (tcp : dtcb St) : D St Z :=
  tprints_arg_name "mask" ;;
  print_numeric_umode_t (u_arg tcp 0) ;;
  mret (Z.lor RVAL_DECODED RVAL_OCTAL).

(** ** src/umount.c *)

Definition sys_umount2 (tcp : dtcb St) : D St Z :=
  tprints_arg_name "target" ;;
  printpath tcp (u_arg tcp 0) ;;
  tprints_arg_next_name "flags" ;;
  printflags (xlat_of "umount_flags") (u_arg tcp 1) (Some "MNT_???"%string) ;;
  mret RVAL_DECODED.

(** ** src/mount.c *)

Definition sys_mount (tcp : dtcb St) : D St Z :=
  let flags := u_arg tcp 3 in
  let old_magic := Z.land flags MS_MGC_MSK =? MS_MGC_VAL in
  let flags := if old_magic then Z.land flags (Z.lnot MS_MGC_MSK) else flags in
  let bind_like := has flags (Z.lor (Z.lor MS_BIND MS_MOVE) (Z.lor (Z.lor MS_SHARED MS_PRIVATE) (Z.lor MS_SLAVE MS_UNBINDABLE))) in
  let ignore_type := has flags MS_REMOUNT || bind_like in
  let ignore_data := negb (has flags MS_REMOUNT) && bind_like in
  tprints_arg_name "source" ;;
  printpath tcp (u_arg tcp 0) ;;
  tprints_arg_next_name "target" ;;
  printpath tcp (u_arg tcp 1) ;;
  tprints_arg_next_name "filesystemtype" ;;
  (if ignore_type then printaddr (u_arg tcp 2) else printstr tcp (u_arg tcp 2) ;; nothing) ;;
  tprints_arg_next_name "mountflags" ;;
  tprint_flags_begin ;;
  (if old_magic then
     print_xlat MS_MGC_VAL "MS_MGC_VAL" ;;
     (if negb (flags =? 0) then tprint_flags_or else nothing)
   else nothing) ;;
  (if negb (flags =? 0) || negb old_magic
   then printflags64_in (xlat_of "mount_flags") flags (Some "MS_???"%string) ;; nothing else nothing) ;;
  tprint_flags_end ;;
  tprints_arg_next_name "data" ;;
  (if ignore_data then printaddr (u_arg tcp 4) else printstr tcp (u_arg tcp 4) ;; nothing) ;;
  mret RVAL_DECODED.

(** ** src/fsopen.c *)

Definition sys_fsopen (tcp : dtcb St) : D St Z :=
  tprints_arg_name "fsname" ;;
  printstr tcp (u_arg tcp 0) ;;
  tprints_arg_next_name "flags" ;;
  printflags (xlat_of "fsopen_flags") (u_arg tcp 1) (Some "FSOPEN_???"%string) ;;
  mret (Z.lor RVAL_DECODED RVAL_FD).

(** ** src/fsmount.c *)

Definition sys_fsmount (tcp : dtcb St) : D St Z :=
  tprints_arg_name "fd" ;;
  printfd tcp (u_arg tcp 0) ;;
  tprints_arg_next_name "flags" ;;
  printflags (xlat_of "fsmount_flags") (u_arg tcp 1) (Some "FSMOUNT_???"%string) ;;
  tprints_arg_next_name "attr_flags" ;;
  printflags (xlat_of "fsmount_attr_flags") (u_arg tcp 2) (Some "MOUNT_ATTR_???"%string) ;;
  mret (Z.lor RVAL_DECODED RVAL_FD).

(** ** src/fspick.c *)

Definition sys_fspick (tcp : dtcb St) : D St Z :=
  tprints_arg_name "dirfd" ;;
  print_dirfd tcp (u_arg tcp 0) ;;
  tprints_arg_next_name "pathname" ;;
  printpath tcp (u_arg tcp 1) ;;
  tprints_arg_next_name "flags" ;;
  printflags (xlat_of "fspick_flags") (u_arg tcp 2) (Some "FSPICK_???"%string) ;;
  mret (Z.lor RVAL_DECODED RVAL_FD).

(** ** src/fsconfig.c *)

Definition sys_fsconfig (tcp : dtcb St) : D St Z :=
  let fs_fd := int (u_arg tcp 0) in
  let cmd := uint 32 (u_arg tcp 1) in
  let key := u_arg tcp 2 in
  let value := u_arg tcp 3 in
  let aux := int (u_arg tcp 4) in
  tprints_arg_name "fd" ;;
  printfd tcp fs_fd ;;
  tprints_arg_next_name "cmd" ;;
  printxval (xlat_of "fsconfig_cmds") cmd (Some "FSCONFIG_???"%string) ;;
  tprints_arg_next_name "key" ;;
  (if existsb (Z.eqb cmd) [FSCONFIG_SET_FLAG; FSCONFIG_SET_STRING; FSCONFIG_SET_BINARY; FSCONFIG_SET_PATH;
                           FSCONFIG_SET_PATH_EMPTY; FSCONFIG_SET_FD]
   then printstr_ex tcp key 256 QUOTE_0_TERMINATED ;; nothing else printaddr key) ;;
  tprints_arg_next_name "value" ;;
  (if cmd =? FSCONFIG_SET_STRING then printstr_ex tcp value 256 QUOTE_0_TERMINATED ;; nothing
   else if (cmd =? FSCONFIG_SET_PATH) || (cmd =? FSCONFIG_SET_PATH_EMPTY) then printpath tcp value ;; nothing
   else if (cmd =? FSCONFIG_SET_BINARY) && ((0 <=? aux) && (aux <=? 1024 * 1024))
   then printstr_ex tcp value aux QUOTE_FORCE_HEX ;; nothing
   else printaddr value) ;;
  tprints_arg_next_name "aux" ;;
  (if (cmd =? FSCONFIG_SET_PATH) || (cmd =? FSCONFIG_SET_PATH_EMPTY) then print_dirfd tcp aux
   else if cmd =? FSCONFIG_SET_FD then printfd tcp aux
   else PRINT_VAL_D aux) ;;
  mret RVAL_DECODED.

(** ** src/move_mount.c *)

Definition sys_move_mount (tcp : dtcb St) : D St Z :=
  tprints_arg_name "from_dfd" ;;
  print_dirfd tcp (u_arg tcp 0) ;;
  tprints_arg_next_name "from_pathname" ;;
  printpath tcp (u_arg tcp 1) ;;
  tprints_arg_next_name "to_dfd" ;;
  print_dirfd tcp (u_arg tcp 2) ;;
  tprints_arg_next_name "to_pathname" ;;
  printpath tcp (u_arg tcp 3) ;;
  tprints_arg_next_name "flags" ;;
  printflags (xlat_of "move_mount_flags") (u_arg tcp 4) (Some "MOVE_MOUNT_???"%string) ;;
  mret RVAL_DECODED.

(** ** src/mount_setattr.c *)

Definition print_mount_attr (tcp : dtcb St) (addr : Z) (size_ : Z) : D St () :=
  if (size_ <? MOUNT_ATTR_SIZE_VER0) then
    printaddr addr ;;
    nothing
  else
    attr ← umoven_or_printaddr tcp addr (uint 32 (Z.min 32 size_));
    match attr with
    | Some attr =>
        tprint_struct_begin ;;
        PRINT_FIELD_FLAGS "attr_set" (fu 8 0 attr) (xlat_of "mount_attr_attr") (Some "MOUNT_ATTR_???"%string) ;;
        tprint_struct_next ;;
        PRINT_FIELD_FLAGS "attr_clr" (fu 8 8 attr) (xlat_of "mount_attr_attr") (Some "MOUNT_ATTR_???"%string) ;;
        tprint_struct_next ;;
        PRINT_FIELD_XVAL "propagation" (fu 8 16 attr) (xlat_of "mount_attr_propagation") (Some "MS_???"%string) ;;
        tprint_struct_next ;;
        (if ((INT_MAX <? (fu 8 24 attr)) || ((Z.land (Z.lor (fu 8 0 attr) (fu 8 8 attr)) MOUNT_ATTR_IDMAP) =? 0)) then
          PRINT_FIELD_U "userns_fd" (fu 8 24 attr)
        else
          tprints_field_name "userns_fd" ;; printfd tcp (fu 8 24 attr) ;;
          nothing) ;;
        (if (32 <? size_) then
          print_nonzero_bytes tcp addr 32 (Z.min size_ get_pagesize) QUOTE_FORCE_HEX
        else
          nothing) ;;
        tprint_struct_end
    | None =>
        nothing
    end.

Definition decode_dfd_file_flags (tcp : dtcb St) (dirfd : Z) (fname : Z) (x : xlat) (flags_ : Z) (dflt : option string) : D St () :=
  tprints_arg_name "dirfd" ;;
  print_dirfd tcp dirfd ;;
  tprints_arg_next_name "pathname" ;;
  printpath tcp fname ;;
  tprints_arg_next_name "flags" ;;
  printflags x flags_ dflt ;;
  nothing.

Definition decode_dfd_file_flags_attr (tcp : dtcb St) (dirfd : Z) (fname : Z) (x : xlat) (flags_ : Z) (dflt : option string) (attr : Z) (attr_size : Z) : D St () :=
  decode_dfd_file_flags tcp dirfd fname x flags_ dflt ;;
  tprints_arg_next_name "attr" ;;
  print_mount_attr tcp attr attr_size ;;
  tprints_arg_next_name "size" ;;
  PRINT_VAL_U attr_size.

Definition sys_mount_setattr (tcp : dtcb St) : D St Z :=
  decode_dfd_file_flags_attr tcp (int (u_arg tcp 0)) (u_arg tcp 1) (xlat_of "mount_setattr_flags") (uint 32 (u_arg tcp 2)) (Some "AT_???"%string) (u_arg tcp 3) (u_arg tcp 4) ;;
  mret RVAL_DECODED.

Definition sys_open_tree (tcp : dtcb St) : D St Z :=
  decode_dfd_file_flags tcp (int (u_arg tcp 0)) (u_arg tcp 1) (xlat_of "open_tree_flags") (uint 32 (u_arg tcp 2)) (Some "OPEN_TREE_???"%string) ;;
  mret (Z.lor RVAL_DECODED RVAL_FD).

Definition sys_open_tree_attr (tcp : dtcb St) : D St Z :=
  decode_dfd_file_flags_attr tcp (int (u_arg tcp 0)) (u_arg tcp 1) (xlat_of "open_tree_flags") (uint 32 (u_arg tcp 2)) (Some "OPEN_TREE_???"%string) (u_arg tcp 3) (u_arg tcp 4) ;;
  mret (Z.lor RVAL_DECODED RVAL_FD).

(** ** src/fchownat.c *)

Definition sys_fchownat (tcp : dtcb St) : D St Z :=
  tprints_arg_name "dirfd" ;;
  print_dirfd tcp (u_arg tcp 0) ;;
  tprints_arg_next_name "pathname" ;;
  printpath tcp (u_arg tcp 1) ;;
  tprints_arg_next_name "owner" ;;
  printuid (uint 32 (u_arg tcp 2)) ;;
  tprints_arg_next_name "group" ;;
  printuid (uint 32 (u_arg tcp 3)) ;;
  tprints_arg_next_name "flags" ;;
  printflags (xlat_of "at_flags") (u_arg tcp 4) (Some "AT_???"%string) ;;
  mret RVAL_DECODED.

(** ** src/utime.c *)

Definition sys_utime (tcp : dtcb St) : D St Z :=
  tprints_arg_name "filename" ;;
  printpath tcp (u_arg tcp 0) ;;
  tprints_arg_next_name "times" ;;
  (u ← umoven_or_printaddr tcp (u_arg tcp 1) (2 * current_klongsize);
  match u with
  | Some u =>
      tprint_struct_begin ;;
      PRINT_FIELD_D "actime" (fs current_klongsize 0 u) ;;
      tprints_comment (sprinttime_ex (fs current_klongsize 0 u) 0 0 0) ;;
      tprint_struct_next ;;
      PRINT_FIELD_D "modtime" (fs current_klongsize current_klongsize u) ;;
      tprints_comment (sprinttime_ex (fs current_klongsize current_klongsize u) 0 0 0) ;;
      tprint_struct_end
  | None =>
      nothing
  end) ;;
  mret RVAL_DECODED.

(** ** src/utimes.c *)

Definition sys_utimes (tcp : dtcb St) : D St Z :=
  tprints_arg_name "pathname" ;;
  printpath tcp (u_arg tcp 0) ;;
  tprints_arg_next_name "times" ;;
  other tcp "print_timeval_utimes" [(u_arg tcp 1)] ;;
  mret RVAL_DECODED.

Definition sys_futimesat (tcp : dtcb St) : D St Z :=
  tprints_arg_name "dirfd" ;;
  print_dirfd tcp (u_arg tcp 0) ;;
  tprints_arg_next_name "pathname" ;;
  printpath tcp (u_arg tcp 1) ;;
  tprints_arg_next_name "times" ;;
  other tcp "print_timeval_utimes" [(u_arg tcp 2)] ;;
  mret RVAL_DECODED.

Definition do_utimensat (tcp : dtcb St) (print_ts : dtcb St -> Z -> D St Z) : D St Z :=
  tprints_arg_name "dirfd" ;;
  print_dirfd tcp (u_arg tcp 0) ;;
  tprints_arg_next_name "pathname" ;;
  printpath tcp (u_arg tcp 1) ;;
  tprints_arg_next_name "times" ;;
  print_ts tcp (u_arg tcp 2) ;;
  tprints_arg_next_name "flags" ;;
  printflags (xlat_of "at_flags") (u_arg tcp 3) (Some "AT_???"%string) ;;
  mret RVAL_DECODED.

Definition sys_utimensat_time32 (tcp : dtcb St) : D St Z :=
  do_utimensat tcp (fun tcp addr => other tcp "print_timespec32_utime_pair" [addr]).

Definition sys_utimensat_time64 (tcp : dtcb St) : D St Z :=
  do_utimensat tcp (fun tcp addr => other tcp "print_timespec64_utime_pair" [addr]).

(** ** src/file_attr.c *)

Definition decode_dirfd_pathname (tcp : dtcb St) : D St () :=
  tprints_arg_name "dirfd" ;;
  print_dirfd tcp (u_arg tcp 0) ;;
  tprints_arg_next_name "pathname" ;;
  printpath tcp (u_arg tcp 1) ;;
  nothing.

Definition decode_flags (tcp : dtcb St) : D St () :=
  tprints_arg_next_name "flags" ;;
  printflags (xlat_of "file_attr_flags") (u_arg tcp 4) (Some "AT_???"%string) ;;
  nothing.

(** struct file_attr: fa_xflags, fa_extsize, fa_nextents, fa_projid, fa_cowextsize. *)
Definition decode_file_attr (tcp : dtcb St) (is_get : bool) : D St () :=
  let addr := u_arg tcp 2 in
  let usize := u_arg tcp 3 in
  let page_size := get_pagesize in
  let fetch_size := Z.min 24 usize in
  tprints_arg_next_name "attr" ;;
  (if (fetch_size <? FILE_ATTR_SIZE_VER0) || (page_size <? usize) then printaddr addr
   else
     fa ← umoven_or_printaddr tcp addr fetch_size;
     match fa with
     | None => nothing
     | Some fa =>
         tprint_struct_begin ;;
         PRINT_FIELD_FLAGS "fa_xflags" (fu 8 0 fa) (xlat_of "fs_xflags") (Some "FS_XFLAG_???"%string) ;;
         tprint_struct_next ;;
         PRINT_FIELD_U "fa_extsize" (fu 4 8 fa) ;;
         (if is_get then tprint_struct_next ;; PRINT_FIELD_U "fa_nextents" (fu 4 12 fa) else nothing) ;;
         tprint_struct_next ;;
         PRINT_FIELD_X "fa_projid" (fu 4 16 fa) ;;
         tprint_struct_next ;;
         PRINT_FIELD_U "fa_cowextsize" (fu 4 20 fa) ;;
         (if FILE_ATTR_SIZE_VER0 <? usize
          then print_nonzero_bytes tcp addr FILE_ATTR_SIZE_VER0 usize QUOTE_FORCE_HEX else nothing) ;;
         tprint_struct_end
     end) ;;
  tprints_arg_next_name "size" ;;
  PRINT_VAL_U usize.

Definition sys_file_getattr (tcp : dtcb St) : D St Z :=
  (if (entering tcp) then
    decode_dirfd_pathname tcp
  else
    decode_file_attr tcp true ;;
    decode_flags tcp) ;;
  mret 0.

Definition sys_file_setattr (tcp : dtcb St) : D St Z :=
  decode_dirfd_pathname tcp ;;
  decode_file_attr tcp false ;;
  decode_flags tcp ;;
  mret RVAL_DECODED.

(** ** src/file_handle.c *)

Definition print_f_handle (tcp : dtcb St) (addr handle_bytes : Z) : D St () :=
  let len := Z.min handle_bytes MAX_HANDLE_SZ in
  let addr := uint 64 (addr + 8) in
  f_handle ← (if 8 <? addr then umoven tcp addr len else mret None);
  match f_handle with
  | Some f_handle =>
      print_quoted_string f_handle len QUOTE_FORCE_HEX ;;
      (if len <? handle_bytes then tprint_more_data_follows else nothing)
  | None => tprint_unavailable
  end.

Definition sys_name_to_handle_at (tcp : dtcb St) : D St Z :=
  let addr := u_arg tcp 2 in
  if entering tcp then
    tprints_arg_name "dirfd" ;;
    print_dirfd tcp (u_arg tcp 0) ;;
    tprints_arg_next_name "pathname" ;;
    printpath tcp (u_arg tcp 1) ;;
    tprints_arg_next_name "handle" ;;
    h ← umoven_or_printaddr tcp addr 8;
    match h with
    | None =>
        tprints_arg_next_name "mount_id" ;;
        printaddr (u_arg tcp 3) ;;
        tprints_arg_next_name "flags" ;;
        printflags (xlat_of "name_to_handle_at_flags") (u_arg tcp 4) (Some "AT_???"%string) ;;
        mret RVAL_DECODED
    | Some h =>
        tprint_struct_begin ;;
        PRINT_FIELD_U "handle_bytes" (fu 4 0 h) ;;
        set_tcb_priv_ulong (fu 4 0 h) ;;
        mret 0
    end
  else
    h ← (if negb (syserror tcp) || (EOVERFLOW =? u_error tcp) then umoven tcp addr 8 else mret None);
    (match h with
     | None => nothing
     | Some h =>
         old ← get_tcb_priv_ulong;
         (if negb (fu 4 0 h =? old) then tprint_value_changed ;; PRINT_VAL_U (fu 4 0 h) else nothing) ;;
         (if negb (syserror tcp) then
            tprint_struct_next ;;
            PRINT_FIELD_D "handle_type" (fs 4 4 h) ;;
            tprint_struct_next ;;
            tprints_field_name "f_handle" ;;
            print_f_handle tcp addr (fu 4 0 h)
          else nothing)
     end) ;;
    tprint_struct_end ;;
    tprints_arg_next_name "mount_id" ;;
    printnum 4 FmtD tcp (u_arg tcp 3) ;;
    tprints_arg_next_name "flags" ;;
    printflags (xlat_of "name_to_handle_at_flags") (u_arg tcp 4) (Some "AT_???"%string) ;;
    mret 0.

Definition sys_open_by_handle_at (tcp : dtcb St) : D St Z :=
  let addr := (u_arg tcp 1) in
  tprints_arg_name "mount_fd" ;;
  printfd tcp (u_arg tcp 0) ;;
  tprints_arg_next_name "handle" ;;
  (h ← umoven_or_printaddr tcp addr 8;
  match h with
  | Some h =>
      tprint_struct_begin ;;
      PRINT_FIELD_U "handle_bytes" (fu 4 0 h) ;;
      tprint_struct_next ;;
      PRINT_FIELD_D "handle_type" (fs 4 4 h) ;;
      tprint_struct_next ;;
      tprints_field_name "f_handle" ;;
      print_f_handle tcp addr (fu 4 0 h) ;;
      tprint_struct_end
  | None =>
      nothing
  end) ;;
  tprints_arg_next_name "flags" ;;
  tprint_open_modes (uint 32 (u_arg tcp 2)) ;;
  mret (Z.lor RVAL_DECODED RVAL_FD).

(** ** src/getcwd.c *)

Definition sys_getcwd (tcp : dtcb St) : D St Z :=
  (if (exiting tcp) then
    tprints_arg_name "buf" ;;
    (if (syserror tcp) then
      printaddr (u_arg tcp 0)
    else
      printpathn tcp (u_arg tcp 0) (u_rval tcp) ;;
      nothing) ;;
    tprints_arg_next_name "size" ;;
    PRINT_VAL_U (u_arg tcp 1)
  else
    nothing) ;;
  mret 0.

(** ** src/inotify.c *)

Definition sys_inotify_add_watch (tcp : dtcb St) : D St Z :=
  tprints_arg_name "fd" ;;
  printfd tcp (u_arg tcp 0) ;;
  tprints_arg_next_name "pathname" ;;
  printpath tcp (u_arg tcp 1) ;;
  tprints_arg_next_name "mask" ;;
  printflags (xlat_of "inotify_flags") (u_arg tcp 2) (Some "IN_???"%string) ;;
  mret RVAL_DECODED.

Definition sys_inotify_rm_watch (tcp : dtcb St) : D St Z :=
  tprints_arg_name "fd" ;;
  printfd tcp (u_arg tcp 0) ;;
  tprints_arg_next_name "wd" ;;
  PRINT_VAL_D (int (u_arg tcp 1)) ;;
  mret RVAL_DECODED.

Definition sys_inotify_init (tcp : dtcb St) : D St Z :=
  mret (Z.lor RVAL_DECODED RVAL_FD).

Definition sys_inotify_init1 (tcp : dtcb St) : D St Z :=
  tprints_arg_name "flags" ;;
  printflags (xlat_of "inotify_init_flags") (u_arg tcp 0) (Some "IN_???"%string) ;;
  mret (Z.lor RVAL_DECODED RVAL_FD).

(** ** src/fanotify.c *)

Definition sys_fanotify_init (tcp : dtcb St) : D St Z :=
  tprints_arg_name "flags" ;;
  let flags_ := (uint 32 (u_arg tcp 0)) in
  tprint_flags_begin ;;
  printxval (xlat_of "fan_classes") (Z.land flags_ FAN_ALL_CLASS_BITS) (Some "FAN_CLASS_???"%string) ;;
  let flags_ := (Z.land flags_ (Z.lnot FAN_ALL_CLASS_BITS)) in
  (if (negb (flags_ =? 0)) then
    tprint_flags_or ;;
    printflags_in (xlat_of "fan_init_flags") flags_ (Some "FAN_???"%string) ;;
    nothing
  else
    nothing) ;;
  tprint_flags_end ;;
  tprints_arg_next_name "event_f_flags" ;;
  tprint_open_modes (uint 32 (u_arg tcp 1)) ;;
  mret (Z.lor RVAL_DECODED RVAL_FD).

Definition sys_fanotify_mark (tcp : dtcb St) : D St Z :=
  tprints_arg_name "fanotify_fd" ;;
  printfd tcp (u_arg tcp 0) ;;
  tprints_arg_next_name "flags" ;;
  printflags (xlat_of "fan_mark_flags") (u_arg tcp 1) (Some "FAN_MARK_???"%string) ;;
  tprints_arg_next_name "mask" ;;
  let '(mask, argn) := getllval tcp 2 in
  printflags64 (xlat_of "fan_event_flags") mask (Some "FAN_???"%string) ;;
  tprints_arg_next_name "dirfd" ;;
  (if int (u_arg tcp argn) =? FAN_NOFD then print_xlat_d FAN_NOFD "FAN_NOFD" else print_dirfd tcp (u_arg tcp argn)) ;;
  tprints_arg_next_name "pathname" ;;
  printpath tcp (u_arg tcp (argn + 1)) ;;
  mret RVAL_DECODED.

(** ** src/flock.c *)

Definition sys_flock (tcp : dtcb St) : D St Z :=
  tprints_arg_name "fd" ;;
  printfd tcp (u_arg tcp 0) ;;
  tprints_arg_next_name "op" ;;
  printflags (xlat_of "flockcmds") (u_arg tcp 1) (Some "LOCK_???"%string) ;;
  mret RVAL_DECODED.

(** ** src/fallocate.c *)

Definition sys_fallocate (tcp : dtcb St) : D St Z :=
  tprints_arg_name "fd" ;;
  printfd tcp (u_arg tcp 0) ;;
  tprints_arg_next_name "mode" ;;
  printflags (xlat_of "falloc_flags") (u_arg tcp 1) (Some "FALLOC_FL_???"%string) ;;
  tprints_arg_next_name "offset" ;;
  argn ← print_arg_lld tcp 2;
  tprints_arg_next_name "len" ;;
  print_arg_lld tcp argn ;;
  mret RVAL_DECODED.

(** ** src/fadvise.c *)

Definition sys_fadvise64 (tcp : dtcb St) : D St Z :=
  tprints_arg_name "fd" ;;
  printfd tcp (u_arg tcp 0) ;;
  tprints_arg_next_name "offset" ;;
  argn ← print_arg_lld tcp 1;
  tprints_arg_next_name "len" ;;
  PRINT_VAL_U (u_arg tcp argn) ;;
  tprints_arg_next_name "advice" ;;
  printxval (xlat_of "advise") (u_arg tcp (argn + 1)) (Some "POSIX_FADV_???"%string) ;;
  mret RVAL_DECODED.

Definition sys_fadvise64_64 (tcp : dtcb St) : D St Z :=
  tprints_arg_name "fd" ;;
  printfd tcp (u_arg tcp 0) ;;
  tprints_arg_next_name "offset" ;;
  argn ← print_arg_lld tcp 1;
  tprints_arg_next_name "len" ;;
  argn ← print_arg_lld tcp argn;
  tprints_arg_next_name "advice" ;;
  printxval (xlat_of "advise") (u_arg tcp argn) (Some "POSIX_FADV_???"%string) ;;
  mret RVAL_DECODED.

(** ** src/lseek.c *)

Definition sys_lseek (tcp : dtcb St) : D St Z :=
  tprints_arg_name "fd" ;;
  printfd tcp (u_arg tcp 0) ;;
  let offset := if current_klongsize <? 8 then int (u_arg tcp 1) else sint 64 (u_arg tcp 1) in
  tprints_arg_next_name "offset" ;;
  PRINT_VAL_D offset ;;
  tprints_arg_next_name "whence" ;;
  printxval (xlat_of "whence_codes") (u_arg tcp 2) (Some "SEEK_???"%string) ;;
  mret RVAL_DECODED.

Definition sys_llseek (tcp : dtcb St) : D St Z :=
  (if (entering tcp) then
    tprints_arg_name "fd" ;;
    printfd tcp (u_arg tcp 0) ;;
    let offset := (Z.lor (sint 64 (Z.shiftl (sint 64 (u_arg tcp 1)) 32)) (sint 64 (u_arg tcp 2))) in
    tprints_arg_next_name "offset" ;;
    PRINT_VAL_D offset
  else
    tprints_arg_next_name "result" ;;
    printnum 8 FmtU tcp (u_arg tcp 3) ;;
    tprints_arg_next_name "whence" ;;
    printxval (xlat_of "whence_codes") (u_arg tcp 4) (Some "SEEK_???"%string)) ;;
  mret 0.

(** ** src/copy_file_range.c *)

Definition sys_copy_file_range (tcp : dtcb St) : D St Z :=
  tprints_arg_name "fd_in" ;;
  printfd tcp (u_arg tcp 0) ;;
  tprints_arg_next_name "off_in" ;;
  printnum 8 FmtD tcp (u_arg tcp 1) ;;
  tprints_arg_next_name "fd_out" ;;
  printfd tcp (u_arg tcp 2) ;;
  tprints_arg_next_name "off_out" ;;
  printnum 8 FmtD tcp (u_arg tcp 3) ;;
  tprints_arg_next_name "len" ;;
  PRINT_VAL_U (u_arg tcp 4) ;;
  tprints_arg_next_name "flags" ;;
  let flags_ := (uint 32 (u_arg tcp 5)) in
  PRINT_VAL_U flags_ ;;
  mret RVAL_DECODED.

(** ** src/sendfile.c *)

Definition sys_sendfile64 (tcp : dtcb St) : D St Z :=
  if entering tcp then
    tprints_arg_name "out_fd" ;;
    printfd tcp (u_arg tcp 0) ;;
    tprints_arg_next_name "in_fd" ;;
    printfd tcp (u_arg tcp 1) ;;
    tprints_arg_next_name "offset" ;;
    offset ← umoven_or_printaddr tcp (u_arg tcp 2) 8;
    match offset with
    | None =>
        tprints_arg_next_name "count" ;;
        PRINT_VAL_U (u_arg tcp 3) ;;
        mret RVAL_DECODED
    | Some b =>
        if u_arg tcp 3 =? 0 then
          tprint_indirect_begin ;;
          PRINT_VAL_U (fu 8 0 b) ;;
          tprint_indirect_end ;;
          tprints_arg_next_name "count" ;;
          PRINT_VAL_U (u_arg tcp 3) ;;
          mret RVAL_DECODED
        else
          tprint_indirect_begin ;;
          PRINT_VAL_U (fu 8 0 b) ;;
          mret 0
    end
  else
    offset ← (if negb (syserror tcp) && negb (u_rval tcp =? 0) then umoven tcp (u_arg tcp 2) 8 else mret None);
    (match offset with
     | Some b => tprint_value_changed ;; PRINT_VAL_U (fu 8 0 b)
     | None => nothing
     end) ;;
    tprint_indirect_end ;;
    tprints_arg_next_name "count" ;;
    PRINT_VAL_U (u_arg tcp 3) ;;
    mret 0.

Definition sys_sendfile (tcp : dtcb St) : D St Z :=
  if entering tcp then
    tprints_arg_name "out_fd" ;;
    printfd tcp (u_arg tcp 0) ;;
    tprints_arg_next_name "in_fd" ;;
    printfd tcp (u_arg tcp 1) ;;
    tprints_arg_next_name "offset" ;;
    offset ← umoven_to_uint64_or_printaddr tcp (u_arg tcp 2) current_wordsize;
    match offset with
    | None =>
        tprints_arg_next_name "count" ;;
        PRINT_VAL_U (u_arg tcp 3) ;;
        mret RVAL_DECODED
    | Some b =>
        if u_arg tcp 3 =? 0 then
          tprint_indirect_begin ;;
          PRINT_VAL_U (b) ;;
          tprint_indirect_end ;;
          tprints_arg_next_name "count" ;;
          PRINT_VAL_U (u_arg tcp 3) ;;
          mret RVAL_DECODED
        else
          tprint_indirect_begin ;;
          PRINT_VAL_U (b) ;;
          mret 0
    end
  else
    offset ← (if negb (syserror tcp) && negb (u_rval tcp =? 0) then tfetch_to_uint64 tcp (u_arg tcp 2) current_wordsize else mret None);
    (match offset with
     | Some b => tprint_value_changed ;; PRINT_VAL_U (b)
     | None => nothing
     end) ;;
    tprint_indirect_end ;;
    tprints_arg_next_name "count" ;;
    PRINT_VAL_U (u_arg tcp 3) ;;
    mret 0.

(** ** src/sync_file_range.c *)

Definition sys_sync_file_range (tcp : dtcb St) : D St Z :=
  tprints_arg_name "fd" ;;
  printfd tcp (u_arg tcp 0) ;;
  tprints_arg_next_name "offset" ;;
  argn ← print_arg_lld tcp 1;
  tprints_arg_next_name "nbytes" ;;
  argn ← print_arg_lld tcp argn;
  tprints_arg_next_name "flags" ;;
  printflags (xlat_of "sync_file_range_flags") (u_arg tcp argn) (Some "SYNC_FILE_RANGE_???"%string) ;;
  mret RVAL_DECODED.

(** ** src/sync_file_range2.c *)

Definition sys_sync_file_range2 (tcp : dtcb St) : D St Z :=
  tprints_arg_name "fd" ;;
  printfd tcp (u_arg tcp 0) ;;
  tprints_arg_next_name "flags" ;;
  printflags (xlat_of "sync_file_range_flags") (u_arg tcp 1) (Some "SYNC_FILE_RANGE_???"%string) ;;
  tprints_arg_next_name "offset" ;;
  argn ← print_arg_lld tcp 2;
  tprints_arg_next_name "nbytes" ;;
  print_arg_lld tcp argn ;;
  mret RVAL_DECODED.

(** ** src/swapon.c *)

Definition sys_swapon (tcp : dtcb St) : D St Z :=
  let flags_ := (uint 32 (u_arg tcp 1)) in
  let prio_ := (Z.land flags_ SWAP_FLAG_PRIO_MASK) in
  let flags_ := (Z.land flags_ (Z.lnot SWAP_FLAG_PRIO_MASK)) in
  tprints_arg_name "path" ;;
  printpath tcp (u_arg tcp 0) ;;
  tprints_arg_next_name "swapflags" ;;
  tprint_flags_begin ;;
  (if (negb (flags_ =? 0)) then
    printflags_in (xlat_of "swap_flags") flags_ (Some "SWAP_FLAG_???"%string) ;;
    tprint_flags_or
  else
    nothing) ;;
  PRINT_VAL_U prio_ ;;
  tprint_flags_end ;;
  mret RVAL_DECODED.

(** ** src/readahead.c *)

Definition sys_readahead (tcp : dtcb St) : D St Z :=
  tprints_arg_name "fd" ;;
  printfd tcp (u_arg tcp 0) ;;
  tprints_arg_next_name "offset" ;;
  argn ← print_arg_lld tcp 1;
  tprints_arg_next_name "count" ;;
  PRINT_VAL_U (u_arg tcp argn) ;;
  mret RVAL_DECODED.

(** ** src/dup.c *)

Definition dup_123 (tcp : dtcb St) (newfd_arg : Z) (flags_arg : Z) : D St Z :=
  tprints_arg_name "oldfd" ;;
  printfd tcp (u_arg tcp 0) ;;
  (if (0 <? newfd_arg) then
    tprints_arg_next_name "newfd" ;;
    printfd tcp (u_arg tcp newfd_arg) ;;
    (if (0 <? flags_arg) then
      tprints_arg_next_name "flags" ;;
      printflags (xlat_of "open_mode_flags") (u_arg tcp flags_arg) (Some "O_???"%string) ;;
      nothing
    else
      nothing)
  else
    nothing) ;;
  mret (Z.lor RVAL_DECODED RVAL_FD).

Definition sys_dup (tcp : dtcb St) : D St Z :=
  dup_123 tcp (- 1) (- 1).

Definition sys_dup2 (tcp : dtcb St) : D St Z :=
  dup_123 tcp 1 (- 1).

Definition sys_dup3 (tcp : dtcb St) : D St Z :=
  dup_123 tcp 1 2.

(** ** src/close_range.c *)

Definition sys_close_range (tcp : dtcb St) : D St Z :=
  tprints_arg_name "first" ;;
  PRINT_VAL_U (uint 32 (u_arg tcp 0)) ;;
  tprints_arg_next_name "last" ;;
  PRINT_VAL_U (uint 32 (u_arg tcp 1)) ;;
  tprints_arg_next_name "flags" ;;
  printflags (xlat_of "close_range_flags") (u_arg tcp 2) (Some "CLOSE_RANGE_???"%string) ;;
  mret RVAL_DECODED.

(** ** src/lookup_dcookie.c *)

Definition sys_lookup_dcookie (tcp : dtcb St) : D St Z :=
  if (entering tcp) then
    mret 0
  else
    tprints_arg_name "cookie" ;;
    argn ← print_arg_llu tcp 0;
    tprints_arg_next_name "buffer" ;;
    (if (syserror tcp) then
      printaddr (u_arg tcp argn)
    else
      printstrn tcp (u_arg tcp argn) (uint 64 (u_rval tcp)) ;;
      nothing) ;;
    tprints_arg_next_name "len" ;;
    PRINT_VAL_U (u_arg tcp (uint 32 (argn + 1))) ;;
    mret 0.

(** ** src/memfd_create.c *)

Definition sys_memfd_create (tcp : dtcb St) : D St Z :=
  tprints_arg_name "name" ;;
  printstr_ex tcp (u_arg tcp 0) (MFD_NAME_MAX_LEN + 1) QUOTE_0_TERMINATED ;;
  tprints_arg_next_name "flags" ;;
  let flags := uint 32 (u_arg tcp 1) in
  (if (flags =? 0) || negb (xlat_verbose xlat_verbosity =? XLAT_STYLE_ABBREV) then PRINT_VAL_X flags else nothing) ;;
  if (flags =? 0) || (xlat_verbose xlat_verbosity =? XLAT_STYLE_RAW) then mret (Z.lor RVAL_DECODED RVAL_FD)
  else
    (if xlat_verbose xlat_verbosity =? XLAT_STYLE_VERBOSE then tprint_comment_begin else nothing) ;;
    let mask := Z.shiftl MFD_HUGE_MASK MFD_HUGE_SHIFT in
    let hugetlb_value := Z.land flags mask in
    let flags := Z.land flags (Z.lnot mask) in
    tprint_flags_begin ;;
    (if negb (flags =? 0) || (hugetlb_value =? 0)
     then printflags_ex flags (Some "MFD_???"%string) XLAT_STYLE_ABBREV (xlat_of "memfd_create_flags") ;; nothing else nothing) ;;
    (if negb (hugetlb_value =? 0) then
       (if negb (flags =? 0) then tprint_flags_or else nothing) ;;
       tprint_shift_begin ;;
       PRINT_VAL_U (Z.shiftr hugetlb_value MFD_HUGE_SHIFT) ;;
       tprint_shift ;;
       tprints_string "MFD_HUGE_SHIFT" ;;
       tprint_shift_end
     else nothing) ;;
    tprint_flags_end ;;
    (if xlat_verbose xlat_verbosity =? XLAT_STYLE_VERBOSE then tprint_comment_end else nothing) ;;
    mret (Z.lor RVAL_DECODED RVAL_FD).

(** ** src/memfd_secret.c *)

Definition sys_memfd_secret (tcp : dtcb St) : D St Z :=
  let flags_ := (uint 32 (u_arg tcp 0)) in
  tprints_arg_name "flags" ;;
  printflags (xlat_of "memfd_secret_flags") flags_ (Some ""%string) ;;
  mret (Z.lor RVAL_DECODED RVAL_FD).

(** ** src/listmount.c *)

(** struct mnt_id_req: size, mnt_ns_fd, mnt_id, param, mnt_ns_id. *)
Definition print_mnt_id_req (tcp : dtcb St) (addr : Z) : D St () :=
  req ← umoven_or_printaddr tcp addr 4;
  match req with
  | None => nothing
  | Some req =>
      let size := fu 4 0 req in
      tprint_struct_begin ;;
      PRINT_FIELD_U "size" size ;;
      if size <? MNT_ID_REQ_SIZE_VER0 then tprint_struct_end
      else
        req ← umoven tcp addr (Z.min 32 size);
        match req with
        | None => tprint_struct_next ;; tprint_unavailable ;; tprint_struct_end
        | Some req =>
            tprint_struct_next ;;
            tprints_field_name "mnt_ns_fd" ;; printfd tcp (fu 4 4 req) ;;
            tprint_struct_next ;;
            PRINT_FIELD_XVAL "mnt_id" (fu 8 8 req) (xlat_of "listmount_mnt_id") None ;;
            tprint_struct_next ;;
            PRINT_FIELD_X "param" (fu 8 16 req) ;;
            (if 32 <=? size then tprint_struct_next ;; PRINT_FIELD_X "mnt_ns_id" (fu 8 24 req) else nothing) ;;
            (if MNT_ID_REQ_SIZE_VER1 <? size
             then print_nonzero_bytes tcp addr MNT_ID_REQ_SIZE_VER1 (Z.min size get_pagesize) QUOTE_FORCE_HEX else nothing) ;;
            tprint_struct_end
        end
  end.

Definition sys_listmount (tcp : dtcb St) : D St Z :=
  let req := u_arg tcp 0 in
  let mnt_ids := u_arg tcp 1 in
  let nr_mnt_ids := u_arg tcp 2 in
  let flags := uint 32 (u_arg tcp 3) in
  if entering tcp then tprints_arg_name "req" ;; print_mnt_id_req tcp req ;; mret 0
  else
    tprints_arg_next_name "mnt_ids" ;;
    print_array tcp mnt_ids (Z.min (uint 64 nr_mnt_ids) (uint 64 (u_rval tcp))) 8 (print_xint_array_member 8) ;;
    tprints_arg_next_name "nr_mnt_ids" ;;
    PRINT_VAL_U nr_mnt_ids ;;
    tprints_arg_next_name "flags" ;;
    printflags (xlat_of "listmount_flags") flags (Some "LISTMOUNT_???"%string) ;;
    mret 0.

(** ** src/cachestat.c *)

Definition sys_cachestat (tcp : dtcb St) : D St Z :=
  let fd := (int (u_arg tcp 0)) in
  let range_addr := (u_arg tcp 1) in
  let stat_addr := (u_arg tcp 2) in
  let flags_ := (uint 32 (u_arg tcp 3)) in
  (if (entering tcp) then
    tprints_arg_name "fd" ;;
    printfd tcp fd ;;
    tprints_arg_next_name "cstat_range" ;;
    (crange ← umoven_or_printaddr tcp range_addr 16;
    match crange with
    | Some crange =>
        tprint_struct_begin ;;
        PRINT_FIELD_X "off" (fu 8 0 crange) ;;
        tprint_struct_next ;;
        PRINT_FIELD_U "len" (fu 8 8 crange) ;;
        tprint_struct_end
    | None =>
        nothing
    end)
  else
    tprints_arg_next_name "cstat" ;;
    (cstat ← umoven_or_printaddr tcp stat_addr 40;
    match cstat with
    | Some cstat =>
        tprint_struct_begin ;;
        PRINT_FIELD_U "nr_cache" (fu 8 0 cstat) ;;
        tprint_struct_next ;;
        PRINT_FIELD_U "nr_dirty" (fu 8 8 cstat) ;;
        tprint_struct_next ;;
        PRINT_FIELD_U "nr_writeback" (fu 8 16 cstat) ;;
        tprint_struct_next ;;
        PRINT_FIELD_U "nr_evicted" (fu 8 24 cstat) ;;
        tprint_struct_next ;;
        PRINT_FIELD_U "nr_recently_evicted" (fu 8 32 cstat) ;;
        tprint_struct_end
    | None =>
        nothing
    end) ;;
    tprints_arg_next_name "flags" ;;
    PRINT_VAL_X flags_) ;;
  mret 0.

(** ** src/eventfd.c *)

Definition do_eventfd (tcp : dtcb St) (flags_arg : Z) : D St Z :=
  tprints_arg_name "initval" ;;
  let initval := (uint 32 (u_arg tcp 0)) in
  PRINT_VAL_U initval ;;
  (if (0 <=? flags_arg) then
    tprints_arg_next_name "flags" ;;
    printflags (xlat_of "efd_flags") (u_arg tcp flags_arg) (Some "EFD_???"%string) ;;
    nothing
  else
    nothing) ;;
  mret (Z.lor RVAL_DECODED RVAL_FD).

Definition sys_eventfd (tcp : dtcb St) : D St Z :=
  do_eventfd tcp (- 1).

Definition sys_eventfd2 (tcp : dtcb St) : D St Z :=
  do_eventfd tcp 1.

(** ** src/signalfd.c *)

Definition do_signalfd (tcp : dtcb St) (flags_arg : Z) : D St Z :=
  tprints_arg_name "fd" ;;
  printfd tcp (u_arg tcp 0) ;;
  tprints_arg_next_name "mask" ;;
  other tcp "print_sigset_addr_len" [(u_arg tcp 1); (u_arg tcp 2)] ;;
  tprints_arg_next_name "sizemask" ;;
  PRINT_VAL_U (u_arg tcp 2) ;;
  (if (0 <=? flags_arg) then
    tprints_arg_next_name "flags" ;;
    printflags (xlat_of "sfd_flags") (u_arg tcp flags_arg) (Some "SFD_???"%string) ;;
    nothing
  else
    nothing) ;;
  mret (Z.lor RVAL_DECODED RVAL_FD).

Definition sys_signalfd (tcp : dtcb St) : D St Z :=
  do_signalfd tcp (- 1).

Definition sys_signalfd4 (tcp : dtcb St) : D St Z :=
  do_signalfd tcp 3.

(** ** src/epoll.c *)

Definition sys_epoll_create (tcp : dtcb St) : D St Z :=
  tprints_arg_name "size" ;;
  let size_ := (int (u_arg tcp 0)) in
  PRINT_VAL_D size_ ;;
  mret (Z.lor RVAL_DECODED RVAL_FD).

Definition sys_epoll_create1 (tcp : dtcb St) : D St Z :=
  tprints_arg_name "flags" ;;
  printflags (xlat_of "epollflags") (u_arg tcp 0) (Some "EPOLL_???"%string) ;;
  mret (Z.lor RVAL_DECODED RVAL_FD).

(** struct epoll_event: events, data; packed. *)
Definition print_epoll_event (ev : list Z) : D St bool :=
  tprint_struct_begin ;;
  PRINT_FIELD_FLAGS "events" (fu 4 0 ev) (xlat_of "epollevents") (Some "EPOLL???"%string) ;;
  tprint_struct_next ;;
  PRINT_FIELD_X "data" (fu 8 4 ev) ;;
  tprint_struct_end ;;
  mret true.

Definition sys_epoll_ctl (tcp : dtcb St) : D St Z :=
  tprints_arg_name "epfd" ;;
  printfd tcp (u_arg tcp 0) ;;
  tprints_arg_next_name "op" ;;
  let op := uint 32 (u_arg tcp 1) in
  printxval (xlat_of "epollctls") op (Some "EPOLL_CTL_???"%string) ;;
  tprints_arg_next_name "fd" ;;
  printfd tcp (u_arg tcp 2) ;;
  tprints_arg_next_name "event" ;;
  (if EPOLL_CTL_DEL =? op then printaddr (u_arg tcp 3)
   else
     ev ← umoven_or_printaddr tcp (u_arg tcp 3) 12;
     match ev with Some ev => print_epoll_event ev ;; nothing | None => nothing end) ;;
  mret RVAL_DECODED.

Definition epoll_wait_common (tcp : dtcb St) (print_timeout : dtcb St -> Z -> D St Z) : D St () :=
  if entering tcp then
    tprints_arg_name "epfd" ;;
    printfd tcp (u_arg tcp 0)
  else
    tprints_arg_next_name "events" ;;
    print_array tcp (u_arg tcp 1) (uint 64 (u_rval tcp)) 12 print_epoll_event ;;
    tprints_arg_next_name "maxevents" ;;
    PRINT_VAL_D (int (u_arg tcp 2)) ;;
    tprints_arg_next_name "timeout" ;;
    print_timeout tcp (u_arg tcp 3) ;;
    nothing.

Definition print_timeout_int (tcp : dtcb St) (arg : Z) : D St Z := PRINT_VAL_D (int arg) ;; mret 0.

Definition sys_epoll_wait (tcp : dtcb St) : D St Z :=
  epoll_wait_common tcp print_timeout_int ;;
  mret 0.

Definition epoll_pwait_common (tcp : dtcb St) (print_timeout : dtcb St -> Z -> D St Z) : D St Z :=
  epoll_wait_common tcp print_timeout ;;
  (if (exiting tcp) then
    tprints_arg_next_name "sigmask" ;;
    other tcp "print_sigset_addr_len" [(u_arg tcp 4); (u_arg tcp 5)] ;;
    tprints_arg_next_name "sigsetsize" ;;
    PRINT_VAL_U (u_arg tcp 5)
  else
    nothing) ;;
  mret 0.

Definition sys_epoll_pwait (tcp : dtcb St) : D St Z :=
  epoll_pwait_common tcp print_timeout_int.

Definition sys_epoll_pwait2 (tcp : dtcb St) : D St Z :=
  epoll_pwait_common tcp (fun tcp addr => other tcp "print_timespec64" [addr]).

(** ** src/fchroot.c *)

Definition sys_fchroot (tcp : dtcb St) : D St Z :=
  tprints_arg_name "fd" ;;
  (if ((int (u_arg tcp 0)) =? FD_FAILFS_ROOT) then
    print_xlat_d FD_FAILFS_ROOT "FD_FAILFS_ROOT"
  else
    printfd tcp (u_arg tcp 0)) ;;
  tprints_arg_next_name "flags" ;;
  PRINT_VAL_X (uint 32 (u_arg tcp 1)) ;;
  mret RVAL_DECODED.
(** Elements of arrays are values. *)
#[export] Instance print_epoll_event_value e : IsValue (St := St) (print_epoll_event e).
Proof. intros [f ns] Q H. unfold print_epoll_event. wf; apply H. Qed.

End fs.
#[export] Typeclasses Opaque sys_chdir decode_access sys_access decode_faccessat sys_faccessat sys_faccessat2 decode_chmod sys_chmod
  decode_fchmodat sys_fchmodat sys_fchmodat2 sys_fchmod sys_link sys_linkat sys_unlinkat sys_symlinkat
  decode_mknod sys_mknod sys_mknodat decode_readlink sys_readlink sys_readlinkat decode_renameat sys_renameat
  sys_renameat2 sys_statfs sys_fstatfs sys_statfs64 sys_fstatfs64 decode_struct_stat sys_stat sys_fstat
  sys_newfstatat decode_struct_stat64 sys_stat64 sys_fstat64 sys_fstatat64 sys_truncate sys_truncate64
  sys_ftruncate sys_ftruncate64 sys_umask sys_umount2 sys_mount sys_fsopen sys_fsmount sys_fspick sys_fsconfig
  sys_move_mount print_mount_attr decode_dfd_file_flags decode_dfd_file_flags_attr sys_mount_setattr
  sys_open_tree sys_open_tree_attr sys_fchownat sys_utime sys_utimes sys_futimesat do_utimensat
  sys_utimensat_time32 sys_utimensat_time64 decode_dirfd_pathname decode_flags decode_file_attr sys_file_getattr
  sys_file_setattr print_f_handle sys_name_to_handle_at sys_open_by_handle_at sys_getcwd sys_inotify_add_watch
  sys_inotify_rm_watch sys_inotify_init sys_inotify_init1 sys_fanotify_init sys_fanotify_mark sys_flock
  sys_fallocate sys_fadvise64 sys_fadvise64_64 sys_lseek sys_llseek sys_copy_file_range sys_sendfile64
  sys_sendfile sys_sync_file_range sys_sync_file_range2 sys_swapon sys_readahead dup_123 sys_dup sys_dup2
  sys_dup3 sys_close_range sys_lookup_dcookie sys_memfd_create sys_memfd_secret print_mnt_id_req sys_listmount
  sys_cachestat do_eventfd sys_eventfd sys_eventfd2 do_signalfd sys_signalfd sys_signalfd4 sys_epoll_create
  sys_epoll_create1 print_epoll_event sys_epoll_ctl epoll_wait_common print_timeout_int sys_epoll_wait
  epoll_pwait_common sys_epoll_pwait sys_epoll_pwait2 sys_fchroot.
