(* ===== verification/SysMisc.v ===== *)
(** * Decoders of other syscalls

    Processes, system settings, IPC, message queues, sockets: each decoder is the
    translation of a SYS_FUNC. *)

From stdpp Require Import strings pretty.
From S2P Require Import Prelude Wait Tcb Tracee Syscall Util Xlat Filters Quote UCopy PrintStr PrintArray Style Decode SysFs.
Open Scope Z_scope.
Definition LINUX_REBOOT_CMD_RESTART2 : Z := 0xA1B2C3D4.
Definition MEMBARRIER_CMD_FLAG_CPU : Z := 1.
Definition __NEW_UTS_LEN : Z := 64.
Definition PER_MASK : Z := 0xff.
Definition SYSLOG_ACTION_CLOSE : Z := 0.
Definition SYSLOG_ACTION_OPEN : Z := 1.
Definition SYSLOG_ACTION_CLEAR : Z := 5.
Definition SYSLOG_ACTION_CONSOLE_OFF : Z := 6.
Definition SYSLOG_ACTION_CONSOLE_ON : Z := 7.
Definition SYSLOG_ACTION_SIZE_UNREAD : Z := 9.
Definition SYSLOG_ACTION_SIZE_BUFFER : Z := 10.
Definition SYSLOG_ACTION_READ : Z := 2.
Definition SYSLOG_ACTION_READ_ALL : Z := 3.
Definition SYSLOG_ACTION_READ_CLEAR : Z := 4.
Definition SYSLOG_ACTION_CONSOLE_LEVEL : Z := 8.
Definition SECCOMP_GET_ACTION_AVAIL : Z := 2.
Definition SECCOMP_GET_NOTIF_SIZES : Z := 3.
Definition SECCOMP_SET_MODE_FILTER : Z := 1.
Definition SECCOMP_SET_MODE_STRICT : Z := 0.
Definition KCMP_FILE : Z := 0.
Definition KCMP_VM : Z := 1.
Definition KCMP_FILES : Z := 2.
Definition KCMP_FS : Z := 3.
Definition KCMP_SIGHAND : Z := 4.
Definition KCMP_IO : Z := 5.
Definition KCMP_SYSVSEM : Z := 6.
Definition KCMP_EPOLL_TFD : Z := 7.
Definition NS_ID_REQ_SIZE_VER0 : Z := 32.
Definition IOPRIO_WHO_PROCESS : Z := 1.
Definition IOPRIO_WHO_PGRP : Z := 2.
Definition SHM_HUGE_MASK : Z := 0x3f.
Definition SHM_HUGE_SHIFT : Z := 26.
Definition KEXEC_SEGMENT_MAX : Z := 16.
Definition KEXEC_ARCH_MASK : Z := 0xffff0000.
Definition O_CREAT : Z := 0x40.

Section misc.
Context {St : Type} {G : Globals}.

(** ** src/iopl.c *)

Definition sys_iopl (tcp : dtcb St) : D St Z :=
  tprints_arg_name "level" ;;
  PRINT_VAL_D (int (u_arg tcp 0)) ;;
  mret RVAL_DECODED.

(** ** src/nice.c *)

Definition sys_nice (tcp : dtcb St) : D St Z :=
  tprints_arg_name "increment" ;;
  PRINT_VAL_D (int (u_arg tcp 0)) ;;
  mret RVAL_DECODED.

(** ** src/alarm.c *)

Definition sys_alarm (tcp : dtcb St) : D St Z :=
  tprints_arg_name "seconds" ;;
  PRINT_VAL_U (uint 32 (u_arg tcp 0)) ;;
  mret RVAL_DECODED.

(** ** src/exit.c *)

Definition sys_exit (tcp : dtcb St) : D St Z :=
  tprints_arg_name "status" ;;
  PRINT_VAL_D (int (u_arg tcp 0)) ;;
  mret RVAL_DECODED.

(** ** src/set_tid_address.c *)

Definition sys_set_tid_address (tcp : dtcb St) : D St Z :=
  tprints_arg_name "tidptr" ;;
  printaddr (u_arg tcp 0) ;;
  mret (Z.lor RVAL_DECODED RVAL_TID).

(** ** src/pidfd_open.c *)

Definition sys_pidfd_open (tcp : dtcb St) : D St Z :=
  tprints_arg_name "pid" ;;
  printpid tcp (u_arg tcp 0) PT_TGID ;;
  tprints_arg_next_name "flags" ;;
  printflags (xlat_of "pidfd_open_flags") (u_arg tcp 1) (Some "PIDFD_???"%string) ;;
  mret (Z.lor RVAL_DECODED RVAL_FD).

(** ** src/listen.c *)

Definition sys_listen (tcp : dtcb St) : D St Z :=
  tprints_arg_name "sockfd" ;;
  printfd tcp (u_arg tcp 0) ;;
  tprints_arg_next_name "backlog" ;;
  PRINT_VAL_D (int (u_arg tcp 1)) ;;
  mret RVAL_DECODED.

(** ** src/getcpu.c *)

Definition sys_getcpu (tcp : dtcb St) : D St Z :=
  (if (exiting tcp) then
    tprints_arg_name "cpu" ;;
    printnum 4 FmtU tcp (u_arg tcp 0) ;;
    tprints_arg_next_name "node" ;;
    printnum 4 FmtU tcp (u_arg tcp 1) ;;
    tprints_arg_next_name "tcache" ;;
    printaddr (u_arg tcp 2)
  else
    nothing) ;;
  mret 0.

(** ** src/ioperm.c *)

Definition sys_ioperm (tcp : dtcb St) : D St Z :=
  tprints_arg_name "from" ;;
  PRINT_VAL_X (u_arg tcp 0) ;;
  tprints_arg_next_name "num" ;;
  PRINT_VAL_X (u_arg tcp 1) ;;
  tprints_arg_next_name "turn_on" ;;
  PRINT_VAL_D (int (u_arg tcp 2)) ;;
  mret RVAL_DECODED.

(** ** src/get_robust_list.c *)

Definition sys_get_robust_list (tcp : dtcb St) : D St Z :=
  (if (entering tcp) then
    tprints_arg_name "pid" ;;
    printpid tcp (u_arg tcp 0) PT_TID
  else
    tprints_arg_next_name "head_ptr" ;;
    printnum_addr current_wordsize tcp (u_arg tcp 1) ;;
    tprints_arg_next_name "len_ptr" ;;
    printnum current_wordsize FmtU tcp (u_arg tcp 2) ;;
    nothing) ;;
  mret 0.

(** ** src/map_shadow_stack.c *)

Definition sys_map_shadow_stack (tcp : dtcb St) : D St Z :=
  tprints_arg_name "addr" ;;
  printaddr (u_arg tcp 0) ;;
  tprints_arg_next_name "len" ;;
  PRINT_VAL_U (u_arg tcp 1) ;;
  tprints_arg_next_name "flags" ;;
  printflags (xlat_of "shadow_stack_flags") (u_arg tcp 2) (Some "SHADOW_STACK_???"%string) ;;
  mret RVAL_DECODED.

(** ** src/shutdown.c *)

Definition sys_shutdown (tcp : dtcb St) : D St Z :=
  tprints_arg_name "sockfd" ;;
  printfd tcp (u_arg tcp 0) ;;
  tprints_arg_next_name "how" ;;
  printxval (xlat_of "shutdown_modes") (u_arg tcp 1) (Some "SHUT_???"%string) ;;
  mret RVAL_DECODED.

(** ** src/bind.c *)

Definition sys_bind (tcp : dtcb St) : D St Z :=
  tprints_arg_name "sockfd" ;;
  printfd tcp (u_arg tcp 0) ;;
  tprints_arg_next_name "addr" ;;
  let addrlen := (int (u_arg tcp 2)) in
  other tcp "decode_sockaddr" [(u_arg tcp 1); addrlen] ;;
  tprints_arg_next_name "addrlen" ;;
  PRINT_VAL_D addrlen ;;
  mret RVAL_DECODED.

(** ** src/getrandom.c *)

Definition sys_getrandom (tcp : dtcb St) : D St Z :=
  (if (exiting tcp) then
    tprints_arg_name "buf" ;;
    (if (syserror tcp) then
      printaddr (u_arg tcp 0)
    else
      printstr_ex tcp (u_arg tcp 0) (uint 64 (u_rval tcp)) QUOTE_FORCE_HEX ;;
      nothing) ;;
    tprints_arg_next_name "buflen" ;;
    PRINT_VAL_U (u_arg tcp 1) ;;
    tprints_arg_next_name "flags" ;;
    printflags (xlat_of "getrandom_flags") (u_arg tcp 2) (Some "GRND_???"%string) ;;
    nothing
  else
    nothing) ;;
  mret 0.

(** ** src/pkeys.c *)

Definition sys_pkey_alloc (tcp : dtcb St) : D St Z :=
  tprints_arg_name "flags" ;;
  PRINT_VAL_X (u_arg tcp 0) ;;
  tprints_arg_next_name "access_rights" ;;
  printflags64 (xlat_of "pkey_access") (u_arg tcp 1) (Some "PKEY_???"%string) ;;
  mret RVAL_DECODED.

Definition sys_pkey_free (tcp : dtcb St) : D St Z :=
  tprints_arg_name "pkey" ;;
  PRINT_VAL_D (int (u_arg tcp 0)) ;;
  mret RVAL_DECODED.

(** ** src/pidfd_getfd.c *)

(** [pidfd_get_pid] is a leaf whose result is the pid. *)
Definition sys_pidfd_getfd (tcp : dtcb St) : D St Z :=
  let pidfd := int (u_arg tcp 0) in
  let targetfd := int (u_arg tcp 1) in
  let flags := uint 32 (u_arg tcp 2) in
  tprints_arg_name "pidfd" ;;
  printfd tcp pidfd ;;
  tprints_arg_next_name "targetfd" ;;
  '(_, target_pid) ← lift (lf_other (leaf tcp) "pidfd_get_pid" [pid tcp; pidfd]);
  (if 0 <? target_pid then printfd_pid tcp target_pid targetfd else PRINT_VAL_D targetfd) ;;
  tprints_arg_next_name "flags" ;;
  PRINT_VAL_X flags ;;
  mret (Z.lor RVAL_DECODED RVAL_FD).

(** ** src/reboot.c *)

Definition sys_reboot (tcp : dtcb St) : D St Z :=
  let magic1 := (uint 32 (u_arg tcp 0)) in
  let magic2 := (uint 32 (u_arg tcp 1)) in
  let cmd := (uint 32 (u_arg tcp 2)) in
  tprints_arg_name "magic" ;;
  printxval (xlat_of "bootflags1") magic1 (Some "LINUX_REBOOT_MAGIC1???"%string) ;;
  tprints_arg_next_name "magic2" ;;
  printxval (xlat_of "bootflags2") magic2 (Some "LINUX_REBOOT_MAGIC2???"%string) ;;
  tprints_arg_next_name "op" ;;
  printxval (xlat_of "bootflags3") cmd (Some "LINUX_REBOOT_CMD_???"%string) ;;
  (if (cmd =? LINUX_REBOOT_CMD_RESTART2) then
    tprints_arg_next_name "arg" ;;
    printstr_ex tcp (u_arg tcp 3) 255 QUOTE_0_TERMINATED ;;
    nothing
  else
    nothing) ;;
  mret RVAL_DECODED.

(** ** src/membarrier.c *)

Definition sys_membarrier (tcp : dtcb St) : D St Z :=
  if entering tcp then
    let cmd := int (u_arg tcp 0) in
    let flags := uint 32 (u_arg tcp 1) in
    let cpu_id := int (u_arg tcp 2) in
    tprints_arg_name "cmd" ;;
    printxval (xlat_of "membarrier_cmds") cmd (Some "MEMBARRIER_CMD_???"%string) ;;
    tprints_arg_next_name "flags" ;;
    printflags (xlat_of "membarrier_flags") flags (Some "MEMBARRIER_CMD_FLAG_???"%string) ;;
    (if has flags MEMBARRIER_CMD_FLAG_CPU then tprints_arg_next_name "cpu_id" ;; PRINT_VAL_D cpu_id else nothing) ;;
    if negb (cmd =? 0) then mret RVAL_DECODED else mret 0
  else if syserror tcp || (u_rval tcp =? 0) then mret 0
  else
    set_auxstr (codes <$> sprintflags_exv xlat_verbosity EmptyString (uint 64 (u_rval tcp)) EmptyString XLAT_STYLE_DEFAULT (xlat_of "membarrier_cmds") []) ;;
    mret (Z.lor RVAL_HEX RVAL_STR).

(** ** src/hostname.c *)

Definition sys_sethostname (tcp : dtcb St) : D St Z :=
  let len_ := (uint 32 (u_arg tcp 1)) in
  tprints_arg_name "name" ;;
  (if (__NEW_UTS_LEN <? len_) then
    printaddr (u_arg tcp 0)
  else
    printstrn tcp (u_arg tcp 0) len_ ;;
    nothing) ;;
  tprints_arg_next_name "len" ;;
  PRINT_VAL_U len_ ;;
  mret RVAL_DECODED.

(** ** src/personality.c *)

Definition sys_personality (tcp : dtcb St) : D St Z :=
  if entering tcp then
    let pers := uint 32 (u_arg tcp 0) in
    tprints_arg_name "persona" ;;
    (if 0xffffffff =? pers then PRINT_VAL_X 0xffffffff
     else
       tprint_flags_begin ;;
       printxval (xlat_of "personality_types") (Z.land pers PER_MASK) (Some "PER_???"%string) ;;
       let pers := Z.land pers (Z.lnot PER_MASK) in
       (if negb (pers =? 0) then
          tprint_flags_or ;;
          printflags_in (xlat_of "personality_flags") pers None ;;
          nothing
        else nothing) ;;
       tprint_flags_end) ;;
    mret 0
  else if syserror tcp then mret 0
  else
    let pers := uint 32 (u_rval tcp) in
    let p := sprintxval_ex xlat_verbosity (xlat_of "personality_types") (Z.land pers PER_MASK) (Some "PER_???"%string) XLAT_STYLE_DEFAULT in
    let pers := Z.land pers (Z.lnot PER_MASK) in
    set_auxstr (Some (codes (p +:+ (if negb (pers =? 0)
                                   then default EmptyString (sprintflags_exv xlat_verbosity "|" pers EmptyString XLAT_STYLE_DEFAULT (xlat_of "personality_flags") [])
                                   else EmptyString)))) ;;
    mret (Z.lor RVAL_HEX RVAL_STR).

(** ** src/uname.c *)

Definition sys_uname (tcp : dtcb St) : D St Z :=
  if (entering tcp) then
    mret 0
  else
    tprints_arg_name "buf" ;;
    uname ← umoven_or_printaddr tcp (u_arg tcp 0) 390;
    match uname with
    | Some uname =>
        tprint_struct_begin ;;
        PRINT_FIELD_CSTRING "sysname" (bytes_at 65 0 uname) ;;
        tprint_struct_next ;;
        PRINT_FIELD_CSTRING "nodename" (bytes_at 65 65 uname) ;;
        if (abbrev tcp) then
          tprint_struct_next ;;
          tprint_more_data_follows ;;
          tprint_struct_end ;;
          mret 0
        else
          tprint_struct_next ;;
          PRINT_FIELD_CSTRING "release" (bytes_at 65 130 uname) ;;
          tprint_struct_next ;;
          PRINT_FIELD_CSTRING "version" (bytes_at 65 195 uname) ;;
          tprint_struct_next ;;
          PRINT_FIELD_CSTRING "machine" (bytes_at 65 260 uname) ;;
          tprint_struct_end ;;
          mret 0
    | None =>
        mret 0
    end.

(** ** src/getpid.c *)

Definition sys_getpid (tcp : dtcb St) : D St Z :=
  mret (Z.lor RVAL_DECODED RVAL_TGID).

Definition sys_gettid (tcp : dtcb St) : D St Z :=
  mret (Z.lor RVAL_DECODED RVAL_TID).

Definition sys_getpgrp (tcp : dtcb St) : D St Z :=
  mret (Z.lor RVAL_DECODED RVAL_PGID).

Definition sys_getpgid (tcp : dtcb St) : D St Z :=
  tprints_arg_name "pid" ;;
  printpid tcp (u_arg tcp 0) PT_TGID ;;
  mret (Z.lor RVAL_DECODED RVAL_PGID).

Definition sys_getsid (tcp : dtcb St) : D St Z :=
  tprints_arg_name "pid" ;;
  printpid tcp (u_arg tcp 0) PT_TGID ;;
  mret (Z.lor RVAL_DECODED RVAL_SID).

Definition sys_setpgid (tcp : dtcb St) : D St Z :=
  tprints_arg_name "pid" ;;
  printpid tcp (u_arg tcp 0) PT_TGID ;;
  tprints_arg_next_name "pgid" ;;
  printpid tcp (u_arg tcp 1) PT_PGID ;;
  mret RVAL_DECODED.

(** ** src/sigaltstack.c *)

Definition print_stack_t (tcp : dtcb St) (addr : Z) : D St () :=
  ss ← umoven_or_printaddr tcp addr (3 * current_klongsize);
  match ss with
  | Some ss =>
      tprint_struct_begin ;;
      PRINT_FIELD_PTR "ss_sp" (fu current_klongsize 0 ss) ;;
      tprint_struct_next ;;
      PRINT_FIELD_FLAGS "ss_flags" (uint 32 (fs 4 current_klongsize ss)) (xlat_of "sigaltstack_flags") (Some "SS_???"%string) ;;
      tprint_struct_next ;;
      PRINT_FIELD_U "ss_size" (fu current_klongsize (2 * current_klongsize) ss) ;;
      tprint_struct_end
  | None =>
      nothing
  end.

Definition sys_sigaltstack (tcp : dtcb St) : D St Z :=
  (if (entering tcp) then
    tprints_arg_name "ss" ;;
    print_stack_t tcp (u_arg tcp 0)
  else
    tprints_arg_next_name "old_ss" ;;
    print_stack_t tcp (u_arg tcp 1)) ;;
  mret 0.

(** ** src/bjm.c *)

Definition sys_delete_module (tcp : dtcb St) : D St Z :=
  tprints_arg_name "name" ;;
  printstr tcp (u_arg tcp 0) ;;
  tprints_arg_next_name "flags" ;;
  printflags (xlat_of "delete_module_flags") (u_arg tcp 1) (Some "O_???"%string) ;;
  mret RVAL_DECODED.

Definition sys_init_module (tcp : dtcb St) : D St Z :=
  tprints_arg_name "module_image" ;;
  printaddr (u_arg tcp 0) ;;
  tprints_arg_next_name "len" ;;
  PRINT_VAL_U (u_arg tcp 1) ;;
  tprints_arg_next_name "param_values" ;;
  printstr tcp (u_arg tcp 2) ;;
  mret RVAL_DECODED.

Definition sys_finit_module (tcp : dtcb St) : D St Z :=
  tprints_arg_name "fd" ;;
  printfd tcp (u_arg tcp 0) ;;
  tprints_arg_next_name "param_values" ;;
  printstr tcp (u_arg tcp 1) ;;
  tprints_arg_next_name "flags" ;;
  printflags (xlat_of "module_init_flags") (u_arg tcp 2) (Some "MODULE_INIT_???"%string) ;;
  mret RVAL_DECODED.

(** ** src/syslog.c *)

Definition sys_syslog (tcp : dtcb St) : D St Z :=
  let ty := (int (u_arg tcp 0)) in
  let len_ := (int (u_arg tcp 2)) in
  (if (entering tcp) then
    tprints_arg_name "type" ;;
    printxval_ex (xlat_of "syslog_action_type") (uint 64 ty) (Some "SYSLOG_ACTION_???"%string) (Z.lor XLAT_STYLE_VERBOSE XLAT_STYLE_FMT_D)
  else
    nothing) ;;
  if (ty =? SYSLOG_ACTION_CLOSE) || (ty =? SYSLOG_ACTION_OPEN) || (ty =? SYSLOG_ACTION_CLEAR) || (ty =? SYSLOG_ACTION_CONSOLE_OFF) || (ty =? SYSLOG_ACTION_CONSOLE_ON) || (ty =? SYSLOG_ACTION_SIZE_UNREAD) || (ty =? SYSLOG_ACTION_SIZE_BUFFER) then
    mret RVAL_DECODED
  else if (ty =? SYSLOG_ACTION_READ) || (ty =? SYSLOG_ACTION_READ_ALL) || (ty =? SYSLOG_ACTION_READ_CLEAR) then
    if (entering tcp) then
      mret 0
    else
      tprints_arg_next_name "bufp" ;;
      (if (syserror tcp) then
        printaddr64 (u_arg tcp 1)
      else
        printstrn tcp (u_arg tcp 1) (uint 64 (u_rval tcp)) ;;
        nothing) ;;
      tprints_arg_next_name "len" ;;
      PRINT_VAL_D len_ ;;
      mret 0
  else if (ty =? SYSLOG_ACTION_CONSOLE_LEVEL) then
    tprints_arg_next_name "bufp" ;;
    printaddr64 (u_arg tcp 1) ;;
    tprints_arg_next_name "len" ;;
    printxval_ex (xlat_of "syslog_console_levels") (uint 64 len_) (Some "LOGLEVEL_???"%string) (Z.lor XLAT_STYLE_VERBOSE XLAT_STYLE_FMT_D) ;;
    mret RVAL_DECODED
  else tprints_arg_next_name "bufp" ;;
    printaddr64 (u_arg tcp 1) ;;
    tprints_arg_next_name "len" ;;
    PRINT_VAL_D len_ ;;
    mret RVAL_DECODED.

(** ** src/seccomp.c *)

Definition sys_seccomp (tcp : dtcb St) : D St Z :=
  let op_ := (uint 32 (u_arg tcp 0)) in
  let flags_ := (uint 32 (u_arg tcp 1)) in
  (if (entering tcp) then
    tprints_arg_name "operation" ;;
    printxval (xlat_of "seccomp_ops") op_ (Some "SECCOMP_???"%string)
  else
    nothing) ;;
  if (op_ =? SECCOMP_GET_ACTION_AVAIL) then
    tprints_arg_next_name "flags" ;;
    PRINT_VAL_X flags_ ;;
    tprints_arg_next_name "args" ;;
    (b ← umoven_or_printaddr tcp (u_arg tcp 2) 4;
    match b with
    | Some b =>
        let act := (fu 4 0 b) in tprint_indirect_begin ;;
        printxval (xlat_of "seccomp_ret_action") act (Some "SECCOMP_RET_???"%string) ;;
        tprint_indirect_end
    | None =>
        nothing
    end) ;;
    mret RVAL_DECODED
  else if (op_ =? SECCOMP_GET_NOTIF_SIZES) then
    if (entering tcp) then
      tprints_arg_next_name "flags" ;;
      PRINT_VAL_X flags_ ;;
      mret 0
    else
      tprints_arg_next_name "args" ;;
      (szs ← umoven_or_printaddr tcp (u_arg tcp 2) 6;
      match szs with
      | Some szs =>
          tprint_struct_begin ;;
          PRINT_FIELD_U "seccomp_notif" (fu 2 0 szs) ;;
          tprint_struct_next ;;
          PRINT_FIELD_U "seccomp_notif_resp" (fu 2 2 szs) ;;
          tprint_struct_next ;;
          PRINT_FIELD_U "seccomp_data" (fu 2 4 szs) ;;
          tprint_struct_end
      | None =>
          nothing
      end) ;;
      mret RVAL_DECODED
  else if (op_ =? SECCOMP_SET_MODE_FILTER) then
    tprints_arg_next_name "flags" ;;
    printflags (xlat_of "seccomp_filter_flags") flags_ (Some "SECCOMP_FILTER_FLAG_???"%string) ;;
    tprints_arg_next_name "args" ;;
    other tcp "decode_seccomp_fprog" [(u_arg tcp 2)] ;;
    mret RVAL_DECODED
  else tprints_arg_next_name "flags" ;;
    PRINT_VAL_X flags_ ;;
    tprints_arg_next_name "args" ;;
    printaddr (u_arg tcp 2) ;;
    mret RVAL_DECODED.

(** ** src/kcmp.c *)

Definition sys_kcmp (tcp : dtcb St) : D St Z :=
  let pid1 := int (u_arg tcp 0) in
  let pid2 := int (u_arg tcp 1) in
  let ty := int (u_arg tcp 2) in
  let idx1 := u_arg tcp 3 in
  let idx2 := u_arg tcp 4 in
  tprints_arg_name "pid1" ;;
  printpid tcp pid1 PT_TGID ;;
  tprints_arg_next_name "pid2" ;;
  printpid tcp pid2 PT_TGID ;;
  tprints_arg_next_name "type" ;;
  printxval (xlat_of "kcmp_types") ty (Some "KCMP_???"%string) ;;
  (if ty =? KCMP_FILE then
     tprints_arg_next_name "idx1" ;;
     other tcp "printfd_pid_tracee_ns" [pid1; int idx1] ;;
     tprints_arg_next_name "idx2" ;;
     other tcp "printfd_pid_tracee_ns" [pid2; int idx2] ;; nothing
   else if ty =? KCMP_EPOLL_TFD then
     tprints_arg_next_name "idx1" ;;
     other tcp "printfd_pid_tracee_ns" [pid1; int idx1] ;;
     tprints_arg_next_name "idx2" ;;
     slot ← umoven_or_printaddr tcp idx2 12;
     match slot with
     | None => nothing
     | Some slot =>
         tprint_struct_begin ;;
         tprints_field_name "efd" ;; other tcp "printfd_pid_tracee_ns" [pid2; int (fu 4 0 slot)] ;;
         tprint_struct_next ;;
         tprints_field_name "tfd" ;; other tcp "printfd_pid_tracee_ns" [pid2; int (fu 4 4 slot)] ;;
         tprint_struct_next ;;
         PRINT_FIELD_U "toff" (fu 4 8 slot) ;;
         tprint_struct_end
     end
   else if existsb (Z.eqb ty) [KCMP_FILES; KCMP_FS; KCMP_IO; KCMP_SIGHAND; KCMP_SYSVSEM; KCMP_VM] then nothing
   else
     tprints_arg_next_name "idx1" ;;
     PRINT_VAL_X idx1 ;;
     tprints_arg_next_name "idx2" ;;
     PRINT_VAL_X idx2) ;;
  mret RVAL_DECODED.

(** ** src/listns.c *)

(** struct ns_id_req: size, spare, ns_id, ns_type, spare2, user_ns_id. *)
Definition print_ns_id_req (tcp : dtcb St) (addr : Z) : D St () :=
  req ← umoven_or_printaddr tcp addr 4;
  match req with
  | None => nothing
  | Some req =>
      let size := fu 4 0 req in
      tprint_struct_begin ;;
      PRINT_FIELD_U "size" size ;;
      if size <? NS_ID_REQ_SIZE_VER0 then tprint_struct_end
      else
        req ← umoven tcp addr (Z.min 32 size);
        match req with
        | None => tprint_struct_next ;; tprint_unavailable ;; tprint_struct_end
        | Some req =>
            (if negb (fu 4 4 req =? 0) then tprint_struct_next ;; PRINT_FIELD_X "spare" (fu 4 4 req) else nothing) ;;
            tprint_struct_next ;;
            PRINT_FIELD_X "ns_id" (fu 8 8 req) ;;
            tprint_struct_next ;;
            PRINT_FIELD_FLAGS "ns_type" (fu 4 16 req) (xlat_of "ns_type") (Some "???_NS"%string) ;;
            (if negb (fu 4 20 req =? 0) then tprint_struct_next ;; PRINT_FIELD_X "spare2" (fu 4 20 req) else nothing) ;;
            tprint_struct_next ;;
            PRINT_FIELD_XVAL "user_ns_id" (fu 8 24 req) (xlat_of "listns_user_ns_id") None ;;
            (if NS_ID_REQ_SIZE_VER0 <? size
             then print_nonzero_bytes tcp addr NS_ID_REQ_SIZE_VER0 (Z.min size get_pagesize) QUOTE_FORCE_HEX else nothing) ;;
            tprint_struct_end
        end
  end.

Definition sys_listns (tcp : dtcb St) : D St Z :=
  let req := u_arg tcp 0 in
  let ns_ids := u_arg tcp 1 in
  let nr_ns_ids := u_arg tcp 2 in
  let flags := uint 32 (u_arg tcp 3) in
  if entering tcp then tprints_arg_name "req" ;; print_ns_id_req tcp req ;; mret 0
  else
    tprints_arg_next_name "ns_ids" ;;
    print_array tcp ns_ids (Z.min (uint 64 nr_ns_ids) (uint 64 (u_rval tcp))) 8 (print_xint_array_member 8) ;;
    tprints_arg_next_name "nr_ns_ids" ;;
    PRINT_VAL_U nr_ns_ids ;;
    tprints_arg_next_name "flags" ;;
    PRINT_VAL_X flags ;;
    mret 0.

(** ** src/ioprio.c *)

Definition sprint_ioprio (ioprio : Z) : text :=
  let class := Z.shiftr ioprio 13 in
  let data := Z.land ioprio (Z.shiftl 1 13 - 1) in
  codes ("IOPRIO_PRIO_VALUE(" +:+ sprintxval_ex xlat_verbosity (xlat_of "ioprio_class") class (Some "IOPRIO_CLASS_???"%string) XLAT_STYLE_DEFAULT
         +:+ ", " +:+ pretty data +:+ ")").
Definition print_ioprio (ioprio : Z) : D St () :=
  (if negb (xlat_verbose xlat_verbosity =? XLAT_STYLE_ABBREV) then PRINT_VAL_X ioprio else nothing) ;;
  if xlat_verbose xlat_verbosity =? XLAT_STYLE_RAW then nothing
  else if xlat_verbose xlat_verbosity =? XLAT_STYLE_VERBOSE then tprints_comment (Some (sprint_ioprio ioprio))
  else tprints_text (sprint_ioprio ioprio).

Definition ioprio_print_who (tcp : dtcb St) (which : Z) (who : Z) : D St () :=
  (if (which =? IOPRIO_WHO_PROCESS) then
    printpid tcp who PT_TGID
  else if (which =? IOPRIO_WHO_PGRP) then
    printpid tcp who PT_PGID
  else PRINT_VAL_D who).

Definition sys_ioprio_get (tcp : dtcb St) : D St Z :=
  if entering tcp then
    tprints_arg_name "which" ;;
    printxval (xlat_of "ioprio_who") (u_arg tcp 0) (Some "IOPRIO_WHO_???"%string) ;;
    tprints_arg_next_name "who" ;;
    ioprio_print_who tcp (int (u_arg tcp 0)) (int (u_arg tcp 1)) ;;
    mret 0
  else if syserror tcp then mret 0
  else
    (if xlat_verbose xlat_verbosity =? XLAT_STYLE_RAW then set_auxstr None
     else set_auxstr (Some (sprint_ioprio (uint 32 (u_rval tcp))))) ;;
    mret RVAL_STR.

Definition sys_ioprio_set (tcp : dtcb St) : D St Z :=
  tprints_arg_name "which" ;;
  printxval (xlat_of "ioprio_who") (u_arg tcp 0) (Some "IOPRIO_WHO_???"%string) ;;
  tprints_arg_next_name "who" ;;
  ioprio_print_who tcp (int (u_arg tcp 0)) (int (u_arg tcp 1)) ;;
  tprints_arg_next_name "ioprio" ;;
  (if negb (xlat_verbose xlat_verbosity =? XLAT_STYLE_ABBREV) then PRINT_VAL_D (int (u_arg tcp 2)) else nothing) ;;
  if xlat_verbose xlat_verbosity =? XLAT_STYLE_RAW then mret RVAL_DECODED
  else
    (if xlat_verbose xlat_verbosity =? XLAT_STYLE_VERBOSE
     then tprints_comment (Some (sprint_ioprio (uint 32 (u_arg tcp 2))))
     else tprints_text (sprint_ioprio (uint 32 (u_arg tcp 2)))) ;;
    mret RVAL_DECODED.

(** ** src/ipc_shm.c *)

Definition sys_shmget (tcp : dtcb St) : D St Z :=
  tprints_arg_name "key" ;;
  printxval (xlat_of "ipc_private") (uint 32 (u_arg tcp 0)) None ;;
  tprints_arg_next_name "size" ;;
  PRINT_VAL_U (u_arg tcp 1) ;;
  tprints_arg_next_name "shmflg" ;;
  let flags_ := (uint 32 (Z.land (u_arg tcp 2) (Z.lnot 511))) in
  let mask := (Z.shiftl SHM_HUGE_MASK SHM_HUGE_SHIFT) in
  let hugetlb_value := (Z.land flags_ mask) in
  let flags_ := (Z.land flags_ (uint 32 (Z.lnot mask))) in
  tprint_flags_begin ;;
  (if ((negb (flags_ =? 0)) || (hugetlb_value =? 0)) then
    printflags_in (xlat_of "shm_resource_flags") flags_ None ;;
    nothing
  else
    nothing) ;;
  (if (negb (hugetlb_value =? 0)) then
    (if (negb (flags_ =? 0)) then
      tprint_flags_or
    else
      nothing) ;;
    tprint_shift_begin ;;
    PRINT_VAL_U (Z.shiftr hugetlb_value SHM_HUGE_SHIFT) ;;
    tprint_shift ;;
    print_xlat_u SHM_HUGE_SHIFT "SHM_HUGE_SHIFT" ;;
    tprint_shift_end
  else
    nothing) ;;
  (if ((negb (flags_ =? 0)) || (negb (hugetlb_value =? 0))) then
    tprint_flags_or
  else
    nothing) ;;
  print_numeric_umode_t (Z.land (u_arg tcp 2) 511) ;;
  tprint_flags_end ;;
  mret RVAL_DECODED.

Definition print_shmaddr_shmflg (shmaddr : Z) (shmflg : Z) : D St () :=
  tprints_arg_next_name "shmaddr" ;;
  printaddr shmaddr ;;
  tprints_arg_next_name "shmflg" ;;
  printflags (xlat_of "shm_flags") shmflg (Some "SHM_???"%string) ;;
  nothing.

Definition sys_shmat (tcp : dtcb St) : D St Z :=
  if entering tcp then
    tprints_arg_name "shmid" ;;
    PRINT_VAL_D (int (u_arg tcp 0)) ;;
    (if indirect_ipccall tcp then print_shmaddr_shmflg (u_arg tcp 3) (uint 32 (u_arg tcp 1))
     else print_shmaddr_shmflg (u_arg tcp 1) (uint 32 (u_arg tcp 2))) ;;
    mret 0
  else if syserror tcp then mret 0
  else if indirect_ipccall tcp then
    u ← umoven tcp (u_arg tcp 2) current_wordsize;
    match u with
    | None => mret RVAL_NONE
    | Some u => set_u_rval (if 4 =? current_wordsize then fu 4 0 u else fu 8 0 u) ;; mret RVAL_HEX
    end
  else mret RVAL_HEX.

Definition sys_shmdt (tcp : dtcb St) : D St Z :=
  tprints_arg_name "shmaddr" ;;
  printaddr (u_arg tcp (if (indirect_ipccall tcp) then 3 else 0)) ;;
  mret RVAL_DECODED.

(** ** src/ipc_sem.c *)

(** struct sembuf: sem_num, sem_op, sem_flg. *)
Definition print_sembuf (sb : list Z) : D St bool :=
  tprint_struct_begin ;;
  PRINT_FIELD_U "sem_num" (fu 2 0 sb) ;;
  tprint_struct_next ;;
  PRINT_FIELD_D "sem_op" (fs 2 2 sb) ;;
  tprint_struct_next ;;
  PRINT_FIELD_FLAGS "sem_flg" (fu 2 4 sb) (xlat_of "semop_flags") (Some "SEM_???"%string) ;;
  tprint_struct_end ;;
  mret true.

Definition tprint_sembuf_array (tcp : dtcb St) (addr count : Z) : D St () :=
  tprints_arg_next_name "sops" ;;
  print_array tcp addr (uint 32 count) 6 print_sembuf ;;
  tprints_arg_next_name "nsops" ;;
  PRINT_VAL_U (uint 32 count).

Definition sys_semop (tcp : dtcb St) : D St Z :=
  tprints_arg_name "semid" ;;
  PRINT_VAL_D (int (u_arg tcp 0)) ;;
  (if (indirect_ipccall tcp) then
    tprint_sembuf_array tcp (u_arg tcp 3) (uint 32 (u_arg tcp 1))
  else
    tprint_sembuf_array tcp (u_arg tcp 1) (uint 32 (u_arg tcp 2))) ;;
  mret RVAL_DECODED.

Definition do_semtimedop (tcp : dtcb St) (print_ts : dtcb St -> Z -> D St Z) : D St Z :=
  tprints_arg_name "semid" ;;
  PRINT_VAL_D (int (u_arg tcp 0)) ;;
  (if (indirect_ipccall tcp) then
    tprint_sembuf_array tcp (u_arg tcp 3) (uint 32 (u_arg tcp 1)) ;;
    tprints_arg_next_name "timeout" ;;
    print_ts tcp (u_arg tcp 4) ;;
    nothing
  else
    tprint_sembuf_array tcp (u_arg tcp 1) (uint 32 (u_arg tcp 2)) ;;
    tprints_arg_next_name "timeout" ;;
    print_ts tcp (u_arg tcp 3) ;;
    nothing) ;;
  mret RVAL_DECODED.

Definition sys_semtimedop_time32 (tcp : dtcb St) : D St Z :=
  do_semtimedop tcp (fun tcp addr => other tcp "print_timespec32" [addr]).

Definition sys_semtimedop_time64 (tcp : dtcb St) : D St Z :=
  do_semtimedop tcp (fun tcp addr => other tcp "print_timespec64" [addr]).

Definition sys_semget (tcp : dtcb St) : D St Z :=
  tprints_arg_name "key" ;;
  printxval (xlat_of "ipc_private") (u_arg tcp 0) None ;;
  tprints_arg_next_name "nsems" ;;
  PRINT_VAL_D (int (u_arg tcp 1)) ;;
  tprints_arg_next_name "semflg" ;;
  tprint_flags_begin ;;
  n ← printflags_in (xlat_of "resource_flags") (Z.land (u_arg tcp 2) (Z.lnot 511)) None;
  (if negb (n =? 0) then tprint_flags_or else nothing) ;;
  print_numeric_umode_t (Z.land (u_arg tcp 2) 511) ;;
  tprint_flags_end ;;
  mret RVAL_DECODED.

(** ** src/ipc_msg.c *)

Definition sys_msgget (tcp : dtcb St) : D St Z :=
  tprints_arg_name "key" ;;
  printxval (xlat_of "ipc_private") (u_arg tcp 0) None ;;
  tprints_arg_next_name "msgflg" ;;
  tprint_flags_begin ;;
  n ← printflags_in (xlat_of "resource_flags") (Z.land (u_arg tcp 1) (Z.lnot 511)) None;
  (if negb (n =? 0) then tprint_flags_or else nothing) ;;
  print_numeric_umode_t (Z.land (u_arg tcp 1) 511) ;;
  tprint_flags_end ;;
  mret RVAL_DECODED.

Definition tprint_msgsnd (tcp : dtcb St) (addr : Z) (count_ : Z) (flags_ : Z) : D St () :=
  tprints_arg_next_name "msgp" ;;
  other tcp "tprint_msgbuf" [addr; count_] ;;
  tprints_arg_next_name "msgsz" ;;
  PRINT_VAL_U count_ ;;
  tprints_arg_next_name "msgflg" ;;
  printflags (xlat_of "ipc_msg_flags") flags_ (Some "MSG_???"%string) ;;
  nothing.

Definition sys_msgsnd (tcp : dtcb St) : D St Z :=
  tprints_arg_name "msqid" ;;
  PRINT_VAL_D (int (u_arg tcp 0)) ;;
  (if (indirect_ipccall tcp) then
    tprint_msgsnd tcp (u_arg tcp 3) (u_arg tcp 1) (uint 32 (u_arg tcp 2))
  else
    tprint_msgsnd tcp (u_arg tcp 1) (u_arg tcp 2) (uint 32 (u_arg tcp 3))) ;;
  mret RVAL_DECODED.

Definition truncate_klong_to_current_klongsize (v : Z) : Z := if current_klongsize <? 8 then sint 32 v else sint 64 v.
Definition tprint_msgrcv (tcp : dtcb St) (addr count msgtyp : Z) : D St () :=
  tprints_arg_next_name "msgp" ;;
  other tcp "tprint_msgbuf" [addr; count] ;;
  tprints_arg_next_name "msgsz" ;;
  PRINT_VAL_U count ;;
  tprints_arg_next_name "msgtyp" ;;
  PRINT_VAL_D (truncate_klong_to_current_klongsize msgtyp).

Definition fetch_msgrcv_args (tcp : dtcb St) (addr : Z) : D St (option (Z * Z)) :=
  if current_wordsize =? 8 then
    b ← umoven tcp addr 16; mret (match b with Some b => Some (fu 8 0 b, fu 8 8 b) | None => None end)
  else
    b ← umoven tcp addr 8; mret (match b with Some b => Some (fu 4 0 b, uint 64 (fs 4 4 b)) | None => None end).

Definition sys_msgrcv (tcp : dtcb St) : D St Z :=
  (if entering tcp then
     tprints_arg_name "msqid" ;;
     PRINT_VAL_D (int (u_arg tcp 0))
   else if indirect_ipccall tcp then
     priv ← get_tcb_priv_ulong;
     (if negb (priv =? 0) then tprint_msgrcv tcp (u_arg tcp 3) (u_arg tcp 1) (u_arg tcp 4)
      else
        pair ← fetch_msgrcv_args tcp (u_arg tcp 3);
        match pair with
        | None =>
            tprints_arg_next_name "ipc_kludge" ;;
            printaddr (u_arg tcp 3) ;;
            tprints_arg_next_name "msgsz" ;;
            PRINT_VAL_U (u_arg tcp 1)
        | Some (p0, p1) => tprint_msgrcv tcp p0 (u_arg tcp 1) p1
        end) ;;
     tprints_arg_next_name "msgflg" ;;
     printflags (xlat_of "ipc_msg_flags") (u_arg tcp 2) (Some "MSG_???"%string) ;;
     nothing
   else
     tprint_msgrcv tcp (u_arg tcp 1) (u_arg tcp 2) (u_arg tcp 3) ;;
     tprints_arg_next_name "msgflg" ;;
     printflags (xlat_of "ipc_msg_flags") (u_arg tcp 4) (Some "MSG_???"%string) ;;
     nothing) ;;
  mret 0.

(** ** src/kexec.c *)

(** The four words of a segment. *)
Definition print_seg (e : list Z) : D St bool :=
  let w := current_wordsize in
  tprint_struct_begin ;;
  tprints_field_name "buf" ;;
  printaddr (fu w 0 e) ;;
  tprint_struct_next ;;
  tprints_field_name "bufsz" ;;
  PRINT_VAL_U (fu w w e) ;;
  tprint_struct_next ;;
  tprints_field_name "mem" ;;
  printaddr (fu w (2 * w) e) ;;
  tprint_struct_next ;;
  tprints_field_name "memsz" ;;
  PRINT_VAL_U (fu w (3 * w) e) ;;
  tprint_struct_end ;;
  mret true.

Definition print_kexec_segments (tcp : dtcb St) (addr len : Z) : D St () :=
  if KEXEC_SEGMENT_MAX <? len then printaddr addr
  else print_array tcp addr len (4 * current_wordsize) print_seg ;; nothing.

Definition sys_kexec_load (tcp : dtcb St) : D St Z :=
  tprints_arg_name "entry" ;;
  printaddr (u_arg tcp 0) ;;
  tprints_arg_next_name "nr_segments" ;;
  PRINT_VAL_U (u_arg tcp 1) ;;
  tprints_arg_next_name "segments" ;;
  print_kexec_segments tcp (u_arg tcp 2) (u_arg tcp 1) ;;
  tprints_arg_next_name "flags" ;;
  let n := (u_arg tcp 3) in
  tprint_flags_begin ;;
  printxval64 (xlat_of "kexec_arch_values") (Z.land n KEXEC_ARCH_MASK) (Some "KEXEC_ARCH_???"%string) ;;
  let n := (Z.land n (uint 64 (Z.lnot KEXEC_ARCH_MASK))) in
  (if (negb (n =? 0)) then
    tprint_flags_or ;;
    printflags64_in (xlat_of "kexec_load_flags") n (Some "KEXEC_???"%string) ;;
    nothing
  else
    nothing) ;;
  tprint_flags_end ;;
  mret RVAL_DECODED.

Definition sys_kexec_file_load (tcp : dtcb St) : D St Z :=
  tprints_arg_name "kernel_fd" ;;
  printfd tcp (u_arg tcp 0) ;;
  tprints_arg_next_name "initrd_fd" ;;
  printfd tcp (u_arg tcp 1) ;;
  tprints_arg_next_name "cmdline_len" ;;
  PRINT_VAL_U (u_arg tcp 2) ;;
  tprints_arg_next_name "cmdline" ;;
  printstrn tcp (u_arg tcp 3) (u_arg tcp 2) ;;
  tprints_arg_next_name "flags" ;;
  printflags64 (xlat_of "kexec_file_load_flags") (u_arg tcp 4) (Some "KEXEC_FILE_???"%string) ;;
  mret RVAL_DECODED.

(** ** src/mq.c *)

Definition sys_mq_open (tcp : dtcb St) : D St Z :=
  tprints_arg_name "name" ;;
  printpath tcp (u_arg tcp 0) ;;
  tprints_arg_next_name "flags" ;;
  tprint_open_modes (uint 32 (u_arg tcp 1)) ;;
  (if (negb ((Z.land (u_arg tcp 1) O_CREAT) =? 0)) then
    tprints_arg_next_name "mode" ;;
    print_numeric_umode_t (u_arg tcp 2) ;;
    tprints_arg_next_name "attr" ;;
    other tcp "printmqattr" [(u_arg tcp 3); 0] ;;
    nothing
  else
    nothing) ;;
  mret (Z.lor RVAL_DECODED RVAL_FD).

Definition do_mq_timedsend (tcp : dtcb St) (print_ts : dtcb St -> Z -> D St Z) : D St Z :=
  tprints_arg_name "mqdes" ;;
  printfd tcp (u_arg tcp 0) ;;
  tprints_arg_next_name "msg_ptr" ;;
  printstrn tcp (u_arg tcp 1) (u_arg tcp 2) ;;
  tprints_arg_next_name "msg_len" ;;
  PRINT_VAL_U (u_arg tcp 2) ;;
  tprints_arg_next_name "msg_prio" ;;
  PRINT_VAL_U (uint 32 (u_arg tcp 3)) ;;
  tprints_arg_next_name "abs_timeout" ;;
  print_ts tcp (u_arg tcp 4) ;;
  mret RVAL_DECODED.

Definition sys_mq_timedsend_time32 (tcp : dtcb St) : D St Z :=
  do_mq_timedsend tcp (fun tcp addr => other tcp "print_timespec32" [addr]).

Definition sys_mq_timedsend_time64 (tcp : dtcb St) : D St Z :=
  do_mq_timedsend tcp (fun tcp addr => other tcp "print_timespec64" [addr]).

Definition do_mq_timedreceive (tcp : dtcb St) (print_ts : dtcb St -> Z -> D St Z) : D St Z :=
  (if entering tcp then
     tprints_arg_name "mqdes" ;;
     printfd tcp (u_arg tcp 0)
   else
     tprints_arg_next_name "msg_ptr" ;;
     (if syserror tcp then printaddr (u_arg tcp 1) else printstrn tcp (u_arg tcp 1) (uint 64 (u_rval tcp)) ;; nothing) ;;
     tprints_arg_next_name "msg_len" ;;
     PRINT_VAL_U (u_arg tcp 2) ;;
     tprints_arg_next_name "msg_prio" ;;
     printnum 4 FmtU tcp (u_arg tcp 3) ;;
     tprints_arg_next_name "abs_timeout" ;;
     print_ts (temporarily_clear_syserror tcp) (u_arg tcp 4) ;;
     nothing) ;;
  mret 0.

Definition sys_mq_timedreceive_time32 (tcp : dtcb St) : D St Z :=
  do_mq_timedreceive tcp (fun tcp addr => other tcp "print_timespec32" [addr]).

Definition sys_mq_timedreceive_time64 (tcp : dtcb St) : D St Z :=
  do_mq_timedreceive tcp (fun tcp addr => other tcp "print_timespec64" [addr]).

Definition sys_mq_notify (tcp : dtcb St) : D St Z :=
  tprints_arg_name "mqdes" ;;
  printfd tcp (u_arg tcp 0) ;;
  tprints_arg_next_name "sevp" ;;
  other tcp "print_sigevent" [(u_arg tcp 1)] ;;
  mret RVAL_DECODED.

Definition sys_mq_getsetattr (tcp : dtcb St) : D St Z :=
  (if (entering tcp) then
    tprints_arg_name "mqdes" ;;
    printfd tcp (u_arg tcp 0) ;;
    tprints_arg_next_name "newattr" ;;
    other tcp "printmqattr" [(u_arg tcp 1); 1] ;;
    nothing
  else
    tprints_arg_next_name "oldattr" ;;
    other tcp "printmqattr" [(u_arg tcp 2); 1] ;;
    nothing) ;;
  mret 0.

(** ** src/times.c *)

Definition sys_times (tcp : dtcb St) : D St Z :=
  tprints_arg_name "buf" ;;
  (if (exiting tcp) then
    tbuf ← umoven_or_printaddr tcp (u_arg tcp 0) (4 * current_klongsize);
  match tbuf with
  | Some tbuf =>
      tprint_struct_begin ;;
      tprints_field_name "tms_utime" ;; other tcp "print_clock_t" [(fs current_klongsize 0 tbuf)] ;; nothing ;;
      tprint_struct_next ;;
      tprints_field_name "tms_stime" ;; other tcp "print_clock_t" [(fs current_klongsize current_klongsize tbuf)] ;; nothing ;;
      tprint_struct_next ;;
      tprints_field_name "tms_cutime" ;; other tcp "print_clock_t" [(fs current_klongsize (2 * current_klongsize) tbuf)] ;; nothing ;;
      tprint_struct_next ;;
      tprints_field_name "tms_cstime" ;; other tcp "print_clock_t" [(fs current_klongsize (3 * current_klongsize) tbuf)] ;; nothing ;;
      tprint_struct_end
  | None =>
      nothing
  end
  else
    nothing) ;;
  mret 0.

(** ** src/print_time.c *)

Definition sys_time (tcp : dtcb St) : D St Z :=
  if exiting tcp then
    tprints_arg_name "tloc" ;;
    t ← umoven_or_printaddr tcp (u_arg tcp 0) current_klongsize;
    (match t with
     | None => nothing
     | Some t =>
         tprint_indirect_begin ;;
         PRINT_VAL_D (fs current_klongsize 0 t) ;;
         tprints_comment (sprinttime_ex (fu current_klongsize 0 t) 0 0 0) ;;
         tprint_indirect_end
     end) ;;
    if negb (syserror tcp) then set_auxstr (sprinttime_ex (uint (8 * current_klongsize) (u_rval tcp)) 0 0 0) ;; mret RVAL_STR
    else mret 0
  else mret 0.
(** Elements of arrays are values. *)
#[export] Instance print_sembuf_value e : IsValue (St := St) (print_sembuf e).
Proof. intros [f ns] Q H. unfold print_sembuf. wf; apply H. Qed.
#[export] Instance print_seg_value e : IsValue (St := St) (print_seg e).
Proof. intros [f ns] Q H. unfold print_seg. wf; apply H. Qed.

End misc.
#[export] Typeclasses Opaque sys_iopl sys_nice sys_alarm sys_exit sys_set_tid_address sys_pidfd_open sys_listen sys_getcpu sys_ioperm
  sys_get_robust_list sys_map_shadow_stack sys_shutdown sys_bind sys_getrandom sys_pkey_alloc sys_pkey_free
  sys_pidfd_getfd sys_reboot sys_membarrier sys_sethostname sys_personality sys_uname sys_getpid sys_gettid
  sys_getpgrp sys_getpgid sys_getsid sys_setpgid print_stack_t sys_sigaltstack sys_delete_module sys_init_module
  sys_finit_module sys_syslog sys_seccomp sys_kcmp print_ns_id_req sys_listns print_ioprio ioprio_print_who
  sys_ioprio_get sys_ioprio_set sys_shmget print_shmaddr_shmflg sys_shmat sys_shmdt print_sembuf
  tprint_sembuf_array sys_semop do_semtimedop sys_semtimedop_time32 sys_semtimedop_time64 sys_semget sys_msgget
  tprint_msgsnd sys_msgsnd tprint_msgrcv fetch_msgrcv_args sys_msgrcv print_seg print_kexec_segments
  sys_kexec_load sys_kexec_file_load sys_mq_open do_mq_timedsend sys_mq_timedsend_time32 sys_mq_timedsend_time64
  do_mq_timedreceive sys_mq_timedreceive_time32 sys_mq_timedreceive_time64 sys_mq_notify sys_mq_getsetattr
  sys_times sys_time.
