(* ===== verification/SysProc.v ===== *)
(** * Decoders of input and output, memory, processes and time

    Reading and writing, memory mappings, attributes, ids, clocks and timers,
    scheduling, limits, futexes: each decoder is the translation of a SYS_FUNC. *)

From stdpp Require Import strings pretty.
From S2P Require Import Prelude Wait Tcb Tracee Syscall Util Xlat Filters Quote UCopy PrintStr PrintArray Style Decode SysFs SysMisc.
Open Scope Z_scope.

Definition MAP_TYPE : Z := 0x0f.
Definition MAP_HUGE_MASK : Z := 0x3f.
Definition MAP_HUGE_SHIFT : Z := 26.
Definition MREMAP_FIXED : Z := 2.
Definition MREMAP_DONTUNMAP : Z := 4.
Definition MREMAP_MAYMOVE : Z := 1.
Definition XATTR_SIZE_MAX : Z := 65536.
Definition CPUCLOCK_CLOCK_MASK : Z := 3.
Definition CLOCKFD_MASK : Z := 7.
Definition CLOCKFD : Z := 3.
Definition CPUCLOCK_PERTHREAD_MASK : Z := 4.
Definition CLOCK_AUX : Z := 16.
Definition CLOCK_AUX_LAST : Z := 23.
Definition SCHED_RESET_ON_FORK : Z := 0x40000000.
Definition SCHED_ATTR_SIZE_VER0 : Z := 48.
Definition SCHED_ATTR_SIZE_VER1 : Z := 56.
Definition SCHED_FLAG_KEEP_POLICY : Z := 8.
Definition SCHED_FLAG_KEEP_PARAMS : Z := 16.
Definition E2BIG : Z := 7.
Definition PRIO_PROCESS : Z := 0.
Definition PRIO_PGRP : Z := 1.
Definition W_CONTINUED : Z := 0xffff.
Definition P_PID : Z := 1.
Definition P_PIDFD : Z := 3.
Definition P_PGID : Z := 2.
Definition MPOL_F_STATIC_NODES : Z := 0x8000.
Definition MPOL_F_RELATIVE_NODES : Z := 0x4000.
Definition MPOL_F_NUMA_BALANCING : Z := 0x2000.
Definition FUTEX_OP_OPARG_SHIFT : Z := 8.
Definition FUTEX_WAIT : Z := 0.
Definition FUTEX_WAKE : Z := 1.
Definition FUTEX_FD : Z := 2.
Definition FUTEX_REQUEUE : Z := 3.
Definition FUTEX_CMP_REQUEUE : Z := 4.
Definition FUTEX_WAKE_OP : Z := 5.
Definition FUTEX_LOCK_PI : Z := 6.
Definition FUTEX_UNLOCK_PI : Z := 7.
Definition FUTEX_TRYLOCK_PI : Z := 8.
Definition FUTEX_WAIT_BITSET : Z := 9.
Definition FUTEX_WAKE_BITSET : Z := 10.
Definition FUTEX_WAIT_REQUEUE_PI : Z := 11.
Definition FUTEX_CMP_REQUEUE_PI : Z := 12.
Definition FUTEX_LOCK_PI2 : Z := 13.
Definition FUTEX2_SIZE_MASK : Z := 3.
Definition FUTEX_WAITV_MAX : Z := 128.
Definition LANDLOCK_CREATE_RULESET_VERSION : Z := 1.
Definition LANDLOCK_CREATE_RULESET_ERRATA : Z := 2.
Definition LANDLOCK_RULE_PATH_BENEATH : Z := 1.
Definition LANDLOCK_RULE_NET_PORT : Z := 2.
Definition _LINUX_CAPABILITY_VERSION_2 : Z := 0x20071026.
Definition _LINUX_CAPABILITY_VERSION_3 : Z := 0x20080522.
Definition AT_STATX_SYNC_TYPE : Z := 0x6000.
Definition STATX_TYPE : Z := 1.
Definition STATX_MODE : Z := 2.
Definition STATX_NLINK : Z := 4.
Definition STATX_UID : Z := 8.
Definition STATX_GID : Z := 0x10.
Definition STATX_ATIME : Z := 0x20.
Definition STATX_MTIME : Z := 0x40.
Definition STATX_CTIME : Z := 0x80.
Definition STATX_INO : Z := 0x100.
Definition STATX_SIZE : Z := 0x200.
Definition STATX_BLOCKS : Z := 0x400.
Definition STATX_BTIME : Z := 0x800.
Definition STATX_MNT_ID : Z := 0x1000.
Definition STATX_DIOALIGN : Z := 0x2000.
Definition STATX_SUBVOL : Z := 0x8000.
Definition STATX_DIO_READ_ALIGN : Z := 0x20000.
Definition STATX_ATTR_WRITE_ATOMIC : Z := 0x400000.

Section proc.
Context {St : Type} {G : Globals}.

(** ** src/fetch_indirect_syscall_args.c *)

Definition fetch_indirect_syscall_args (tcp : dtcb St) (addr n_args : Z) : D St (option (Z -> Z)) :=
  if current_wordsize =? 8 then
    b ← umoven tcp addr (8 * n_args);
    match b with Some b => mret (Some (fun i => fu 8 (8 * i) b)) | None => mret None end
  else
    b ← umoven tcp addr (4 * n_args);
    match b with Some b => mret (Some (fun i => fu 4 (4 * i) b)) | None => mret None end.

(** ** src/io.c *)

Definition sys_read (tcp : dtcb St) : D St Z :=
  (if (entering tcp) then
    tprints_arg_name "fd" ;;
    printfd tcp (u_arg tcp 0)
  else
    tprints_arg_next_name "buf" ;;
    (if (syserror tcp) then
      printaddr (u_arg tcp 1)
    else
      printstrn tcp (u_arg tcp 1) (uint 64 (u_rval tcp)) ;;
      nothing) ;;
    tprints_arg_next_name "count" ;;
    PRINT_VAL_U (u_arg tcp 2)) ;;
  mret 0.

Definition sys_write (tcp : dtcb St) : D St Z :=
  tprints_arg_name "fd" ;;
  printfd tcp (u_arg tcp 0) ;;
  tprints_arg_next_name "buf" ;;
  printstrn tcp (u_arg tcp 1) (u_arg tcp 2) ;;
  tprints_arg_next_name "count" ;;
  PRINT_VAL_U (u_arg tcp 2) ;;
  mret RVAL_DECODED.

Definition iov_decode_addr (tcp : dtcb St) (addr size : Z) : D St () := printaddr addr.

Definition iov_decode_str (tcp : dtcb St) (addr size : Z) : D St () := printstrn tcp addr size ;; nothing.

(** The data_size of struct print_iovec_config is [get_data]. *)
Definition print_iovec_klong (tcp : dtcb St) (iov_base iov_len : Z) (print_func : dtcb St -> Z -> Z -> D St ()) : D St bool :=
  data_size ← get_data;
  let len := if data_size <? iov_len then data_size else iov_len in
  (if negb (data_size =? 2 ^ 64 - 1) then set_data (data_size - len) else nothing) ;;
  tprint_struct_begin ;;
  tprints_field_name "iov_base" ;;
  print_func tcp iov_base len ;;
  tprint_struct_next ;;
  tprints_field_name "iov_len" ;;
  PRINT_VAL_U iov_len ;;
  tprint_struct_end ;;
  mret true.

Definition print_iovec_elem_int (tcp : dtcb St) (print_func : dtcb St -> Z -> Z -> D St ()) (iov : list Z) : D St bool :=
  print_iovec_klong tcp (fu 4 0 iov) (fu 4 4 iov) print_func.

Definition print_iovec_elem_klong (tcp : dtcb St) (print_func : dtcb St -> Z -> Z -> D St ()) (iov : list Z) : D St bool :=
  print_iovec_klong tcp (fu 8 0 iov) (fu 8 8 iov) print_func.

Definition tprint_iov_upto (tcp : dtcb St) (len addr data_size : Z) (print_func : dtcb St -> Z -> Z -> D St ()) : D St () :=
  set_data data_size ;;
  print_array_ignore_syserror tcp addr (uint 64 len) (current_wordsize * 2)
    (if current_wordsize <? 8 then print_iovec_elem_int tcp print_func else print_iovec_elem_klong tcp print_func) ;;
  nothing.

Definition tprint_iov (tcp : dtcb St) (len addr : Z) (print_func : dtcb St -> Z -> Z -> D St ()) : D St () :=
  tprint_iov_upto tcp len addr (2 ^ 64 - 1) print_func.

(** What an element printer prints is a value if that is true of its function. *)
#[export] Instance iov_decode_addr_value tcp a n : IsValue (iov_decode_addr tcp a n).
Proof. apply printaddr_value. Qed.
#[export] Instance iov_decode_str_value tcp a n : IsValue (iov_decode_str tcp a n).
Proof. unfold iov_decode_str. apply _. Qed.
#[export] Instance iov_decode_choice (b : bool) (f g : dtcb St -> Z -> Z -> D St ()) tcp a n :
  IsValue (f tcp a n) -> IsValue (g tcp a n) -> IsValue ((if b then f else g) tcp a n).
Proof. by destruct b. Qed.
Lemma print_iovec_klong_value tcp base len print_func :
  (forall a n, IsValue (print_func tcp a n)) -> IsValue (print_iovec_klong tcp base len print_func).
Proof.
  intros Hf [f ns] Q H. unfold print_iovec_klong. apply emits_bind, silent. intros data_size.
  wf_step; wf_step; wf; apply H.
Qed.
#[export] Instance tprint_iov_upto_value tcp len addr data_size print_func :
  (forall a n, IsValue (print_func tcp a n)) -> IsValue (tprint_iov_upto tcp len addr data_size print_func).
Proof.
  intros Hf s Q H. unfold tprint_iov_upto. apply emits_bind, silent. intros []. apply emits_bind, print_array_ignore_syserror_value.
  - pose proof current_wordsize_pos. lia.
  - by apply count_nonneg.
  - intros e. destruct (current_wordsize <? 8); exact (print_iovec_klong_value _ _ _ _ Hf).
  - intros _. apply emits_ret, H.
Qed.
#[export] Instance tprint_iov_value tcp len addr print_func :
  (forall a n, IsValue (print_func tcp a n)) -> IsValue (tprint_iov tcp len addr print_func).
Proof. apply tprint_iov_upto_value. Qed.
#[local] Typeclasses Opaque iov_decode_addr iov_decode_str tprint_iov_upto tprint_iov.

Definition sys_readv (tcp : dtcb St) : D St Z :=
  (if entering tcp then
    tprints_arg_name "fd" ;;
    printfd tcp (u_arg tcp 0)
  else
    tprints_arg_next_name "iov" ;;
    tprint_iov_upto tcp (u_arg tcp 2) (u_arg tcp 1) (uint 64 (u_rval tcp))
      (if syserror tcp then iov_decode_addr else iov_decode_str) ;;
    tprints_arg_next_name "iovcnt" ;;
    PRINT_VAL_U (u_arg tcp 2)) ;;
  mret 0.

Definition sys_writev (tcp : dtcb St) : D St Z :=
  tprints_arg_name "fd" ;;
  printfd tcp (u_arg tcp 0) ;;
  tprints_arg_next_name "iov" ;;
  tprint_iov tcp (u_arg tcp 2) (u_arg tcp 1) iov_decode_str ;;
  tprints_arg_next_name "iovcnt" ;;
  PRINT_VAL_U (u_arg tcp 2) ;;
  mret RVAL_DECODED.

Definition sys_pread (tcp : dtcb St) : D St Z :=
  (if (entering tcp) then
    tprints_arg_name "fd" ;;
    printfd tcp (u_arg tcp 0)
  else
    tprints_arg_next_name "buf" ;;
    (if (syserror tcp) then
      printaddr (u_arg tcp 1)
    else
      printstrn tcp (u_arg tcp 1) (uint 64 (u_rval tcp)) ;;
      nothing) ;;
    tprints_arg_next_name "count" ;;
    PRINT_VAL_U (u_arg tcp 2) ;;
    tprints_arg_next_name "offset" ;;
    print_arg_lld tcp 3 ;;
    nothing) ;;
  mret 0.

Definition sys_pwrite (tcp : dtcb St) : D St Z :=
  tprints_arg_name "fd" ;;
  printfd tcp (u_arg tcp 0) ;;
  tprints_arg_next_name "buf" ;;
  printstrn tcp (u_arg tcp 1) (u_arg tcp 2) ;;
  tprints_arg_next_name "count" ;;
  PRINT_VAL_U (u_arg tcp 2) ;;
  tprints_arg_next_name "offset" ;;
  print_arg_lld tcp 3 ;;
  mret RVAL_DECODED.

Definition print_lld_from_low_high_val (tcp : dtcb St) (arg : Z) : D St () :=
  if current_klongsize <? 8
  then PRINT_VAL_D (sint 64 (Z.lor (uint 64 (Z.shiftl (u_arg tcp (arg + 1)) 32)) (u_arg tcp arg)))
  else PRINT_VAL_D (sint 64 (u_arg tcp arg)).

Definition do_preadv (tcp : dtcb St) (flags_arg : Z) : D St Z :=
  (if entering tcp then
    tprints_arg_name "fd" ;;
    printfd tcp (u_arg tcp 0)
  else
    let len := truncate_kulong_to_current_wordsize (u_arg tcp 2) in
    tprints_arg_next_name "iov" ;;
    tprint_iov_upto tcp len (u_arg tcp 1) (uint 64 (u_rval tcp))
      (if syserror tcp then iov_decode_addr else iov_decode_str) ;;
    tprints_arg_next_name "iovcnt" ;;
    PRINT_VAL_U len ;;
    tprints_arg_next_name "offset" ;;
    print_lld_from_low_high_val tcp 3 ;;
    (if 0 <=? flags_arg then
      tprints_arg_next_name "flags" ;;
      printflags (xlat_of "rwf_flags") (u_arg tcp flags_arg) (Some "RWF_???"%string) ;;
      nothing
    else nothing)) ;;
  mret 0.

Definition sys_preadv (tcp : dtcb St) : D St Z := do_preadv tcp (-1).

Definition do_pwritev (tcp : dtcb St) (flags_arg : Z) : D St Z :=
  let len := truncate_kulong_to_current_wordsize (u_arg tcp 2) in
  tprints_arg_name "fd" ;;
  printfd tcp (u_arg tcp 0) ;;
  tprints_arg_next_name "iov" ;;
  tprint_iov tcp len (u_arg tcp 1) iov_decode_str ;;
  tprints_arg_next_name "iovcnt" ;;
  PRINT_VAL_U len ;;
  tprints_arg_next_name "offset" ;;
  print_lld_from_low_high_val tcp 3 ;;
  (if 0 <=? flags_arg then
    tprints_arg_next_name "flags" ;;
    printflags (xlat_of "rwf_flags") (u_arg tcp flags_arg) (Some "RWF_???"%string) ;;
    nothing
  else nothing) ;;
  mret RVAL_DECODED.

Definition sys_pwritev (tcp : dtcb St) : D St Z := do_pwritev tcp (-1).

(** PREADV2_PWRITEV2_FLAGS_ARG_NO of x86_64 is 4 for x32, else 5. *)
Definition sys_preadv2 (tcp : dtcb St) : D St Z := if currpers tcp =? 2 then do_preadv tcp 4 else do_preadv tcp 5.

Definition sys_pwritev2 (tcp : dtcb St) : D St Z := if currpers tcp =? 2 then do_pwritev tcp 4 else do_pwritev tcp 5.

Definition sys_tee (tcp : dtcb St) : D St Z :=
  tprints_arg_name "fd_in" ;;
  printfd tcp (u_arg tcp 0) ;;
  tprints_arg_next_name "fd_out" ;;
  printfd tcp (u_arg tcp 1) ;;
  tprints_arg_next_name "len" ;;
  PRINT_VAL_U (u_arg tcp 2) ;;
  tprints_arg_next_name "flags" ;;
  printflags (xlat_of "splice_flags") (u_arg tcp 3) (Some "SPLICE_F_???"%string) ;;
  mret RVAL_DECODED.

Definition sys_splice (tcp : dtcb St) : D St Z :=
  tprints_arg_name "fd_in" ;;
  printfd tcp (u_arg tcp 0) ;;
  tprints_arg_next_name "off_in" ;;
  printnum 8 FmtD tcp (u_arg tcp 1) ;;
  tprints_arg_next_name "fd_out" ;;
  printfd tcp (u_arg tcp 2) ;;
  tprints_arg_next_name "off_out" ;;
  printnum 8 FmtD tcp (u_arg tcp 3) ;;
  tprints_arg_next_name "len" ;;
  PRINT_VAL_U (u_arg tcp 4) ;;
  tprints_arg_next_name "flags" ;;
  printflags (xlat_of "splice_flags") (u_arg tcp 5) (Some "SPLICE_F_???"%string) ;;
  mret RVAL_DECODED.

Definition sys_vmsplice (tcp : dtcb St) : D St Z :=
  tprints_arg_name "fd" ;;
  printfd tcp (u_arg tcp 0) ;;
  tprints_arg_next_name "iov" ;;
  tprint_iov tcp (u_arg tcp 2) (u_arg tcp 1) iov_decode_str ;;
  tprints_arg_next_name "nr_segs" ;;
  PRINT_VAL_U (u_arg tcp 2) ;;
  tprints_arg_next_name "flags" ;;
  printflags (xlat_of "splice_flags") (u_arg tcp 3) (Some "SPLICE_F_???"%string) ;;
  mret RVAL_DECODED.

(** ** src/process_vm.c *)

Definition sys_process_vm_readv (tcp : dtcb St) : D St Z :=
  (if entering tcp then
    tprints_arg_name "pid" ;;
    printpid tcp (u_arg tcp 0) PT_TGID
  else
    let local_iovcnt := u_arg tcp 2 in
    let remote_iovcnt := u_arg tcp 4 in
    let flags := u_arg tcp 5 in
    tprints_arg_next_name "local_iov" ;;
    tprint_iov_upto tcp local_iovcnt (u_arg tcp 1) (uint 64 (u_rval tcp))
      (if syserror tcp then iov_decode_addr else iov_decode_str) ;;
    tprints_arg_next_name "liovcnt" ;;
    PRINT_VAL_U local_iovcnt ;;
    tprints_arg_next_name "remote_iov" ;;
    tprint_iov tcp remote_iovcnt (u_arg tcp 3) iov_decode_addr ;;
    tprints_arg_next_name "riovcnt" ;;
    PRINT_VAL_U remote_iovcnt ;;
    tprints_arg_next_name "flags" ;;
    PRINT_VAL_U flags) ;;
  mret 0.

Definition sys_process_vm_writev (tcp : dtcb St) : D St Z :=
  let local_iovcnt := u_arg tcp 2 in
  let remote_iovcnt := u_arg tcp 4 in
  let flags := u_arg tcp 5 in
  tprints_arg_name "pid" ;;
  printpid tcp (u_arg tcp 0) PT_TGID ;;
  tprints_arg_next_name "local_iov" ;;
  tprint_iov tcp local_iovcnt (u_arg tcp 1) iov_decode_str ;;
  tprints_arg_next_name "liovcnt" ;;
  PRINT_VAL_U local_iovcnt ;;
  tprints_arg_next_name "remote_iov" ;;
  tprint_iov tcp remote_iovcnt (u_arg tcp 3) iov_decode_addr ;;
  tprints_arg_next_name "riovcnt" ;;
  PRINT_VAL_U remote_iovcnt ;;
  tprints_arg_next_name "flags" ;;
  PRINT_VAL_U flags ;;
  mret RVAL_DECODED.

(** ** src/mem.c *)

Definition sys_brk (tcp : dtcb St) : D St Z :=
  tprints_arg_name "addr" ;;
  printaddr (u_arg tcp 0) ;;
  mret (Z.lor RVAL_DECODED RVAL_HEX).

Definition print_mmap_flags (flags_ : Z) : D St () :=
  (if (negb ((xlat_verbose xlat_verbosity) =? XLAT_STYLE_ABBREV)) then
    PRINT_VAL_X flags_
  else
    nothing) ;;
  if ((xlat_verbose xlat_verbosity) =? XLAT_STYLE_RAW) then
    nothing
  else
    (if ((xlat_verbose xlat_verbosity) =? XLAT_STYLE_VERBOSE) then
      tprint_comment_begin
    else
      nothing) ;;
    tprint_flags_begin ;;
    printxvals_ex (Z.land flags_ MAP_TYPE) (Some "MAP_???"%string) XLAT_STYLE_ABBREV (xlat_of "mmap_flags") ;;
    let flags_ := (Z.land flags_ (Z.lnot MAP_TYPE)) in
    let mask := (Z.shiftl MAP_HUGE_MASK MAP_HUGE_SHIFT) in
    let hugetlb_value := (uint 32 (Z.land flags_ mask)) in
    let flags_ := (Z.land flags_ (uint 32 (Z.lnot mask))) in
    (if (negb (flags_ =? 0)) then
      tprint_flags_or ;;
      printflags_ex flags_ None XLAT_STYLE_ABBREV (xlat_of "mmap_flags") ;;
      nothing
    else
      nothing) ;;
    (if (negb (hugetlb_value =? 0)) then
      tprint_flags_or ;;
      tprint_shift_begin ;;
      PRINT_VAL_U (Z.shiftr hugetlb_value MAP_HUGE_SHIFT) ;;
      tprint_shift ;;
      tprints_string "MAP_HUGE_SHIFT" ;;
      tprint_shift_end
    else
      nothing) ;;
    tprint_flags_end ;;
    (if ((xlat_verbose xlat_verbosity) =? XLAT_STYLE_VERBOSE) then
      tprint_comment_end
    else
      nothing).

(** The arguments are those of the syscall, or were fetched from memory. *)
Definition print_mmap (tcp : dtcb St) (args : Z -> Z) (offset : Z) : D St () :=
  let addr := args 0 in
  let len := args 1 in
  let prot := args 2 in
  let flags := args 3 in
  let fd := int (args 4) in
  tprints_arg_name "addr" ;;
  printaddr addr ;;
  tprints_arg_next_name "length" ;;
  PRINT_VAL_U len ;;
  tprints_arg_next_name "prot" ;;
  printflags64 (xlat_of "mmap_prot") prot (Some "PROT_???"%string) ;;
  tprints_arg_next_name "flags" ;;
  print_mmap_flags flags ;;
  tprints_arg_next_name "fd" ;;
  printfd tcp fd ;;
  tprints_arg_next_name "offset" ;;
  PRINT_VAL_X offset.

Definition sys_old_mmap (tcp : dtcb St) : D St Z :=
  args ← fetch_indirect_syscall_args tcp (u_arg tcp 0) 6;
  (match args with
   | Some args => print_mmap tcp args (args 5)
   | None => tprints_arg_name "addr" ;; printaddr (u_arg tcp 0)
   end) ;;
  mret (Z.lor RVAL_DECODED RVAL_HEX).

Definition sys_old_mmap_pgoff (tcp : dtcb St) : D St Z :=
  args ← fetch_indirect_syscall_args tcp (u_arg tcp 0) 6;
  (match args with
   | Some args =>
       let offset := args 5 in
       let offset := uint 64 (offset * get_pagesize) in
       print_mmap tcp args offset
   | None => tprints_arg_name "addr" ;; printaddr (u_arg tcp 0)
   end) ;;
  mret (Z.lor RVAL_DECODED RVAL_HEX).

Definition sys_mmap (tcp : dtcb St) : D St Z :=
  print_mmap tcp (u_arg tcp) (u_arg tcp 5) ;;
  mret (Z.lor RVAL_DECODED RVAL_HEX).

Definition sys_mmap_pgoff (tcp : dtcb St) : D St Z :=
  let offset := u_arg tcp 5 in
  let offset := uint 64 (offset * get_pagesize) in
  print_mmap tcp (u_arg tcp) offset ;;
  mret (Z.lor RVAL_DECODED RVAL_HEX).

Definition sys_mmap_4koff (tcp : dtcb St) : D St Z :=
  let offset := u_arg tcp 5 in
  let offset := uint 64 (Z.shiftl offset 12) in
  print_mmap tcp (u_arg tcp) offset ;;
  mret (Z.lor RVAL_DECODED RVAL_HEX).

Definition sys_munmap (tcp : dtcb St) : D St Z :=
  tprints_arg_name "addr" ;;
  printaddr (u_arg tcp 0) ;;
  tprints_arg_next_name "length" ;;
  PRINT_VAL_U (u_arg tcp 1) ;;
  mret RVAL_DECODED.

Definition do_mprotect (tcp : dtcb St) (has_pkey : bool) : D St Z :=
  tprints_arg_name "addr" ;;
  printaddr (u_arg tcp 0) ;;
  tprints_arg_next_name "length" ;;
  PRINT_VAL_U (u_arg tcp 1) ;;
  tprints_arg_next_name "prot" ;;
  printflags64 (xlat_of "mmap_prot") (u_arg tcp 2) (Some "PROT_???"%string) ;;
  (if has_pkey then
    tprints_arg_next_name "pkey" ;;
    PRINT_VAL_D (int (u_arg tcp 3))
  else
    nothing) ;;
  mret RVAL_DECODED.

Definition sys_mprotect (tcp : dtcb St) : D St Z :=
  do_mprotect tcp false.

Definition sys_pkey_mprotect (tcp : dtcb St) : D St Z :=
  do_mprotect tcp true.

Definition sys_mremap (tcp : dtcb St) : D St Z :=
  tprints_arg_name "old_address" ;;
  printaddr (u_arg tcp 0) ;;
  tprints_arg_next_name "old_size" ;;
  PRINT_VAL_U (u_arg tcp 1) ;;
  tprints_arg_next_name "new_size" ;;
  PRINT_VAL_U (u_arg tcp 2) ;;
  tprints_arg_next_name "flags" ;;
  printflags64 (xlat_of "mremap_flags") (u_arg tcp 3) (Some "MREMAP_???"%string) ;;
  (if ((negb ((Z.land (u_arg tcp 3) (Z.lor MREMAP_FIXED MREMAP_DONTUNMAP)) =? 0)) && (negb ((Z.land (u_arg tcp 3) MREMAP_MAYMOVE) =? 0))) then
    tprints_arg_next_name "new_address" ;;
    printaddr (u_arg tcp 4)
  else
    nothing) ;;
  mret (Z.lor RVAL_DECODED RVAL_HEX).

Definition sys_madvise (tcp : dtcb St) : D St Z :=
  tprints_arg_name "addr" ;;
  printaddr (u_arg tcp 0) ;;
  tprints_arg_next_name "length" ;;
  PRINT_VAL_U (u_arg tcp 1) ;;
  tprints_arg_next_name "advice" ;;
  let advice := (uint 32 (u_arg tcp 2)) in
  printxvals advice (Some "MADV_???"%string) [(xlat_of "madvise_cmds"); (xlat_of "madvise_hppa_generic_cmds")] ;;
  mret RVAL_DECODED.

Definition sys_process_madvise (tcp : dtcb St) : D St Z :=
  let pidfd := int (u_arg tcp 0) in
  let addr := u_arg tcp 1 in
  let len := u_arg tcp 2 in
  let advice := uint 32 (u_arg tcp 3) in
  let flags := uint 32 (u_arg tcp 4) in
  tprints_arg_name "pidfd" ;;
  printfd tcp pidfd ;;
  tprints_arg_next_name "iovec" ;;
  tprint_iov tcp len addr iov_decode_addr ;;
  tprints_arg_next_name "n" ;;
  PRINT_VAL_U len ;;
  tprints_arg_next_name "advice" ;;
  printxval (xlat_of "madvise_cmds") advice (Some "MADV_???"%string) ;;
  tprints_arg_next_name "flags" ;;
  PRINT_VAL_X flags ;;
  mret RVAL_DECODED.

Definition sys_process_mrelease (tcp : dtcb St) : D St Z :=
  let pidfd := (int (u_arg tcp 0)) in
  let flags_ := (uint 32 (u_arg tcp 1)) in
  tprints_arg_name "pidfd" ;;
  printfd tcp pidfd ;;
  tprints_arg_next_name "flags" ;;
  PRINT_VAL_X flags_ ;;
  mret RVAL_DECODED.

Definition sys_mlockall (tcp : dtcb St) : D St Z :=
  tprints_arg_name "flags" ;;
  printflags (xlat_of "mlockall_flags") (u_arg tcp 0) (Some "MCL_???"%string) ;;
  mret RVAL_DECODED.

Definition sys_msync (tcp : dtcb St) : D St Z :=
  tprints_arg_name "addr" ;;
  printaddr (u_arg tcp 0) ;;
  tprints_arg_next_name "length" ;;
  PRINT_VAL_U (u_arg tcp 1) ;;
  tprints_arg_next_name "flags" ;;
  printflags (xlat_of "mctl_sync") (u_arg tcp 2) (Some "MS_???"%string) ;;
  mret RVAL_DECODED.

Definition sys_mlock2 (tcp : dtcb St) : D St Z :=
  tprints_arg_name "addr" ;;
  printaddr (u_arg tcp 0) ;;
  tprints_arg_next_name "length" ;;
  PRINT_VAL_U (u_arg tcp 1) ;;
  tprints_arg_next_name "flags" ;;
  printflags (xlat_of "mlock_flags") (u_arg tcp 2) (Some "MLOCK_???"%string) ;;
  mret RVAL_DECODED.

Definition print_mincore_entry (elem_buf : list Z) : D St bool :=
  let val_ := (Z.land (fu 1 0 elem_buf) 1) in
  PRINT_VAL_U val_ ;;
  mret true.

#[export] Instance print_mincore_entry_value elem_buf : IsValue (St := St) (print_mincore_entry elem_buf).
Proof. intros [f ns] Q H. unfold print_mincore_entry. wf; rewrite ?o_eta, ?valued_valued; first [contra_eq | apply H]. Qed.
#[local] Typeclasses Opaque print_mincore_entry.

Definition sys_mincore (tcp : dtcb St) : D St Z :=
  (if (entering tcp) then
    tprints_arg_name "addr" ;;
    printaddr (u_arg tcp 0) ;;
    tprints_arg_next_name "length" ;;
    PRINT_VAL_U (u_arg tcp 1)
  else
    tprints_arg_next_name "vec" ;;
    let page_size := get_pagesize in
    let page_mask := (uint 64 (page_size - 1)) in
    let len_ := (u_arg tcp 1) in
    let nmemb := (uint 64 ((len_ / page_size) + (if (negb ((Z.land len_ page_mask) =? 0)) then 1 else 0))) in
    let vec := (u_arg tcp 2) in
    print_array tcp vec (uint 64 nmemb) 1 print_mincore_entry ;;
    nothing) ;;
  mret 0.

Definition sys_remap_file_pages (tcp : dtcb St) : D St Z :=
  let addr := (u_arg tcp 0) in
  let size_ := (u_arg tcp 1) in
  let prot := (u_arg tcp 2) in
  let pgoff := (u_arg tcp 3) in
  let flags_ := (u_arg tcp 4) in
  tprints_arg_name "addr" ;;
  printaddr addr ;;
  tprints_arg_next_name "size" ;;
  PRINT_VAL_U size_ ;;
  tprints_arg_next_name "prot" ;;
  printflags64 (xlat_of "mmap_prot") prot (Some "PROT_???"%string) ;;
  tprints_arg_next_name "pgoff" ;;
  PRINT_VAL_U pgoff ;;
  tprints_arg_next_name "flags" ;;
  print_mmap_flags flags_ ;;
  mret RVAL_DECODED.

Definition sys_mseal (tcp : dtcb St) : D St Z :=
  tprints_arg_name "addr" ;;
  printaddr (u_arg tcp 0) ;;
  tprints_arg_next_name "length" ;;
  PRINT_VAL_U (u_arg tcp 1) ;;
  tprints_arg_next_name "flags" ;;
  PRINT_VAL_X (u_arg tcp 2) ;;
  mret RVAL_DECODED.

(** ** src/xattr.c *)

Definition print_xattr_val (tcp : dtcb St) (addr : Z) (size_ : Z) : D St () :=
  (if (XATTR_SIZE_MAX <? size_) then
    printaddr addr
  else
    printstr_ex tcp addr size_ QUOTE_OMIT_TRAILING_0 ;;
    nothing).

Definition decode_setxattr_without_path (tcp : dtcb St) : D St Z :=
  tprints_arg_next_name "name" ;;
  printstr tcp (u_arg tcp 1) ;;
  tprints_arg_next_name "value" ;;
  print_xattr_val tcp (u_arg tcp 2) (u_arg tcp 3) ;;
  tprints_arg_next_name "size" ;;
  PRINT_VAL_U (u_arg tcp 3) ;;
  tprints_arg_next_name "flags" ;;
  printflags (xlat_of "xattrflags") (u_arg tcp 4) (Some "XATTR_???"%string) ;;
  mret RVAL_DECODED.

Definition sys_setxattr (tcp : dtcb St) : D St Z :=
  tprints_arg_name "pathname" ;;
  printpath tcp (u_arg tcp 0) ;;
  decode_setxattr_without_path tcp.

Definition sys_fsetxattr (tcp : dtcb St) : D St Z :=
  tprints_arg_name "fd" ;;
  printfd tcp (u_arg tcp 0) ;;
  decode_setxattr_without_path tcp.

Definition decode_getxattr_without_path (tcp : dtcb St) : D St Z :=
  if (entering tcp) then
    tprints_arg_next_name "name" ;;
    printstr tcp (u_arg tcp 1) ;;
    if (negb ((u_arg tcp 3) =? 0)) then
      mret 0
    else
      tprints_arg_next_name "value" ;;
      printaddr (u_arg tcp 2) ;;
      tprints_arg_next_name "size" ;;
      PRINT_VAL_U (u_arg tcp 3) ;;
      mret RVAL_DECODED
  else
    tprints_arg_next_name "value" ;;
    print_xattr_val tcp (u_arg tcp 2) (uint 64 (u_rval tcp)) ;;
    tprints_arg_next_name "size" ;;
    PRINT_VAL_U (u_arg tcp 3) ;;
    mret RVAL_DECODED.

Definition sys_getxattr (tcp : dtcb St) : D St Z :=
  (if (entering tcp) then
    tprints_arg_name "pathname" ;;
    printpath tcp (u_arg tcp 0) ;;
    nothing
  else
    nothing) ;;
  decode_getxattr_without_path tcp.

Definition sys_fgetxattr (tcp : dtcb St) : D St Z :=
  (if (entering tcp) then
    tprints_arg_name "fd" ;;
    printfd tcp (u_arg tcp 0)
  else
    nothing) ;;
  decode_getxattr_without_path tcp.

Definition print_xattr_list (tcp : dtcb St) (addr : Z) (size_ : Z) : D St () :=
  tprints_arg_next_name "list" ;;
  (if ((size_ =? 0) || (syserror tcp)) then
    printaddr addr
  else
    printstrn tcp addr (uint 64 (u_rval tcp)) ;;
    nothing) ;;
  tprints_arg_next_name "size" ;;
  PRINT_VAL_U size_.

Definition sys_listxattr (tcp : dtcb St) : D St Z :=
  (if (entering tcp) then
    tprints_arg_name "pathname" ;;
    printpath tcp (u_arg tcp 0) ;;
    nothing
  else
    print_xattr_list tcp (u_arg tcp 1) (u_arg tcp 2)) ;;
  mret 0.

Definition sys_flistxattr (tcp : dtcb St) : D St Z :=
  (if (entering tcp) then
    tprints_arg_name "fd" ;;
    printfd tcp (u_arg tcp 0)
  else
    print_xattr_list tcp (u_arg tcp 1) (u_arg tcp 2)) ;;
  mret 0.

Definition sys_removexattr (tcp : dtcb St) : D St Z :=
  tprints_arg_name "pathname" ;;
  printpath tcp (u_arg tcp 0) ;;
  tprints_arg_next_name "name" ;;
  printstr tcp (u_arg tcp 1) ;;
  mret RVAL_DECODED.

Definition sys_fremovexattr (tcp : dtcb St) : D St Z :=
  tprints_arg_name "fd" ;;
  printfd tcp (u_arg tcp 0) ;;
  tprints_arg_next_name "name" ;;
  printstr tcp (u_arg tcp 1) ;;
  mret RVAL_DECODED.

Definition decode_dirfd_pathname_flags (tcp : dtcb St) : D St () :=
  tprints_arg_name "dirfd" ;;
  print_dirfd tcp (u_arg tcp 0) ;;
  tprints_arg_next_name "pathname" ;;
  printpath tcp (u_arg tcp 1) ;;
  tprints_arg_next_name "flags" ;;
  printflags (xlat_of "xattrat_flags") (u_arg tcp 2) (Some "AT_???"%string) ;;
  nothing.

Definition decode_dirfd_pathname_flags_name (tcp : dtcb St) : D St () :=
  decode_dirfd_pathname_flags tcp ;;
  tprints_arg_next_name "name" ;;
  printstr tcp (u_arg tcp 3) ;;
  nothing.

(** struct xattr_args: value, size, flags; at least XATTR_ARGS_SIZE_VER0 bytes. *)
Definition umove_xattr_args_or_printaddr (tcp : dtcb St) (addr size : Z) : D St (option (list Z)) :=
  if size <? 16 then printaddr addr ;; mret None
  else umoven_or_printaddr tcp addr (Z.min size 16).

Definition print_xattr_args (tcp : dtcb St) (args : list Z) (addr size : Z) (decode_value : bool) : D St () :=
  tprint_struct_begin ;;
  (if decode_value then
    let val_size := if entering tcp then fu 4 8 args else uint 64 (u_rval tcp) in
    tprints_field_name "value" ;;
    print_xattr_val tcp (fu 8 0 args) val_size
  else
    tprints_field_name "value" ;;
    printaddr64 (fu 8 0 args)) ;;
  tprint_struct_next ;;
  PRINT_FIELD_U "size" (fu 4 8 args) ;;
  tprint_struct_next ;;
  PRINT_FIELD_FLAGS "flags" (fu 4 12 args) (xlat_of "xattrflags") (Some "XATTR_???"%string) ;;
  (if 16 <? size
   then print_nonzero_bytes tcp addr 16 (Z.min size get_pagesize) QUOTE_FORCE_HEX else nothing) ;;
  tprint_struct_end.

Definition sys_setxattrat (tcp : dtcb St) : D St Z :=
  let addr := u_arg tcp 4 in
  let size := u_arg tcp 5 in
  decode_dirfd_pathname_flags_name tcp ;;
  tprints_arg_next_name "args" ;;
  (args ← umove_xattr_args_or_printaddr tcp addr size;
   match args with
   | Some args => print_xattr_args tcp args addr size true
   | None => nothing
   end) ;;
  tprints_arg_next_name "size" ;;
  PRINT_VAL_U size ;;
  mret RVAL_DECODED.

(** The private data is the copy of struct xattr_args. *)
Definition sys_getxattrat (tcp : dtcb St) : D St Z :=
  let addr := u_arg tcp 4 in
  let size := u_arg tcp 5 in
  let print_size := tprints_arg_next_name "size" ;; PRINT_VAL_U size ;; mret RVAL_DECODED in
  if entering tcp then
    decode_dirfd_pathname_flags_name tcp ;;
    tprints_arg_next_name "args" ;;
    args ← umove_xattr_args_or_printaddr tcp addr size;
    match args with
    | Some args =>
        if negb (fu 4 8 args =? 0) then set_tcb_priv (PText args) ;; mret 0
        else print_xattr_args tcp args addr size false ;; print_size
    | None => print_size
    end
  else
    args ← get_tcb_priv;
    (match args with
     | PText args => print_xattr_args tcp args addr size true
     | _ => printaddr addr
     end) ;;
    print_size.

Definition sys_listxattrat (tcp : dtcb St) : D St Z :=
  (if (entering tcp) then
    decode_dirfd_pathname_flags tcp
  else
    print_xattr_list tcp (u_arg tcp 3) (u_arg tcp 4)) ;;
  mret 0.

Definition sys_removexattrat (tcp : dtcb St) : D St Z :=
  decode_dirfd_pathname_flags_name tcp ;;
  mret RVAL_DECODED.

(** ** src/uid.c *)

Definition sys_getuid (tcp : dtcb St) : D St Z :=
  mret RVAL_DECODED.

Definition sys_setfsuid (tcp : dtcb St) : D St Z :=
  tprints_arg_name "fsuid" ;;
  printuid (uint 32 (u_arg tcp 0)) ;;
  mret RVAL_DECODED.

Definition sys_setuid (tcp : dtcb St) : D St Z :=
  tprints_arg_name "uid" ;;
  printuid (uint 32 (u_arg tcp 0)) ;;
  mret RVAL_DECODED.

Definition sys_setfsgid (tcp : dtcb St) : D St Z :=
  tprints_arg_name "fsgid" ;;
  printuid (uint 32 (u_arg tcp 0)) ;;
  mret RVAL_DECODED.

Definition sys_setgid (tcp : dtcb St) : D St Z :=
  tprints_arg_name "gid" ;;
  printuid (uint 32 (u_arg tcp 0)) ;;
  mret RVAL_DECODED.

Definition get_print_uid (tcp : dtcb St) (addr : Z) : D St () :=
  (b ← umoven_or_printaddr tcp addr 4;
  match b with
  | Some b =>
      let uid := (fu 4 0 b) in tprint_indirect_begin ;;
      printuid uid ;;
      tprint_indirect_end
  | None =>
      nothing
  end).

Definition sys_getresuid (tcp : dtcb St) : D St Z :=
  if (entering tcp) then
    mret 0
  else
    tprints_arg_name "ruid" ;;
    get_print_uid tcp (u_arg tcp 0) ;;
    tprints_arg_next_name "euid" ;;
    get_print_uid tcp (u_arg tcp 1) ;;
    tprints_arg_next_name "suid" ;;
    get_print_uid tcp (u_arg tcp 2) ;;
    mret 0.

Definition sys_setreuid (tcp : dtcb St) : D St Z :=
  tprints_arg_name "ruid" ;;
  printuid (uint 32 (u_arg tcp 0)) ;;
  tprints_arg_next_name "euid" ;;
  printuid (uint 32 (u_arg tcp 1)) ;;
  mret RVAL_DECODED.

Definition sys_setresuid (tcp : dtcb St) : D St Z :=
  tprints_arg_name "ruid" ;;
  printuid (uint 32 (u_arg tcp 0)) ;;
  tprints_arg_next_name "euid" ;;
  printuid (uint 32 (u_arg tcp 1)) ;;
  tprints_arg_next_name "suid" ;;
  printuid (uint 32 (u_arg tcp 2)) ;;
  mret RVAL_DECODED.

Definition sys_getresgid (tcp : dtcb St) : D St Z :=
  if (entering tcp) then
    mret 0
  else
    tprints_arg_name "rgid" ;;
    get_print_uid tcp (u_arg tcp 0) ;;
    tprints_arg_next_name "egid" ;;
    get_print_uid tcp (u_arg tcp 1) ;;
    tprints_arg_next_name "sgid" ;;
    get_print_uid tcp (u_arg tcp 2) ;;
    mret 0.

Definition sys_setregid (tcp : dtcb St) : D St Z :=
  tprints_arg_name "rgid" ;;
  printuid (uint 32 (u_arg tcp 0)) ;;
  tprints_arg_next_name "egid" ;;
  printuid (uint 32 (u_arg tcp 1)) ;;
  mret RVAL_DECODED.

Definition sys_setresgid (tcp : dtcb St) : D St Z :=
  tprints_arg_name "rgid" ;;
  printuid (uint 32 (u_arg tcp 0)) ;;
  tprints_arg_next_name "egid" ;;
  printuid (uint 32 (u_arg tcp 1)) ;;
  tprints_arg_next_name "sgid" ;;
  printuid (uint 32 (u_arg tcp 2)) ;;
  mret RVAL_DECODED.

Definition sys_chown (tcp : dtcb St) : D St Z :=
  tprints_arg_name "pathname" ;;
  printpath tcp (u_arg tcp 0) ;;
  tprints_arg_next_name "owner" ;;
  printuid (uint 32 (u_arg tcp 1)) ;;
  tprints_arg_next_name "group" ;;
  printuid (uint 32 (u_arg tcp 2)) ;;
  mret RVAL_DECODED.

Definition sys_fchown (tcp : dtcb St) : D St Z :=
  tprints_arg_name "fd" ;;
  printfd tcp (u_arg tcp 0) ;;
  tprints_arg_next_name "owner" ;;
  printuid (uint 32 (u_arg tcp 1)) ;;
  tprints_arg_next_name "group" ;;
  printuid (uint 32 (u_arg tcp 2)) ;;
  mret RVAL_DECODED.

Definition print_gid (elem_buf : list Z) : D St bool :=
  printuid (fu 4 0 elem_buf) ;;
  mret true.

#[export] Instance print_gid_value elem_buf : IsValue (St := St) (print_gid elem_buf).
Proof. intros [f ns] Q H. unfold print_gid. wf; rewrite ?o_eta, ?valued_valued; first [contra_eq | apply H]. Qed.
#[local] Typeclasses Opaque print_gid.

(** [ngroups_max] is sysconf (_SC_NGROUPS_MAX). *)
Definition print_groups (tcp : dtcb St) (len addr : Z) : D St () :=
  if ngroups_max <? len then printaddr addr
  else print_array tcp addr (uint 32 len) 4 print_gid ;; nothing.

Definition sys_setgroups (tcp : dtcb St) : D St Z :=
  tprints_arg_name "size" ;;
  let len_ := (int (u_arg tcp 0)) in
  PRINT_VAL_D len_ ;;
  tprints_arg_next_name "list" ;;
  print_groups tcp (uint 32 len_) (u_arg tcp 1) ;;
  mret RVAL_DECODED.

Definition sys_getgroups (tcp : dtcb St) : D St Z :=
  (if (entering tcp) then
    tprints_arg_name "size" ;;
    let size_ := (int (u_arg tcp 0)) in
    PRINT_VAL_D size_
  else
    tprints_arg_next_name "list" ;;
    print_groups tcp (uint 32 (u_rval tcp)) (u_arg tcp 1)) ;;
  mret 0.

(** ** src/time.c *)

Definition print_timezone (tcp : dtcb St) (addr : Z) : D St () :=
  tz ← umoven_or_printaddr tcp addr 8;
  match tz with
  | Some tz =>
      tprint_struct_begin ;;
      PRINT_FIELD_D "tz_minuteswest" (fs 4 0 tz) ;;
      tprint_struct_next ;;
      PRINT_FIELD_D "tz_dsttime" (fs 4 4 tz) ;;
      tprint_struct_end
  | None =>
      nothing
  end.

Definition sys_gettimeofday (tcp : dtcb St) : D St Z :=
  (if (exiting tcp) then
    tprints_arg_name "tv" ;;
    other tcp "print_timeval" [(u_arg tcp 0)] ;;
    tprints_arg_next_name "tz" ;;
    print_timezone tcp (u_arg tcp 1)
  else
    nothing) ;;
  mret 0.

Definition sys_settimeofday (tcp : dtcb St) : D St Z :=
  tprints_arg_name "tv" ;;
  other tcp "print_timeval" [(u_arg tcp 0)] ;;
  tprints_arg_next_name "tz" ;;
  print_timezone tcp (u_arg tcp 1) ;;
  mret RVAL_DECODED.

Definition do_nanosleep (tcp : dtcb St) (print_ts : dtcb St -> Z -> D St Z) : D St Z :=
  (if entering tcp then
    tprints_arg_name "req" ;;
    print_ts tcp (u_arg tcp 0) ;;
    nothing
  else
    tprints_arg_next_name "rem" ;;
    (if is_erestart tcp then
      let tcp := temporarily_clear_syserror tcp in
      print_ts tcp (u_arg tcp 1) ;;
      nothing
    else printaddr (u_arg tcp 1))) ;;
  mret 0.

Definition sys_nanosleep_time32 (tcp : dtcb St) : D St Z :=
  do_nanosleep tcp (fun tcp addr => other tcp "print_timespec32" [addr]).

Definition sys_nanosleep_time64 (tcp : dtcb St) : D St Z :=
  do_nanosleep tcp (fun tcp addr => other tcp "print_timespec64" [addr]).

Definition sys_getitimer (tcp : dtcb St) : D St Z :=
  (if (entering tcp) then
    tprints_arg_name "which" ;;
    printxval (xlat_of "itimer_which") (u_arg tcp 0) (Some "ITIMER_???"%string)
  else
    tprints_arg_next_name "curr_value" ;;
    other tcp "print_itimerval" [(u_arg tcp 1)] ;;
    nothing) ;;
  mret 0.

Definition sys_setitimer (tcp : dtcb St) : D St Z :=
  (if (entering tcp) then
    tprints_arg_name "which" ;;
    printxval (xlat_of "itimer_which") (u_arg tcp 0) (Some "ITIMER_???"%string) ;;
    tprints_arg_next_name "new_value" ;;
    other tcp "print_itimerval" [(u_arg tcp 1)] ;;
    nothing
  else
    tprints_arg_next_name "old_value" ;;
    other tcp "print_itimerval" [(u_arg tcp 2)] ;;
    nothing) ;;
  mret 0.

Definition do_adjtimex (tcp : dtcb St) (print_tx : dtcb St -> Z -> D St Z) (addr : Z) : D St Z :=
  tprints_arg_name "buf" ;;
  rc ← print_tx tcp addr;
  if negb (rc =? 0) then mret 0
  else
    set_auxstr (codes <$> xlookup (xlat_of "adjtimex_state") (uint 64 (u_rval tcp))) ;;
    mret RVAL_STR.

Definition sys_adjtimex32 (tcp : dtcb St) : D St Z :=
  if exiting tcp then do_adjtimex tcp (fun tcp addr => other tcp "print_timex32" [addr]) (u_arg tcp 0)
  else mret 0.

Definition sys_adjtimex64 (tcp : dtcb St) : D St Z :=
  if exiting tcp then do_adjtimex tcp (fun tcp addr => other tcp "print_timex64" [addr]) (u_arg tcp 0)
  else mret 0.

Definition printcpuclockname (clockid : Z) : D St () :=
  let clockid := Z.land clockid CPUCLOCK_CLOCK_MASK in
  match xlookup (xlat_of "cpuclocknames") clockid with
  | Some str => tprints_string str
  | None => PRINT_VAL_X clockid
  end.

(** src/auxiliary_clock.c *)
Definition is_auxiliary_clock (clockid : Z) : bool := (CLOCK_AUX <=? clockid) && (clockid <=? CLOCK_AUX_LAST).
Definition auxiliary_clock_num (clockid : Z) : Z := uint 32 (clockid - CLOCK_AUX).
(** CLOCKID_TO_FD and CPUCLOCK_PID are the same number. *)
Definition CPUCLOCK_PID (clock : Z) : Z := int (Z.lnot (Z.shiftr clock 3)).
Definition printclockname (clockid : Z) : D St () :=
  if clockid <? 0 then
    PRINT_VAL_D clockid ;;
    if xlat_verbose xlat_verbosity =? XLAT_STYLE_RAW then nothing
    else
      tprint_comment_begin ;;
      (if Z.land clockid CLOCKFD_MASK =? CLOCKFD then
        tprints_fn_begin "FD_TO_CLOCKID" ;;
        PRINT_VAL_D (CPUCLOCK_PID clockid)
      else
        tprints_fn_begin (if negb (Z.land clockid CPUCLOCK_PERTHREAD_MASK =? 0)
                          then "MAKE_THREAD_CPUCLOCK" else "MAKE_PROCESS_CPUCLOCK") ;;
        PRINT_VAL_D (CPUCLOCK_PID clockid) ;;
        tprint_fn_next ;;
        printcpuclockname clockid) ;;
      tprint_fn_end ;;
      tprint_comment_end
  else if is_auxiliary_clock clockid then
    (if negb (xlat_verbose xlat_verbosity =? XLAT_STYLE_ABBREV) then PRINT_VAL_X clockid else nothing) ;;
    if xlat_verbose xlat_verbosity =? XLAT_STYLE_RAW then nothing
    else
      (if xlat_verbose xlat_verbosity =? XLAT_STYLE_VERBOSE then tprint_comment_begin else nothing) ;;
      tprints_string "CLOCK_AUX" ;;
      tprints_string (" + " +:+ pretty (auxiliary_clock_num clockid)) ;;
      (if xlat_verbose xlat_verbosity =? XLAT_STYLE_VERBOSE then tprint_comment_end else nothing)
  else printxval (xlat_of "clocknames") (uint 32 clockid) (Some "CLOCK_???"%string).
#[export] Instance printclockname_value clockid : IsValue (St := St) (printclockname clockid).
Proof.
  intros [f ns] Q H. unfold printclockname. wf; rewrite ?o_eta, ?valued_valued; first [contra_eq | apply H].
Qed.

Definition do_clock_settime (tcp : dtcb St) (print_ts : dtcb St -> Z -> D St Z) : D St Z :=
  tprints_arg_name "clockid" ;;
  printclockname (int (u_arg tcp 0)) ;;
  tprints_arg_next_name "tp" ;;
  print_ts tcp (u_arg tcp 1) ;;
  mret RVAL_DECODED.

Definition sys_clock_settime32 (tcp : dtcb St) : D St Z :=
  do_clock_settime tcp (fun tcp addr => other tcp "print_timespec32" [addr]).

Definition sys_clock_settime64 (tcp : dtcb St) : D St Z :=
  do_clock_settime tcp (fun tcp addr => other tcp "print_timespec64" [addr]).

Definition do_clock_gettime (tcp : dtcb St) (print_ts : dtcb St -> Z -> D St Z) : D St Z :=
  (if (entering tcp) then
    tprints_arg_name "clockid" ;;
    printclockname (int (u_arg tcp 0))
  else
    tprints_arg_next_name "tp" ;;
    print_ts tcp (u_arg tcp 1) ;;
    nothing) ;;
  mret 0.

Definition sys_clock_gettime32 (tcp : dtcb St) : D St Z :=
  do_clock_gettime tcp (fun tcp addr => other tcp "print_timespec32" [addr]).

Definition sys_clock_gettime64 (tcp : dtcb St) : D St Z :=
  do_clock_gettime tcp (fun tcp addr => other tcp "print_timespec64" [addr]).

Definition do_clock_nanosleep (tcp : dtcb St) (print_ts : dtcb St -> Z -> D St Z) : D St Z :=
  (if entering tcp then
    tprints_arg_name "clockid" ;;
    printclockname (int (u_arg tcp 0)) ;;
    tprints_arg_next_name "flags" ;;
    printflags (xlat_of "clockflags") (u_arg tcp 1) (Some "TIMER_???"%string) ;;
    tprints_arg_next_name "request" ;;
    print_ts tcp (u_arg tcp 2) ;;
    nothing
  else
    tprints_arg_next_name "remain" ;;
    (if (u_arg tcp 1 =? 0) && is_erestart tcp then
      let tcp := temporarily_clear_syserror tcp in
      print_ts tcp (u_arg tcp 3) ;;
      nothing
    else printaddr (u_arg tcp 3))) ;;
  mret 0.

Definition sys_clock_nanosleep_time32 (tcp : dtcb St) : D St Z :=
  do_clock_nanosleep tcp (fun tcp addr => other tcp "print_timespec32" [addr]).

Definition sys_clock_nanosleep_time64 (tcp : dtcb St) : D St Z :=
  do_clock_nanosleep tcp (fun tcp addr => other tcp "print_timespec64" [addr]).

Definition do_clock_adjtime (tcp : dtcb St) (print_tx : dtcb St -> Z -> D St Z) : D St Z :=
  if entering tcp then
    tprints_arg_name "clockid" ;;
    printclockname (int (u_arg tcp 0)) ;;
    mret 0
  else
    tprint_arg_next ;;
    do_adjtimex tcp print_tx (u_arg tcp 1).

Definition sys_clock_adjtime32 (tcp : dtcb St) : D St Z :=
  do_clock_adjtime tcp (fun tcp addr => other tcp "print_timex32" [addr]).

Definition sys_clock_adjtime64 (tcp : dtcb St) : D St Z :=
  do_clock_adjtime tcp (fun tcp addr => other tcp "print_timex64" [addr]).

Definition sys_timer_create (tcp : dtcb St) : D St Z :=
  (if (entering tcp) then
    tprints_arg_name "clockid" ;;
    printclockname (int (u_arg tcp 0)) ;;
    tprints_arg_next_name "sevp" ;;
    other tcp "print_sigevent" [(u_arg tcp 1)] ;;
    nothing
  else
    tprints_arg_next_name "timerid" ;;
    printnum 4 FmtD tcp (u_arg tcp 2) ;;
    nothing) ;;
  mret 0.

Definition sys_timer_delete (tcp : dtcb St) : D St Z :=
  tprints_arg_name "timerid" ;;
  PRINT_VAL_D (int (u_arg tcp 0)) ;;
  mret RVAL_DECODED.

Definition do_timer_settime (tcp : dtcb St) (print_its : dtcb St -> Z -> D St Z) : D St Z :=
  (if (entering tcp) then
    tprints_arg_name "timerid" ;;
    PRINT_VAL_D (int (u_arg tcp 0)) ;;
    tprints_arg_next_name "flags" ;;
    printflags (xlat_of "clockflags") (u_arg tcp 1) (Some "TIMER_???"%string) ;;
    tprints_arg_next_name "new_value" ;;
    print_its tcp (u_arg tcp 2) ;;
    nothing
  else
    tprints_arg_next_name "old_value" ;;
    print_its tcp (u_arg tcp 3) ;;
    nothing) ;;
  mret 0.

Definition sys_timer_settime32 (tcp : dtcb St) : D St Z :=
  do_timer_settime tcp (fun tcp addr => other tcp "print_itimerspec32" [addr]).

Definition sys_timer_settime64 (tcp : dtcb St) : D St Z :=
  do_timer_settime tcp (fun tcp addr => other tcp "print_itimerspec64" [addr]).

Definition do_timer_gettime (tcp : dtcb St) (print_its : dtcb St -> Z -> D St Z) : D St Z :=
  (if (entering tcp) then
    tprints_arg_name "timerid" ;;
    PRINT_VAL_D (int (u_arg tcp 0))
  else
    tprints_arg_next_name "curr_value" ;;
    print_its tcp (u_arg tcp 1) ;;
    nothing) ;;
  mret 0.

Definition sys_timer_gettime32 (tcp : dtcb St) : D St Z :=
  do_timer_gettime tcp (fun tcp addr => other tcp "print_itimerspec32" [addr]).

Definition sys_timer_gettime64 (tcp : dtcb St) : D St Z :=
  do_timer_gettime tcp (fun tcp addr => other tcp "print_itimerspec64" [addr]).

Definition sys_timerfd_create (tcp : dtcb St) : D St Z :=
  tprints_arg_name "clockid" ;;
  printclockname (int (u_arg tcp 0)) ;;
  tprints_arg_next_name "flags" ;;
  printflags (xlat_of "timerfdflags") (u_arg tcp 1) (Some "TFD_???"%string) ;;
  mret (Z.lor RVAL_DECODED RVAL_FD).

Definition do_timerfd_settime (tcp : dtcb St) (print_its : dtcb St -> Z -> D St Z) : D St Z :=
  (if (entering tcp) then
    tprints_arg_name "fd" ;;
    printfd tcp (u_arg tcp 0) ;;
    tprints_arg_next_name "flags" ;;
    printflags (xlat_of "timerfdflags") (u_arg tcp 1) (Some "TFD_???"%string) ;;
    tprints_arg_next_name "new_value" ;;
    print_its tcp (u_arg tcp 2) ;;
    nothing
  else
    tprints_arg_next_name "old_value" ;;
    print_its tcp (u_arg tcp 3) ;;
    nothing) ;;
  mret 0.

Definition sys_timerfd_settime32 (tcp : dtcb St) : D St Z :=
  do_timerfd_settime tcp (fun tcp addr => other tcp "print_itimerspec32" [addr]).

Definition sys_timerfd_settime64 (tcp : dtcb St) : D St Z :=
  do_timerfd_settime tcp (fun tcp addr => other tcp "print_itimerspec64" [addr]).

Definition do_timerfd_gettime (tcp : dtcb St) (print_its : dtcb St -> Z -> D St Z) : D St Z :=
  (if (entering tcp) then
    tprints_arg_name "fd" ;;
    printfd tcp (u_arg tcp 0)
  else
    tprints_arg_next_name "curr_value" ;;
    print_its tcp (u_arg tcp 1) ;;
    nothing) ;;
  mret 0.

Definition sys_timerfd_gettime32 (tcp : dtcb St) : D St Z :=
  do_timerfd_gettime tcp (fun tcp addr => other tcp "print_itimerspec32" [addr]).

Definition sys_timerfd_gettime64 (tcp : dtcb St) : D St Z :=
  do_timerfd_gettime tcp (fun tcp addr => other tcp "print_itimerspec64" [addr]).

(** ** src/sched.c *)

Definition sprint_policy (policy : Z) : option string :=
  if policy <? 0 then None
  else
    let rest := Z.land policy (Z.lnot SCHED_RESET_ON_FORK) in
    let policy_str := xlookup (xlat_of "schedulers") rest in
    if negb (Z.land policy SCHED_RESET_ON_FORK =? 0) then
      match policy_str with
      | Some policy_str => Some ("SCHED_RESET_ON_FORK|" +:+ policy_str)
      | None => Some ("SCHED_RESET_ON_FORK|" +:+ fmt_hex rest)
      end
    else policy_str.

Definition print_policy (policy : Z) : D St () :=
  match sprint_policy policy with
  | Some policy_str => print_xlat_ex (uint 32 policy) (Some policy_str) XLAT_STYLE_DEFAULT
  | None => print_xlat_ex (uint 32 policy) (Some "SCHED_???"%string) PXF_DEFAULT_STR
  end.

Definition print_sched_param (tcp : dtcb St) (addr : Z) : D St () :=
  param ← umoven_or_printaddr tcp addr 4;
  match param with
  | Some param =>
      tprint_struct_begin ;;
      PRINT_FIELD_D "sched_priority" (fs 4 0 param) ;;
      tprint_struct_end
  | None =>
      nothing
  end.

Definition sys_sched_getscheduler (tcp : dtcb St) : D St Z :=
  if entering tcp then
    tprints_arg_name "pid" ;;
    printpid tcp (u_arg tcp 0) PT_TGID ;;
    mret 0
  else if negb (syserror tcp) then
    set_auxstr (codes <$> sprint_policy (u_rval tcp)) ;;
    mret (Z.lor RVAL_HEX RVAL_STR)
  else mret 0.

Definition sys_sched_setscheduler (tcp : dtcb St) : D St Z :=
  tprints_arg_name "pid" ;;
  printpid tcp (u_arg tcp 0) PT_TGID ;;
  tprints_arg_next_name "policy" ;;
  print_policy (int (u_arg tcp 1)) ;;
  tprints_arg_next_name "param" ;;
  print_sched_param tcp (u_arg tcp 2) ;;
  mret RVAL_DECODED.

Definition sys_sched_getparam (tcp : dtcb St) : D St Z :=
  (if (entering tcp) then
    tprints_arg_name "pid" ;;
    printpid tcp (u_arg tcp 0) PT_TGID
  else
    tprints_arg_next_name "param" ;;
    print_sched_param tcp (u_arg tcp 1)) ;;
  mret 0.

Definition sys_sched_setparam (tcp : dtcb St) : D St Z :=
  tprints_arg_name "pid" ;;
  printpid tcp (u_arg tcp 0) PT_TGID ;;
  tprints_arg_next_name "param" ;;
  print_sched_param tcp (u_arg tcp 1) ;;
  mret RVAL_DECODED.

Definition sys_sched_get_priority_min (tcp : dtcb St) : D St Z :=
  tprints_arg_name "policy" ;;
  printxval (xlat_of "schedulers") (u_arg tcp 0) (Some "SCHED_???"%string) ;;
  mret RVAL_DECODED.

Definition do_sched_rr_get_interval (tcp : dtcb St) (print_ts : dtcb St -> Z -> D St Z) : D St Z :=
  (if (entering tcp) then
    tprints_arg_name "pid" ;;
    printpid tcp (u_arg tcp 0) PT_TGID
  else
    tprints_arg_next_name "tp" ;;
    (if (syserror tcp) then
      printaddr (u_arg tcp 1)
    else
      print_ts tcp (u_arg tcp 1) ;;
      nothing)) ;;
  mret 0.

Definition sys_sched_rr_get_interval_time32 (tcp : dtcb St) : D St Z :=
  do_sched_rr_get_interval tcp (fun tcp addr => other tcp "print_timespec32" [addr]).

Definition sys_sched_rr_get_interval_time64 (tcp : dtcb St) : D St Z :=
  do_sched_rr_get_interval tcp (fun tcp addr => other tcp "print_timespec64" [addr]).

(** struct sched_attr: size, sched_policy, sched_flags, sched_nice, sched_priority,
    sched_runtime, sched_deadline, sched_period, sched_util_min, sched_util_max.
    The structure, the size that is shown of it, and the size that was asked for. *)
Definition fetch_sched_attr (tcp : dtcb St) (addr usize : Z) : D St (option (list Z * Z * Z)) :=
  if negb (usize =? 0) then
    let size := if usize <=? 56 then usize else 56 in
    attr ← umoven_or_printaddr tcp addr size;
    match attr with
    | None => mret None
    | Some attr => let attr := padded 56 attr in mret (Some (attr, fu 4 0 attr, usize))
    end
  else
    attr ← umoven_or_printaddr tcp addr 4;
    match attr with
    | None => mret None
    | Some attr =>
        let attr := padded 56 attr in
        let usize := fu 4 0 attr in
        let usize := if usize =? 0 then SCHED_ATTR_SIZE_VER0 else usize in
        let size := if usize <=? 56 then usize else 56 in
        if SCHED_ATTR_SIZE_VER0 <=? size then
          attr ← umoven_or_printaddr tcp addr size;
          match attr with
          | None => mret None
          | Some attr => mret (Some (padded 56 attr, size, usize))
          end
        else mret (Some (attr, size, usize))
    end.

Definition print_sched_attr_fields (attr : list Z) (size : Z) (is_set : bool) : D St () :=
  let sched_flags := fu 8 8 attr in
  if size <? SCHED_ATTR_SIZE_VER0 then nothing
  else
    (if negb is_set || (fs 4 4 attr <? 0)
        || (Z.land sched_flags (Z.lor SCHED_FLAG_KEEP_POLICY SCHED_FLAG_KEEP_PARAMS) =? 0) then
      tprint_struct_next ;;
      PRINT_FIELD_XVAL "sched_policy" (fu 4 4 attr) (xlat_of "schedulers") (Some "SCHED_???"%string)
    else nothing) ;;
    tprint_struct_next ;;
    PRINT_FIELD_FLAGS "sched_flags" sched_flags (xlat_of "sched_flags") (Some "SCHED_FLAG_???"%string) ;;
    (if negb is_set || (Z.land sched_flags SCHED_FLAG_KEEP_PARAMS =? 0) then
      tprint_struct_next ;;
      PRINT_FIELD_D "sched_nice" (fs 4 16 attr) ;;
      tprint_struct_next ;;
      PRINT_FIELD_U "sched_priority" (fu 4 20 attr) ;;
      tprint_struct_next ;;
      PRINT_FIELD_U "sched_runtime" (fu 8 24 attr) ;;
      tprint_struct_next ;;
      PRINT_FIELD_U "sched_deadline" (fu 8 32 attr) ;;
      tprint_struct_next ;;
      PRINT_FIELD_U "sched_period" (fu 8 40 attr)
    else nothing) ;;
    if size <? SCHED_ATTR_SIZE_VER1 then nothing
    else
      tprint_struct_next ;;
      PRINT_FIELD_U "sched_util_min" (fu 4 48 attr) ;;
      tprint_struct_next ;;
      PRINT_FIELD_U "sched_util_max" (fu 4 52 attr).

Definition print_sched_attr (tcp : dtcb St) (addr usize : Z) : D St () :=
  let is_set := usize =? 0 in
  a ← fetch_sched_attr tcp addr usize;
  match a with
  | None => nothing
  | Some (attr, size, usize) =>
      tprint_struct_begin ;;
      PRINT_FIELD_U "size" (fu 4 0 attr) ;;
      print_sched_attr_fields attr size is_set ;;
      (if size <? (if is_set then usize else fu 4 0 attr) then tprint_struct_next ;; tprint_more_data_follows else nothing) ;;
      tprint_struct_end
  end.

#[export] Instance print_sched_attr_value tcp addr usize : IsValue (print_sched_attr tcp addr usize).
Proof.
  intros [f ns] Q H. unfold print_sched_attr, fetch_sched_attr. repeat first [join_step | wf_step]; apply H.
Qed.

Definition sys_sched_setattr (tcp : dtcb St) : D St Z :=
  if entering tcp then
    tprints_arg_name "pid" ;;
    printpid tcp (u_arg tcp 0) PT_TGID ;;
    tprints_arg_next_name "attr" ;;
    print_sched_attr tcp (u_arg tcp 1) 0 ;;
    mret 0
  else
    (if verbose tcp && (u_error tcp =? E2BIG) then
      size ← umoven tcp (u_arg tcp 1) 4;
      match size with
      | Some size =>
          tprint_value_changed ;;
          tprint_struct_begin ;;
          PRINT_FIELD_U "size" (fu 4 0 size) ;;
          tprint_struct_end
      | None => nothing
      end
    else nothing) ;;
    tprints_arg_next_name "flags" ;;
    PRINT_VAL_X (uint 32 (u_arg tcp 2)) ;;
    mret 0.

Definition sys_sched_getattr (tcp : dtcb St) : D St Z :=
  (if (entering tcp) then
    tprints_arg_name "pid" ;;
    printpid tcp (u_arg tcp 0) PT_TGID
  else
    let size_ := (uint 32 (u_arg tcp 2)) in
    tprints_arg_next_name "attr" ;;
    (if (negb (size_ =? 0)) then
      print_sched_attr tcp (u_arg tcp 1) size_
    else
      printaddr (u_arg tcp 1)) ;;
    tprints_arg_next_name "size" ;;
    PRINT_VAL_U size_ ;;
    tprints_arg_next_name "flags" ;;
    printflags (xlat_of "sched_getattr_flags") (u_arg tcp 3) (Some "SCHED_GETATTR_FLAG_???"%string) ;;
    nothing) ;;
  mret 0.

(** ** src/resource.c *)

Definition print_rlim64_t (lim : Z) : D St () :=
  let str :=
    if lim =? 2 ^ 64 - 1 then Some "RLIM64_INFINITY"%string
    else if (1024 <? lim) && (lim mod 1024 =? 0) then Some (pretty (lim / 1024) +:+ "*1024")
    else None in
  match str with
  | None => PRINT_VAL_U lim
  | Some str =>
      (if negb (xlat_verbose xlat_verbosity =? XLAT_STYLE_ABBREV) then PRINT_VAL_U lim else nothing) ;;
      if xlat_verbose xlat_verbosity =? XLAT_STYLE_RAW then nothing
      else if xlat_verbose xlat_verbosity =? XLAT_STYLE_VERBOSE then tprints_comment (Some (codes str))
      else tprints_string str
  end.
#[export] Instance print_rlim64_t_value lim : IsValue (St := St) (print_rlim64_t lim).
Proof.
  intros [f ns] Q H. unfold print_rlim64_t. wf; rewrite ?o_eta, ?valued_valued; first [contra_eq | apply H].
Qed.

Definition print_rlimit64 (tcp : dtcb St) (addr : Z) : D St () :=
  rlim ← umoven_or_printaddr tcp addr 16;
  match rlim with
  | Some rlim =>
      tprint_struct_begin ;;
      tprints_field_name "rlim_cur" ;;
      print_rlim64_t (fu 8 0 rlim) ;;
      tprint_struct_next ;;
      tprints_field_name "rlim_max" ;;
      print_rlim64_t (fu 8 8 rlim) ;;
      tprint_struct_end
  | None => nothing
  end.

Definition print_rlim32_t (lim : Z) : D St () :=
  let str :=
    if lim =? 2 ^ 32 - 1 then Some "RLIM_INFINITY"%string
    else if (1024 <? lim) && (lim mod 1024 =? 0) then Some (pretty (lim / 1024) +:+ "*1024")
    else None in
  match str with
  | None => PRINT_VAL_U lim
  | Some str =>
      (if negb (xlat_verbose xlat_verbosity =? XLAT_STYLE_ABBREV) then PRINT_VAL_U lim else nothing) ;;
      if xlat_verbose xlat_verbosity =? XLAT_STYLE_RAW then nothing
      else if xlat_verbose xlat_verbosity =? XLAT_STYLE_VERBOSE then tprints_comment (Some (codes str))
      else tprints_string str
  end.
#[export] Instance print_rlim32_t_value lim : IsValue (St := St) (print_rlim32_t lim).
Proof.
  intros [f ns] Q H. unfold print_rlim32_t. wf; rewrite ?o_eta, ?valued_valued; first [contra_eq | apply H].
Qed.

Definition print_rlimit32 (tcp : dtcb St) (addr : Z) : D St () :=
  rlim ← umoven_or_printaddr tcp addr 8;
  match rlim with
  | Some rlim =>
      tprint_struct_begin ;;
      tprints_field_name "rlim_cur" ;;
      print_rlim32_t (fu 4 0 rlim) ;;
      tprint_struct_next ;;
      tprints_field_name "rlim_max" ;;
      print_rlim32_t (fu 4 4 rlim) ;;
      tprint_struct_end
  | None => nothing
  end.

Definition decode_rlimit (tcp : dtcb St) (addr : Z) : D St () :=
  (if (current_klongsize =? 4) then
    print_rlimit32 tcp addr
  else
    print_rlimit64 tcp addr).

Definition sys_getrlimit (tcp : dtcb St) : D St Z :=
  (if (entering tcp) then
    tprints_arg_name "resource" ;;
    printxval (xlat_of "resources") (u_arg tcp 0) (Some "RLIMIT_???"%string)
  else
    tprints_arg_next_name "rlim" ;;
    decode_rlimit tcp (u_arg tcp 1)) ;;
  mret 0.

Definition sys_setrlimit (tcp : dtcb St) : D St Z :=
  tprints_arg_name "resource" ;;
  printxval (xlat_of "resources") (u_arg tcp 0) (Some "RLIMIT_???"%string) ;;
  tprints_arg_next_name "rlim" ;;
  decode_rlimit tcp (u_arg tcp 1) ;;
  mret RVAL_DECODED.

Definition sys_prlimit64 (tcp : dtcb St) : D St Z :=
  (if (entering tcp) then
    tprints_arg_name "pid" ;;
    printpid tcp (u_arg tcp 0) PT_TGID ;;
    tprints_arg_next_name "resource" ;;
    printxval (xlat_of "resources") (u_arg tcp 1) (Some "RLIMIT_???"%string) ;;
    tprints_arg_next_name "new_limit" ;;
    print_rlimit64 tcp (u_arg tcp 2)
  else
    tprints_arg_next_name "old_limit" ;;
    print_rlimit64 tcp (u_arg tcp 3)) ;;
  mret 0.

Definition sys_getrusage (tcp : dtcb St) : D St Z :=
  (if (entering tcp) then
    tprints_arg_name "who" ;;
    printxval (xlat_of "usagewho") (u_arg tcp 0) (Some "RUSAGE_???"%string)
  else
    tprints_arg_next_name "usage" ;;
    other tcp "printrusage" [(u_arg tcp 1)] ;;
    nothing) ;;
  mret 0.

Definition priority_print_who (tcp : dtcb St) (which : Z) (who : Z) : D St () :=
  (if (which =? PRIO_PROCESS) then
    printpid tcp who PT_TGID
  else if (which =? PRIO_PGRP) then
    printpid tcp who PT_PGID
  else PRINT_VAL_D who).

Definition sys_getpriority (tcp : dtcb St) : D St Z :=
  tprints_arg_name "which" ;;
  printxval (xlat_of "priorities") (u_arg tcp 0) (Some "PRIO_???"%string) ;;
  tprints_arg_next_name "who" ;;
  priority_print_who tcp (int (u_arg tcp 0)) (int (u_arg tcp 1)) ;;
  mret RVAL_DECODED.

Definition sys_setpriority (tcp : dtcb St) : D St Z :=
  tprints_arg_name "which" ;;
  printxval (xlat_of "priorities") (u_arg tcp 0) (Some "PRIO_???"%string) ;;
  tprints_arg_next_name "who" ;;
  priority_print_who tcp (int (u_arg tcp 0)) (int (u_arg tcp 1)) ;;
  tprints_arg_next_name "prio" ;;
  PRINT_VAL_D (int (u_arg tcp 2)) ;;
  mret RVAL_DECODED.

(** ** src/wait.c *)

Definition print_wait_status (status : Z) : D St () :=
  tprint_indirect_begin ;;
  tprint_flags_begin ;;
  let known : option (string * Z) :=
    if WIFSTOPPED status then
      let sig := WSTOPSIG status in
      Some ("{WIFSTOPPED(s) && WSTOPSIG(s) == " +:+ sprintsigname (Z.land sig 0x7f)
              +:+ (if negb (Z.land sig 0x80 =? 0) then " | 0x80" else EmptyString) +:+ "}",
            Z.land status (Z.lnot (W_STOPCODE sig)))
    else if WIFSIGNALED status then
      Some ("{WIFSIGNALED(s) && WTERMSIG(s) == " +:+ sprintsigname (WTERMSIG status)
              +:+ (if WCOREDUMP status then " && WCOREDUMP(s)" else EmptyString) +:+ "}",
            Z.land status (Z.lnot (Z.lor (W_EXITCODE 0 (WTERMSIG status)) 0x80)))
    else if WIFEXITED status then
      Some ("{WIFEXITED(s) && WEXITSTATUS(s) == " +:+ pretty (WEXITSTATUS status) +:+ "}",
            Z.land status (Z.lnot (W_EXITCODE (WEXITSTATUS status) 0)))
    else if status =? W_CONTINUED then Some ("{WIFCONTINUED(s)}"%string, Z.land status (Z.lnot W_CONTINUED))
    else None in
  match known with
  | None =>
      PRINT_VAL_X (uint 32 status) ;;
      tprint_flags_end ;;
      tprint_indirect_end
  | Some (s, status) =>
      tprints_string s ;;
      (if negb (status =? 0) then
        let event := Z.shiftr (uint 32 status) 16 in
        (if negb (event =? 0) then
          tprint_flags_or ;;
          tprint_shift_begin ;;
          printxval (xlat_of "ptrace_events") event (Some "PTRACE_EVENT_???"%string) ;;
          tprint_shift ;;
          PRINT_VAL_U 16 ;;
          tprint_shift_end
        else nothing) ;;
        let status := if negb (event =? 0) then Z.land status 0xffff else status in
        (if negb (status =? 0) then
          tprint_flags_or ;;
          PRINT_VAL_X (uint 32 status)
        else nothing)
      else nothing) ;;
      tprint_flags_end ;;
      tprint_indirect_end
  end.
#[export] Instance print_wait_status_value status : IsValue (St := St) (print_wait_status status).
Proof. intros [f ns] Q H. unfold print_wait_status. wf; apply H. Qed.

Definition printwaitn (tcp : dtcb St) (print_rusage : option (dtcb St -> Z -> D St Z)) : D St Z :=
  (if entering tcp then
    tprints_arg_name "pid" ;;
    other tcp "printpid_tgid_pgid" [int (u_arg tcp 0)] ;;
    nothing
  else
    tprints_arg_next_name "status" ;;
    (if u_rval tcp =? 0 then printaddr (u_arg tcp 1)
     else
       status ← umoven_or_printaddr tcp (u_arg tcp 1) 4;
       match status with
       | Some status => print_wait_status (fs 4 0 status)
       | None => nothing
       end) ;;
    tprints_arg_next_name "options" ;;
    printflags (xlat_of "wait4_options") (u_arg tcp 2) (Some "W???"%string) ;;
    match print_rusage with
    | Some print_rusage =>
        tprints_arg_next_name "usage" ;;
        (if 0 <? u_rval tcp then print_rusage tcp (u_arg tcp 3) ;; nothing
         else printaddr (u_arg tcp 3))
    | None => nothing
    end) ;;
  mret RVAL_TGID.

Definition sys_waitpid (tcp : dtcb St) : D St Z := printwaitn tcp None.

Definition sys_wait4 (tcp : dtcb St) : D St Z :=
  printwaitn tcp (Some (fun tcp addr => other tcp "printrusage" [addr])).

Definition sys_waitid (tcp : dtcb St) : D St Z :=
  let idtype := (uint 32 (u_arg tcp 0)) in
  let id := (int (u_arg tcp 1)) in
  (if (entering tcp) then
    tprints_arg_name "idtype" ;;
    printxval (xlat_of "waitid_types") idtype (Some "P_???"%string) ;;
    tprints_arg_next_name "id" ;;
    (if (idtype =? P_PID) then
      printpid tcp id PT_TGID
    else if (idtype =? P_PIDFD) then
      printfd tcp id
    else if (idtype =? P_PGID) then
      printpid tcp id PT_PGID
    else PRINT_VAL_D id)
  else
    tprints_arg_next_name "siginfo" ;;
    other tcp "printsiginfo_at" [(u_arg tcp 2)] ;;
    tprints_arg_next_name "options" ;;
    printflags (xlat_of "wait4_options") (u_arg tcp 3) (Some "W???"%string) ;;
    tprints_arg_next_name "usage" ;;
    other tcp "printrusage" [(u_arg tcp 4)] ;;
    nothing) ;;
  mret 0.

(** ** src/numa.c *)

Definition print_node (elem_buf : list Z) : D St bool :=
  (if current_wordsize <? 8 then PRINT_VAL_0X 4 (fu 4 0 elem_buf) else PRINT_VAL_0X 8 (fu 8 0 elem_buf)) ;;
  mret true.

#[export] Instance print_node_value elem_buf : IsValue (St := St) (print_node elem_buf).
Proof. intros [f ns] Q H. unfold print_node. wf; rewrite ?o_eta, ?valued_valued; first [contra_eq | apply H]. Qed.
#[local] Typeclasses Opaque print_node.

Definition print_nodemask (tcp : dtcb St) (addr maxnodes : Z) : D St () :=
  let bits_per_long := 8 * current_wordsize in
  let nmemb := uint 64 (uint 64 (maxnodes + bits_per_long) - 2) / bits_per_long in
  if (nmemb <? maxnodes / bits_per_long) || (negb (maxnodes =? 0) && (nmemb =? 0)) then printaddr addr
  else print_array tcp addr (uint 64 nmemb) current_wordsize print_node ;; nothing.

Definition sys_migrate_pages (tcp : dtcb St) : D St Z :=
  tprints_arg_name "pid" ;;
  printpid tcp (u_arg tcp 0) PT_TGID ;;
  tprints_arg_next_name "maxnode" ;;
  PRINT_VAL_U (u_arg tcp 1) ;;
  tprints_arg_next_name "old_nodes" ;;
  print_nodemask tcp (u_arg tcp 2) (u_arg tcp 1) ;;
  tprints_arg_next_name "new_nodes" ;;
  print_nodemask tcp (u_arg tcp 3) (u_arg tcp 1) ;;
  mret RVAL_DECODED.

Definition print_mode (tcp : dtcb St) (mode_arg : Z) : D St () :=
  let flags_mask := Z.lor (Z.lor MPOL_F_STATIC_NODES MPOL_F_RELATIVE_NODES) MPOL_F_NUMA_BALANCING in
  let mode := Z.land mode_arg (uint 64 (Z.lnot flags_mask)) in
  let flags := uint 32 (Z.land mode_arg flags_mask) in
  if flags =? 0 then printxval64 (xlat_of "mpol_modes") mode (Some "MPOL_???"%string)
  else
    match xlookup (xlat_of "mpol_modes") mode with
    | None => printflags64 (xlat_of "mpol_mode_flags") mode_arg (Some "MPOL_F_???"%string) ;; nothing
    | Some mode_str =>
        (if negb (xlat_verbose xlat_verbosity =? XLAT_STYLE_ABBREV) then PRINT_VAL_X mode_arg else nothing) ;;
        if xlat_verbose xlat_verbosity =? XLAT_STYLE_RAW then nothing
        else
          (if xlat_verbose xlat_verbosity =? XLAT_STYLE_VERBOSE then tprint_comment_begin else nothing) ;;
          tprint_flags_begin ;;
          tprints_string mode_str ;;
          tprint_flags_or ;;
          printflags_ex flags None XLAT_STYLE_ABBREV (xlat_of "mpol_mode_flags") ;;
          tprint_flags_end ;;
          (if xlat_verbose xlat_verbosity =? XLAT_STYLE_VERBOSE then tprint_comment_end else nothing)
    end.

Definition sys_mbind (tcp : dtcb St) : D St Z :=
  tprints_arg_name "addr" ;;
  printaddr (u_arg tcp 0) ;;
  tprints_arg_next_name "len" ;;
  PRINT_VAL_U (u_arg tcp 1) ;;
  tprints_arg_next_name "mode" ;;
  print_mode tcp (u_arg tcp 2) ;;
  tprints_arg_next_name "nodemask" ;;
  print_nodemask tcp (u_arg tcp 3) (u_arg tcp 4) ;;
  tprints_arg_next_name "maxnode" ;;
  PRINT_VAL_U (u_arg tcp 4) ;;
  tprints_arg_next_name "flags" ;;
  printflags (xlat_of "mbind_flags") (u_arg tcp 5) (Some "MPOL_MF_???"%string) ;;
  mret RVAL_DECODED.

Definition sys_set_mempolicy (tcp : dtcb St) : D St Z :=
  tprints_arg_name "mode" ;;
  print_mode tcp (uint 32 (u_arg tcp 0)) ;;
  tprints_arg_next_name "nodemask" ;;
  print_nodemask tcp (u_arg tcp 1) (u_arg tcp 2) ;;
  tprints_arg_next_name "maxnode" ;;
  PRINT_VAL_U (u_arg tcp 2) ;;
  mret RVAL_DECODED.

Definition sys_get_mempolicy (tcp : dtcb St) : D St Z :=
  (if (exiting tcp) then
    tprints_arg_name "mode" ;;
    (b ← umoven_or_printaddr tcp (u_arg tcp 0) 4;
    match b with
    | Some b =>
        let pol := (fs 4 0 b) in tprint_indirect_begin ;;
        printxval (xlat_of "mpol_modes") pol (Some "MPOL_???"%string) ;;
        tprint_indirect_end
    | None =>
        nothing
    end) ;;
    tprints_arg_next_name "nodemask" ;;
    print_nodemask tcp (u_arg tcp 1) (u_arg tcp 2) ;;
    tprints_arg_next_name "maxnode" ;;
    PRINT_VAL_U (u_arg tcp 2) ;;
    tprints_arg_next_name "addr" ;;
    printaddr (u_arg tcp 3) ;;
    tprints_arg_next_name "flags" ;;
    printflags64 (xlat_of "get_mempolicy_flags") (u_arg tcp 4) (Some "MPOL_F_???"%string) ;;
    nothing
  else
    nothing) ;;
  mret 0.

Definition sys_set_mempolicy_home_node (tcp : dtcb St) : D St Z :=
  tprints_arg_name "start" ;;
  printaddr (u_arg tcp 0) ;;
  tprints_arg_next_name "len" ;;
  PRINT_VAL_U (u_arg tcp 1) ;;
  tprints_arg_next_name "home_node" ;;
  PRINT_VAL_U (u_arg tcp 2) ;;
  tprints_arg_next_name "flags" ;;
  PRINT_VAL_X (u_arg tcp 3) ;;
  mret RVAL_DECODED.

Definition print_addr (elem_buf : list Z) : D St bool :=
  printaddr (if current_wordsize <? 8 then fu 4 0 elem_buf else fu 8 0 elem_buf) ;;
  mret true.

#[export] Instance print_addr_value elem_buf : IsValue (St := St) (print_addr elem_buf).
Proof. intros [f ns] Q H. unfold print_addr. wf; rewrite ?o_eta, ?valued_valued; first [contra_eq | apply H]. Qed.
#[local] Typeclasses Opaque print_addr.

Definition print_status (tcp : dtcb St) (elem_buf : list Z) : D St bool :=
  other tcp "print_err" [fs 4 0 elem_buf; 1] ;;
  mret true.

#[export] Instance print_status_value tcp elem_buf : IsValue (print_status tcp elem_buf).
Proof. intros [f ns] Q H. unfold print_status. wf; rewrite ?o_eta, ?valued_valued; first [contra_eq | apply H]. Qed.
#[local] Typeclasses Opaque print_status.

Definition sys_move_pages (tcp : dtcb St) : D St Z :=
  let npages := u_arg tcp 1 in
  (if entering tcp then
    tprints_arg_name "pid" ;;
    printpid tcp (u_arg tcp 0) PT_TGID ;;
    tprints_arg_next_name "count" ;;
    PRINT_VAL_U npages ;;
    tprints_arg_next_name "pages" ;;
    print_array tcp (u_arg tcp 2) npages current_wordsize print_addr ;;
    tprints_arg_next_name "nodes" ;;
    print_array tcp (u_arg tcp 3) npages 4 (print_int_array_member 4) ;;
    nothing
  else
    tprints_arg_next_name "status" ;;
    print_array tcp (u_arg tcp 4) npages 4 (print_status tcp) ;;
    tprints_arg_next_name "flags" ;;
    printflags (xlat_of "move_pages_flags") (u_arg tcp 5) (Some "MPOL_MF_???"%string) ;;
    nothing) ;;
  mret 0.

(** ** src/futex.c *)

(** val3 of FUTEX_WAKE_OP *)
Definition print_futex_wake_op (val3 : Z) : D St () :=
  tprint_flags_begin ;;
  (if negb (Z.land (Z.shiftr val3 28) FUTEX_OP_OPARG_SHIFT =? 0) then
    tprint_shift_begin ;;
    print_xlat FUTEX_OP_OPARG_SHIFT "FUTEX_OP_OPARG_SHIFT" ;;
    tprint_shift ;;
    PRINT_VAL_U 28 ;;
    tprint_shift_end ;;
    tprint_flags_or
  else nothing) ;;
  tprint_shift_begin ;;
  found ← printxval_rc (xlat_of "futexwakeops") (Z.land (Z.shiftr val3 28) 7) None;
  tprint_shift ;;
  PRINT_VAL_U 28 ;;
  tprint_shift_end ;;
  tprints_comment (if found : bool then None else Some (codes "FUTEX_OP_???")) ;;
  tprint_flags_or ;;
  tprint_shift_begin ;;
  PRINT_VAL_X (Z.land (Z.shiftr val3 12) 0xfff) ;;
  tprint_shift ;;
  PRINT_VAL_U 12 ;;
  tprint_shift_end ;;
  tprint_flags_or ;;
  tprint_shift_begin ;;
  found ← printxval_rc (xlat_of "futexwakecmps") (Z.land (Z.shiftr val3 24) 0xf) None;
  tprint_shift ;;
  PRINT_VAL_U 24 ;;
  tprint_shift_end ;;
  tprints_comment (if found : bool then None else Some (codes "FUTEX_OP_CMP_???")) ;;
  tprint_flags_or ;;
  PRINT_VAL_X (Z.land val3 0xfff) ;;
  tprint_flags_end.

Definition do_futex (tcp : dtcb St) (print_ts : dtcb St -> Z -> D St Z) : D St Z :=
  let uaddr := u_arg tcp 0 in
  let op := int (u_arg tcp 1) in
  let cmd := Z.land op 127 in
  let timeout := u_arg tcp 3 in
  let uaddr2 := u_arg tcp 4 in
  let val := uint 32 (u_arg tcp 2) in
  let val2 := uint 32 (u_arg tcp 3) in
  let val3 := uint 32 (u_arg tcp 5) in
  let print_val := tprints_arg_next_name "val" ;; PRINT_VAL_U val in
  let print_timeout := tprints_arg_next_name "timeout" ;; print_ts tcp timeout ;; nothing in
  let print_val2 := tprints_arg_next_name "val2" ;; PRINT_VAL_U val2 in
  let print_uaddr2 := tprints_arg_next_name "uaddr2" ;; printaddr uaddr2 in
  let print_bitset := tprints_arg_next_name "val3" ;; printxval (xlat_of "futexbitset") val3 None in
  tprints_arg_name "uaddr" ;;
  printaddr uaddr ;;
  tprints_arg_next_name "futex_op" ;;
  printxval (xlat_of "futexops") (uint 32 op) (Some "FUTEX_???"%string) ;;
  (if cmd =? FUTEX_WAIT then print_val ;; print_timeout
   else if (cmd =? FUTEX_LOCK_PI) || (cmd =? FUTEX_LOCK_PI2) then print_timeout
   else if cmd =? FUTEX_WAIT_BITSET then print_val ;; print_timeout ;; print_bitset
   else if cmd =? FUTEX_WAKE_BITSET then print_val ;; print_bitset
   else if cmd =? FUTEX_REQUEUE then print_val ;; print_val2 ;; print_uaddr2
   else if (cmd =? FUTEX_CMP_REQUEUE) || (cmd =? FUTEX_CMP_REQUEUE_PI) then
     print_val ;; print_val2 ;; print_uaddr2 ;;
     tprints_arg_next_name "val3" ;;
     PRINT_VAL_U val3
   else if cmd =? FUTEX_WAKE_OP then
     print_val ;; print_val2 ;; print_uaddr2 ;;
     tprints_arg_next_name "val3" ;;
     print_futex_wake_op val3
   else if cmd =? FUTEX_WAIT_REQUEUE_PI then print_val ;; print_timeout ;; print_uaddr2
   else if (cmd =? FUTEX_FD) || (cmd =? FUTEX_WAKE) then print_val
   else if (cmd =? FUTEX_UNLOCK_PI) || (cmd =? FUTEX_TRYLOCK_PI) then nothing
   else
     print_val ;;
     tprints_arg_next_name "timeout" ;;
     printaddr timeout ;;
     print_uaddr2 ;;
     tprints_arg_next_name "val3" ;;
     PRINT_VAL_X val3) ;;
  mret RVAL_DECODED.

Definition sys_futex_time32 (tcp : dtcb St) : D St Z :=
  do_futex tcp (fun tcp addr => other tcp "print_timespec32" [addr]).

Definition sys_futex_time64 (tcp : dtcb St) : D St Z :=
  do_futex tcp (fun tcp addr => other tcp "print_timespec64" [addr]).

(** ** src/futex2.c *)

Definition print_futex2_flags (flags : Z) : D St () :=
  (if negb (xlat_verbose xlat_verbosity =? XLAT_STYLE_ABBREV) then PRINT_VAL_X flags else nothing) ;;
  if xlat_verbose xlat_verbosity =? XLAT_STYLE_RAW then nothing
  else
    (if xlat_verbose xlat_verbosity =? XLAT_STYLE_VERBOSE then tprint_comment_begin else nothing) ;;
    tprint_flags_begin ;;
    printxvals_ex (Z.land flags FUTEX2_SIZE_MASK) None XLAT_STYLE_ABBREV (xlat_of "futex2_sizes") ;;
    let flags := Z.land flags (Z.lnot FUTEX2_SIZE_MASK) in
    (if negb (flags =? 0) then
      tprint_flags_or ;;
      printflags_ex flags None XLAT_STYLE_ABBREV (xlat_of "futex2_flags") ;;
      nothing
    else nothing) ;;
    tprint_flags_end ;;
    (if xlat_verbose xlat_verbosity =? XLAT_STYLE_VERBOSE then tprint_comment_end else nothing).

(** struct futex_waitv: val, uaddr, flags, __reserved; the count of struct
    print_waiter_data is [get_data]. *)
Definition print_waiter (waiter : list Z) : D St bool :=
  count ← get_data;
  set_data (count + 1) ;;
  if FUTEX_WAITV_MAX <=? count then tprint_more_data_follows ;; mret false
  else
    tprint_struct_begin ;;
    PRINT_FIELD_X "val" (fu 8 0 waiter) ;;
    tprint_struct_next ;;
    tprints_field_name "uaddr" ;;
    printaddr64 (fu 8 8 waiter) ;;
    tprint_struct_next ;;
    tprints_field_name "flags" ;;
    print_futex2_flags (fu 4 16 waiter) ;;
    (if negb (fu 4 20 waiter =? 0) then
      tprint_struct_next ;;
      PRINT_FIELD_X "__reserved" (fu 4 20 waiter)
    else nothing) ;;
    tprint_struct_end ;;
    mret true.

#[export] Instance print_waiter_value elem_buf : IsValue (St := St) (print_waiter elem_buf).
Proof. intros [f ns] Q H. unfold print_waiter. wf; rewrite ?o_eta, ?valued_valued; first [contra_eq | apply H]. Qed.
#[local] Typeclasses Opaque print_waiter.

Definition print_waiter_array (tcp : dtcb St) (waiters nr_futexes : Z) : D St () :=
  set_data 0 ;;
  print_array tcp waiters (uint 32 nr_futexes) 24 print_waiter ;; nothing.

Definition sys_futex_waitv (tcp : dtcb St) : D St Z :=
  let waiters := (u_arg tcp 0) in
  let nr_futexes := (uint 32 (u_arg tcp 1)) in
  let flags_ := (uint 32 (u_arg tcp 2)) in
  let timeout := (u_arg tcp 3) in
  let clockid := (uint 32 (u_arg tcp 4)) in
  tprints_arg_name "waiters" ;;
  print_waiter_array tcp waiters nr_futexes ;;
  tprints_arg_next_name "nr_futexes" ;;
  PRINT_VAL_U nr_futexes ;;
  tprints_arg_next_name "flags" ;;
  PRINT_VAL_X flags_ ;;
  tprints_arg_next_name "timeout" ;;
  other tcp "print_timespec64" [timeout] ;;
  tprints_arg_next_name "clockid" ;;
  printxval (xlat_of "clocknames") clockid (Some "CLOCK_???"%string) ;;
  mret RVAL_DECODED.

Definition sys_futex_wake (tcp : dtcb St) : D St Z :=
  let uaddr := (u_arg tcp 0) in
  let mask := (u_arg tcp 1) in
  let nr := (int (u_arg tcp 2)) in
  let flags_ := (uint 32 (u_arg tcp 3)) in
  tprints_arg_name "uaddr" ;;
  printaddr uaddr ;;
  tprints_arg_next_name "mask" ;;
  printxval64 (xlat_of "futexbitset") mask None ;;
  tprints_arg_next_name "nr" ;;
  PRINT_VAL_D nr ;;
  tprints_arg_next_name "flags" ;;
  print_futex2_flags flags_ ;;
  mret RVAL_DECODED.

Definition sys_futex_wait (tcp : dtcb St) : D St Z :=
  let uaddr := (u_arg tcp 0) in
  let val_ := (u_arg tcp 1) in
  let mask := (u_arg tcp 2) in
  let flags_ := (uint 32 (u_arg tcp 3)) in
  let timeout := (u_arg tcp 4) in
  let clockid := (uint 32 (u_arg tcp 5)) in
  tprints_arg_name "uaddr" ;;
  printaddr uaddr ;;
  tprints_arg_next_name "val" ;;
  PRINT_VAL_U val_ ;;
  tprints_arg_next_name "mask" ;;
  printxval64 (xlat_of "futexbitset") mask None ;;
  tprints_arg_next_name "flags" ;;
  print_futex2_flags flags_ ;;
  tprints_arg_next_name "timeout" ;;
  other tcp "print_timespec64" [timeout] ;;
  tprints_arg_next_name "clockid" ;;
  printxval (xlat_of "clocknames") clockid (Some "CLOCK_???"%string) ;;
  mret RVAL_DECODED.

Definition sys_futex_requeue (tcp : dtcb St) : D St Z :=
  let waiters := (u_arg tcp 0) in
  let flags_ := (uint 32 (u_arg tcp 1)) in
  let nr_wake := (int (u_arg tcp 2)) in
  let nr_requeue := (int (u_arg tcp 3)) in
  tprints_arg_name "waiters" ;;
  print_waiter_array tcp waiters 2 ;;
  tprints_arg_next_name "flags" ;;
  PRINT_VAL_X flags_ ;;
  tprints_arg_next_name "nr_wake" ;;
  PRINT_VAL_D nr_wake ;;
  tprints_arg_next_name "nr_requeue" ;;
  PRINT_VAL_D nr_requeue ;;
  mret RVAL_DECODED.

(** ** src/landlock.c *)

(** struct landlock_ruleset_attr: handled_access_fs, handled_access_net, scoped,
    quiet_access_fs, quiet_access_net, quiet_scoped. *)
Definition print_landlock_ruleset_attr (tcp : dtcb St) (addr size : Z) : D St () :=
  if size <? 8 then printaddr addr
  else
    attr ← umoven_or_printaddr tcp addr (Z.min size 48);
    match attr with
    | None => nothing
    | Some attr =>
        let attr := padded 48 attr in
        let member := fun name off x dflt =>
          if off <? size then tprint_struct_next ;; PRINT_FIELD_FLAGS name (fu 8 off attr) (xlat_of x) (Some dflt) else nothing in
        tprint_struct_begin ;;
        PRINT_FIELD_FLAGS "handled_access_fs" (fu 8 0 attr) (xlat_of "landlock_ruleset_access_fs") (Some "LANDLOCK_ACCESS_FS_???"%string) ;;
        member "handled_access_net"%string 8 "landlock_ruleset_access_net"%string "LANDLOCK_ACCESS_NET_???"%string ;;
        member "scoped"%string 16 "landlock_scope_flags"%string "LANDLOCK_SCOPE_???"%string ;;
        member "quiet_access_fs"%string 24 "landlock_ruleset_access_fs"%string "LANDLOCK_ACCESS_FS_???"%string ;;
        member "quiet_access_net"%string 32 "landlock_ruleset_access_net"%string "LANDLOCK_ACCESS_NET_???"%string ;;
        member "quiet_scoped"%string 40 "landlock_scope_flags"%string "LANDLOCK_SCOPE_???"%string ;;
        (if 48 <? size then tprint_struct_next ;; tprint_more_data_follows else nothing) ;;
        tprint_struct_end
    end.
#[export] Instance print_landlock_ruleset_attr_value tcp addr size : IsValue (print_landlock_ruleset_attr tcp addr size).
Proof. intros [f ns] Q H. unfold print_landlock_ruleset_attr. repeat first [join_step | wf_step]; apply H. Qed.

Definition sys_landlock_create_ruleset (tcp : dtcb St) : D St Z :=
  let attr := u_arg tcp 0 in
  let size := u_arg tcp 1 in
  let flags := uint 32 (u_arg tcp 2) in
  let landlock_nofd_flags := Z.lor LANDLOCK_CREATE_RULESET_VERSION LANDLOCK_CREATE_RULESET_ERRATA in
  tprints_arg_name "attr" ;;
  print_landlock_ruleset_attr tcp attr size ;;
  tprints_arg_next_name "size" ;;
  PRINT_VAL_U size ;;
  tprints_arg_next_name "flags" ;;
  printflags (xlat_of "landlock_create_ruleset_flags") flags (Some "LANDLOCK_CREATE_RULESET_???"%string) ;;
  if negb (Z.land flags landlock_nofd_flags =? 0) then mret RVAL_DECODED else mret (Z.lor RVAL_DECODED RVAL_FD).

Definition print_landlock_path_beneath_attr (tcp : dtcb St) (addr : Z) : D St () :=
  attr ← umoven_or_printaddr tcp addr 12;
  match attr with
  | Some attr =>
      tprint_struct_begin ;;
      PRINT_FIELD_FLAGS "allowed_access" (fu 8 0 attr) (xlat_of "landlock_ruleset_access_fs") (Some "LANDLOCK_ACCESS_FS_???"%string) ;;
      tprint_struct_next ;;
      tprints_field_name "parent_fd" ;; printfd tcp (fs 4 8 attr) ;;
      tprint_struct_end
  | None =>
      nothing
  end.

Definition print_landlock_net_port_attr (tcp : dtcb St) (addr : Z) : D St () :=
  attr ← umoven_or_printaddr tcp addr 16;
  match attr with
  | Some attr =>
      tprint_struct_begin ;;
      PRINT_FIELD_FLAGS "allowed_access" (fu 8 0 attr) (xlat_of "landlock_ruleset_access_net") (Some "LANDLOCK_ACCESS_NET_???"%string) ;;
      tprint_struct_next ;;
      PRINT_FIELD_U "port" (fu 8 8 attr) ;;
      tprint_struct_end
  | None =>
      nothing
  end.

Definition sys_landlock_add_rule (tcp : dtcb St) : D St Z :=
  let rule_type := (uint 32 (u_arg tcp 1)) in
  tprints_arg_name "ruleset_fd" ;;
  printfd tcp (u_arg tcp 0) ;;
  tprints_arg_next_name "rule_type" ;;
  printxval (xlat_of "landlock_rule_types") rule_type (Some "LANDLOCK_RULE_???"%string) ;;
  tprints_arg_next_name "rule_attr" ;;
  (if (rule_type =? LANDLOCK_RULE_PATH_BENEATH) then
    print_landlock_path_beneath_attr tcp (u_arg tcp 2)
  else if (rule_type =? LANDLOCK_RULE_NET_PORT) then
    print_landlock_net_port_attr tcp (u_arg tcp 2)
  else printaddr (u_arg tcp 2)) ;;
  tprints_arg_next_name "flags" ;;
  printflags (xlat_of "landlock_add_rule_flags") (u_arg tcp 3) (Some "LANDLOCK_ADD_RULE_???"%string) ;;
  mret RVAL_DECODED.

Definition sys_landlock_restrict_self (tcp : dtcb St) : D St Z :=
  tprints_arg_name "ruleset_fd" ;;
  printfd tcp (u_arg tcp 0) ;;
  tprints_arg_next_name "flags" ;;
  printflags (xlat_of "landlock_restrict_self_flags") (u_arg tcp 1) (Some "LANDLOCK_RESTRICT_SELF_???"%string) ;;
  mret RVAL_DECODED.

(** ** src/capability.c *)

(** struct user_cap_header_struct: version, pid. *)
Definition get_cap_header (tcp : dtcb St) (addr : Z) : D St (option (list Z)) :=
  if (addr =? 0) || negb (verbose tcp) then mret None else umoven tcp addr 8.

Definition print_cap_header (tcp : dtcb St) (addr : Z) (h : option (list Z)) : D St () :=
  match h with
  | Some h =>
      if addr =? 0 then printaddr addr
      else
        tprint_struct_begin ;;
        PRINT_FIELD_XVAL "version" (fu 4 0 h) (xlat_of "cap_version") (Some "_LINUX_CAPABILITY_VERSION_???"%string) ;;
        tprint_struct_next ;;
        tprints_field_name "pid" ;;
        printpid tcp (fs 4 4 h) PT_TGID ;;
        tprint_struct_end
  | None => printaddr addr
  end.

Definition print_cap_bits (lo : Z) (hi : Z) : D St () :=
  tprint_flags_begin ;;
  (if ((negb (lo =? 0)) || (hi =? 0)) then
    printflags_in (xlat_of "cap_mask0") lo (Some "CAP_???"%string) ;;
    nothing
  else
    nothing) ;;
  (if (negb (hi =? 0)) then
    (if (negb (lo =? 0)) then
      tprint_flags_or
    else
      nothing) ;;
    printflags_in (xlat_of "cap_mask1") hi (Some "CAP_???"%string) ;;
    nothing
  else
    nothing) ;;
  tprint_flags_end.

(** struct user_cap_data_struct: effective, permitted, inheritable. *)
Definition print_cap_data (tcp : dtcb St) (addr : Z) (h : option (list Z)) : D St () :=
  match h with
  | None => printaddr addr
  | Some h =>
      if addr =? 0 then printaddr addr
      else
        let len := if (_LINUX_CAPABILITY_VERSION_2 =? fu 4 0 h) || (_LINUX_CAPABILITY_VERSION_3 =? fu 4 0 h) then 2 else 1 in
        data ← umoven_or_printaddr tcp addr (len * 12);
        match data with
        | None => nothing
        | Some data =>
            tprint_struct_begin ;;
            tprints_field_name "effective" ;;
            print_cap_bits (fu 4 0 data) (if 1 <? len then fu 4 12 data else 0) ;;
            tprint_struct_next ;;
            tprints_field_name "permitted" ;;
            print_cap_bits (fu 4 4 data) (if 1 <? len then fu 4 16 data else 0) ;;
            tprint_struct_next ;;
            tprints_field_name "inheritable" ;;
            print_cap_bits (fu 4 8 data) (if 1 <? len then fu 4 20 data else 0) ;;
            tprint_struct_end
        end
  end.

Definition sys_capget (tcp : dtcb St) : D St Z :=
  (if entering tcp then
    tprints_arg_name "hdrp" ;;
    h ← get_cap_header tcp (u_arg tcp 0);
    print_cap_header tcp (u_arg tcp 0) h
  else
    tprints_arg_next_name "datap" ;;
    h ← (if syserror tcp then mret None else get_cap_header tcp (u_arg tcp 0));
    print_cap_data tcp (u_arg tcp 1) h) ;;
  mret 0.

Definition sys_capset (tcp : dtcb St) : D St Z :=
  tprints_arg_name "hdrp" ;;
  h ← get_cap_header tcp (u_arg tcp 0);
  print_cap_header tcp (u_arg tcp 0) h ;;
  tprints_arg_next_name "datap" ;;
  print_cap_data tcp (u_arg tcp 1) h ;;
  mret RVAL_DECODED.

(** ** src/ustat.c *)

(** struct ustat: f_tfree, f_tinode. *)
Definition sys_ustat (tcp : dtcb St) : D St Z :=
  (if entering tcp then
    tprints_arg_name "dev" ;;
    print_dev_t (uint 32 (u_arg tcp 0))
  else
    tprints_arg_next_name "ubuf" ;;
    ust ← umoven_or_printaddr tcp (u_arg tcp 1) 32;
    match ust with
    | Some ust =>
        tprint_struct_begin ;;
        PRINT_FIELD_U "f_tfree" (fu 4 0 ust) ;;
        tprint_struct_next ;;
        PRINT_FIELD_U "f_tinode" (fu 8 8 ust) ;;
        tprint_struct_end
    | None => nothing
    end) ;;
  mret 0.

(** ** src/sysinfo.c *)

Definition sys_sysinfo (tcp : dtcb St) : D St Z :=
  if entering tcp then mret 0
  else
    tprints_arg_name "info" ;;
    (si ← umoven_or_printaddr tcp (u_arg tcp 0) 112;
     match si with
     | Some si =>
         tprint_struct_begin ;;
         PRINT_FIELD_U "uptime" (fu 8 0 si) ;;
         tprint_struct_next ;;
         tprints_field_name "loads" ;;
         print_local_array_ex tcp (bytes_at 24 8 si) 3 8 (print_uint_array_member 8) 0 None None ;;
         tprint_struct_next ;;
         PRINT_FIELD_U "totalram" (fu 8 32 si) ;;
         tprint_struct_next ;;
         PRINT_FIELD_U "freeram" (fu 8 40 si) ;;
         tprint_struct_next ;;
         PRINT_FIELD_U "sharedram" (fu 8 48 si) ;;
         tprint_struct_next ;;
         PRINT_FIELD_U "bufferram" (fu 8 56 si) ;;
         tprint_struct_next ;;
         PRINT_FIELD_U "totalswap" (fu 8 64 si) ;;
         tprint_struct_next ;;
         PRINT_FIELD_U "freeswap" (fu 8 72 si) ;;
         tprint_struct_next ;;
         PRINT_FIELD_U "procs" (fu 2 80 si) ;;
         tprint_struct_next ;;
         PRINT_FIELD_U "totalhigh" (fu 8 88 si) ;;
         tprint_struct_next ;;
         PRINT_FIELD_U "freehigh" (fu 8 96 si) ;;
         tprint_struct_next ;;
         PRINT_FIELD_U "mem_unit" (fu 4 104 si) ;;
         tprint_struct_end
     | None => nothing
     end) ;;
    mret 0.

(** ** src/statx.c *)

(** struct_statx_timestamp: tv_sec, tv_nsec. *)
Definition print_statx_timestamp (p : list Z) : D St () :=
  tprint_struct_begin ;;
  PRINT_FIELD_D "tv_sec" (fs 8 0 p) ;;
  tprint_struct_next ;;
  PRINT_FIELD_U "tv_nsec" (fu 4 8 p) ;;
  tprint_struct_end ;;
  tprints_comment (sprinttime_ex (fs 8 0 p) (fu 4 8 p) 999999999 9).

(** struct_statx, printed on exit. *)
Definition print_statxbuf (tcp : dtcb St) : D St () :=
  stx ← umoven_or_printaddr tcp (u_arg tcp 4) 256;
  match stx with
  | None => nothing
  | Some stx =>
      let stx_mask := fu 4 0 stx in
      tprint_struct_begin ;;
      PRINT_FIELD_FLAGS "stx_mask" stx_mask (xlat_of "statx_masks") (Some "STATX_???"%string) ;;
      (if negb (abbrev tcp) then
        tprint_struct_next ;;
        PRINT_FIELD_U "stx_blksize" (fu 4 4 stx)
      else nothing) ;;
      tprint_struct_next ;;
      PRINT_FIELD_FLAGS "stx_attributes" (fu 8 8 stx) (xlat_of "statx_attrs") (Some "STATX_ATTR_???"%string) ;;
      (if negb (abbrev tcp) then
        (if has stx_mask STATX_NLINK then
          tprint_struct_next ;;
          PRINT_FIELD_U "stx_nlink" (fu 4 16 stx)
        else nothing) ;;
        (if has stx_mask STATX_UID then
          tprint_struct_next ;;
          PRINT_FIELD_ID "stx_uid" (fu 4 20 stx)
        else nothing) ;;
        (if has stx_mask STATX_GID then
          tprint_struct_next ;;
          PRINT_FIELD_ID "stx_gid" (fu 4 24 stx)
        else nothing)
      else nothing) ;;
      (if has stx_mask (Z.lor STATX_TYPE STATX_MODE) then
        tprint_struct_next ;;
        tprints_field_name "stx_mode" ;; print_symbolic_mode_t (fu 2 28 stx)
      else nothing) ;;
      (if negb (abbrev tcp) && has stx_mask STATX_INO then
        tprint_struct_next ;;
        PRINT_FIELD_U "stx_ino" (fu 8 32 stx)
      else nothing) ;;
      (if has stx_mask STATX_SIZE then
        tprint_struct_next ;;
        PRINT_FIELD_U "stx_size" (fu 8 40 stx)
      else nothing) ;;
      (if negb (abbrev tcp) then
        (if has stx_mask STATX_BLOCKS then
          tprint_struct_next ;;
          PRINT_FIELD_U "stx_blocks" (fu 8 48 stx)
        else nothing) ;;
        tprint_struct_next ;;
        PRINT_FIELD_FLAGS "stx_attributes_mask" (fu 8 56 stx) (xlat_of "statx_attrs") (Some "STATX_ATTR_???"%string) ;;
        (if has stx_mask STATX_ATIME then
          tprint_struct_next ;;
          tprints_field_name "stx_atime" ;; print_statx_timestamp (bytes_at 16 64 stx)
        else nothing) ;;
        (if has stx_mask STATX_BTIME then
          tprint_struct_next ;;
          tprints_field_name "stx_btime" ;; print_statx_timestamp (bytes_at 16 80 stx)
        else nothing) ;;
        (if has stx_mask STATX_CTIME then
          tprint_struct_next ;;
          tprints_field_name "stx_ctime" ;; print_statx_timestamp (bytes_at 16 96 stx)
        else nothing) ;;
        (if has stx_mask STATX_MTIME then
          tprint_struct_next ;;
          tprints_field_name "stx_mtime" ;; print_statx_timestamp (bytes_at 16 112 stx)
        else nothing) ;;
        tprint_struct_next ;;
        PRINT_FIELD_U "stx_rdev_major" (fu 4 128 stx) ;;
        tprint_struct_next ;;
        PRINT_FIELD_U "stx_rdev_minor" (fu 4 132 stx) ;;
        tprint_struct_next ;;
        PRINT_FIELD_U "stx_dev_major" (fu 4 136 stx) ;;
        tprint_struct_next ;;
        PRINT_FIELD_U "stx_dev_minor" (fu 4 140 stx) ;;
        (if has stx_mask STATX_MNT_ID then
          tprint_struct_next ;;
          PRINT_FIELD_X "stx_mnt_id" (fu 8 144 stx)
        else nothing) ;;
        (if has stx_mask STATX_DIOALIGN then
          tprint_struct_next ;;
          PRINT_FIELD_U "stx_dio_mem_align" (fu 4 152 stx) ;;
          tprint_struct_next ;;
          PRINT_FIELD_U "stx_dio_offset_align" (fu 4 156 stx)
        else nothing) ;;
        (if has stx_mask STATX_SUBVOL then
          tprint_struct_next ;;
          PRINT_FIELD_X "stx_subvol" (fu 8 160 stx)
        else nothing) ;;
        (if has (fu 8 8 stx) STATX_ATTR_WRITE_ATOMIC then
          tprint_struct_next ;;
          PRINT_FIELD_U "stx_atomic_write_unit_min" (fu 4 168 stx) ;;
          tprint_struct_next ;;
          PRINT_FIELD_U "stx_atomic_write_unit_max" (fu 4 172 stx) ;;
          tprint_struct_next ;;
          PRINT_FIELD_U "stx_atomic_write_segments_max" (fu 4 176 stx)
        else nothing) ;;
        (if has stx_mask STATX_DIO_READ_ALIGN then
          tprint_struct_next ;;
          PRINT_FIELD_U "stx_dio_read_offset_align" (fu 4 180 stx)
        else nothing) ;;
        (if has (fu 8 8 stx) STATX_ATTR_WRITE_ATOMIC then
          tprint_struct_next ;;
          PRINT_FIELD_U "stx_atomic_write_unit_max_opt" (fu 4 184 stx)
        else nothing)
      else
        tprint_struct_next ;;
        tprint_more_data_follows) ;;
      tprint_struct_end
  end.
#[export] Instance print_statx_timestamp_value p : IsValue (St := St) (print_statx_timestamp p).
Proof. intros [f ns] Q H. unfold print_statx_timestamp. wf; apply H. Qed.
#[export] Instance print_statxbuf_value tcp : IsValue (print_statxbuf tcp).
Proof. intros [f ns] Q H. unfold print_statxbuf. repeat first [join_step | wf_step]; apply H. Qed.

Definition sys_statx (tcp : dtcb St) : D St Z :=
  (if entering tcp then
    tprints_arg_name "dirfd" ;;
    print_dirfd tcp (u_arg tcp 0) ;;
    tprints_arg_next_name "pathname" ;;
    printpath tcp (u_arg tcp 1) ;;
    tprints_arg_next_name "flags" ;;
    let flags := uint 32 (u_arg tcp 2) in
    tprint_flags_begin ;;
    printflags_in (xlat_of "at_statx_sync_types") (Z.land flags AT_STATX_SYNC_TYPE) None ;;
    let flags := Z.land flags (Z.lnot AT_STATX_SYNC_TYPE) in
    (if negb (flags =? 0) then
      tprint_flags_or ;;
      printflags_in (xlat_of "at_flags") flags None ;;
      nothing
    else nothing) ;;
    tprint_flags_end ;;
    tprints_arg_next_name "mask" ;;
    printflags (xlat_of "statx_masks") (u_arg tcp 3) (Some "STATX_???"%string) ;;
    nothing
  else
    tprints_arg_next_name "statxbuf" ;;
    print_statxbuf tcp) ;;
  mret 0.

End proc.
#[export] Typeclasses Opaque fetch_indirect_syscall_args sys_read sys_write iov_decode_addr iov_decode_str print_iovec_klong
  print_iovec_elem_int print_iovec_elem_klong tprint_iov_upto tprint_iov sys_readv sys_writev sys_pread
  sys_pwrite print_lld_from_low_high_val do_preadv sys_preadv do_pwritev sys_pwritev sys_preadv2 sys_pwritev2
  sys_tee sys_splice sys_vmsplice sys_process_vm_readv sys_process_vm_writev sys_brk print_mmap_flags print_mmap
  sys_old_mmap sys_old_mmap_pgoff sys_mmap sys_mmap_pgoff sys_mmap_4koff sys_munmap do_mprotect sys_mprotect
  sys_pkey_mprotect sys_mremap sys_madvise sys_process_madvise sys_process_mrelease sys_mlockall sys_msync
  sys_mlock2 print_mincore_entry sys_mincore sys_remap_file_pages sys_mseal print_xattr_val
  decode_setxattr_without_path sys_setxattr sys_fsetxattr decode_getxattr_without_path sys_getxattr
  sys_fgetxattr print_xattr_list sys_listxattr sys_flistxattr sys_removexattr sys_fremovexattr
  decode_dirfd_pathname_flags decode_dirfd_pathname_flags_name umove_xattr_args_or_printaddr print_xattr_args
  sys_setxattrat sys_getxattrat sys_listxattrat sys_removexattrat sys_getuid sys_setfsuid sys_setuid
  sys_setfsgid sys_setgid get_print_uid sys_getresuid sys_setreuid sys_setresuid sys_getresgid sys_setregid
  sys_setresgid sys_chown sys_fchown print_gid print_groups sys_setgroups sys_getgroups print_timezone
  sys_gettimeofday sys_settimeofday do_nanosleep sys_nanosleep_time32 sys_nanosleep_time64 sys_getitimer
  sys_setitimer do_adjtimex sys_adjtimex32 sys_adjtimex64 printcpuclockname printclockname do_clock_settime
  sys_clock_settime32 sys_clock_settime64 do_clock_gettime sys_clock_gettime32 sys_clock_gettime64
  do_clock_nanosleep sys_clock_nanosleep_time32 sys_clock_nanosleep_time64 do_clock_adjtime sys_clock_adjtime32
  sys_clock_adjtime64 sys_timer_create sys_timer_delete do_timer_settime sys_timer_settime32 sys_timer_settime64
  do_timer_gettime sys_timer_gettime32 sys_timer_gettime64 sys_timerfd_create do_timerfd_settime
  sys_timerfd_settime32 sys_timerfd_settime64 do_timerfd_gettime sys_timerfd_gettime32 sys_timerfd_gettime64
  print_policy print_sched_param sys_sched_getscheduler sys_sched_setscheduler sys_sched_getparam
  sys_sched_setparam sys_sched_get_priority_min do_sched_rr_get_interval sys_sched_rr_get_interval_time32
  sys_sched_rr_get_interval_time64 fetch_sched_attr print_sched_attr_fields print_sched_attr sys_sched_setattr
  sys_sched_getattr print_rlim64_t print_rlimit64 print_rlim32_t print_rlimit32 decode_rlimit sys_getrlimit
  sys_setrlimit sys_prlimit64 sys_getrusage priority_print_who sys_getpriority sys_setpriority print_wait_status
  printwaitn sys_waitpid sys_wait4 sys_waitid print_node print_nodemask sys_migrate_pages print_mode sys_mbind
  sys_set_mempolicy sys_get_mempolicy sys_set_mempolicy_home_node print_addr print_status sys_move_pages
  print_futex_wake_op do_futex sys_futex_time32 sys_futex_time64 print_futex2_flags print_waiter
  print_waiter_array sys_futex_waitv sys_futex_wake sys_futex_wait sys_futex_requeue print_landlock_ruleset_attr
  sys_landlock_create_ruleset print_landlock_path_beneath_attr print_landlock_net_port_attr
  sys_landlock_add_rule sys_landlock_restrict_self get_cap_header print_cap_header print_cap_bits print_cap_data
  sys_capget sys_capset sys_ustat sys_sysinfo print_statx_timestamp print_statxbuf sys_statx.
