(* ===== verification/Decoders.v ===== *)
(** * The decoders, and what they print

    The table of the decoders of [SysFs], [SysMisc] and [SysProc] with the arguments that each
    prints, and the proof that all of them print by the grammar of [Decode]. *)

From stdpp Require Import strings pretty.
From S2P Require Import Prelude Wait Tcb Tracee Syscall Util Xlat Filters Quote UCopy PrintStr PrintArray Style Decode SysFs SysMisc SysProc.
Local Open Scope string_scope.
Local Open Scope Z_scope.

Section decoders.
Context {St : Type} {G : Globals}.

Definition fs_decoders_1 : list (decoder St) :=
  [mk_decoder "chdir" sys_chdir [["path"]];
   mk_decoder "access" sys_access [["pathname"; "mode"]];
   mk_decoder "faccessat" sys_faccessat [["dirfd"; "pathname"; "mode"]];
   mk_decoder "faccessat2" sys_faccessat2 [["dirfd"; "pathname"; "mode"; "flags"]];
   mk_decoder "chmod" sys_chmod [["pathname"; "mode"]];
   mk_decoder "fchmodat" sys_fchmodat [["dirfd"; "pathname"; "mode"]];
   mk_decoder "fchmodat2" sys_fchmodat2 [["dirfd"; "pathname"; "mode"; "flags"]];
   mk_decoder "fchmod" sys_fchmod [["fd"; "mode"]];
   mk_decoder "link" sys_link [["oldpath"; "newpath"]];
   mk_decoder "linkat" sys_linkat [["olddirfd"; "oldpath"; "newdirfd"; "newpath"; "flags"]];
   mk_decoder "unlinkat" sys_unlinkat [["dirfd"; "pathname"; "flags"]];
   mk_decoder "symlinkat" sys_symlinkat [["target"; "newdirfd"; "linkpath"]];
   mk_decoder "mknod" sys_mknod [["pathname"; "mode"; "dev"]; ["pathname"; "mode"]];
   mk_decoder "mknodat" sys_mknodat [["dirfd"; "pathname"; "mode"; "dev"]; ["dirfd"; "pathname"; "mode"]];
   mk_decoder "readlink" sys_readlink [["pathname"; "buf"; "bufsiz"]];
   mk_decoder "readlinkat" sys_readlinkat [["dirfd"; "pathname"; "buf"; "bufsiz"]]].

Definition fs_decoders_2 : list (decoder St) :=
  [mk_decoder "renameat" sys_renameat [["olddirfd"; "oldpath"; "newdirfd"; "newpath"]];
   mk_decoder "renameat2" sys_renameat2 [["olddirfd"; "oldpath"; "newdirfd"; "newpath"; "flags"]];
   mk_decoder "statfs" sys_statfs [["pathname"; "buf"]];
   mk_decoder "fstatfs" sys_fstatfs [["fd"; "buf"]];
   mk_decoder "statfs64" sys_statfs64 [["pathname"; "size"; "buf"]];
   mk_decoder "fstatfs64" sys_fstatfs64 [["fd"; "size"; "buf"]];
   mk_decoder "stat" sys_stat [["pathname"; "statbuf"]];
   mk_decoder "fstat" sys_fstat [["fd"; "statbuf"]];
   mk_decoder "newfstatat" sys_newfstatat [["dirfd"; "pathname"; "statbuf"; "flags"]];
   mk_decoder "stat64" sys_stat64 [["pathname"; "statbuf"]];
   mk_decoder "fstat64" sys_fstat64 [["fd"; "statbuf"]];
   mk_decoder "fstatat64" sys_fstatat64 [["dirfd"; "pathname"; "statbuf"; "flags"]];
   mk_decoder "truncate" sys_truncate [["path"; "length"]];
   mk_decoder "truncate64" sys_truncate64 [["path"; "length"]];
   mk_decoder "ftruncate" sys_ftruncate [["fd"; "length"]];
   mk_decoder "ftruncate64" sys_ftruncate64 [["fd"; "length"]]].

Definition fs_decoders_3 : list (decoder St) :=
  [mk_decoder "umask" sys_umask [["mask"]];
   mk_decoder "umount2" sys_umount2 [["target"; "flags"]];
   mk_decoder "mount" sys_mount [["source"; "target"; "filesystemtype"; "mountflags"; "data"]];
   mk_decoder "fsopen" sys_fsopen [["fsname"; "flags"]];
   mk_decoder "fsmount" sys_fsmount [["fd"; "flags"; "attr_flags"]];
   mk_decoder "fspick" sys_fspick [["dirfd"; "pathname"; "flags"]];
   mk_decoder "fsconfig" sys_fsconfig [["fd"; "cmd"; "key"; "value"; "aux"]];
   mk_decoder "move_mount" sys_move_mount [["from_dfd"; "from_pathname"; "to_dfd"; "to_pathname"; "flags"]];
   mk_decoder "mount_setattr" sys_mount_setattr [["dirfd"; "pathname"; "flags"; "attr"; "size"]];
   mk_decoder "open_tree" sys_open_tree [["dirfd"; "pathname"; "flags"]];
   mk_decoder "open_tree_attr" sys_open_tree_attr [["dirfd"; "pathname"; "flags"; "attr"; "size"]];
   mk_decoder "fchownat" sys_fchownat [["dirfd"; "pathname"; "owner"; "group"; "flags"]];
   mk_decoder "utime" sys_utime [["filename"; "times"]];
   mk_decoder "utimes" sys_utimes [["pathname"; "times"]];
   mk_decoder "futimesat" sys_futimesat [["dirfd"; "pathname"; "times"]];
   mk_decoder "utimensat_time32" sys_utimensat_time32 [["dirfd"; "pathname"; "times"; "flags"]]].

Definition fs_decoders_4 : list (decoder St) :=
  [mk_decoder "utimensat_time64" sys_utimensat_time64 [["dirfd"; "pathname"; "times"; "flags"]];
   mk_decoder "file_getattr" sys_file_getattr [["dirfd"; "pathname"; "attr"; "size"; "flags"]];
   mk_decoder "file_setattr" sys_file_setattr [["dirfd"; "pathname"; "attr"; "size"; "flags"]];
   mk_decoder "name_to_handle_at" sys_name_to_handle_at [["dirfd"; "pathname"; "handle"; "mount_id"; "flags"]];
   mk_decoder "open_by_handle_at" sys_open_by_handle_at [["mount_fd"; "handle"; "flags"]];
   mk_decoder "getcwd" sys_getcwd [["buf"; "size"]];
   mk_decoder "inotify_add_watch" sys_inotify_add_watch [["fd"; "pathname"; "mask"]];
   mk_decoder "inotify_rm_watch" sys_inotify_rm_watch [["fd"; "wd"]];
   mk_decoder "inotify_init" sys_inotify_init [[]];
   mk_decoder "inotify_init1" sys_inotify_init1 [["flags"]];
   mk_decoder "fanotify_init" sys_fanotify_init [["flags"; "event_f_flags"]];
   mk_decoder "fanotify_mark" sys_fanotify_mark [["fanotify_fd"; "flags"; "mask"; "dirfd"; "pathname"]];
   mk_decoder "flock" sys_flock [["fd"; "op"]];
   mk_decoder "fallocate" sys_fallocate [["fd"; "mode"; "offset"; "len"]];
   mk_decoder "fadvise64" sys_fadvise64 [["fd"; "offset"; "len"; "advice"]];
   mk_decoder "fadvise64_64" sys_fadvise64_64 [["fd"; "offset"; "len"; "advice"]]].

Definition fs_decoders_5 : list (decoder St) :=
  [mk_decoder "lseek" sys_lseek [["fd"; "offset"; "whence"]];
   mk_decoder "llseek" sys_llseek [["fd"; "offset"; "result"; "whence"]];
   mk_decoder "copy_file_range" sys_copy_file_range [["fd_in"; "off_in"; "fd_out"; "off_out"; "len"; "flags"]];
   mk_decoder "sendfile64" sys_sendfile64 [["out_fd"; "in_fd"; "offset"; "count"]];
   mk_decoder "sendfile" sys_sendfile [["out_fd"; "in_fd"; "offset"; "count"]];
   mk_decoder "sync_file_range" sys_sync_file_range [["fd"; "offset"; "nbytes"; "flags"]];
   mk_decoder "sync_file_range2" sys_sync_file_range2 [["fd"; "flags"; "offset"; "nbytes"]];
   mk_decoder "swapon" sys_swapon [["path"; "swapflags"]];
   mk_decoder "readahead" sys_readahead [["fd"; "offset"; "count"]];
   mk_decoder "dup" sys_dup [["oldfd"]];
   mk_decoder "dup2" sys_dup2 [["oldfd"; "newfd"]];
   mk_decoder "dup3" sys_dup3 [["oldfd"; "newfd"; "flags"]];
   mk_decoder "close_range" sys_close_range [["first"; "last"; "flags"]];
   mk_decoder "lookup_dcookie" sys_lookup_dcookie [["cookie"; "buffer"; "len"]];
   mk_decoder "memfd_create" sys_memfd_create [["name"; "flags"]];
   mk_decoder "memfd_secret" sys_memfd_secret [["flags"]]].

Definition fs_decoders_6 : list (decoder St) :=
  [mk_decoder "listmount" sys_listmount [["req"; "mnt_ids"; "nr_mnt_ids"; "flags"]];
   mk_decoder "cachestat" sys_cachestat [["fd"; "cstat_range"; "cstat"; "flags"]];
   mk_decoder "eventfd" sys_eventfd [["initval"]];
   mk_decoder "eventfd2" sys_eventfd2 [["initval"; "flags"]];
   mk_decoder "signalfd" sys_signalfd [["fd"; "mask"; "sizemask"]];
   mk_decoder "signalfd4" sys_signalfd4 [["fd"; "mask"; "sizemask"; "flags"]];
   mk_decoder "epoll_create" sys_epoll_create [["size"]];
   mk_decoder "epoll_create1" sys_epoll_create1 [["flags"]];
   mk_decoder "epoll_ctl" sys_epoll_ctl [["epfd"; "op"; "fd"; "event"]];
   mk_decoder "epoll_wait" sys_epoll_wait [["epfd"; "events"; "maxevents"; "timeout"]];
   mk_decoder "epoll_pwait" sys_epoll_pwait [["epfd"; "events"; "maxevents"; "timeout"; "sigmask"; "sigsetsize"]];
   mk_decoder "epoll_pwait2" sys_epoll_pwait2 [["epfd"; "events"; "maxevents"; "timeout"; "sigmask"; "sigsetsize"]];
   mk_decoder "fchroot" sys_fchroot [["fd"; "flags"]]].

Definition misc_decoders_1 : list (decoder St) :=
  [mk_decoder "iopl" sys_iopl [["level"]];
   mk_decoder "nice" sys_nice [["increment"]];
   mk_decoder "alarm" sys_alarm [["seconds"]];
   mk_decoder "exit" sys_exit [["status"]];
   mk_decoder "set_tid_address" sys_set_tid_address [["tidptr"]];
   mk_decoder "pidfd_open" sys_pidfd_open [["pid"; "flags"]];
   mk_decoder "listen" sys_listen [["sockfd"; "backlog"]];
   mk_decoder "getcpu" sys_getcpu [["cpu"; "node"; "tcache"]];
   mk_decoder "ioperm" sys_ioperm [["from"; "num"; "turn_on"]];
   mk_decoder "get_robust_list" sys_get_robust_list [["pid"; "head_ptr"; "len_ptr"]];
   mk_decoder "map_shadow_stack" sys_map_shadow_stack [["addr"; "len"; "flags"]];
   mk_decoder "shutdown" sys_shutdown [["sockfd"; "how"]];
   mk_decoder "bind" sys_bind [["sockfd"; "addr"; "addrlen"]];
   mk_decoder "getrandom" sys_getrandom [["buf"; "buflen"; "flags"]];
   mk_decoder "pkey_alloc" sys_pkey_alloc [["flags"; "access_rights"]];
   mk_decoder "pkey_free" sys_pkey_free [["pkey"]]].

Definition misc_decoders_2 : list (decoder St) :=
  [mk_decoder "pidfd_getfd" sys_pidfd_getfd [["pidfd"; "targetfd"; "flags"]];
   mk_decoder "reboot" sys_reboot [["magic"; "magic2"; "op"; "arg"]; ["magic"; "magic2"; "op"]];
   mk_decoder "membarrier" sys_membarrier [["cmd"; "flags"; "cpu_id"]; ["cmd"; "flags"]];
   mk_decoder "sethostname" sys_sethostname [["name"; "len"]];
   mk_decoder "personality" sys_personality [["persona"]];
   mk_decoder "uname" sys_uname [["buf"]];
   mk_decoder "getpid" sys_getpid [[]];
   mk_decoder "gettid" sys_gettid [[]];
   mk_decoder "getpgrp" sys_getpgrp [[]];
   mk_decoder "getpgid" sys_getpgid [["pid"]];
   mk_decoder "getsid" sys_getsid [["pid"]];
   mk_decoder "setpgid" sys_setpgid [["pid"; "pgid"]];
   mk_decoder "sigaltstack" sys_sigaltstack [["ss"; "old_ss"]];
   mk_decoder "delete_module" sys_delete_module [["name"; "flags"]];
   mk_decoder "init_module" sys_init_module [["module_image"; "len"; "param_values"]];
   mk_decoder "finit_module" sys_finit_module [["fd"; "param_values"; "flags"]]].

Definition misc_decoders_3 : list (decoder St) :=
  [mk_decoder "syslog" sys_syslog [["type"]; ["type"; "bufp"; "len"]];
   mk_decoder "seccomp" sys_seccomp [["operation"; "flags"; "args"]];
   mk_decoder "kcmp" sys_kcmp [["pid1"; "pid2"; "type"; "idx1"; "idx2"]; ["pid1"; "pid2"; "type"]];
   mk_decoder "listns" sys_listns [["req"; "ns_ids"; "nr_ns_ids"; "flags"]];
   mk_decoder "ioprio_get" sys_ioprio_get [["which"; "who"]];
   mk_decoder "ioprio_set" sys_ioprio_set [["which"; "who"; "ioprio"]];
   mk_decoder "shmget" sys_shmget [["key"; "size"; "shmflg"]];
   mk_decoder "shmat" sys_shmat [["shmid"; "shmaddr"; "shmflg"]];
   mk_decoder "shmdt" sys_shmdt [["shmaddr"]];
   mk_decoder "semop" sys_semop [["semid"; "sops"; "nsops"]];
   mk_decoder "semtimedop_time32" sys_semtimedop_time32 [["semid"; "sops"; "nsops"; "timeout"]];
   mk_decoder "semtimedop_time64" sys_semtimedop_time64 [["semid"; "sops"; "nsops"; "timeout"]];
   mk_decoder "semget" sys_semget [["key"; "nsems"; "semflg"]];
   mk_decoder "msgget" sys_msgget [["key"; "msgflg"]];
   mk_decoder "msgsnd" sys_msgsnd [["msqid"; "msgp"; "msgsz"; "msgflg"]];
   mk_decoder "msgrcv" sys_msgrcv [["msqid"; "msgp"; "msgsz"; "msgtyp"; "msgflg"]; ["msqid"; "ipc_kludge"; "msgsz"; "msgflg"]]].

Definition misc_decoders_4 : list (decoder St) :=
  [mk_decoder "kexec_load" sys_kexec_load [["entry"; "nr_segments"; "segments"; "flags"]];
   mk_decoder "kexec_file_load" sys_kexec_file_load [["kernel_fd"; "initrd_fd"; "cmdline_len"; "cmdline"; "flags"]];
   mk_decoder "mq_open" sys_mq_open [["name"; "flags"; "mode"; "attr"]; ["name"; "flags"]];
   mk_decoder "mq_timedsend_time32" sys_mq_timedsend_time32 [["mqdes"; "msg_ptr"; "msg_len"; "msg_prio"; "abs_timeout"]];
   mk_decoder "mq_timedsend_time64" sys_mq_timedsend_time64 [["mqdes"; "msg_ptr"; "msg_len"; "msg_prio"; "abs_timeout"]];
   mk_decoder "mq_timedreceive_time32" sys_mq_timedreceive_time32 [["mqdes"; "msg_ptr"; "msg_len"; "msg_prio"; "abs_timeout"]];
   mk_decoder "mq_timedreceive_time64" sys_mq_timedreceive_time64 [["mqdes"; "msg_ptr"; "msg_len"; "msg_prio"; "abs_timeout"]];
   mk_decoder "mq_notify" sys_mq_notify [["mqdes"; "sevp"]];
   mk_decoder "mq_getsetattr" sys_mq_getsetattr [["mqdes"; "newattr"; "oldattr"]];
   mk_decoder "time" sys_time [["tloc"]]].

Definition proc_decoders_1 : list (decoder St) :=
  [mk_decoder "read" sys_read [["fd"; "buf"; "count"]];
   mk_decoder "write" sys_write [["fd"; "buf"; "count"]];
   mk_decoder "readv" sys_readv [["fd"; "iov"; "iovcnt"]];
   mk_decoder "writev" sys_writev [["fd"; "iov"; "iovcnt"]];
   mk_decoder "pread" sys_pread [["fd"; "buf"; "count"; "offset"]];
   mk_decoder "pwrite" sys_pwrite [["fd"; "buf"; "count"; "offset"]];
   mk_decoder "preadv" sys_preadv [["fd"; "iov"; "iovcnt"; "offset"]];
   mk_decoder "pwritev" sys_pwritev [["fd"; "iov"; "iovcnt"; "offset"]];
   mk_decoder "preadv2" sys_preadv2 [["fd"; "iov"; "iovcnt"; "offset"; "flags"]];
   mk_decoder "pwritev2" sys_pwritev2 [["fd"; "iov"; "iovcnt"; "offset"; "flags"]];
   mk_decoder "tee" sys_tee [["fd_in"; "fd_out"; "len"; "flags"]];
   mk_decoder "splice" sys_splice [["fd_in"; "off_in"; "fd_out"; "off_out"; "len"; "flags"]];
   mk_decoder "vmsplice" sys_vmsplice [["fd"; "iov"; "nr_segs"; "flags"]];
   mk_decoder "process_vm_readv" sys_process_vm_readv [["pid"; "local_iov"; "liovcnt"; "remote_iov"; "riovcnt"; "flags"]];
   mk_decoder "process_vm_writev" sys_process_vm_writev [["pid"; "local_iov"; "liovcnt"; "remote_iov"; "riovcnt"; "flags"]];
   mk_decoder "brk" sys_brk [["addr"]]].

Definition proc_decoders_2 : list (decoder St) :=
  [mk_decoder "old_mmap" sys_old_mmap [["addr"; "length"; "prot"; "flags"; "fd"; "offset"]; ["addr"]];
   mk_decoder "old_mmap_pgoff" sys_old_mmap_pgoff [["addr"; "length"; "prot"; "flags"; "fd"; "offset"]; ["addr"]];
   mk_decoder "mmap" sys_mmap [["addr"; "length"; "prot"; "flags"; "fd"; "offset"]];
   mk_decoder "mmap_pgoff" sys_mmap_pgoff [["addr"; "length"; "prot"; "flags"; "fd"; "offset"]];
   mk_decoder "mmap_4koff" sys_mmap_4koff [["addr"; "length"; "prot"; "flags"; "fd"; "offset"]];
   mk_decoder "munmap" sys_munmap [["addr"; "length"]];
   mk_decoder "mprotect" sys_mprotect [["addr"; "length"; "prot"]];
   mk_decoder "pkey_mprotect" sys_pkey_mprotect [["addr"; "length"; "prot"; "pkey"]];
   mk_decoder "mremap" sys_mremap [["old_address"; "old_size"; "new_size"; "flags"; "new_address"]; ["old_address"; "old_size"; "new_size"; "flags"]];
   mk_decoder "madvise" sys_madvise [["addr"; "length"; "advice"]];
   mk_decoder "process_madvise" sys_process_madvise [["pidfd"; "iovec"; "n"; "advice"; "flags"]];
   mk_decoder "process_mrelease" sys_process_mrelease [["pidfd"; "flags"]];
   mk_decoder "mlockall" sys_mlockall [["flags"]];
   mk_decoder "msync" sys_msync [["addr"; "length"; "flags"]];
   mk_decoder "mlock2" sys_mlock2 [["addr"; "length"; "flags"]];
   mk_decoder "mincore" sys_mincore [["addr"; "length"; "vec"]]].

Definition proc_decoders_3 : list (decoder St) :=
  [mk_decoder "remap_file_pages" sys_remap_file_pages [["addr"; "size"; "prot"; "pgoff"; "flags"]];
   mk_decoder "mseal" sys_mseal [["addr"; "length"; "flags"]];
   mk_decoder "setxattr" sys_setxattr [["pathname"; "name"; "value"; "size"; "flags"]];
   mk_decoder "fsetxattr" sys_fsetxattr [["fd"; "name"; "value"; "size"; "flags"]];
   mk_decoder "getxattr" sys_getxattr [["pathname"; "name"; "value"; "size"]];
   mk_decoder "fgetxattr" sys_fgetxattr [["fd"; "name"; "value"; "size"]];
   mk_decoder "listxattr" sys_listxattr [["pathname"; "list"; "size"]];
   mk_decoder "flistxattr" sys_flistxattr [["fd"; "list"; "size"]];
   mk_decoder "removexattr" sys_removexattr [["pathname"; "name"]];
   mk_decoder "fremovexattr" sys_fremovexattr [["fd"; "name"]];
   mk_decoder "setxattrat" sys_setxattrat [["dirfd"; "pathname"; "flags"; "name"; "args"; "size"]];
   mk_decoder "getxattrat" sys_getxattrat [["dirfd"; "pathname"; "flags"; "name"; "args"; "size"]];
   mk_decoder "listxattrat" sys_listxattrat [["dirfd"; "pathname"; "flags"; "list"; "size"]];
   mk_decoder "removexattrat" sys_removexattrat [["dirfd"; "pathname"; "flags"; "name"]];
   mk_decoder "getuid" sys_getuid [[]];
   mk_decoder "setfsuid" sys_setfsuid [["fsuid"]]].

Definition proc_decoders_4 : list (decoder St) :=
  [mk_decoder "setuid" sys_setuid [["uid"]];
   mk_decoder "setfsgid" sys_setfsgid [["fsgid"]];
   mk_decoder "setgid" sys_setgid [["gid"]];
   mk_decoder "getresuid" sys_getresuid [["ruid"; "euid"; "suid"]];
   mk_decoder "setreuid" sys_setreuid [["ruid"; "euid"]];
   mk_decoder "setresuid" sys_setresuid [["ruid"; "euid"; "suid"]];
   mk_decoder "getresgid" sys_getresgid [["rgid"; "egid"; "sgid"]];
   mk_decoder "setregid" sys_setregid [["rgid"; "egid"]];
   mk_decoder "setresgid" sys_setresgid [["rgid"; "egid"; "sgid"]];
   mk_decoder "chown" sys_chown [["pathname"; "owner"; "group"]];
   mk_decoder "fchown" sys_fchown [["fd"; "owner"; "group"]];
   mk_decoder "setgroups" sys_setgroups [["size"; "list"]];
   mk_decoder "getgroups" sys_getgroups [["size"; "list"]];
   mk_decoder "gettimeofday" sys_gettimeofday [["tv"; "tz"]];
   mk_decoder "settimeofday" sys_settimeofday [["tv"; "tz"]];
   mk_decoder "nanosleep_time32" sys_nanosleep_time32 [["req"; "rem"]]].

Definition proc_decoders_5 : list (decoder St) :=
  [mk_decoder "nanosleep_time64" sys_nanosleep_time64 [["req"; "rem"]];
   mk_decoder "getitimer" sys_getitimer [["which"; "curr_value"]];
   mk_decoder "setitimer" sys_setitimer [["which"; "new_value"; "old_value"]];
   mk_decoder "adjtimex32" sys_adjtimex32 [["buf"]];
   mk_decoder "adjtimex64" sys_adjtimex64 [["buf"]];
   mk_decoder "clock_settime32" sys_clock_settime32 [["clockid"; "tp"]];
   mk_decoder "clock_settime64" sys_clock_settime64 [["clockid"; "tp"]];
   mk_decoder "clock_gettime32" sys_clock_gettime32 [["clockid"; "tp"]];
   mk_decoder "clock_gettime64" sys_clock_gettime64 [["clockid"; "tp"]];
   mk_decoder "clock_nanosleep_time32" sys_clock_nanosleep_time32 [["clockid"; "flags"; "request"; "remain"]];
   mk_decoder "clock_nanosleep_time64" sys_clock_nanosleep_time64 [["clockid"; "flags"; "request"; "remain"]];
   mk_decoder "clock_adjtime32" sys_clock_adjtime32 [["clockid"; "buf"]];
   mk_decoder "clock_adjtime64" sys_clock_adjtime64 [["clockid"; "buf"]];
   mk_decoder "timer_create" sys_timer_create [["clockid"; "sevp"; "timerid"]];
   mk_decoder "timer_delete" sys_timer_delete [["timerid"]];
   mk_decoder "timer_settime32" sys_timer_settime32 [["timerid"; "flags"; "new_value"; "old_value"]]].

Definition proc_decoders_6 : list (decoder St) :=
  [mk_decoder "timer_settime64" sys_timer_settime64 [["timerid"; "flags"; "new_value"; "old_value"]];
   mk_decoder "timer_gettime32" sys_timer_gettime32 [["timerid"; "curr_value"]];
   mk_decoder "timer_gettime64" sys_timer_gettime64 [["timerid"; "curr_value"]];
   mk_decoder "timerfd_create" sys_timerfd_create [["clockid"; "flags"]];
   mk_decoder "timerfd_settime32" sys_timerfd_settime32 [["fd"; "flags"; "new_value"; "old_value"]];
   mk_decoder "timerfd_settime64" sys_timerfd_settime64 [["fd"; "flags"; "new_value"; "old_value"]];
   mk_decoder "timerfd_gettime32" sys_timerfd_gettime32 [["fd"; "curr_value"]];
   mk_decoder "timerfd_gettime64" sys_timerfd_gettime64 [["fd"; "curr_value"]];
   mk_decoder "sched_getscheduler" sys_sched_getscheduler [["pid"]];
   mk_decoder "sched_setscheduler" sys_sched_setscheduler [["pid"; "policy"; "param"]];
   mk_decoder "sched_getparam" sys_sched_getparam [["pid"; "param"]];
   mk_decoder "sched_setparam" sys_sched_setparam [["pid"; "param"]];
   mk_decoder "sched_get_priority_min" sys_sched_get_priority_min [["policy"]];
   mk_decoder "sched_rr_get_interval_time32" sys_sched_rr_get_interval_time32 [["pid"; "tp"]];
   mk_decoder "sched_rr_get_interval_time64" sys_sched_rr_get_interval_time64 [["pid"; "tp"]];
   mk_decoder "sched_setattr" sys_sched_setattr [["pid"; "attr"; "flags"]]].

Definition proc_decoders_7 : list (decoder St) :=
  [mk_decoder "sched_getattr" sys_sched_getattr [["pid"; "attr"; "size"; "flags"]];
   mk_decoder "getrlimit" sys_getrlimit [["resource"; "rlim"]];
   mk_decoder "setrlimit" sys_setrlimit [["resource"; "rlim"]];
   mk_decoder "prlimit64" sys_prlimit64 [["pid"; "resource"; "new_limit"; "old_limit"]];
   mk_decoder "getrusage" sys_getrusage [["who"; "usage"]];
   mk_decoder "getpriority" sys_getpriority [["which"; "who"]];
   mk_decoder "setpriority" sys_setpriority [["which"; "who"; "prio"]];
   mk_decoder "waitpid" sys_waitpid [["pid"; "status"; "options"]];
   mk_decoder "wait4" sys_wait4 [["pid"; "status"; "options"; "usage"]];
   mk_decoder "waitid" sys_waitid [["idtype"; "id"; "siginfo"; "options"; "usage"]];
   mk_decoder "migrate_pages" sys_migrate_pages [["pid"; "maxnode"; "old_nodes"; "new_nodes"]];
   mk_decoder "mbind" sys_mbind [["addr"; "len"; "mode"; "nodemask"; "maxnode"; "flags"]];
   mk_decoder "set_mempolicy" sys_set_mempolicy [["mode"; "nodemask"; "maxnode"]];
   mk_decoder "get_mempolicy" sys_get_mempolicy [["mode"; "nodemask"; "maxnode"; "addr"; "flags"]];
   mk_decoder "set_mempolicy_home_node" sys_set_mempolicy_home_node [["start"; "len"; "home_node"; "flags"]];
   mk_decoder "move_pages" sys_move_pages [["pid"; "count"; "pages"; "nodes"; "status"; "flags"]]].

Definition proc_decoders_8 : list (decoder St) :=
  [mk_decoder "futex_time32" sys_futex_time32 [["uaddr"; "futex_op"; "val"; "timeout"]; ["uaddr"; "futex_op"; "timeout"]; ["uaddr"; "futex_op"; "val"; "timeout"; "val3"]; ["uaddr"; "futex_op"; "val"; "val3"]; ["uaddr"; "futex_op"; "val"; "val2"; "uaddr2"]; ["uaddr"; "futex_op"; "val"; "val2"; "uaddr2"; "val3"]; ["uaddr"; "futex_op"; "val"; "timeout"; "uaddr2"]; ["uaddr"; "futex_op"; "val"]; ["uaddr"; "futex_op"]; ["uaddr"; "futex_op"; "val"; "timeout"; "uaddr2"; "val3"]];
   mk_decoder "futex_time64" sys_futex_time64 [["uaddr"; "futex_op"; "val"; "timeout"]; ["uaddr"; "futex_op"; "timeout"]; ["uaddr"; "futex_op"; "val"; "timeout"; "val3"]; ["uaddr"; "futex_op"; "val"; "val3"]; ["uaddr"; "futex_op"; "val"; "val2"; "uaddr2"]; ["uaddr"; "futex_op"; "val"; "val2"; "uaddr2"; "val3"]; ["uaddr"; "futex_op"; "val"; "timeout"; "uaddr2"]; ["uaddr"; "futex_op"; "val"]; ["uaddr"; "futex_op"]; ["uaddr"; "futex_op"; "val"; "timeout"; "uaddr2"; "val3"]];
   mk_decoder "futex_waitv" sys_futex_waitv [["waiters"; "nr_futexes"; "flags"; "timeout"; "clockid"]];
   mk_decoder "futex_wake" sys_futex_wake [["uaddr"; "mask"; "nr"; "flags"]];
   mk_decoder "futex_wait" sys_futex_wait [["uaddr"; "val"; "mask"; "flags"; "timeout"; "clockid"]];
   mk_decoder "futex_requeue" sys_futex_requeue [["waiters"; "flags"; "nr_wake"; "nr_requeue"]];
   mk_decoder "landlock_create_ruleset" sys_landlock_create_ruleset [["attr"; "size"; "flags"]];
   mk_decoder "landlock_add_rule" sys_landlock_add_rule [["ruleset_fd"; "rule_type"; "rule_attr"; "flags"]];
   mk_decoder "landlock_restrict_self" sys_landlock_restrict_self [["ruleset_fd"; "flags"]];
   mk_decoder "capget" sys_capget [["hdrp"; "datap"]];
   mk_decoder "capset" sys_capset [["hdrp"; "datap"]];
   mk_decoder "ustat" sys_ustat [["dev"; "ubuf"]];
   mk_decoder "sysinfo" sys_sysinfo [["info"]];
   mk_decoder "statx" sys_statx [["dirfd"; "pathname"; "flags"; "mask"; "statxbuf"]]].

Definition decoders : list (decoder St) :=
  (fs_decoders_1 ++ fs_decoders_2 ++ fs_decoders_3 ++ fs_decoders_4 ++ fs_decoders_5 ++
   fs_decoders_6 ++ misc_decoders_1 ++ misc_decoders_2 ++ misc_decoders_3 ++ misc_decoders_4 ++
   proc_decoders_1 ++ proc_decoders_2 ++ proc_decoders_3 ++ proc_decoders_4 ++ proc_decoders_5 ++
   proc_decoders_6 ++ proc_decoders_7 ++ proc_decoders_8)%list.

Definition wf_decoder (d : decoder St) : Prop := well_formed (dec_func d) (dec_args d).

Ltac prove_table := repeat (apply list.Forall_cons; split; [unfold wf_decoder; cbn [dec_func dec_args]; prove_wf|]); constructor.

Lemma fs_decoders_1_wf : Forall wf_decoder fs_decoders_1.
Proof. prove_table. Qed.

Lemma fs_decoders_2_wf : Forall wf_decoder fs_decoders_2.
Proof. prove_table. Qed.

Lemma fs_decoders_3_wf : Forall wf_decoder fs_decoders_3.
Proof. prove_table. Qed.

Lemma fs_decoders_4_wf : Forall wf_decoder fs_decoders_4.
Proof. prove_table. Qed.

Lemma fs_decoders_5_wf : Forall wf_decoder fs_decoders_5.
Proof. prove_table. Qed.

Lemma fs_decoders_6_wf : Forall wf_decoder fs_decoders_6.
Proof. prove_table. Qed.

Lemma misc_decoders_1_wf : Forall wf_decoder misc_decoders_1.
Proof. prove_table. Qed.

Lemma misc_decoders_2_wf : Forall wf_decoder misc_decoders_2.
Proof. prove_table. Qed.

Lemma misc_decoders_3_wf : Forall wf_decoder misc_decoders_3.
Proof. prove_table. Qed.

Lemma misc_decoders_4_wf : Forall wf_decoder misc_decoders_4.
Proof. prove_table. Qed.

Lemma proc_decoders_1_wf : Forall wf_decoder proc_decoders_1.
Proof. prove_table. Qed.

Lemma proc_decoders_2_wf : Forall wf_decoder proc_decoders_2.
Proof. prove_table. Qed.

Lemma proc_decoders_3_wf : Forall wf_decoder proc_decoders_3.
Proof. prove_table. Qed.

Lemma proc_decoders_4_wf : Forall wf_decoder proc_decoders_4.
Proof. prove_table. Qed.

Lemma proc_decoders_5_wf : Forall wf_decoder proc_decoders_5.
Proof. prove_table. Qed.

Lemma proc_decoders_6_wf : Forall wf_decoder proc_decoders_6.
Proof. prove_table. Qed.

Lemma proc_decoders_7_wf : Forall wf_decoder proc_decoders_7.
Proof. prove_table. Qed.

Lemma proc_decoders_8_wf : Forall wf_decoder proc_decoders_8.
Proof. prove_table. Qed.

Lemma decoders_wf : Forall wf_decoder decoders.
Proof.
  unfold decoders. repeat (apply list.Forall_app; split);
    first [apply fs_decoders_1_wf | apply fs_decoders_2_wf | apply fs_decoders_3_wf | apply fs_decoders_4_wf
      | apply fs_decoders_5_wf | apply fs_decoders_6_wf | apply misc_decoders_1_wf | apply misc_decoders_2_wf
      | apply misc_decoders_3_wf | apply misc_decoders_4_wf | apply proc_decoders_1_wf | apply proc_decoders_2_wf
      | apply proc_decoders_3_wf | apply proc_decoders_4_wf | apply proc_decoders_5_wf | apply proc_decoders_6_wf
      | apply proc_decoders_7_wf | apply proc_decoders_8_wf].
Qed.


(** The decoder of times is not among them: it prints the name of its argument
    on entry and again on exit, whatever the buffer holds, so that what it prints is
    not of the grammar. *)
Theorem times_names_its_argument_twice (t1 t2 : tcb) (args : Z -> Z) (l1 l2 : leaves St) (ds : dstate St) :
  entering t1 = true -> entering t2 = false ->
  exists rv evs ds',
    run_decoder sys_times t1 t2 args l1 l2 ds =
      Some (rv, call_tprints_arg_name "buf" :: call_tprints_arg_name "buf" :: evs, ds') /\
    steps no_args (call_tprints_arg_name "buf" :: call_tprints_arg_name "buf" :: evs) = None.
Proof.
  intros H1 H2. unfold run_decoder, sys_times. cbn [tcb_of]. rewrite H1, H2. cbn [negb].
  match goal with |- context [umoven_or_printaddr ?a ?b ?c ≫= ?k] => set (m := umoven_or_printaddr a b c ≫= k) end.
  destruct (emits_total m no_args (fun _ _ => True) ds) as (u & e & ds' & He); [subst m; repeat wf_step; exact I|].
  clearbody m. exists 0, e, ds'. split; [|reflexivity].
  unfold tprints_arg_name, emit, nothing, mret, D_ret, mbind, D_bind. cbn.
  change (has 0 RVAL_DECODED) with false. cbn. rewrite He. cbn. by rewrite app_nil_r.
Qed.

(** A mask of 32 bits sees the low 32 bits only. *)
Lemma land_uint32 v m : 0 <= m < 2 ^ 32 -> Z.land (uint 32 v) m = Z.land v m.
Proof.
  intros Hm. unfold uint. rewrite <- Z.land_ones by lia. rewrite <- Z.land_assoc. f_equal.
  rewrite Z.land_comm, Z.land_ones by lia. by apply Z.mod_small.
Qed.

(** Flags of mmap above the 32nd bit are not shown: print_mmap_flags, in the default
    style, prints the same for all values with the same low 32 bits, although the
    argument has 64. *)
Theorem mmap_high_flags_not_shown (flags : Z) (d : dstate St) :
  xlat_verbose xlat_verbosity = XLAT_STYLE_ABBREV -> print_mmap_flags flags d = print_mmap_flags (uint 32 flags) d.
Proof.
  intros Hs. unfold print_mmap_flags. rewrite Hs. cbn [Z.eqb negb].
  rewrite <- !Z.land_assoc. rewrite !land_uint32 by (vm_compute; split; congruence). reflexivity.
Qed.

End decoders.

(** ** A concrete syscall *)

(** x86_64, with -s 32; no tables of constants, no dates. *)
Definition demo_globals : Globals :=
  {| xlat_verbosity := XLAT_STYLE_ABBREV; max_strlen := 32; xflag := 0; malloc_ok := fun _ => true;
     current_wordsize := 8; current_klongsize := 8; is_bigendian := false; get_pagesize := 4096;
     xlat_of := fun _ => mk_xlat [] XT_NORMAL; sprintsigname := pretty; ngroups_max := 65536; current_wordsize_pos := eq_refl; sprinttime_ex := fun _ _ _ _ => None |}.

(** Memory in which every number of 8 bytes is 1; paths are "f". *)
Definition demo_leaves : leaves () :=
  {| lf_umoven := fun _ n st => (Some ((fun i => if i mod 8 =? 0 then 1 else 0) <$> seqZ 0 n), st);
     lf_printstr_ex := fun _ _ _ st => (codes "s", 0, st);
     lf_printpathn := fun _ _ st => (codes "f", 0, st);
     lf_print_nonzero_bytes := fun _ _ _ _ st => (None, st);
     lf_printfd := fun _ fd st => (codes (pretty fd), st);
     lf_printpid := fun p _ st => (codes (pretty p), st);
     lf_other := fun _ _ st => (codes "v", 0, st) |}.

Definition demo_state : dstate () := mk_d () PNone None None 0.
Definition on_exit : tcb := flag_on TCB_INSYSCALL decoding.

(** The text of a run, with the names of the arguments. *)
Definition demo_text (f : forall G : Globals, dtcb () -> D () Z) : option text :=
  '(_, evs, _) ← run_decoder (f demo_globals) decoding on_exit (fun i => 4096 + i) demo_leaves demo_leaves demo_state;
  Some (bytes (perform_all evs (mk_style None HYPERLINK_NEVER true))).

Example utime_text : demo_text (@sys_utime ()) = Some (codes "filename=f, times={actime=1, modtime=1}").
Proof. vm_compute. reflexivity. Qed.


Example times_text : demo_text (@sys_times ()) =
  Some (codes "buf=buf={tms_utime=v, tms_stime=v, tms_cutime=v, tms_cstime=v}").
Proof. vm_compute. reflexivity. Qed.

Lemma times_names_its_argument_twice_witness :
  exists rv evs ds',
    run_decoder (@sys_times () demo_globals) decoding on_exit (fun i => 4096 + i) demo_leaves demo_leaves demo_state =
      Some (rv, call_tprints_arg_name "buf" :: call_tprints_arg_name "buf" :: evs, ds') /\
    steps no_args (call_tprints_arg_name "buf" :: call_tprints_arg_name "buf" :: evs) = None.
Proof. apply (@times_names_its_argument_twice () demo_globals); reflexivity. Defined.

Lemma mmap_high_flags_not_shown_witness :
  @print_mmap_flags () demo_globals 0x100000002 demo_state = @print_mmap_flags () demo_globals 2 demo_state.
Proof. apply (@mmap_high_flags_not_shown () demo_globals 0x100000002 demo_state). reflexivity. Defined.
