(* ===== verification/Msghdr.v ===== *)
(** * Messages of sockets

    src/msghdr.c: struct msghdr and the control messages after it, as sendmsg and
    recvmsg print them.  Control messages are decoded from a copy in the memory of
    the tracer, so a length in the copy that is wrong must not lead out of it:
    reads of the copy are checked here, and a read outside has no result. *)

From stdpp Require Import strings pretty.
From S2P Require Import Prelude Wait Tcb Tracee Syscall Util Xlat Filters Quote UCopy PrintStr PrintArray Style Dump Decode SysFs SysMisc SysProc Decoders.
Local Open Scope string_scope.
Local Open Scope Z_scope.

Definition SOL_SOCKET : Z := 1.
Definition SOL_IP : Z := 0.
Definition AF_NETLINK : Z := 16.
Definition IOV_MAX : Z := 1024.

(** struct msghdr, with pointers as addresses of the tracee. *)
Record msghdr := mk_msghdr {
  msg_name : Z; msg_namelen : Z; msg_iov : Z; msg_iovlen : Z; msg_control : Z; msg_controllen : Z; msg_flags : Z }.

Section msghdr.
Context {St : Type} {G : Globals}.

(** ** Reads of the copy *)

Definition fault {A} : D St A := fun _ => None.
Definition inside (n off : Z) (b : list Z) : bool := (0 <=? off) && (off + n <=? lenZ b).
(** An unsigned and a signed member of [n] bytes at [off]. *)
Definition rd_u (n off : Z) (b : list Z) : D St Z := if inside n off b then mret (fu n off b) else fault.
Definition rd_s (n off : Z) (b : list Z) : D St Z := if inside n off b then mret (fs n off b) else fault.
Definition rd_bytes (n off : Z) (b : list Z) : D St (list Z) := if inside n off b then mret (bytes_at n off b) else fault.
(** An array of [count] elements. *)
Definition local_array (tcp : dtcb St) (b : list Z) (count size : Z) (f : list Z -> D St bool) : D St () :=
  if inside (count * size) 0 b then print_local_array_ex tcp b count size f 0 None None ;; nothing else fault.

(** ** Control messages *)

(** The printers take the data, whose length is the data_len of the source. *)
Definition print_scm_rights (tcp : dtcb St) (cmsg_data : list Z) : D St () :=
  let nfds := lenZ cmsg_data / 4 in
  local_array tcp cmsg_data nfds 4 (print_fd_array_member tcp).

(** struct ucred: pid, uid, gid. *)
Definition print_scm_creds (tcp : dtcb St) (cmsg_data : list Z) : D St () :=
  tprint_struct_begin ;;
  tprints_field_name "pid" ;;
  pid ← rd_s 4 0 cmsg_data;
  printpid tcp pid PT_TGID ;;
  tprint_struct_next ;;
  uid ← rd_u 4 4 cmsg_data;
  PRINT_FIELD_ID "uid" uid ;;
  tprint_struct_next ;;
  gid ← rd_u 4 8 cmsg_data;
  PRINT_FIELD_ID "gid" gid ;;
  tprint_struct_end.

Definition print_scm_security (tcp : dtcb St) (cmsg_data : list Z) : D St () :=
  print_quoted_string cmsg_data (lenZ cmsg_data) 0.

Definition print_scm_pidfd (tcp : dtcb St) (cmsg_data : list Z) : D St () :=
  fd ← rd_s 4 0 cmsg_data;
  printfd tcp fd.

Definition print_scm_timestamp_old (tcp : dtcb St) (cmsg_data : list Z) : D St () :=
  other tcp "print_struct_timeval_data_size" cmsg_data ;; nothing.
Definition print_scm_timestampns_old (tcp : dtcb St) (cmsg_data : list Z) : D St () :=
  other tcp (if current_klongsize =? 4 then "print_timespec32_data_size" else "print_timespec64_data_size") cmsg_data ;; nothing.
Definition print_scm_timestamping_old (tcp : dtcb St) (cmsg_data : list Z) : D St () :=
  other tcp (if current_klongsize =? 4 then "print_timespec32_array_data_size" else "print_timespec64_array_data_size") cmsg_data ;;
  nothing.
Definition print_scm_timestamp_new (tcp : dtcb St) (cmsg_data : list Z) : D St () :=
  other tcp "print_timeval64_data_size" cmsg_data ;; nothing.
Definition print_scm_timestampns_new (tcp : dtcb St) (cmsg_data : list Z) : D St () :=
  other tcp "print_timespec64_data_size" cmsg_data ;; nothing.
Definition print_scm_timestamping_new (tcp : dtcb St) (cmsg_data : list Z) : D St () :=
  other tcp "print_timespec64_array_data_size" cmsg_data ;; nothing.

(** struct in_pktinfo: ipi_ifindex, ipi_spec_dst, ipi_addr. *)
Definition print_cmsg_ip_pktinfo (tcp : dtcb St) (cmsg_data : list Z) : D St () :=
  tprint_struct_begin ;;
  tprints_field_name "ipi_ifindex" ;;
  ifindex ← rd_u 4 0 cmsg_data;
  other tcp "print_ifindex" [ifindex] ;;
  tprint_struct_next ;;
  tprints_field_name "ipi_spec_dst" ;;
  dst ← rd_bytes 4 4 cmsg_data;
  other tcp "print_inet_addr" dst ;;
  tprint_struct_next ;;
  tprints_field_name "ipi_addr" ;;
  addr ← rd_bytes 4 8 cmsg_data;
  other tcp "print_inet_addr" addr ;;
  tprint_struct_end.

Definition print_cmsg_uint (tcp : dtcb St) (cmsg_data : list Z) : D St () :=
  local_array tcp cmsg_data (lenZ cmsg_data / 4) 4 (print_uint_array_member 4).
Definition print_cmsg_xint8_t (tcp : dtcb St) (cmsg_data : list Z) : D St () :=
  local_array tcp cmsg_data (lenZ cmsg_data) 1 (print_xint_array_member 1).

(** struct sock_ee: ee_errno, ee_origin, ee_type, ee_code, ee_pad, ee_info, ee_data, offender. *)
Definition print_cmsg_ip_recverr (tcp : dtcb St) (cmsg_data : list Z) : D St () :=
  tprint_struct_begin ;;
  v ← rd_u 4 0 cmsg_data; PRINT_FIELD_U "ee_errno" v ;;
  tprint_struct_next ;;
  v ← rd_u 1 4 cmsg_data; PRINT_FIELD_U "ee_origin" v ;;
  tprint_struct_next ;;
  v ← rd_u 1 5 cmsg_data; PRINT_FIELD_U "ee_type" v ;;
  tprint_struct_next ;;
  v ← rd_u 1 6 cmsg_data; PRINT_FIELD_U "ee_code" v ;;
  tprint_struct_next ;;
  v ← rd_u 4 8 cmsg_data; PRINT_FIELD_U "ee_info" v ;;
  tprint_struct_next ;;
  v ← rd_u 4 12 cmsg_data; PRINT_FIELD_U "ee_data" v ;;
  tprint_struct_next ;;
  tprints_field_name "offender" ;;
  sa ← rd_bytes 16 16 cmsg_data;
  other tcp "print_sockaddr" sa ;;
  tprint_struct_end.

Definition print_cmsg_ip_origdstaddr (tcp : dtcb St) (cmsg_data : list Z) : D St () :=
  let addr_len := if 128 <? lenZ cmsg_data then 128 else lenZ cmsg_data in
  sa ← rd_bytes addr_len 0 cmsg_data;
  other tcp "print_sockaddr" sa ;; nothing.

Definition print_cmsg_ip_protocol (tcp : dtcb St) (cmsg_data : list Z) : D St () :=
  tprint_indirect_begin ;;
  protocol ← rd_u 4 0 cmsg_data;
  printxval (xlat_of "inet_protocols") protocol (Some "IP_???") ;;
  tprint_indirect_end.

(** The tables of printers, with the smallest length of data each is called for. *)
Definition printer : Type := (dtcb St -> list Z -> D St ()) * Z.
Definition cmsg_socket_printers (utype : Z) : option printer :=
  if utype =? 1 then Some (print_scm_rights, 4)                      (* SCM_RIGHTS *)
  else if utype =? 2 then Some (print_scm_creds, 12)                 (* SCM_CREDENTIALS *)
  else if utype =? 3 then Some (print_scm_security, 1)               (* SCM_SECURITY *)
  else if utype =? 4 then Some (print_scm_pidfd, 4)                  (* SCM_PIDFD *)
  else if utype =? 29 then Some (print_scm_timestamp_old, 1)         (* SO_TIMESTAMP_OLD *)
  else if utype =? 35 then Some (print_scm_timestampns_old, 1)       (* SO_TIMESTAMPNS_OLD *)
  else if utype =? 37 then Some (print_scm_timestamping_old, 1)      (* SO_TIMESTAMPING_OLD *)
  else if utype =? 63 then Some (print_scm_timestamp_new, 1)         (* SO_TIMESTAMP_NEW *)
  else if utype =? 64 then Some (print_scm_timestampns_new, 1)       (* SO_TIMESTAMPNS_NEW *)
  else if utype =? 65 then Some (print_scm_timestamping_new, 1)      (* SO_TIMESTAMPING_NEW *)
  else None.
Definition cmsg_ip_printers (utype : Z) : option printer :=
  if utype =? 8 then Some (print_cmsg_ip_pktinfo, 12)                (* IP_PKTINFO *)
  else if utype =? 2 then Some (print_cmsg_uint, 4)                  (* IP_TTL *)
  else if utype =? 1 then Some (print_cmsg_xint8_t, 1)               (* IP_TOS *)
  else if utype =? 6 then Some (print_cmsg_xint8_t, 1)               (* IP_RECVOPTS *)
  else if utype =? 7 then Some (print_cmsg_xint8_t, 1)               (* IP_RETOPTS *)
  else if utype =? 11 then Some (print_cmsg_ip_recverr, 32)          (* IP_RECVERR *)
  else if utype =? 20 then Some (print_cmsg_ip_origdstaddr, 16)      (* IP_ORIGDSTADDR *)
  else if utype =? 23 then Some (print_cmsg_uint, 4)                 (* IP_CHECKSUM *)
  else if utype =? 52 then Some (print_cmsg_ip_protocol, 4)          (* IP_PROTOCOL *)
  else if utype =? 3 then Some (print_scm_security, 1)               (* SCM_SECURITY *)
  else None.

(** The data, if there is a printer that can print it; whether there was. *)
Definition print_with (tcp : dtcb St) (p : option printer) (cmsg_data : list Z) : D St bool :=
  match p with
  | Some (printer, min_len) =>
      if min_len <=? lenZ cmsg_data then
        tprint_struct_next ;;
        tprints_field_name "cmsg_data" ;;
        printer tcp cmsg_data ;;
        mret true
      else mret false
  | None => mret false
  end.

Definition print_cmsg_type_data (tcp : dtcb St) (cmsg_level cmsg_type : Z) (cmsg_data : list Z) : D St () :=
  let utype := uint 32 cmsg_type in
  cmsg_data_printed ←
    (if cmsg_level =? SOL_SOCKET then
       printxval (xlat_of "scmvals") cmsg_type (Some "SCM_???") ;;
       print_with tcp (cmsg_socket_printers utype) cmsg_data
     else if cmsg_level =? SOL_IP then
       printxval (xlat_of "ip_cmsg_types") cmsg_type (Some "IP_???") ;;
       print_with tcp (cmsg_ip_printers utype) cmsg_data
     else PRINT_VAL_X (uint 32 cmsg_type) ;; mret false);
  if negb cmsg_data_printed && negb (lenZ cmsg_data =? 0) then
    tprint_struct_next ;;
    tprints_field_name "cmsg_data" ;;
    print_quoted_string cmsg_data (lenZ cmsg_data) QUOTE_FORCE_HEX
  else nothing.

(** /proc/sys/net/core/optmem_max, if it can be read. *)
Definition get_optmem_max (file : option Z) : Z :=
  uint 32 match file with
          | Some optmem_max =>
              if optmem_max <=? 0 then 8 * (2 * IOV_MAX + 512) else int (Z.land (uint 64 (optmem_max + 8 - 1)) (Z.lnot 7))
          | None => 8 * (2 * IOV_MAX + 512)
          end.

Definition cmsg_size : Z := if current_wordsize <? 8 then 12 else 16.
(** The distance to the next header. *)
Definition cmsg_next (cmsg_len : Z) : Z :=
  Z.land (uint 64 (uint 64 (cmsg_len + current_wordsize) - 1)) (uint 64 (Z.lnot (current_wordsize - 1))).

(** A round of the loop over the headers: the next position and length, or the length
    at which the loop ends. *)
Definition control_round (tcp : dtcb St) (buf : list Z) (pos buf_len : Z) : D St (Z * Z + Z) :=
  let w := if current_wordsize <? 8 then 4 else 8 in
  cmsg_len ← rd_u w pos buf;
  cmsg_level ← rd_s 4 (pos + w) buf;
  cmsg_type ← rd_s 4 (pos + w + 4) buf;
  (if negb (pos =? 0) then tprint_array_next else nothing) ;;
  tprint_struct_begin ;;
  tprints_field_name "cmsg_len" ;;
  PRINT_VAL_U cmsg_len ;;
  tprint_struct_next ;;
  tprints_field_name "cmsg_level" ;;
  printxval (xlat_of "socketlayers") (uint 32 cmsg_level) (Some "SOL_???") ;;
  tprint_struct_next ;;
  tprints_field_name "cmsg_type" ;;
  let len := if buf_len <? cmsg_len then buf_len else cmsg_len in
  cmsg_data ← rd_bytes (if cmsg_size <? len then len - cmsg_size else 0) (pos + cmsg_size) buf;
  print_cmsg_type_data tcp cmsg_level cmsg_type cmsg_data ;;
  tprint_struct_end ;;
  if len <? cmsg_size then mret (inr (buf_len - cmsg_size))
  else
    let len := cmsg_next cmsg_len in
    if buf_len <=? len then mret (inr 0)
    else mret (inl (pos + len, buf_len - len)).

Fixpoint control_loop (fuel : nat) (tcp : dtcb St) (buf : list Z) (pos buf_len : Z) : D St Z :=
  match fuel with
  | O => fault
  | S fuel =>
      if cmsg_size <=? buf_len then
        r ← control_round tcp buf pos buf_len;
        match r with
        | inl (pos, buf_len) => control_loop fuel tcp buf pos buf_len
        | inr buf_len => mret buf_len
        end
      else mret buf_len
  end.

Variable optmem_file : option Z.

Definition decode_msg_control (tcp : dtcb St) (addr in_control_len : Z) : D St () :=
  if in_control_len =? 0 then nothing
  else
    tprint_struct_next ;;
    tprints_field_name "msg_control" ;;
    let optmem := get_optmem_max optmem_file in
    let control_len := uint 32 (if optmem <? in_control_len then optmem else in_control_len) in
    buf ← (if (control_len <? cmsg_size) || negb (malloc_ok control_len) then mret None else umoven tcp addr control_len);
    match buf with
    | None => printaddr addr
    | Some buf =>
        tprint_array_begin ;;
        buf_len ← control_loop (S (Z.to_nat control_len)) tcp buf 0 control_len;
        (if negb (buf_len =? 0) then
           tprint_array_next ;;
           tprint_more_data_follows ;;
           printaddr_comment (uint 64 (addr + uint 32 (control_len - buf_len)))
         else if control_len <? in_control_len then
           tprint_array_next ;;
           tprint_more_data_follows
         else nothing) ;;
        tprint_array_end
    end.

(** ** struct msghdr *)

(** fetch_struct_msghdr depends on the personality; getfdproto asks /proc. *)
Variable fetch_struct_msghdr : Z -> St -> option msghdr * St.
Variable fd_is_netlink : Z -> St -> bool * St.

Definition iov_decode_netlink (fd : Z) (tcp : dtcb St) (addr size : Z) : D St () :=
  other tcp "decode_netlink" [fd; addr; size] ;; nothing.

Definition print_struct_msghdr (tcp : dtcb St) (msg : msghdr) (p_user_msg_namelen : option Z) (data_size : Z) : D St () :=
  let namelen := int (msg_namelen msg) in
  let msg_namelen :=
    match p_user_msg_namelen with
    | Some user_namelen => if user_namelen <? namelen then user_namelen else namelen
    | None => namelen
    end in
  tprint_struct_begin ;;
  tprints_field_name "msg_name" ;;
  family ← other tcp "decode_sockaddr" [msg_name msg; msg_namelen];
  let fd := int (u_arg tcp 0) in
  netlink ← (if family =? -1 then lift (fd_is_netlink fd) else mret false);
  let print_func := if (family =? AF_NETLINK) || netlink then iov_decode_netlink fd else iov_decode_str in
  tprint_struct_next ;;
  tprints_field_name "msg_namelen" ;;
  (match p_user_msg_namelen with
   | Some user_namelen =>
       if negb (user_namelen =? namelen) then PRINT_VAL_D user_namelen ;; tprint_value_changed else nothing
   | None => nothing
   end) ;;
  PRINT_VAL_D namelen ;;
  tprint_struct_next ;;
  tprints_field_name "msg_iov" ;;
  tprint_iov_upto tcp (msg_iovlen msg) (msg_iov msg) data_size print_func ;;
  tprint_struct_next ;;
  PRINT_FIELD_U "msg_iovlen" (msg_iovlen msg) ;;
  decode_msg_control tcp (msg_control msg) (msg_controllen msg) ;;
  tprint_struct_next ;;
  PRINT_FIELD_U "msg_controllen" (msg_controllen msg) ;;
  tprint_struct_next ;;
  PRINT_FIELD_FLAGS "msg_flags" (uint 32 (msg_flags msg)) (xlat_of "msg_flags") (Some "MSG_???") ;;
  tprint_struct_end.

Definition fetch_msghdr (tcp : dtcb St) (addr : Z) : D St (option msghdr) :=
  if negb (addr =? 0) && verbose tcp then lift (fetch_struct_msghdr addr) else mret None.

Definition fetch_msghdr_namelen (tcp : dtcb St) (addr : Z) : D St (option Z) :=
  msg ← fetch_msghdr tcp addr;
  mret ((fun msg => int (msg_namelen msg)) <$> msg).

Definition decode_msghdr (tcp : dtcb St) (p_user_msg_namelen : option Z) (addr data_size : Z) : D St () :=
  msg ← fetch_msghdr tcp addr;
  match msg with
  | Some msg => print_struct_msghdr tcp msg p_user_msg_namelen data_size
  | None => printaddr addr
  end.

Definition sys_sendmsg (tcp : dtcb St) : D St Z :=
  tprints_arg_name "sockfd" ;;
  printfd tcp (u_arg tcp 0) ;;
  tprints_arg_next_name "msg" ;;
  decode_msghdr tcp None (u_arg tcp 1) (2 ^ 64 - 1) ;;
  tprints_arg_next_name "flags" ;;
  printflags (xlat_of "msg_flags") (u_arg tcp 2) (Some "MSG_???") ;;
  mret RVAL_DECODED.

Definition sys_recvmsg (tcp : dtcb St) : D St Z :=
  let print_flags :=
    tprints_arg_next_name "flags" ;;
    printflags (xlat_of "msg_flags") (u_arg tcp 2) (Some "MSG_???") ;;
    mret RVAL_DECODED in
  if entering tcp then
    tprints_arg_name "sockfd" ;;
    printfd tcp (u_arg tcp 0) ;;
    msg_namelen ← fetch_msghdr_namelen tcp (u_arg tcp 1);
    match msg_namelen with
    | Some msg_namelen => set_tcb_priv_ulong (uint 64 msg_namelen) ;; mret 0
    | None =>
        tprints_arg_next_name "msg" ;;
        printaddr (u_arg tcp 1) ;;
        print_flags
    end
  else
    v ← get_tcb_priv_ulong;
    let msg_namelen := int v in
    tprints_arg_next_name "msg" ;;
    (if syserror tcp then
       tprint_struct_begin ;;
       tprints_field_name "msg_namelen" ;;
       PRINT_VAL_D msg_namelen ;;
       tprint_struct_end
     else decode_msghdr tcp (Some msg_namelen) (u_arg tcp 1) (uint 64 (u_rval tcp))) ;;
    print_flags.
End msghdr.

(** With -e read= or -e write=, the data that a message refers to is dumped. *)
Section dump.
Context {TM : TraceeMemory}.
Variables (page_size : Z) (narrow : bool) (malloc_ok : Z -> bool) (fresh : Z -> list Z) (pid : Z).
Variable fetch_struct_msghdr : Z -> mstate -> ucopy -> option msghdr * ucopy.

Definition dumpiov_in_msghdr (m : mstate) (c : ucopy) (st : dump_state) (ws addr data_size : Z)
  : option (list Z * ucopy * dump_state) :=
  let '(msg, c) := fetch_struct_msghdr addr m c in
  match msg with
  | Some msg => dumpiov_upto page_size narrow malloc_ok fresh pid m c st ws (int (msg_iovlen msg)) (msg_iov msg) data_size
  | None => Some ([], c, st)
  end.
End dump.
#[export] Typeclasses Opaque fault rd_u rd_s rd_bytes local_array print_cmsg_type_data control_round decode_msg_control iov_decode_netlink.

(** ** The walk stays in the copy and ends *)

Section facts.
Context {St : Type} {G : Globals}.
Implicit Type tcp : dtcb St.

(** Reads inside the copy. *)
Lemma inside_iff n off b : inside n off b = true <-> 0 <= off /\ off + n <= lenZ b.
Proof. unfold inside. rewrite andb_true_iff, !Z.leb_le. done. Qed.
Lemma rd_u_silent n off b : inside n off b = true -> Silent (rd_u (St := St) n off b).
Proof. unfold rd_u. intros ->. apply _. Qed.
Lemma rd_s_silent n off b : inside n off b = true -> Silent (rd_s (St := St) n off b).
Proof. unfold rd_s. intros ->. apply _. Qed.
Lemma rd_bytes_silent n off b : inside n off b = true -> Silent (rd_bytes (St := St) n off b).
Proof. unfold rd_bytes. intros ->. apply _. Qed.
Lemma rd_u_emits n off b s (Q : Z -> ostate -> Prop) : inside n off b = true -> Q (fu n off b) s -> emits (rd_u (St := St) n off b) s Q.
Proof. unfold rd_u. intros ->. apply emits_ret. Qed.
Lemma local_array_value tcp b count size f :
  0 < size -> 0 <= count -> count * size <= lenZ b -> (forall e, IsValue (f e)) -> IsValue (local_array tcp b count size f).
Proof.
  intros Hs Hc Hl Hf. unfold local_array. rewrite (proj2 (inside_iff _ _ _)) by lia.
  apply value_silent; [by apply print_local_array_ex_value | apply _].
Qed.
Lemma lenZ_bytes_at n off b : 0 <= n -> 0 <= off -> off + n <= lenZ b -> lenZ (bytes_at n off b) = n.
Proof. unfold lenZ, bytes_at. intros. rewrite length_take, length_drop. lia. Qed.

(** Every read of a printer is in the data, if the data has the least length. *)
Ltac data_step :=
  lazymatch goal with
  | |- emits (rd_u _ _ _) _ _ => apply rd_u_silent; [apply inside_iff; lia | intros ?]
  | |- emits (rd_s _ _ _) _ _ => apply rd_s_silent; [apply inside_iff; lia | intros ?]
  | |- emits (rd_bytes _ _ _) _ _ => apply rd_bytes_silent; [apply inside_iff; lia | intros ?]
  | |- emits (local_array _ _ _ _ _) _ _ => apply local_array_value; [lia | lia | lia | intros ?; apply _ | intros ?]
  | |- _ => wf_step
  end; norm_state.
Ltac safe := intros [f ns] Q H; repeat data_step; apply H.

Definition safe_printer (p : printer (St := St)) : Prop := forall tcp data, p.2 <= lenZ data -> IsValue (p.1 tcp data).

Lemma print_scm_creds_value tcp data : 12 <= lenZ data -> IsValue (print_scm_creds tcp data).
Proof. intros Hl. unfold print_scm_creds. safe. Qed.
Lemma print_scm_pidfd_value tcp data : 4 <= lenZ data -> IsValue (print_scm_pidfd tcp data).
Proof. intros Hl. unfold print_scm_pidfd. safe. Qed.
Lemma print_scm_rights_value tcp data : IsValue (print_scm_rights tcp data).
Proof.
  pose proof (lenZ_nonneg data). pose proof (Z.mul_div_le (lenZ data) 4 ltac:(lia)).
  apply local_array_value; [lia | by apply Z.div_pos | lia | apply _].
Qed.
Lemma print_cmsg_ip_pktinfo_value tcp data : 12 <= lenZ data -> IsValue (print_cmsg_ip_pktinfo tcp data).
Proof. intros Hl. unfold print_cmsg_ip_pktinfo. safe. Qed.
Lemma print_cmsg_uint_value tcp data : IsValue (print_cmsg_uint tcp data).
Proof.
  pose proof (lenZ_nonneg data). pose proof (Z.mul_div_le (lenZ data) 4 ltac:(lia)).
  apply local_array_value; [lia | by apply Z.div_pos | lia | apply _].
Qed.
Lemma print_cmsg_xint8_t_value tcp data : IsValue (print_cmsg_xint8_t tcp data).
Proof. pose proof (lenZ_nonneg data). apply local_array_value; [lia | lia | lia | apply _]. Qed.
Lemma print_cmsg_ip_recverr_value tcp data : 32 <= lenZ data -> IsValue (print_cmsg_ip_recverr tcp data).
Proof. intros Hl. unfold print_cmsg_ip_recverr. safe. Qed.
Lemma print_cmsg_ip_origdstaddr_value tcp data : IsValue (print_cmsg_ip_origdstaddr tcp data).
Proof.
  unfold print_cmsg_ip_origdstaddr. pose proof (lenZ_nonneg data) as Hn. intros [f ns] Q H. apply emits_bind, rd_bytes_silent.
  - apply inside_iff. destruct (Z.ltb_spec 128 (lenZ data)); lia.
  - intros sa. wf. apply H.
Qed.
Lemma print_cmsg_ip_protocol_value tcp data : 4 <= lenZ data -> IsValue (print_cmsg_ip_protocol tcp data).
Proof. intros Hl. unfold print_cmsg_ip_protocol. safe. Qed.

Ltac table_entry :=
  lazymatch goal with
  | |- context [if ?u =? ?k then _ else _] => destruct (u =? k); [intros [= <-]; intros tcp data Hl; cbn [fst snd] in * | ]
  end.
(** No printer of the tables reads past the data it is called for. *)
Lemma cmsg_socket_printers_safe utype p : cmsg_socket_printers utype = Some p -> safe_printer p.
Proof.
  unfold cmsg_socket_printers. repeat table_entry; [..|done];
    first [ apply print_scm_rights_value | by apply print_scm_creds_value | by apply print_scm_pidfd_value | apply print_quoted_string_value
          | apply value_silent; apply _ ].
Qed.
Lemma cmsg_ip_printers_safe utype p : cmsg_ip_printers utype = Some p -> safe_printer p.
Proof.
  unfold cmsg_ip_printers. repeat table_entry; [..|done];
    first [ apply print_cmsg_uint_value | apply print_cmsg_xint8_t_value | by apply print_cmsg_ip_pktinfo_value
          | by apply print_cmsg_ip_recverr_value | apply print_cmsg_ip_origdstaddr_value | by apply print_cmsg_ip_protocol_value
          | apply print_quoted_string_value ].
Qed.

Lemma print_with_emits tcp p data f ns (Q : bool -> ostate -> Prop) :
  (forall p', p = Some p' -> safe_printer p') -> (forall b, Q b (mk_o ((BStruct, SValue) :: f) ns)) ->
  emits (print_with tcp p data) (mk_o ((BStruct, SValue) :: f) ns) Q.
Proof.
  intros Hp H. unfold print_with. destruct p as [[pr min_len]|]; [|apply emits_ret, H].
  destruct (min_len <=? lenZ data) eqn:Hl; [|apply emits_ret, H]. apply Z.leb_le in Hl.
  do 6 wf_step. apply emits_bind, (Hp _ eq_refl tcp data Hl). intros []. apply emits_ret, H.
Qed.

Lemma print_cmsg_type_data_emits tcp level type data f ns Q :
  (forall u, Q u (mk_o ((BStruct, SValue) :: f) ns)) ->
  emits (print_cmsg_type_data tcp level type data) (mk_o ((BStruct, SName) :: f) ns) Q.
Proof.
  intros H. unfold print_cmsg_type_data. apply emits_bind. destruct (level =? SOL_SOCKET); [|destruct (level =? SOL_IP)].
  1,2: wf_step; wf_step; apply print_with_emits; [apply cmsg_socket_printers_safe || apply cmsg_ip_printers_safe | intros b; wf; apply H].
  wf; apply H.
Qed.
(** *** The headers of a copy *)

Definition cmsg_len_at (b : list Z) (p : Z) : Z := fu (if current_wordsize <? 8 then 4 else 8) p b.

(** The positions that the walk reaches. *)
Inductive header_at (b : list Z) : Z -> Prop :=
| header_first : header_at b 0
| header_next p : header_at b p -> header_at b (p + cmsg_next (cmsg_len_at b p)).

(** A copy of bytes in which no header has a length that wraps around when it is
    rounded up to words. *)
Definition walkable (b : list Z) : Prop :=
  Forall byte b /\ forall p, header_at b p -> p + cmsg_size <= lenZ b -> cmsg_len_at b p <= 2 ^ 64 - 8.

Hypothesis wordsize : current_wordsize = 4 \/ current_wordsize = 8.

Lemma fu_range n off b : Forall byte b -> 0 <= n -> 0 <= fu n off b < 256 ^ n.
Proof.
  intros Hb Hn. unfold fu, word_value. set (l := take _ _). assert (Hl : Forall byte l) by (by apply Forall_take, Forall_drop).
  set (l' := if is_bigendian then rev l else l).
  assert (Hl' : Forall byte l') by (subst l'; destruct is_bigendian; [by apply Forall_rev|done]).
  assert (Hlen : lenZ l' <= n).
  { subst l' l. unfold lenZ. destruct is_bigendian; rewrite ?length_rev, length_take, length_drop; lia. }
  pose proof (le_value_bytes l' Hl'). pose proof (Z.pow_le_mono_r 256 (lenZ l') n ltac:(lia) Hlen). lia.
Qed.

(** The distance to the next header is the length, rounded up to words. *)
Lemma cmsg_next_round len : 0 <= len <= 2 ^ 64 - 8 ->
  cmsg_next len = (len + current_wordsize - 1) / current_wordsize * current_wordsize.
Proof.
  intros Hl. unfold cmsg_next. replace (uint 64 (uint 64 (len + current_wordsize) - 1)) with (len + current_wordsize - 1).
  2: { unfold uint. rewrite Zminus_mod_idemp_l, Z.mod_small; [done|]. destruct wordsize as [-> | ->]; lia. }
  assert (H : exists k, (k = 2 \/ k = 3) /\ current_wordsize = 2 ^ k) by (destruct wordsize as [-> | ->]; [exists 2 | exists 3]; tauto).
  destruct H as (k & Hk & ->). set (x := len + 2 ^ k - 1).
  assert (Hx : 0 <= x < 2 ^ 64) by (subst x; destruct Hk as [-> | ->]; lia).
  replace (uint 64 (Z.lnot (2 ^ k - 1))) with (Z.ldiff (Z.ones 64) (Z.ones k)) by (destruct Hk as [-> | ->]; reflexivity).
  rewrite <- Z.shiftl_mul_pow2, <- Z.shiftr_div_pow2, <- Z.ldiff_ones_r by lia.
  apply Z.bits_inj'. intros i Hi. rewrite Z.land_spec, !Z.ldiff_spec.
  destruct (Z.testbit x i) eqn:E; [|done]. cbn. rewrite Z.testbit_ones_nonneg by lia.
  destruct (Z.ltb_spec i 64); [done|]. rewrite (testbit_high 64 x i) in E; done.
Qed.
Lemma cmsg_next_ge len : 0 <= len <= 2 ^ 64 - 8 -> len <= cmsg_next len.
Proof.
  intros Hl. rewrite cmsg_next_round by done. destruct wordsize as [-> | ->]; [pose proof (Z.mod_pos_bound (len + 4 - 1) 4) | pose proof (Z.mod_pos_bound (len + 8 - 1) 8)];
    [pose proof (Z.div_mod (len + 4 - 1) 4) | pose proof (Z.div_mod (len + 8 - 1) 8)]; lia.
Qed.
Lemma cmsg_size_cases : cmsg_size = 12 /\ current_wordsize = 4 \/ cmsg_size = 16 /\ current_wordsize = 8.
Proof. unfold cmsg_size. destruct wordsize as [-> | ->]; tauto. Qed.
(** *** The loop *)

(** At [pos] the rest of the copy is left, and the walk came here. *)
Definition at_header (b : list Z) (pos buf_len : Z) : Prop := header_at b pos /\ 0 <= pos /\ pos + buf_len = lenZ b.

Lemma cmsg_len_range b p : Forall byte b -> 0 <= cmsg_len_at b p /\ (current_wordsize = 4 -> cmsg_len_at b p < 2 ^ 32).
Proof.
  intros Hb. unfold cmsg_len_at. destruct wordsize as [-> | ->]; cbn.
  - pose proof (fu_range 4 p b Hb ltac:(lia)). lia.
  - pose proof (fu_range 8 p b Hb ltac:(lia)). lia.
Qed.

Abbreviation in_list q f ns := (mk_o ((BArray, q) :: f) ns).

(** What a round leaves, by the length in the header. *)
Definition after_round (b : list Z) (pos buf_len : Z) : Z * Z + Z :=
  let cmsg_len := cmsg_len_at b pos in
  if Z.min cmsg_len buf_len <? cmsg_size then inr (buf_len - cmsg_size)
  else if buf_len <=? cmsg_next cmsg_len then inr 0
  else inl (pos + cmsg_next cmsg_len, buf_len - cmsg_next cmsg_len).

Lemma control_round_emits tcp b pos buf_len f ns :
  0 <= pos -> pos + buf_len = lenZ b -> cmsg_size <= buf_len ->
  emits (control_round tcp b pos buf_len) (in_list (if pos =? 0 then SEmpty else SValue) f ns) (fun r s =>
    s = in_list SValue f ns /\ r = after_round b pos buf_len).
Proof.
  intros Hp Hl Hsz. pose proof cmsg_size_cases as Hc. unfold control_round, after_round.
  set (w := if current_wordsize <? 8 then 4 else 8).
  assert (Hw : cmsg_size = w + 8) by (subst w; destruct Hc as [[-> ->] | [-> ->]]; done).
  assert (0 < w) by (subst w; destruct (_ <? _); lia).
  apply emits_bind, rd_u_emits; [apply inside_iff; lia|]. fold w. change (fu w pos b) with (cmsg_len_at b pos).
  set (cmsg_len := cmsg_len_at b pos) in *.
  replace (if buf_len <? cmsg_len then buf_len else cmsg_len) with (Z.min cmsg_len buf_len) by (destruct (Z.ltb_spec buf_len cmsg_len); lia).
  apply emits_bind, rd_s_silent; [apply inside_iff; lia|]. intros level.
  apply emits_bind, rd_s_silent; [apply inside_iff; lia|]. intros type.
  apply emits_bind. apply emits_mono with (Q := fun _ s => s = in_list (if pos =? 0 then SEmpty else SSep) f ns).
  { destruct (pos =? 0); cbn [negb]; wf; done. }
  assert (Hin : inside (if cmsg_size <? Z.min cmsg_len buf_len then Z.min cmsg_len buf_len - cmsg_size else 0) (pos + cmsg_size) b = true)
    by (apply inside_iff; destruct (Z.ltb_spec cmsg_size (Z.min cmsg_len buf_len)); lia).
  intros _ s ->. destruct (pos =? 0); norm_state.
  all: repeat lazymatch goal with
              | |- emits (rd_bytes _ _ _) _ _ => apply rd_bytes_silent; [exact Hin | intros ?]
              | |- emits (print_cmsg_type_data _ _ _ _) _ _ => apply print_cmsg_type_data_emits; intros ?; norm_state
              | _ => wf_step
              end; done.
Qed.

Lemma after_round_ok b pos buf_len :
  Forall byte b -> at_header b pos buf_len -> cmsg_size <= buf_len -> cmsg_len_at b pos <= 2 ^ 64 - 8 ->
  match after_round b pos buf_len with
  | inl (pos', buf_len') => at_header b pos' buf_len' /\ pos < pos' /\ 0 <= buf_len'
  | inr n => 0 <= n < buf_len
  end.
Proof.
  intros Hb (Hp & Hp0 & Hl) Hsz Hlen. pose proof cmsg_size_cases. pose proof (cmsg_len_range b pos Hb) as [Hr _].
  unfold after_round. set (cmsg_len := cmsg_len_at b pos) in *.
  assert (Hge : cmsg_len <= cmsg_next cmsg_len) by (apply cmsg_next_ge; lia).
  destruct (Z.ltb_spec (Z.min cmsg_len buf_len) cmsg_size); [lia|].
  destruct (Z.leb_spec buf_len (cmsg_next cmsg_len)); [lia|].
  unfold at_header. split_and!; [by apply header_next | lia..].
Qed.

(** The loop ends, in as many rounds as there are bytes. *)
Lemma control_loop_emits fuel tcp b pos buf_len f ns :
  walkable b -> at_header b pos buf_len -> 0 <= buf_len < Z.of_nat fuel -> (pos = 0 -> cmsg_size <= buf_len) ->
  emits (control_loop fuel tcp b pos buf_len) (in_list (if pos =? 0 then SEmpty else SValue) f ns)
    (fun n s => s = in_list SValue f ns /\ 0 <= n).
Proof.
  intros [Hb Hw]. revert pos buf_len; induction fuel as [|fuel IH]; intros pos buf_len Ha Hf H0; [lia|]. cbn [control_loop].
  destruct (Z.leb_spec cmsg_size buf_len) as [Hs|Hs].
  - apply emits_bind. eapply emits_mono.
    + apply control_round_emits; [apply Ha | apply Ha | done].
    + intros r s' [-> ->]. pose proof (after_round_ok b pos buf_len Hb Ha Hs) as Hr.
      specialize (Hr ltac:(apply Hw; [apply Ha | destruct Ha as (? & ? & <-); lia])).
      destruct (after_round b pos buf_len) as [[pos' buf_len']|n].
      * destruct Hr as (Ha' & Hlt & Hn). destruct Ha as (? & ? & ?). destruct (Ha') as (? & ? & ?).
        specialize (IH pos' buf_len' Ha'). rewrite (proj2 (Z.eqb_neq pos' 0)) in IH by lia. apply IH; lia.
      * apply emits_ret. split; [done | lia].
  - apply emits_ret. rewrite (proj2 (Z.eqb_neq pos 0)) by (intros ->; lia). split; [done | lia].
Qed.

Variable optmem_file : option Z.

(** What the tracer is given: as many bytes as were asked for, and control messages
    that can be walked. *)
Definition readable (l : leaves St) : Prop :=
  forall addr n st b st', lf_umoven l addr n st = (Some b, st') -> lenZ b = n /\ walkable b.

Lemma umoven_readable tcp addr n s (Q : option (list Z) -> ostate -> Prop) :
  readable (leaf tcp) -> (forall b, lenZ b = n -> walkable b -> Q (Some b) s) -> Q None s -> emits (umoven tcp addr n) s Q.
Proof.
  intros Hr H1 H2 d. unfold umoven, lift. destruct (lf_umoven (leaf tcp) addr n (d_st d)) as [[b|] st'] eqn:E; [|done].
  cbn. by destruct (Hr _ _ _ _ _ E); apply H1.
Qed.

Lemma decode_msg_control_emits tcp addr len f ns (Q : () -> ostate -> Prop) :
  readable (leaf tcp) -> Q () (mk_o ((BStruct, SValue) :: f) ns) ->
  emits (decode_msg_control optmem_file tcp addr len) (mk_o ((BStruct, SValue) :: f) ns) Q.
Proof.
  intros Hr H. unfold decode_msg_control. destruct (len =? 0); [by apply emits_ret|].
  set (n := uint 32 _). assert (0 <= n) by (by apply count_nonneg).
  do 6 wf_step. apply emits_bind. destruct ((n <? cmsg_size) || negb (malloc_ok n)) eqn:Hn.
  { apply emits_ret. apply printaddr_value. intros []. exact H. }
  apply orb_false_iff in Hn as [Hn%Z.ltb_ge _].
  apply umoven_readable; [done| |apply printaddr_value; intros []; exact H].
  intros b Hb Hw. do 3 wf_step. apply emits_bind. eapply emits_mono.
  { apply (control_loop_emits _ tcp b 0 n); [done | | lia | lia]. split; [constructor | lia]. }
  intros r s' [-> _]. wf; exact H.
Qed.
(** *** The decoders *)

Variable fetch_struct_msghdr : Z -> St -> option msghdr * St.
Variable fd_is_netlink : Z -> St -> bool * St.
Abbreviation print_struct_msghdr := (print_struct_msghdr optmem_file fd_is_netlink).
Abbreviation decode_msghdr := (decode_msghdr optmem_file fetch_struct_msghdr fd_is_netlink).
Abbreviation sys_sendmsg := (sys_sendmsg optmem_file fetch_struct_msghdr fd_is_netlink).
Abbreviation sys_recvmsg := (sys_recvmsg optmem_file fetch_struct_msghdr fd_is_netlink).

#[local] Instance iov_decode_netlink_value fd tcp a n : IsValue (iov_decode_netlink fd tcp a n).
Proof. apply value_silent; apply _. Qed.
#[local] Typeclasses Opaque iov_decode_str tprint_iov_upto.

Lemma print_struct_msghdr_value tcp msg user size : readable (leaf tcp) -> IsValue (print_struct_msghdr tcp msg user size).
Proof.
  intros Hr [f ns] Q H. unfold Msghdr.print_struct_msghdr. cbv zeta. destruct user as [user|].
  all: repeat lazymatch goal with
              | |- emits (decode_msg_control _ _ _ _) _ _ => apply decode_msg_control_emits; [done|]; norm_state
              | _ => wf_step
              end; apply H.
Qed.
Lemma decode_msghdr_value tcp user addr size : readable (leaf tcp) -> IsValue (decode_msghdr tcp user addr size).
Proof.
  intros Hr [f ns] Q H. unfold Msghdr.decode_msghdr, fetch_msghdr. apply emits_bind.
  destruct (_ && _); [apply lift_silent; intros [msg|] | apply emits_ret; by apply printaddr_value].
  - by apply print_struct_msghdr_value.
  - by apply printaddr_value.
Qed.

Lemma sys_sendmsg_wf t1 t2 args l1 l2 : readable l1 ->
  emits (run_decoder sys_sendmsg t1 t2 args l1 l2) no_args
    (fun _ s => complete s = true /\ names s = ["sockfd"; "msg"; "flags"]).
Proof.
  intros Hr. unfold run_decoder, no_args, Msghdr.sys_sendmsg.
  repeat lazymatch goal with
         | |- emits (Msghdr.decode_msghdr _ _ _ _ _ _ _) _ _ => apply decode_msghdr_value; [done | intros ?]; norm_state
         | _ => wf_step
         end; done.
Qed.
Lemma sys_recvmsg_wf t1 t2 args l1 l2 : readable l2 -> entering t1 = true -> entering t2 = false ->
  emits (run_decoder sys_recvmsg t1 t2 args l1 l2) no_args
    (fun _ s => complete s = true /\ names s = ["sockfd"; "msg"; "flags"]).
Proof.
  intros Hr Hin Hout. unfold run_decoder, no_args, Msghdr.sys_recvmsg. cbv zeta.
  repeat lazymatch goal with
         | |- emits (Msghdr.decode_msghdr _ _ _ _ _ _ _) _ _ => apply decode_msghdr_value; [done | intros ?]; norm_state
         | |- emits (fetch_msghdr_namelen _ _ _) _ _ => unfold fetch_msghdr_namelen, fetch_msghdr
         | _ => wf_step
         end; done.
Qed.


Lemma cmsg_next_wraps len : current_wordsize = 8 -> 2 ^ 64 - 8 < len < 2 ^ 64 -> cmsg_next len = 0.
Proof.
  intros Hw Hl. unfold cmsg_next. rewrite Hw. unfold uint. rewrite Zminus_mod_idemp_l.
  rewrite <- (Z.mod_unique_pos (len + 8 - 1) (2 ^ 64) 1 (len - (2 ^ 64 - 8) - 1)) by lia.
  assert (Hc : len - (2 ^ 64 - 8) - 1 = 0 \/ len - (2 ^ 64 - 8) - 1 = 1 \/ len - (2 ^ 64 - 8) - 1 = 2 \/ len - (2 ^ 64 - 8) - 1 = 3
    \/ len - (2 ^ 64 - 8) - 1 = 4 \/ len - (2 ^ 64 - 8) - 1 = 5 \/ len - (2 ^ 64 - 8) - 1 = 6) by lia.
  repeat destruct Hc as [-> | Hc]; [reflexivity.. | by rewrite Hc].
Qed.

(** C35: In a tracee with words of 8 bytes, a control message whose length is one of the 7
    greatest numbers stops the walk: rounding the length up gives 0, the next header is
    the same one with as many bytes left, and the loop does not end, however many
    rounds it is given. *)
Theorem control_walk_diverges (tcp : dtcb St) (b : list Z) (pos buf_len : Z) (ds : dstate St) :
  current_wordsize = 8 -> Forall byte b -> 0 <= pos -> pos + buf_len = lenZ b -> cmsg_size <= buf_len ->
  2 ^ 64 - 8 < cmsg_len_at b pos ->
  (exists evs ds', control_round tcp b pos buf_len ds = Some (inl (pos, buf_len), evs, ds')) /\
  forall fuel, control_loop fuel tcp b pos buf_len ds = None.
Proof.
  intros Hw Hb Hp Hl Hs Hlen.
  assert (Hstay : after_round b pos buf_len = inl (pos, buf_len)).
  { assert (Hr : cmsg_len_at b pos < 2 ^ 64) by (unfold cmsg_len_at; rewrite Hw; apply (fu_range 8); [done | lia]).
    pose proof cmsg_size_cases. unfold after_round. rewrite cmsg_next_wraps by lia.
    pose proof (lenZ_nonneg b). destruct (Z.ltb_spec (Z.min (cmsg_len_at b pos) buf_len) cmsg_size); [lia|].
    destruct (Z.leb_spec buf_len 0); [lia|]. by rewrite Z.add_0_r, Z.sub_0_r. }
  assert (Hround : forall d, exists evs d', control_round tcp b pos buf_len d = Some (inl (pos, buf_len), evs, d')).
  { intros d. pose proof (control_round_emits tcp b pos buf_len [] [] Hp Hl Hs d) as H.
    destruct (control_round tcp b pos buf_len d) as [[[r evs] d']|]; [|done].
    destruct (steps _ evs); [|done]. destruct H as [_ ->]. rewrite Hstay. by exists evs, d'. }
  split; [apply Hround|]. intros fuel. revert ds. induction fuel as [|fuel IH]; intros d; [done|]. cbn [control_loop].
  rewrite (proj2 (Z.leb_le _ _) Hs). destruct (Hround d) as (evs & d' & E).
  unfold mbind, D_bind. rewrite E. cbn. by rewrite IH.
Qed.
End facts.

(** ** A concrete message *)

(** A header of length 20 for descriptor 3 (SCM_RIGHTS), and padding. *)
Definition demo_control : list Z := [20;0;0;0;0;0;0;0; 1;0;0;0; 1;0;0;0; 3;0;0;0; 0;0;0;0].
(** The same header with the length 2^64 - 1. *)
Definition demo_wrapping : list Z := [255;255;255;255;255;255;255;255; 1;0;0;0; 1;0;0;0; 3;0;0;0; 0;0;0;0].
Definition demo_memory (control : list Z) : leaves () :=
  {| lf_umoven := fun _ n st => (if n =? lenZ control then Some control else None, st);
     lf_printstr_ex := lf_printstr_ex demo_leaves; lf_printpathn := lf_printpathn demo_leaves;
     lf_print_nonzero_bytes := lf_print_nonzero_bytes demo_leaves; lf_printfd := lf_printfd demo_leaves;
     lf_printpid := lf_printpid demo_leaves; lf_other := lf_other demo_leaves |}.
Definition demo_tcp : dtcb () := mk_dtcb () decoding (fun i => i) demo_leaves.
Definition demo_msghdr : msghdr := mk_msghdr 0 0 0 0 8192 24 0.
Definition demo_sendmsg (control : list Z) : option text :=
  '(_, evs, _) ← run_decoder (@sys_sendmsg () demo_globals None (fun _ st => (Some demo_msghdr, st)) (fun _ st => (false, st)))
                   decoding on_exit (fun i => 4096 + i) (demo_memory control) (demo_memory control) demo_state;
  Some (bytes (perform_all evs (mk_style None HYPERLINK_NEVER true))).

Example sendmsg_text : demo_sendmsg demo_control = Some (codes ("sockfd=4096, msg={msg_name=v, msg_namelen=0, msg_iov=NULL, msg_iovlen=0, "
  ++ "msg_control=[{cmsg_len=20, cmsg_level=0x1 /* SOL_??? */, cmsg_type=0x1 /* SCM_??? */, cmsg_data=[3]}], msg_controllen=24, msg_flags=0}, "
  ++ "flags=0x1002 /* MSG_??? */")).
Proof. vm_compute. reflexivity. Qed.
Example sendmsg_hangs : demo_sendmsg demo_wrapping = None.
Proof. vm_compute. reflexivity. Qed.

(** The walk over the copy comes to its start and its end only. *)
Lemma demo_headers p : @header_at demo_globals demo_control p -> p = 0 \/ 24 <= p.
Proof.
  induction 1 as [|p _ [-> | IH]]; [by left | right; vm_compute; congruence |].
  right. assert (0 <= @cmsg_next demo_globals (@cmsg_len_at demo_globals demo_control p)); [|lia].
  apply Z.land_nonneg. left. by apply count_nonneg.
Qed.
Lemma demo_readable : @readable () demo_globals (demo_memory demo_control).
Proof.
  intros addr n st b st'. cbn -[demo_control lenZ]. destruct (Z.eqb_spec n (lenZ demo_control)) as [->|]; [|done].
  intros [= <- <-]. split; [done|]. split; [by repeat constructor|].
  intros p [-> | Hp]%demo_headers Hl; [by vm_compute|]. change (lenZ demo_control) with 24 in Hl. cbn in Hl. lia.
Qed.


Lemma control_walk_diverges_witness :
  (exists evs ds', @control_round () demo_globals demo_tcp demo_wrapping 0 24 demo_state = Some (inl (0, 24), evs, ds')) /\
  forall fuel, @control_loop () demo_globals fuel demo_tcp demo_wrapping 0 24 demo_state = None.
Proof.
  apply (@control_walk_diverges () demo_globals (or_intror eq_refl)); [reflexivity | by repeat constructor | done | done | by vm_compute | done].
Defined.
