(* ===== verification/Dirent.v ===== *)
(** * Directory entries

    src/xgetdents.c, src/dirent.c, src/dirent64.c: getdents, getdents64 and readdir.
    A buffer of directory entries is walked by the length that each entry has; the two
    layouts of entries share the walk, which calls a function for the start of an entry
    and one for its end. *)

From stdpp Require Import strings pretty.
From S2P Require Import Prelude Wait Tcb Tracee Syscall Util Xlat Filters Quote UCopy PrintStr PrintArray Style Nlattr Decode Decoders.
Local Open Scope string_scope.
Local Open Scope Z_scope.

Abbreviation fu := Decode.fu.

(** What the walk asks of a layout: the size up to the name, the start of an entry with
    the length of its record, the end of an entry given what is left of the record. *)
Record dentry_layout (St : Type) := mk_layout {
  header_size : Z;
  decode_dentry_head : dtcb St -> list Z -> D St Z;
  decode_dentry_tail : dtcb St -> Z -> list Z -> Z -> D St Z }.
Arguments mk_layout {St} _ _ _.
Arguments header_size {St} _.
Arguments decode_dentry_head {St} _.
Arguments decode_dentry_tail {St} _.

Section dirent.
Context {St : Type} {G : Globals}.

(** ** The walk *)

Section walk.
Variable layout : dentry_layout St.
Variable tcp : dtcb St.

Definition overflow_comment (n : Z) (what : string) : D St () :=
  tprints_comment (Some (codes ((if abbrev tcp then "d_reclen " else EmptyString) +:+ pretty n +:+ what))).

(** The length of the record within the buffer, the next address (0: none), what is left. *)
Definition record_bounds (addr len d_reclen : Z) : D St (Z * Z * Z) :=
  if len <? d_reclen then overflow_comment (d_reclen - len) " bytes overflow" ;; mret (len, 0, 0)
  else if d_reclen <? header_size layout then
    overflow_comment (header_size layout - d_reclen) " bytes underflow" ;; mret (header_size layout, 0, len - header_size layout)
  else
    let next_len := len - d_reclen in
    if next_len =? 0 then mret (d_reclen, 0, next_len)
    else if addr <? uint 64 (addr + d_reclen) then mret (d_reclen, uint 64 (addr + d_reclen), next_len)
    else tprints_comment (Some (codes "address overflow")) ;; mret (d_reclen, 0, next_len).

(** The loop, at most [fuel] rounds: the number of entries, what is left. *)
Fixpoint dents_loop (fuel : nat) (addr len count : Z) : D St (Z * Z) :=
  match fuel with
  | O => fun _ => None
  | S fuel =>
      if len <? header_size layout then
        if negb (abbrev tcp) then
          if len =? 0 then tprint_array_begin ;; mret (uint 32 (count + 1), len)
          else printstr_ex tcp addr len QUOTE_FORCE_HEX ;; mret (count, len)
        else mret (count, len)
      else
        dent ← tfetch_mem tcp addr (header_size layout);
        match dent with
        | None =>
            (if negb (abbrev tcp) then
               if negb (count =? 0) then tprint_more_data_follows ;; printaddr_comment addr else printaddr addr
             else nothing) ;;
            mret (count, len)
        | Some dent =>
            (if negb (abbrev tcp) then (if count =? 0 then tprint_array_begin else nothing) else nothing) ;;
            d_reclen ← decode_dentry_head layout tcp dent;
            '(d_reclen, next_addr, next_len) ← record_bounds addr len d_reclen;
            stop ← (if negb (abbrev tcp) then
                      rc ← decode_dentry_tail layout tcp (uint 64 (addr + header_size layout)) dent (d_reclen - header_size layout);
                      if negb (next_addr =? 0) then
                        tprint_array_next ;;
                        if rc <? 0 then tprint_more_data_follows ;; mret true else mret false
                      else mret false
                    else mret false);
            if stop || (next_addr =? 0) then mret (uint 32 (count + 1), next_len)
            else dents_loop fuel next_addr next_len (uint 32 (count + 1))
        end
  end.

Definition decode_dents (addr len : Z) : D St () :=
  (if abbrev tcp then printaddr addr else nothing) ;;
  '(count, len) ← dents_loop (S (Z.to_nat len)) addr len 0;
  if negb (abbrev tcp) then (if negb (count =? 0) then tprint_array_end else nothing)
  else tprints_comment (Some (codes (pretty count +:+ (if negb (len =? 0) then "+" else EmptyString) +:+ " entries"))).
End walk.

Definition xgetdents (layout : dentry_layout St) (tcp : dtcb St) : D St Z :=
  if entering tcp then
    tprints_arg_name "fd" ;;
    printfd tcp (u_arg tcp 0) ;;
    mret 0
  else
    let count := uint 32 (u_arg tcp 2) in
    tprints_arg_next_name "dirp" ;;
    (if syserror tcp || negb (verbose tcp) || (count <? uint 64 (u_rval tcp)) then printaddr (u_arg tcp 1)
     else decode_dents layout tcp (u_arg tcp 1) (uint 32 (u_rval tcp))) ;;
    tprints_arg_next_name "count" ;;
    PRINT_VAL_U count ;;
    mret 0.

(** ** The layouts *)

Definition D_NAME_LEN_MAX : Z := 256.

(** The members d_ino, d_off and d_reclen are the same in both. *)
Definition print_dentry_head (dent : list Z) : D St () :=
  tprint_struct_begin ;;
  PRINT_FIELD_U "d_ino" (fu 8 0 dent) ;;
  tprint_struct_next ;;
  PRINT_FIELD_U "d_off" (fu 8 8 dent) ;;
  tprint_struct_next ;;
  PRINT_FIELD_U "d_reclen" (fu 2 16 dent).
Definition dentry_head (tcp : dtcb St) (dent : list Z) : D St Z :=
  (if negb (abbrev tcp) then print_dentry_head dent else nothing) ;;
  mret (fu 2 16 dent).

(** kernel_dirent_t: the type is the last byte of the record. *)
Definition dentry_tail (tcp : dtcb St) (addr : Z) (dent : list Z) (d_name_type_len : Z) : D St Z :=
  rc ← (if negb (d_name_type_len =? 0) then
          let d_name_len := d_name_type_len - 1 in
          rc ← (if negb (d_name_len =? 0) then
                  let d_name_len := if D_NAME_LEN_MAX <? d_name_len then D_NAME_LEN_MAX else d_name_len in
                  tprint_struct_next ;;
                  tprints_field_name "d_name" ;;
                  printpathn tcp addr d_name_len
                else mret 0);
          tprint_struct_next ;;
          tprints_field_name "d_type" ;;
          let d_type_addr := uint 64 (addr + (d_name_type_len - 1)) in
          d_type ← umoven_or_printaddr tcp d_type_addr 1;
          match d_type with
          | None => mret (-1)
          | Some d_type => printxval (xlat_of "dirent_types") (fu 1 0 d_type) (Some "DT_???") ;; mret rc
          end
        else mret 0);
  tprint_struct_end ;;
  mret rc.
Definition dirent : dentry_layout St := mk_layout 18 dentry_head dentry_tail.
Definition sys_getdents (tcp : dtcb St) : D St Z := xgetdents dirent tcp.

(** kernel_dirent64_t: the type is before the name. *)
Definition dentry64_tail (tcp : dtcb St) (addr : Z) (dent : list Z) (d_name_len : Z) : D St Z :=
  tprint_struct_next ;;
  PRINT_FIELD_XVAL "d_type" (fu 1 18 dent) (xlat_of "dirent_types") (Some "DT_???") ;;
  rc ← (if negb (d_name_len =? 0) then
          let d_name_len := if D_NAME_LEN_MAX <? d_name_len then D_NAME_LEN_MAX else d_name_len in
          tprint_struct_next ;;
          tprints_field_name "d_name" ;;
          printpathn tcp addr d_name_len
        else mret 0);
  tprint_struct_end ;;
  mret rc.
Definition dirent64 : dentry_layout St := mk_layout 19 dentry_head dentry64_tail.
Definition sys_getdents64 (tcp : dtcb St) : D St Z := xgetdents dirent64 tcp.

(** readdir: one entry, of the first layout. *)
Definition print_old_dirent (tcp : dtcb St) (addr : Z) : D St () :=
  dent ← umoven_or_printaddr tcp addr 24;
  match dent with
  | None => nothing
  | Some dent =>
      print_dentry_head dent ;;
      tprint_struct_next ;;
      tprints_field_name "d_name" ;;
      printpathn tcp (uint 64 (addr + 18)) (Z.min (fu 2 16 dent) D_NAME_LEN_MAX + 1) ;;
      tprint_struct_end
  end.
Definition sys_readdir (tcp : dtcb St) : D St Z :=
  (if entering tcp then
     tprints_arg_name "fd" ;;
     printfd tcp (u_arg tcp 0)
   else
     tprints_arg_next_name "dirp" ;;
     (if u_rval tcp =? 0 then printaddr (u_arg tcp 1) else print_old_dirent tcp (u_arg tcp 1)) ;;
     let count := uint 32 (u_arg tcp 2) in
     if negb (count =? 1) then tprints_arg_next_name "count" ;; PRINT_VAL_U count else nothing) ;;
  mret 0.
End dirent.
#[export] Typeclasses Opaque overflow_comment record_bounds decode_dents print_dentry_head dentry_head dentry_tail dentry64_tail print_old_dirent.

(** ** The walk ends and prints by the grammar *)

Section grammar.
Context {St : Type} {G : Globals}.

(** A layout opens a structure with its head and closes it with its tail. *)
Class LayoutOk (layout : dentry_layout St) : Prop := {
  header_pos : 0 < header_size layout;
  head_opens : forall (tcp : dtcb St) dent s Q, abbrev tcp = false ->
    (forall n, Q n (mk_o ((BStruct, SValue) :: frames s) (names s))) -> emits (decode_dentry_head layout tcp dent) s Q;
  head_silent : forall (tcp : dtcb St) dent, abbrev tcp = true -> Silent (decode_dentry_head layout tcp dent);
  tail_closes : forall (tcp : dtcb St) addr dent n f ns Q, (forall rc, Q rc (valued (mk_o f ns))) ->
    emits (decode_dentry_tail layout tcp addr dent n) (mk_o ((BStruct, SValue) :: f) ns) Q }.

#[local] Instance overflow_comment_silent (tcp : dtcb St) n what : Silent (overflow_comment tcp n what).
Proof. apply comment_silent. Qed.

Section walk.
Variables (layout : dentry_layout St) (tcp : dtcb St).
Context {Hok : LayoutOk layout}.

(** The next record is inside of what is left, and smaller. *)
Lemma record_bounds_emits addr len n s (Q : Z * Z * Z -> ostate -> Prop) :
  header_size layout <= len ->
  (forall reclen next_addr next_len, header_size layout <= reclen <= len -> (next_addr <> 0 -> 0 < next_len < len) -> 0 <= next_len < len ->
     Q (reclen, next_addr, next_len) s) ->
  emits (record_bounds layout tcp addr len n) s Q.
Proof.
  intros Hlen H. pose proof (header_pos (layout := layout)). unfold record_bounds.
  destruct (Z.ltb_spec len n); [|destruct (Z.ltb_spec n (header_size layout)); [|destruct (Z.eqb_spec (len - n) 0); [|destruct (addr <? _)]]];
    wf; apply H; lia.
Qed.

(** What is open after the loop, by the number of entries. *)
Definition after_dents (s : ostate) (r : Z * Z) (s' : ostate) : Prop :=
  if r.1 =? 0 then s' = valued s
  else exists q, (q = SEmpty \/ q = SValue) /\ s' = mk_o ((BArray, q) :: frames s) (names s).

Lemma dents_loop_emits fuel addr len count s :
  abbrev tcp = false -> 0 <= len < Z.of_nat fuel -> 0 <= count -> count + len < 2 ^ 32 -> (count <> 0 -> len <> 0) ->
  emits (dents_loop layout tcp fuel addr len count)
    (if count =? 0 then s else mk_o ((BArray, SSep) :: frames s) (names s)) (after_dents s).
Proof.
  intros Ha. pose proof (header_pos (layout := layout)) as Hh. revert addr len count; induction fuel as [|fuel IH]; intros addr len count Hf Hc Hb Hn; [lia|].
  cbn [dents_loop]. rewrite Ha. cbn [negb]. unfold after_dents.
  assert (E1 : len <> 0 -> uint 32 (count + 1) = count + 1) by (intros; apply uint_small; unfold in_uint; lia).
  destruct (Z.ltb_spec len (header_size layout)) as [Hs|Hs].
  { destruct (Z.eqb_spec len 0) as [->|]; [assert (count = 0) as -> by lia; wf; exists SEmpty; auto|].
    destruct (Z.eqb_spec count 0) as [->|Hc0]; [wf; done|]. wf. cbn [fst]. rewrite (proj2 (Z.eqb_neq count 0)) by done. eauto. }
  apply emits_bind, silent. intros [dent|].
  2: { destruct (Z.eqb_spec count 0) as [->|Hc0]; cbn [negb]; [wf; done|].
       wf. cbn [fst]. rewrite (proj2 (Z.eqb_neq count 0)) by done. eauto. }
  apply emits_bind. apply emits_mono with (Q := fun _ s' => exists q, s' = mk_o ((BArray, q) :: frames s) (names s)).
  { destruct (count =? 0); wf; eauto. }
  intros _ s' [q ->]. apply emits_bind, head_opens; [done|]. intros n.
  apply emits_bind, record_bounds_emits; [done|]. intros reclen next_addr next_len Hr Hnext Hle.
  rewrite E1 by lia. apply emits_bind, emits_bind, tail_closes. intros rc. cbn [valued frames].
  assert (Hend : (count + 1 =? 0) = false) by (apply Z.eqb_neq; lia).
  destruct (Z.eqb_spec next_addr 0) as [->|Hna]; cbn [negb].
  { wf. cbn [fst]. rewrite Hend. eauto. }
  apply emits_bind, emits_emit. cbn [step separates frames bracket_eqb names]. destruct (rc <? 0).
  { wf. cbn [fst]. rewrite Hend. eauto. }
  apply emits_ret. cbn [orb]. specialize (IH next_addr next_len (count + 1)). rewrite Hend in IH. apply IH; lia.
Qed.

(** In the abbreviated form only comments are printed. *)
Lemma dents_loop_silent fuel addr len count : abbrev tcp = true -> 0 <= len < Z.of_nat fuel ->
  Silent (dents_loop layout tcp fuel addr len count).
Proof.
  intros Ha. pose proof (header_pos (layout := layout)) as Hh. revert addr len count; induction fuel as [|fuel IH]; intros addr len count Hf; [lia|].
  intros s Q H. cbn [dents_loop]. rewrite Ha. cbn [negb].
  destruct (Z.ltb_spec len (header_size layout)) as [Hs|Hs]; [apply emits_ret, H|].
  apply emits_bind, silent. intros [dent|]; [|wf; apply H].
  apply emits_bind, emits_ret, emits_bind. apply head_silent; [done|]. intros n.
  apply emits_bind, record_bounds_emits; [done|]. intros reclen next_addr next_len Hr Hnext Hle. apply emits_bind, emits_ret. cbn [orb].
  destruct (Z.eqb_spec next_addr 0) as [->|Hna]; [apply emits_ret, H | apply IH; [lia | exact H]].
Qed.

Lemma decode_dents_value addr len : 0 <= len < 2 ^ 32 -> IsValue (decode_dents layout tcp addr len).
Proof.
  intros Hl s Q H. unfold decode_dents. destruct (abbrev tcp) eqn:Ha; cbn [negb].
  - apply emits_bind, printaddr_value. intros []. apply emits_bind, dents_loop_silent; [done | lia|]. intros [c l]. apply comment_silent, H.
  - apply emits_bind, emits_ret, emits_bind. eapply emits_mono.
    + apply (dents_loop_emits _ addr len 0 s); [done | lia..].
    + intros [c l] s'. unfold after_dents. cbn [fst]. destruct (c =? 0); cbn [negb].
      * intros ->. apply emits_ret, H.
      * intros (q & Hq & ->). apply emits_emit. destruct Hq as [-> | ->]; cbn; rewrite o_eta; apply H.
Qed.
End walk.

Lemma dentry_head_opens (tcp : dtcb St) dent s (Q : Z -> ostate -> Prop) : abbrev tcp = false ->
  (forall n, Q n (mk_o ((BStruct, SValue) :: frames s) (names s))) -> emits (dentry_head tcp dent) s Q.
Proof. intros Ha H. unfold dentry_head. rewrite Ha. cbn [negb]. wf. apply H. Qed.
Lemma dentry_head_silent (tcp : dtcb St) dent : abbrev tcp = true -> Silent (dentry_head tcp dent).
Proof. intros Ha. unfold dentry_head. rewrite Ha. cbn [negb]. apply _. Qed.

#[export] Instance dirent_ok : LayoutOk dirent.
Proof.
  split; cbn [dirent header_size decode_dentry_head decode_dentry_tail]; [done | apply dentry_head_opens | apply dentry_head_silent|].
  intros tcp addr dent n f ns Q H. unfold dentry_tail. cbv zeta. wf; apply H.
Qed.
#[export] Instance dirent64_ok : LayoutOk dirent64.
Proof.
  split; cbn [dirent64 header_size decode_dentry_head decode_dentry_tail]; [done | apply dentry_head_opens | apply dentry_head_silent|].
  intros tcp addr dent n f ns Q H. unfold dentry64_tail. cbv zeta. wf; apply H.
Qed.

Lemma xgetdents_wf layout `{!LayoutOk layout} : well_formed (xgetdents layout) [["fd"; "dirp"; "count"]].
Proof.
  intros t1 t2 args l1 l2 H1 H2. unfold run_decoder, no_args, xgetdents. cbn [tcb_of]. rewrite H1, H2. cbv zeta.
  repeat lazymatch goal with
         | |- emits (decode_dents _ _ _ _) _ _ => apply decode_dents_value; [apply _ | by apply (uint_range 32) | intros ?]; norm_state
         | _ => wf_step
         end.
  all: split; [reflexivity | listed].
Qed.
Lemma sys_readdir_wf : well_formed (St := St) sys_readdir [["fd"; "dirp"; "count"]; ["fd"; "dirp"]].
Proof. prove_wf. Qed.

Lemma sys_getdents_wf : well_formed (St := St) sys_getdents [["fd"; "dirp"; "count"]].
Proof. exact (xgetdents_wf dirent). Qed.
Lemma sys_getdents64_wf : well_formed (St := St) sys_getdents64 [["fd"; "dirp"; "count"]].
Proof. exact (xgetdents_wf dirent64). Qed.

(** The decoders of directory entries. *)
Definition dirent_decoders : list (decoder St) :=
  [mk_decoder "getdents" sys_getdents [["fd"; "dirp"; "count"]]; mk_decoder "getdents64" sys_getdents64 [["fd"; "dirp"; "count"]];
   mk_decoder "readdir" sys_readdir [["fd"; "dirp"; "count"]; ["fd"; "dirp"]]].

(** C37: The decoders of getdents, getdents64 and readdir end and print by the grammar,
    whatever the buffer holds: records may claim to be shorter than an entry or longer
    than the buffer, the memory may become unreadable at any entry, and the address may
    wrap around.  The names of the arguments are those of the syscall. *)
Theorem getdents_print_by_the_grammar (d : decoder St) (t1 t2 : tcb) (args : Z -> Z) (l1 l2 : leaves St) (ds : dstate St) :
  In d dirent_decoders -> entering t1 = true -> entering t2 = false ->
  exists rv evs ds' s,
    run_decoder (dec_func d) t1 t2 args l1 l2 ds = Some (rv, evs, ds') /\
    steps no_args evs = Some s /\ complete s = true /\ In (names s) (dec_args d).
Proof.
  intros Hd H1 H2. assert (Hw : wf_decoder d).
  { destruct Hd as [<- | [<- | [<- | []]]]; [exact sys_getdents_wf | exact sys_getdents64_wf | exact sys_readdir_wf]. }
  specialize (Hw t1 t2 args l1 l2 H1 H2 ds).
  destruct (run_decoder _ _ _ _ _ _ ds) as [[[rv evs] ds']|]; [|done].
  destruct (steps no_args evs) as [s|] eqn:E; [|done]. destruct Hw. exists rv, evs, ds', s. by split_and!.
Qed.
End grammar.

(** ** The entries of a buffer are shown *)

Local Open Scope list_scope.

(** [b] is in the memory at [addr]. *)
Definition holds {St} (l : leaves St) (addr : Z) (b : list Z) : Prop :=
  forall o n st, 0 <= o -> 0 <= n -> o + n <= lenZ b -> lf_umoven l (addr + o) n st = (Some (Decode.bytes_at n o b), st).

Lemma holds_app {St} (l : leaves St) addr a b : holds l addr (a ++ b) -> holds l addr a /\ holds l (addr + lenZ a) b.
Proof.
  intros H. split; intros o n st Ho Hn Hl.
  - rewrite H by (rewrite ?lenZ_app; pose proof (lenZ_nonneg b); lia). unfold Decode.bytes_at. do 2 f_equal.
    unfold lenZ in Hl. rewrite drop_app_le, take_app_le by (rewrite ?length_drop; lia). done.
  - pose proof (lenZ_nonneg a). rewrite <- Z.add_assoc, H by (rewrite ?lenZ_app; lia). unfold Decode.bytes_at, lenZ. do 2 f_equal.
    rewrite drop_app_ge by lia. do 2 f_equal. lia.
Qed.

(** A run after [e] was printed. *)
Definition after {St A} (e : list call) (r : option (A * list call * dstate St)) : option (A * list call * dstate St) :=
  match r with Some (a, e', d) => Some (a, e ++ e', d) | None => None end.

Lemma after_nil {St A} (r : option (A * list call * dstate St)) : after [] r = r.
Proof. by destruct r as [[[a e] d]|]. Qed.
Lemma after_after {St A} e e' (r : option (A * list call * dstate St)) : after e (after e' r) = after (e ++ e') r.
Proof. destruct r as [[[a e''] d]|]; [|done]. cbn. by rewrite app_assoc. Qed.
Lemma after_bind {St A B} (m : D St A) (f : A -> D St B) d a e d' : m d = Some (a, e, d') -> (m ≫= f) d = after e (f a d').
Proof. intros H. unfold mbind, D_bind. by rewrite H. Qed.
Lemma after_emit {St B} c (f : () -> D St B) d : (emit c ≫= f) d = after [c] (f () d).
Proof. by apply after_bind. Qed.
Lemma after_ret {St A B} (a : A) (f : A -> D St B) d : (mret a ≫= f) d = f a d.
Proof. rewrite (after_bind _ _ _ a [] d); [apply after_nil | done]. Qed.

Section shows.
Context {St : Type} {G : Globals}.

(** An entry; the name with what follows it in the record. *)
Record entry := mk_entry { e_ino : Z; e_off : Z; e_type : Z; e_name : list Z }.

(** How entries of a layout are laid out, and the calls that show the one at an address. *)
Record format := mk_format {
  f_encode : entry -> list Z;
  f_head : entry -> list call;
  f_tail : Z -> entry -> list call }.

Section walk.
Variables (layout : dentry_layout St) (tcp : dtcb St) (F : format) (ok : entry -> Prop).
Abbreviation size e := (lenZ (f_encode F e)).

Class Shows : Prop := {
  size_fits : forall e, ok e -> 0 < header_size layout <= size e;
  head_shows : forall e d, ok e ->
    decode_dentry_head layout tcp (Decode.bytes_at (header_size layout) 0 (f_encode F e)) d = Some (size e, f_head F e, d);
  tail_shows : forall e a d, ok e -> 0 < a -> a + size e < 2 ^ 64 -> holds (leaf tcp) a (f_encode F e) ->
    exists rc, 0 <= rc /\
      decode_dentry_tail layout tcp (a + header_size layout) (Decode.bytes_at (header_size layout) 0 (f_encode F e)) (size e - header_size layout) d
      = Some (rc, f_tail F a e, d) }.

(** The entries in a row, separated. *)
Fixpoint entries_calls (addr : Z) (es : list entry) : list call :=
  match es with
  | [] => []
  | [e] => f_head F e ++ f_tail F addr e
  | e :: es => f_head F e ++ f_tail F addr e ++ [call_tprint_array_next] ++ entries_calls (addr + size e) es
  end.
Definition buffer (es : list entry) : list Z := concat (map (f_encode F) es).

Context `{!Shows}.
Hypothesis looking : abbrev tcp = false /\ verbose tcp = true /\ entering tcp = false /\ syserror tcp = false.

Lemma fetch_holds addr n b d : 0 < addr -> 0 <= n <= lenZ b -> holds (leaf tcp) addr b ->
  tfetch_mem tcp addr n d = Some (Some (Decode.bytes_at n 0 b), [], d).
Proof.
  intros Ha Hn Hb. destruct looking as (_ & Hv & He & Hs). unfold tfetch_mem. rewrite (proj2 (Z.eqb_neq addr 0)), Hv, He, Hs by lia. cbn [negb andb orb].
  unfold umoven, lift. pose proof (Hb 0 n (d_st d)) as Hr. rewrite Z.add_0_r in Hr. rewrite Hr by lia. by destruct d.
Qed.

(** One round, for an entry with [rest] after it. *)
Lemma dents_loop_entry fuel addr e rest count d :
  ok e -> 0 < addr -> addr + size e + lenZ rest < 2 ^ 64 -> 0 <= count < 2 ^ 32 - 1 -> holds (leaf tcp) addr (f_encode F e ++ rest) ->
  dents_loop layout tcp (S fuel) addr (size e + lenZ rest) count d =
    after ((if count =? 0 then [call_tprint_array_begin] else []) ++ f_head F e ++ f_tail F addr e)
      (if lenZ rest =? 0 then Some ((count + 1, 0), [], d)
       else after [call_tprint_array_next] (dents_loop layout tcp fuel (addr + size e) (lenZ rest) (count + 1) d)).
Proof.
  intros He Ha Hb Hc Hm. destruct (size_fits e He) as [Hh0 Hh]. pose proof (lenZ_nonneg rest) as Hr. pose proof (lenZ_nonneg (f_encode F e)).
  destruct looking as (Hab & _). cbn [dents_loop]. rewrite Hab. cbn [negb].
  rewrite (proj2 (Z.ltb_ge _ _)) by lia.
  rewrite (after_bind _ _ _ _ _ _ (fetch_holds addr (header_size layout) (f_encode F e ++ rest) d Ha ltac:(rewrite lenZ_app; lia) Hm)), after_nil.
  assert (Hd : Decode.bytes_at (header_size layout) 0 (f_encode F e ++ rest) = Decode.bytes_at (header_size layout) 0 (f_encode F e)).
  { unfold Decode.bytes_at. rewrite !drop_0, take_app_le; [done|]. unfold lenZ in Hh. lia. }
  rewrite Hd. rewrite (after_bind _ _ _ () (if count =? 0 then [call_tprint_array_begin] else []) d) by (by destruct (count =? 0)).
  rewrite (after_bind _ _ _ _ _ _ (head_shows e d He)).
  rewrite (after_bind _ _ _ (size e, if lenZ rest =? 0 then 0 else addr + size e, lenZ rest) [] d).
  2: { unfold record_bounds. rewrite (proj2 (Z.ltb_ge _ _)), (proj2 (Z.ltb_ge _ _)) by lia. cbv zeta.
       replace (size e + lenZ rest - size e) with (lenZ rest) by lia. rewrite uint_small by (unfold in_uint; lia).
       destruct (lenZ rest =? 0); [done|]. by rewrite (proj2 (Z.ltb_lt _ _)) by lia. }
  rewrite after_nil, (uint_small 64), (uint_small 32) by (unfold in_uint; lia).
  destruct (tail_shows e addr d He Ha ltac:(lia) (proj1 (holds_app _ _ _ _ Hm))) as (rc & Hrc & Ht).
  destruct (Z.eqb_spec (lenZ rest) 0) as [E|E].
  - rewrite (after_bind _ _ _ false (f_tail F addr e) d).
    2: { rewrite (after_bind _ _ _ _ _ _ Ht). cbn. by rewrite app_nil_r. }
    rewrite !after_after, <- app_assoc, E. done.
  - rewrite (proj2 (Z.eqb_neq (addr + size e) 0)) by lia.
    rewrite (after_bind _ _ _ false (f_tail F addr e ++ [call_tprint_array_next]) d).
    2: { rewrite (after_bind _ _ _ _ _ _ Ht). cbn [negb]. unfold tprint_array_next. rewrite after_emit. by rewrite (proj2 (Z.ltb_ge rc 0)) by lia. }
    cbn [orb]. rewrite !after_after. by rewrite <- !app_assoc.
Qed.

Lemma dents_loop_shows es fuel addr count d :
  Forall ok es -> es <> [] -> 0 < addr -> addr + lenZ (buffer es) < 2 ^ 64 -> lenZ (buffer es) < Z.of_nat fuel ->
  0 <= count -> count + lenZ (buffer es) < 2 ^ 32 -> holds (leaf tcp) addr (buffer es) ->
  dents_loop layout tcp fuel addr (lenZ (buffer es)) count d =
    Some ((count + lenZ es, 0), (if count =? 0 then [call_tprint_array_begin] else []) ++ entries_calls addr es, d).
Proof.
  intros Hok. revert fuel addr count. induction Hok as [|e es He Hes IH]; intros fuel addr count Hne Ha Hb Hf Hc Hcb Hm; [done|].
  destruct (size_fits e He) as [Hh0 Hh]. unfold buffer in *. cbn [map concat] in *. rewrite lenZ_app in *.
  pose proof (lenZ_nonneg (concat (map (f_encode F) es))).
  destruct fuel as [|fuel]; [lia|]. rewrite dents_loop_entry by (done || lia).
  destruct es as [|e' es].
  - change (lenZ (concat (map (f_encode F) [])) =? 0) with true. cbv iota. unfold after. by rewrite app_nil_r.
  - set (es' := e' :: es) in *.
    assert (Hpos : 0 < lenZ (concat (map (f_encode F) es'))).
    { inversion Hes as [|? ? He' _]; subst. destruct (size_fits e' He'). cbn. rewrite lenZ_app.
      pose proof (lenZ_nonneg (concat (map (f_encode F) es))). lia. }
    rewrite (proj2 (Z.eqb_neq (lenZ (concat (map (f_encode F) es'))) 0)) by lia. apply holds_app in Hm as [_ Hm].
    rewrite IH by (done || lia). rewrite (proj2 (Z.eqb_neq (count + 1) 0)) by lia. cbn [after app].
    change (entries_calls addr (e :: es')) with (f_head F e ++ f_tail F addr e ++ [call_tprint_array_next] ++ entries_calls (addr + size e) es').
    rewrite lenZ_cons, <- !app_assoc. replace (count + 1 + lenZ es') with (count + (1 + lenZ es')) by lia. done.
Qed.

(** The whole buffer. *)
Lemma decode_dents_shows es addr d :
  Forall ok es -> 0 < addr -> addr + lenZ (buffer es) < 2 ^ 64 -> lenZ (buffer es) < 2 ^ 32 -> holds (leaf tcp) addr (buffer es) ->
  0 < header_size layout ->
  decode_dents layout tcp addr (lenZ (buffer es)) d =
    Some ((), [call_tprint_array_begin] ++ entries_calls addr es ++ [call_tprint_array_end], d).
Proof.
  intros Hok Ha Hb Hl Hm Hh. pose proof (lenZ_nonneg (buffer es)). unfold decode_dents. destruct looking as (Hab & _). rewrite Hab. cbn [negb].
  unfold nothing. rewrite after_ret. destruct es as [|e es].
  - change (lenZ (buffer [])) with 0. rewrite (after_bind _ _ _ (1, 0) [call_tprint_array_begin] d); [done|].
    cbn. rewrite Hab. by rewrite (proj2 (Z.ltb_lt 0 _) Hh).
  - rewrite (after_bind _ _ _ _ _ _ (dents_loop_shows (e :: es) (S (Z.to_nat (lenZ (buffer (e :: es))))) addr 0 d Hok ltac:(done) Ha Hb ltac:(lia) ltac:(lia) ltac:(lia) Hm)).
    change (0 =? 0) with true. cbv iota beta. rewrite (proj2 (Z.eqb_neq (0 + lenZ (e :: es)) 0)) by (rewrite lenZ_cons; pose proof (lenZ_nonneg es); lia). cbn [negb].
    unfold tprint_array_end, emit, after. by rewrite <- app_assoc.
Qed.
End walk.

(** *** The two layouts *)

Definition text_call (s : string) : call := call_tprints_string (codes s).
Definition reclen_of (e : entry) : Z := 19 + lenZ (e_name e).
Definition entry_ok (e : entry) : Prop :=
  in_uint 64 (e_ino e) /\ in_uint 64 (e_off e) /\ in_uint 8 (e_type e) /\ in_uint 16 (reclen_of e).
Definition encode_head (e : entry) : list Z :=
  word_bytes is_bigendian 8 (e_ino e) ++ word_bytes is_bigendian 8 (e_off e) ++ word_bytes is_bigendian 2 (reclen_of e).
Definition head_calls (e : entry) : list call :=
  [call_tprint_struct_begin; call_tprints_field_name "d_ino"; text_call (pretty (e_ino e));
   call_tprint_struct_next; call_tprints_field_name "d_off"; text_call (pretty (e_off e));
   call_tprint_struct_next; call_tprints_field_name "d_reclen"; text_call (pretty (reclen_of e))].
Definition type_calls (e : entry) : list call :=
  [call_tprint_struct_next; call_tprints_field_name "d_type";
   text_call (fst (Xlat.printxvals_ex xlat_verbosity (e_type e) (Some "DT_???") XLAT_STYLE_DEFAULT [xlat_of "dirent_types"]))].
(** The name, of at most 256 bytes, if there is one; [path] is the text of a path. *)
Definition name_calls (path : Z -> Z -> text) (addr : Z) (e : entry) : list call :=
  if lenZ (e_name e) =? 0 then []
  else [call_tprint_struct_next; call_tprints_field_name "d_name"; call_tprints_string (path addr (Z.min (lenZ (e_name e)) D_NAME_LEN_MAX))].

Definition format64 (path : Z -> Z -> text) : format :=
  mk_format (fun e => encode_head e ++ [e_type e] ++ e_name e) head_calls
    (fun addr e => type_calls e ++ name_calls path (addr + 19) e ++ [call_tprint_struct_end]).
Definition format32 (path : Z -> Z -> text) : format :=
  mk_format (fun e => encode_head e ++ e_name e ++ [e_type e]) head_calls
    (fun addr e => name_calls path (addr + 18) e ++ type_calls e ++ [call_tprint_struct_end]).

Lemma fu_field n off hdr pre v post :
  lenZ pre = off -> off + Z.of_nat n <= hdr -> 0 <= v < 256 ^ Z.of_nat n ->
  fu (Z.of_nat n) off (Decode.bytes_at hdr 0 (pre ++ word_bytes is_bigendian n v ++ post)) = v.
Proof.
  intros Hp Hh Hv. unfold Decode.fu, Decode.bytes_at. rewrite drop_0, <- Hp. unfold lenZ in *.
  rewrite !Nat2Z.id, skipn_firstn_comm, drop_app_length, take_take, take_app_le by (rewrite word_bytes_length; lia).
  rewrite take_ge by (rewrite word_bytes_length; lia). by apply word_value_bytes.
Qed.
Lemma lenZ_word_bytes be n v : lenZ (word_bytes be n v) = Z.of_nat n.
Proof. unfold lenZ. by rewrite word_bytes_length. Qed.

Section layouts.
Variables (tcp : dtcb St) (path : Z -> Z -> text).
Hypothesis looking : abbrev tcp = false /\ verbose tcp = true /\ entering tcp = false /\ syserror tcp = false.
Hypothesis paths : forall a n st, exists rc, 0 <= rc /\ lf_printpathn (leaf tcp) a n st = (path a n, rc, st).

Lemma dentry_head_shows hdr e rest d : entry_ok e -> 18 <= hdr ->
  dentry_head tcp (Decode.bytes_at hdr 0 (encode_head e ++ rest)) d = Some (reclen_of e, head_calls e, d).
Proof.
  intros (Hi & Ho & _ & Hr) Hh. set (b := Decode.bytes_at _ _ _).
  assert (H1 : fu 8 0 b = e_ino e).
  { subst b. unfold encode_head. rewrite <- !app_assoc. by apply (fu_field 8 0 hdr []); [|lia|]. }
  assert (H2 : fu 8 8 b = e_off e).
  { subst b. unfold encode_head. rewrite <- !app_assoc. apply (fu_field 8 8 hdr); [by rewrite lenZ_word_bytes | lia | done]. }
  assert (H3 : fu 2 16 b = reclen_of e).
  { subst b. unfold encode_head. rewrite <- (app_assoc _ _ rest), <- (app_assoc _ _ rest), app_assoc.
    apply (fu_field 2 16 hdr); [by rewrite lenZ_app, !lenZ_word_bytes | lia | done]. }
  unfold dentry_head, print_dentry_head. destruct looking as [-> _]. rewrite H1, H2, H3. reflexivity.
Qed.

Lemma printpathn_shows a n d : in_uint 32 n -> exists rc, 0 <= rc /\ printpathn tcp a n d = Some (rc, [call_tprints_string (path a n)], d).
Proof.
  intros Hn. unfold printpathn. rewrite uint_small by done. destruct (paths a n (d_st d)) as (rc & Hrc & E). exists rc. split; [done|].
  rewrite (after_bind _ _ d (path a n, rc) [] d); [done|]. unfold lift. rewrite E. by destruct d.
Qed.

(** The name, printed as both tails do. *)
Lemma name_shows a n d (e : entry) : n = lenZ (e_name e) -> in_uint 16 (reclen_of e) ->
  exists rc, 0 <= rc /\
    (if negb (n =? 0) then
       tprint_struct_next ;; tprints_field_name "d_name" ;; printpathn tcp a (if D_NAME_LEN_MAX <? n then D_NAME_LEN_MAX else n)
     else mret 0) d = Some (rc, name_calls path a e, d).
Proof.
  intros -> Hr. unfold name_calls. pose proof (lenZ_nonneg (e_name e)). destruct (lenZ (e_name e) =? 0); cbn [negb]; [by exists 0|].
  replace (if D_NAME_LEN_MAX <? lenZ (e_name e) then D_NAME_LEN_MAX else lenZ (e_name e)) with (Z.min (lenZ (e_name e)) D_NAME_LEN_MAX)
    by (destruct (Z.ltb_spec D_NAME_LEN_MAX (lenZ (e_name e))); lia).
  destruct (printpathn_shows a (Z.min (lenZ (e_name e)) D_NAME_LEN_MAX) d) as (rc & Hrc & E); [unfold in_uint, D_NAME_LEN_MAX; lia|].
  exists rc. split; [done|]. unfold tprint_struct_next, tprints_field_name. rewrite after_emit, after_emit, E. done.
Qed.

Lemma byte_word v : in_uint 8 v -> [v] = word_bytes is_bigendian 1 v.
Proof. intros Hv. unfold word_bytes. cbn. rewrite Z.mod_small by exact Hv. by destruct is_bigendian. Qed.
Lemma lenZ_head e : lenZ (encode_head e) = 18.
Proof. unfold encode_head. by rewrite !lenZ_app, !lenZ_word_bytes. Qed.

#[export] Instance dirent64_shows : Shows dirent64 tcp (format64 path) entry_ok.
Proof.
  split; cbn [dirent64 header_size decode_dentry_head decode_dentry_tail format64 f_encode f_head f_tail].
  - intros e _. rewrite !lenZ_app, lenZ_head. pose proof (lenZ_nonneg (e_name e)). change (lenZ [e_type e]) with 1. lia.
  - intros e d He. rewrite (dentry_head_shows 19) by (done || lia). do 4 f_equal. rewrite !lenZ_app, lenZ_head. unfold reclen_of. change (lenZ [e_type e]) with 1. lia.
  - intros e a d He Ha Hb Hm. rewrite !lenZ_app, lenZ_head in *.
    assert (Hn : 18 + (lenZ [e_type e] + lenZ (e_name e)) - 19 = lenZ (e_name e)) by (change (lenZ [e_type e]) with 1; lia). rewrite Hn.
    destruct (name_shows (a + 19) (lenZ (e_name e)) d e eq_refl ltac:(apply He)) as (rc & Hrc & E). exists rc. split; [done|].
    unfold dentry64_tail, PRINT_FIELD_XVAL. cbv zeta.
    assert (Ht : fu 1 18 (Decode.bytes_at 19 0 (encode_head e ++ [e_type e] ++ e_name e)) = e_type e).
    { rewrite (byte_word (e_type e)) by apply He. apply (fu_field 1 18 19); [apply lenZ_head | lia | apply He]. }
    rewrite Ht, (after_bind _ _ d () [call_tprint_struct_next] d) by done. rewrite (after_bind _ _ d () (tail (type_calls e)) d) by done.
    rewrite (after_bind _ _ _ _ _ _ E). done.
Qed.

Lemma type_fetch a e d : entry_ok e -> 0 < a -> holds (leaf tcp) a (encode_head e ++ e_name e ++ [e_type e]) ->
  umoven_or_printaddr tcp (a + 18 + lenZ (e_name e)) 1 d = Some (Some [e_type e], [], d).
Proof.
  intros He Ha Hm. pose proof (lenZ_nonneg (e_name e)). unfold umoven_or_printaddr.
  rewrite app_assoc in Hm. apply holds_app in Hm as [_ Hm]. rewrite lenZ_app, lenZ_head, Z.add_assoc in Hm.
  rewrite (after_bind _ _ _ _ _ _ (fetch_holds tcp looking (a + 18 + lenZ (e_name e)) 1 [e_type e] d ltac:(lia) ltac:(by split) Hm)). done.
Qed.

#[export] Instance dirent_shows : Shows dirent tcp (format32 path) entry_ok.
Proof.
  split; cbn [dirent header_size decode_dentry_head decode_dentry_tail format32 f_encode f_head f_tail].
  - intros e _. rewrite !lenZ_app, lenZ_head. pose proof (lenZ_nonneg (e_name e)). change (lenZ [e_type e]) with 1. lia.
  - intros e d He. rewrite (dentry_head_shows 18) by (done || lia). do 4 f_equal. rewrite !lenZ_app, lenZ_head. unfold reclen_of. change (lenZ [e_type e]) with 1. lia.
  - intros e a d He Ha Hb Hm. rewrite !lenZ_app, lenZ_head in *. change (lenZ [e_type e]) with 1 in *. pose proof (lenZ_nonneg (e_name e)).
    replace (18 + (lenZ (e_name e) + 1) - 18) with (lenZ (e_name e) + 1) by lia.
    destruct (name_shows (a + 18) (lenZ (e_name e)) d e eq_refl ltac:(apply He)) as (rc & Hrc & E). exists rc. split; [done|].
    unfold dentry_tail. cbv zeta. rewrite (proj2 (Z.eqb_neq (lenZ (e_name e) + 1) 0)) by lia. cbn [negb]. rewrite !Z.add_simpl_r.
    rewrite (after_bind _ _ d rc (name_calls path (a + 18) e ++ type_calls e) d); [by rewrite app_assoc|].
    rewrite (after_bind _ _ _ _ _ _ E). unfold tprint_struct_next, tprints_field_name. rewrite !after_emit.
    rewrite uint_small by (unfold in_uint; lia). rewrite (after_bind _ _ _ _ _ _ (type_fetch a e d He Ha Hm)), after_nil.
    assert (Ht : fu 1 0 [e_type e] = e_type e) by (unfold Decode.fu, word_value; destruct is_bigendian; change (e_type e + 256 * 0 = e_type e); lia).
    rewrite Ht. unfold printxval. rewrite uint_small by (destruct He as (_ & _ & [??] & _); unfold in_uint; lia). done.
Qed.

(** The exit of getdents or getdents64 with [es] in the buffer. *)
Lemma xgetdents_shows layout F es d : Shows layout tcp F entry_ok -> 0 < header_size layout -> Forall entry_ok es ->
  holds (leaf tcp) (u_arg tcp 1) (buffer F es) -> 0 < u_arg tcp 1 -> u_arg tcp 1 + lenZ (buffer F es) < 2 ^ 64 ->
  u_rval tcp = lenZ (buffer F es) -> lenZ (buffer F es) <= uint 32 (u_arg tcp 2) ->
  xgetdents layout tcp d =
    Some (0, [call_tprints_arg_next_name "dirp"; call_tprint_array_begin] ++ entries_calls F (u_arg tcp 1) es ++
             [call_tprint_array_end; call_tprints_arg_next_name "count"; text_call (pretty (uint 32 (u_arg tcp 2)))], d).
Proof.
  intros HS Hh Hes Hm Ha Hb Hv Hc. pose proof (lenZ_nonneg (buffer F es)). pose proof (uint_range 32 (u_arg tcp 2) ltac:(lia)) as [_ Hc2].
  destruct (looking) as (_ & Hve & He & Hs). unfold xgetdents. rewrite He, Hs, Hve, Hv. cbn [negb orb]. cbv zeta.
  rewrite (uint_small 64), (proj2 (Z.ltb_ge _ _)), (uint_small 32 (lenZ _)) by (unfold in_uint; lia).
  unfold tprints_arg_next_name. rewrite after_emit.
  rewrite (after_bind _ _ _ _ _ _ (decode_dents_shows layout tcp F entry_ok looking es (u_arg tcp 1) d Hes Ha Hb ltac:(lia) Hm Hh)).
  rewrite after_emit, (after_bind _ _ _ () [text_call (pretty (uint 32 (u_arg tcp 2)))] d), !after_after by done. cbn. by rewrite <- !app_assoc.
Qed.

Definition format_of (wide : bool) : format := if wide then format64 path else format32 path.

End layouts.
End shows.

(** ** A concrete directory *)

Definition demo_entry : entry := mk_entry 7 24 8 [97; 0; 0; 0; 0].
Definition demo_entries : list entry := [demo_entry; mk_entry 8 48 4 [98; 98; 0; 0; 0]].
Definition demo_path (a n : Z) : text := codes "name".
Definition demo_dir (b : list Z) : leaves () :=
  {| lf_umoven := fun a n st => (Some (Decode.bytes_at n (a - 8192) b), st);
     lf_printstr_ex := lf_printstr_ex demo_leaves; lf_printpathn := fun a n st => (demo_path a n, 0, st);
     lf_print_nonzero_bytes := lf_print_nonzero_bytes demo_leaves; lf_printfd := lf_printfd demo_leaves;
     lf_printpid := lf_printpid demo_leaves; lf_other := lf_other demo_leaves |}.
Definition demo_exit : tcb := Tcb.set_u_rval 48 (set_qual_flg QUAL_VERBOSE on_exit).
Definition demo_tcp : dtcb () :=
  mk_dtcb () demo_exit (fun i => if i =? 1 then 8192 else if i =? 2 then 32768 else 3)
    (demo_dir (buffer (@format_of demo_globals demo_path true) demo_entries)).

Example getdents64_text :
  ('(_, evs, _) ← @sys_getdents64 () demo_globals demo_tcp demo_state; Some (bytes (perform_all evs (mk_style None HYPERLINK_NEVER true)))) =
  Some (codes (", dirp=[{d_ino=7, d_off=24, d_reclen=24, d_type=0x8 /* DT_??? */, d_name=name}, " +:+
               "{d_ino=8, d_off=48, d_reclen=24, d_type=0x4 /* DT_??? */, d_name=name}], count=32768")).
Proof. vm_compute. reflexivity. Qed.

Lemma getdents_print_by_the_grammar_witness :
  exists rv evs ds' s,
    run_decoder (@sys_readdir () demo_globals) decoding on_exit (fun i => 4096 + i) demo_leaves demo_leaves demo_state = Some (rv, evs, ds') /\
    steps no_args evs = Some s /\ complete s = true /\ In (names s) [["fd"; "dirp"; "count"]; ["fd"; "dirp"]].
Proof.
  apply (@getdents_print_by_the_grammar () demo_globals (mk_decoder "readdir" (@sys_readdir () demo_globals) [["fd"; "dirp"; "count"]; ["fd"; "dirp"]]));
    [right; right; left; reflexivity | reflexivity | reflexivity].
Defined.

