(* ===== verification/Select.v ===== *)
(** * select, poll and sets of processors

    src/desc.c, src/poll.c, src/affinity.c.  Sets of descriptors and of processors are
    printed bit by bit.  On exit select and poll put what is ready into a static buffer
    of 1024 bytes that becomes the comment after the result ([auxstr]): every write into
    the buffer is checked here, and one outside of it has no result. *)

From stdpp Require Import strings pretty.
From S2P Require Import Prelude Wait Tcb Tracee Syscall Util Xlat Filters Quote UCopy PrintStr PrintArray Style Decode SysProc Decoders Dirent.
Local Open Scope string_scope.
Local Open Scope Z_scope.
Local Open Scope list_scope.

Section select.
Context {St : Type} {G : Globals}.

(** ** Bits *)

Definition no_result {A} : D St A := fun _ => None.
Definition pos_xor_mask : Z := if is_bigendian then current_wordsize - 1 else 0.
Definition find_bit (fds : list Z) (j n : Z) : D St Z :=
  match next_set_bit fds pos_xor_mask j n with Some j => mret j | None => no_result end.

(** The loop over the bits from [j] on, in at most [fuel] rounds; whether any was shown. *)
Fixpoint print_bits (show : Z -> D St ()) (fuel : nat) (fds : list Z) (j n : Z) (printed : bool) : D St bool :=
  match fuel with
  | O => no_result
  | S fuel =>
      j ← find_bit fds j n;
      if j <? 0 then mret printed
      else
        (if printed then tprint_bitset_next else nothing) ;;
        show j ;;
        print_bits show fuel fds (j + 1) n true
  end.

(** ** The buffer *)

Definition outstr_room : Z := 1024.
Definition put (c : Z) (out : text) : D St text := if lenZ out <? outstr_room then mret (out ++ [c]) else no_result.
(** [stpcpy] and [xappendstr]: the text and the byte that ends it must fit. *)
Definition stpcpy (out s : text) : D St text := if lenZ out + lenZ s <? outstr_room then mret (out ++ s) else no_result.
Definition append_str (out s : text) : D St text := stpcpy out s.
Definition end_str (out : text) : D St () := if lenZ out <? outstr_room then nothing else no_result.

(** ** src/desc.c *)

Definition sys_close (tcp : dtcb St) : D St Z :=
  tprints_arg_name "fd" ;;
  printfd tcp (u_arg tcp 0) ;;
  mret RVAL_DECODED.

Definition select_nfds (arg : Z) : Z :=
  let nfds := int arg in
  let nfds := if nfds <? 0 then 0 else nfds in
  if 1024 * 1024 <? nfds then 1024 * 1024 else nfds.
Definition fd_set_size (nfds : Z) : Z := Z.land ((nfds + 7) / 8 + current_wordsize - 1) (- current_wordsize).

Definition fd_set_arg_name (i : Z) : string := if i =? 0 then "readfds" else if i =? 1 then "writefds" else "exceptfds".

(** One of the sets on entry. *)
Definition print_fd_set (tcp : dtcb St) (args : Z -> Z) (nfds fdsize i : Z) : D St () :=
  let addr := args (i + 1) in
  tprints_arg_next_name (fd_set_arg_name i) ;;
  if negb (verbose tcp && (0 <? fdsize) && malloc_ok fdsize) then printaddr addr
  else
    fds ← umoven_or_printaddr tcp addr fdsize;
    match fds with
    | None => nothing
    | Some fds =>
        tprint_bitset_begin ;;
        print_bits (printfd tcp) (S (Z.to_nat nfds)) fds 0 nfds false ;;
        tprint_bitset_end
    end.

(** What the loops on exit keep: the buffer, the separator, the number of ready descriptors left. *)
Record ready := mk_ready { r_out : text; r_sep : text; r_left : Z }.

Definition set_name (i : Z) : text := codes (if i =? 0 then "in" else if i =? 1 then "out" else "except").

(** A descriptor that is ready; [first] of its set or not. *)
Definition ready_fd (i j : Z) (first : bool) (r : ready) : D St (ready * bool) :=
  if lenZ (r_out r) <? outstr_room - (11 + 12 + 2) then
    if first then
      out ← append_str (r_out r) (r_sep r ++ set_name i ++ codes " [" ++ codes (pretty j));
      mret (mk_ready out (codes ", ") (r_left r), false)
    else
      out ← append_str (r_out r) (codes " " ++ codes (pretty j));
      mret (mk_ready out (r_sep r) (r_left r), first)
  else mret (r, first).

Fixpoint ready_bits (fuel : nat) (fds : list Z) (nfds i j : Z) (first : bool) (r : ready) : D St ready :=
  match fuel with
  | O => no_result
  | S fuel =>
      j ← find_bit fds j nfds;
      if j <? 0 then mret r
      else
        '(r, first) ← ready_fd i j first r;
        let r := mk_ready (r_out r) (r_sep r) (r_left r - 1) in
        if r_left r =? 0 then mret r else ready_bits fuel fds nfds i (j + 1) first r
  end.

Definition ready_set (tcp : dtcb St) (args : Z -> Z) (nfds fdsize i : Z) (r : ready) : D St ready :=
  if 0 <? r_left r then
    let addr := args (i + 1) in
    fds ← (if (addr =? 0) || negb (malloc_ok fdsize) then mret None else umoven tcp addr fdsize);
    match fds with
    | None => mret r
    | Some fds =>
        r ← ready_bits (S (Z.to_nat nfds)) fds nfds i 0 true r;
        if bool_decide (r_out r = []) then mret r
        else out ← put 93 (r_out r); mret (mk_ready out (r_sep r) (r_left r))
    end
  else mret r.

(** [sprint_tv_ts]: a text in a buffer of its own; nothing is printed. *)
Definition sprint_other (tcp : dtcb St) (name : string) (addr : Z) : D St text :=
  '(t, _) ← lift (lf_other (leaf tcp) name [addr]); mret t.

Definition select_exiting (tcp : dtcb St) (args : Z -> Z) (nfds fdsize : Z) (sprint_tv_ts : string) : D St Z :=
  if syserror tcp then mret 0
  else
    let ready_fds := int (u_rval tcp) in
    if ready_fds =? 0 then set_auxstr (Some (codes "Timeout")) ;; mret RVAL_STR
    else
      r ← ready_set tcp args nfds fdsize 0 (mk_ready [] [] ready_fds);
      r ← ready_set tcp args nfds fdsize 1 r;
      r ← ready_set tcp args nfds fdsize 2 r;
      out ← (if negb (args 4 =? 0) then
               str ← sprint_other tcp sprint_tv_ts (args 4);
               if lenZ (r_out r) + 6 + lenZ (r_sep r) + lenZ str <? outstr_room
               then append_str (r_out r) (r_sep r ++ codes "left " ++ str)
               else mret (r_out r)
             else mret (r_out r));
      end_str out ;;
      set_auxstr (Some out) ;;
      mret RVAL_STR.

Definition decode_select (tcp : dtcb St) (args : Z -> Z) (print_tv_ts sprint_tv_ts : string) : D St Z :=
  let nfds := select_nfds (args 0) in
  let fdsize := fd_set_size nfds in
  if entering tcp then
    tprints_arg_name "nfds" ;;
    PRINT_VAL_D (int (args 0)) ;;
    print_fd_set tcp args nfds fdsize 0 ;;
    print_fd_set tcp args nfds fdsize 1 ;;
    print_fd_set tcp args nfds fdsize 2 ;;
    tprints_arg_next_name "timeout" ;;
    other tcp print_tv_ts [args 4] ;;
    mret 0
  else select_exiting tcp args nfds fdsize sprint_tv_ts.

Definition sys_oldselect (tcp : dtcb St) : D St Z :=
  args ← fetch_indirect_syscall_args tcp (u_arg tcp 0) 5;
  match args with
  | Some args => decode_select tcp args "print_timeval" "sprint_timeval"
  | None =>
      (if entering tcp then tprints_arg_name "arg" ;; printaddr (u_arg tcp 0) else nothing) ;;
      mret RVAL_DECODED
  end.
Definition sys_select (tcp : dtcb St) : D St Z := decode_select tcp (u_arg tcp) "print_timeval" "sprint_timeval".

Definition do_pselect6 (tcp : dtcb St) (print_ts sprint_ts : string) : D St Z :=
  rc ← decode_select tcp (u_arg tcp) print_ts sprint_ts;
  (if entering tcp then tprints_arg_next_name "sig" ;; other tcp "print_kernel_sigset" [u_arg tcp 5] ;; nothing else nothing) ;;
  mret rc.
Definition sys_pselect6_time32 (tcp : dtcb St) : D St Z := do_pselect6 tcp "print_timespec32" "sprint_timespec32".
Definition sys_pselect6_time64 (tcp : dtcb St) : D St Z := do_pselect6 tcp "print_timespec64" "sprint_timespec64".

(** ** src/poll.c *)

(** struct pollfd: fd, events, revents. *)
Definition print_pollfd (tcp : dtcb St) (fds : list Z) : D St bool :=
  tprint_struct_begin ;;
  tprints_field_name "fd" ;;
  printfd tcp (fs 4 0 fds) ;;
  (if 0 <=? fs 4 0 fds then
     tprint_struct_next ;;
     PRINT_FIELD_FLAGS "events" (fu 2 4 fds) (xlat_of "pollflags") (Some "POLL???")
   else nothing) ;;
  tprint_struct_end ;;
  mret true.

Definition decode_poll_entering (tcp : dtcb St) : D St () :=
  let addr := u_arg tcp 0 in
  let nfds := uint 32 (u_arg tcp 1) in
  tprints_arg_name "fds" ;;
  print_array tcp addr nfds 8 (print_pollfd tcp) ;;
  tprints_arg_next_name "nfds" ;;
  PRINT_VAL_U nfds.

(** "[" or ", " before an element. *)
Definition open_or_next (out : text) : D St text := if bool_decide (out = []) then put 91 out else stpcpy out (codes ", ").

(** 2 + 2 * sizeof(long) + sizeof(", ], ..."). *)
Definition poll_reserve : Z := 2 + 2 * 8 + 9.

(** The elements from [cur] on, at most [n] of them. *)
Fixpoint revents_loop (n : nat) (tcp : dtcb St) (cur printed : Z) (out : text) : D St text :=
  match n with
  | O => mret out
  | S n =>
      fds ← umoven tcp cur 8;
      match fds with
      | None =>
          out ← open_or_next out;
          append_str out (codes (fmt_hex cur))
      | Some fds =>
          let revents := fs 2 6 fds in
          if revents =? 0 then revents_loop n tcp (cur + 8) printed out
          else
            out ← open_or_next out;
            if sequence_truncation_needed max_strlen tcp (printed + 1) then stpcpy out (codes "...")
            else
              let fdstr := codes ("{fd=" +:+ pretty (fs 4 0 fds) +:+ ", revents=") in
              let flagstr := codes (default EmptyString
                (sprintflags_exv xlat_verbosity EmptyString (uint 16 revents) EmptyString XLAT_STYLE_DEFAULT (xlat_of "pollflags") [])) in
              if outstr_room - poll_reserve <=? lenZ out + lenZ fdstr + lenZ flagstr + 1 then stpcpy out (codes "...")
              else
                out ← stpcpy out fdstr;
                out ← stpcpy out flagstr;
                out ← put 125 out;
                revents_loop n tcp (cur + 8) (printed + 1) out
      end
  end.

Definition decode_poll_exiting (tcp : dtcb St) (sprint_ts : string) (pts : Z) : D St Z :=
  let nfds := uint 32 (u_arg tcp 1) in
  let size := 8 * nfds in
  let start := u_arg tcp 0 in
  let end_ := uint 64 (start + size) in
  if syserror tcp then mret 0
  else if u_rval tcp =? 0 then set_auxstr (Some (codes "Timeout")) ;; mret RVAL_STR
  else if negb (verbose tcp) || (start =? 0) || (nfds =? 0) || negb (size / 8 =? nfds) || (end_ <? start) then mret 0
  else
    out ← revents_loop (Z.to_nat nfds) tcp start 0 [];
    out ← (if bool_decide (out = []) then mret out else put 93 out);
    end_str out ;;
    out ← (if negb (pts =? 0) then
             str ← sprint_other tcp sprint_ts pts;
             if lenZ out + 8 + lenZ str <? outstr_room then
               out ← stpcpy out (codes (if bool_decide (out = []) then "left " else ", left "));
               stpcpy out str
             else stpcpy out (codes ", ...")
           else mret out);
    if bool_decide (out = []) then mret 0
    else set_auxstr (Some out) ;; mret RVAL_STR.

Definition do_poll (tcp : dtcb St) (sprint_ts : string) : D St Z :=
  if entering tcp then
    decode_poll_entering tcp ;;
    tprints_arg_next_name "timeout" ;;
    PRINT_VAL_D (int (u_arg tcp 2)) ;;
    mret 0
  else decode_poll_exiting tcp sprint_ts 0.
Definition sys_poll_time32 (tcp : dtcb St) : D St Z := do_poll tcp "sprint_timespec32".
Definition sys_poll_time64 (tcp : dtcb St) : D St Z := do_poll tcp "sprint_timespec64".

Definition do_ppoll (tcp : dtcb St) (print_ts sprint_ts : string) : D St Z :=
  if entering tcp then
    decode_poll_entering tcp ;;
    tprints_arg_next_name "tmo_p" ;;
    other tcp print_ts [u_arg tcp 2] ;;
    tprints_arg_next_name "sigmask" ;;
    other tcp "print_sigset_addr_len" [u_arg tcp 3; u_arg tcp 4] ;;
    tprints_arg_next_name "sigsetsize" ;;
    PRINT_VAL_U (u_arg tcp 4) ;;
    mret 0
  else decode_poll_exiting tcp sprint_ts (u_arg tcp 2).
Definition sys_ppoll_time32 (tcp : dtcb St) : D St Z := do_ppoll tcp "print_timespec32" "sprint_timespec32".
Definition sys_ppoll_time64 (tcp : dtcb St) : D St Z := do_ppoll tcp "print_timespec64" "sprint_timespec64".

(** ** src/affinity.c *)

(** Whether sched_getaffinity with no mask and the given size does not fail with EINVAL. *)
Variable accepts : Z -> bool.

Fixpoint probe_cpuset_size (fuel : nat) (size : Z) : option Z :=
  match fuel with
  | O => None
  | S fuel => if negb (size =? 0) && negb (accepts size) then probe_cpuset_size fuel (uint 32 (Z.shiftl size 1)) else Some size
  end.
(** The size doubles until it is accepted or has left the 32 bits. *)
Definition get_cpuset_size : option Z :=
  size ← probe_cpuset_size 27 128; Some (if size =? 0 then 128 else size).

Definition print_affinitylist (tcp : dtcb St) (addr len : Z) : D St () :=
  match get_cpuset_size with
  | None => no_result
  | Some max_size =>
      let umove_size := Z.min len max_size in
      let size := uint 32 (uint 32 (umove_size + current_wordsize - 1) / current_wordsize * current_wordsize) in
      let ncpu := uint 32 (size * 8) in
      if negb (verbose tcp) || (exiting tcp && syserror tcp) || (addr =? 0) then printaddr addr
      else if len =? 0 then tprint_array_begin ;; tprint_array_end
      else if negb (malloc_ok size) then printaddr addr
      else
        cpu ← umoven_or_printaddr tcp addr umove_size;
        match cpu with
        | None => nothing
        | Some cpu =>
            let cpu := padded size cpu in
            tprint_bitset_begin ;;
            printed ← print_bits (fun i => PRINT_VAL_D i) (S (Z.to_nat ncpu)) cpu 0 ncpu false;
            (if size <? len then (if printed : bool then tprint_bitset_next else nothing) ;; tprint_more_data_follows else nothing) ;;
            tprint_bitset_end
        end
  end.

Definition sys_sched_setaffinity (tcp : dtcb St) : D St Z :=
  tprints_arg_name "pid" ;;
  printpid tcp (int (u_arg tcp 0)) PT_TGID ;;
  tprints_arg_next_name "cpusetsize" ;;
  let len := uint 32 (u_arg tcp 1) in
  PRINT_VAL_U len ;;
  tprints_arg_next_name "mask" ;;
  print_affinitylist tcp (u_arg tcp 2) len ;;
  mret RVAL_DECODED.

Definition sys_sched_getaffinity (tcp : dtcb St) : D St Z :=
  (if entering tcp then
     tprints_arg_name "pid" ;;
     printpid tcp (int (u_arg tcp 0)) PT_TGID ;;
     tprints_arg_next_name "cpusetsize" ;;
     PRINT_VAL_U (uint 32 (u_arg tcp 1))
   else
     tprints_arg_next_name "mask" ;;
     print_affinitylist tcp (u_arg tcp 2) (uint 32 (u_rval tcp))) ;;
  mret 0.
End select.
#[export] Typeclasses Opaque no_result find_bit print_bits put stpcpy append_str end_str ready_fd ready_bits ready_set sprint_other
  select_exiting print_fd_set decode_select open_or_next revents_loop decode_poll_exiting print_affinitylist.

(** ** Lengths of numbers *)

Lemma lenZ_codes (s : string) : lenZ (codes s) = Z.of_nat (String.length s).
Proof. unfold codes, lenZ. induction s as [|c s IH]; [done|]. cbn in *. lia. Qed.

Lemma pretty_go_length k x s : (x < 10 ^ N.of_nat k)%N -> (String.length (pretty_N_go x s) <= k + String.length s)%nat.
Proof.
  revert x s. induction k as [|k IH]; intros x s Hx.
  - change (10 ^ N.of_nat 0)%N with 1%N in Hx. assert (x = 0)%N as -> by lia. done.
  - destruct (decide (x = 0)%N) as [->|Hn]; [change (pretty_N_go 0 s) with s; lia|]. rewrite pretty_N_go_step by lia.
    rewrite Nat2N.inj_succ, N.pow_succ_r in Hx by lia. etransitivity; [apply IH, N.Div0.div_lt_upper_bound; lia|]. cbn. lia.
Qed.

(** A number of at most [k] digits. *)
Lemma pretty_length k (n : Z) : (0 < k)%nat -> 0 <= n < 10 ^ Z.of_nat k -> lenZ (codes (pretty n)) <= Z.of_nat k.
Proof.
  intros Hk Hn. rewrite lenZ_codes. apply inj_le. destruct n as [|p|p]; [cbn; lia | | lia].
  change (pretty (Z.pos p)) with (pretty_N_go (N.pos p) EmptyString).
  etransitivity; [apply (pretty_go_length k)|cbn; lia].
  apply N2Z.inj_lt. rewrite N2Z.inj_pow, nat_N_Z. exact (proj2 Hn).
Qed.

Lemma hex_text_length n z acc : (String.length (hex_digits n z acc) <= n + String.length acc)%nat.
Proof. revert z acc. induction n as [|n IH]; intros z acc; cbn [hex_digits]; [lia|]. destruct (_ =? _); [cbn; lia|]. etransitivity; [apply IH|]. cbn. lia. Qed.
Lemma fmt_hex_length z : lenZ (codes (fmt_hex z)) <= 18.
Proof.
  rewrite lenZ_codes. unfold fmt_hex. destruct (z =? 0); [done|]. pose proof (hex_text_length 16 z EmptyString) as H. revert H.
  set (h := hex_digits 16 z EmptyString). change (String.length EmptyString) with O.
  change (String.length ("0x" +:+ h)) with (S (S (String.length h))). lia.
Qed.

(** ** What is printed is of the grammar, and the buffer is large enough *)

Section grammar.
Context {St : Type} {G : Globals}.
Implicit Type tcp : dtcb St.

Lemma find_bit_emits fds j n s (Q : Z -> ostate -> Prop) : 0 <= j -> 0 <= n < 2 ^ 31 ->
  (forall r, r = -1 \/ j <= r < n -> Q r s) -> emits (find_bit (St := St) fds j n) s Q.
Proof.
  intros Hj Hn H. unfold find_bit. destruct (next_set_bit_spec fds pos_xor_mask j n Hj Hn) as (r & -> & Hr).
  apply emits_ret, H. destruct Hr as [[-> _] | [Hr _]]; [by left | by right].
Qed.

Abbreviation in_bitset printed f ns := (mk_o ((BBitset, if printed : bool then SValue else SEmpty) :: f) ns).

Lemma print_bits_emits (show : Z -> D St ()) fuel fds j n printed f ns (Q : bool -> ostate -> Prop) :
  (forall i, IsValue (show i)) -> 0 <= j -> 0 <= n < 2 ^ 31 -> n - j < Z.of_nat fuel ->
  (0 < Z.of_nat fuel) -> (forall p, Q p (in_bitset p f ns)) -> emits (print_bits show fuel fds j n printed) (in_bitset printed f ns) Q.
Proof.
  intros Hs Hj Hn Hf H0 HQ. revert j printed Hj Hf H0. induction fuel as [|fuel IH]; intros j printed Hj Hf H0; [lia|]. cbn [print_bits].
  apply emits_bind, find_bit_emits; [done | done|]. intros r Hr. destruct (Z.ltb_spec r 0); [apply emits_ret, HQ|].
  apply emits_bind. apply emits_mono with (Q := fun _ s => exists q, s = mk_o ((BBitset, q) :: f) ns).
  { destruct printed; wf; eauto. }
  intros _ s [q ->]. apply emits_bind, value_emits. intros _. cbn [valued frames]. apply (IH (r + 1) true); lia.
Qed.

(** Writes that fit. *)
Lemma put_silent c out s (Q : text -> ostate -> Prop) : lenZ out < outstr_room -> Q (out ++ [c]) s -> emits (put (St := St) c out) s Q.
Proof. intros Hl H. unfold put. rewrite (proj2 (Z.ltb_lt _ _) Hl). by apply emits_ret. Qed.
Lemma stpcpy_silent out t s (Q : text -> ostate -> Prop) : lenZ out + lenZ t < outstr_room -> Q (out ++ t) s -> emits (stpcpy (St := St) out t) s Q.
Proof. intros Hl H. unfold stpcpy. rewrite (proj2 (Z.ltb_lt _ _) Hl). by apply emits_ret. Qed.
Lemma end_str_silent out s (Q : () -> ostate -> Prop) : lenZ out < outstr_room -> Q () s -> emits (end_str (St := St) out) s Q.
Proof. intros Hl H. unfold end_str. rewrite (proj2 (Z.ltb_lt _ _) Hl). by apply emits_ret. Qed.
#[local] Instance sprint_other_silent tcp name addr : Silent (sprint_other tcp name addr).
Proof. unfold sprint_other. apply bind_silent; [apply _|]. intros [t rc]. apply _. Qed.

(** *** select *)

(** The text leaves room, for all but [k] brackets. *)
Definition roomy (k : Z) (r : ready) : Prop := lenZ (r_out r) <= 1015 + k /\ lenZ (r_sep r) <= 2.

Lemma set_name_length i : lenZ (set_name i) <= 6.
Proof. unfold set_name. destruct (i =? 0); [done|]. by destruct (i =? 1). Qed.

Lemma ready_fd_emits i j first r k s (Q : ready * bool -> ostate -> Prop) :
  0 <= k -> roomy k r -> 0 <= j < 2 ^ 20 -> (forall r' f, roomy k r' -> r_left r' = r_left r -> Q (r', f) s) ->
  emits (ready_fd (St := St) i j first r) s Q.
Proof.
  intros Hk [Ho Hs] Hj H. unfold ready_fd. pose proof (set_name_length i).
  assert (Hp : lenZ (codes (pretty j)) <= 7) by (apply (pretty_length 7); lia).
  destruct (Z.ltb_spec (lenZ (r_out r)) (outstr_room - (11 + 12 + 2))) as [Hl|]; [|apply emits_ret, H; [by split | done]].
  unfold outstr_room in Hl. destruct first; apply emits_bind, stpcpy_silent; rewrite ?lenZ_app; change (lenZ (codes " [")) with 2; change (lenZ (codes " ")) with 1.
  2, 4: apply emits_ret, H; [split; cbn [r_out r_sep]; rewrite ?lenZ_app; change (lenZ (codes " [")) with 2; change (lenZ (codes " ")) with 1; [lia | done] | done].
  all: unfold outstr_room; lia.
Qed.

Lemma ready_bits_emits fuel fds nfds i j first r k s (Q : ready -> ostate -> Prop) :
  0 <= k -> roomy k r -> 0 <= j -> 0 <= nfds <= 2 ^ 20 -> nfds - j < Z.of_nat fuel -> 0 < Z.of_nat fuel ->
  (forall r', roomy k r' -> Q r' s) -> emits (ready_bits (St := St) fuel fds nfds i j first r) s Q.
Proof.
  intros Hk Hr Hj Hn Hf H0 H. revert j first r Hr Hj Hf H0. induction fuel as [|fuel IH]; intros j first r Hr Hj Hf H0; [lia|]. cbn [ready_bits].
  apply emits_bind, find_bit_emits; [done | lia|]. intros b Hb. destruct (Z.ltb_spec b 0); [by apply emits_ret, H|].
  apply emits_bind, (ready_fd_emits i b first r k); [done | done | lia|]. intros r' f Hr' _. cbv zeta. cbn [r_left].
  destruct (r_left r' - 1 =? 0); [apply emits_ret, H; exact Hr' | apply (IH (b + 1)); [exact Hr' | lia..]].
Qed.

Lemma ready_set_emits tcp args nfds fdsize i r k s (Q : ready -> ostate -> Prop) :
  0 <= k <= 4 -> roomy k r -> 0 <= nfds <= 2 ^ 20 -> (forall r', roomy (k + 1) r' -> Q r' s) -> emits (ready_set tcp args nfds fdsize i r) s Q.
Proof.
  intros Hk Hr Hn H. assert (Hr1 : forall r', roomy k r' -> roomy (k + 1) r') by (intros r' [??]; split; lia).
  unfold ready_set. destruct (0 <? r_left r); [|by apply emits_ret, H, Hr1]. cbv zeta. apply emits_bind.
  apply silent. intros [fds|]; [|by apply emits_ret, H, Hr1].
  apply emits_bind, (ready_bits_emits _ fds nfds i 0 true r k); [lia | done | lia | done | lia | lia|]. intros r' Hr'.
  case_bool_decide; [by apply emits_ret, H, Hr1|]. destruct Hr' as [Ho Hs].
  apply emits_bind, put_silent; [unfold outstr_room; lia|]. apply emits_ret, H. split; cbn [r_out r_sep]; [|done].
  rewrite lenZ_app. change (lenZ [93]) with 1. lia.
Qed.

Lemma select_nfds_range a : 0 <= select_nfds a <= 2 ^ 20.
Proof. unfold select_nfds. cbv zeta. destruct (Z.ltb_spec (int a) 0); [by vm_compute|]. destruct (Z.ltb_spec (1024 * 1024) (int a)); lia. Qed.

Lemma select_exiting_silent tcp args nfds fdsize sprint : 0 <= nfds <= 2 ^ 20 -> Silent (select_exiting tcp args nfds fdsize sprint).
Proof.
  intros Hn s Q H. unfold select_exiting. destruct (syserror tcp); [apply emits_ret, H|]. cbv zeta.
  destruct (_ =? 0); [apply emits_bind, silent; intros []; apply emits_ret, H|].
  apply emits_bind, (ready_set_emits _ _ _ _ _ _ 0); [lia | by split | done|]. intros r1 H1.
  apply emits_bind, (ready_set_emits _ _ _ _ _ _ 1); [lia | done | done|]. intros r2 H2.
  apply emits_bind, (ready_set_emits _ _ _ _ _ _ 2); [lia | done | done|]. intros r3 [Ho Hs].
  apply emits_bind. apply emits_mono with (Q := fun out s' => s' = s /\ lenZ out < outstr_room).
  - assert (Hr : lenZ (r_out r3) < outstr_room) by (unfold outstr_room; lia).
    destruct (args 4 =? 0); cbn [negb]; [by apply emits_ret|]. apply emits_bind, silent. intros str.
    destruct (Z.ltb_spec (lenZ (r_out r3) + 6 + lenZ (r_sep r3) + lenZ str) outstr_room); [|by apply emits_ret].
    apply stpcpy_silent; [|split; [done|]]; rewrite !lenZ_app; change (lenZ (codes "left ")) with 5; lia.
  - intros out s' [-> Hl]. apply emits_bind, end_str_silent; [done|]. apply emits_bind, silent. intros []. apply emits_ret, H.
Qed.

Lemma print_fd_set_emits tcp args nfds fdsize i f ns (Q : () -> ostate -> Prop) : 0 <= nfds <= 2 ^ 20 ->
  Q () (mk_o ((BArgs, SValue) :: f) (ns ++ [fd_set_arg_name i])) ->
  emits (print_fd_set tcp args nfds fdsize i) (mk_o ((BArgs, SValue) :: f) ns) Q.
Proof.
  intros Hn H. unfold print_fd_set. cbv zeta. do 3 wf_step. destruct (negb _); [apply printaddr_value; intros []; exact H|].
  apply emits_bind, umoven_or_printaddr_emits; [|apply emits_ret; exact H]. intros fds. do 3 wf_step.
  apply emits_bind, (print_bits_emits _ _ _ _ _ false); [intros; apply _ | lia | lia | lia | lia|].
  intros p. apply emits_emit. destruct p; exact H.
Qed.

Lemma decode_select_entering tcp args print sprint f ns (Q : Z -> ostate -> Prop) : entering tcp = true ->
  Q 0 (mk_o ((BArgs, SValue) :: f) (ns ++ ["nfds"; "readfds"; "writefds"; "exceptfds"; "timeout"])) ->
  emits (decode_select tcp args print sprint) (mk_o ((BArgs, SEmpty) :: f) ns) Q.
Proof.
  intros He H. unfold decode_select. rewrite He. cbv zeta. pose proof (select_nfds_range (args 0)). do 5 wf_step.
  do 3 (apply emits_bind, print_fd_set_emits; [done|]). wf. rewrite <- !app_assoc. exact H.
Qed.
Lemma decode_select_exiting tcp args print sprint : entering tcp = false -> Silent (decode_select tcp args print sprint).
Proof. intros He. unfold decode_select. rewrite He. apply select_exiting_silent, select_nfds_range. Qed.

Abbreviation select_args := ["nfds"; "readfds"; "writefds"; "exceptfds"; "timeout"].

Lemma sys_select_wf : well_formed (St := St) sys_select [select_args].
Proof.
  intros t1 t2 args l1 l2 H1 H2. unfold run_decoder, sys_select. apply emits_bind, decode_select_entering; [exact H1|].
  change (has 0 RVAL_DECODED) with false. apply decode_select_exiting; [exact H2|]. intros rv. split; [done | listed].
Qed.
Lemma fetch_args_silent tcp a n : Silent (fetch_indirect_syscall_args tcp a n).
Proof. unfold fetch_indirect_syscall_args. destruct (_ =? 8); (apply bind_silent; [apply _|]; intros [b|]; apply _). Qed.
Lemma sys_oldselect_wf : well_formed (St := St) sys_oldselect [select_args; ["arg"]].
Proof.
  intros t1 t2 args l1 l2 H1 H2. unfold run_decoder, sys_oldselect. cbn [tcb_of]. rewrite H1, H2.
  apply emits_bind, emits_bind, fetch_args_silent. intros [a|].
  - apply decode_select_entering; [exact H1|]. change (has 0 RVAL_DECODED) with false. cbv iota.
    apply emits_bind, fetch_args_silent. intros [a'|].
    + apply decode_select_exiting; [exact H2|]. intros rv. split; [done | listed].
    + wf. split; [done | listed].
  - unfold no_args. wf. split; [done | listed].
Qed.
Lemma do_pselect6_wf print sprint : well_formed (St := St) (fun tcp => do_pselect6 tcp print sprint) [select_args ++ ["sig"]].
Proof.
  intros t1 t2 args l1 l2 H1 H2. unfold run_decoder, do_pselect6. cbn [tcb_of]. rewrite H1, H2.
  apply emits_bind, emits_bind, decode_select_entering; [exact H1|].
  repeat lazymatch goal with
         | |- emits (decode_select _ _ _ _) _ _ => apply decode_select_exiting; [exact H2|]; intros ?
         | _ => wf_step
         end.
  split; [done | listed].
Qed.

(** *** poll *)

#[local] Instance print_pollfd_value tcp fds : IsValue (print_pollfd tcp fds).
Proof. intros [f ns] Q H. unfold print_pollfd. wf; apply H. Qed.

Lemma decode_poll_entering_emits tcp f ns (Q : () -> ostate -> Prop) :
  Q () (mk_o ((BArgs, SValue) :: f) (ns ++ ["fds"; "nfds"])) -> emits (decode_poll_entering tcp) (mk_o ((BArgs, SEmpty) :: f) ns) Q.
Proof.
  intros H. unfold decode_poll_entering. cbv zeta. do 3 wf_step. apply emits_bind.
  apply print_array_value; [lia | by apply count_nonneg | apply _|]. intros b. norm_state. wf.
  rewrite <- app_assoc. destruct a. exact H.
Qed.

Lemma open_or_next_emits out s (Q : text -> ostate -> Prop) : lenZ out <= 996 -> (forall out', lenZ out' <= 998 -> Q out' s) ->
  emits (open_or_next (St := St) out) s Q.
Proof.
  intros Hl H. unfold open_or_next. case_bool_decide.
  - subst. apply put_silent; [by unfold outstr_room|]. by apply H.
  - apply stpcpy_silent; [unfold outstr_room | apply H; rewrite lenZ_app]; change (lenZ (codes ", ")) with 2; lia.
Qed.

Lemma revents_loop_emits n tcp cur printed out s (Q : text -> ostate -> Prop) : lenZ out <= 996 ->
  (forall out', lenZ out' <= 1016 -> Q out' s) -> emits (revents_loop n tcp cur printed out) s Q.
Proof.
  intros Hl H. revert cur printed out Hl. induction n as [|n IH]; intros cur printed out Hl; cbn [revents_loop]; [apply emits_ret, H; lia|].
  apply emits_bind, silent. intros [fds|].
  2: { apply emits_bind, open_or_next_emits; [done|]. intros out' Hl'. pose proof (fmt_hex_length cur).
       apply stpcpy_silent; [unfold outstr_room; lia|]. apply H. rewrite lenZ_app. lia. }
  cbv zeta. destruct (fs 2 6 fds =? 0); [by apply IH|]. apply emits_bind, open_or_next_emits; [done|]. intros out' Hl'.
  assert (Hdots : emits (stpcpy (St := St) out' (codes "...")) s Q).
  { apply stpcpy_silent; [unfold outstr_room | apply H; rewrite lenZ_app]; change (lenZ (codes "...")) with 3; lia. }
  destruct (sequence_truncation_needed _ _ _); [exact Hdots|].
  match goal with |- context [if ?b <=? lenZ out' + lenZ ?f + lenZ ?g + 1 then _ else _] => generalize f; intros fdstr; generalize g; intros flagstr; destruct (Z.leb_spec b (lenZ out' + lenZ fdstr + lenZ flagstr + 1)) as [|Hroom] end; [exact Hdots|].
  unfold outstr_room, poll_reserve in Hroom. pose proof (lenZ_nonneg fdstr). pose proof (lenZ_nonneg flagstr).
  apply emits_bind, stpcpy_silent; [unfold outstr_room; lia|].
  apply emits_bind, stpcpy_silent; [rewrite lenZ_app; unfold outstr_room; lia|].
  apply emits_bind, put_silent; [rewrite !lenZ_app; unfold outstr_room; lia|].
  apply IH. rewrite !lenZ_app. change (lenZ [125]) with 1. lia.
Qed.

Lemma decode_poll_exiting_silent tcp sprint pts : Silent (decode_poll_exiting tcp sprint pts).
Proof.
  intros s Q H. unfold decode_poll_exiting. cbv zeta. destruct (syserror tcp); [apply emits_ret, H|].
  destruct (u_rval tcp =? 0); [apply emits_bind, silent; intros []; apply emits_ret, H|].
  match goal with |- context [if ?b then mret 0 else _] => destruct b end; [apply emits_ret, H|].
  apply emits_bind, revents_loop_emits; [done|]. intros out Hl.
  apply emits_bind. apply emits_mono with (Q := fun out s' => s' = s /\ lenZ out <= 1017).
  { case_bool_decide; [apply emits_ret; split; [done | lia]|]. apply put_silent; [unfold outstr_room; lia|].
    split; [done|]. rewrite lenZ_app. change (lenZ [93]) with 1. lia. }
  intros out' s' [-> Hl']. apply emits_bind, end_str_silent; [unfold outstr_room; lia|].
  apply emits_bind. apply emits_mono with (Q := fun _ s' => s' = s).
  { destruct (pts =? 0); cbn [negb]; [by apply emits_ret|]. apply emits_bind, silent. intros str.
    destruct (Z.ltb_spec (lenZ out' + 8 + lenZ str) outstr_room) as [Hroom|].
    - unfold outstr_room in Hroom. pose proof (lenZ_nonneg str).
      assert (lenZ (codes (if bool_decide (out' = []) then "left " else ", left ")) <= 7) by (by case_bool_decide).
      apply emits_bind, stpcpy_silent; [unfold outstr_room; lia|]. apply stpcpy_silent; [rewrite lenZ_app; unfold outstr_room; lia | done].
    - apply stpcpy_silent; [|done]. change (lenZ (codes ", ...")) with 5. unfold outstr_room. lia. }
  intros out'' s' ->. case_bool_decide; [apply emits_ret, H|]. apply emits_bind, silent. intros []. apply emits_ret, H.
Qed.

Lemma do_poll_wf sprint : well_formed (St := St) (fun tcp => do_poll tcp sprint) [["fds"; "nfds"; "timeout"]].
Proof.
  intros t1 t2 args l1 l2 H1 H2. unfold run_decoder, do_poll. cbn [tcb_of]. rewrite H1, H2.
  apply emits_bind, emits_bind, decode_poll_entering_emits.
  repeat lazymatch goal with
         | |- emits (decode_poll_exiting _ _ _) _ _ => apply decode_poll_exiting_silent; intros ?
         | _ => wf_step
         end.
  split; [done | listed].
Qed.
Lemma do_ppoll_wf print sprint : well_formed (St := St) (fun tcp => do_ppoll tcp print sprint) [["fds"; "nfds"; "tmo_p"; "sigmask"; "sigsetsize"]].
Proof.
  intros t1 t2 args l1 l2 H1 H2. unfold run_decoder, do_ppoll. cbn [tcb_of]. rewrite H1, H2.
  apply emits_bind, emits_bind, decode_poll_entering_emits.
  repeat lazymatch goal with
         | |- emits (decode_poll_exiting _ _ _) _ _ => apply decode_poll_exiting_silent; intros ?
         | _ => wf_step
         end.
  split; [done | listed].
Qed.

(** *** Sets of processors *)

Variable accepts : Z -> bool.

(** The search ends, at a size that is accepted or after 2^31. *)
Lemma probe_cpuset_size_ends fuel j : 7 <= j <= 32 -> 32 - j < Z.of_nat fuel ->
  exists j', j <= j' <= 32 /\ probe_cpuset_size accepts fuel (uint 32 (2 ^ j)) = Some (uint 32 (2 ^ j')) /\
    (j' < 32 -> accepts (2 ^ j') = true) /\ forall i, j <= i < j' -> accepts (2 ^ i) = false.
Proof.
  revert j. induction fuel as [|fuel IH]; intros j Hj Hf; [lia|]. cbn [probe_cpuset_size].
  destruct (Z.eq_dec j 32) as [->|]; [exists 32; split_and!; [lia.. | done | lia | lia]|].
  assert (Hu : uint 32 (2 ^ j) = 2 ^ j) by (apply uint_small; split; [lia | apply Z.pow_lt_mono_r; lia]).
  rewrite Hu, (proj2 (Z.eqb_neq _ 0)) by (pose proof (pow2_pos j); lia). cbn [negb andb].
  destruct (accepts (2 ^ j)) eqn:Ha; cbn [negb]; [exists j; split_and!; [lia.. | by rewrite Hu | done | lia]|].
  rewrite Z.shiftl_mul_pow2, Z.mul_comm, <- Z.pow_succ_r by lia.
  destruct (IH (Z.succ j) ltac:(lia) ltac:(lia)) as (j' & Hj' & E & Hacc & Hno). exists j'. split_and!; [lia.. | done | done|].
  intros k Hk. destruct (Z.eq_dec k j) as [->|]; [done | apply Hno; lia].
Qed.

(** A kernel for at most 2^30 processors; words of 4 or 8 bytes. *)
Definition machine_ok : Prop := (exists j, 7 <= j <= 27 /\ accepts (2 ^ j) = true) /\ (current_wordsize = 4 \/ current_wordsize = 8).

Lemma get_cpuset_size_small : machine_ok -> exists n, get_cpuset_size accepts = Some n /\ 0 < n <= 2 ^ 27.
Proof.
  intros [(i & Hi & Hacc) _]. unfold get_cpuset_size.
  destruct (probe_cpuset_size_ends 27 7 ltac:(lia) ltac:(lia)) as (j & Hj & E & _ & Hno).
  change (uint 32 (2 ^ 7)) with 128 in E. rewrite E. cbn [mbind option_bind].
  assert (Hji : j <= i). { destruct (Z_le_gt_dec j i); [done|]. rewrite Hno in Hacc by lia. done. }
  pose proof (pow2_pos j ltac:(lia)). pose proof (Z.pow_le_mono_r 2 j 27 ltac:(lia) ltac:(lia)).
  rewrite uint_small by (split; lia). rewrite (proj2 (Z.eqb_neq _ 0)) by lia. exists (2 ^ j). split; [done | lia].
Qed.

Lemma print_affinitylist_value tcp addr len : machine_ok -> 0 <= len < 2 ^ 32 -> IsValue (print_affinitylist accepts tcp addr len).
Proof.
  intros Hm Hlen [f ns] Q H. unfold print_affinitylist. destruct (get_cpuset_size_small Hm) as (n & -> & Hn). cbv zeta.
  destruct (negb (verbose tcp) || _ || _); [by apply printaddr_value|].
  destruct (len =? 0); [wf; apply H|]. destruct (negb (malloc_ok _)); [by apply printaddr_value|].
  apply emits_bind, umoven_or_printaddr_emits; [|apply emits_ret, H]. intros cpu. do 3 wf_step.
  set (size := uint 32 (uint 32 _ / _ * _)).
  assert (Hs : 0 <= size < 2 ^ 28).
  { subst size. destruct Hm as [_ Hw]. destruct Hw as [-> | ->]; rewrite (uint_small 32 (_ - 1)) by (split; lia);
      [pose proof (Z.mul_div_le (Z.min len n + 4 - 1) 4) | pose proof (Z.mul_div_le (Z.min len n + 8 - 1) 8)];
      [pose proof (Z.div_pos (Z.min len n + 4 - 1) 4) | pose proof (Z.div_pos (Z.min len n + 8 - 1) 8)];
      rewrite uint_small by (split; lia); lia. }
  rewrite (uint_small 32 (size * 8)) by (split; lia).
  apply emits_bind, (print_bits_emits _ _ _ _ _ false); [intros; apply _ | lia | lia | lia | lia|].
  intros p. destruct p; wf; apply H.
Qed.

Lemma sys_sched_setaffinity_wf : machine_ok -> well_formed (St := St) (sys_sched_setaffinity accepts) [["pid"; "cpusetsize"; "mask"]].
Proof.
  intros Hm t1 t2 args l1 l2 H1 H2. unfold run_decoder, no_args, sys_sched_setaffinity. cbv zeta.
  repeat lazymatch goal with
         | |- emits (print_affinitylist _ _ _ _) _ _ => apply print_affinitylist_value; [done | by apply (uint_range 32) | intros ?]; norm_state
         | _ => wf_step
         end.
  split; [done | listed].
Qed.
Lemma sys_sched_getaffinity_wf : machine_ok -> well_formed (St := St) (sys_sched_getaffinity accepts) [["pid"; "cpusetsize"; "mask"]].
Proof.
  intros Hm t1 t2 args l1 l2 H1 H2. unfold run_decoder, no_args, sys_sched_getaffinity. cbn [tcb_of]. rewrite H1, H2.
  repeat lazymatch goal with
         | |- emits (print_affinitylist _ _ _ _) _ _ => apply print_affinitylist_value; [done | by apply (uint_range 32) | intros ?]; norm_state
         | _ => wf_step
         end.
  split; [done | listed].
Qed.

(** *** The table *)

Definition select_decoders : list (decoder St) :=
  [mk_decoder "close" sys_close [["fd"]]; mk_decoder "select" sys_select [select_args]; mk_decoder "oldselect" sys_oldselect [select_args; ["arg"]];
   mk_decoder "pselect6_time32" sys_pselect6_time32 [select_args ++ ["sig"]]; mk_decoder "pselect6_time64" sys_pselect6_time64 [select_args ++ ["sig"]];
   mk_decoder "poll_time32" sys_poll_time32 [["fds"; "nfds"; "timeout"]]; mk_decoder "poll_time64" sys_poll_time64 [["fds"; "nfds"; "timeout"]];
   mk_decoder "ppoll_time32" sys_ppoll_time32 [["fds"; "nfds"; "tmo_p"; "sigmask"; "sigsetsize"]];
   mk_decoder "ppoll_time64" sys_ppoll_time64 [["fds"; "nfds"; "tmo_p"; "sigmask"; "sigsetsize"]];
   mk_decoder "sched_setaffinity" (sys_sched_setaffinity accepts) [["pid"; "cpusetsize"; "mask"]];
   mk_decoder "sched_getaffinity" (sys_sched_getaffinity accepts) [["pid"; "cpusetsize"; "mask"]]].

Lemma sys_close_wf : well_formed (St := St) sys_close [["fd"]].
Proof. prove_wf. Qed.

Lemma select_decoders_wf : machine_ok -> Forall wf_decoder select_decoders.
Proof.
  intros Hm. unfold select_decoders, wf_decoder. repeat (apply list.Forall_cons; split); [..|done]; cbn [dec_func dec_args].
  - exact sys_close_wf.
  - exact sys_select_wf.
  - exact sys_oldselect_wf.
  - exact (do_pselect6_wf _ _).
  - exact (do_pselect6_wf _ _).
  - exact (do_poll_wf _).
  - exact (do_poll_wf _).
  - exact (do_ppoll_wf _ _).
  - exact (do_ppoll_wf _ _).
  - exact (sys_sched_setaffinity_wf Hm).
  - exact (sys_sched_getaffinity_wf Hm).
Qed.

(** C38: select, pselect6, poll and ppoll, and the decoders of sets of processors, never
    write outside of the buffer of 1024 bytes in which the comment about ready
    descriptors is made: for all arguments, numbers of descriptors, contents of the sets
    and of the flags, results of the syscall, and times left, every write and the byte
    after the text are in the buffer.  They end, and print by the grammar.  The words of
    the tracee have 4 or 8 bytes and the kernel accepts a set for at most 2^30 processors. *)
Theorem select_poll_in_buffer (d : decoder St) (t1 t2 : tcb) (args : Z -> Z) (l1 l2 : leaves St) (ds : dstate St) :
  machine_ok -> In d select_decoders -> entering t1 = true -> entering t2 = false ->
  exists rv evs ds' s,
    run_decoder (dec_func d) t1 t2 args l1 l2 ds = Some (rv, evs, ds') /\
    steps no_args evs = Some s /\ complete s = true /\ In (names s) (dec_args d).
Proof.
  intros Hm Hd H1 H2. pose proof (proj1 (List.Forall_forall _ _) (select_decoders_wf Hm) d Hd t1 t2 args l1 l2 H1 H2 ds) as H.
  destruct (run_decoder _ _ _ _ _ _ ds) as [[[rv evs] ds']|]; [|done].
  destruct (steps no_args evs) as [s|] eqn:E; [|done]. destruct H. exists rv, evs, ds', s. by split_and!.
Qed.
End grammar.

(** ** What select shows as ready *)

Section shown.
Context {St : Type} {G : Globals}.

(** The members of a set from [j] on. *)
Definition members (fds : list Z) (j n : Z) : list Z := List.filter (bit_at fds pos_xor_mask) (seqZ j (n - j)).

Lemma members_end fds j n : (forall b, j <= b < n -> bit_at fds pos_xor_mask b = false) -> members fds j n = [].
Proof.
  intros H. unfold members. destruct (List.filter _ _) as [|b l] eqn:E; [done|].
  assert (Hb : In b (List.filter (bit_at fds pos_xor_mask) (seqZ j (n - j)))) by (rewrite E; by left).
  apply filter_In in Hb as [Hin Hb]. apply list_elem_of_In, elem_of_seqZ in Hin. rewrite H in Hb by lia. done.
Qed.
Lemma members_first fds j b n : j <= b < n -> bit_at fds pos_xor_mask b = true ->
  (forall i, j <= i < b -> bit_at fds pos_xor_mask i = false) -> members fds j n = b :: members fds (b + 1) n.
Proof.
  intros Hb Ht Hf. unfold members. replace (n - j) with ((b - j) + (n - b)) by lia. rewrite seqZ_app, List.filter_app by lia.
  replace (List.filter _ (seqZ j (b - j))) with ([] : list Z) by (symmetry; apply (members_end fds j b Hf)).
  replace (j + (b - j)) with b by lia. rewrite app_nil_l, seqZ_cons by lia. cbn [List.filter]. rewrite Ht.
  replace (Z.succ b) with (b + 1) by lia. replace (Z.pred (n - b)) with (n - (b + 1)) by lia. done.
Qed.

Lemma members_next fds j n b l : 0 <= j -> 0 <= n < 2 ^ 31 -> members fds j n = b :: l -> j <= b < n /\ l = members fds (b + 1) n.
Proof.
  intros Hj Hn. destruct (next_set_bit_spec fds pos_xor_mask j n Hj Hn) as (r & _ & Hr).
  destruct Hr as [[-> Hr] | (Hr & Ht & Hf)]; [by rewrite (members_end fds j n Hr)|].
  rewrite (members_first fds j r n Hr Ht Hf). intros [= <- <-]. done.
Qed.

(** The search gives the first member. *)
Lemma find_bit_members fds j n (d : dstate St) : 0 <= j -> 0 <= n < 2 ^ 31 ->
  find_bit fds j n d = Some (default (-1) (head (members fds j n)), [], d).
Proof.
  intros Hj Hn. unfold find_bit. destruct (next_set_bit_spec fds pos_xor_mask j n Hj Hn) as (r & -> & Hr).
  destruct Hr as [[-> Hr] | (Hr & Ht & Hf)]; [by rewrite (members_end fds j n Hr) | by rewrite (members_first fds j r n Hr Ht Hf)].
Qed.

Definition member_text (b : Z) : text := codes " " ++ codes (pretty b).
Definition members_text (l : list Z) : text := concat (map member_text l).

Lemma member_text_length b : 0 <= b < 2 ^ 20 -> lenZ (member_text b) <= 8.
Proof. intros Hb. unfold member_text. rewrite lenZ_app. change (lenZ (codes " ")) with 1. pose proof (pretty_length 7 b ltac:(lia)). lia. Qed.

(** The members after the first one, with room for all of them. *)
Lemma ready_bits_rest fuel fds nfds i j r (d : dstate St) : 0 <= j -> 0 <= nfds <= 2 ^ 20 -> nfds - j < Z.of_nat fuel -> 0 < Z.of_nat fuel ->
  lenZ (r_out r) + 8 * lenZ (members fds j nfds) < 990 -> lenZ (members fds j nfds) <= r_left r -> 0 < r_left r ->
  ready_bits fuel fds nfds i j false r d =
    Some (mk_ready (r_out r ++ members_text (members fds j nfds)) (r_sep r) (r_left r - lenZ (members fds j nfds)), [], d).
Proof.
  intros Hj Hn Hf H0. revert j r Hj Hf H0. induction fuel as [|fuel IH]; intros j r Hj Hf H0 Hroom Hleft Hpos; [lia|]. cbn [ready_bits].
  pose proof (find_bit_members fds j nfds d Hj ltac:(lia)) as Hfind. pose proof (fun b l => members_next fds j nfds b l Hj ltac:(lia)) as Hnext. rewrite (after_bind _ _ _ _ _ _ Hfind), after_nil.
  destruct (members fds j nfds) as [|b l] eqn:El; [change (default (-1) (head [])) with (-1) | change (default (-1) (head (b :: l))) with b].
  { cbn. rewrite app_nil_r, Z.sub_0_r. by destruct r. }
  destruct (Hnext b l eq_refl) as [Hb ->]. rewrite (proj2 (Z.ltb_ge b 0)) by lia. rewrite lenZ_cons in *.
  pose proof (lenZ_nonneg (members fds (b + 1) nfds)). pose proof (member_text_length b ltac:(lia)) as Hlb.
  rewrite (after_bind _ _ d (mk_ready (r_out r ++ member_text b) (r_sep r) (r_left r), false) [] d), after_nil.
  2: { unfold ready_fd. rewrite (proj2 (Z.ltb_lt _ _)) by (unfold outstr_room; lia).
       rewrite (after_bind _ _ d (r_out r ++ member_text b) [] d); [done|]. unfold append_str, stpcpy. fold (member_text b).
       rewrite (proj2 (Z.ltb_lt _ _)) by (unfold outstr_room; lia). done. }
  cbv zeta. cbn [r_out r_sep r_left]. destruct (Z.eqb_spec (r_left r - 1) 0) as [E|E].
  - assert (Hnil : members fds (b + 1) nfds = []) by (destruct (members fds (b + 1) nfds); [done|]; rewrite lenZ_cons in *; pose proof (lenZ_nonneg l); lia).
    rewrite Hnil. unfold members_text. cbn [map concat]. rewrite app_nil_r. change (lenZ ([] : list Z)) with 0. by rewrite Z.add_0_r.
  - rewrite (IH (b + 1)); cbn [r_out r_sep r_left]; [| lia.. | rewrite lenZ_app; lia | lia | lia].
    unfold members_text. cbn [map concat]. rewrite <- app_assoc. by replace (r_left r - 1 - lenZ (members fds (b + 1) nfds)) with (r_left r - (1 + lenZ (members fds (b + 1) nfds))) by lia.
Qed.

(** A set, as it is shown: its name and its members in brackets. *)
Definition set_text (i : Z) (l : list Z) : text :=
  match l with [] => [] | b :: l => set_name i ++ codes " [" ++ codes (pretty b) ++ members_text l ++ [93] end.

Section sets.
Variables (tcp : dtcb St) (args : Z -> Z) (nfds fdsize : Z).
Hypothesis nfds_range : 0 <= nfds <= 2 ^ 20.
Hypothesis allocated : malloc_ok fdsize = true.

(** The [i]-th set has the members [l], or there is no set. *)
Definition set_is (i : Z) (s : option (list Z)) : Prop :=
  match s with
  | None => args (i + 1) = 0
  | Some l => args (i + 1) <> 0 /\ exists fds, (forall st, lf_umoven (leaf tcp) (args (i + 1)) fdsize st = (Some fds, st)) /\ members fds 0 nfds = l
  end.
Definition count (s : option (list Z)) : Z := match s with Some l => lenZ l | None => 0 end.
Definition shown (i : Z) (s : option (list Z)) : list text := match s with Some (b :: l) => [set_text i (b :: l)] | _ => [] end.

(** The state of the loop when [ts] is shown and [left] descriptors are left. *)
Definition showing (ts : list text) (left : Z) : ready := mk_ready (joined ts) (if ts is [] then [] else codes ", ") left.

Lemma showing_snoc ts x left : showing (ts ++ [x]) left = mk_ready (joined ts ++ r_sep (showing ts left) ++ x) (codes ", ") left.
Proof.
  unfold showing. cbn [r_sep]. destruct ts as [|t ts]; [cbn; by rewrite app_nil_r|]. by rewrite joined_snoc by done.
Qed.
Lemma members_text_length fds j n : 0 <= j -> n <= 2 ^ 20 -> lenZ (members_text (members fds j n)) <= 8 * lenZ (members fds j n).
Proof.
  intros Hj Hn. assert (Hr : Forall (fun b => 0 <= b < 2 ^ 20) (members fds j n)).
  { apply List.Forall_forall. intros b [Hb _]%filter_In. apply list_elem_of_In, elem_of_seqZ in Hb. lia. }
  unfold members_text. induction Hr as [|b l Hb _ IH]; [done|]. cbn [map concat]. rewrite lenZ_app, lenZ_cons.
  pose proof (member_text_length b Hb). lia.
Qed.

Lemma fetch_set i l fds r (d : dstate St) : args (i + 1) <> 0 -> (forall st, lf_umoven (leaf tcp) (args (i + 1)) fdsize st = (Some fds, st)) ->
  members fds 0 nfds = l -> 0 < r_left r ->
  ready_set tcp args nfds fdsize i r d =
    (r ← ready_bits (S (Z.to_nat nfds)) fds nfds i 0 true r;
     if bool_decide (r_out r = []) then mret r else out ← put 93 (r_out r); mret (mk_ready out (r_sep r) (r_left r))) d.
Proof.
  intros Ha Hf Hl Hleft. unfold ready_set. rewrite (proj2 (Z.ltb_lt _ _) Hleft), (proj2 (Z.eqb_neq _ _) Ha), allocated. cbn [orb negb].
  rewrite (after_bind _ _ d (Some fds) [] d); [apply after_nil|]. unfold umoven, lift. rewrite Hf. by destruct d.
Qed.

(** An empty set leaves the members as they are; a bracket is added if there is a text. *)
Lemma ready_set_empty i ts left (d : dstate St) : set_is i (Some []) -> 0 < left -> lenZ (joined ts) < 1000 ->
  ready_set tcp args nfds fdsize i (showing ts left) d =
    Some (mk_ready (joined ts ++ (if bool_decide (joined ts = []) then [] else [93])) (r_sep (showing ts left)) left, [], d).
Proof.
  intros (Ha & fds & Hf & Hm) Hleft Hroom. rewrite (fetch_set i [] fds (showing ts left) d Ha Hf Hm Hleft).
  rewrite (after_bind _ _ d (showing ts left) [] d), after_nil.
  2: { cbn [ready_bits]. pose proof (find_bit_members fds 0 nfds d ltac:(lia) ltac:(lia)) as Hfind. rewrite (after_bind _ _ _ _ _ _ Hfind), Hm. done. }
  cbn [showing r_out r_sep r_left]. case_bool_decide as E; [by rewrite app_nil_r|].
  rewrite (after_bind _ _ d (joined ts ++ [93]) [] d); [done|]. unfold put. by rewrite (proj2 (Z.ltb_lt _ _)) by (unfold outstr_room; lia).
Qed.

(** A set with members is added. *)
Lemma ready_set_members i b l ts left (d : dstate St) : set_is i (Some (b :: l)) -> 1 + lenZ l <= left ->
  lenZ (joined ts) + 8 * (1 + lenZ l) < 950 ->
  ready_set tcp args nfds fdsize i (showing ts left) d = Some (showing (ts ++ [set_text i (b :: l)]) (left - (1 + lenZ l)), [], d).
Proof.
  intros (Ha & fds & Hf & Hm) Hleft Hroom. pose proof (lenZ_nonneg l). rewrite (fetch_set i _ fds _ d Ha Hf Hm) by (cbn [showing r_left]; lia).
  pose proof (set_name_length i) as Hname. pose proof (lenZ_nonneg (joined ts)).
  pose proof (find_bit_members fds 0 nfds d ltac:(lia) ltac:(lia)) as Hfind. rewrite Hm in Hfind.
  destruct (members_next fds 0 nfds b l ltac:(lia) ltac:(lia) Hm) as [Hb Hl]. pose proof (pretty_length 7 b ltac:(lia) ltac:(lia)) as Hp.
  set (sep := r_sep (showing ts left)). assert (Hsep : lenZ sep <= 2) by (subst sep; destruct ts; done).
  set (start := joined ts ++ sep ++ set_name i ++ codes " [" ++ codes (pretty b)).
  assert (Hstart : lenZ start <= lenZ (joined ts) + 17) by (subst start; rewrite !lenZ_app; change (lenZ (codes " [")) with 2; lia).
  rewrite (after_bind _ _ d (mk_ready (start ++ members_text l) (codes ", ") (left - (1 + lenZ l))) [] d), after_nil.
  2: { cbn [ready_bits]. rewrite (after_bind _ _ _ _ _ _ Hfind), after_nil. change (default (-1) (head (b :: l))) with b.
       rewrite (proj2 (Z.ltb_ge b 0)) by lia. rewrite (after_bind _ _ d (mk_ready start (codes ", ") left, false) [] d), after_nil.
       2: { unfold ready_fd. cbn [showing r_out r_left]. rewrite (proj2 (Z.ltb_lt _ _)) by (unfold outstr_room; lia).
            rewrite (after_bind _ _ d start [] d); [done|]. unfold append_str, stpcpy. rewrite <- lenZ_app.
            rewrite (proj2 (Z.ltb_lt _ _)) by (fold sep start; unfold outstr_room; lia). done. }
       cbv zeta. cbn [r_out r_sep r_left]. destruct (Z.eqb_spec (left - 1) 0) as [E|E].
       - assert (Hnil : l = []) by (destruct l; [done|]; rewrite lenZ_cons in *; pose proof (lenZ_nonneg l); lia).
         rewrite Hnil. unfold members_text. cbn [map concat]. rewrite app_nil_r. change (lenZ ([] : list Z)) with 0. by rewrite Z.add_0_r.
       - rewrite ready_bits_rest; cbn [r_out r_sep r_left]; rewrite <- ?Hl; [|lia..].
         by replace (left - 1 - lenZ l) with (left - (1 + lenZ l)) by lia. }
  cbn [r_out r_sep r_left]. assert (Hmt : lenZ (members_text l) <= 8 * lenZ l) by (rewrite Hl; apply members_text_length; lia).
  rewrite bool_decide_eq_false_2.
  2: { intros E%(f_equal lenZ). subst start. rewrite !lenZ_app in E. change (lenZ (codes " [")) with 2 in E.
       change (lenZ ([] : text)) with 0 in E. 
       pose proof (lenZ_nonneg sep). pose proof (lenZ_nonneg (set_name i)). pose proof (lenZ_nonneg (codes (pretty b))).
       pose proof (lenZ_nonneg (members_text l)). lia. }
  rewrite (after_bind _ _ d (start ++ members_text l ++ [93]) [] d).
  2: { unfold put. rewrite lenZ_app, (proj2 (Z.ltb_lt _ _)) by (unfold outstr_room; lia). by rewrite <- app_assoc. }
  rewrite showing_snoc. fold sep. subst start. unfold set_text. by rewrite <- !app_assoc.
Qed.

Lemma set_text_length i s : set_is i s -> lenZ (joined (shown i s)) <= 8 + 8 * count s /\ 0 <= count s.
Proof.
  destruct s as [[|b l]|]; [done | | done]. intros (_ & fds & _ & Hm). cbn [shown count joined map concat]. rewrite app_nil_r. unfold set_text.
  destruct (members_next fds 0 nfds b l ltac:(lia) ltac:(lia) Hm) as [Hb Hl]. rewrite !lenZ_app. change (lenZ (codes " [")) with 2. change (lenZ [93]) with 1. rewrite lenZ_cons.
  pose proof (set_name_length i). pose proof (pretty_length 7 b ltac:(lia) ltac:(lia)). pose proof (lenZ_nonneg l).
  assert (lenZ (members_text l) <= 8 * lenZ l) by (rewrite Hl; apply members_text_length; lia). lia.
Qed.

Lemma joined_shown ts i s : set_is i s -> lenZ (joined (ts ++ shown i s)) <= lenZ (joined ts) + 10 + 8 * count s.
Proof.
  intros Hs. destruct (set_text_length i s Hs) as [Hl Hc]. pose proof (lenZ_nonneg (joined ts)).
  destruct s as [[|b l]|]; cbn [shown] in *; [rewrite app_nil_r; lia | | rewrite app_nil_r; lia].
  destruct ts as [|t ts]; [cbn [app]; change (lenZ (joined [])) with 0 in *; lia|]. rewrite joined_snoc, !lenZ_app by done.
  cbn [joined map concat] in Hl. rewrite app_nil_r in Hl. change (lenZ (codes ", ")) with 2. cbn [joined] in *. lia.
Qed.

Lemma ready_set_shown i s ts left (d : dstate St) : set_is i s -> count s <= left ->
  (s = Some [] -> ts = [] \/ left = 0) -> lenZ (joined ts) + 8 * count s < 950 ->
  ready_set tcp args nfds fdsize i (showing ts left) d = Some (showing (ts ++ shown i s) (left - count s), [], d).
Proof.
  intros Hs Hle Hempty Hroom. destruct s as [[|b l]|]; cbn [shown count] in *.
  - change (lenZ ([] : list Z)) with 0 in *. rewrite app_nil_r, Z.sub_0_r. destruct (Z.eq_dec left 0) as [->|Hn].
    { unfold ready_set. done. }
    destruct (Hempty eq_refl) as [->|]; [|done]. rewrite ready_set_empty by (done || lia). done.
  - rewrite lenZ_cons in *. apply ready_set_members; [done | lia | lia].
  - rewrite app_nil_r, Z.sub_0_r. unfold ready_set. cbn [showing r_left]. destruct (0 <? left); [|done].
    cbv zeta. cbn in Hs. rewrite Hs. cbn [Z.eqb orb]. rewrite after_ret. done.
Qed.

(** The text after the sets: the time that is left. *)
Definition left_text (str : text) : list text := if args 4 =? 0 then [] else [codes "left " ++ str].
Definition with_auxstr (t : text) (d : dstate St) : dstate St := mk_d (d_st d) (d_priv d) (Some t) (d_rval d) (d_data d).

Lemma select_exiting_left sprint str ts out sep (d : dstate St) :
  (forall st, exists rc, lf_other (leaf tcp) sprint [args 4] st = (str, rc, st)) -> lenZ str <= 64 -> lenZ out <= 900 -> lenZ sep <= 2 ->
  out ++ (if args 4 =? 0 then [] else sep ++ codes "left " ++ str) = ts ->
  (out ← (if negb (args 4 =? 0) then
            str ← sprint_other tcp sprint (args 4);
            if lenZ out + 6 + lenZ sep + lenZ str <? outstr_room then append_str out (sep ++ codes "left " ++ str) else mret out
          else mret out);
   end_str out ;; set_auxstr (Some out) ;; mret RVAL_STR) d = Some (RVAL_STR, [], with_auxstr ts d).
Proof.
  intros Hstr Hl Ho Hs <-. pose proof (lenZ_nonneg str). pose proof (lenZ_nonneg sep).
  assert (Hend : forall t, lenZ t < outstr_room -> (end_str (St := St) t ;; set_auxstr (Some t) ;; mret RVAL_STR) d = Some (RVAL_STR, [], with_auxstr t d)).
  { intros t Ht. unfold end_str. rewrite (proj2 (Z.ltb_lt _ _) Ht). done. }
  destruct (args 4 =? 0); cbn [negb].
  - rewrite after_ret, app_nil_r. apply Hend. unfold outstr_room. lia.
  - rewrite (after_bind _ _ d (out ++ sep ++ codes "left " ++ str) [] d), after_nil.
    + apply Hend. rewrite !lenZ_app. change (lenZ (codes "left ")) with 5. unfold outstr_room. lia.
    + rewrite (after_bind _ _ d str [] d), after_nil.
      * rewrite (proj2 (Z.ltb_lt _ _)) by (unfold outstr_room; lia). unfold append_str, stpcpy. rewrite !lenZ_app.
        change (lenZ (codes "left ")) with 5. by rewrite (proj2 (Z.ltb_lt _ _)) by (unfold outstr_room; lia).
      * unfold sprint_other. destruct (Hstr (d_st d)) as [rc E]. rewrite (after_bind _ _ d (str, rc) [] d); [done|]. unfold lift. rewrite E. by destruct d.
Qed.

(** All three sets. *)
Lemma select_exiting_shown sprint str s0 s1 s2 (d : dstate St) :
  syserror tcp = false -> set_is 0 s0 -> set_is 1 s1 -> set_is 2 s2 ->
  int (u_rval tcp) = count s0 + count s1 + count s2 -> 0 < int (u_rval tcp) <= 100 ->
  (s1 = Some [] -> count s0 = 0 \/ count s2 = 0) ->
  (forall st, exists rc, lf_other (leaf tcp) sprint [args 4] st = (str, rc, st)) -> lenZ str <= 64 ->
  select_exiting tcp args nfds fdsize sprint d =
    Some (RVAL_STR, [], with_auxstr (joined (shown 0 s0 ++ shown 1 s1 ++ shown 2 s2 ++ left_text str)) d).
Proof.
  intros Hsys H0 H1 H2 Hsum Hpos Hgap Hstr Hlen. unfold select_exiting. rewrite Hsys. cbv zeta.
  rewrite (proj2 (Z.eqb_neq (int (u_rval tcp)) 0)) by lia.
  pose proof (set_text_length 0 s0 H0) as [_ C0]. pose proof (set_text_length 1 s1 H1) as [_ C1]. pose proof (set_text_length 2 s2 H2) as [_ C2].
  pose proof (joined_shown [] 0 s0 H0) as L0. pose proof (joined_shown ([] ++ shown 0 s0) 1 s1 H1) as L1.
  pose proof (joined_shown (([] ++ shown 0 s0) ++ shown 1 s1) 2 s2 H2) as L2. change (lenZ (joined [])) with 0 in L0.
  assert (G1 : s1 = Some [] -> [] ++ shown 0 s0 = [] \/ int (u_rval tcp) - count s0 = 0).
  { intros E. destruct (Hgap E) as [E0|E2]; [left | right; rewrite Hsum, E, E2; change (count (Some [])) with 0; lia].
    destruct s0 as [[|b l]|]; [done | | done]. cbn [count] in E0. rewrite lenZ_cons in E0. pose proof (lenZ_nonneg l). lia. }
  assert (G2 : s2 = Some [] -> ([] ++ shown 0 s0) ++ shown 1 s1 = [] \/ int (u_rval tcp) - count s0 - count s1 = 0).
  { intros E. right. rewrite Hsum, E. change (count (Some [])) with 0. lia. }
  rewrite (after_bind _ _ _ _ _ _ (ready_set_shown 0 s0 [] (int (u_rval tcp)) d H0 ltac:(lia) ltac:(by left) ltac:(change (lenZ (joined [])) with 0; lia))), after_nil.
  rewrite (after_bind _ _ _ _ _ _ (ready_set_shown 1 s1 ([] ++ shown 0 s0) (int (u_rval tcp) - count s0) d H1 ltac:(lia) G1 ltac:(lia))), after_nil.
  rewrite (after_bind _ _ _ _ _ _ (ready_set_shown 2 s2 (([] ++ shown 0 s0) ++ shown 1 s1) (int (u_rval tcp) - count s0 - count s1) d H2 ltac:(lia) G2 ltac:(lia))), after_nil.
  set (ts := ([] ++ shown 0 s0) ++ shown 1 s1) in *. cbn [showing r_out r_sep].
  apply (select_exiting_left sprint str); [done | done | lia | by destruct (ts ++ shown 2 s2) |].
  subst ts. unfold left_text. rewrite app_nil_l. rewrite !app_assoc.
  destruct (args 4 =? 0); [by rewrite !app_nil_r|]. set (all := (shown 0 s0 ++ shown 1 s1) ++ shown 2 s2).
  destruct all as [|t all']; [cbn; by rewrite app_nil_r|]. by rewrite joined_snoc by done.
Qed.

(** The middle set is empty, the others are not. *)
Lemma select_exiting_gap sprint str l0 l2 (d : dstate St) :
  syserror tcp = false -> set_is 0 (Some l0) -> set_is 1 (Some []) -> set_is 2 (Some l2) -> l0 <> [] -> l2 <> [] ->
  int (u_rval tcp) = lenZ l0 + lenZ l2 -> int (u_rval tcp) <= 100 ->
  (forall st, exists rc, lf_other (leaf tcp) sprint [args 4] st = (str, rc, st)) -> lenZ str <= 64 ->
  select_exiting tcp args nfds fdsize sprint d =
    Some (RVAL_STR, [], with_auxstr (joined ([set_text 0 l0 ++ codes "]"; set_text 2 l2] ++ left_text str)) d).
Proof.
  intros Hsys H0 H1 H2 N0 N2 Hsum Hmax Hstr Hlen. unfold select_exiting. rewrite Hsys. cbv zeta.
  destruct l0 as [|b0 l0]; [done|]. destruct l2 as [|b2 l2]; [done|]. rewrite !lenZ_cons in *.
  pose proof (lenZ_nonneg l0). pose proof (lenZ_nonneg l2). rewrite (proj2 (Z.eqb_neq (int (u_rval tcp)) 0)) by lia.
  pose proof (joined_shown [] 0 _ H0) as L0. pose proof (joined_shown [set_text 0 (b0 :: l0) ++ codes "]"] 2 _ H2) as L2.
  cbn [shown app] in L0, L2. cbn [count] in L0, L2. rewrite lenZ_cons in L0, L2. change (lenZ (joined [])) with 0 in L0.
  assert (Hj : joined [set_text 0 (b0 :: l0) ++ codes "]"] = joined [set_text 0 (b0 :: l0)] ++ codes "]") by (cbn [joined map concat]; by rewrite !app_nil_r).
  assert (Lj : lenZ (joined [set_text 0 (b0 :: l0) ++ codes "]"]) = lenZ (joined [set_text 0 (b0 :: l0)]) + 1) by (by rewrite Hj, lenZ_app).
  rewrite (after_bind _ _ _ _ _ _ (ready_set_members 0 b0 l0 [] (int (u_rval tcp)) d H0 ltac:(lia) ltac:(change (lenZ (joined [])) with 0; lia))), after_nil.
  cbn [app]. rewrite (after_bind _ _ _ _ _ _ (ready_set_empty 1 [set_text 0 (b0 :: l0)] (int (u_rval tcp) - (1 + lenZ l0)) d H1 ltac:(lia) ltac:(lia))), after_nil.
  rewrite bool_decide_eq_false_2.
  2: { cbn [joined map concat]. rewrite app_nil_r. unfold set_text. by destruct (set_name 0) eqn:E. }
  rewrite <- (Hj : _ = _ ++ [93]).
  rewrite (after_bind _ _ _ _ _ _ (ready_set_members 2 b2 l2 [set_text 0 (b0 :: l0) ++ codes "]"] (int (u_rval tcp) - (1 + lenZ l0)) d H2 ltac:(lia) ltac:(lia))), after_nil.
  cbn [app showing r_out r_sep].
  apply (select_exiting_left sprint str); [done | done | lia | done |].
  unfold left_text. destruct (args 4 =? 0); [by rewrite !app_nil_r|].
  symmetry. exact (joined_snoc [set_text 0 (b0 :: l0) ++ codes "]"; set_text 2 (b2 :: l2)] (codes "left " ++ str) ltac:(done)).
Qed.
End sets.

(** The exit of a select whose sets are [s0], [s1] and [s2], with [str] as the time left. *)
Record select_exit (tcp : dtcb St) (s0 s1 s2 : option (list Z)) (str : text) : Prop := {
  se_exit : entering tcp = false /\ syserror tcp = false;
  se_alloc : malloc_ok (fd_set_size (select_nfds (u_arg tcp 0))) = true;
  se_sets : let nfds := select_nfds (u_arg tcp 0) in
    set_is tcp (u_arg tcp) nfds (fd_set_size nfds) 0 s0 /\ set_is tcp (u_arg tcp) nfds (fd_set_size nfds) 1 s1 /\
    set_is tcp (u_arg tcp) nfds (fd_set_size nfds) 2 s2;
  se_ready : int (u_rval tcp) = count s0 + count s1 + count s2 /\ 0 < int (u_rval tcp) <= 100;
  se_left : (forall st, exists rc, lf_other (leaf tcp) "sprint_timeval" [u_arg tcp 4] st = (str, rc, st)) /\ lenZ str <= 64 }.


(** If the second set was given and is empty while the first and the third have
    members, a bracket without an opening one is printed after the first set. *)
Theorem select_stray_bracket (tcp : dtcb St) (l0 l2 : list Z) (str : text) (d : dstate St) :
  select_exit tcp (Some l0) (Some []) (Some l2) str -> l0 <> [] -> l2 <> [] ->
  sys_select tcp d =
    Some (RVAL_STR, [], with_auxstr (joined ([set_text 0 l0 ++ codes "]"; set_text 2 l2] ++ left_text (u_arg tcp) str)) d).
Proof.
  intros [[He Hs] Ha (H0 & H1 & H2) [Hsum Hpos] [Hstr Hlen]] N0 N2. unfold sys_select, decode_select. rewrite He. cbv zeta. cbn [count] in Hsum.
  change (lenZ ([] : list Z)) with 0 in Hsum. apply select_exiting_gap; [apply select_nfds_range | done..| lia | lia | done | done].
Qed.
End shown.

(** ** Concrete calls *)

(** Descriptors below 8; the sets are at 4096, 8192 and 12288. *)
Definition select_memory (r w e : Z) : leaves () :=
  {| lf_umoven := fun a _ st => (Some ((if a =? 4096 then r else if a =? 8192 then w else e) :: replicate 7 0), st);
     lf_printstr_ex := lf_printstr_ex demo_leaves; lf_printpathn := lf_printpathn demo_leaves;
     lf_print_nonzero_bytes := lf_print_nonzero_bytes demo_leaves; lf_printfd := lf_printfd demo_leaves;
     lf_printpid := lf_printpid demo_leaves; lf_other := lf_other demo_leaves |}.
Definition select_tcp (rv r w e : Z) : dtcb () :=
  mk_dtcb () (Tcb.set_u_rval rv (set_qual_flg QUAL_VERBOSE on_exit))
    (fun i => if i =? 0 then 8 else if i =? 1 then 4096 else if i =? 2 then 8192 else if i =? 3 then 12288 else 16384) (select_memory r w e).

Example select_text : @sys_select () demo_globals (select_tcp 3 40 2 0) demo_state =
  Some (RVAL_STR, [], with_auxstr (codes "in [3 5], out [1], left v") demo_state).
Proof. vm_compute. reflexivity. Qed.
Example stray_bracket_text : @sys_select () demo_globals (select_tcp 2 8 0 32) demo_state =
  Some (RVAL_STR, [], with_auxstr (codes "in [3]], except [5], left v") demo_state).
Proof. vm_compute. reflexivity. Qed.

Lemma select_poll_in_buffer_witness :
  exists rv evs ds' s,
    run_decoder (@sys_select () demo_globals) decoding on_exit (fun i => 4096 + i) demo_leaves demo_leaves demo_state = Some (rv, evs, ds') /\
    steps no_args evs = Some s /\ complete s = true /\ In (names s) [["nfds"; "readfds"; "writefds"; "exceptfds"; "timeout"]].
Proof.
  apply (@select_poll_in_buffer () demo_globals (fun n => 128 <=? n)
           (mk_decoder "select" (@sys_select () demo_globals) [["nfds"; "readfds"; "writefds"; "exceptfds"; "timeout"]]));
    [split; [exists 7; split; [lia | reflexivity] | right; reflexivity] | right; left; reflexivity | reflexivity | reflexivity].
Defined.

Lemma select_exit_demo rv r w e l0 l1 l2 :
  @members demo_globals (r :: replicate 7 0) 0 8 = l0 -> @members demo_globals (w :: replicate 7 0) 0 8 = l1 ->
  @members demo_globals (e :: replicate 7 0) 0 8 = l2 -> int rv = lenZ l0 + lenZ l1 + lenZ l2 -> 0 < int rv <= 100 ->
  @select_exit () demo_globals (select_tcp rv r w e) (Some l0) (Some l1) (Some l2) (codes "v").
Proof.
  intros H0 H1 H2 Hsum Hpos. split; [done | done | | done | split; [intros st; by exists 0 | by vm_compute]].
  cbv zeta. split_and!; (split; [by vm_compute|]); eexists; (split; [intros st; reflexivity|]); assumption.
Qed.


Lemma select_stray_bracket_witness :
  @sys_select () demo_globals (select_tcp 2 8 0 32) demo_state =
    Some (RVAL_STR, [], with_auxstr (joined ([set_text 0 [3] ++ codes "]"; set_text 2 [5]] ++
                                             left_text (u_arg (select_tcp 2 8 0 32)) (codes "v"))) demo_state).
Proof.
  apply (@select_stray_bracket () demo_globals (select_tcp 2 8 0 32) [3] [5] (codes "v"));
    [apply select_exit_demo; vm_compute; try reflexivity; split; congruence | discriminate | discriminate].
Defined.
