(* ===== verification/Qualify.v ===== *)
(** * Qualifiers (src/filter_qualify.c, [parse_ts] of src/util.c)

    The arguments of -e: sets of syscalls, descriptors, signals and the like,
    and the expressions of fault injection with their tokens when=, error=,
    retval=, signal=, syscall=, delay_*= and poke_*=.  The variables of
    filter_qualify.c and the tables of injected values form the state; a fatal
    error is [Die]. *)

From stdpp Require Import gmap pretty.
From Stdlib Require Import Ascii.
From S2P Require Import Prelude NumberSet Wait Util Xlat Filters Arena Tcb Syscall.
Open Scope Z_scope.

(** ** Strings *)

(** [strncasecmp (s, "SIG", 3) == 0] and the rest. *)
Fixpoint strip_prefix_case (prefix s : string) : option string :=
  match prefix, s with
  | EmptyString, _ => Some s
  | String a p', String b s' => if Ascii.eqb (lower a) (lower b) then strip_prefix_case p' s' else None
  | _, EmptyString => None
  end.

Fixpoint strspn (s accept : string) : Z :=
  match s with
  | String c s' => if strchr accept c then 1 + strspn s' accept else 0
  | EmptyString => 0
  end.

(** *** Numbers in other bases *)

Definition hex_value (c : ascii) : option Z :=
  let k := code_of c in
  if is_digit c then Some (k - 48)
  else if (97 <=? k) && (k <=? 102) then Some (k - 87)
  else if (65 <=? k) && (k <=? 70) then Some (k - 55) else None.

(** Digits of the base at the start of [s]. *)
Fixpoint take_base (base : Z) (s : string) (acc : Z) : Z * string :=
  match s with
  | String c s' =>
      match hex_value c with
      | Some d => if d <? base then take_base base s' (base * acc + d) else (acc, s)
      | None => (acc, s)
      end
  | EmptyString => (acc, s)
  end.

Definition is_base_digit (base : Z) (s : string) : bool :=
  match s with
  | String c _ => match hex_value c with Some d => d <? base | None => false end
  | EmptyString => false
  end.

Definition ULLONG_MAX : Z := 2 ^ 64 - 1.

(** [strtoull (s, &end, 0)]: the value, the rest, whether [errno] is set; [None]
    when there is no number. *)
Definition strtoull0 (s : string) : option (Z * string * bool) :=
  let s1 := skip_spaces s in
  let '(neg, s2) := match s1 with
                    | String c s' => if Ascii.eqb c "-" then (true, s')
                                     else if Ascii.eqb c "+" then (false, s') else (false, s1)
                    | EmptyString => (false, s1)
                    end in
  let conv base s :=
    let '(v, e) := take_base base s 0 in
    if ULLONG_MAX <? v then Some (ULLONG_MAX, e, true)
    else Some ((if neg : bool then uint 64 (- v) else v), e, false) in
  match s2 with
  | String c0 s3 =>
      if Ascii.eqb c0 "0" then
        match s3 with
        | String c1 s4 => if Ascii.eqb (lower c1) "x" && is_base_digit 16 s4 then conv 16 s4 else conv 8 s2
        | EmptyString => conv 8 s2
        end
      else if is_digit c0 then conv 10 s2 else None
  | EmptyString => None
  end.

(** [sscanf (s, "%2hhx", &byte) == 1], and the byte: at most two characters of a
    hexadecimal number after white space, with an optional sign; the text "0x"
    is read as 0. *)
Definition sscanf_2hhx (s : string) : option Z :=
  let s1 := skip_spaces s in
  let '(neg, width, s2) := match s1 with
    | String c s' => if Ascii.eqb c "-" then (true, 1%nat, s')
                     else if Ascii.eqb c "+" then (false, 1%nat, s') else (false, 2%nat, s1)
    | EmptyString => (false, 2%nat, s1)
    end in
  v ← match s2 with
      | String c0 s3 =>
          d0 ← hex_value c0;
          match width, s3 with
          | 2%nat, String c1 _ => match hex_value c1 with
                                  | Some d1 => Some (16 * d0 + d1)
                                  | None => Some d0
                                  end
          | _, _ => Some d0
          end
      | EmptyString => None
      end;
  Some (uint 8 (if neg : bool then - v else v)).

(** ** Time values *)


Definition units : list xlat_data :=
  [mk_xd (Z.lor 1000000000 (Z.shiftl 0 32)) (Some "s"); mk_xd (Z.lor 1000000 (Z.shiftl 3 32)) (Some "ms");
   mk_xd (Z.lor 1000 (Z.shiftl 6 32)) (Some "us"); mk_xd (Z.lor 1 (Z.shiftl 9 32)) (Some "ns")].

(** [str2timescale_ex] for an argument that is given, without [width]. *)
Definition str2timescale_ex (arg : string) (empty_dflt : Z) : Z :=
  match arg with
  | EmptyString => empty_dflt
  | _ => sint 32 (Z.land (find_arg_val arg units (uint 64 (-1))) 0xffffffff)
  end.
Definition str2timescale_sfx (arg : string) : Z := str2timescale_ex arg 1000.

(** Build-time tables and values parsed with floating point, which is not
    modelled. *)
Class QualifyTables := {
  signame : Z -> option string;
  errnoent : list (option string);
  parse_ts_float : string -> option timespec;
  malloc_ok : Z -> bool;
  ENABLE_SECONTEXT : bool;
  HAVE_LINUX_KVM_H : bool;
  kvm_supported : bool; (* os_release >= KERNEL_VERSION(4, 16, 0) *)
  NSIG_BYTES : Z }.

(** What the qualifiers set up in other parts of the program. *)
Inductive effect := KvmInit (more : bool) | NamespaceInit | Message.

(** The sets of filter_qualify.c. *)
Inductive qset :=
  | read_set | write_set | signal_set | status_set | quiet_set | decode_fd_set | decode_pid_set
  | trace_set | trace_fd_set | abbrev_set | verbose_set | raw_set | inject_set | secontext_set.
#[export] Instance qset_eq_dec : EqDecision qset.
Proof. solve_decision. Defined.

Record qual_state := mk_qual {
  qsets : qset -> option (list number_set);
  quiet_set_updated : bool;
  decode_fd_set_updated : bool;
  tracing_fds : bool;
  inject_vec : list (option (list inject_opts));
  retvals : arena Z;
  delays : arena delay_data;
  pokes : arena (list poke_payload);
  effects : list effect }.

Definition set_qset (q : qset) (v : option (list number_set)) (s : qual_state) : qual_state :=
  mk_qual (fun r => if decide (r = q) then v else qsets s r) (quiet_set_updated s) (decode_fd_set_updated s)
    (tracing_fds s) (inject_vec s) (retvals s) (delays s) (pokes s) (effects s).
Definition set_retvals (a : arena Z) (s : qual_state) : qual_state :=
  mk_qual (qsets s) (quiet_set_updated s) (decode_fd_set_updated s) (tracing_fds s) (inject_vec s) a
    (delays s) (pokes s) (effects s).
Definition set_delays (a : arena delay_data) (s : qual_state) : qual_state :=
  mk_qual (qsets s) (quiet_set_updated s) (decode_fd_set_updated s) (tracing_fds s) (inject_vec s) (retvals s)
    a (pokes s) (effects s).
Definition set_pokes (a : arena (list poke_payload)) (s : qual_state) : qual_state :=
  mk_qual (qsets s) (quiet_set_updated s) (decode_fd_set_updated s) (tracing_fds s) (inject_vec s) (retvals s)
    (delays s) a (effects s).
Definition set_inject_vec (v : list (option (list inject_opts))) (s : qual_state) : qual_state :=
  mk_qual (qsets s) (quiet_set_updated s) (decode_fd_set_updated s) (tracing_fds s) v (retvals s)
    (delays s) (pokes s) (effects s).
Definition add_effect (e : effect) (s : qual_state) : qual_state :=
  mk_qual (qsets s) (quiet_set_updated s) (decode_fd_set_updated s) (tracing_fds s) (inject_vec s) (retvals s)
    (delays s) (pokes s) (effects s ++ [e]).

(** *** Fields of the options being parsed *)

Definition set_flags (f : Z) (o : inject_opts) : inject_opts :=
  let d := data o in
  mk_inject_opts (first o) (last o) (step o)
    (mk_inject_data f (signo d) (rval_idx d) (delay_idx d) (poke_idx d) (inject_scno d)).
Definition add_flag (f : Z) (o : inject_opts) : inject_opts := set_flags (Z.lor (inject_flags (data o)) f) o.
Definition set_rval_idx (i : Z) (o : inject_opts) : inject_opts :=
  let d := data o in
  mk_inject_opts (first o) (last o) (step o)
    (mk_inject_data (inject_flags d) (signo d) i (delay_idx d) (poke_idx d) (inject_scno d)).
Definition set_delay_idx (i : Z) (o : inject_opts) : inject_opts :=
  let d := data o in
  mk_inject_opts (first o) (last o) (step o)
    (mk_inject_data (inject_flags d) (signo d) (rval_idx d) i (poke_idx d) (inject_scno d)).
Definition set_poke_idx (i : Z) (o : inject_opts) : inject_opts :=
  let d := data o in
  mk_inject_opts (first o) (last o) (step o)
    (mk_inject_data (inject_flags d) (signo d) (rval_idx d) (delay_idx d) i (inject_scno d)).
Definition set_signo (i : Z) (o : inject_opts) : inject_opts :=
  let d := data o in
  mk_inject_opts (first o) (last o) (step o)
    (mk_inject_data (inject_flags d) i (rval_idx d) (delay_idx d) (poke_idx d) (inject_scno d)).
Definition set_scno (i : Z) (o : inject_opts) : inject_opts :=
  let d := data o in
  mk_inject_opts (first o) (last o) (step o)
    (mk_inject_data (inject_flags d) (signo d) (rval_idx d) (delay_idx d) (poke_idx d) i).
Definition set_when (f l st : Z) (o : inject_opts) : inject_opts := mk_inject_opts f l st (data o).
Definition has_flag (f : Z) (o : inject_opts) : bool := has (inject_flags (data o)) f.

(** The state of [parse_inject_token]: the globals, [fopts] and [pdata]. *)
Record parse_state := mk_parse { globals : qual_state; fopts : inject_opts; pdata : list Z }.
Definition upd_globals (f : qual_state -> qual_state) (s : parse_state) : parse_state :=
  mk_parse (f (globals s)) (fopts s) (pdata s).
Definition upd_fopts (f : inject_opts -> inject_opts) (s : parse_state) : parse_state :=
  mk_parse (globals s) (f (fopts s)) (pdata s).

Section qualify.
Context {ST : SyscallTables} {QT : QualifyTables}.

(** ** Values of tokens *)

(** The loop of [sigstr_to_uint] from signal [i], over [n] signals. *)
Fixpoint sig_loop (n : nat) (i : Z) (s : string) : Z :=
  match n with
  | O => -1
  | S n' =>
      match signame i with
      | None => sig_loop n' (i + 1) s
      | Some name =>
          match strip_prefix_case "SIG" name with
          | None => sig_loop n' (i + 1) s
          | Some name => if strcasecmp_eq name s then i else sig_loop n' (i + 1) s
          end
      end
  end.

Definition sigstr_to_uint (s : string) : Z :=
  match s with
  | String c _ => if is_digit c then string_to_uint_upto s 255
                  else sig_loop 255 1 (default s (strip_prefix_case "SIG" s))
  | EmptyString => sig_loop 255 1 s
  end.

Definition statuses : list xlat_data :=
  [mk_xd 0 (Some "successful"); mk_xd 1 (Some "failed"); mk_xd 2 (Some "unfinished");
   mk_xd 3 (Some "unavailable"); mk_xd 4 (Some "detached")].
Definition quiet_strs : list xlat_data :=
  [mk_xd 0 (Some "attach"); mk_xd 1 (Some "exit"); mk_xd 1 (Some "exits"); mk_xd 2 (Some "path-resolution");
   mk_xd 3 (Some "personality"); mk_xd 4 (Some "superseded"); mk_xd 4 (Some "thread-execve")].
Definition decode_fd_strs : list xlat_data :=
  [mk_xd 0 (Some "path"); mk_xd 1 (Some "socket"); mk_xd 2 (Some "dev"); mk_xd 3 (Some "eventfd");
   mk_xd 4 (Some "pidfd"); mk_xd 5 (Some "signalfd")].
Definition decode_pid_strs : list xlat_data := [mk_xd 0 (Some "pidns"); mk_xd 1 (Some "comm")].
Definition secontext_strs : list xlat_data := [mk_xd 0 (Some "full"); mk_xd 1 (Some "mismatch")].

(** [(int) find_arg_val (str, strs, -1ULL, -1ULL)]. *)
Definition strs_to_uint (strs : list xlat_data) (s : string) : Z := sint 32 (find_arg_val s strs (uint 64 (-1))).
Definition statusstr_to_uint := strs_to_uint statuses.
Definition quietstr_to_uint := strs_to_uint quiet_strs.
Definition decode_fd_str_to_uint := strs_to_uint decode_fd_strs.
Definition decode_pid_str_to_uint := strs_to_uint decode_pid_strs.
Definition secontextstr_to_uint := strs_to_uint secontext_strs.

Fixpoint errno_loop (l : list (option string)) (i : Z) (name : string) : Z :=
  match l with
  | [] => -1
  | e :: l' => match e with
               | Some n => if strcasecmp_eq name n then i else errno_loop l' (i + 1) name
               | None => errno_loop l' (i + 1) name
               end
  end.
Definition find_errno_by_name (name : string) : Z := errno_loop (tail errnoent) 1 name.

Definition parse_ts (s : string) : option timespec :=
  if strspn s "+0123456789" <? strspn s "eE.-+0123456789" then parse_ts_float s
  else
    '(int_val, endptr) ← string_to_uint_ex s LLONG_MAX (Some "smun");
    let scale := str2timescale_sfx endptr in
    if scale <=? 0 then None
    else Some (mk_ts (int_val / (NS_IN_S / scale)) (int_val mod (NS_IN_S / scale) * scale)).

Definition uint16_max : Z := 0xffff.

Definition parse_delay_token (input : string) (isenter : bool) (s : parse_state) : outcome (parse_state * bool) :=
  let flag := if isenter then INJECT_F_DELAY_ENTER else INJECT_F_DELAY_EXIT in
  if has_flag flag (fopts s) then Ret (s, false)
  else match parse_ts input with
  | None => Ret (s, false)
  | Some tsval =>
      s ← (if delay_idx (data (fopts s)) =? uint16_max then
             '(idx, a) ← alloc_delay_data malloc_ok (delays (globals s));
             Ret (upd_fopts (set_delay_idx idx) (upd_globals (set_delays a) s))
           else Ret s);
      a ← fill_delay_data (delay_idx (data (fopts s))) tsval isenter (delays (globals s));
      Ret (upd_fopts (add_flag flag) (upd_globals (set_delays a) s), true)
  end.

(** The bytes of [val], two characters each. *)
Fixpoint poke_bytes (n : nat) (val : string) : option (list Z) :=
  match n with
  | O => Some []
  | S n' => b ← sscanf_2hhx val;
            l ← poke_bytes n' (match val with String _ (String _ r) => r | _ => EmptyString end);
            Some (b :: l)
  end.

(** One token: the payload, or [None] for [goto err]. *)
Definition poke_token (token : string) (isenter : bool) : option poke_payload :=
  match strip_prefix "@arg" token with
  | Some (String c (String e val)) =>
      if (49 <=? code_of c) && (code_of c <=? 55) && Ascii.eqb e "=" then
        let data_len := String.length val in
        if (data_len =? 0)%nat || negb (data_len mod 2 =? 0)%nat || (2048 <? data_len)%nat then None
        else l ← poke_bytes (data_len / 2) val; Some (mk_poke isenter (code_of c - 48) l)
      else None
  | _ => None
  end.

Fixpoint poke_tokens (toks : list string) (isenter : bool) (idx : Z) (a : arena (list poke_payload))
  : arena (list poke_payload) * bool :=
  match toks with
  | [] => (a, true)
  | token :: toks' =>
      match poke_token token isenter with
      | None => (a, false)
      | Some poke => let '(a, dup) := poke_add idx poke a in
                     if dup : bool then (a, false) else poke_tokens toks' isenter idx a
      end
  end.

Definition parse_poke_token (input : string) (isenter : bool) (s : parse_state) : outcome (parse_state * bool) :=
  let flag := if isenter then INJECT_F_POKE_ENTER else INJECT_F_POKE_EXIT in
  if has_flag flag (fopts s) then Ret (s, false)
  else if String.eqb input EmptyString then Ret (s, false)
  else
    s ← (if poke_idx (data (fopts s)) =? uint16_max then
           '(idx, a) ← alloc_poke_data malloc_ok (pokes (globals s));
           Ret (upd_fopts (set_poke_idx idx) (upd_globals (set_pokes a) s))
         else Ret s);
    let '(a, ok) := poke_tokens (strtok_all "," input) isenter (poke_idx (data (fopts s))) (pokes (globals s)) in
    let s := upd_globals (set_pokes a) s in
    if ok : bool then Ret (upd_fopts (add_flag flag) s, true) else Ret (s, false).

(** ** Tokens of an injection *)

(** when=: the new [first], [last] and [step]. *)
Definition parse_when (val : string) : option (Z * Z * Z) :=
  '(f, e) ← string_to_uint_ex val 0xffff (Some "+.");
  if f <? 1 then None
  else
    '(l, e) ← match e with
              | String c e' =>
                  if Ascii.eqb c "." then
                    match e' with
                    | String c' e'' =>
                        if Ascii.eqb c' "." then
                          '(l, e) ← string_to_uint_ex e'' 0xffff (Some "+");
                          if (l <? f) || (l =? INJECT_LAST_INF) then None else Some (l, e)
                        else None
                    | EmptyString => None
                    end
                  else Some (INJECT_LAST_INF, e)
              | EmptyString => Some (INJECT_LAST_INF, e)
              end;
    match e with
    | String _ val =>
        if String.eqb val EmptyString then Some (f, l, 1)
        else let st := string_to_uint_upto val 0xffff in if st <? 1 then None else Some (f, l, st)
    | EmptyString => Some (f, l, if l =? INJECT_LAST_INF then 0 else 1)
    end.

(** The loop over the personalities for syscall=. *)
Fixpoint scno_pers_loop (n : nat) (val : string) (p : Z) (l : list Z) : list Z * bool :=
  match n with
  | O => (l, true)
  | S n' =>
      let scno := scno_by_name val p 0 in
      if scno <? 0 then (l, false)
      else if negb (has (entry_flags (sysent_at p scno)) TRACE_PURE) then (l, false)
      else scno_pers_loop n' val (p + 1) (<[Z.to_nat p := uint 16 scno]> l)
  end.

Definition MAX_ERRNO_VALUE : Z := 4095.

Definition parse_inject_token (token : string) (fault_tokens_only : bool) (s : parse_state)
  : outcome (parse_state * bool) :=
  let no := Ret (s, false) in
  match strip_prefix "when=" token with
  | Some val =>
      match parse_when val with
      | Some (f, l, st) => Ret (upd_fopts (set_when f l st) s, true)
      | None => no
      end
  | None =>
  match strip_prefix "syscall=" token with
  | Some val =>
      if has_flag INJECT_F_SYSCALL (fopts s) then no
      else let '(l, ok) := scno_pers_loop (Z.to_nat SUPPORTED_PERSONALITIES) val 0 (pdata s) in
           let s := mk_parse (globals s) (fopts s) l in
           if ok : bool then Ret (upd_fopts (add_flag INJECT_F_SYSCALL) s, true) else Ret (s, false)
  | None =>
  match strip_prefix "error=" token with
  | Some val =>
      if has_flag (Z.lor INJECT_F_ERROR INJECT_F_RETVAL) (fopts s) then no
      else
        let intval := string_to_uint_upto val MAX_ERRNO_VALUE in
        let intval := if intval <? 0 then find_errno_by_name val else intval in
        if intval <? 1 then no
        else '(idx, a) ← retval_new malloc_ok intval (retvals (globals s));
             Ret (upd_fopts (fun o => add_flag INJECT_F_ERROR (set_rval_idx idx o))
                    (upd_globals (set_retvals a) s), true)
  | None =>
  if fault_tokens_only then no else
  match strip_prefix "retval=" token with
  | Some val =>
      if has_flag (Z.lor INJECT_F_ERROR INJECT_F_RETVAL) (fopts s) then no
      else match strtoull0 val with
      | Some (v, EmptyString, erange) =>
          if ((v =? 0) || (v =? ULLONG_MAX)) && erange then no
          else '(idx, a) ← retval_new malloc_ok (sint 64 v) (retvals (globals s));
               Ret (upd_fopts (fun o => add_flag INJECT_F_RETVAL (set_rval_idx idx o))
                      (upd_globals (set_retvals a) s), true)
      | _ => no
      end
  | None =>
  match strip_prefix "signal=" token with
  | Some val =>
      if has_flag INJECT_F_SIGNAL (fopts s) then no
      else
        let intval := sigstr_to_uint val in
        if (intval <? 1) || (NSIG_BYTES * 8 <? intval) then no
        else Ret (upd_fopts (fun o => add_flag INJECT_F_SIGNAL (set_signo intval o)) s, true)
  | None =>
  match strip_prefix "poke_enter=" token with
  | Some val => parse_poke_token val true s
  | None =>
  match strip_prefix "poke_exit=" token with
  | Some val => parse_poke_token val false s
  | None =>
  match strip_prefix "delay_enter=" token with
  | Some val => parse_delay_token val true s
  | None =>
  match strip_prefix "delay_exit=" token with
  | Some val => parse_delay_token val false s
  | None => no
  end end end end end end end end end.

Fixpoint inject_tokens (toks : list string) (fault_tokens_only : bool) (s : parse_state)
  : outcome (parse_state * bool) :=
  match toks with
  | [] => Ret (s, true)
  | token :: toks' =>
      '(s, ok) ← parse_inject_token token fault_tokens_only s;
      if ok : bool then inject_tokens toks' fault_tokens_only s else Ret (s, false)
  end.

(** The name, [None] for NULL. *)
Definition parse_inject_expression (s : string) (fault_tokens_only : bool) (st : parse_state)
  : outcome (parse_state * option string) :=
  match s with
  | EmptyString => Ret (st, Some EmptyString)
  | String c _ =>
      if Ascii.eqb c ":" then Ret (st, Some EmptyString)
      else match strtok_all ":" s with
      | [] => Ret (st, None)
      | name :: toks =>
          '(st, ok) ← inject_tokens toks fault_tokens_only st;
          Ret (st, if ok : bool then Some name else None)
      end
  end.

(** ** The qualifiers *)

(** The single set of a one-element array. *)
Definition one_set (q : qset) (s : qual_state) : number_set :=
  match qsets s q with Some l => set_at l 0 | None => mk_number_set [] 0 false end.

(** Allocate the set if it is not there, then [qualify_tokens]. *)
Definition qualify_one (q : qset) (str : string) (func : string -> Z) (name : string) (s : qual_state)
  : outcome qual_state :=
  set ← qualify_tokens str func name (one_set q s);
  Ret (set_qset q (Some [set]) s).

Definition qualify_many (q : qset) (str : string) (s : qual_state) : outcome qual_state :=
  set ← qualify_syscall_tokens str (default (alloc_number_set_array SUPPORTED_PERSONALITIES) (qsets s q));
  Ret (set_qset q (Some set) s).

Definition qualify_read (str : string) : qual_state -> outcome qual_state :=
  qualify_one read_set str string_to_uint "descriptor".
Definition qualify_write (str : string) : qual_state -> outcome qual_state :=
  qualify_one write_set str string_to_uint "descriptor".
Definition qualify_signals (str : string) : qual_state -> outcome qual_state :=
  qualify_one signal_set str sigstr_to_uint "signal".
Definition qualify_status (str : string) : qual_state -> outcome qual_state :=
  qualify_one status_set str statusstr_to_uint "status".

Definition is_null {A} (o : option A) : bool := match o with None => true | Some _ => false end.

Definition qualify_quiet (str : string) (s : qual_state) : outcome qual_state :=
  let s := if is_null (qsets s quiet_set) then s
           else mk_qual (qsets s) true (decode_fd_set_updated s) (tracing_fds s) (inject_vec s) (retvals s)
                  (delays s) (pokes s) (effects s) in
  qualify_one quiet_set str quietstr_to_uint "quiet" s.

Definition qualify_decode_fd (str : string) (s : qual_state) : outcome qual_state :=
  let s := if is_null (qsets s decode_fd_set) then s
           else mk_qual (qsets s) (quiet_set_updated s) true (tracing_fds s) (inject_vec s) (retvals s)
                  (delays s) (pokes s) (effects s) in
  qualify_one decode_fd_set str decode_fd_str_to_uint "decode-fds" s.

Definition qualify_decode_pid (str : string) : qual_state -> outcome qual_state :=
  qualify_one decode_pid_set str decode_pid_str_to_uint "decode-pids".
Definition qualify_trace (str : string) : qual_state -> outcome qual_state := qualify_many trace_set str.

Definition qualify_trace_fd (str : string) (s : qual_state) : outcome qual_state :=
  s ← qualify_one trace_fd_set str string_to_uint "descriptor" s;
  Ret (mk_qual (qsets s) (quiet_set_updated s) (decode_fd_set_updated s) true (inject_vec s) (retvals s)
         (delays s) (pokes s) (effects s)).

Definition qualify_abbrev (str : string) : qual_state -> outcome qual_state := qualify_many abbrev_set str.
Definition qualify_verbose (str : string) : qual_state -> outcome qual_state := qualify_many verbose_set str.
Definition qualify_raw (str : string) : qual_state -> outcome qual_state := qualify_many raw_set str.

Definition INJECT_ACTION_FLAGS : Z := 0xdf.
Definition opts0 : inject_opts := mk_inject_opts 0 0 0 (mk_inject_data 0 0 0 0 0 0).
Definition opts_init : inject_opts :=
  mk_inject_opts 1 INJECT_LAST_INF 1 (mk_inject_data 0 0 0 uint16_max uint16_max 0).

(** Syscalls [i], ..., [i + n - 1] of personality [p]: [tmp] selects them. *)
Fixpoint merge_loop (n : nat) (i p : Z) (tmp : list number_set) (opts : inject_opts)
    (sets : list number_set) (vec : list inject_opts) : list number_set * list inject_opts :=
  match n with
  | O => (sets, vec)
  | S n' =>
      if is_number_in_set_array i (Some tmp) p
      then merge_loop n' (i + 1) p tmp opts (add_number_to_set_array i sets p) (<[Z.to_nat i := opts]> vec)
      else merge_loop n' (i + 1) p tmp opts sets vec
  end.

Definition inject_vec_at (s : qual_state) (p : Z) : option (list inject_opts) :=
  nth (Z.to_nat p) (inject_vec s) None.

(** The loop over the personalities. *)
Fixpoint merge_pers (n : nat) (p : Z) (tmp : list number_set) (opts : inject_opts) (scnos : list Z) (s : qual_state)
  : qual_state :=
  match n with
  | O => s
  | S n' =>
      if number_set_array_is_empty (Some tmp) p then merge_pers n' (p + 1) tmp opts scnos s
      else
        let sets := default (alloc_number_set_array SUPPORTED_PERSONALITIES) (qsets s inject_set) in
        let vec := default (replicate (Z.to_nat (nsyscall_vec p)) opts0) (inject_vec_at s p) in
        let '(sets, vec) := merge_loop (Z.to_nat (nsyscall_vec p)) 0 p tmp (set_scno (nthZ scnos p) opts) sets vec in
        merge_pers n' (p + 1) tmp opts scnos
          (set_inject_vec (<[Z.to_nat p := Some vec]> (inject_vec s)) (set_qset inject_set (Some sets) s))
  end.

Definition qualify_inject_common (str : string) (fault_tokens_only : bool) (description : string) (s : qual_state)
  : outcome qual_state :=
  let invalid := ("invalid " +:+ description +:+ " '" +:+ str +:+ "'") in
  let pdata0 := replicate (Z.to_nat SUPPORTED_PERSONALITIES) 0 in
  '(st, name) ← parse_inject_expression str fault_tokens_only (mk_parse s opts_init pdata0);
  match name with
  | None => Die invalid
  | Some name =>
      tmp ← qualify_syscall_tokens name (alloc_number_set_array SUPPORTED_PERSONALITIES);
      st ← (if has_flag INJECT_ACTION_FLAGS (fopts st) then Ret st
            else if fault_tokens_only then
              '(idx, a) ← retval_new malloc_ok ENOSYS (retvals (globals st));
              Ret (upd_fopts (fun o => add_flag INJECT_F_ERROR (set_rval_idx idx o)) (upd_globals (set_retvals a) st))
            else Die invalid);
      Ret (merge_pers (Z.to_nat SUPPORTED_PERSONALITIES) 0 tmp (fopts st) (pdata st) (globals st))
  end.

Definition qualify_fault (str : string) : qual_state -> outcome qual_state :=
  qualify_inject_common str true "fault argument".
Definition qualify_inject (str : string) : qual_state -> outcome qual_state :=
  qualify_inject_common str false "inject argument".

Definition qualify_kvm (str : string) (s : qual_state) : outcome qual_state :=
  let wrong := Die ("invalid -e kvm= argument: '" +:+ str +:+ "'") in
  match strip_prefix "vcpu" str with
  | None => wrong
  | Some rest =>
      if HAVE_LINUX_KVM_H then
        if kvm_supported then
          if String.eqb rest EmptyString then Ret (add_effect (KvmInit false) s)
          else if String.eqb rest "+" then Ret (add_effect (KvmInit true) s) else wrong
        else Ret (add_effect Message s)
      else wrong
  end.

Definition qualify_namespace (str : string) (s : qual_state) : outcome qual_state :=
  if String.eqb str "new" then Ret (add_effect NamespaceInit s)
  else Die ("invalid -e namespace= argument: '" +:+ str +:+ "'").

Definition qualify_secontext (str : string) (s : qual_state) : outcome qual_state :=
  if ENABLE_SECONTEXT then qualify_one secontext_set str secontextstr_to_uint "secontext" s
  else Die "SELinux context printing (--secontext option) is not supported by this build of strace".

Definition qual_options : list (string * (string -> qual_state -> outcome qual_state)) :=
  [("trace", qualify_trace); ("t", qualify_trace); ("trace-fd", qualify_trace_fd); ("trace-fds", qualify_trace_fd);
   ("fd", qualify_trace_fd); ("fds", qualify_trace_fd); ("abbrev", qualify_abbrev); ("a", qualify_abbrev);
   ("verbose", qualify_verbose); ("v", qualify_verbose); ("raw", qualify_raw); ("x", qualify_raw);
   ("signal", qualify_signals); ("signals", qualify_signals); ("s", qualify_signals); ("status", qualify_status);
   ("quiet", qualify_quiet); ("silent", qualify_quiet); ("silence", qualify_quiet); ("q", qualify_quiet);
   ("read", qualify_read); ("reads", qualify_read); ("r", qualify_read); ("write", qualify_write);
   ("writes", qualify_write); ("w", qualify_write); ("fault", qualify_fault); ("inject", qualify_inject);
   ("kvm", qualify_kvm); ("decode-fd", qualify_decode_fd); ("decode-fds", qualify_decode_fd);
   ("decode-pid", qualify_decode_pid); ("decode-pids", qualify_decode_pid); ("secontext", qualify_secontext);
   ("namespace", qualify_namespace)].

(** The first option whose name followed by an equals sign starts the string. *)
Fixpoint find_option (opts : list (string * (string -> qual_state -> outcome qual_state))) (str : string)
  : option ((string -> qual_state -> outcome qual_state) * string) :=
  match opts with
  | [] => None
  | (name, f) :: opts' =>
      match strip_prefix name str with
      | Some (String c val) => if Ascii.eqb c "=" then Some (f, val) else find_option opts' str
      | _ => find_option opts' str
      end
  end.

Definition qualify (str : string) (s : qual_state) : outcome qual_state :=
  match find_option qual_options str with
  | Some (f, val) => f val s
  | None => qualify_trace str s
  end.

Definition qual_flags (s : qual_state) (current_personality scno : Z) : Z :=
  let flag q f := if is_number_in_set_array scno (qsets s q) current_personality then f else 0 in
  Z.lor (Z.lor (Z.lor (Z.lor (flag trace_set QUAL_TRACE) (flag abbrev_set QUAL_ABBREV))
    (flag verbose_set QUAL_VERBOSE)) (flag raw_set QUAL_RAW)) (flag inject_set QUAL_INJECT).

End qualify.

(** ** when= expressions *)

(** F, F+, F+S, F..L, F..L+ and F..L+S: the last invocation if given, and the
    step if there is a plus sign. *)
Record when_expr := mk_when { w_first : Z; w_last : option Z; w_step : option (option Z) }.

Definition print_when (w : when_expr) : string :=
  pretty (w_first w)
  +:+ match w_last w with Some l => ".." +:+ pretty l | None => EmptyString end
  +:+ match w_step w with
      | None => EmptyString
      | Some None => "+"
      | Some (Some st) => "+" +:+ pretty st
      end.

Definition when_ok (w : when_expr) : Prop :=
  1 <= w_first w <= 0xffff /\
  match w_last w with Some l => w_first w <= l < 0xffff | None => True end /\
  match w_step w with Some (Some st) => 1 <= st <= 0xffff | _ => True end.

(** The invocations it stands for, as the comment of [parse_inject_token] lists
    them: F alone, every one from F on, every S-th one, up to L. *)
Definition when_selects (w : when_expr) (k : Z) : bool :=
  (w_first w <=? k) && match w_last w with Some l => k <=? l | None => true end &&
  match w_step w, w_last w with
  | None, None => k =? w_first w
  | None, Some _ | Some None, _ => true
  | Some (Some st), _ => (k - w_first w) mod st =? 0
  end.

Definition when_fields (w : when_expr) : Z * Z * Z :=
  let l := default INJECT_LAST_INF (w_last w) in
  (w_first w, l, match w_step w with
                 | Some (Some st) => st
                 | Some None => 1
                 | None => if l =? INJECT_LAST_INF then 0 else 1
                 end).

Lemma step_text_ends w :
  let r := match w_step w with None => EmptyString | Some None => "+" | Some (Some st) => "+" +:+ pretty st end in
  ends_number r = true /\ accepted (Some "+") r = true /\ accepted (Some "+.") r = true.
Proof. by destruct (w_step w) as [[st|]|]. Qed.

Lemma string_to_uint_upto_pretty n max_val :
  0 <= n <= max_val -> max_val <= LLONG_MAX -> string_to_uint_upto (pretty n) max_val = n.
Proof.
  intros Hn Hm. unfold string_to_uint_upto. rewrite <- (string_app_nil (pretty n)).
  by rewrite string_to_uint_pretty.
Qed.

Lemma parse_when_print w : when_ok w -> parse_when (print_when w) = Some (when_fields w).
Proof.
  intros (Hf & Hl & Hs). destruct (step_text_ends w) as (E1 & E2 & E3). unfold parse_when, print_when, when_fields.
  set (r := match w_step w with None => EmptyString | Some None => "+" | Some (Some st) => "+" +:+ pretty st end) in *.
  assert (Hmax : 0xffff <= LLONG_MAX) by (vm_compute; discriminate).
  assert (Hrest : forall f l : Z, match r with
    | String _ val => if String.eqb val EmptyString then Some (f, l, 1)
                      else let st := string_to_uint_upto val 0xffff in if st <? 1 then None else Some (f, l, st)
    | EmptyString => Some (f, l, if l =? INJECT_LAST_INF then 0 else 1) end =
    Some (f, l, match w_step w with Some (Some st) => st | Some None => 1
                | None => if l =? INJECT_LAST_INF then 0 else 1 end)).
  { intros f l. unfold r. destruct (w_step w) as [[st|]|]; [|done..].
    change ("+" +:+ pretty st) with (String "+" (pretty st)). cbv beta iota zeta.
    rewrite (proj2 (String.eqb_neq _ _)) by apply pretty_Z_ne. rewrite string_to_uint_upto_pretty by lia.
    by rewrite (proj2 (Z.ltb_ge st 1)) by lia. }
  destruct (w_last w) as [l|].
  - rewrite string_app_assoc. change (".." +:+ pretty l +:+ r) with (String "." (String "." (pretty l +:+ r))).
    rewrite string_to_uint_pretty by (done || lia). cbn [mbind option_bind].
    rewrite (proj2 (Z.ltb_ge _ 1)) by lia. cbn [Ascii.eqb Bool.eqb].
    rewrite string_to_uint_pretty by (done || lia). cbn [mbind option_bind default].
    assert (Hinf : (l =? INJECT_LAST_INF) = false) by (unfold INJECT_LAST_INF; lia).
    specialize (Hrest (w_first w) l). rewrite Hinf in *.
    rewrite (proj2 (Z.ltb_ge l _)) by lia. cbn [orb mbind option_bind]. change (id l) with l.
    rewrite Hinf. exact Hrest.
  - change (EmptyString +:+ r) with r. rewrite string_to_uint_pretty by (done || lia). cbn [mbind option_bind default].
    rewrite (proj2 (Z.ltb_ge _ 1)) by lia.
    assert (Hdot : (match r with
      | String c e' => if Ascii.eqb c "." then
          match e' with
          | String c' e'' => if Ascii.eqb c' "." then
              '(l, e) ← string_to_uint_ex e'' 0xffff (Some "+");
              if (l <? w_first w) || (l =? INJECT_LAST_INF) then None else Some (l, e)
            else None
          | EmptyString => None end
        else Some (INJECT_LAST_INF, r)
      | EmptyString => Some (INJECT_LAST_INF, r) end) = Some (INJECT_LAST_INF, r))
      by (unfold r; by destruct (w_step w) as [[st|]|]).
    rewrite Hdot. cbn [mbind option_bind]. apply Hrest.
Qed.

Lemma when_fields_scheduled w d k :
  when_ok w -> 1 <= k ->
  scheduled (let '(f, l, st) := when_fields w in mk_inject_opts f l st d) k = when_selects w k.
Proof.
  intros (Hf & Hl & Hs) Hk. unfold scheduled, when_selects, when_fields. cbn [first last step].
  rewrite (proj2 (Z.leb_le 1 _)) by lia. cbn [andb]. unfold INJECT_LAST_INF in *.
  destruct (w_last w) as [l|]; cbn [default].
  - change (id l) with l. rewrite (proj2 (Z.eqb_neq l 65535)) by lia. cbn [orb]. rewrite (andb_comm (k <=? l)). f_equal.
    destruct (w_step w) as [[st|]|]; [by rewrite (proj2 (Z.eqb_neq st 0)) by lia|by rewrite Z.mod_1_r..].
  - change (65535 =? 65535) with true. cbn [orb andb]. rewrite andb_true_r. f_equal.
    destruct (w_step w) as [[st|]|]; [by rewrite (proj2 (Z.eqb_neq st 0)) by lia|by rewrite Z.mod_1_r|done].
Qed.

Section when.
Context {ST : SyscallTables} {QT : QualifyTables}.

(** C15: the when= token means what its syntax says: parsing any of the forms F,
    F+, F+S, F..L, F..L+ and F..L+S succeeds, and with the options it gives the
    k-th invocation of the syscall is tampered with exactly when it is the F-th
    one, resp. one of F, F + S, ... not after the L-th. *)
Theorem when_token_correct (w : when_expr) (fault_tokens_only : bool) (s : parse_state) (k : nat) :
  when_ok w -> (1 <= k)%nat ->
  exists s', parse_inject_token ("when=" +:+ print_when w) fault_tokens_only s = Ret (s', true) /\
    data (fopts s') = data (fopts s) /\ globals s' = globals s /\
    nth_hit (fopts s') k = when_selects w (Z.of_nat k).
Proof.
  intros Hw Hk. unfold parse_inject_token. change (strip_prefix "when=" ("when=" +:+ print_when w)) with (Some (print_when w)).
  cbv beta iota zeta. rewrite parse_when_print by done. destruct (when_fields w) as [[f l] st] eqn:E.
  eexists. split; [reflexivity|]. split; [done|]. split; [done|].
  cbn [upd_fopts fopts]. unfold set_when. rewrite nth_hit_scheduled; cbn [first last step]; try lia.
  - pose proof (when_fields_scheduled w (data (fopts s)) (Z.of_nat k) Hw ltac:(lia)) as H. by rewrite E in H.
  - destruct Hw as (Hf & _). unfold when_fields in E. simplify_eq. lia.
  - destruct Hw as (Hf & Hl & _). unfold when_fields, INJECT_LAST_INF in *. destruct (w_last w); simpl in E; simplify_eq; lia.
  - destruct Hw as (Hf & Hl & Hs). unfold when_fields in E. injection E as <- <- <-.
    destruct (w_step w) as [[x|]|]; try lia. by destruct (_ =? _).
Qed.
End when.

(** ** Delays *)

Fixpoint all_digits (s : string) : bool :=
  match s with String c s' => is_digit c && all_digits s' | EmptyString => true end.

Lemma all_digits_go x s : all_digits (pretty_N_go x s) = all_digits s.
Proof.
  revert s. induction (N.lt_wf_0 x) as [x _ IH]; intros s.
  destruct (decide (x = 0)%N) as [->|Hx]; [done|].
  rewrite pretty_N_go_step, IH by (lia || apply N.div_lt; lia). cbn [all_digits].
  by rewrite (proj1 (pretty_N_char_digit (x mod 10) ltac:(apply N.mod_lt; lia))).
Qed.

Lemma all_digits_pretty n : 0 <= n -> all_digits (pretty n) = true.
Proof.
  intros Hn. destruct n as [|p|p]; [done| |lia]. change (pretty (Z.pos p)) with (pretty (N.pos p)).
  unfold pretty, pretty_N. rewrite decide_False by done. apply all_digits_go.
Qed.

Lemma digit_accepted c : is_digit c = true -> strchr "+0123456789" c = true /\ strchr "eE.-+0123456789" c = true.
Proof. destruct c as [[] [] [] [] [] [] [] []]; done. Qed.

Lemma strspn_digits s r :
  all_digits s = true ->
  strspn (s +:+ r) "+0123456789" = Z.of_nat (String.length s) + strspn r "+0123456789" /\
  strspn (s +:+ r) "eE.-+0123456789" = Z.of_nat (String.length s) + strspn r "eE.-+0123456789".
Proof.
  induction s as [|c s IH]; [done|]. cbn [all_digits]. intros [Hc Hs]%andb_true_iff.
  destruct (IH Hs) as [E1 E2], (digit_accepted c Hc) as [A1 A2].
  change (String c s +:+ r) with (String c (s +:+ r)). cbn [strspn String.length].
  rewrite A1, A2, E1, E2. lia.
Qed.

(** The suffixes and the nanoseconds they stand for. *)
Definition ts_units : list (string * Z) := [(EmptyString, 1000); ("s", NS_IN_S); ("ms", 1000000); ("us", 1000); ("ns", 1)].

Lemma parse_ts_units `{QualifyTables} n u scale :
  0 <= n <= LLONG_MAX -> In (u, scale) ts_units ->
  parse_ts (pretty n +:+ u) = Some (mk_ts (n / (NS_IN_S / scale)) (n mod (NS_IN_S / scale) * scale)).
Proof.
  intros Hn Hu. unfold parse_ts.
  destruct (strspn_digits (pretty n) u (all_digits_pretty n ltac:(lia))) as [-> ->].
  assert (Hs : strspn u "+0123456789" = strspn u "eE.-+0123456789" /\ ends_number u = true /\
    accepted (Some "smun") u = true /\ str2timescale_sfx u = scale /\ 0 < scale).
  { simpl in Hu. destruct Hu as [E|[E|[E|[E|[E|[]]]]]]; injection E as <- <-; vm_compute; auto. }
  destruct Hs as (-> & He & Ha & Hsc & Hpos). rewrite Z.ltb_irrefl.
  rewrite string_to_uint_pretty by (done || lia). cbn [mbind option_bind]. rewrite Hsc.
  by rewrite (proj2 (Z.leb_gt scale 0)) by lia.
Qed.

(** [parse_ts] reads a whole number with one of the suffixes s, ms, us, ns,
    or without one in microseconds, as a normalised time of exactly that many
    nanoseconds. *)
Theorem parse_ts_correct `{QualifyTables} (n scale : Z) (u : string) :
  0 <= n <= LLONG_MAX -> In (u, scale) ts_units ->
  exists t, parse_ts (pretty n +:+ u) = Some t /\ ts_wf t /\ ts_total t = n * scale.
Proof.
  intros Hn Hu. eexists. split; [by apply parse_ts_units|].
  assert (Hs : NS_IN_S / scale * scale = 1000000000 /\ 0 < scale).
  { simpl in Hu. destruct Hu as [E|[E|[E|[E|[E|[]]]]]]; injection E as <- <-; vm_compute; auto. }
  destruct Hs as [Hs Hp]. set (q := NS_IN_S / scale) in *. assert (0 < q) by nia.
  pose proof (Z.div_mod n q ltac:(lia)). pose proof (Z.mod_pos_bound n q ltac:(lia)).
  unfold ts_wf, ts_total, Util.NS_IN_S. cbn [tv_sec tv_nsec]. nia.
Qed.

(** ** Well-formed injection options *)

Section inject_wf.
Context {ST : SyscallTables} {QT : QualifyTables}.

(** Options the rest of the program can use: counters in range, indices of
    tables that are filled, one kind of result, a valid signal. *)
Record opts_wf (g : qual_state) (o : inject_opts) : Prop := {
  ow_first : 1 <= first o <= 0xffff;
  ow_last : first o <= last o <= 0xffff;
  ow_step : 0 <= step o <= 0xffff;
  ow_rval : has_flag (Z.lor INJECT_F_ERROR INJECT_F_RETVAL) o = true ->
            0 <= rval_idx (data o) < ar_size (retvals g);
  ow_result : has_flag INJECT_F_ERROR o && has_flag INJECT_F_RETVAL o = false;
  ow_signal : has_flag INJECT_F_SIGNAL o = true -> 1 <= signo (data o) <= NSIG_BYTES * 8;
  ow_delay : has_flag (Z.lor INJECT_F_DELAY_ENTER INJECT_F_DELAY_EXIT) o = true ->
             0 <= delay_idx (data o) < ar_size (delays g);
  ow_poke : has_flag (Z.lor INJECT_F_POKE_ENTER INJECT_F_POKE_EXIT) o = true ->
            0 <= poke_idx (data o) < ar_size (pokes g) }.

Definition cell {A} (a : arena A) (d : A) (j : Z) : A := nth (Z.to_nat j) (ar_vec a) d.

(** [a'] has the cells of [a], and maybe more. *)
Definition extends {A} (d : A) (a a' : arena A) : Prop :=
  ar_size a <= ar_size a' /\ forall j, 0 <= j < ar_size a -> cell a' d j = cell a d j.

Lemma extends_refl {A} (d : A) a : extends d a a.
Proof. split; [lia|done]. Qed.
Lemma extends_trans {A} (d : A) a b c : extends d a b -> extends d b c -> extends d a c.
Proof. intros [L1 E1] [L2 E2]. split; [lia|]. intros j Hj. rewrite E2, E1 by lia. done. Qed.

Lemma arena_new_extends {A} (d : A) memb msg v (a a' : arena A) idx :
  0 < memb <= DEFAULT_ALLOC_SIZE -> arena_wf a -> arena_new malloc_ok d memb msg v a = Ret (idx, a') ->
  arena_wf a' /\ idx = ar_size a /\ ar_size a' = ar_size a + 1 /\ cell a' d idx = v /\ extends d a a'.
Proof.
  intros Hm W E. destruct (arena_new_spec malloc_ok d memb Hm msg EmptyString v a a' idx W E)
    as (W' & Hi & Hs & _ & Hg & Hk).
  assert (0 <= ar_size a) by (destruct W; lia).
  split; [done|]. split; [done|]. split; [done|]. unfold arena_get in *. split.
  - rewrite (proj2 (Z.leb_gt _ _)) in Hg by lia. by injection Hg.
  - split; [lia|]. intros j Hj. specialize (Hk j Hj). rewrite !(proj2 (Z.leb_gt _ _)) in Hk by lia. by injection Hk.
Qed.

(** Only the tables of values change, by new cells. *)
Record keeps (g g' : qual_state) : Prop := {
  k_retvals : extends 0 (retvals g) (retvals g');
  k_delays : extends delay0 (delays g) (delays g');
  k_pokes : extends [] (pokes g) (pokes g');
  k_arenas : arena_wf (retvals g') /\ arena_wf (delays g') /\ arena_wf (pokes g');
  k_sets : qsets g' = qsets g;
  k_vec : inject_vec g' = inject_vec g }.

(** The state while the tokens of an expression are parsed, from [g]: the cells
    of the options are new ones. *)
Record parsing (g : qual_state) (s : parse_state) : Prop := {
  p_keeps : keeps g (globals s);
  p_opts : opts_wf (globals s) (fopts s);
  p_delay : delay_idx (data (fopts s)) = uint16_max \/
            ar_size (delays g) <= delay_idx (data (fopts s)) < ar_size (delays (globals s));
  p_poke : poke_idx (data (fopts s)) = uint16_max \/
           ar_size (pokes g) <= poke_idx (data (fopts s)) < ar_size (pokes (globals s)) }.

Lemma has_lor_l a b m : has (Z.lor a b) m = has a m || has b m.
Proof.
  unfold has. rewrite Z.land_lor_distr_l.
  destruct (Z.eqb_spec (Z.land a m) 0) as [->|Ha]; simpl; [by rewrite Z.lor_0_l|].
  apply negb_true_iff, Z.eqb_neq. intros [? _]%Z.lor_eq_0_iff. done.
Qed.

Lemma has_flag_add f m o : has_flag m (add_flag f o) = has_flag m o || has f m.
Proof. unfold has_flag. apply has_lor_l. Qed.

Lemma has_flag_lor a b o : has_flag (Z.lor a b) o = has_flag a o || has_flag b o.
Proof. unfold has_flag, has. rewrite !(Z.land_comm (inject_flags _)). apply (has_lor_l a b). Qed.

(** A flag that the one added, given by [Hf], does not touch. *)
Ltac old_flag H Hf :=
  rewrite has_flag_add; intros HF; apply H; apply orb_true_iff in HF as [HF|HF]; [exact HF|];
  exfalso; revert HF; first [discriminate | destruct Hf as [-> | ->]; discriminate].

Lemma parsing_when g s f l st :
  parsing g s -> 1 <= f <= 0xffff -> f <= l <= 0xffff -> 0 <= st <= 0xffff ->
  parsing g (upd_fopts (set_when f l st) s).
Proof. intros [K [] D P] Hf Hl Hst. split; [done| |done|done]. split; done. Qed.


Lemma parse_when_range val f l st :
  parse_when val = Some (f, l, st) -> 1 <= f <= 0xffff /\ f <= l <= 0xffff /\ 0 <= st <= 0xffff.
Proof.
  unfold parse_when. destruct (string_to_uint_ex val 0xffff (Some "+.")) as [[f' e]|] eqn:Ef; [|done].
  apply string_to_uint_range in Ef as [Hf _]. cbn [mbind option_bind].
  destruct (Z.ltb_spec f' 1); [done|].
  assert (Hrest : forall l' e', f' <= l' <= 0xffff ->
    match e' with
    | String _ val => if String.eqb val EmptyString then Some (f', l', 1)
                      else let st := string_to_uint_upto val 0xffff in if st <? 1 then None else Some (f', l', st)
    | EmptyString => Some (f', l', if l' =? INJECT_LAST_INF then 0 else 1)
    end = Some (f, l, st) -> 1 <= f <= 0xffff /\ f <= l <= 0xffff /\ 0 <= st <= 0xffff).
  { intros l' e' Hl'. destruct e' as [|c v]; [intros; simplify_eq; destruct (_ =? _); lia|].
    destruct (String.eqb v EmptyString); [intros; simplify_eq; lia|].
    pose proof (string_to_uint_upto_range v 0xffff ltac:(lia)).
    cbv zeta. destruct (Z.ltb_spec (string_to_uint_upto v 65535) 1); intros; simplify_eq; lia. }
  destruct e as [|c e]; cbn [mbind option_bind]; [apply (Hrest _ EmptyString); unfold INJECT_LAST_INF; lia|].
  destruct (Ascii.eqb c "."); cbn [mbind option_bind].
  2: { apply (Hrest _ (String c e)). unfold INJECT_LAST_INF. lia. }
  destruct e as [|c' e]; [done|]. destruct (Ascii.eqb c' "."); [|done].
  destruct (string_to_uint_ex e 0xffff (Some "+")) as [[l' e']|] eqn:El; [|done]. cbn [mbind option_bind].
  apply string_to_uint_range in El as [Hl _].
  destruct (Z.ltb_spec l' f'); [done|]. destruct (l' =? INJECT_LAST_INF) eqn:Ei; [done|].
  cbn [orb mbind option_bind]. apply (Hrest l' e'). lia.
Qed.

(** A new value in the table of results. *)
Lemma parsing_retval g s v f idx a :
  parsing g s -> (f = INJECT_F_ERROR \/ f = INJECT_F_RETVAL) ->
  has_flag (Z.lor INJECT_F_ERROR INJECT_F_RETVAL) (fopts s) = false ->
  retval_new malloc_ok v (retvals (globals s)) = Ret (idx, a) ->
  parsing g (upd_fopts (fun o => add_flag f (set_rval_idx idx o)) (upd_globals (set_retvals a) s)).
Proof.
  intros [K [] D P] Hf Hno E. destruct K as [K1 K2 K3 (A1 & A2 & A3) K4 K5].
  destruct (arena_new_extends 0 8 _ v _ a idx ltac:(vm_compute; split; congruence) A1 E) as (W & Hi & Hs & _ & X).
  assert (0 <= ar_size (retvals (globals s))) by (destruct A1; lia).
  rewrite has_flag_lor in Hno. apply orb_false_iff in Hno as [N1 N2].
  split; [split; try done; by eapply extends_trans| |done|done].
  split; cbn [upd_fopts upd_globals set_retvals globals fopts retvals delays pokes]; try done.
  - intros _. cbn. lia.
  - rewrite !has_flag_add. change (has_flag ?m (set_rval_idx idx ?o)) with (has_flag m o).
    rewrite N1, N2. by destruct Hf as [-> | ->].
  - old_flag ow_signal0 Hf.
  - old_flag ow_delay0 Hf.
  - old_flag ow_poke0 Hf.
Qed.

Lemma parsing_signal g s v :
  parsing g s -> 1 <= v <= NSIG_BYTES * 8 ->
  parsing g (upd_fopts (fun o => add_flag INJECT_F_SIGNAL (set_signo v o)) s).
Proof.
  intros [K [] D P] Hv. assert (Hf : INJECT_F_SIGNAL = INJECT_F_SIGNAL \/ INJECT_F_SIGNAL = 0) by auto.
  split; [done| |done|done]. split; cbn [upd_fopts globals fopts]; try done.
  - old_flag ow_rval0 Hf.
  - rewrite !has_flag_add. by rewrite !orb_false_r.
  - old_flag ow_delay0 Hf.
  - old_flag ow_poke0 Hf.
Qed.

Lemma parsing_syscall g s l :
  parsing g s -> parsing g (upd_fopts (add_flag INJECT_F_SYSCALL) (mk_parse (globals s) (fopts s) l)).
Proof.
  intros [K [] D P]. assert (Hf : INJECT_F_SYSCALL = INJECT_F_SYSCALL \/ INJECT_F_SYSCALL = 0) by auto.
  split; [done| |done|done]. split; cbn [upd_fopts globals fopts]; try done.
  - old_flag ow_rval0 Hf.
  - rewrite !has_flag_add. by rewrite !orb_false_r.
  - old_flag ow_signal0 Hf.
  - old_flag ow_delay0 Hf.
  - old_flag ow_poke0 Hf.
Qed.

(** Writing a cell that is not among the first ones of [a]. *)
Lemma extends_write {A} (d v : A) (a b : arena A) i :
  extends d a b -> ar_size a <= i -> extends d a (mk_arena (<[Z.to_nat i := v]> (ar_vec b)) (ar_size b)).
Proof.
  intros [L E] Hi. split; [done|]. intros j Hj. rewrite <- E by done. unfold cell. cbn [ar_vec].
  rewrite !nth_lookup, list_lookup_insert_ne by lia. done.
Qed.

Lemma arena_wf_write {A} (v : A) (a : arena A) i :
  arena_wf a -> arena_wf (mk_arena (<[Z.to_nat i := v]> (ar_vec a)) (ar_size a)).
Proof. unfold arena_wf, lenZ. cbn [ar_vec ar_size]. by rewrite length_insert. Qed.

Lemma parse_delay_token_parsing g s input isenter s' ok :
  arena_wf (delays g) -> parsing g s -> parse_delay_token input isenter s = Ret (s', ok) -> parsing g s'.
Proof.
  intros Wg Pg. unfold parse_delay_token. set (flag := if isenter then _ else _).
  assert (Hf : flag = INJECT_F_DELAY_ENTER \/ flag = INJECT_F_DELAY_EXIT) by (destruct isenter; auto).
  destruct (has_flag flag (fopts s)); [intros; by simplify_eq|].
  destruct (parse_ts input) as [ts|]; [|intros; by simplify_eq].
  intros (s1 & E1 & (a & Ea & [= <- <-])%outcome_bind_Ret)%outcome_bind_Ret.
  assert (P1 : parsing g s1 /\ (ar_size (delays g) <= delay_idx (data (fopts s1)) < ar_size (delays (globals s1)))).
  { destruct (Z.eqb_spec (delay_idx (data (fopts s))) uint16_max).
    - apply outcome_bind_Ret in E1 as ([idx a1] & En & [= <-]). pose proof Pg as [K [] D P].
      destruct K as [K1 K2 K3 (A1 & A2 & A3) K4 K5].
      destruct (arena_new_extends delay0 32 _ delay0 _ a1 idx ltac:(vm_compute; split; congruence) A2 En)
        as (W & Hi & Hs & _ & X). assert (0 <= ar_size (delays (globals s))) by (destruct A2; lia).
      assert (ar_size (delays g) <= ar_size (delays (globals s))) by (destruct K2; lia).
      split; [|cbn; lia].
      split; [split; try done; by eapply extends_trans| |right; cbn; lia|done].
      split; cbn [upd_fopts upd_globals set_delays globals fopts retvals delays pokes]; try done. cbn. lia.
    - injection E1 as <-. split; [done|]. destruct Pg as [_ _ [|D] _]; [done|exact D]. }
  clear Pg E1. destruct P1 as [[K [] D P] Hi]. unfold fill_delay_data in Ea.
  rewrite (proj2 (Z.leb_gt _ _)) in Ea by lia. cbv zeta in Ea. injection Ea as <-.
  destruct K as [K1 K2 K3 (A1 & A2 & A3) K4 K5].
  split; [split; try done| |right; exact Hi|done].
  - apply extends_write; [done|lia].
  - split; [done|]. split; [by apply arena_wf_write|done].
  - split; cbn [upd_fopts upd_globals set_delays globals fopts retvals delays pokes]; try done.
    + old_flag ow_rval0 Hf.
    + rewrite !has_flag_add. destruct Hf as [-> | ->]; by rewrite !orb_false_r.
    + old_flag ow_signal0 Hf.
    + intros _. cbn. destruct Wg. lia.
    + old_flag ow_poke0 Hf.
Qed.

Lemma poke_tokens_extends toks isenter idx (a b : arena (list poke_payload)) b' ok :
  extends [] a b -> arena_wf b -> ar_size a <= idx -> poke_tokens toks isenter idx b = (b', ok) ->
  extends [] a b' /\ arena_wf b' /\ ar_size b' = ar_size b.
Proof.
  revert b. induction toks as [|tok toks IH]; intros b X W Hi; cbn [poke_tokens]; [intros; by simplify_eq|].
  destruct (poke_token tok isenter) as [poke|]; [|intros; by simplify_eq].
  unfold poke_add. destruct (existsb _ _); [intros; by simplify_eq|]. intros E.
  apply IH in E; [exact E|by apply extends_write|by apply arena_wf_write|done].
Qed.

Lemma parse_poke_token_parsing g s input isenter s' ok :
  arena_wf (pokes g) -> parsing g s -> parse_poke_token input isenter s = Ret (s', ok) -> parsing g s'.
Proof.
  intros Wg Pg. unfold parse_poke_token. set (flag := if isenter then _ else _).
  assert (Hf : flag = INJECT_F_POKE_ENTER \/ flag = INJECT_F_POKE_EXIT) by (destruct isenter; auto).
  destruct (has_flag flag (fopts s)); [intros; by simplify_eq|].
  destruct (String.eqb input EmptyString); [intros; by simplify_eq|].
  intros (s1 & E1 & E)%outcome_bind_Ret.
  assert (P1 : parsing g s1 /\ (ar_size (pokes g) <= poke_idx (data (fopts s1)) < ar_size (pokes (globals s1)))).
  { destruct (Z.eqb_spec (poke_idx (data (fopts s))) uint16_max).
    - apply outcome_bind_Ret in E1 as ([idx a1] & En & [= <-]). pose proof Pg as [K [] D P].
      destruct K as [K1 K2 K3 (A1 & A2 & A3) K4 K5].
      destruct (arena_new_extends [] 16 _ [] _ a1 idx ltac:(vm_compute; split; congruence) A3 En)
        as (W & Hi & Hs & _ & X). assert (0 <= ar_size (pokes (globals s))) by (destruct A3; lia).
      assert (ar_size (pokes g) <= ar_size (pokes (globals s))) by (destruct K3; lia).
      split; [|cbn; lia].
      split; [split; try done; by eapply extends_trans| |done|right; cbn; lia].
      split; cbn [upd_fopts upd_globals set_pokes globals fopts retvals delays pokes]; try done. cbn. lia.
    - injection E1 as <-. split; [done|]. destruct Pg as [_ _ _ [|P]]; [done|exact P]. }
  clear Pg E1. destruct P1 as [[K [] D P] Hi].
  destruct (poke_tokens _ _ _ _) as [a ok'] eqn:Ep. destruct K as [K1 K2 K3 (A1 & A2 & A3) K4 K5].
  apply (poke_tokens_extends _ _ _ (pokes g)) in Ep as (X & W & Hs); [|done|done|lia].
  assert (P2 : parsing g (upd_globals (set_pokes a) s1)).
  { split; [by split| |done|right; cbn; rewrite Hs; exact Hi].
    split; cbn [upd_globals set_pokes globals fopts retvals delays pokes]; try done. by rewrite Hs. }
  destruct ok'; injection E as <- <-; [|done]. destruct P2 as [K2' [] D2 P2].
  split; [done| |done|done]. split; cbn [upd_fopts upd_globals globals fopts]; try done.
  - old_flag ow_rval1 Hf.
  - rewrite !has_flag_add. destruct Hf as [-> | ->]; by rewrite !orb_false_r.
  - old_flag ow_signal1 Hf.
  - old_flag ow_delay1 Hf.
  - intros _. cbn. rewrite Hs. destruct Wg. lia.
Qed.

Lemma parsing_pdata g s l : parsing g s -> parsing g (mk_parse (globals s) (fopts s) l).
Proof. intros [K O D P]. by split. Qed.

Definition arenas_wf (g : qual_state) : Prop := arena_wf (retvals g) /\ arena_wf (delays g) /\ arena_wf (pokes g).

Lemma scno_pers_loop_length n val p l l' ok : scno_pers_loop n val p l = (l', ok) -> length l' = length l.
Proof.
  revert p l. induction n as [|n IH]; intros p l; cbn [scno_pers_loop]; [intros; by simplify_eq|].
  destruct (_ <? 0); [intros; by simplify_eq|]. destruct (negb _); [intros; by simplify_eq|].
  intros E. apply IH in E. by rewrite length_insert in E.
Qed.

Lemma parse_inject_token_parsing g s token fault s' ok :
  arenas_wf g -> parsing g s -> parse_inject_token token fault s = Ret (s', ok) ->
  parsing g s' /\ length (pdata s') = length (pdata s).
Proof.
  intros (W1 & W2 & W3) P. unfold parse_inject_token. cbv zeta.
  assert (No : Ret (s, false) = Ret (s', ok) -> parsing g s' /\ length (pdata s') = length (pdata s))
    by (intros; by simplify_eq).
  destruct (strip_prefix "when=" token) as [val|].
  { destruct (parse_when val) as [[[f l] st]|] eqn:E; [|exact No]. intros [= <- <-].
    apply parse_when_range in E as (? & ? & ?). split; [by apply parsing_when|done]. }
  destruct (strip_prefix "syscall=" token) as [val|].
  { destruct (has_flag _ _); [exact No|]. destruct (scno_pers_loop _ _ _ _) as [l ok'] eqn:E.
    apply scno_pers_loop_length in E. destruct ok'; intros [= <- <-]; (split; [|exact E]);
      [by apply parsing_syscall|by apply parsing_pdata]. }
  destruct (strip_prefix "error=" token) as [val|].
  { destruct (has_flag _ _) eqn:HF; [exact No|]. destruct (_ <? 1); [exact No|].
    intros ([idx a] & E & [= <- <-])%outcome_bind_Ret. split; [|done]. eapply parsing_retval; eauto. }
  destruct fault; [exact No|].
  destruct (strip_prefix "retval=" token) as [val|].
  { destruct (has_flag _ _) eqn:HF; [exact No|].
    destruct (strtoull0 val) as [[[v e] er]|]; [|exact No]. destruct e; [|exact No].
    destruct (_ && er); [exact No|].
    intros ([idx a] & E & [= <- <-])%outcome_bind_Ret. split; [|done]. eapply parsing_retval; eauto. }
  destruct (strip_prefix "signal=" token) as [val|].
  { destruct (has_flag _ _); [exact No|].
    destruct (Z.ltb_spec (sigstr_to_uint val) 1); [exact No|].
    destruct (Z.ltb_spec (NSIG_BYTES * 8) (sigstr_to_uint val)); [exact No|].
    intros [= <- <-]. split; [|done]. apply parsing_signal; [done|lia]. }
  assert (Hlen : forall f x b, (parse_poke_token x b s = Ret (s', ok) \/ parse_delay_token x b s = Ret (s', ok)) ->
    f = tt -> length (pdata s') = length (pdata s)).
  { intros _ x b HE _. unfold parse_poke_token, parse_delay_token in HE. destruct HE as [HE|HE].
    - destruct (has_flag _ _); [by simplify_eq|]. destruct (String.eqb _ _); [by simplify_eq|].
      apply outcome_bind_Ret in HE as (s1 & E1 & E2).
      assert (pdata s1 = pdata s) as <-.
      { destruct (_ =? _); [|by simplify_eq]. by apply outcome_bind_Ret in E1 as ([i a] & _ & [= <-]). }
      destruct (poke_tokens _ _ _ _) as [a []]; by simplify_eq.
    - destruct (has_flag _ _); [by simplify_eq|]. destruct (parse_ts _); [|by simplify_eq].
      apply outcome_bind_Ret in HE as (s1 & E1 & (a & Ea & [= <- <-])%outcome_bind_Ret).
      assert (pdata s1 = pdata s) as <-; [|done].
      destruct (_ =? _); [|by simplify_eq]. by apply outcome_bind_Ret in E1 as ([i a'] & _ & [= <-]). }
  destruct (strip_prefix "poke_enter=" token) as [val|].
  { intros E. split; [by eapply parse_poke_token_parsing|eapply (Hlen tt); eauto]. }
  destruct (strip_prefix "poke_exit=" token) as [val|].
  { intros E. split; [by eapply parse_poke_token_parsing|eapply (Hlen tt); eauto]. }
  destruct (strip_prefix "delay_enter=" token) as [val|].
  { intros E. split; [by eapply parse_delay_token_parsing|eapply (Hlen tt); eauto]. }
  destruct (strip_prefix "delay_exit=" token) as [val|]; [|exact No].
  intros E. split; [by eapply parse_delay_token_parsing|eapply (Hlen tt); eauto].
Qed.

Lemma inject_tokens_parsing g toks fault s s' ok :
  arenas_wf g -> parsing g s -> inject_tokens toks fault s = Ret (s', ok) ->
  parsing g s' /\ length (pdata s') = length (pdata s).
Proof.
  intros W. revert s. induction toks as [|tok toks IH]; intros s P; cbn [inject_tokens]; [intros; by simplify_eq|].
  intros ([s1 ok1] & E1 & E2)%outcome_bind_Ret. apply (parse_inject_token_parsing g) in E1 as [P1 L1]; [|done|done].
  destruct ok1; [|by simplify_eq]. apply IH in E2 as [P2 L2]; [|done]. split; [done|congruence].
Qed.

Lemma parsing_init g l : arenas_wf g -> parsing g (mk_parse g opts_init l).
Proof.
  intros (W1 & W2 & W3). split; [split; try apply extends_refl; done| |by left|by left].
  split; cbn; try lia; try done; unfold INJECT_LAST_INF; lia.
Qed.

Lemma parse_inject_expression_parsing g str fault l s' name :
  arenas_wf g -> parse_inject_expression str fault (mk_parse g opts_init l) = Ret (s', name) ->
  parsing g s' /\ length (pdata s') = length l.
Proof.
  intros W. pose proof (parsing_init g l W) as P. unfold parse_inject_expression.
  destruct str as [|c str]; [intros; by simplify_eq|].
  destruct (Ascii.eqb c ":"); [intros; by simplify_eq|].
  destruct (strtok_all _ _) as [|n toks]; [intros; by simplify_eq|].
  intros ([s1 ok] & E & [= <- <-])%outcome_bind_Ret. by apply (inject_tokens_parsing g) in E as [? ?].
Qed.

End inject_wf.

(** ** The table of injections *)

Section inject_merge.
Context {ST : SyscallTables} {QT : QualifyTables}.
Hypothesis designators_complete : lenZ personality_designators = SUPPORTED_PERSONALITIES.

Definition empty_sets : list number_set := alloc_number_set_array SUPPORTED_PERSONALITIES.
Definition inj_sets (s : qual_state) : list number_set := default empty_sets (qsets s inject_set).
Definition inj_vec (s : qual_state) (p : Z) : list inject_opts :=
  default (replicate (Z.to_nat (nsyscall_vec p)) opts0) (inject_vec_at s p).
Definition inj_at (s : qual_state) (p i : Z) : inject_opts := nth (Z.to_nat i) (inj_vec s p) opts0.

(** [inject_vec] has a row for each personality, as long as its table. *)
Record inj_wf (s : qual_state) : Prop := {
  iw_rows : lenZ (inject_vec s) = SUPPORTED_PERSONALITIES;
  iw_row : forall p, 0 <= p < SUPPORTED_PERSONALITIES -> lenZ (inj_vec s p) = nsyscall_vec p;
  iw_sets : sets_wf (inj_sets s);
  iw_plain : forall p, 0 <= p < SUPPORTED_PERSONALITIES -> not_ (set_at (inj_sets s) p) = false }.

Lemma empty_sets_wf : sets_wf empty_sets.
Proof.
  unfold empty_sets, alloc_number_set_array. split.
  - rewrite lenZ_replicate. pose proof (lenZ_nonneg (tables (SyscallTables := ST))). unfold SUPPORTED_PERSONALITIES. lia.
  - apply list.Forall_replicate. split; [done|constructor].
Qed.

Lemma merge_loop_spec n i p tmp opts sets vec :
  0 <= p < SUPPORTED_PERSONALITIES -> 0 <= i -> i + Z.of_nat n <= lenZ vec -> sets_wf sets ->
  let '(sets', vec') := merge_loop n i p tmp opts sets vec in
  let sel m := (i <=? m) && (m <? i + Z.of_nat n) && is_number_in_set_array m (Some tmp) p in
  adds_to sets sets' (fun q m => (q =? p) && sel m) /\ lenZ vec' = lenZ vec /\
  forall m, 0 <= m -> nth (Z.to_nat m) vec' opts0 = if sel m then opts else nth (Z.to_nat m) vec opts0.
Proof.
  intros Hp. revert i sets vec. induction n as [|n IH]; intros i sets vec Hi Hn W.
  - cbn [merge_loop]. split; [|split; [done|]].
    + eapply adds_to_ext; [|by apply adds_to_refl]. intros q m. cbn beta.
      destruct (Z.leb_spec i m), (Z.ltb_spec m (i + Z.of_nat 0)); try lia; by rewrite andb_false_r.
    + intros m Hm. by destruct (Z.leb_spec i m), (Z.ltb_spec m (i + Z.of_nat 0)); try lia.
  - cbn [merge_loop]. destruct (is_number_in_set_array i (Some tmp) p) eqn:Ei.
    + pose proof (adds_one sets p i W Hp Hi) as A1.
      specialize (IH (i + 1) (add_number_to_set_array i sets p) (<[Z.to_nat i := opts]> vec) ltac:(lia)).
      destruct (merge_loop n (i + 1) p tmp opts _ _) as [sets' vec'].
      destruct IH as (A & L & N); [unfold lenZ in *; rewrite length_insert; lia|apply A1|].
      split; [|split; [rewrite L; unfold lenZ; by rewrite length_insert|]].
      * eapply adds_to_ext; [|exact (adds_to_trans _ _ _ _ _ A1 A)]. intros q m. cbn beta.
        destruct (q =? p); cbn [andb orb]; [|done]. destruct (Z.eqb_spec m i) as [->|].
        -- rewrite Ei. destruct (Z.leb_spec i i), (Z.ltb_spec i (i + Z.of_nat (S n))); try lia; done.
        -- destruct (Z.leb_spec i m), (Z.leb_spec (i + 1) m), (Z.ltb_spec m (i + Z.of_nat (S n))),
             (Z.ltb_spec m (i + 1 + Z.of_nat n)); try lia; done.
      * intros m Hm. rewrite N by done. destruct (Z.eq_dec m i) as [->|Hne].
        -- rewrite Ei. destruct (Z.leb_spec i i), (Z.ltb_spec i (i + Z.of_nat (S n))), (Z.leb_spec (i + 1) i); try lia.
           cbn [andb]. rewrite nth_lookup, list_lookup_insert_eq by (unfold lenZ in Hn; lia). done.
        -- rewrite (nth_lookup (<[Z.to_nat i := opts]> vec)), list_lookup_insert_ne, <- nth_lookup by lia.
           destruct (Z.leb_spec i m), (Z.leb_spec (i + 1) m), (Z.ltb_spec m (i + Z.of_nat (S n))),
             (Z.ltb_spec m (i + 1 + Z.of_nat n)); try lia; done.
    + specialize (IH (i + 1) sets vec ltac:(lia) ltac:(lia) W).
      destruct (merge_loop n (i + 1) p tmp opts sets vec) as [sets' vec']. destruct IH as (A & L & N).
      assert (Hsel : forall m, (i + 1 <=? m) && (m <? i + 1 + Z.of_nat n) && is_number_in_set_array m (Some tmp) p =
        (i <=? m) && (m <? i + Z.of_nat (S n)) && is_number_in_set_array m (Some tmp) p).
      { intros m. destruct (Z.eq_dec m i) as [->|Hne]; [by rewrite Ei, !andb_false_r|].
        destruct (Z.leb_spec i m), (Z.leb_spec (i + 1) m), (Z.ltb_spec m (i + Z.of_nat (S n))),
          (Z.ltb_spec m (i + 1 + Z.of_nat n)); try lia; done. }
      split; [|split; [done|]].
      * eapply adds_to_ext; [|exact A]. intros q m. cbn beta. by rewrite Hsel.
      * intros m Hm. rewrite N by done. by rewrite Hsel.
Qed.

Lemma empty_set_no_member tmp p m :
  0 <= m -> number_set_array_is_empty (Some tmp) p = true -> is_number_in_set_array m (Some tmp) p = false.
Proof.
  intros Hm. unfold number_set_array_is_empty, is_number_in_set_array. cbv zeta.
  destruct (Z.eqb_spec (nslots (set_at tmp p)) 0) as [->|]; [|done]. cbn [negb orb].
  destruct (not_ (set_at tmp p)); [done|]. intros _.
  rewrite (proj2 (Z.ltb_ge _ _)); [done|]. apply Z.div_pos; unfold BITS_PER_SLOT; lia.
Qed.

(** What a personality's pass of the loop leaves alone. *)
Definition same_rest (s s' : qual_state) : Prop :=
  (forall q, q <> inject_set -> qsets s' q = qsets s q) /\ retvals s' = retvals s /\ delays s' = delays s /\
  pokes s' = pokes s /\ effects s' = effects s /\ quiet_set_updated s' = quiet_set_updated s /\
  decode_fd_set_updated s' = decode_fd_set_updated s /\ tracing_fds s' = tracing_fds s.

Lemma same_rest_trans s s' s'' : same_rest s s' -> same_rest s' s'' -> same_rest s s''.
Proof.
  intros (H1 & H2 & H3 & H4 & H5 & H6 & H7 & H8) (I1 & I2 & I3 & I4 & I5 & I6 & I7 & I8).
  repeat split; try congruence. intros q Hq. rewrite I1, H1 by done. done.
Qed.

Lemma merge_pers_spec n p tmp opts scnos s :
  0 <= p -> p + Z.of_nat n <= SUPPORTED_PERSONALITIES -> inj_wf s ->
  let s' := merge_pers n p tmp opts scnos s in
  let sel q m := (p <=? q) && (q <? p + Z.of_nat n) && (m <? nsyscall_vec q) && is_number_in_set_array m (Some tmp) q in
  inj_wf s' /\ same_rest s s' /\
  (forall q, 0 <= q < SUPPORTED_PERSONALITIES -> not_ (set_at (inj_sets s') q) = not_ (set_at (inj_sets s) q) /\
    forall m, 0 <= m -> m ∈ elems (set_at (inj_sets s') q) <-> sel q m = true \/ m ∈ elems (set_at (inj_sets s) q)) /\
  forall q m, 0 <= q < SUPPORTED_PERSONALITIES -> 0 <= m ->
    inj_at s' q m = if sel q m then set_scno (nthZ scnos q) opts else inj_at s q m.
Proof.
  cbv zeta. revert p s. induction n as [|n IH]; intros p s Hp Hn W; cbn [merge_pers].
  { assert (Hsel : forall q, (p <=? q) && (q <? p + Z.of_nat 0) = false)
      by (intros q; destruct (Z.leb_spec p q), (Z.ltb_spec q (p + Z.of_nat 0)); lia || done).
    split; [done|]. split; [done|]. split.
    - intros q Hq. split; [done|]. intros m Hm. rewrite Hsel. simpl. intuition congruence.
    - intros q m Hq Hm. by rewrite Hsel. }
  assert (Hsplit : forall q b, (p <=? q) && (q <? p + Z.of_nat (S n)) && b =
    (q =? p) && b || (p + 1 <=? q) && (q <? p + 1 + Z.of_nat n) && b).
  { intros q b. destruct b; rewrite ?andb_true_r, ?andb_false_r; [|done].
    destruct (Z.eqb_spec q p), (Z.leb_spec p q), (Z.leb_spec (p + 1) q), (Z.ltb_spec q (p + Z.of_nat (S n))),
      (Z.ltb_spec q (p + 1 + Z.of_nat n)); try lia; done. }
  destruct (number_set_array_is_empty (Some tmp) p) eqn:Ee.
  - destruct (IH (p + 1) s ltac:(lia) ltac:(lia) W) as (W' & R & A & N).
    assert (Hsel : forall q m, 0 <= m ->
      (p <=? q) && (q <? p + Z.of_nat (S n)) && (m <? nsyscall_vec q) && is_number_in_set_array m (Some tmp) q =
      (p + 1 <=? q) && (q <? p + 1 + Z.of_nat n) && (m <? nsyscall_vec q) && is_number_in_set_array m (Some tmp) q).
    { intros q m Hm. rewrite <- !andb_assoc, (andb_assoc (p <=? q)), Hsplit.
      destruct (Z.eqb_spec q p) as [->|]; [|by rewrite andb_false_l, orb_false_l, !andb_assoc].
      rewrite (empty_set_no_member tmp p m Hm Ee), !andb_false_r. done. }
    split; [done|]. split; [done|]. split.
    + intros q Hq. destruct (A q Hq) as [E F]. split; [done|]. intros m Hm. by rewrite F, Hsel.
    + intros q m Hq Hm. by rewrite N, Hsel.
  - fold empty_sets. fold (inj_sets s). fold (inj_vec s p).
    pose proof (merge_loop_spec (Z.to_nat (nsyscall_vec p)) 0 p tmp (set_scno (nthZ scnos p) opts) (inj_sets s)
      (inj_vec s p) ltac:(lia) ltac:(lia)) as HM.
    assert (Hns : 0 <= nsyscall_vec p) by apply lenZ_nonneg.
    destruct W as [Wr Wrow Ws Wn]. specialize (HM ltac:(rewrite Wrow; lia) Ws).
    destruct (merge_loop _ 0 p tmp _ _ _) as [sets' vec'].
    destruct HM as ((Wsets & A1) & L1 & N1). rewrite !Z2Nat.id in * by lia.
    set (s1 := set_inject_vec _ _).
    assert (Hvec : forall q, 0 <= q < SUPPORTED_PERSONALITIES -> inj_vec s1 q = if q =? p then vec' else inj_vec s q).
    { intros q Hq. unfold inj_vec at 1, inject_vec_at. cbn [s1 set_inject_vec inject_vec]. rewrite nth_lookup.
      unfold lenZ in Wr. destruct (Z.eqb_spec q p) as [->|].
      - by rewrite list_lookup_insert_eq by lia.
      - rewrite list_lookup_insert_ne by lia. by rewrite <- nth_lookup. }
    assert (Hsets1 : inj_sets s1 = sets') by done.
    assert (W1 : inj_wf s1).
    { split; [unfold lenZ in *; cbn; by rewrite length_insert| |by rewrite Hsets1|].
      - intros q Hq. rewrite Hvec by done. destruct (Z.eqb_spec q p) as [->|]; [by rewrite L1, Wrow|by apply Wrow].
      - intros q Hq. rewrite Hsets1. destruct (A1 q Hq) as [-> _]. by apply Wn. }
    destruct (IH (p + 1) s1 ltac:(lia) ltac:(lia) W1) as (W' & R & A & N).
    assert (R1 : same_rest s s1) by (repeat split; intros q Hq; cbn; by rewrite decide_False).
    split; [done|]. split; [by eapply same_rest_trans|]. split.
    + intros q Hq. destruct (A q Hq) as [E F], (A1 q Hq) as [E1 F1]. split; [by rewrite E, Hsets1|].
      intros m Hm. rewrite F, Hsets1, F1 by done.
      rewrite <- !andb_assoc, (andb_assoc (p <=? q)), (andb_assoc (p + 1 <=? q)), Hsplit, orb_true_iff.
      rewrite (proj2 (Z.leb_le 0 m) Hm). cbn [andb]. destruct (Z.eqb_spec q p) as [->|]; [|cbn [andb]; tauto].
      rewrite Z.add_0_l. tauto.
    + intros q m Hq Hm. rewrite N by done. unfold inj_at. rewrite Hvec by done.
      rewrite <- !andb_assoc, (andb_assoc (p <=? q)), (andb_assoc (p + 1 <=? q)), Hsplit.
      destruct (Z.eqb_spec q p) as [->|]; cbn [andb orb].
      * rewrite (proj2 (Z.leb_gt (p + 1) p)) by lia. cbn [andb]. rewrite orb_false_r, N1 by done.
        by rewrite (proj2 (Z.leb_le 0 m) Hm), Z.add_0_l.
      * done.
Qed.

(** Membership in [inject_set], which may not be allocated yet. *)
Definition injected (s : qual_state) (q m : Z) : bool := is_number_in_set_array m (qsets s inject_set) q.

Lemma set_at_empty q : 0 <= q < SUPPORTED_PERSONALITIES -> set_at empty_sets q = mk_number_set [] 0 false.
Proof.
  intros Hq. unfold set_at, empty_sets, alloc_number_set_array. rewrite nth_lookup.
  by rewrite lookup_replicate_2 by lia.
Qed.

Lemma injected_elems s q m :
  inj_wf s -> 0 <= q < SUPPORTED_PERSONALITIES -> 0 <= m ->
  injected s q m = bool_decide (m ∈ elems (set_at (inj_sets s) q)).
Proof.
  intros W Hq Hm. unfold injected. pose proof (iw_plain s W q Hq) as Hn. unfold inj_sets in *.
  destruct (qsets s inject_set) as [l|]; cbn [default] in *.
  - rewrite in_set_array_elems by done. change (id l) with l in *. by rewrite Hn, xorb_false_r.
  - rewrite set_at_empty by done. symmetry. apply bool_decide_eq_false. by vm_compute.
Qed.

(** The name part of an injection expression. *)
Definition inject_name (str : string) : string :=
  match str with
  | EmptyString => EmptyString
  | String c _ => if Ascii.eqb c ":" then EmptyString else hd EmptyString (strtok_all ":" str)
  end.

Lemma parse_inject_expression_name str fault st s' name :
  parse_inject_expression str fault st = Ret (s', Some name) -> name = inject_name str.
Proof.
  unfold parse_inject_expression, inject_name. destruct str as [|c str]; [intros; by simplify_eq|].
  destruct (Ascii.eqb c ":"); [intros; by simplify_eq|]. destruct (strtok_all _ _) as [|n toks]; [done|].
  intros ([s1 ok] & _ & E)%outcome_bind_Ret. destruct ok; by simplify_eq.
Qed.

Lemma opts_wf_mono g g' o :
  opts_wf g o -> ar_size (retvals g) <= ar_size (retvals g') -> ar_size (delays g) <= ar_size (delays g') ->
  ar_size (pokes g) <= ar_size (pokes g') -> opts_wf g' o.
Proof.
  intros [] H1 H2 H3. split; try done; intros HF;
    [specialize (ow_rval0 HF)|specialize (ow_delay0 HF)|specialize (ow_poke0 HF)]; lia.
Qed.

Lemma opts_wf_scno g o n : opts_wf g o -> opts_wf g (set_scno n o).
Proof. intros []. by split. Qed.

(** The tables of values after an expression, and the options it gives. *)
Lemma qualify_inject_spec str fault desc s s' :
  inj_wf s -> arenas_wf s -> qualify_inject_common str fault desc s = Ret s' ->
  exists sel opts scnos,
    denote_spec (bangs (inject_name str)).2 = Some sel /\ opts_wf s' opts /\ has_flag INJECT_ACTION_FLAGS opts = true /\
    inj_wf s' /\ arenas_wf s' /\ extends 0 (retvals s) (retvals s') /\ extends delay0 (delays s) (delays s') /\
    extends [] (pokes s) (pokes s') /\ (forall q, q <> inject_set -> qsets s' q = qsets s q) /\
    forall q m, 0 <= q < SUPPORTED_PERSONALITIES -> 0 <= m ->
      let chosen := (m <? nsyscall_vec q) && xorb (Nat.odd (bangs (inject_name str)).1) (sel q m) in
      injected s' q m = chosen || injected s q m /\
      inj_at s' q m = if chosen then set_scno (nthZ scnos q) opts else inj_at s q m.
Proof.
  intros W A. unfold qualify_inject_common. cbv zeta.
  intros ([st name] & E & H)%outcome_bind_Ret. destruct name as [name|]; [|done].
  pose proof (parse_inject_expression_name _ _ _ _ _ E) as ->.
  apply parse_inject_expression_parsing in E as [P _]; [|done].
  apply outcome_bind_Ret in H as (tmp & Et & H). apply outcome_bind_Ret in H as (st' & Es & [= <-]).
  pose proof (qualify_syscall_tokens_spec designators_complete (inject_name str) empty_sets empty_sets_wf) as HT.
  destruct (denote_spec _) as [sel|]; [|destruct HT as [msg HT]; unfold empty_sets in HT; congruence].
  destruct HT as (tmp' & Et' & Wt & Ht). unfold empty_sets in Et'. rewrite Et in Et'. injection Et' as <-.
  assert (P' : parsing s st' /\ has_flag INJECT_ACTION_FLAGS (fopts st') = true).
  { destruct (has_flag INJECT_ACTION_FLAGS (fopts st)) eqn:Ha; [by simplify_eq|].
    destruct fault; [|done]. apply outcome_bind_Ret in Es as ([idx a] & En & [= <-]). split.
    - eapply parsing_retval; [done|by left| |exact En].
      change INJECT_ACTION_FLAGS with (Z.lor (Z.lor INJECT_F_ERROR INJECT_F_RETVAL) 0xd9) in Ha.
      rewrite has_flag_lor in Ha. by apply orb_false_iff in Ha as [? _].
    - cbn [upd_fopts fopts upd_globals]. rewrite has_flag_add. apply orb_true_r. }
  destruct P' as [[K O _ _] Ha]. destruct K as [K1 K2 K3 KA K4 K5].
  assert (Wst : inj_wf (globals st')).
  { destruct W as [W1 W2 W3 W4]. unfold inj_vec, inject_vec_at, inj_sets in *.
    split; unfold inj_vec, inject_vec_at, inj_sets; rewrite ?K4, ?K5; done. }
  pose proof (lenZ_nonneg (tables (SyscallTables := ST))) as Hpos. fold SUPPORTED_PERSONALITIES in Hpos.
  destruct (merge_pers_spec (Z.to_nat SUPPORTED_PERSONALITIES) 0 tmp (fopts st') (pdata st') (globals st')
    ltac:(lia) ltac:(lia) Wst) as (W' & R & As & N).
  set (s' := merge_pers _ _ _ _ _ _) in *. destruct R as (R1 & R2 & R3 & R4 & _).
  exists sel, (fopts st'), (pdata st'). split; [done|].
  split; [eapply opts_wf_mono; [exact O|by rewrite R2|by rewrite R3|by rewrite R4]|].
  split; [done|]. split; [done|]. unfold arenas_wf in *. rewrite R2, R3, R4.
  split; [exact KA|]. split; [done|]. split; [done|]. split; [done|].
  split; [intros q Hq; by rewrite R1, K4|].
  intros q m Hq Hm. cbv zeta. rewrite <- Ht by done.
  assert (Hin : injected s q m = injected (globals st') q m) by (unfold injected; by rewrite K4).
  assert (Hat : inj_at s q m = inj_at (globals st') q m)
    by (unfold inj_at, inj_vec, inject_vec_at; by rewrite K5).
  assert (Hrange : (0 <=? q) && (q <? 0 + Z.of_nat (Z.to_nat SUPPORTED_PERSONALITIES)) = true)
    by (apply andb_true_iff; rewrite Z.leb_le, Z.ltb_lt; lia).
  specialize (N q m Hq Hm). destruct (As q Hq) as [_ F]. specialize (F m Hm).
  rewrite Hrange in N, F. rewrite andb_true_l in N, F. split; [|by rewrite Hat].
  rewrite Hin, !injected_elems by done. apply eq_true_iff_eq.
  rewrite orb_true_iff, !bool_decide_eq_true. exact F.
Qed.


(** *** All qualifiers *)

Definition arity (q : qset) : Z :=
  match q with
  | trace_set | abbrev_set | verbose_set | raw_set | inject_set => SUPPORTED_PERSONALITIES
  | _ => 1
  end.

(** The state the qualifiers keep: sets of the right number, and usable options
    for every syscall to inject. *)
Record qual_wf (s : qual_state) : Prop := {
  qw_sets : forall q l, qsets s q = Some l -> lenZ l = arity q /\ Forall wf_set l;
  qw_inject : inj_wf s;
  qw_arenas : arenas_wf s;
  qw_options : forall q m, 0 <= q < SUPPORTED_PERSONALITIES -> 0 <= m -> injected s q m = true ->
    opts_wf s (inj_at s q m) /\ has_flag INJECT_ACTION_FLAGS (inj_at s q m) = true }.

Definition qual0 : qual_state :=
  mk_qual (fun _ => None) false false false (replicate (Z.to_nat SUPPORTED_PERSONALITIES) None)
    arena_init arena_init arena_init [].

Lemma qual0_wf : qual_wf qual0.
Proof.
  pose proof (lenZ_nonneg (tables (SyscallTables := ST))) as Hpos. fold SUPPORTED_PERSONALITIES in Hpos.
  split; [done| | |done].
  - split; [cbn [qual0 inject_vec]; rewrite lenZ_replicate; lia| |apply empty_sets_wf|].
    + intros p Hp. unfold inj_vec, inject_vec_at. cbn [qual0 inject_vec]. rewrite nth_lookup, lookup_replicate_2 by lia.
      simpl default. rewrite lenZ_replicate. pose proof (lenZ_nonneg (table p)). unfold nsyscall_vec. lia.
    + intros p Hp. change (inj_sets qual0) with empty_sets. by rewrite set_at_empty.
  - unfold arenas_wf, arena_wf. vm_compute. intuition congruence.
Qed.

(** A qualifier that only changes one set other than [inject_set]. *)
Lemma qual_wf_set q l s s' :
  qual_wf s -> q <> inject_set -> lenZ l = arity q -> Forall wf_set l ->
  qsets s' = qsets (set_qset q (Some l) s) -> inject_vec s' = inject_vec s -> retvals s' = retvals s ->
  delays s' = delays s -> pokes s' = pokes s -> qual_wf s'.
Proof.
  intros [W1 W2 W3 W4] Hq Hl HF E1 E2 E3 E4 E5.
  assert (Hi : qsets s' inject_set = qsets s inject_set) by (rewrite E1; cbn; by rewrite decide_False).
  assert (Hat : forall p m, inj_at s' p m = inj_at s p m)
    by (intros; unfold inj_at, inj_vec, inject_vec_at; by rewrite E2).
  split.
  - intros r l'. rewrite E1. cbn. case_decide; [|apply W1]. intros [= <-]. by subst.
  - destruct W2 as [A B C N]. unfold inj_vec, inject_vec_at, inj_sets in *.
    split; unfold inj_vec, inject_vec_at, inj_sets; rewrite ?E2, ?Hi; done.
  - unfold arenas_wf. by rewrite E3, E4, E5.
  - intros p m Hp Hm. unfold injected. rewrite Hi, Hat. intros H'. destruct (W4 p m Hp Hm H') as [O F].
    split; [|done]. eapply opts_wf_mono; [exact O|by rewrite E3|by rewrite E4|by rewrite E5].
Qed.

Lemma qualify_one_wf q str func name s s' :
  qual_wf s -> arity q = 1 -> q <> inject_set -> qualify_one q str func name s = Ret s' -> qual_wf s'.
Proof.
  intros W Ha Hq (set & E & [= <-])%outcome_bind_Ret.
  assert (Wset : wf_set (one_set q s)).
  { unfold one_set. destruct (qsets s q) as [l|] eqn:El; [|split; [done|constructor]].
    destruct (qw_sets s W q l El) as [Hl HF]. destruct l as [|x l]; [rewrite Ha in Hl; done|].
    by inversion HF. }
  pose proof (qualify_tokens_spec str func name (one_set q s) Wset) as H.
  destruct (spec_members _ _); [|destruct H as [msg H]; congruence].
  destruct H as (set' & E' & Ws & _). rewrite E in E'. injection E' as <-.
  eapply (qual_wf_set q [set] s); try done. by constructor.
Qed.

Lemma qualify_many_wf q str s s' :
  qual_wf s -> arity q = SUPPORTED_PERSONALITIES -> q <> inject_set -> qualify_many q str s = Ret s' -> qual_wf s'.
Proof.
  intros W Ha Hq (set & E & [= <-])%outcome_bind_Ret. fold empty_sets in E.
  assert (Wset : sets_wf (default empty_sets (qsets s q))).
  { destruct (qsets s q) as [l|] eqn:El; [|apply empty_sets_wf].
    destruct (qw_sets s W q l El) as [Hl HF]. split; [by rewrite <- Ha|done]. }
  pose proof (qualify_syscall_tokens_spec designators_complete str _ Wset) as H.
  destruct (denote_spec _); [|destruct H as [msg H]; congruence].
  destruct H as (set' & E' & [Hl HF] & _). rewrite E in E'. injection E' as <-.
  eapply (qual_wf_set q set s); try done. by rewrite Ha.
Qed.

Lemma qualify_inject_wf str fault desc s s' :
  qual_wf s -> qualify_inject_common str fault desc s = Ret s' -> qual_wf s'.
Proof.
  intros [W1 W2 W3 W4] E.
  destruct (qualify_inject_spec _ _ _ _ _ W2 W3 E) as
    (sel & opts & scnos & _ & O & Ha & W2' & W3' & X1 & X2 & X3 & Q & H).
  split; [|done|done|].
  - intros q l Hl. destruct (decide (q = inject_set)) as [->|]; [|rewrite Q in Hl by done; by apply W1].
    destruct W2' as [_ _ Ws _]. unfold inj_sets in Ws. rewrite Hl in Ws. exact Ws.
  - intros q m Hq Hm. destruct (H q m Hq Hm) as [Hi Hat]. cbv zeta in *. rewrite Hi, Hat.
    destruct (_ && _); cbn [orb]; intros Hin.
    + split; [by apply opts_wf_scno|exact Ha].
    + destruct (W4 q m Hq Hm Hin) as [Ow Fl]. split; [|done].
      eapply opts_wf_mono; [exact Ow|apply X1|apply X2|apply X3].
Qed.

Lemma qual_wf_same s s' :
  qual_wf s -> qsets s' = qsets s -> inject_vec s' = inject_vec s -> retvals s' = retvals s ->
  delays s' = delays s -> pokes s' = pokes s -> qual_wf s'.
Proof.
  intros [W1 W2 W3 W4] E1 E2 E3 E4 E5. split.
  - rewrite E1. exact W1.
  - destruct W2 as [A B C N]. unfold inj_vec, inject_vec_at, inj_sets in *.
    split; unfold inj_vec, inject_vec_at, inj_sets; rewrite ?E1, ?E2; done.
  - unfold arenas_wf. by rewrite E3, E4, E5.
  - intros p m Hp Hm. unfold injected, inj_at, inj_vec, inject_vec_at. rewrite E1, E2. intros H'.
    destruct (W4 p m Hp Hm H') as [O F]. split; [|done].
    eapply opts_wf_mono; [exact O|by rewrite E3|by rewrite E4|by rewrite E5].
Qed.

(** *** Dispatch *)

(** The text before and after the first equals sign. *)
Fixpoint split_eq (s : string) : option (string * string) :=
  match s with
  | EmptyString => None
  | String c s' => if Ascii.eqb c "=" then Some (EmptyString, s')
                   else '(a, b) ← split_eq s'; Some (String c a, b)
  end.

Fixpoint lookup_option {A} (opts : list (string * A)) (name : string) : option A :=
  match opts with
  | [] => None
  | (n, f) :: opts' => if String.eqb n name then Some f else lookup_option opts' name
  end.

Lemma strip_prefix_eq name str r :
  strchr name "=" = false ->
  strip_prefix name str = Some (String "=" r) <-> split_eq str = Some (name, r).
Proof.
  revert str. induction name as [|a name IH]; intros str Hn.
  - cbn [strip_prefix]. destruct str as [|c str]; [done|]. cbn [split_eq].
    destruct (Ascii.eqb_spec c "=") as [->|Hne]; [split; intros; by simplify_eq|].
    split; [intros; by simplify_eq|]. destruct (split_eq str) as [[x y]|]; simpl; intros; by simplify_eq.
  - cbn [strchr] in Hn. apply orb_false_iff in Hn as [Ha Hn]. destruct str as [|c str]; [done|].
    cbn [strip_prefix split_eq]. destruct (Ascii.eqb_spec a c) as [->|Hac].
    + destruct (Ascii.eqb_spec c "=") as [->|]; [done|]. rewrite IH by done.
      destruct (split_eq str) as [[x y]|]; simpl; split; intros; by simplify_eq.
    + split; [done|]. destruct (Ascii.eqb c "="); [done|].
      destruct (split_eq str) as [[x y]|]; simpl; intros; by simplify_eq.
Qed.

Lemma find_option_lookup opts str :
  Forall (fun o => strchr o.1 "=" = false) opts ->
  find_option opts str = '(name, val) ← split_eq str; f ← lookup_option opts name; Some (f, val).
Proof.
  induction opts as [|[name f] opts IH]; intros HF.
  { destruct (split_eq str) as [[a b]|]; done. }
  inversion HF as [|?? Hn HF']; subst. cbn [fst] in Hn. cbn [find_option lookup_option].
  specialize (IH HF'). pose proof (strip_prefix_eq name str) as HS.
  destruct (split_eq str) as [[a b]|] eqn:Es; cbn [mbind option_bind] in *.
  - destruct (String.eqb_spec name a) as [->|Hne].
    + by rewrite (proj2 (HS b Hn)).
    + rewrite IH. destruct (strip_prefix name str) as [[|c r]|]; [done| |done].
      destruct (Ascii.eqb_spec c "=") as [->|]; [|done].
      pose proof (proj1 (HS r Hn) eq_refl). by simplify_eq.
  - destruct (strip_prefix name str) as [[|c r]|]; [done| |done].
    destruct (Ascii.eqb_spec c "=") as [->|]; [|done].
    pose proof (proj1 (HS r Hn) eq_refl). by simplify_eq.
Qed.

Lemma qualify_lookup str s :
  qualify str s = match split_eq str with
                  | Some (name, val) => match lookup_option qual_options name with
                                        | Some f => f val s
                                        | None => qualify_trace str s
                                        end
                  | None => qualify_trace str s
                  end.
Proof.
  unfold qualify. rewrite find_option_lookup by (repeat constructor).
  destruct (split_eq str) as [[name val]|]; [|done]. cbn [mbind option_bind].
  by destruct (lookup_option qual_options name).
Qed.

(** An -e argument goes to the qualifier named before its first equals sign,
    with what follows; without an equals sign, or with another name there, the
    whole argument is a specification of syscalls to trace. *)
Theorem qualify_dispatch (str : string) (s : qual_state) :
  qualify str s = match split_eq str with
                  | Some (name, val) => match lookup_option qual_options name with
                                        | Some f => f val s
                                        | None => qualify_trace str s
                                        end
                  | None => qualify_trace str s
                  end.
Proof. apply qualify_lookup. Qed.

(** *** The invariant *)

Lemma qualify_wf str s s' : qual_wf s -> qualify str s = Ret s' -> qual_wf s'.
Proof.
  intros W. rewrite qualify_lookup.
  assert (Htrace : qualify_trace str s = Ret s' -> qual_wf s')
    by (intros E; by apply (qualify_many_wf trace_set str s)).
  destruct (split_eq str) as [[name val]|]; [|exact Htrace].
  destruct (lookup_option qual_options name) as [f|] eqn:El; [|exact Htrace]. clear Htrace.
  assert (Hf : f = qualify_trace \/ f = qualify_abbrev \/ f = qualify_verbose \/ f = qualify_raw \/
    f = qualify_signals \/ f = qualify_status \/ f = qualify_read \/ f = qualify_write \/ f = qualify_decode_pid \/
    f = qualify_trace_fd \/ f = qualify_quiet \/ f = qualify_decode_fd \/ f = qualify_secontext \/
    f = qualify_fault \/ f = qualify_inject \/ f = qualify_kvm \/ f = qualify_namespace).
  { unfold qual_options in El. cbn [lookup_option] in El.
    repeat (destruct (String.eqb _ name) in El; [injection El as <-; tauto|]). done. }
  intros E. destruct Hf as [->|[->|[->|[->|[->|[->|[->|[->|[->|Hf]]]]]]]]].
  1-4: eapply qualify_many_wf; [exact W| | |exact E]; done.
  1-5: eapply qualify_one_wf; [exact W| | |exact E]; done.
  destruct Hf as [->|[->|[->|[->|[->|[->|[->| ->]]]]]]].
  - apply outcome_bind_Ret in E as (s1 & E & [= <-]).
    apply (qual_wf_same s1); try done. eapply qualify_one_wf; [exact W| | |exact E]; done.
  - unfold qualify_quiet in E. refine (qualify_one_wf _ _ _ _ _ _ _ _ _ E); [|done|done].
    destruct (is_null _); [exact W|]. by apply (qual_wf_same s).
  - unfold qualify_decode_fd in E. refine (qualify_one_wf _ _ _ _ _ _ _ _ _ E); [|done|done].
    destruct (is_null _); [exact W|]. by apply (qual_wf_same s).
  - unfold qualify_secontext in E. destruct ENABLE_SECONTEXT; [|done].
    eapply qualify_one_wf; [exact W| | |exact E]; done.
  - eapply qualify_inject_wf; [exact W|exact E].
  - eapply qualify_inject_wf; [exact W|exact E].
  - unfold qualify_kvm in E. destruct (strip_prefix _ _); [|done]. destruct HAVE_LINUX_KVM_H; [|done].
    destruct kvm_supported; [|injection E as <-; by apply (qual_wf_same s)].
    destruct (String.eqb _ _); [injection E as <-; by apply (qual_wf_same s)|].
    destruct (String.eqb _ _); [injection E as <-; by apply (qual_wf_same s)|done].
  - unfold qualify_namespace in E. destruct (String.eqb _ _); [|done]. injection E as <-. by apply (qual_wf_same s).
Qed.

(** Several -e options, in order. *)
Fixpoint qualify_all (args : list string) (s : qual_state) : outcome qual_state :=
  match args with
  | [] => Ret s
  | a :: args' => s ← qualify a s; qualify_all args' s
  end.

(** C13: after any sequence of -e options that is accepted the state is well
    formed: every set has the right number of parts, and every syscall marked
    for injection has options with an action, counters in range and indices of
    results, delays and pokes that are stored, so that using them never dies. *)
Theorem qualify_invariant (args : list string) (s : qual_state) :
  qualify_all args qual0 = Ret s -> qual_wf s.
Proof.
  assert (H : forall s0, qual_wf s0 -> qualify_all args s0 = Ret s -> qual_wf s).
  { induction args as [|a args IH]; intros s0 W; cbn [qualify_all]; [intros; by simplify_eq|].
    intros (s1 & E & E')%outcome_bind_Ret. eapply IH; [by eapply qualify_wf|exact E']. }
  apply H, qual0_wf.
Qed.

End inject_merge.

(** ** A concrete build *)

Definition demo_qualify : QualifyTables := {|
  signame := fun i => if i =? 10 then Some "SIGUSR1" else if i =? 12 then Some "SIGUSR2" else None;
  errnoent := [None; Some "EPERM"; Some "ENOENT"];
  parse_ts_float := fun _ => None;
  malloc_ok := fun _ => true;
  ENABLE_SECONTEXT := false;
  HAVE_LINUX_KVM_H := true;
  kvm_supported := true;
  NSIG_BYTES := 8 |}.

Definition demo_when : when_expr := mk_when 3 (Some 10) (Some (Some 2)).
Definition demo_parse : parse_state :=
  mk_parse (@qual0 demo_tables) opts_init [0; 0].

Lemma when_token_correct_witness :
  exists s', @parse_inject_token demo_tables demo_qualify "when=3..10+2" false demo_parse = Ret (s', true) /\
    nth_hit (fopts s') 5 = true.
Proof.
  destruct (@when_token_correct demo_tables demo_qualify demo_when false demo_parse 5) as (s' & E & _ & _ & H).
  - vm_compute. intuition congruence.
  - lia.
  - exists s'. split; [exact E|]. rewrite H. reflexivity.
Defined.

Lemma parse_ts_correct_witness :
  exists t, @parse_ts demo_qualify "1500ms" = Some t /\ ts_total t = 1500 * 1000000.
Proof.
  destruct (@parse_ts_correct demo_qualify 1500 1000000 "ms") as (t & E & _ & H).
  - vm_compute. intuition congruence.
  - simpl. auto.
  - exists t. split; [exact E|exact H].
Defined.

Definition demo_inject : string := "read,write:error=ENOENT:when=2+:delay_exit=10ms".


Definition demo_options : list string :=
  ["trace=%desc"; "inject=read,write:error=ENOENT:when=2+:delay_exit=10ms"; "signal=!USR1"].

Lemma qualify_invariant_witness :
  exists s, @qualify_all demo_tables demo_qualify demo_options (@qual0 demo_tables) = Ret s /\
    @qual_wf demo_tables demo_qualify s.
Proof.
  destruct (@qualify_all demo_tables demo_qualify demo_options (@qual0 demo_tables))
    as [s|] eqn:E; [|exfalso; vm_compute in E; discriminate].
  exists s. split; [reflexivity|].
  exact (@qualify_invariant demo_tables demo_qualify ltac:(reflexivity) _ s E).
Defined.
