(* ===== verification/MmapCache.v ===== *)
(** * The cache of memory mappings (src/mmap_cache.c)

    The mappings of a tracee with a path, read from /proc/ID/maps and searched
    for the one an address belongs to.  A cache is rebuilt when the mappings may
    have changed since it was made, which a global generation number tells. *)

From Stdlib Require Import Ascii.
From stdpp Require Import pretty sorting.
From S2P Require Import Prelude Util Filters Qualify.
Open Scope Z_scope.

(** ** Lines of /proc/ID/maps *)

Definition take_sign (s : string) : bool * string :=
  match s with
  | String c s' => if Ascii.eqb c "-" then (true, s') else if Ascii.eqb c "+" then (false, s') else (false, s)
  | EmptyString => (false, s)
  end.

(** The digits of "%lx" after the sign; the text "0x" alone is read as 0. *)
Definition hex_number (s : string) : option (Z * string) :=
  match s with
  | String c0 s1 =>
      match s1 with
      | String c1 s2 => if Ascii.eqb c0 "0" && Ascii.eqb (lower c1) "x" then Some (take_base 16 s2 0)
                        else if is_base_digit 16 s then Some (take_base 16 s 0) else None
      | EmptyString => if is_base_digit 16 s then Some (take_base 16 s 0) else None
      end
  | EmptyString => None
  end.

(** "%lx" of sscanf: the value saturates like that of strtoul. *)
Definition scan_lx (s : string) : option (Z * string) :=
  let '(neg, s) := take_sign (skip_spaces s) in
  '(v, r) ← hex_number s;
  Some (if 2 ^ 64 <=? v then 2 ^ 64 - 1 else if neg : bool then uint 64 (- v) else v, r).

(** "%*d". *)
Definition scan_skip_d (s : string) : option string :=
  let '(_, s) := take_sign (skip_spaces s) in
  match s with
  | String c _ => if is_digit c then Some (snd (take_digits s 0)) else None
  | EmptyString => None
  end.

Definition scan_lit (c : ascii) (s : string) : option string :=
  match s with String c' s' => if Ascii.eqb c c' then Some s' else None | EmptyString => None end.

Definition scan_c (s : string) : option (ascii * string) :=
  match s with String c s' => Some (c, s') | EmptyString => None end.

(** "%[^\n]". *)
Fixpoint until_newline (s : string) : string :=
  match s with
  | String c s' => if code_of c =? 10 then EmptyString else String c (until_newline s')
  | EmptyString => EmptyString
  end.
Definition scan_path (s : string) : option string :=
  match until_newline s with EmptyString => None | p => Some p end.

Record maps_line := mk_line {
  l_start : Z; l_end : Z; read_bit : ascii; write_bit : ascii; exec_bit : ascii; shared_bit : ascii;
  l_offset : Z; l_major : Z; l_minor : Z; binary_path : string }.

(** The sscanf of the source, when all ten items are assigned. *)
Definition scan_line (s : string) : option maps_line :=
  '(start, s) ← scan_lx s; s ← scan_lit "-" s; '(end_, s) ← scan_lx s;
  '(r, s) ← scan_c (skip_spaces s); '(w, s) ← scan_c s; '(x, s) ← scan_c s; '(sh, s) ← scan_c s;
  '(offset, s) ← scan_lx s; '(major, s) ← scan_lx s; s ← scan_lit ":" s; '(minor, s) ← scan_lx s;
  s ← scan_skip_d s; path ← scan_path (skip_spaces s);
  Some (mk_line start end_ r w x sh offset major minor path).

(** ** The cache *)

Definition MMAP_CACHE_PROT_READABLE : Z := 1.
Definition MMAP_CACHE_PROT_WRITABLE : Z := 2.
Definition MMAP_CACHE_PROT_EXECUTABLE : Z := 4.
Definition MMAP_CACHE_PROT_SHARED : Z := 8.

Record mmap_cache_entry_t := mk_mmap {
  start_addr : Z; end_addr : Z; mmap_offset : Z; protections : Z; major : Z; minor : Z; binary_filename : string }.
Record mmap_cache_t := mk_cache { entry : list mmap_cache_entry_t; generation : Z }.

Inductive mmap_cache_rebuild_result :=
  MMAP_CACHE_REBUILD_NOCACHE | MMAP_CACHE_REBUILD_READY | MMAP_CACHE_REBUILD_RENEWED.

Definition known_protection (l : maps_line) : bool :=
  (Ascii.eqb (read_bit l) "-" || Ascii.eqb (read_bit l) "r") && (Ascii.eqb (write_bit l) "-" || Ascii.eqb (write_bit l) "w")
  && (Ascii.eqb (exec_bit l) "-" || Ascii.eqb (exec_bit l) "x") && (Ascii.eqb (shared_bit l) "p" || Ascii.eqb (shared_bit l) "s").

Definition line_entry (l : maps_line) : mmap_cache_entry_t :=
  mk_mmap (l_start l) (l_end l) (l_offset l)
    (Z.lor (Z.lor (Z.lor (if Ascii.eqb (read_bit l) "r" then MMAP_CACHE_PROT_READABLE else 0)
                         (if Ascii.eqb (write_bit l) "w" then MMAP_CACHE_PROT_WRITABLE else 0))
                  (if Ascii.eqb (exec_bit l) "x" then MMAP_CACHE_PROT_EXECUTABLE else 0))
           (if Ascii.eqb (shared_bit l) "s" then MMAP_CACHE_PROT_SHARED else 0))
    (l_major l) (l_minor l) (binary_path l).

(** The sanity check against the last entry of the cache. *)
Definition acceptable (entries : list mmap_cache_entry_t) (l : maps_line) : bool :=
  match list.last entries with
  | Some e =>
      if (start_addr e =? l_start l) && (end_addr e =? l_end l) then false
      else negb ((l_start l <=? start_addr e) || (l_start l <? end_addr e))
  | None => true
  end.

(** The loop over what fgets returns; a malformed line ends it. *)
Fixpoint maps_loop (lines : list string) (entries : list mmap_cache_entry_t) : list mmap_cache_entry_t :=
  match lines with
  | [] => entries
  | s :: lines' =>
      match scan_line s with
      | None => maps_loop lines' entries
      | Some l =>
          if negb (known_protection l) then maps_loop lines' entries
          else if l_end l <? l_start l then entries
          else if acceptable entries l then maps_loop lines' (entries ++ [line_entry l])
          else maps_loop lines' entries
      end
  end.

(** [cache] is that of the tracee, [gen] is [mmap_cache_generation], [maps] the
    lines of the file, if it can be opened. *)
Definition mmap_cache_rebuild_if_invalid (gen : Z) (maps : option (list string)) (cache : option mmap_cache_t)
  : mmap_cache_rebuild_result * option mmap_cache_t :=
  let cache := match cache with
               | Some c => if negb (generation c =? gen) then None else Some c
               | None => None
               end in
  match cache with
  | Some c => (MMAP_CACHE_REBUILD_READY, Some c)
  | None =>
      match maps with
      | None => (MMAP_CACHE_REBUILD_NOCACHE, None)
      | Some lines =>
          match maps_loop lines [] with
          | [] => (MMAP_CACHE_REBUILD_NOCACHE, None)
          | es => (MMAP_CACHE_REBUILD_RENEWED, Some (mk_cache es gen))
          end
      end
  end.

Definition mmap_cache_invalidate (gen : Z) : Z := uint 32 (gen + 1).

Definition mmap0 : mmap_cache_entry_t := mk_mmap 0 0 0 0 0 0 EmptyString.
Definition entry_at (c : mmap_cache_t) (i : Z) : mmap_cache_entry_t := nth (Z.to_nat i) (entry c) mmap0.

Fixpoint search_loop (fuel : nat) (c : mmap_cache_t) (ip lower upper : Z) : option (option mmap_cache_entry_t) :=
  match fuel with
  | O => None
  | S fuel' =>
      if lower <=? upper then
        let mid := (upper + lower) / 2 in
        let e := entry_at c mid in
        if (start_addr e <=? ip) && (ip <? end_addr e) then Some (Some e)
        else if ip <? start_addr e then search_loop fuel' c ip lower (mid - 1)
        else search_loop fuel' c ip (mid + 1) upper
      else Some None
  end.

(** The result; [None] (no fuel left) does not happen. *)
Definition mmap_cache_search (cache : option mmap_cache_t) (ip : Z) : option (option mmap_cache_entry_t) :=
  match cache with
  | None => Some None
  | Some c => search_loop (S (length (entry c))) c ip 0 (lenZ (entry c) - 1)
  end.

Definition mmap_cache_search_custom (c : mmap_cache_t) (fn : mmap_cache_entry_t -> bool) : option mmap_cache_entry_t :=
  List.find fn (entry c).

(** ** Order of the entries *)

Definition before (e e' : mmap_cache_entry_t) : Prop := start_addr e < start_addr e' /\ end_addr e <= start_addr e'.

(** Entries are in ascending order and do not overlap. *)
Record cache_wf (es : list mmap_cache_entry_t) : Prop := {
  cw_order : StronglySorted before es;
  cw_range : Forall (fun e => start_addr e <= end_addr e) es }.

Lemma before_last es e : cache_wf es -> list.last es = Some e -> Forall (fun x => x = e \/ before x e) es.
Proof.
  intros [H _] Hl. apply last_Some in Hl as [l ->]. apply StronglySorted_app in H as (H & _ & _).
  apply Forall_app. split; [|by repeat constructor; left].
  apply list.Forall_forall. intros x Hx. right. apply H; [done|]. apply list_elem_of_singleton. done.
Qed.

Lemma cache_wf_snoc es l : cache_wf es -> l_start l <= l_end l -> acceptable es l = true -> cache_wf (es ++ [line_entry l]).
Proof.
  intros W Hl Ha. split; [|apply Forall_app; split; [apply W|by repeat constructor]].
  apply StronglySorted_app. split; [|split; [apply W|repeat constructor]].
  intros x y Hx ->%list_elem_of_singleton. unfold acceptable in Ha.
  destruct (list.last es) as [e|] eqn:E; [|apply last_None in E as ->; by apply not_elem_of_nil in Hx].
  destruct (_ && _); [done|]. apply negb_true_iff, orb_false_iff in Ha as [H1 H2].
  pose proof (proj1 (list.Forall_forall _ _) (before_last es e W E) x Hx) as [->|[H3 H4]]; unfold before; cbn; lia.
Qed.

Lemma maps_loop_wf lines es : cache_wf es -> cache_wf (maps_loop lines es).
Proof.
  revert es. induction lines as [|s lines IH]; intros es W; cbn [maps_loop]; [done|].
  destruct (scan_line s) as [l|]; [|by apply IH]. destruct (known_protection l); [|by apply IH]. cbn [negb].
  destruct (Z.ltb_spec (l_end l) (l_start l)); [done|].
  destruct (acceptable es l) eqn:Ea; [|by apply IH]. apply IH. by apply cache_wf_snoc.
Qed.

Definition cache_ok (c : option mmap_cache_t) : Prop := forall x, c = Some x -> cache_wf (entry x).

Lemma rebuild_wf gen maps cache : cache_ok cache -> cache_ok (mmap_cache_rebuild_if_invalid gen maps cache).2.
Proof.
  intros H. unfold mmap_cache_rebuild_if_invalid.
  assert (Hnew : cache_ok (match maps with
    | None => (MMAP_CACHE_REBUILD_NOCACHE, None)
    | Some lines => match maps_loop lines [] with [] => (MMAP_CACHE_REBUILD_NOCACHE, None)
                    | es => (MMAP_CACHE_REBUILD_RENEWED, Some (mk_cache es gen)) end end).2).
  { destruct maps as [lines|]; [|done].
    pose proof (maps_loop_wf lines [] ltac:(by split; constructor)) as W.
    destruct (maps_loop lines []) as [|e es]; [done|]. by intros x [= <-]. }
  destruct cache as [c|]; [|done]. destruct (negb _); done.
Qed.

(** ** Searching *)

Lemma entry_order c i j : cache_wf (entry c) -> 0 <= i < j -> j < lenZ (entry c) -> before (entry_at c i) (entry_at c j).
Proof.
  intros [H _] Hi Hj. unfold entry_at, lenZ in *. revert i j Hi Hj.
  induction H as [|e es H IH HF]; intros i j Hi Hj; [cbn in Hj; lia|]. cbn [length] in Hj.
  replace (Z.to_nat j) with (S (Z.to_nat (j - 1))) by lia. cbn [nth].
  destruct (Z.eq_dec i 0) as [->|].
  - cbn [nth Z.to_nat]. apply (proj1 (List.Forall_forall _ _) HF). apply nth_In. lia.
  - replace (Z.to_nat i) with (S (Z.to_nat (i - 1))) by lia. cbn [nth]. apply IH; lia.
Qed.

Definition holds (e : mmap_cache_entry_t) (ip : Z) : bool := (start_addr e <=? ip) && (ip <? end_addr e).

Lemma search_loop_spec fuel c ip lo up :
  cache_wf (entry c) -> 0 <= lo -> lo <= up + 1 -> up < lenZ (entry c) -> up - lo + 1 < Z.of_nat fuel ->
  (forall i, 0 <= i < lenZ (entry c) -> i < lo \/ up < i -> holds (entry_at c i) ip = false) ->
  exists r, search_loop fuel c ip lo up = Some r /\
    match r with
    | Some e => exists i, 0 <= i < lenZ (entry c) /\ e = entry_at c i /\ holds e ip = true
    | None => forall i, 0 <= i < lenZ (entry c) -> holds (entry_at c i) ip = false
    end.
Proof.
  intros W. revert lo up. induction fuel as [|fuel IH]; intros lo up H0 Hlo Hup Hf Hout; [lia|]. cbn [search_loop].
  destruct (Z.leb_spec lo up) as [Hle|Hgt]; [|exists None; split; [done|]; intros i Hi; apply Hout; lia].
  set (mid := (up + lo) / 2). assert (Hm : lo <= mid <= up) 
    by (unfold mid; split; [apply Z.div_le_lower_bound|apply Z.div_le_upper_bound]; lia).
  fold (holds (entry_at c mid) ip). destruct (holds (entry_at c mid) ip) eqn:Eh.
  { eexists. split; [done|]. exists mid. split; [lia|done]. }
  destruct (Z.ltb_spec ip (start_addr (entry_at c mid))) as [Hlt|Hge].
  - apply IH; try lia. intros i Hi [Hl|Hu]; [by apply Hout; auto|].
    destruct (Z.eq_dec i mid) as [->|]; [done|]. unfold holds.
    destruct (entry_order c mid i W ltac:(lia) ltac:(lia)). apply andb_false_iff. left. lia.
  - apply IH; try lia. intros i Hi [Hl|Hu]; [|by apply Hout; auto].
    destruct (Z.eq_dec i mid) as [->|]; [done|]. unfold holds.
    destruct (entry_order c i mid W ltac:(lia) ltac:(lia)). apply andb_false_iff. right. lia.
Qed.

Lemma entry_at_In c e : In e (entry c) <-> exists i, 0 <= i < lenZ (entry c) /\ e = entry_at c i.
Proof.
  unfold entry_at, lenZ. split.
  - intros (n & Hn & E)%(In_nth _ _ mmap0). exists (Z.of_nat n). rewrite Nat2Z.id. split; [lia|done].
  - intros (i & Hi & ->). apply nth_In. lia.
Qed.

Lemma holds_unique c e e' ip : cache_wf (entry c) -> In e (entry c) -> In e' (entry c) ->
  holds e ip = true -> holds e' ip = true -> e = e'.
Proof.
  intros W (i & Hi & ->)%entry_at_In (j & Hj & ->)%entry_at_In H1 H2. unfold holds in *.
  apply andb_true_iff in H1, H2. destruct (Z.lt_trichotomy i j) as [|[->|]]; [|done|].
  - destruct (entry_order c i j W); lia.
  - destruct (entry_order c j i W); lia.
Qed.

(** C22: whatever /proc/ID/maps contained, a cache that is built holds mappings in
    ascending order that do not overlap, and [mmap_cache_search] finds the only
    one that holds an address, or none exactly when there is none. *)
Theorem mmap_cache_search_correct (gen : Z) (maps : option (list string)) (cache : option mmap_cache_t) (ip : Z) :
  cache_ok cache ->
  let cache' := (mmap_cache_rebuild_if_invalid gen maps cache).2 in
  cache_ok cache' /\ exists r, mmap_cache_search cache' ip = Some r /\
    forall c, cache' = Some c ->
      match r with
      | Some e => In e (entry c) /\ holds e ip = true /\ forall e', In e' (entry c) -> holds e' ip = true -> e' = e
      | None => forall e, In e (entry c) -> holds e ip = false
      end.
Proof.
  intros Hc cache'. pose proof (rebuild_wf gen maps cache Hc) as W. fold cache' in W. split; [done|].
  destruct cache' as [c|]; [|by exists None]. specialize (W c eq_refl). cbn [mmap_cache_search].
  destruct (search_loop_spec (S (length (entry c))) c ip 0 (lenZ (entry c) - 1) W) as (r & E & Hr);
    [lia|len_lia|lia|unfold lenZ; lia|lia|]. exists r. split; [done|]. intros ? [= <-]. destruct r as [e|].
  - destruct Hr as (i & Hi & -> & Hh). assert (Hin : In (entry_at c i) (entry c)) by (apply entry_at_In; by exists i).
    split; [done|]. split; [done|]. intros e' He' Hh'. by apply (holds_unique c e' (entry_at c i) ip).
  - intros e (i & Hi & ->)%entry_at_In. by apply Hr.
Qed.

(** A cache is used as long as the generation is the one it was made in, and the
    file is read anew after [mmap_cache_invalidate]. *)
Lemma rebuild_generation gen maps c :
  mmap_cache_rebuild_if_invalid (generation c) maps (Some c) = (MMAP_CACHE_REBUILD_READY, Some c) /\
  (in_uint 32 (generation c) -> gen = mmap_cache_invalidate (generation c) ->
   mmap_cache_rebuild_if_invalid gen maps (Some c) = mmap_cache_rebuild_if_invalid gen maps None).
Proof.
  split; [unfold mmap_cache_rebuild_if_invalid; by rewrite Z.eqb_refl|]. intros Hg ->.
  unfold mmap_cache_rebuild_if_invalid. replace (generation c =? mmap_cache_invalidate (generation c)) with false; [done|].
  symmetry. apply Z.eqb_neq. unfold mmap_cache_invalidate, uint, in_uint in *.
  destruct (Z.eq_dec (generation c) (2 ^ 32 - 1)) as [->|]; [done|]. rewrite Z.mod_small by lia. lia.
Qed.

(** ** Reading the kernel's lines *)

(** [r] after "%0wlx" of [v]. *)
Fixpoint zeros (n : nat) (s : string) : string := match n with O => s | S n' => String "0" (zeros n' s) end.
Definition hex_to (w : nat) (v : Z) (r : string) : string :=
  zeros (w - String.length (hex_digits 16 v EmptyString)) (hex_digits 16 v r).

Fixpoint spaces (n : nat) (s : string) : string := match n with O => s | S n' => String " " (spaces n' s) end.

(** The line the kernel prints for a mapping: "%08lx-%08lx %c%c%c%c %08llx
    %02x:%02x %lu ", spaces and the path. *)
Definition maps_text (l : maps_line) (inode : Z) (pad : nat) : string :=
  hex_to 8 (l_start l) (String "-" (hex_to 8 (l_end l) (String " "
    (String (read_bit l) (String (write_bit l) (String (exec_bit l) (String (shared_bit l) (String " "
    (hex_to 8 (l_offset l) (String " " (hex_to 2 (l_major l) (String ":" (hex_to 2 (l_minor l) (String " "
    (pretty inode +:+ String " " (spaces pad (binary_path l +:+ String (ascii_of_nat 10) EmptyString))))))))))))))))).

Lemma hex_digit_value d : 0 <= d < 16 -> hex_value (hex_digit d) = Some d.
Proof.
  intros H. assert (E : forallb (fun n => match hex_value (hex_digit (Z.of_nat n)) with Some v => v =? Z.of_nat n | None => false end)
    (seq 0 16) = true) by reflexivity.
  apply (proj1 (List.forallb_forall _ _)) with (x := Z.to_nat d) in E; [|apply in_seq; lia].
  rewrite Z2Nat.id in E by lia. destruct (hex_value (hex_digit d)); [|done]. f_equal. lia.
Qed.

(** One or more hexadecimal digits, then [r]. *)
Inductive digits_then (r : string) : string -> Prop :=
  | dt_one c d : hex_value c = Some d -> 0 <= d < 16 -> digits_then r (String c r)
  | dt_more c d s : hex_value c = Some d -> 0 <= d < 16 -> digits_then r s -> digits_then r (String c s).

Lemma hex_digits_then n z r acc : acc = r \/ digits_then r acc -> digits_then r (hex_digits (S n) z acc).
Proof.
  revert z acc. induction n as [|n IH]; intros z acc Ha; cbn [hex_digits];
    pose proof (Z.mod_pos_bound z 16 ltac:(lia)) as Hm; pose proof (hex_digit_value (z mod 16) Hm) as Hd;
    assert (Hs : digits_then r (String (hex_digit (z mod 16)) acc)) by (destruct Ha as [->|Ha]; [by eapply dt_one|by eapply dt_more]).
  - by destruct (z / 16 =? 0).
  - destruct (z / 16 =? 0); [done|]. apply IH. by right.
Qed.

Lemma hex_to_then w v r : digits_then r (hex_to w v r).
Proof.
  unfold hex_to. generalize (w - String.length (hex_digits 16 v EmptyString))%nat as n.
  induction n as [|n IH]; cbn [zeros]; [by apply hex_digits_then; left|]. by apply (dt_more r "0" 0).
Qed.

Definition starts_hex (r : string) : bool := is_base_digit 16 r.

Lemma take_base_digits n z acc : 0 <= z < 16 ^ Z.of_nat n -> (0 < n)%nat ->
  take_base 16 (hex_digits n z acc) 0 = take_base 16 acc z.
Proof.
  revert z acc. induction n as [|n IH]; intros z acc Hz Hn; [lia|]. cbn [hex_digits].
  pose proof (Z.mod_pos_bound z 16 ltac:(lia)) as Hm. pose proof (Z.div_mod z 16 ltac:(lia)) as Hd.
  assert (Hstep : forall a, take_base 16 (String (hex_digit (z mod 16)) acc) a = take_base 16 acc (16 * a + z mod 16)).
  { intros a. cbn [take_base]. rewrite hex_digit_value by lia. by replace (z mod 16 <? 16) with true by lia. }
  destruct (Z.eqb_spec (z / 16) 0) as [E|E]; [rewrite Hstep; f_equal; lia|].
  destruct n as [|n]; [rewrite Z.pow_1_r in Hz; by rewrite Z.div_small in E by lia|].
  rewrite IH, Hstep by first [lia|split; [apply Z.div_pos; lia|apply Z.div_lt_upper_bound; [lia|];
    rewrite <- Z.pow_succ_r, <- Nat2Z.inj_succ by lia; lia]]. f_equal. lia.
Qed.

Lemma take_base_hex_to w v r : 0 <= v < 2 ^ 64 -> starts_hex r = false -> take_base 16 (hex_to w v r) 0 = (v, r).
Proof.
  intros Hv Hr. unfold hex_to. generalize (w - String.length (hex_digits 16 v EmptyString))%nat as n.
  induction n as [|n IH]; cbn [zeros]; [|exact IH]. rewrite take_base_digits by (done || lia).
  unfold starts_hex, is_base_digit in Hr. destruct r as [|c r]; [done|]. cbn [take_base].
  destruct (hex_value c); [|done]. by rewrite Hr.
Qed.

(** A character that is not part of the notation of numbers. *)
Definition stops (r : string) : bool :=
  match r with String c _ => negb (is_base_digit 16 r) && negb (Ascii.eqb (lower c) "x") | EmptyString => false end.

Lemma hex_char_plain c d : hex_value c = Some d -> 
  is_space c = false /\ Ascii.eqb c "-" = false /\ Ascii.eqb c "+" = false /\ Ascii.eqb (lower c) "x" = false.
Proof. destruct c as [[] [] [] [] [] [] [] []]; vm_compute; done. Qed.

Lemma scan_lx_hex w v r : 0 <= v < 2 ^ 64 -> stops r = true -> scan_lx (hex_to w v r) = Some (v, r).
Proof.
  intros Hv Hr. pose proof (hex_to_then w v r) as Hd.
  assert (Hs : starts_hex r = false).
  { unfold starts_hex. destruct r as [|c r]; [done|]. cbn [stops] in Hr. by apply andb_true_iff in Hr as [?%negb_true_iff _]. }
  pose proof (take_base_hex_to w v r Hv Hs) as Ht.
  assert (E : exists c s, hex_to w v r = String c s /\ is_base_digit 16 (String c s) = true /\
    is_space c = false /\ Ascii.eqb c "-" = false /\ Ascii.eqb c "+" = false /\
    match s with String c1 _ => Ascii.eqb (lower c1) "x" = false | EmptyString => True end).
  { assert (Hx : forall s, digits_then r s -> match s with String c1 _ => Ascii.eqb (lower c1) "x" = false | EmptyString => True end).
    { intros s []; by eapply hex_char_plain. }
    inversion Hd as [c d E1 E2 E|c d s E1 E2 E3 E]; (eexists c, _; split; [done|]);
      (split; [cbn; rewrite E1; lia|]); destruct (hex_char_plain c d E1) as (? & ? & ? & ?); repeat (split; [done|]).
    - destruct r as [|c1 r]; [done|]. cbn [stops] in Hr. by apply andb_true_iff in Hr as [_ ?%negb_true_iff].
    - by apply Hx. }
  destruct E as (c & s & E & Hb & Hsp & Hm & Hp & Hx). rewrite E in Ht |- *. unfold scan_lx.
  cbn [skip_spaces]. rewrite Hsp. cbn [take_sign]. rewrite Hm, Hp. unfold hex_number. rewrite Hb, Ht.
  assert (E2 : (2 ^ 64 <=? v) = false) by lia.
  destruct s as [|c1 s]; [|rewrite Hx, andb_false_r]; cbn [mbind option_bind]; by rewrite E2.
Qed.

Fixpoint has_newline (s : string) : bool :=
  match s with String c s' => (code_of c =? 10) || has_newline s' | EmptyString => false end.

(** A mapping with a path. *)
Record line_ok (l : maps_line) : Prop := {
  lo_start : 0 <= l_start l < 2 ^ 64; lo_end : 0 <= l_end l < 2 ^ 64; lo_offset : 0 <= l_offset l < 2 ^ 64;
  lo_major : 0 <= l_major l < 2 ^ 64; lo_minor : 0 <= l_minor l < 2 ^ 64;
  lo_bit : is_space (read_bit l) = false;
  lo_path : match binary_path l with String c _ => is_space c = false | EmptyString => False end;
  lo_newline : has_newline (binary_path l) = false }.

Lemma until_newline_path p : has_newline p = false -> until_newline (p +:+ String (ascii_of_nat 10) EmptyString) = p.
Proof.
  induction p as [|c p IH]; [done|]. cbn [has_newline]. intros [H1 H2]%orb_false_iff.
  change (String c p +:+ ?x) with (String c (p +:+ x)). cbn [until_newline]. by rewrite H1, IH.
Qed.

Lemma skip_spaces_pad n s : skip_spaces (spaces n s) = skip_spaces s.
Proof. induction n as [|n IH]; [done|]. exact IH. Qed.

Lemma scan_lx_space s : scan_lx (String " " s) = scan_lx s.
Proof. done. Qed.

Lemma maps_line_scan l inode pad : line_ok l -> 0 <= inode -> scan_line (maps_text l inode pad) = Some l.
Proof.
  intros [H1 H2 H3 H4 H5 Hb Hp Hn] Hi. unfold scan_line, maps_text.
  rewrite scan_lx_hex by done. cbn [mbind option_bind scan_lit Ascii.eqb Bool.eqb].
  rewrite scan_lx_hex by done. cbn [mbind option_bind].
  change (skip_spaces (String " " ?x)) with (skip_spaces x). cbn [skip_spaces]. rewrite Hb.
  cbn [scan_c mbind option_bind]. rewrite scan_lx_space, scan_lx_hex by done. cbn [mbind option_bind].
  rewrite scan_lx_space, scan_lx_hex by done. cbn [mbind option_bind scan_lit Ascii.eqb Bool.eqb].
  rewrite scan_lx_hex by done. cbn [mbind option_bind].
  unfold scan_skip_d. change (skip_spaces (String " " ?x)) with (skip_spaces x).
  destruct (pretty_digits inode (String " " (spaces pad (binary_path l +:+ String (ascii_of_nat 10) EmptyString))) Hi)
    as (Et & c & s & Es & Hd).
  rewrite Es in Et |- *. destruct (is_digit_plain c Hd) as (Hsp & Hm & Hpl). cbn [skip_spaces]. rewrite Hsp.
  cbn [take_sign]. rewrite Hm, Hpl, Hd, Et.
  change (take_digits (String " " ?x) inode) with (inode, String " " x). cbn [snd mbind option_bind].
  change (skip_spaces (String " " ?x)) with (skip_spaces x). rewrite skip_spaces_pad.
  destruct (binary_path l) as [|c' p] eqn:Ep; [done|].
  change (String c' p +:+ ?x) with (String c' (p +:+ x)). cbn [skip_spaces]. rewrite Hp.
  change (String c' (p +:+ ?x)) with (String c' p +:+ x). unfold scan_path. rewrite until_newline_path by done.
  destruct l; cbn in *; by subst.
Qed.

(** Every line the kernel prints in /proc/ID/maps for a mapping with a path is
    read back exactly: addresses, protection, offset, device and path. *)
Theorem maps_line_roundtrip (l : maps_line) (inode : Z) (pad : nat) :
  line_ok l -> 0 <= inode -> scan_line (maps_text l inode pad) = Some l.
Proof. apply maps_line_scan. Qed.

(** ** A concrete file *)

Definition demo_line (start end_ : Z) (x : ascii) (path : string) : maps_line :=
  mk_line start end_ "r" "-" x "p" 0x179000 0xfc 0 path.
Definition libc_line : maps_line := demo_line 0x7fabbb09b000 0x7fabbb09f000 "x" "/lib/libc-2.11.1.so".

Definition demo_maps : list string :=
  [maps_text (demo_line 0x400000 0x401000 "x" "/bin/true") 7 20; "00601000-00602000 rw-p 00000000 00:00 0"; 
   maps_text libc_line 1180246 1; maps_text libc_line 1180246 1].

Lemma maps_line_roundtrip_witness : scan_line (maps_text libc_line 1180246 1) = Some libc_line.
Proof. apply (maps_line_roundtrip libc_line 1180246 1); [split; done|lia]. Defined.

Lemma mmap_cache_search_correct_witness :
  exists e, mmap_cache_search (mmap_cache_rebuild_if_invalid 3 (Some demo_maps) None).2 0x7fabbb09e123 = Some (Some e) /\
    binary_filename e = "/lib/libc-2.11.1.so".
Proof.
  destruct (mmap_cache_search_correct 3 (Some demo_maps) None 0x7fabbb09e123 ltac:(done)) as (_ & r & E & H).
  assert (Hc : exists c, (mmap_cache_rebuild_if_invalid 3 (Some demo_maps) None).2 = Some c /\
    In (line_entry libc_line) (entry c)) by (vm_compute; eexists; split; [reflexivity|right; left; reflexivity]).
  destruct Hc as (c & Hc & Hin). specialize (H c Hc). destruct r as [e|].
  - exists e. split; [exact E|]. destruct H as (_ & _ & H).
    rewrite <- (H (line_entry libc_line) Hin ltac:(vm_compute; reflexivity)). vm_compute. reflexivity.
  - exfalso. assert (E' : holds (line_entry libc_line) 0x7fabbb09e123 = true) by (vm_compute; reflexivity).
    rewrite (H (line_entry libc_line) Hin) in E'. discriminate.
Defined.
