(* ===== verification/Count.v ===== *)
(** * Counting of syscalls (src/count.c)

    The counters behind -c: calls, errors and times of every syscall, with a
    table that grows for syscalls whose number is not in the tables, the totals
    of the summary, and the options that choose its columns and its order.  The
    counters of one personality are modelled; the source has one such set of
    counters for each.  Printing the table, which uses floating point, is not
    modelled.  Times are unbounded integers. *)

From Stdlib Require Import Ascii OrdersEx.
From stdpp Require Import pretty.
From S2P Require Import Prelude Util Xlat Filters.
Open Scope Z_scope.
#[local] Abbreviation NoDup := base.NoDup.

(** ** Columns and order *)

Definition CSC_NONE := 0.
Definition CSC_TIME_100S := 1.
Definition CSC_TIME_TOTAL := 2.
Definition CSC_TIME_MIN := 3.
Definition CSC_TIME_MAX := 4.
Definition CSC_TIME_AVG := 5.
Definition CSC_CALLS := 6.
Definition CSC_ERRORS := 7.
Definition CSC_SC_NAME := 8.
Definition CSC_TIME_WALL_TOTAL := 9.
Definition CSC_TIME_WALL_MIN := 10.
Definition CSC_TIME_WALL_MAX := 11.
Definition CSC_TIME_WALL_AVG := 12.
Definition CSC_MAX := 13.

Definition column_is_wall (column : Z) : bool := (CSC_TIME_WALL_TOTAL <=? column) && (column <=? CSC_TIME_WALL_AVG).

Definition column_aliases : list (string * Z) :=
  [("time", CSC_TIME_100S); ("time_percent", CSC_TIME_100S); ("time-percent", CSC_TIME_100S);
   ("time_total", CSC_TIME_TOTAL); ("time-total", CSC_TIME_TOTAL); ("total_time", CSC_TIME_TOTAL);
   ("total-time", CSC_TIME_TOTAL); ("min_time", CSC_TIME_MIN); ("min-time", CSC_TIME_MIN);
   ("shortest", CSC_TIME_MIN); ("time_min", CSC_TIME_MIN); ("time-min", CSC_TIME_MIN);
   ("longest", CSC_TIME_MAX); ("max_time", CSC_TIME_MAX); ("max-time", CSC_TIME_MAX);
   ("time_max", CSC_TIME_MAX); ("time-max", CSC_TIME_MAX); ("avg_time", CSC_TIME_AVG);
   ("avg-time", CSC_TIME_AVG); ("time_avg", CSC_TIME_AVG); ("time-avg", CSC_TIME_AVG);
   ("calls", CSC_CALLS); ("count", CSC_CALLS); ("error", CSC_ERRORS); ("errors", CSC_ERRORS);
   ("name", CSC_SC_NAME); ("syscall", CSC_SC_NAME); ("syscall_name", CSC_SC_NAME); ("syscall-name", CSC_SC_NAME);
   ("wall_total", CSC_TIME_WALL_TOTAL); ("wall-total", CSC_TIME_WALL_TOTAL); ("total_wall", CSC_TIME_WALL_TOTAL);
   ("total-wall", CSC_TIME_WALL_TOTAL); ("wall_min", CSC_TIME_WALL_MIN); ("wall-min", CSC_TIME_WALL_MIN);
   ("min_wall", CSC_TIME_WALL_MIN); ("min-wall", CSC_TIME_WALL_MIN); ("wall_max", CSC_TIME_WALL_MAX);
   ("wall-max", CSC_TIME_WALL_MAX); ("max_wall", CSC_TIME_WALL_MAX); ("max-wall", CSC_TIME_WALL_MAX);
   ("wall_avg", CSC_TIME_WALL_AVG); ("wall-avg", CSC_TIME_WALL_AVG); ("avg_wall", CSC_TIME_WALL_AVG);
   ("avg-wall", CSC_TIME_WALL_AVG); ("none", CSC_NONE); ("nothing", CSC_NONE)].

(** The search of [set_count_summary_columns]: a column that is not CSC_NONE. *)
Fixpoint find_column (l : list (string * Z)) (name : string) : option Z :=
  match l with
  | [] => None
  | (n, c) :: l' => if negb (String.eqb n name) || (c =? CSC_NONE) || (CSC_MAX <=? c) then find_column l' name else Some c
  end.

(** The loop over the names; [columns] are those set so far. *)
Fixpoint columns_loop (names : list string) (columns : list Z) : outcome (list Z) :=
  match names with
  | [] => Ret columns
  | n :: names' =>
      match find_column column_aliases n with
      | None => Die ("unknown column name: '" +:+ n +:+ "'")
      | Some c =>
          if existsb (Z.eqb c) columns then Die ("call summary column has been provided more than once: '" +:+ n +:+ "'")
          else columns_loop names' (columns ++ [c])
      end
  end.

(** The columns in use and [summary_wall_columns]. *)
Definition set_count_summary_columns (s : string) : outcome (list Z * bool) :=
  columns ← columns_loop (fields "," s) [];
  let columns := if existsb (Z.eqb CSC_SC_NAME) columns then columns else columns ++ [CSC_SC_NAME] in
  Ret (columns, existsb column_is_wall columns).

(** The column to sort by and [summary_sortby_wall]. *)
Fixpoint sortby_loop (l : list (string * Z)) (sortby : string) : outcome (Z * bool) :=
  match l with
  | [] => Die ("invalid sortby: '" +:+ sortby +:+ "'")
  | (n, c) :: l' => if String.eqb n sortby then Ret (c, column_is_wall c) else sortby_loop l' sortby
  end.
Definition set_sortby (sortby : string) : outcome (Z * bool) := sortby_loop column_aliases sortby.

(** ** Counters *)

Record call_counts := mk_cc {
  time : timespec; time_min : timespec; time_max : timespec; time_avg : timespec;
  wall_time : timespec; wall_time_min : timespec; wall_time_max : timespec; wall_time_avg : timespec;
  calls : Z; errors : Z }.

(** The comparison functions, on the counters and the name of a syscall. *)
Definition time_cmp (a b : call_counts * string) : Z := - ts_cmp (time a.1) (time b.1).
Definition min_time_cmp (a b : call_counts * string) : Z := - ts_cmp (time_min a.1) (time_min b.1).
Definition max_time_cmp (a b : call_counts * string) : Z := - ts_cmp (time_max a.1) (time_max b.1).
Definition avg_time_cmp (a b : call_counts * string) : Z := - ts_cmp (time_avg a.1) (time_avg b.1).
Definition wall_time_cmp (a b : call_counts * string) : Z := - ts_cmp (wall_time a.1) (wall_time b.1).
Definition wall_min_time_cmp (a b : call_counts * string) : Z := - ts_cmp (wall_time_min a.1) (wall_time_min b.1).
Definition wall_max_time_cmp (a b : call_counts * string) : Z := - ts_cmp (wall_time_max a.1) (wall_time_max b.1).
Definition wall_avg_time_cmp (a b : call_counts * string) : Z := - ts_cmp (wall_time_avg a.1) (wall_time_avg b.1).
Definition count_cmp (a b : call_counts * string) : Z :=
  if calls a.1 <? calls b.1 then 1 else if calls b.1 <? calls a.1 then -1 else 0.
Definition error_cmp (a b : call_counts * string) : Z :=
  if errors a.1 <? errors b.1 then 1 else if errors b.1 <? errors a.1 then -1 else 0.
(** The sign of [strcmp]. *)
Definition syscall_cmp (a b : call_counts * string) : Z :=
  match String_as_OT.compare a.2 b.2 with Lt => -1 | Eq => 0 | Gt => 1 end.

(** [sort_fns] of [set_sortby]; None is the null pointer, no sorting. *)
Definition sort_fns (column : Z) : option (call_counts * string -> call_counts * string -> Z) :=
  if column =? CSC_TIME_100S then Some time_cmp else if column =? CSC_TIME_TOTAL then Some time_cmp
  else if column =? CSC_TIME_MIN then Some min_time_cmp else if column =? CSC_TIME_MAX then Some max_time_cmp
  else if column =? CSC_TIME_AVG then Some avg_time_cmp else if column =? CSC_CALLS then Some count_cmp
  else if column =? CSC_ERRORS then Some error_cmp else if column =? CSC_SC_NAME then Some syscall_cmp
  else if column =? CSC_TIME_WALL_TOTAL then Some wall_time_cmp else if column =? CSC_TIME_WALL_MIN then Some wall_min_time_cmp
  else if column =? CSC_TIME_WALL_MAX then Some wall_max_time_cmp else if column =? CSC_TIME_WALL_AVG then Some wall_avg_time_cmp
  else None.

Definition zero_ts : timespec := mk_ts 0 0.
Definition max_ts : timespec := mk_ts (2 ^ 63 - 1) 999999999.
Definition cc_zero : call_counts := mk_cc zero_ts zero_ts zero_ts zero_ts zero_ts zero_ts zero_ts zero_ts 0 0.

Record unknown_call_counts := mk_ucc { u_scno : Z; sys_name : string; u_counts : call_counts }.
(** The first [len] entries are in use; the number of entries is [cap]. *)
Record unknown_call_bucket := mk_bucket { len : Z; entries : list unknown_call_counts }.
Definition cap (b : unknown_call_bucket) : Z := lenZ (entries b).
Definition UNKNOWN_COUNTS_ENTRIES : Z := 16.

Record count_state := mk_count { counts : option (list call_counts); unknown_counts : option unknown_call_bucket }.

(** What [count_syscall] looks at: the syscall and its result, the times of the
    tracee and the time of the exit. *)
Record event := mk_event {
  ev_scno : Z; ev_error : bool; ev_stime : timespec; ev_ltime : timespec; ev_etime : timespec; ev_exit : timespec }.

Section counting.
(** The table of syscalls; -w; whether wall clock columns are needed
    ([summary_needs_wall]); -O. *)
Variables (nsyscalls : Z) (shuffle_scno : Z -> Z) (count_wallclock wall : bool) (overhead : timespec).
(** What the memory of a slot holds after [xreallocarray]. *)
Variable garbage : nat -> unknown_call_counts.

Definition scno_in_range (scno : Z) : bool := scno <? nsyscalls.

Definition unknown_init_slot (cc : call_counts) : call_counts :=
  mk_cc (time cc) max_ts (time_max cc) (time_avg cc) (wall_time cc)
    (if wall then max_ts else wall_time_min cc) (wall_time_max cc) (wall_time_avg cc) (calls cc) (errors cc).

Definition init_slot (u : unknown_call_counts) : unknown_call_counts :=
  mk_ucc (u_scno u) (sys_name u) (unknown_init_slot (u_counts u)).

Definition unknown_init (b : option unknown_call_bucket) : unknown_call_bucket :=
  match b with
  | Some b => b
  | None => mk_bucket 0 (replicate (Z.to_nat UNKNOWN_COUNTS_ENTRIES) (init_slot (mk_ucc 0 EmptyString cc_zero)))
  end.

(** The index of the first entry in use with the number. *)
Fixpoint find_scno (l : list unknown_call_counts) (scno : Z) : option nat :=
  match l with
  | [] => None
  | u :: l' => if u_scno u =? scno then Some O else S <$> find_scno l' scno
  end.
Definition get_unknown_by_scno (b : option unknown_call_bucket) (scno : Z) : option nat :=
  b ← b; find_scno (firstn (Z.to_nat (len b)) (entries b)) scno.

(** [xreallocarray] to twice the size, then [unknown_init_slot] for the new slots. *)
Definition grow_bucket (b : unknown_call_bucket) : unknown_call_bucket :=
  if len b =? cap b
  then mk_bucket (len b) (entries b ++ map (fun i => init_slot (garbage i)) (seq (length (entries b)) (length (entries b))))
  else b.

Definition set_slot (scno : Z) (u : unknown_call_counts) : unknown_call_counts :=
  mk_ucc scno ("syscall_" +:+ fmt_hex (shuffle_scno scno)) (u_counts u).

Definition unknown_insert (scno : Z) (b : option unknown_call_bucket) : option unknown_call_bucket :=
  match get_unknown_by_scno b scno with
  | Some _ => b
  | None => let b := grow_bucket (unknown_init b) in
            Some (mk_bucket (len b + 1) (alter (set_slot scno) (Z.to_nat (len b)) (entries b)))
  end.

(** The new value of the counters of a syscall. *)
Definition add_call (e : event) (cc : call_counts) : call_counts :=
  let wts := if count_wallclock then ts_sub (ev_exit e) (ev_etime e) else ts_sub (ev_stime e) (ev_ltime e) in
  let wts := ts_max (ts_sub wts overhead) zero_ts in
  let wall_wts := if count_wallclock then wts
                  else ts_max (ts_sub (ts_sub (ev_exit e) (ev_etime e)) overhead) zero_ts in
  mk_cc (ts_add (time cc) wts) (ts_min (time_min cc) wts) (ts_max (time_max cc) wts) (time_avg cc)
    (if wall then ts_add (wall_time cc) wall_wts else wall_time cc)
    (if wall then ts_min (wall_time_min cc) wall_wts else wall_time_min cc)
    (if wall then ts_max (wall_time_max cc) wall_wts else wall_time_max cc) (wall_time_avg cc)
    (uint 64 (calls cc + 1)) (if ev_error e then uint 64 (errors cc + 1) else errors cc).

Definition fresh_counts : list call_counts := replicate (Z.to_nat nsyscalls) (unknown_init_slot cc_zero).

Definition upd_unknown (f : call_counts -> call_counts) (u : unknown_call_counts) : unknown_call_counts :=
  mk_ucc (u_scno u) (sys_name u) (f (u_counts u)).

Definition count_syscall (e : event) (s : count_state) : outcome count_state :=
  let scno := ev_scno e in
  let unknown := if scno_in_range scno then unknown_counts s else unknown_insert scno (unknown_counts s) in
  let counts := default fresh_counts (counts s) in
  if scno_in_range scno then Ret (mk_count (Some (alter (add_call e) (Z.to_nat scno) counts)) unknown)
  else match get_unknown_by_scno unknown scno, unknown with
       | Some i, Some b => Ret (mk_count (Some counts) (Some (mk_bucket (len b) (alter (upd_unknown (add_call e)) i (entries b)))))
       | _, _ => Die "failed to get unknown syscall counts"
       end.

(** ** The summary *)

Record summary_stats := mk_stats {
  tv_cum : timespec; tv_min : timespec; tv_min_max : timespec; tv_max : timespec; tv_avg_max : timespec;
  tv_wall_cum : timespec; tv_wall_min : timespec; tv_wall_min_max : timespec; tv_wall_max : timespec; tv_wall_avg_max : timespec;
  call_cum : Z; error_cum : Z; sc_name_max : Z }.

Definition stats0 : summary_stats :=
  mk_stats zero_ts max_ts zero_ts zero_ts zero_ts zero_ts max_ts zero_ts zero_ts zero_ts 0 0 0.

(** The new totals and the counters with their averages. *)
Definition calc_summary_stats (st : summary_stats) (cc : call_counts) (name : string) : summary_stats * call_counts :=
  let avg := ts_div (time cc) (calls cc) in
  let wavg := if wall then ts_div (wall_time cc) (calls cc) else wall_time_avg cc in
  (mk_stats (ts_add (tv_cum st) (time cc)) (ts_min (tv_min st) (time_min cc)) (ts_max (tv_min_max st) (time_min cc))
     (ts_max (tv_max st) (time_max cc)) (ts_max (tv_avg_max st) avg)
     (if wall then ts_add (tv_wall_cum st) (wall_time cc) else tv_wall_cum st)
     (if wall then ts_min (tv_wall_min st) (wall_time_min cc) else tv_wall_min st)
     (if wall then ts_max (tv_wall_min_max st) (wall_time_min cc) else tv_wall_min_max st)
     (if wall then ts_max (tv_wall_max st) (wall_time_max cc) else tv_wall_max st)
     (if wall then ts_max (tv_wall_avg_max st) wavg else tv_wall_avg_max st)
     (uint 64 (call_cum st + calls cc)) (uint 64 (error_cum st + errors cc))
     (Z.max (sc_name_max st) (Z.of_nat (String.length name))),
   mk_cc (time cc) (time_min cc) (time_max cc) avg (wall_time cc) (wall_time_min cc) (wall_time_max cc) wavg (calls cc) (errors cc)).

(** The two loops of [call_summary_pers] that compute the totals. *)
Fixpoint known_stats (l : list call_counts) (names : list string) (st : summary_stats) : summary_stats :=
  match l with
  | [] => st
  | cc :: l' => known_stats l' (tail names)
                  (if calls cc =? 0 then st else fst (calc_summary_stats st cc (default EmptyString (head names))))
  end.
Definition unknown_stats (l : list unknown_call_counts) (st : summary_stats) : summary_stats :=
  fold_left (fun st u => fst (calc_summary_stats st (u_counts u) (sys_name u))) l st.

Definition summary (names : list string) (s : count_state) : summary_stats :=
  let st := known_stats (default [] (counts s)) names stats0 in
  match unknown_counts s with
  | Some b => unknown_stats (firstn (Z.to_nat (len b)) (entries b)) st
  | None => st
  end.

(** ** Counting a run *)

(** The counters [get_syscall_cc] points to. *)
Definition get_syscall_cc (s : count_state) (scno : Z) : option call_counts :=
  if scno_in_range scno then cs ← counts s; cs !! Z.to_nat scno
  else i ← get_unknown_by_scno (unknown_counts s) scno; b ← unknown_counts s; u_counts <$> entries b !! i.

Fixpoint count_all (h : list event) (s : count_state) : outcome count_state :=
  match h with
  | [] => Ret s
  | e :: h' => s ← count_syscall e s; count_all h' s
  end.

(** The specification: the events of a syscall, and its counters as a fold over them. *)
Definition own (n : Z) (h : list event) : list event := List.filter (fun e => ev_scno e =? n) h.
Definition tally (n : Z) (h : list event) : call_counts :=
  fold_left (fun cc e => add_call e cc) (own n h) (unknown_init_slot cc_zero).

Lemma tally_snoc n h e :
  tally n (h ++ [e]) = if ev_scno e =? n then add_call e (tally n h) else tally n h.
Proof.
  unfold tally, own. rewrite List.filter_app, fold_left_app. simpl. by destruct (ev_scno e =? n).
Qed.

Lemma tally_unseen n h : n ∉ map ev_scno h -> tally n h = unknown_init_slot cc_zero.
Proof.
  intros Hn. unfold tally. replace (own n h) with (@nil event); [done|].
  induction h as [|e h IH]; [done|]. cbn in *. apply not_elem_of_cons in Hn as [Hne Hn].
  destruct (Z.eqb_spec (ev_scno e) n); [congruence|auto].
Qed.

(** Slots in use hold the tallies of different syscalls. *)
Definition tallied (h : list event) (us : list unknown_call_counts) : Prop :=
  NoDup (map u_scno us) /\ Forall (fun u => u_counts u = tally (u_scno u) h) us.

Lemma find_scno_Some us n i : find_scno us n = Some i -> exists u, us !! i = Some u /\ u_scno u = n.
Proof.
  revert i. induction us as [|u us IH]; intros i; simpl; [done|].
  destruct (Z.eqb_spec (u_scno u) n) as [Hu|Hu].
  - intros [= <-]. by exists u.
  - destruct (find_scno us n) as [j|] eqn:Ej; simpl; [|done]. intros [= <-]. by apply IH.
Qed.

Lemma find_scno_None us n : find_scno us n = None <-> n ∉ map u_scno us.
Proof.
  induction us as [|u us IH]; simpl; [split; [intros _; apply not_elem_of_nil|done]|].
  rewrite not_elem_of_cons. destruct (Z.eqb_spec (u_scno u) n) as [Hu|Hu]; [naive_solver|].
  rewrite <- IH. destruct (find_scno us n); naive_solver.
Qed.

Lemma find_scno_app us n u : n ∉ map u_scno us -> u_scno u = n -> find_scno (us ++ [u]) n = Some (length us).
Proof.
  induction us as [|v us IH]; simpl; intros Hn Hu.
  - by rewrite (proj2 (Z.eqb_eq _ _) Hu).
  - apply not_elem_of_cons in Hn as [Hne Hn].
    destruct (Z.eqb_spec (u_scno v) n); [congruence|]. by rewrite IH.
Qed.

Lemma map_scno_upd f i us : map u_scno (alter (upd_unknown f) i us) = map u_scno us.
Proof. by apply map_alter. Qed.

Lemma tallied_update h us i u e :
  tallied h us -> us !! i = Some u -> u_scno u = ev_scno e ->
  tallied (h ++ [e]) (alter (upd_unknown (add_call e)) i us).
Proof.
  intros [Hnd Hall] Hi Hu. split; [by rewrite map_scno_upd|].
  rewrite Forall_lookup in *. intros j v Hj. rewrite tally_snoc.
  destruct (decide (i = j)) as [<-|Hij].
  - rewrite list_lookup_alter_eq, Hi in Hj. simpl in Hj. simplify_eq. simpl.
    rewrite Hu, Z.eqb_refl, (Hall i u Hi), Hu. done.
  - rewrite list_lookup_alter_ne in Hj by done.
    destruct (Z.eqb_spec (ev_scno e) (u_scno v)) as [Hv|Hv]; [|by apply (Hall j)].
    destruct Hij. apply (NoDup_lookup _ i j (ev_scno e) Hnd); rewrite list_lookup_fmap.
    + by rewrite Hi, <- Hu.
    + by rewrite Hj, Hv.
Qed.

(** The invariant of the table of unknown syscalls: the slots [us] of the
    syscalls [D], then fresh ones; the table never grew. *)
Definition bucket_inv (D : list Z) (h : list event) (b : unknown_call_bucket) : Prop :=
  exists us fresh, b = mk_bucket (lenZ us) (us ++ fresh) /\ (length us + length fresh = 16)%nat
    /\ tallied h us /\ (forall n, n ∈ map u_scno us <-> n ∈ D)
    /\ Forall (fun u => u_counts u = unknown_init_slot cc_zero) fresh.

Lemma to_nat_lenZ {A} (l : list A) : Z.to_nat (lenZ l) = length l.
Proof. apply Nat2Z.id. Qed.

Lemma alter_mid {A} (f : A -> A) l x r : alter f (length l) (l ++ x :: r) = l ++ f x :: r.
Proof. rewrite <- (Nat.add_0_r (length l)) at 1. by rewrite list.alter_app_r. Qed.

Lemma firstn_used (us fresh : list unknown_call_counts) :
  firstn (Z.to_nat (lenZ us)) (us ++ fresh) = us.
Proof. rewrite to_nat_lenZ. apply take_app_length. Qed.

Lemma unknown_init_inv h : bucket_inv [] h (unknown_init None).
Proof.
  exists [], (replicate 16 (init_slot (mk_ucc 0 EmptyString cc_zero))).
  split; [reflexivity|]. split; [reflexivity|].
  split; [split; constructor|]. split; [done|]. by apply Forall_replicate.
Qed.

Lemma insert_inv D h n b :
  bucket_inv D h b -> tally n h = unknown_init_slot cc_zero \/ n ∈ D ->
  (n ∉ D -> (length D < 16)%nat) -> NoDup D ->
  exists b', unknown_insert n (Some b) = Some b' /\ bucket_inv (if decide (n ∈ D) then D else n :: D) h b'.
Proof.
  intros (us & fresh & -> & Hl & [Hnd Hall] & HD & Hf) Hn Hlen HndD.
  unfold unknown_insert, get_unknown_by_scno. cbn [mbind option_bind len entries]. rewrite firstn_used.
  destruct (find_scno us n) as [i|] eqn:Ei.
  - apply find_scno_Some in Ei as (u & Hu & Hun). rewrite decide_True; [eexists; split; [done|]|].
    + exists us, fresh. repeat (split; [done|]). done.
    + apply HD. rewrite <- Hun. apply list_elem_of_lookup. exists i. by rewrite list_lookup_fmap, Hu.
  - apply find_scno_None in Ei. assert (HnD : n ∉ D) by (by rewrite <- HD).
    destruct Hn as [Hn|]; [|done]. rewrite decide_False by done.
    assert (Hperm : length us = length D).
    { rewrite <- (length_map u_scno us). apply Permutation_length, list.NoDup_Permutation; auto. }
    specialize (Hlen HnD).
    destruct fresh as [|f fresh]; [simpl in Hl; lia|].
    unfold unknown_init, grow_bucket, cap. cbn [len entries].
    rewrite lenZ_app, lenZ_cons. pose proof (lenZ_nonneg fresh).
    rewrite (proj2 (Z.eqb_neq _ _)) by lia. cbn [len entries].
    eexists. split; [reflexivity|]. exists (us ++ [set_slot n f]), fresh.
    apply list.Forall_cons in Hf as [Hf Hfs]. split; [|split; [|split; [split|split]]].
    + f_equal; [by rewrite lenZ_app, lenZ_cons, lenZ_nil; lia|].
      by rewrite to_nat_lenZ, alter_mid, <- app_assoc.
    + rewrite length_app. simpl in *. lia.
    + rewrite map_app. apply list.NoDup_app. repeat split; [done| |apply list.NoDup_singleton].
      intros x Hx Hx'. apply list_elem_of_singleton in Hx'. by subst.
    + apply list.Forall_app. split; [done|]. by repeat constructor; simpl; rewrite Hf, Hn.
    + intros m. rewrite map_app, elem_of_app, HD. simpl. rewrite list_elem_of_singleton, elem_of_cons. tauto.
    + done.
Qed.

Lemma init_insert n o : unknown_insert n o = unknown_insert n (Some (unknown_init o)).
Proof. by destruct o. Qed.

Lemma tallied_other h us e : ev_scno e ∉ map u_scno us -> tallied h us -> tallied (h ++ [e]) us.
Proof.
  intros He [Hnd Hall]. split; [done|]. rewrite Forall_lookup in *. intros i u Hi.
  rewrite tally_snoc, (Hall i u Hi). destruct (Z.eqb_spec (ev_scno e) (u_scno u)) as [Hu|]; [|done].
  destruct He. rewrite Hu. apply list_elem_of_lookup. exists i. by rewrite list_lookup_fmap, Hi.
Qed.

Lemma bucket_update D h e b :
  bucket_inv D h b -> ev_scno e ∈ D ->
  exists i, get_unknown_by_scno (Some b) (ev_scno e) = Some i
    /\ bucket_inv D (h ++ [e]) (mk_bucket (len b) (alter (upd_unknown (add_call e)) i (entries b))).
Proof.
  intros (us & fresh & -> & Hl & Ht & HD & Hf) He.
  unfold get_unknown_by_scno. cbn [mbind option_bind len entries]. rewrite firstn_used.
  destruct (find_scno us (ev_scno e)) as [i|] eqn:Ei.
  2: { apply find_scno_None in Ei. by rewrite HD in Ei. }
  exists i. split; [done|]. apply find_scno_Some in Ei as (u & Hu & Hun).
  assert (Hlt : (i < length us)%nat) by (by apply lookup_lt_Some in Hu).
  exists (alter (upd_unknown (add_call e)) i us), fresh.
  rewrite list.alter_app_l by done. unfold lenZ. rewrite length_alter.
  split; [done|]. split; [done|]. split; [by eapply tallied_update|].
  split; [|done]. intros n. by rewrite map_scno_upd.
Qed.

(** The numbers outside the table that a run has seen. *)
Definition unknown_numbers (h : list event) : list Z :=
  remove_dups (List.filter (fun n => negb (scno_in_range n)) (map ev_scno h)).

Lemma elem_unknown_numbers h n : n ∈ unknown_numbers h <-> n ∈ map ev_scno h /\ scno_in_range n = false.
Proof.
  unfold unknown_numbers. rewrite elem_of_remove_dups, !list_elem_of_In, filter_In, negb_true_iff. done.
Qed.

(** The invariant of a run: every counter is the tally of its syscall. *)
Record count_inv (h : list event) (s : count_state) : Prop := {
  ci_known : match counts s with
             | None => h = []
             | Some cs => lenZ cs = nsyscalls
                 /\ forall n, 0 <= n < nsyscalls -> cs !! Z.to_nat n = Some (tally n h)
             end;
  ci_unknown : exists D, NoDup D /\ (forall n, n ∈ D <-> n ∈ unknown_numbers h)
             /\ match unknown_counts s with None => D = [] | Some b => bucket_inv D h b end }.

Lemma fresh_counts_spec h n : 0 <= nsyscalls -> 0 <= n < nsyscalls -> h = [] ->
  fresh_counts !! Z.to_nat n = Some (tally n h).
Proof. intros Hn Hr ->. apply lookup_replicate_2. lia. Qed.

Lemma known_default h s : 0 <= nsyscalls -> count_inv h s ->
  lenZ (default fresh_counts (counts s)) = nsyscalls
  /\ forall n, 0 <= n < nsyscalls -> default fresh_counts (counts s) !! Z.to_nat n = Some (tally n h).
Proof.
  intros Hn [Hk _]. destruct (counts s) as [cs|]; [done|]. simpl. split.
  - unfold fresh_counts. rewrite lenZ_replicate. lia.
  - intros n Hr. by apply fresh_counts_spec.
Qed.

Lemma unknown_numbers_snoc h e n :
  n ∈ unknown_numbers (h ++ [e]) <-> n ∈ unknown_numbers h \/ (n = ev_scno e /\ scno_in_range n = false).
Proof.
  rewrite !elem_unknown_numbers, map_app, elem_of_app. simpl. rewrite list_elem_of_singleton. naive_solver.
Qed.

Lemma length_unknown D h : NoDup D -> (forall n, n ∈ D -> n ∈ unknown_numbers h) ->
  (length D <= length (unknown_numbers h))%nat.
Proof. intros Hnd HD. by apply submseteq_length, NoDup_submseteq. Qed.

Lemma known_step h cs e :
  0 <= ev_scno e < nsyscalls -> lenZ cs = nsyscalls ->
  (forall n, 0 <= n < nsyscalls -> cs !! Z.to_nat n = Some (tally n h)) ->
  lenZ (alter (add_call e) (Z.to_nat (ev_scno e)) cs) = nsyscalls
  /\ forall n, 0 <= n < nsyscalls ->
       alter (add_call e) (Z.to_nat (ev_scno e)) cs !! Z.to_nat n = Some (tally n (h ++ [e])).
Proof.
  intros He Hl Hcs. split; [unfold lenZ; by rewrite length_alter|]. intros n Hn. rewrite tally_snoc.
  destruct (Z.eqb_spec (ev_scno e) n) as [<-|Hne].
  - by rewrite list_lookup_alter_eq, Hcs.
  - rewrite list_lookup_alter_ne by lia. by apply Hcs.
Qed.

Lemma unknown_known_event D h e b :
  scno_in_range (ev_scno e) = true -> (forall n, n ∈ D -> n ∈ unknown_numbers h) ->
  bucket_inv D h b -> bucket_inv D (h ++ [e]) b.
Proof.
  intros He HDh (us & fresh & -> & Hl & Ht & HD & Hf). exists us, fresh.
  split; [done|]. split; [done|]. split; [|done]. apply tallied_other; [|done].
  rewrite HD. intros Hin. apply HDh, elem_unknown_numbers in Hin as [_ Hin]. congruence.
Qed.

Lemma known_unknown_event h s e :
  0 <= nsyscalls -> scno_in_range (ev_scno e) = false -> count_inv h s ->
  forall n, 0 <= n < nsyscalls -> default fresh_counts (counts s) !! Z.to_nat n = Some (tally n (h ++ [e])).
Proof.
  intros Hn He Hi n Hr. unfold scno_in_range in He. rewrite tally_snoc.
  rewrite (proj2 (Z.eqb_neq _ _)) by lia. by apply (known_default h s).
Qed.

Lemma unknown_insert_step h s e :
  scno_in_range (ev_scno e) = false -> (length (unknown_numbers (h ++ [e])) <= 16)%nat -> count_inv h s ->
  exists D b, NoDup D /\ (forall n, n ∈ D <-> n ∈ unknown_numbers (h ++ [e])) /\ ev_scno e ∈ D
    /\ unknown_insert (ev_scno e) (unknown_counts s) = Some b /\ bucket_inv D h b.
Proof.
  intros He Hlen [_ (D & Hnd & HD & Hu)]. rewrite init_insert.
  assert (Hb : bucket_inv D h (unknown_init (unknown_counts s))).
  { destruct (unknown_counts s); [done|]. subst D. apply unknown_init_inv. }
  assert (HD' : forall n, n ∈ (if decide (ev_scno e ∈ D) then D else ev_scno e :: D)
                          <-> n ∈ unknown_numbers (h ++ [e])).
  { intros n. rewrite unknown_numbers_snoc, <- HD. destruct (decide _); [|rewrite elem_of_cons]; naive_solver. }
  assert (Hnd' : NoDup (if decide (ev_scno e ∈ D) then D else ev_scno e :: D)).
  { destruct (decide _); [done|]. by apply list.NoDup_cons. }
  destruct (insert_inv D h (ev_scno e) _ Hb) as (b' & Hins & Hb'); auto.
  - destruct (decide (ev_scno e ∈ D)) as [|Hni]; [by right|left]. apply tally_unseen.
    rewrite HD, elem_unknown_numbers in Hni. tauto.
  - intros Hni. rewrite decide_False in HD', Hnd' by done.
    assert (length (ev_scno e :: D) <= length (unknown_numbers (h ++ [e])))%nat
      by (apply length_unknown; [done|intros n; apply HD']).
    simpl in *. lia.
  - eexists _, b'. split; [exact Hnd'|]. split; [exact HD'|]. split; [|by split].
    apply HD', unknown_numbers_snoc. by right.
Qed.

Lemma count_step h s e :
  0 <= nsyscalls -> 0 <= ev_scno e -> (length (unknown_numbers (h ++ [e])) <= 16)%nat -> count_inv h s ->
  exists s', count_syscall e s = Ret s' /\ count_inv (h ++ [e]) s'.
Proof.
  intros Hn He Hlen Hi. unfold count_syscall. destruct (known_default h s Hn Hi) as [Hl Hk].
  destruct (scno_in_range (ev_scno e)) eqn:Er.
  - eexists. split; [reflexivity|]. split; cbn [counts unknown_counts].
    + apply known_step; [|done..]. unfold scno_in_range in Er. lia.
    + destruct Hi as [_ (D & Hnd & HD & Hu)]. exists D. split; [done|]. split.
      * intros n. rewrite unknown_numbers_snoc, HD. split; [by left|]. intros [|[-> ?]]; congruence.
      * destruct (unknown_counts s); [|done]. apply unknown_known_event; [done| |done]. intros n. apply HD.
  - destruct (unknown_insert_step h s e Er Hlen Hi) as (D & b & Hnd & HD & HeD & -> & Hb).
    destruct (bucket_update D h e b Hb HeD) as (i & -> & Hb').
    eexists. split; [reflexivity|]. split; cbn [counts unknown_counts].
    + split; [done|]. by apply known_unknown_event.
    + by exists D.
Qed.

Lemma count_all_inv h' : forall h s,
  0 <= nsyscalls -> Forall (fun e => 0 <= ev_scno e) h' -> (length (unknown_numbers (h ++ h')) <= 16)%nat ->
  count_inv h s -> exists s', count_all h' s = Ret s' /\ count_inv (h ++ h') s'.
Proof.
  induction h' as [|e h' IH]; intros h s Hn Hall Hlen Hi; simpl.
  - exists s. by rewrite app_nil_r.
  - apply list.Forall_cons in Hall as [He Hall]. rewrite (cons_middle e h h'), (app_assoc h [e] h') in *.
    destruct (count_step h s e Hn He) as (s' & -> & Hi'); [|done|].
    + etrans; [|exact Hlen]. apply length_unknown; [apply NoDup_remove_dups|].
      intros n. rewrite !elem_unknown_numbers, (map_app _ (h ++ [e])), elem_of_app. tauto.
    + by apply IH.
Qed.

Lemma count_inv_init : count_inv [] (mk_count None None).
Proof. split; [done|]. exists []. split; [constructor|]. done. Qed.

Lemma get_cc_tally h s n :
  0 <= n -> n ∈ map ev_scno h -> count_inv h s -> get_syscall_cc s n = Some (tally n h).
Proof.
  intros Hn Hin [Hk (D & Hnd & HD & Hu)]. unfold get_syscall_cc. destruct (scno_in_range n) eqn:Er.
  - destruct (counts s) as [cs|]; [|by subst h; apply not_elem_of_nil in Hin].
    apply Hk. unfold scno_in_range in Er. lia.
  - assert (HnD : n ∈ D) by (by apply HD, elem_unknown_numbers).
    destruct (unknown_counts s) as [b|]; [|by subst D; apply not_elem_of_nil in HnD].
    destruct Hu as (us & fresh & -> & Hl & [_ Ht] & HD' & Hf).
    unfold get_unknown_by_scno. cbn [mbind option_bind len entries]. rewrite firstn_used.
    destruct (find_scno us n) as [i|] eqn:Ei.
    + apply find_scno_Some in Ei as (u & Hu & <-). simpl.
      rewrite lookup_app_l by (by apply lookup_lt_Some in Hu). rewrite Hu. simpl. f_equal.
      rewrite Forall_lookup in Ht. by apply (Ht i).
    + apply find_scno_None in Ei. by rewrite HD' in Ei.
Qed.

(** The nanoseconds an event adds, and to the wall clock columns. *)
Definition wall_spent (e : event) : Z :=
  Z.max 0 (ts_total (ev_exit e) - ts_total (ev_etime e) - ts_total overhead).
Definition spent (e : event) : Z :=
  if count_wallclock then wall_spent e
  else Z.max 0 (ts_total (ev_stime e) - ts_total (ev_ltime e) - ts_total overhead).
Definition event_wf (e : event) : Prop :=
  0 <= ev_scno e /\ ts_wf (ev_stime e) /\ ts_wf (ev_ltime e) /\ ts_wf (ev_etime e) /\ ts_wf (ev_exit e).
Definition sum (l : list Z) : Z := fold_right Z.add 0 l.

(** What counters say of the events they have counted. *)
Record counted (l : list event) (cc : call_counts) : Prop := {
  c_calls : calls cc = uint 64 (lenZ l);
  c_errors : errors cc = uint 64 (lenZ (List.filter ev_error l));
  c_time : ts_wf (time cc) /\ ts_total (time cc) = sum (map spent l);
  c_min : ts_wf (time_min cc) /\ ts_total (time_min cc) = fold_right Z.min (ts_total max_ts) (map spent l);
  c_max : ts_wf (time_max cc) /\ ts_total (time_max cc) = fold_right Z.max 0 (map spent l);
  c_wall : wall = true ->
    (ts_wf (wall_time cc) /\ ts_total (wall_time cc) = sum (map wall_spent l))
    /\ (ts_wf (wall_time_min cc) /\ ts_total (wall_time_min cc) = fold_right Z.min (ts_total max_ts) (map wall_spent l))
    /\ (ts_wf (wall_time_max cc) /\ ts_total (wall_time_max cc) = fold_right Z.max 0 (map wall_spent l)) }.

(** A normalised time of so many nanoseconds. *)
Definition is_ns (a : timespec) (z : Z) : Prop := ts_wf a /\ ts_total a = z.

Lemma is_ns_add a b x y : is_ns a x -> is_ns b y -> is_ns (ts_add a b) (x + y).
Proof. intros [Ha <-] [Hb <-]. split; [by apply ts_add_wf|apply ts_add_total]. Qed.
Lemma is_ns_sub a b x y : is_ns a x -> is_ns b y -> is_ns (ts_sub a b) (x - y).
Proof. intros [Ha <-] [Hb <-]. split; [by apply ts_sub_wf|apply ts_sub_total]. Qed.
Lemma is_ns_min a b x y : is_ns a x -> is_ns b y -> is_ns (ts_min a b) (Z.min x y).
Proof.
  intros [Ha <-] [Hb <-]. unfold ts_min. pose proof (ts_cmp_neg a b Ha Hb).
  destruct (Z.ltb_spec (ts_cmp a b) 0); split; auto; lia.
Qed.
Lemma is_ns_max a b x y : is_ns a x -> is_ns b y -> is_ns (ts_max a b) (Z.max x y).
Proof.
  intros [Ha <-] [Hb <-]. unfold ts_max. pose proof (ts_cmp_pos a b Ha Hb).
  destruct (Z.ltb_spec 0 (ts_cmp a b)); split; auto; lia.
Qed.
Lemma is_ns_self a : ts_wf a -> is_ns a (ts_total a).
Proof. by split. Qed.
Lemma is_ns_zero : is_ns zero_ts 0.
Proof. by split. Qed.

Lemma is_ns_max_ts : is_ns max_ts (ts_total max_ts).
Proof. split; [|done]. unfold ts_wf, NS_IN_S, max_ts. simpl. lia. Qed.

Lemma max_clip a b o : ts_wf a -> ts_wf b -> ts_wf o ->
  is_ns (ts_max (ts_sub (ts_sub a b) o) zero_ts) (Z.max 0 (ts_total a - ts_total b - ts_total o)).
Proof.
  intros. rewrite Z.max_comm. auto using is_ns_max, is_ns_sub, is_ns_self, is_ns_zero.
Qed.

Lemma fold_right_snoc {A} (f : Z -> Z -> Z) (g : A -> Z) z l e :
  (forall x y, f x y = f y x) -> (forall x y t, f x (f y t) = f (f x y) t) ->
  fold_right f z (map g (l ++ [e])) = f (fold_right f z (map g l)) (g e).
Proof.
  intros Hc Ha. induction l as [|x l IH]; simpl; [apply Hc|]. rewrite IH. by rewrite Ha.
Qed.

Lemma uint_succ n : uint 64 (uint 64 n + 1) = uint 64 (n + 1).
Proof. unfold uint. by rewrite Zplus_mod_idemp_l. Qed.

Lemma add_call_counted l cc e :
  ts_wf overhead -> event_wf e -> counted l cc -> counted (l ++ [e]) (add_call e cc).
Proof.
  intros Ho (_ & Hs & Hl & Het & Hex) [Hc He Ht Hmin Hmax Hw].
  pose proof (max_clip _ _ _ Hex Het Ho) as Hwall. fold (wall_spent e) in Hwall.
  assert (Hspent : is_ns (ts_max (ts_sub (if count_wallclock then ts_sub (ev_exit e) (ev_etime e)
                           else ts_sub (ev_stime e) (ev_ltime e)) overhead) zero_ts) (spent e)).
  { unfold spent. destruct count_wallclock; [done|]. by apply max_clip. }
  assert (Hadd : forall g, sum (map g (l ++ [e])) = sum (map g l) + g e) by (intros; apply fold_right_snoc; lia).
  split; cbn [add_call calls errors time time_min time_max wall_time wall_time_min wall_time_max].
  - rewrite Hc, uint_succ. f_equal. rewrite lenZ_app, lenZ_cons, lenZ_nil. lia.
  - rewrite List.filter_app. simpl. destruct (ev_error e); rewrite lenZ_app, He; [by rewrite uint_succ|].
    by rewrite lenZ_nil, Z.add_0_r.
  - rewrite Hadd. by apply is_ns_add.
  - rewrite fold_right_snoc by lia. by apply is_ns_min.
  - rewrite fold_right_snoc by lia. by apply is_ns_max.
  - intros Hwt. specialize (Hw Hwt) as (Hw1 & Hw2 & Hw3). rewrite Hwt, Hadd, !fold_right_snoc by lia.
    assert (Hww : is_ns (if count_wallclock
      then ts_max (ts_sub (if count_wallclock then ts_sub (ev_exit e) (ev_etime e)
                           else ts_sub (ev_stime e) (ev_ltime e)) overhead) zero_ts
      else ts_max (ts_sub (ts_sub (ev_exit e) (ev_etime e)) overhead) zero_ts) (wall_spent e))
      by (destruct count_wallclock; exact Hwall).
    split; [by apply is_ns_add|]. split; [by apply is_ns_min|by apply is_ns_max].
Qed.

Lemma tally_counted n h : ts_wf overhead -> Forall event_wf h -> counted (own n h) (tally n h).
Proof.
  intros Ho. induction h as [|e h IH] using rev_ind; intros Hall.
  - pose proof is_ns_zero as Hz. pose proof is_ns_max_ts as Hm.
    split; cbn [tally own List.filter fold_left map fold_right unknown_init_slot cc_zero
                calls errors time time_min time_max wall_time wall_time_min wall_time_max]; try done.
    intros ->. done.
  - apply list.Forall_app in Hall as [Hall He]. apply list.Forall_cons in He as [He _].
    rewrite tally_snoc. unfold own. rewrite List.filter_app. simpl. destruct (ev_scno e =? n).
    + apply add_call_counted; [done..|exact (IH Hall)].
    + rewrite app_nil_r. exact (IH Hall).
Qed.

Lemma get_new us v rest n :
  n ∉ map u_scno us -> u_scno v = n ->
  get_unknown_by_scno (Some (mk_bucket (lenZ us + 1) (us ++ v :: rest))) n = Some (length us).
Proof.
  intros Hn Hv. unfold get_unknown_by_scno. cbn [mbind option_bind len entries].
  replace (lenZ us + 1) with (lenZ (us ++ [v])) by (rewrite lenZ_app, lenZ_cons, lenZ_nil; lia).
  rewrite (cons_middle v us rest), (app_assoc us [v] rest), firstn_used. by apply find_scno_app.
Qed.

(** C23: over any run that meets at most 16 different syscalls outside the
    table, [count_syscall] never fails, and the counters of every syscall met
    are those of its own events: the number of calls and of errors, the sum,
    the least and the greatest of the times spent, less the overhead and never
    negative, and likewise for the wall clock columns when they are needed. *)
Theorem count_syscall_correct (h : list event) :
  0 <= nsyscalls -> ts_wf overhead -> Forall event_wf h -> (length (unknown_numbers h) <= 16)%nat ->
  exists s, count_all h (mk_count None None) = Ret s
    /\ forall e, e ∈ h -> exists cc, get_syscall_cc s (ev_scno e) = Some cc /\ counted (own (ev_scno e) h) cc.
Proof.
  intros Hn Ho Hwf Hlen.
  destruct (count_all_inv h [] (mk_count None None) Hn) as (s & Hs & Hi); [|done|apply count_inv_init|].
  { eapply Forall_impl; [|exact Hwf]. by intros ? [? _]. }
  exists s. split; [done|]. intros e He. exists (tally (ev_scno e) h). split; [|by apply tally_counted].
  apply get_cc_tally; [|apply list_elem_of_fmap; by exists e|done].
  rewrite Forall_forall in Hwf. by apply Hwf, list_elem_of_In.
Qed.

(** The slots [unknown_insert] adds when the table of syscalls outside the
    tables grows are not cleared: the first call of the syscall whose slot is
    new adds to what the memory held, the sum of the times, the greatest time
    and the number of calls and errors included. *)
Theorem unknown_growth_not_cleared (b : unknown_call_bucket) (cs : option (list call_counts)) (e : event) :
  len b = cap b -> (0 < length (entries b))%nat -> scno_in_range (ev_scno e) = false ->
  ev_scno e ∉ map u_scno (entries b) ->
  exists s, count_syscall e (mk_count cs (Some b)) = Ret s
    /\ get_syscall_cc s (ev_scno e)
       = Some (add_call e (unknown_init_slot (u_counts (garbage (length (entries b)))))).
Proof.
  intros Hfull Hpos Hr Hnew. destruct b as [l us]. unfold cap in Hfull. cbn [len entries] in *. subst l.
  set (g := init_slot (garbage (length us))).
  assert (Hgrow : exists rest, grow_bucket (mk_bucket (lenZ us) us) = mk_bucket (lenZ us) (us ++ g :: rest)).
  { unfold grow_bucket, cap. cbn [len entries]. rewrite Z.eqb_refl.
    destruct (length us) as [|k] eqn:Ek; [lia|]. by eexists. }
  destruct Hgrow as [rest Hgrow].
  assert (Hfind : find_scno us (ev_scno e) = None) by (by apply find_scno_None).
  unfold count_syscall. cbn [unknown_counts]. rewrite Hr.
  assert (Hins : unknown_insert (ev_scno e) (Some (mk_bucket (lenZ us) us))
                 = Some (mk_bucket (lenZ us + 1) (us ++ set_slot (ev_scno e) g :: rest))).
  { unfold unknown_insert, get_unknown_by_scno. cbn [mbind option_bind len entries unknown_init].
    rewrite to_nat_lenZ, firstn_all, Hfind, Hgrow. cbn [len entries]. by rewrite to_nat_lenZ, alter_mid. }
  rewrite Hins, get_new by done. eexists. split; [reflexivity|].
  unfold get_syscall_cc. rewrite Hr. cbn [unknown_counts len entries]. rewrite alter_mid, get_new by done.
  cbn [mbind option_bind entries]. by rewrite list_lookup_middle.
Qed.

End counting.

(** ** The comparison functions *)

Definition cc_wf (cc : call_counts) : Prop :=
  ts_wf (time cc) /\ ts_wf (time_min cc) /\ ts_wf (time_max cc) /\ ts_wf (time_avg cc)
  /\ ts_wf (wall_time cc) /\ ts_wf (wall_time_min cc) /\ ts_wf (wall_time_max cc) /\ ts_wf (wall_time_avg cc).

(** What [qsort] asks of a comparison function on a set of elements. *)
Definition total_preorder {A} (P : A -> Prop) (cmp : A -> A -> Z) : Prop :=
  (forall a b, P a -> P b -> Z.sgn (cmp b a) = - Z.sgn (cmp a b))
  /\ (forall a b c, P a -> P b -> P c -> cmp a b <= 0 -> cmp b c <= 0 -> cmp a c <= 0).

Lemma preorder_key {A} (P : A -> Prop) (cmp : A -> A -> Z) (key : A -> Z) :
  (forall a b, P a -> P b -> Z.sgn (cmp a b) = Z.sgn (key b - key a)) -> total_preorder P cmp.
Proof.
  intros H. split.
  - intros a b Ha Hb. rewrite !H by done. lia.
  - intros a b c Ha Hb Hc. pose proof (H a b Ha Hb). pose proof (H b c Hb Hc). pose proof (H a c Ha Hc). lia.
Qed.

Lemma ts_cmp_sgn a b : ts_wf a -> ts_wf b -> Z.sgn (- ts_cmp a b) = Z.sgn (ts_total b - ts_total a).
Proof. intros Ha Hb. pose proof (ts_cmp_pos a b Ha Hb). pose proof (ts_cmp_neg a b Ha Hb). lia. Qed.

(** Contradictions in the order of strings. *)
Ltac string_order :=
  exfalso; unfold String_as_OT.eq in *;
  repeat match goal with H : ?x = ?y |- _ => rewrite H in *; clear H end;
  let irr := constr:(@irreflexivity _ String_as_OT.lt _) in
  let trans := constr:(@transitivity _ String_as_OT.lt _) in
  match goal with
  | H : String_as_OT.lt ?x ?x |- _ => exact (irr x H)
  | H : String_as_OT.lt ?x ?y, H' : String_as_OT.lt ?y ?x |- _ => exact (irr x (trans x y x H H'))
  | H : String_as_OT.lt ?x ?y, H' : String_as_OT.lt ?y ?z, H'' : String_as_OT.lt ?z ?x |- _ =>
      exact (irr x (trans x z x (trans x y z H H') H''))
  end.

Lemma syscall_cmp_preorder P : total_preorder P syscall_cmp.
Proof.
  unfold syscall_cmp. split.
  - intros [ca a] [cb b] _ _. simpl.
    destruct (String_as_OT.compare_spec a b), (String_as_OT.compare_spec b a); solve [reflexivity|string_order].
  - intros [ca a] [cb b] [cd c] _ _ _. simpl.
    destruct (String_as_OT.compare_spec a b), (String_as_OT.compare_spec b c), (String_as_OT.compare_spec a c);
      solve [lia|string_order].
Qed.

Lemma time_preorder (f : call_counts -> timespec) :
  (forall cc, cc_wf cc -> ts_wf (f cc)) ->
  total_preorder (fun a : call_counts * string => cc_wf a.1) (fun a b => - ts_cmp (f a.1) (f b.1)).
Proof.
  intros Hf. apply (preorder_key _ _ (fun a => ts_total (f a.1))). intros a b Ha Hb. by apply ts_cmp_sgn; apply Hf.
Qed.

Lemma number_preorder (f : call_counts -> Z) P :
  total_preorder P (fun a b : call_counts * string =>
    if f a.1 <? f b.1 then 1 else if f b.1 <? f a.1 then -1 else 0).
Proof. apply (preorder_key _ _ (fun a => f a.1)). intros a b _ _. bcase; lia. Qed.

(** Every comparison function that -S can choose is a total preorder on
    counters with normalised times, as [qsort] requires. *)
Theorem sort_fns_preorder column cmp :
  sort_fns column = Some cmp -> total_preorder (fun a => cc_wf a.1) cmp.
Proof.
  unfold sort_fns. repeat (case_match; [intros [= <-]|]); [..|done];
    solve [apply syscall_cmp_preorder|apply (number_preorder calls)|apply (number_preorder errors)
          |match goal with |- total_preorder _ ?c => let c' := eval red in c in
             match c' with fun a b => - ts_cmp (?f _) _ => apply (time_preorder f); unfold cc_wf; tauto end end].
Qed.

(** ** The columns *)

Lemma find_column_range l name c : find_column l name = Some c -> c <> CSC_NONE /\ c < CSC_MAX /\ In (name, c) l.
Proof.
  induction l as [|[n d] l IH]; simpl; [done|].
  destruct (String.eqb_spec n name) as [->|]; simpl; [|naive_solver].
  destruct (Z.eqb_spec d CSC_NONE); simpl; [naive_solver|].
  destruct (Z.leb_spec CSC_MAX d); [naive_solver|]. intros [= ->]. auto.
Qed.

Definition columns_wf (columns : list Z) : Prop := NoDup columns /\ Forall (fun c => 0 < c < CSC_MAX) columns.

Lemma columns_wf_snoc columns c :
  columns_wf columns -> 0 < c < CSC_MAX -> existsb (Z.eqb c) columns = false -> columns_wf (columns ++ [c]).
Proof.
  intros [Hnd Hr] Hc Hn. split.
  - apply list.NoDup_app. split; [done|]. split; [|apply list.NoDup_singleton].
    intros x Hx ->%list_elem_of_singleton. assert (existsb (Z.eqb c) columns = true); [|congruence].
    apply existsb_exists. exists c. split; [by apply list_elem_of_In|apply Z.eqb_refl].
  - apply list.Forall_app. split; [done|]. by constructor.
Qed.

Lemma alias_column_nonneg name c : In (name, c) column_aliases -> 0 <= c.
Proof.
  intros H. assert (Hall : forallb (fun p => 0 <=? p.2) column_aliases = true) by (by vm_compute).
  rewrite forallb_forall in Hall. apply Hall in H. simpl in H. lia.
Qed.

Lemma columns_loop_spec names : forall columns columns',
  columns_loop names columns = Ret columns' -> columns_wf columns ->
  columns_wf columns' /\ exists l, columns' = columns ++ l /\ map (find_column column_aliases) names = map Some l.
Proof.
  induction names as [|n names IH]; intros columns columns'; cbn [columns_loop map].
  - intros [= <-] Hwf. split; [done|]. exists []. by rewrite app_nil_r.
  - destruct (find_column column_aliases n) as [c|] eqn:Ec; [|done].
    destruct (existsb (Z.eqb c) columns) eqn:En; [done|]. intros Hl Hwf.
    apply find_column_range in Ec as (Hne & Hlt & Hin). apply alias_column_nonneg in Hin. unfold CSC_NONE in Hne.
    apply IH in Hl as [Hwf' (l & -> & Hm)]; [|by apply columns_wf_snoc; [|lia|]].
    split; [done|]. exists (c :: l). rewrite <- app_assoc. by rewrite Hm.
Qed.

Lemma columns_bounded columns : columns_wf columns -> lenZ columns < CSC_MAX.
Proof.
  intros [Hnd Hr].
  assert (length columns <= length (seqZ 1 12))%nat; [|rewrite length_seqZ in *; unfold lenZ, CSC_MAX; lia].
  apply submseteq_length, NoDup_submseteq; [done|]. intros x Hx. apply elem_of_seqZ.
  rewrite Forall_forall in Hr. apply list_elem_of_In, Hr in Hx. unfold CSC_MAX in Hx. lia.
Qed.

(** The columns [set_count_summary_columns] accepts are those of the names
    given, in their order, with the name of the syscall added when it is not
    among them; each is a column that exists, none comes twice, and with the
    terminating zero they fit the array [columns]. *)
Theorem set_count_summary_columns_correct s columns w :
  set_count_summary_columns s = Ret (columns, w) ->
  base.NoDup columns /\ Forall (fun c => 0 < c < CSC_MAX) columns /\ CSC_SC_NAME ∈ columns /\ lenZ columns < CSC_MAX
  /\ w = existsb column_is_wall columns
  /\ exists l, map (find_column column_aliases) (fields "," s) = map Some l
     /\ (columns = l \/ (CSC_SC_NAME ∉ l /\ columns = l ++ [CSC_SC_NAME])).
Proof.
  unfold set_count_summary_columns. destruct (columns_loop _ []) as [cs|m] eqn:El; [|done]. simpl.
  intros [= <- <-]. apply columns_loop_spec in El as [Hwf (l & -> & Hm)]; [|by repeat constructor]. simpl in *.
  destruct (existsb (Z.eqb CSC_SC_NAME) l) eqn:Ex.
  - pose proof (columns_bounded _ Hwf). destruct Hwf as [Hnd Hr].
    apply existsb_exists in Ex as (x & Hx & <-%Z.eqb_eq). apply list_elem_of_In in Hx.
    do 5 (split; [done|]). exists l. auto.
  - assert (Hwf' : columns_wf (l ++ [CSC_SC_NAME])) by (by apply columns_wf_snoc).
    pose proof (columns_bounded _ Hwf') as Hb. destruct Hwf' as [Hnd Hr].
    split; [done|]. split; [done|]. split; [apply elem_of_app; right; by apply list_elem_of_singleton|].
    split; [done|]. split; [done|]. exists l. split; [done|]. right. split; [|done].
    intros Hx. apply list.NoDup_app in Hnd as (_ & Hd & _). apply (Hd _ Hx). by apply list_elem_of_singleton.
Qed.

Lemma set_count_summary_columns_correct_witness : CSC_SC_NAME ∈ [CSC_CALLS; CSC_TIME_WALL_MAX; CSC_SC_NAME].
Proof.
  refine (proj1 (proj2 (proj2 (set_count_summary_columns_correct "calls,wall-max" _ true _)))). by vm_compute.
Defined.

(** ** The totals *)

(** The counters the summary adds up. *)
Definition active (s : count_state) : list call_counts :=
  List.filter (fun cc => negb (calls cc =? 0)) (default [] (counts s))
  ++ match unknown_counts s with Some b => map u_counts (firstn (Z.to_nat (len b)) (entries b)) | None => [] end.

Record totals (l : list call_counts) (st : summary_stats) : Prop := {
  t_calls : call_cum st = uint 64 (sum (map calls l));
  t_errors : error_cum st = uint 64 (sum (map errors l));
  t_cum : is_ns (tv_cum st) (sum (map (fun cc => ts_total (time cc)) l));
  t_min : is_ns (tv_min st) (fold_right Z.min (ts_total max_ts) (map (fun cc => ts_total (time_min cc)) l));
  t_max : is_ns (tv_max st) (fold_right Z.max 0 (map (fun cc => ts_total (time_max cc)) l)) }.

Lemma uint_add a b : uint 64 (uint 64 a + b) = uint 64 (a + b).
Proof. unfold uint. by rewrite Zplus_mod_idemp_l. Qed.

Lemma totals_step wall l st cc name :
  cc_wf cc -> totals l st -> totals (l ++ [cc]) (fst (calc_summary_stats wall st cc name)).
Proof.
  intros (Ht & Hmin & Hmax & _) [H1 H2 H3 H4 H5]. unfold sum in *.
  split; cbn [calc_summary_stats fst call_cum error_cum tv_cum tv_min tv_max];
    unfold sum; rewrite fold_right_snoc by lia.
  - by rewrite H1, uint_add.
  - by rewrite H2, uint_add.
  - by apply is_ns_add; [|apply is_ns_self].
  - by apply is_ns_min; [|apply is_ns_self].
  - by apply is_ns_max; [|apply is_ns_self].
Qed.

Lemma known_totals wall cs : forall names l st,
  Forall cc_wf (List.filter (fun cc => negb (calls cc =? 0)) cs) -> totals l st ->
  totals (l ++ List.filter (fun cc => negb (calls cc =? 0)) cs) (known_stats wall cs names st).
Proof.
  induction cs as [|cc cs IH]; intros names l st Hwf Ht; simpl in *; [by rewrite app_nil_r|].
  destruct (calls cc =? 0); simpl in *; [by apply IH|].
  apply list.Forall_cons in Hwf as [Hc Hwf]. rewrite (cons_middle cc l), (app_assoc l [cc]).
  by apply IH; [|apply totals_step].
Qed.

Lemma unknown_totals wall us : forall l st,
  Forall cc_wf (map u_counts us) -> totals l st -> totals (l ++ map u_counts us) (unknown_stats wall us st).
Proof.
  induction us as [|u us IH]; intros l st Hwf Ht; [by rewrite app_nil_r|].
  apply list.Forall_cons in Hwf as [Hc Hwf]. cbn [map]. rewrite (cons_middle (u_counts u) l), (app_assoc l [_]).
  by apply IH; [|apply totals_step].
Qed.

(** The totals of the summary are those of every counter that has counted
    a call, known and unknown syscalls alike: the calls, the errors and the
    times add up, and the extremes are the extremes of all of them. *)
Theorem summary_correct wall names s : Forall cc_wf (active s) -> totals (active s) (summary wall names s).
Proof.
  unfold active, summary. intros [Hk Hu]%list.Forall_app.
  assert (H0 : totals [] stats0) by (split; [done..| | |]; auto using is_ns_zero, is_ns_max_ts).
  pose proof (known_totals wall _ names [] stats0 Hk H0) as H.
  destruct (unknown_counts s) as [b|]; [by apply unknown_totals|by rewrite app_nil_r].
Qed.

(** ** Witnesses *)

Definition ev (n : Z) (err : bool) (ns : Z) : event := mk_event n err (mk_ts 0 ns) zero_ts zero_ts (mk_ts 1 ns).

Lemma ev_wf n err ns : 0 <= n -> 0 <= ns < NS_IN_S -> event_wf (ev n err ns).
Proof. intros. unfold event_wf, ts_wf, zero_ts, ev, NS_IN_S in *. simpl. lia. Qed.

Lemma count_syscall_correct_witness :
  exists s, count_all 2 id false true zero_ts (fun _ => mk_ucc 0 EmptyString cc_zero)
              [ev 1 true 5; ev 7 false 3; ev 1 false 9] (mk_count None None) = Ret s
    /\ calls <$> get_syscall_cc 2 s 1 = Some 2 /\ errors <$> get_syscall_cc 2 s 1 = Some 1
    /\ (fun cc => ts_total (time cc)) <$> get_syscall_cc 2 s 1 = Some 14
    /\ (fun cc => ts_total (time_min cc)) <$> get_syscall_cc 2 s 1 = Some 5.
Proof.
  destruct (count_syscall_correct 2 id false true zero_ts (fun _ => mk_ucc 0 EmptyString cc_zero)
              [ev 1 true 5; ev 7 false 3; ev 1 false 9]) as (s & Hs & H).
  - lia.
  - split; vm_compute; congruence.
  - repeat constructor; vm_compute; congruence.
  - vm_compute. lia.
  - exists s. split; [exact Hs|].
    destruct (H (ev 1 true 5) ltac:(by left)) as (cc & Hcc & [Hc He [_ Ht] [_ Hm] _ _]).
    change (ev_scno (ev 1 true 5)) with 1 in Hcc. rewrite Hcc. simpl.
    rewrite Hc, He, Ht, Hm. repeat split; vm_compute; reflexivity.
Defined.

Lemma unknown_growth_not_cleared_witness :
  exists s, count_syscall 0 id false false zero_ts (fun _ => mk_ucc 0 EmptyString (mk_cc zero_ts zero_ts zero_ts zero_ts zero_ts zero_ts zero_ts zero_ts 41 0))
              (ev 2 false 3) (mk_count None (Some (mk_bucket 1 [mk_ucc 1 EmptyString cc_zero]))) = Ret s
    /\ calls <$> get_syscall_cc 0 s 2 = Some 42.
Proof.
  destruct (unknown_growth_not_cleared 0 id false false zero_ts
    (fun _ => mk_ucc 0 EmptyString (mk_cc zero_ts zero_ts zero_ts zero_ts zero_ts zero_ts zero_ts zero_ts 41 0))
    (mk_bucket 1 [mk_ucc 1 EmptyString cc_zero]) None (ev 2 false 3)) as (s & Hs & H).
  - reflexivity.
  - simpl. lia.
  - reflexivity.
  - intros H%list_elem_of_singleton. discriminate H.
  - exists s. split; [exact Hs|]. change (ev_scno (ev 2 false 3)) with 2 in H. rewrite H. reflexivity.
Defined.

Lemma sort_fns_preorder_witness : total_preorder (fun a => cc_wf a.1) max_time_cmp.
Proof. exact (sort_fns_preorder CSC_TIME_MAX _ eq_refl). Defined.

Lemma summary_correct_witness :
  call_cum (summary false ["read"] (mk_count (Some [mk_cc zero_ts zero_ts zero_ts zero_ts zero_ts zero_ts zero_ts zero_ts 3 1]) None)) = 3.
Proof.
  refine (t_calls _ _ (summary_correct false ["read"]
    (mk_count (Some [mk_cc zero_ts zero_ts zero_ts zero_ts zero_ts zero_ts zero_ts zero_ts 3 1]) None) _)).
  repeat constructor; vm_compute; congruence.
Defined.
