(* ===== verification/Pidns.v ===== *)
(** * Process ids and PID namespaces (src/pidns.c)

    Translation of the id of a process, group or session from the PID namespace
    of a tracee to that of the tracer.  The truth is in /proc; two caches make
    it fast: [ns_pid_to_proc_pid] remembers which entry of /proc an id was found
    at, [proc_data_cache] what was last read there.  Both may be out of date, so
    whatever they suggest is read again before it is used.

    /proc is a snapshot [procfs] that does not change during one translation and
    may be any other at the next.  The blocks of [proc_data] and the tries live
    in heaps, addressed by pointers with 0 for NULL.  A computation ends with a
    value, in [error_msg_and_die] ([Died]), or in an access to a block that is
    not allocated or past the end of an array ([Fault]). *)

From stdpp Require Import gmap strings pretty.
From Stdlib Require Import Ascii.
From S2P Require Import Prelude NumberSet Util Trie Filters.
Open Scope Z_scope.

(** ** Data *)

Inductive pid_type := PT_TID | PT_TGID | PT_PGID | PT_SID.
Definition PT_COUNT : nat := 4.
Definition pt_index (t : pid_type) : nat :=
  match t with PT_TID => 0 | PT_TGID => 1 | PT_PGID => 2 | PT_SID => 3 end.

#[export] Instance pid_type_eq_dec : EqDecision pid_type.
Proof. solve_decision. Defined.

Definition TAB : ascii := ascii_of_nat 9.
Definition tab (s : string) : string := s +:+ String TAB EmptyString.

Definition id_strs (t : pid_type) : string :=
  match t with
  | PT_TID => tab "NSpid:" | PT_TGID => tab "NStgid:" | PT_PGID => tab "NSpgid:" | PT_SID => tab "NSsid:"
  end.

Definition MAX_NS_DEPTH : Z := 32.
Definition ns_id_size : Z := 32.

Record proc_data := mk_pd {
  proc_pid : Z; ns_count : Z; ns_hierarchy : list Z; id_count : list Z; id_hierarchy : list (list Z) }.

(** What [calloc] returns, with [proc_pid] set. *)
Definition zero_pd (pid : Z) : proc_data :=
  mk_pd pid 0 (replicate 32 0) (replicate PT_COUNT 0) (replicate PT_COUNT (replicate 32 0)).

(** Results of ioctl(NS_GET_PARENT). *)
Inductive parent_result := ParentFd (fd : Z) | ParentEPERM | ParentENOTTY | ParentErr.

(** An entry of a directory: whether [d_type] is DT_DIR, and its name. *)
Record dirent := mk_dirent { d_dir : bool; d_name : string }.

(** /proc as the functions below read it; the pid 0 is "self". *)
Record procfs := mk_procfs {
  status_lines : Z -> option (list string);   (* /proc/PID/status, None when it cannot be opened *)
  open_ns : Z -> option Z;                    (* open /proc/PID/ns/pid *)
  fd_ino : Z -> option Z;                     (* fstat *)
  ns_parent : Z -> parent_result;
  proc_dir : option (list dirent);
  task_dir : Z -> option (list dirent);
  comm_text : Z -> string }.                  (* what print_pid_comm writes *)

(** ** Reading /proc *)

(** [strsep (&p, "\t")]: what is after the first tab. *)
Fixpoint strsep_tab (p : string) : option string :=
  match p with
  | EmptyString => None
  | String c p' => if Ascii.eqb c TAB then Some p' else strsep_tab p'
  end.

(** The rest of the first line that starts with [str]. *)
Fixpoint find_line (str : string) (lines : list string) : option string :=
  match lines with
  | [] => None
  | line :: rest => match strip_prefix str line with Some p => Some p | None => find_line str rest end
  end.

(** [strtol (p, NULL, 10)]: the value and whether [errno] was set. *)
Definition strtol (s : string) : Z * bool :=
  match strtoll s with Some (v, _, e) => (v, e) | None => (0, false) end.

(** The loop over the ids of a line.  Each round drops at least one character
    and the last one drops them all, so a line of [fuel - 1] characters is read
    to its end. *)
Fixpoint id_loop (fuel : nat) (p : option string) (id_buf : option (list Z)) (id_buf_size n : Z)
  : Z * option (list Z) :=
  match fuel, p with
  | S fuel', Some s =>
      let '(id, errno) := strtol s in
      if (id <? 0) || (INT_MAX <? id) || errno then (n, id_buf)
      else let id_buf := match id_buf with
                         | Some buf => Some (if n <? id_buf_size then updZ buf n id else buf)
                         | None => None
                         end in
           id_loop fuel' (strsep_tab s) id_buf id_buf_size (n + 1)
  | _, _ => (n, id_buf)
  end.

(** The number returned, and the buffer. *)
Definition proc_status_get_id_list (fs : procfs) (pid : Z) (id_buf : option (list Z)) (id_buf_size : Z) (str : string)
  : Z * option (list Z) :=
  match status_lines fs pid with
  | None => (0, id_buf)
  | Some lines =>
      match find_line str lines with
      | None => (0, id_buf)
      | Some p => id_loop (S (String.length p)) (Some p) id_buf id_buf_size 0
      end
  end.

(** The loop up the hierarchy from an open descriptor: it ends when the
    buffer is full.  The list of what is stored, and [ns_get_parent_enotty]. *)
Fixpoint ns_loop (fs : procfs) (room : nat) (fd : Z) (enotty : bool) : list Z * bool :=
  match room with
  | O => ([], enotty)
  | S room' =>
      match fd_ino fs fd with
      | None => ([], enotty)
      | Some ino =>
          let ns := uint 32 ino in
          if (room' =? 0)%nat then ([ns], enotty)
          else if enotty then ([ns], enotty)
          else match ns_parent fs fd with
               | ParentFd parent_fd => let '(l, e) := ns_loop fs room' parent_fd enotty in (ns :: l, e)
               | ParentENOTTY => ([ns], true)
               | ParentEPERM | ParentErr => ([ns], enotty)
               end
      end
  end.

Definition get_ns_hierarchy (fs : procfs) (pid : Z) (ns_buf_size : nat) (enotty : bool) : list Z * bool :=
  match open_ns fs pid with
  | None => ([], enotty)
  | Some fd => ns_loop fs ns_buf_size fd enotty
  end.

Definition get_id_list (fs : procfs) (pid : Z) (id_buf : option (list Z)) (type : pid_type) : Z * option (list Z) :=
  proc_status_get_id_list fs pid id_buf MAX_NS_DEPTH (id_strs type).

(** ** State *)

Record st := mk_st {
  pid_max : Z; pid_max_size : Z; pid_max_size_lg : Z;
  ns_pid_to_proc_pid : pid_type -> trie;      (* values: pointers into [tries] *)
  proc_data_cache : trie;                     (* values: pointers into [heap] *)
  tries : gmap Z trie;
  heap : gmap Z proc_data;
  ns_get_parent_enotty : bool;
  proc_ours : Z;                              (* cached_val of is_proc_ours *)
  our_ns : Z; our_ns_initialised : bool;
  pid_ns : gmap Z Z;                          (* tcp->pid_ns of the tracee with that pid *)
  calloc_failed : bool }.                     (* history only: [calloc] has returned NULL *)

Definition set_ns_tries (f : pid_type -> trie) (s : st) : st :=
  mk_st (pid_max s) (pid_max_size s) (pid_max_size_lg s) f (proc_data_cache s) (tries s) (heap s)
    (ns_get_parent_enotty s) (proc_ours s) (our_ns s) (our_ns_initialised s) (pid_ns s) (calloc_failed s).
Definition set_cache (t : trie) (s : st) : st :=
  mk_st (pid_max s) (pid_max_size s) (pid_max_size_lg s) (ns_pid_to_proc_pid s) t (tries s) (heap s)
    (ns_get_parent_enotty s) (proc_ours s) (our_ns s) (our_ns_initialised s) (pid_ns s) (calloc_failed s).
Definition set_tries (m : gmap Z trie) (s : st) : st :=
  mk_st (pid_max s) (pid_max_size s) (pid_max_size_lg s) (ns_pid_to_proc_pid s) (proc_data_cache s) m (heap s)
    (ns_get_parent_enotty s) (proc_ours s) (our_ns s) (our_ns_initialised s) (pid_ns s) (calloc_failed s).
Definition set_heap (h : gmap Z proc_data) (s : st) : st :=
  mk_st (pid_max s) (pid_max_size s) (pid_max_size_lg s) (ns_pid_to_proc_pid s) (proc_data_cache s) (tries s) h
    (ns_get_parent_enotty s) (proc_ours s) (our_ns s) (our_ns_initialised s) (pid_ns s) (calloc_failed s).
Definition set_enotty (b : bool) (s : st) : st :=
  mk_st (pid_max s) (pid_max_size s) (pid_max_size_lg s) (ns_pid_to_proc_pid s) (proc_data_cache s) (tries s) (heap s)
    b (proc_ours s) (our_ns s) (our_ns_initialised s) (pid_ns s) (calloc_failed s).
Definition set_proc_ours (z : Z) (s : st) : st :=
  mk_st (pid_max s) (pid_max_size s) (pid_max_size_lg s) (ns_pid_to_proc_pid s) (proc_data_cache s) (tries s) (heap s)
    (ns_get_parent_enotty s) z (our_ns s) (our_ns_initialised s) (pid_ns s) (calloc_failed s).
Definition set_our_ns (z : Z) (s : st) : st :=
  mk_st (pid_max s) (pid_max_size s) (pid_max_size_lg s) (ns_pid_to_proc_pid s) (proc_data_cache s) (tries s) (heap s)
    (ns_get_parent_enotty s) (proc_ours s) z true (pid_ns s) (calloc_failed s).
Definition set_pid_ns (m : gmap Z Z) (s : st) : st :=
  mk_st (pid_max s) (pid_max_size s) (pid_max_size_lg s) (ns_pid_to_proc_pid s) (proc_data_cache s) (tries s) (heap s)
    (ns_get_parent_enotty s) (proc_ours s) (our_ns s) (our_ns_initialised s) m (calloc_failed s).
Definition set_calloc_failed (s : st) : st :=
  mk_st (pid_max s) (pid_max_size s) (pid_max_size_lg s) (ns_pid_to_proc_pid s) (proc_data_cache s) (tries s) (heap s)
    (ns_get_parent_enotty s) (proc_ours s) (our_ns s) (our_ns_initialised s) (pid_ns s) true.

Inductive res (A : Type) := Val (a : A) (s : st) | Died | Fault.
Arguments Val {A} a s.
Arguments Died {A}.
Arguments Fault {A}.

Definition M (A : Type) : Type := st -> res A.
#[global] Instance M_ret : MRet M := fun A a s => Val a s.
#[global] Instance M_bind : MBind M := fun A B k m s =>
  match m s with Val a s' => k a s' | Died => Died | Fault => Fault end.
Definition get {A} (f : st -> A) : M A := fun s => Val (f s) s.
Definition modify (f : st -> st) : M unit := fun s => Val tt (f s).
Definition die {A} : M A := fun _ => Died.

(** Reads of arrays and blocks are checked. *)
Definition lift {A} (o : option A) : M A := fun s => match o with Some a => Val a s | None => Fault end.
Definition cell {A} (l : list A) (i : Z) : option A := if i <? 0 then None else l !! Z.to_nat i.
Definition load (p : Z) : M proc_data := fun s => lift (heap s !! p) s.
Definition load_trie (b : Z) : M trie := fun s => lift (tries s !! b) s.
Definition store (p : Z) (d : proc_data) : M unit :=
  load p;; modify (fun s => set_heap (<[p := d]> (heap s)) s).
Definition free (p : Z) : M unit :=
  load p;; modify (fun s => set_heap (delete p (heap s)) s).

(** The allocator of the C library: where a block is put, if there is memory. *)
Class Allocator := {
  calloc_pd : gmap Z proc_data -> option Z;
  malloc_trie : gmap Z trie -> option Z }.

Section ops.
Context {A0 : Allocator}.

Definition create_trie_4 (key_size item_size_lg empty : Z) : option trie :=
  trie_create key_size item_size_lg 4 4 empty.

(** [pid_max] is what /proc/sys/kernel/pid_max holds, [None] if that cannot be
    read; the result is [None] when the creation of a trie fails. *)
Definition pidns_init (file : option Z) : option st :=
  let pid_max := default INT_MAX file in
  let size := uint 8 (ilog2_32 (uint 32 (pid_max - 1)) + 1) in
  let size_lg := uint 8 (ilog2_32 (uint 32 (size - 1)) + 1) in
  outer ← create_trie_4 ns_id_size ptr_sz_lg 0;
  cache ← create_trie_4 size ptr_sz_lg 0;
  Some (mk_st pid_max size size_lg (fun _ => outer) cache ∅ ∅ false (-1) 0 false ∅ false).

Definition put_proc_pid (ns ns_pid : Z) (type : pid_type) (pid : Z) : M unit :=
  outer ← get (fun s => ns_pid_to_proc_pid s type);
  b ← (if trie_get outer ns =? 0 then
         s ← get (fun s => s);
         match create_trie_4 (pid_max_size s) (pid_max_size_lg s) 0, malloc_trie (tries s) with
         | Some t, Some b =>
             modify (fun s => set_tries (<[b := t]> (tries s)) s);;
             modify (fun s => set_ns_tries (fun ty => if decide (ty = type) then fst (trie_set outer ns b)
                                                      else ns_pid_to_proc_pid s ty) s);;
             mret b
         | _, _ => die
         end
       else mret (trie_get outer ns));
  t ← load_trie b;
  modify (fun s => set_tries (<[b := fst (trie_set t ns_pid pid)]> (tries s)) s).

Definition get_cached_proc_pid (ns ns_pid : Z) (type : pid_type) : M Z :=
  outer ← get (fun s => ns_pid_to_proc_pid s type);
  let b := trie_get outer ns in
  if b =? 0 then mret 0
  else t ← load_trie b; mret (sint 32 (trie_get t ns_pid)).

Section snapshot.
Variable fs : procfs.

Definition ns_hierarchy_m (pid : Z) (size : nat) : M (list Z) :=
  fun s => let '(l, e) := get_ns_hierarchy fs pid size (ns_get_parent_enotty s) in Val l (set_enotty e s).

Definition is_proc_ours : M bool :=
  v ← get proc_ours;
  if v <? 0 then
    let v := if fst (get_id_list fs 0 None PT_TID) <=? 1 then 1 else 0 in
    modify (set_proc_ours v);; mret (negb (v =? 0))
  else mret (negb (v =? 0)).

Definition get_our_ns : M Z :=
  b ← get our_ns_initialised;
  if b : bool then get our_ns
  else
    l ← ns_hierarchy_m 0 1;
    old ← get our_ns;
    modify (set_our_ns (default old (head l)));; get our_ns.

(** The pointer, 0 when there is no memory. *)
Definition get_or_create_proc_data (pid : Z) : M Z :=
  t ← get proc_data_cache;
  let pd := trie_get t pid in
  if pd =? 0 then
    h ← get heap;
    match calloc_pd h with
    | None => modify set_calloc_failed;; mret 0
    | Some p =>
        modify (fun s => set_heap (<[p := zero_pd pid]> (heap s)) s);;
        modify (fun s => set_cache (fst (trie_set (proc_data_cache s) pid p)) s);;
        mret p
    end
  else mret pd.

(** A list written at the start of an array. *)
Definition write_front (l buf : list Z) : list Z := l ++ drop (length l) buf.

Definition update_fail (p pid : Z) : M bool :=
  modify (fun s => set_cache (fst (trie_set (proc_data_cache s) pid 0)) s);; free p;; mret false.

Definition update_proc_data (p : Z) (type : pid_type) : M bool :=
  d ← load p;
  l ← ns_hierarchy_m (proc_pid d) 32;
  let d := mk_pd (proc_pid d) (lenZ l) (write_front l (ns_hierarchy d)) (id_count d) (id_hierarchy d) in
  store p d;;
  if ns_count d =? 0 then update_fail p (proc_pid d)
  else
    let row := default [] (id_hierarchy d !! pt_index type) in
    let '(n, buf) := get_id_list fs (proc_pid d) (Some row) type in
    let d := mk_pd (proc_pid d) (ns_count d) (ns_hierarchy d) (<[pt_index type := n]> (id_count d))
               (<[pt_index type := default [] buf]> (id_hierarchy d)) in
    store p d;;
    if n =? 0 then update_fail p (proc_pid d) else mret true.

Record translate_id_params := mk_tip { from_ns : Z; from_id : Z; type : pid_type; result_id : Z; pd : Z }.
Definition set_result (tip : translate_id_params) (r p : Z) : translate_id_params :=
  mk_tip (from_ns tip) (from_id tip) (type tip) r p.

(** The loop over the namespaces: [None] for a read out of bounds, [Some None]
    when there is no result. *)
Fixpoint scan (n : nat) (i : Z) (d : proc_data) (ids : list Z) (id_count ns0 id0 : Z) : option (option Z) :=
  match n with
  | O => Some None
  | S n' =>
      ns ← cell (ns_hierarchy d) i;
      ns_id ← cell ids (id_count - i - 1);
      our_id ← cell ids (id_count - ns_count d);
      if negb (ns =? ns0) then scan n' (i + 1) d ids id_count ns0 id0
      else if negb (ns_id =? id0) then Some None else Some (Some our_id)
  end.

Definition translate_id_proc_pid (tip : translate_id_params) (pid : Z) : M translate_id_params :=
  p ← (if pid =? 0 then mret (pd tip) else get_or_create_proc_data pid);
  let tip := set_result tip 0 0 in
  if p =? 0 then mret tip
  else
    ok ← (if pid =? 0 then mret true else update_proc_data p (type tip));
    if negb ok then mret tip
    else
      d ← load p;
      n ← lift (id_count d !! pt_index (type tip));
      if (ns_count d =? 0) || (n <? ns_count d) then mret tip
      else
        ids ← lift (id_hierarchy d !! pt_index (type tip));
        r ← lift (scan (Z.to_nat (ns_count d)) 0 d ids n (from_ns tip) (from_id tip));
        match r with
        | None => mret tip
        | Some our_id => mret (set_result tip our_id p)
        end.

(** The loop over the entries of a directory; [sub] is what is done with the
    "task" directory of an entry. *)
Fixpoint dir_loop (sub : translate_id_params -> Z -> M translate_id_params) (entries : list dirent)
  (tip : translate_id_params) : M translate_id_params :=
  if negb (result_id tip =? 0) then mret tip
  else match entries with
  | [] => mret tip
  | e :: rest =>
      if negb (d_dir e) then dir_loop sub rest tip
      else
        let '(pid, errno) := strtol (d_name e) in
        if (pid <? 1) || (INT_MAX <? pid) || errno then dir_loop sub rest tip
        else
          tip ← sub tip pid;
          if negb (result_id tip =? 0) then mret tip
          else tip ← translate_id_proc_pid tip pid; dir_loop sub rest tip
  end.

Definition translate_task_dir (tip : translate_id_params) (pid : Z) : M translate_id_params :=
  match task_dir fs pid with
  | None => mret tip
  | Some entries => dir_loop (fun tip _ => mret tip) entries tip
  end.

(** [translate_id_dir (tip, "/proc", true)]. *)
Definition translate_id_dir (tip : translate_id_params) : M translate_id_params :=
  match proc_dir fs with
  | None => mret tip
  | Some entries => dir_loop translate_task_dir entries tip
  end.

Definition proc_data_cache_iterator_fn (tip : translate_id_params) (val : Z) : M translate_id_params :=
  if val =? 0 then mret tip
  else if negb (result_id tip =? 0) then mret tip
  else
    tip ← translate_id_proc_pid (set_result tip (result_id tip) val) 0;
    if result_id tip =? 0 then mret tip
    else d ← load val; translate_id_proc_pid tip (proc_pid d).

(** The visits of [trie_iterate_keys (proc_data_cache, 0, pid_max - 1, ...)]:
    the keys are those of the blocks allocated when it starts, which calls of
    the function do not change, and the value is read when the key is reached.
    A block has 16 keys, so 17 rounds are enough for the loop over it. *)
Fixpoint visit_loop (keys : list (Z * Z)) (tip : translate_id_params) : M translate_id_params :=
  match keys with
  | [] => mret tip
  | (k, _) :: rest =>
      val ← get (fun s => trie_get (proc_data_cache s) k);
      tip ← proc_data_cache_iterator_fn tip val;
      visit_loop rest tip
  end.

Definition iterate_cache (tip : translate_id_params) : M translate_id_params :=
  t ← get proc_data_cache;
  max ← get pid_max;
  keys ← lift (trie_iterate_keys 17 t 0 (uint 64 (max - 1)));
  visit_loop (fst keys) tip.

(** After the guards: from the caches, then from /proc, then the label [exit].
    The result and what is stored through [proc_pid_ptr], if anything. *)
Definition translate_nontrivial (ns from_id : Z) (type : pid_type) : M (Z * option Z) :=
  let tip := mk_tip ns from_id type 0 0 in
  cached ← get_cached_proc_pid ns from_id type;
  tip ← (if cached =? 0 then mret tip else translate_id_proc_pid tip cached);
  tip ← (if negb (result_id tip =? 0) then mret tip
         else
           tip ← iterate_cache tip;
           if negb (result_id tip =? 0) then mret tip else translate_id_dir tip);
  if pd tip =? 0 then mret (result_id tip, None)
  else
    d ← load (pd tip);
    (if proc_pid d =? 0 then mret tt else put_proc_pid ns from_id type (proc_pid d));;
    mret (result_id tip, Some (proc_pid d)).

(** [translate_pid] with [get_ns (tcp)] given, [None] for a null [tcp];
    [want] tells whether [proc_pid_ptr] is not null. *)
Definition translate_with (tcp_ns : option (M Z)) (from_id : Z) (type : option pid_type) (want : bool)
  : M (Z * option Z) :=
  match type with
  | None => mret (0, None)
  | Some type =>
      if from_id <=? 0 then mret (0, None)
      else
        same ← (match tcp_ns with None => mret true | Some g => a ← g; b ← get_our_ns; mret (a =? b) end);
        trivial ← (if same : bool then if want then is_proc_ours else mret true else mret false);
        if trivial : bool then mret (from_id, if want then Some from_id else None)
        else
          ns ← (match tcp_ns with None => get_our_ns | Some g => g end);
          if ns =? 0 then mret (0, None)
          else
            e ← get ns_get_parent_enotty;
            if e : bool then mret (0, None)
            else
              '(r, p) ← translate_nontrivial ns from_id type;
              mret (r, if want then p else None)
  end.

Definition get_proc_pid (pid : Z) : M Z :=
  '(_, p) ← translate_with None pid (Some PT_TID) true; mret (default 0 p).

(** [tcp] is the pid of the tracee. *)
Definition get_ns (tcp : Z) : M Z :=
  m ← get pid_ns;
  if default 0 (m !! tcp) =? 0 then
    p ← get_proc_pid tcp;
    (if p =? 0 then mret tt
     else l ← ns_hierarchy_m p 1;
          match l with [] => mret tt | ns :: _ => modify (fun s => set_pid_ns (<[tcp := ns]> (pid_ns s)) s) end);;
    m ← get pid_ns; mret (default 0 (m !! tcp))
  else mret (default 0 (m !! tcp)).

(** [type] is [None] when it is not one of the four. *)
Definition translate_pid (tcp : option Z) (from_id : Z) (type : option pid_type) (want : bool) : M (Z * option Z) :=
  translate_with (get_ns <$> tcp) from_id type want.

Definition get_strace_pid (pid : Z) : M Z :=
  if pid <=? 0 then mret 0
  else
    ours ← is_proc_ours;
    if ours : bool then mret pid
    else
      let our_count := fst (get_id_list fs 0 None PT_TID) in
      if (our_count =? 0) || (MAX_NS_DEPTH <? our_count) then mret 0
      else
        let '(count, ids) := get_id_list fs pid (Some (replicate 32 0)) PT_TID in
        if (count <? our_count) || (MAX_NS_DEPTH <? count) then mret 0
        else
          strace_pid ← lift (cell (default [] ids) (our_count - 1));
          p ← get_proc_pid strace_pid;
          mret (if p =? pid then strace_pid else 0).

(** ** Printing *)

Definition DECODE_PID_NS_TRANSLATION : Z := 0.
Definition DECODE_PID_COMM : Z := 1.
Variable decode_pid_set : option number_set.

Definition printpid_translation (tcp : option Z) (pid : Z) (type : pid_type) : M string :=
  let print_ns_translation := is_number_in_set DECODE_PID_NS_TRANSLATION decode_pid_set in
  let print_comm := is_number_in_set DECODE_PID_COMM decode_pid_set &&
                    match type with PT_TID | PT_TGID => true | _ => false end in
  if print_ns_translation || print_comm then
    '(strace_pid, _) ← translate_pid tcp pid (Some type) false;
    if strace_pid =? 0 then mret EmptyString
    else
      comm ← (if print_comm then
                p ← get_proc_pid strace_pid;
                mret (if p =? 0 then EmptyString else comm_text fs p)
              else mret EmptyString);
      mret (comm +:+ if print_ns_translation && negb (strace_pid =? pid)
                     then " /* " +:+ pretty strace_pid +:+ " in strace's PID NS */" else EmptyString)
  else mret EmptyString.

Definition printpid (tcp : option Z) (pid : Z) (type : pid_type) : M string :=
  t ← printpid_translation tcp pid type; mret (pretty pid +:+ t).

Definition printpid_tgid_pgid (tcp : option Z) (pid : Z) : M string :=
  t ← (if 0 <? pid then printpid_translation tcp pid PT_TGID
       else if pid <? -1 then printpid_translation tcp (sint 32 (- pid)) PT_PGID
       else mret EmptyString);
  mret (pretty pid +:+ t).

End snapshot.
End ops.

(** ** What /proc says

    The ids a line of /proc/PID/status lists, without a limit on their number. *)
Fixpoint ids_from (fuel : nat) (p : option string) : list Z :=
  match fuel, p with
  | S fuel', Some s =>
      let '(id, errno) := strtol s in
      if (id <? 0) || (INT_MAX <? id) || errno then [] else id :: ids_from fuel' (strsep_tab s)
  | _, _ => []
  end.

Definition id_list (fs : procfs) (pid : Z) (type : pid_type) : list Z :=
  match status_lines fs pid with
  | None => []
  | Some lines => match find_line (id_strs type) lines with
                  | None => []
                  | Some p => ids_from (S (String.length p)) (Some p)
                  end
  end.

(** The namespaces of a process, its own first. *)
Definition hierarchy (fs : procfs) (enotty : bool) (pid : Z) : list Z := fst (get_ns_hierarchy fs pid 32 enotty).

Fixpoint ns_index (ns : Z) (h : list Z) : option nat :=
  match h with
  | [] => None
  | x :: h' => if x =? ns then Some 0%nat else S <$> ns_index ns h'
  end.

(** A process with the namespaces [h] and the ids [l], outermost first, has the
    id [id] in [ns]: its id in the outermost of the namespaces. *)
Definition locate (h l : list Z) (ns id : Z) : option Z :=
  if bool_decide (h = []) || (lenZ l <? lenZ h) then None
  else i ← ns_index ns h;
       if nthZ l (lenZ l - Z.of_nat i - 1) =? id then Some (nthZ l (lenZ l - lenZ h)) else None.

Lemma locate_no_ids h ns id : locate h [] ns id = None.
Proof.
  unfold locate. destruct h as [|x h]; [done|]. rewrite lenZ_cons. len_facts.
  by rewrite (proj2 (Z.ltb_lt (lenZ (@nil Z)) _)), orb_true_r by (unfold lenZ; simpl; lia).
Qed.

Definition finds (fs : procfs) (enotty : bool) (ns id : Z) (type : pid_type) (pid : Z) : option Z :=
  locate (hierarchy fs enotty pid) (id_list fs pid type) ns id.

(** The limit on nesting: no process has more than [MAX_NS_DEPTH] ids. *)
Definition depth_ok (fs : procfs) : Prop := forall pid type, lenZ (id_list fs pid type) <= MAX_NS_DEPTH.

Lemma ids_from_range fuel p : Forall (fun id => 0 <= id <= INT_MAX) (ids_from fuel p).
Proof.
  revert p. induction fuel as [|fuel IH]; intros [s|]; try by constructor. cbn [ids_from].
  destruct (strtol s) as [id e]. destruct (Z.ltb_spec id 0), (Z.ltb_spec INT_MAX id), e; try by constructor.
Qed.

(** The buffer takes the ids it has room for, the count goes on. *)
Lemma id_loop_spec fuel p buf size n :
  0 <= n -> lenZ buf = size ->
  id_loop fuel p (Some buf) size n =
  (n + lenZ (ids_from fuel p),
   Some (take (Z.to_nat n) buf ++ take (Z.to_nat (size - n)) (ids_from fuel p) ++
         drop (Z.to_nat n + length (ids_from fuel p)) buf)).
Proof.
  revert p buf n. induction fuel as [|fuel IH]; intros p buf n Hn Hb.
  { cbn [id_loop ids_from length]. by rewrite take_nil, lenZ_nil, Z.add_0_r, Nat.add_0_r, app_nil_l, take_drop. }
  destruct p as [s|]; cbn [id_loop ids_from].
  2: { cbn [length]. by rewrite take_nil, lenZ_nil, Z.add_0_r, Nat.add_0_r, app_nil_l, take_drop. }
  destruct (strtol s) as [id e].
  destruct ((id <? 0) || (INT_MAX <? id) || e).
  { cbn [length]. by rewrite take_nil, lenZ_nil, Z.add_0_r, Nat.add_0_r, app_nil_l, take_drop. }
  rewrite lenZ_cons. set (l := ids_from fuel (strsep_tab s)) in *. cbn [length].
  destruct (Z.ltb_spec n size).
  - rewrite IH by (lia || by rewrite lenZ_updZ). fold l. f_equal; [lia|]. f_equal. unfold updZ.
    replace (Z.to_nat (n + 1)) with (S (Z.to_nat n)) by lia. unfold lenZ in *.
    rewrite (take_S_r _ _ id) by (apply list_lookup_insert_eq; lia).
    rewrite take_insert_ge, <- app_assoc by lia.
    replace (Z.to_nat (size - n)) with (S (Z.to_nat (size - (n + 1)))) by lia. cbn [app firstn].
    rewrite drop_insert_lt by lia. do 4 f_equal. lia.
  - rewrite IH by (lia || done). fold l. f_equal; [lia|]. f_equal. unfold lenZ in *.
    replace (Z.to_nat (size - n)) with 0%nat by lia. replace (Z.to_nat (size - (n + 1))) with 0%nat by lia.
    by rewrite (take_ge buf (Z.to_nat n)), (take_ge buf (Z.to_nat (n + 1))), !drop_ge by lia.
Qed.

Lemma id_loop_count fuel p buf size n : fst (id_loop fuel p buf size n) = n + lenZ (ids_from fuel p).
Proof.
  revert p buf n. induction fuel as [|fuel IH]; intros [s|] buf n; cbn [id_loop ids_from fst]; rewrite ?lenZ_nil; try lia.
  destruct (strtol s) as [id e]. destruct ((id <? 0) || (INT_MAX <? id) || e); cbn [fst]; rewrite ?lenZ_nil; [lia|].
  rewrite IH, lenZ_cons. lia.
Qed.

Lemma get_id_list_count fs pid buf ty : fst (get_id_list fs pid buf ty) = lenZ (id_list fs pid ty).
Proof.
  unfold get_id_list, proc_status_get_id_list, id_list. destruct (status_lines fs pid); [|done].
  destruct (find_line _ _); [|done]. by rewrite id_loop_count.
Qed.

(** The row of a block after [get_id_list]. *)
Definition row_after (l row : list Z) : list Z := take (Z.to_nat MAX_NS_DEPTH) l ++ drop (length l) row.

Lemma get_id_list_row fs pid buf ty : lenZ buf = MAX_NS_DEPTH ->
  get_id_list fs pid (Some buf) ty = (lenZ (id_list fs pid ty), Some (row_after (id_list fs pid ty) buf)).
Proof.
  intros Hb. unfold get_id_list, proc_status_get_id_list, id_list, row_after.
  destruct (status_lines fs pid); [|done]. destruct (find_line _ _); [|done].
  by rewrite id_loop_spec by (lia || done).
Qed.

Lemma row_after_length l row : lenZ row = MAX_NS_DEPTH -> lenZ (row_after l row) = MAX_NS_DEPTH.
Proof. unfold lenZ, row_after, MAX_NS_DEPTH. intros Hr. rewrite length_app, length_take, length_drop. lia. Qed.

Lemma get_id_list_spec fs pid buf ty :
  depth_ok fs -> lenZ buf = MAX_NS_DEPTH ->
  get_id_list fs pid (Some buf) ty =
  (lenZ (id_list fs pid ty), Some (write_front (id_list fs pid ty) buf)).
Proof.
  intros Hd Hb. specialize (Hd pid ty). rewrite get_id_list_row by done. unfold row_after, write_front.
  rewrite take_ge; [done|]. unfold lenZ in Hd. lia.
Qed.

Lemma ns_loop_length fs room fd e : (length (fst (ns_loop fs room fd e)) <= room)%nat.
Proof.
  revert fd e. induction room as [|room IH]; intros fd e; cbn [ns_loop]; [done|].
  destruct (fd_ino fs fd); [|simpl; lia]. destruct (room =? 0)%nat, e; try (simpl; lia).
  destruct (ns_parent fs fd) as [fd'| | |]; try (simpl; lia).
  specialize (IH fd' false). destruct (ns_loop fs room fd' false). simpl in *. lia.
Qed.

Lemma hierarchy_length fs e pid : lenZ (hierarchy fs e pid) <= MAX_NS_DEPTH.
Proof.
  unfold hierarchy, get_ns_hierarchy, lenZ, MAX_NS_DEPTH. destruct (open_ns fs pid) as [fd|]; [|simpl; lia].
  pose proof (ns_loop_length fs 32 fd e). lia.
Qed.

Lemma cell_nthZ (l : list Z) i : 0 <= i < lenZ l -> cell l i = Some (nthZ l i).
Proof. intros Hi. unfold cell. destruct (Z.ltb_spec i 0); [lia|]. by apply nthZ_lookup. Qed.

(** ** Blocks *)

Record pd_ok (d : proc_data) : Prop := {
  pd_ns : 0 <= ns_count d <= MAX_NS_DEPTH;
  pd_ns_len : lenZ (ns_hierarchy d) = MAX_NS_DEPTH;
  pd_counts_len : length (id_count d) = PT_COUNT;
  pd_counts : Forall (fun n => 0 <= n <= MAX_NS_DEPTH) (id_count d);
  pd_rows_len : length (id_hierarchy d) = PT_COUNT;
  pd_rows : Forall (fun r => lenZ r = MAX_NS_DEPTH) (id_hierarchy d) }.

(** The namespaces and the ids a block holds. *)
Definition pd_h (d : proc_data) : list Z := take (Z.to_nat (ns_count d)) (ns_hierarchy d).
Definition pd_l (d : proc_data) (ty : pid_type) : list Z :=
  take (Z.to_nat (default 0 (id_count d !! pt_index ty))) (default [] (id_hierarchy d !! pt_index ty)).

Lemma pt_index_lt ty : (pt_index ty < PT_COUNT)%nat.
Proof. destruct ty; unfold PT_COUNT; simpl; lia. Qed.

Lemma zero_pd_ok pid : pd_ok (zero_pd pid).
Proof. split; try done; simpl; unfold MAX_NS_DEPTH; try lia; repeat constructor; lia. Qed.

Lemma pd_row d ty : pd_ok d -> exists n row,
  id_count d !! pt_index ty = Some n /\ id_hierarchy d !! pt_index ty = Some row /\
  0 <= n <= MAX_NS_DEPTH /\ lenZ row = MAX_NS_DEPTH.
Proof.
  intros []. pose proof (pt_index_lt ty).
  destruct (lookup_lt_is_Some_2 (id_count d) (pt_index ty)) as [n En]; [lia|].
  destruct (lookup_lt_is_Some_2 (id_hierarchy d) (pt_index ty)) as [row Er]; [lia|].
  exists n, row. repeat split; try done.
  - by apply (list.Forall_lookup_1 _ _ _ _ pd_counts0 En).
  - by apply (list.Forall_lookup_1 _ _ _ _ pd_counts0 En).
  - by apply (list.Forall_lookup_1 _ _ _ _ pd_rows0 Er).
Qed.

Lemma nthZ_take (l : list Z) n i : 0 <= i < n -> nthZ (take (Z.to_nat n) l) i = nthZ l i.
Proof. intros. unfold nthZ. rewrite !nth_lookup_default, lookup_take_lt by lia. done. Qed.

Lemma lenZ_take (l : list Z) n : 0 <= n <= lenZ l -> lenZ (take (Z.to_nat n) l) = n.
Proof. intros. unfold lenZ in *. rewrite length_take. lia. Qed.

Lemma scan_spec d ids n ns id suf pre :
  pd_ok d -> lenZ ids = MAX_NS_DEPTH -> ns_count d <= n <= MAX_NS_DEPTH ->
  pd_h d = pre ++ suf ->
  scan (length suf) (lenZ pre) d ids n ns id =
  Some (j ← ns_index ns suf;
        if nthZ ids (n - (lenZ pre + Z.of_nat j) - 1) =? id then Some (nthZ ids (n - ns_count d)) else None).
Proof.
  intros Hd Hi Hn. revert pre. induction suf as [|x suf IH]; intros pre E; [done|].
  cbn [length scan ns_index].
  assert (HL : lenZ (pd_h d) = ns_count d) by (apply lenZ_take; destruct Hd; lia).
  assert (Hp : 0 <= lenZ pre < ns_count d) by (rewrite <- HL, E, lenZ_app, lenZ_cons; len_facts; lia).
  assert (Hx : nthZ (ns_hierarchy d) (lenZ pre) = x).
  { rewrite <- (nthZ_take _ (ns_count d)) by lia. fold (pd_h d). rewrite E. unfold nthZ, lenZ. rewrite Nat2Z.id.
    by rewrite nth_middle. }
  rewrite !cell_nthZ by (destruct Hd; lia). cbn [mbind option_bind]. rewrite Hx.
  destruct (Z.eqb_spec x ns); cbn [negb].
  - cbn. rewrite Z.add_0_r. by destruct (nthZ ids (n - lenZ pre - 1) =? id).
  - specialize (IH (pre ++ [x])). rewrite lenZ_app, lenZ_cons, lenZ_nil, Z.add_0_r in IH.
    rewrite IH by (by rewrite <- app_assoc). destruct (ns_index ns suf) as [j|]; [|done].
    cbn [fmap option_fmap option_map mbind option_bind].
    by replace (lenZ pre + Z.of_nat (S j)) with (lenZ pre + 1 + Z.of_nat j) by lia.
Qed.

Lemma ns_index_lt ns h i : ns_index ns h = Some i -> (i < length h)%nat.
Proof.
  revert i. induction h as [|x h IH]; intros i; [done|]. cbn [ns_index length]. destruct (x =? ns); [intros [= <-]; lia|].
  destruct (ns_index ns h) as [j|]; [|done]. intros [= <-]. specialize (IH j eq_refl). lia.
Qed.

Lemma pd_h_length d : pd_ok d -> lenZ (pd_h d) = ns_count d.
Proof. intros []. apply lenZ_take. lia. Qed.

Lemma pd_l_length d ty n row : id_count d !! pt_index ty = Some n -> id_hierarchy d !! pt_index ty = Some row ->
  0 <= n <= lenZ row -> pd_l d ty = take (Z.to_nat n) row /\ lenZ (pd_l d ty) = n.
Proof. intros En Er Hn. unfold pd_l. rewrite En, Er. simpl. split; [done|by apply lenZ_take]. Qed.

Lemma locate_guard d ty n : pd_ok d -> id_count d !! pt_index ty = Some n ->
  bool_decide (pd_h d = []) || (lenZ (pd_l d ty) <? lenZ (pd_h d)) = (ns_count d =? 0) || (n <? ns_count d).
Proof.
  intros Hd En. destruct (pd_row d ty Hd) as (n' & row & En' & Er & Hn & Hr). simplify_eq.
  destruct (pd_l_length d ty n row En Er ltac:(lia)) as [_ ->]. rewrite (pd_h_length d Hd). f_equal.
  pose proof (pd_h_length d Hd) as HL. destruct (pd_h d) as [|x l] eqn:E.
  - rewrite bool_decide_eq_true_2 by done. symmetry. apply Z.eqb_eq. by rewrite <- HL.
  - rewrite bool_decide_eq_false_2 by done. symmetry. apply Z.eqb_neq. rewrite <- HL, lenZ_cons. len_facts. lia.
Qed.

Lemma scan_locate d ty n row ns id :
  pd_ok d -> id_count d !! pt_index ty = Some n -> id_hierarchy d !! pt_index ty = Some row ->
  (ns_count d =? 0) || (n <? ns_count d) = false ->
  scan (Z.to_nat (ns_count d)) 0 d row n ns id = Some (locate (pd_h d) (pd_l d ty) ns id).
Proof.
  intros Hd En Er Hg. destruct (pd_row d ty Hd) as (n' & row' & En' & Er' & Hn & Hr). simplify_eq.
  unfold locate. rewrite (locate_guard d ty n Hd En), Hg. apply orb_false_iff in Hg as [H0%Z.eqb_neq H1%Z.ltb_ge].
  pose proof (pd_h_length d Hd) as HL. replace (Z.to_nat (ns_count d)) with (length (pd_h d)) by (unfold lenZ in HL; lia).
  change 0 with (lenZ ([] : list Z)). rewrite (scan_spec d row n ns id (pd_h d) []) by (done || lia).
  destruct (pd_l_length d ty n row En Er ltac:(lia)) as [Epl ->]. f_equal.
  destruct (ns_index ns (pd_h d)) as [i|] eqn:Ei; [|done]. apply ns_index_lt in Ei. cbn [mbind option_bind].
  unfold lenZ in HL at 1. rewrite Z.add_0_l, (pd_h_length d Hd), Epl, !nthZ_take by (destruct Hd; lia). done.
Qed.

(** ** The invariant of the caches *)

(** A trie of pointers made by [create_trie_4]. *)
Record ptr_trie (size : Z) (t : trie) : Prop := {
  pt_wf : trie_wf t; pt_size : key_size t = size; pt_item : item_size_lg t = 6;
  pt_empty : empty_value t = 0; pt_block : data_block_key_bits t = 4 }.

Lemma create_trie_4_empty size lg : 4 <= size <= 64 -> 0 <= lg <= 6 -> exists t,
  create_trie_4 size lg 0 = Some t /\ trie_wf t /\ key_size t = size /\ item_size_lg t = lg /\ empty_value t = 0 /\
  data_block_key_bits t = 4 /\ forall k, trie_get t k = 0.
Proof.
  intros Hs Hl. destruct (trie_create_wf size lg 4 4 0) as (t & E & W & Hn & Hk & Hi & He); [unfold sizes_ok; lia|].
  rewrite Z.mod_0_l in He by (apply Z.pow_nonzero; [lia|apply Z.pow_nonneg; lia]).
  exists t. split; [exact E|]. do 4 (split; [done|]). split.
  - unfold trie_create in E.
    by repeat (match type of E with (if ?b then _ else _) = _ => destruct b; [done|] end); injection E as <-.
  - intros k. unfold trie_get, trie_get_node. rewrite Hn.
    assert (Hg : get_node t (levels t) Null k = None) by (by destruct (levels t)). rewrite Hg. by destruct (key_too_big t k).
Qed.

Lemma ptr_trie_set size t k v : ptr_trie size t -> ptr_trie size (fst (trie_set t k v)).
Proof.
  intros []. split; [by apply trie_set_wf|..]; unfold trie_set; by destruct (key_too_big t k).
Qed.

Lemma ptr_trie_get_set size t k v k' :
  ptr_trie size t -> 0 <= k < 2 ^ 64 -> 0 <= k' < 2 ^ 64 -> 0 <= v < 2 ^ 64 ->
  trie_get (fst (trie_set t k v)) k' = if (k <? 2 ^ size) && (k =? k') then v else trie_get t k'.
Proof.
  intros [W <- Hi _ _] Hk Hk' Hv. rewrite trie_get_set by done. unfold item_bits. rewrite Hi.
  by rewrite Z.mod_small by (change (2 ^ 2 ^ 6) with (2 ^ 64); lia).
Qed.

Lemma ptr_trie_big size t k : ptr_trie size t -> 2 ^ size <= k < 2 ^ 64 -> trie_get t k = 0.
Proof.
  intros [W <- _ He _] Hk. unfold trie_get, trie_get_node. rewrite key_too_big_spec by (apply W || lia).
  by rewrite (proj2 (Z.leb_le _ _)) by lia.
Qed.

Definition inner_ok (t : trie) : Prop := trie_wf t /\ forall k, 0 <= k < 2 ^ 64 -> 0 <= trie_get t k <= INT_MAX.

(** Every pointer in a cache is to a live block, that of the process whose pid
    is the key. *)
Record inv (s : st) : Prop := {
  i_max : 9 <= pid_max s <= INT_MAX;
  i_size : 4 <= pid_max_size s <= 32;
  i_fits : pid_max s <= 2 ^ pid_max_size s;
  i_lg : 0 <= pid_max_size_lg s <= 6;
  i_cache_trie : ptr_trie (pid_max_size s) (proc_data_cache s);
  i_cache : forall k, 0 <= k < 2 ^ 64 -> trie_get (proc_data_cache s) k <> 0 ->
    exists d, heap s !! trie_get (proc_data_cache s) k = Some d /\ proc_pid d = k;
  i_heap : forall p d, heap s !! p = Some d -> pd_ok d /\ 0 < proc_pid d <= INT_MAX;
  i_outer : forall ty, ptr_trie ns_id_size (ns_pid_to_proc_pid s ty);
  i_inner : forall ty ns, 0 <= ns < 2 ^ 64 -> trie_get (ns_pid_to_proc_pid s ty) ns <> 0 ->
    exists t, tries s !! trie_get (ns_pid_to_proc_pid s ty) ns = Some t;
  i_tries : forall b t, tries s !! b = Some t -> inner_ok t;
  i_our : 0 <= our_ns s < 2 ^ 32;
  i_tcb : forall tcp, 0 <= default 0 (pid_ns s !! tcp) < 2 ^ 32 }.

(** The kernel has the ioctl (Linux 4.9). *)
Definition no_enotty (fs : procfs) : Prop := forall fd, ns_parent fs fd <> ParentENOTTY.

(** What a translation leaves alone. *)
Definition frame (fs : procfs) (s s' : st) : Prop :=
  proc_ours s' = proc_ours s /\ our_ns s' = our_ns s /\ our_ns_initialised s' = our_ns_initialised s /\
  pid_ns s' = pid_ns s /\ (calloc_failed s' = false -> calloc_failed s = false) /\
  (no_enotty fs -> ns_get_parent_enotty s' = ns_get_parent_enotty s).

(** ** Weakest preconditions: no fault, and no end but for lack of memory *)

Class AllocatorLaws (A0 : Allocator) : Prop := {
  calloc_fresh : forall h p, calloc_pd h = Some p -> 0 < p < 2 ^ 64 /\ h !! p = None;
  malloc_fresh : forall m b, malloc_trie m = Some b -> 0 < b < 2 ^ 64 /\ m !! b = None }.

Section wp.
Context {A0 : Allocator}.

Definition no_memory : Prop := exists m, malloc_trie m = None.

Definition wp {A} (m : M A) (Q : A -> st -> Prop) (s : st) : Prop :=
  match m s with Val a s' => Q a s' | Died => no_memory | Fault => False end.

Lemma wp_bind {A B} (m : M A) (k : A -> M B) Q s : wp m (fun a => wp (k a) Q) s -> wp (m ≫= k) Q s.
Proof. unfold wp, mbind, M_bind. by destruct (m s) as [a s'| |]. Qed.

Lemma wp_mono {A} (m : M A) (P Q : A -> st -> Prop) s :
  wp m P s -> (forall a s', P a s' -> Q a s') -> wp m Q s.
Proof. unfold wp. destruct (m s) as [a s'| |]; auto. Qed.

Lemma wp_seq {A B} (m : M A) (k : A -> M B) P Q s :
  wp m P s -> (forall a s', P a s' -> wp (k a) Q s') -> wp (m ≫= k) Q s.
Proof. intros Hm Hk. apply wp_bind. by eapply wp_mono. Qed.

Lemma wp_load p d Q s : heap s !! p = Some d -> Q d s -> wp (load p) Q s.
Proof. intros E. unfold wp, load. by rewrite E. Qed.

Lemma wp_load_trie b t Q s : tries s !! b = Some t -> Q t s -> wp (load_trie b) Q s.
Proof. intros E. unfold wp, load_trie. by rewrite E. Qed.

Lemma wp_lift {A} (o : option A) a Q s : o = Some a -> Q a s -> wp (lift o) Q s.
Proof. by intros ->. Qed.

Lemma wp_store p d d' Q s : heap s !! p = Some d -> Q tt (set_heap (<[p := d']> (heap s)) s) -> wp (store p d') Q s.
Proof. intros E HQ. apply wp_bind. by eapply wp_load. Qed.

End wp.

Lemma frame_refl fs s : frame fs s s.
Proof. done. Qed.
Lemma frame_trans fs s1 s2 s3 : frame fs s1 s2 -> frame fs s2 s3 -> frame fs s1 s3.
Proof. unfold frame. intuition congruence. Qed.

#[export] Hint Resolve frame_refl frame_trans : strace.

Lemma ns_loop_enotty fs room fd e : no_enotty fs -> snd (ns_loop fs room fd e) = e.
Proof.
  intros Hn. revert fd. induction room as [|room IH]; intros fd; cbn [ns_loop]; [done|].
  destruct (fd_ino fs fd); [|done]. destruct (room =? 0)%nat, e; try done.
  specialize (Hn fd). destruct (ns_parent fs fd) as [fd'| | |]; try done.
  specialize (IH fd'). by destruct (ns_loop fs room fd' false).
Qed.

Lemma get_ns_hierarchy_enotty fs pid n e : no_enotty fs -> snd (get_ns_hierarchy fs pid n e) = e.
Proof. intros Hn. unfold get_ns_hierarchy. destruct (open_ns fs pid); [by apply ns_loop_enotty|done]. Qed.

(** ** Steps that keep the invariant *)

Lemma inv_enotty e s : inv s -> inv (set_enotty e s).
Proof. intros []. by split. Qed.

Lemma inv_store p d s : inv s -> pd_ok d -> 0 < proc_pid d <= INT_MAX ->
  (forall d', heap s !! p = Some d' -> proc_pid d' = proc_pid d) -> inv (set_heap (<[p := d]> (heap s)) s).
Proof.
  intros [] Hd Hp He. split; try done; cbn [heap set_heap proc_data_cache].
  - intros k Hk Hk0. destruct (i_cache0 k Hk Hk0) as (d' & E & Hd'). rewrite lookup_insert.
    case_decide as Ep; [|by exists d']. exists d. split; [done|]. rewrite <- Hd'. symmetry. apply He. by rewrite Ep.
  - intros q d' [[<- <-]|[_ Hq]]%lookup_insert_Some; [done|]. by eapply i_heap0.
Qed.

Lemma inv_cache_set k v s : inv s -> 0 < k <= INT_MAX -> 0 <= v < 2 ^ 64 ->
  (v <> 0 -> exists d, heap s !! v = Some d /\ proc_pid d = k) ->
  inv (set_cache (fst (trie_set (proc_data_cache s) k v)) s).
Proof.
  intros [] Hk Hv He. assert (INT_MAX < 2 ^ 64) by done.
  split; try done; cbn [heap set_cache proc_data_cache pid_max_size].
  - by apply ptr_trie_set.
  - intros k' Hk' Hk0. rewrite (ptr_trie_get_set (pid_max_size s)) in * by (done || lia).
    destruct ((k <? 2 ^ pid_max_size s) && (k =? k')) eqn:E; [|by apply i_cache0].
    apply andb_true_iff in E as [_ <-%Z.eqb_eq]. by apply He.
Qed.

(** The failure of an update: the slot is cleared first, so that nothing points
    to the block when it is freed. *)
Lemma inv_drop p d s : inv s -> heap s !! p = Some d ->
  inv (set_heap (delete p (heap s)) (set_cache (fst (trie_set (proc_data_cache s) (proc_pid d) 0)) s)).
Proof.
  intros Hs Ed. pose proof (i_heap s Hs p d Ed) as [Hok Hk]. destruct Hs. assert (INT_MAX < 2 ^ 64) by done.
  split; try done; cbn [heap set_cache set_heap proc_data_cache pid_max_size].
  - by apply ptr_trie_set.
  - intros k' Hk' Hk0. rewrite (ptr_trie_get_set (pid_max_size s)) in * by (done || lia).
    destruct ((proc_pid d <? 2 ^ pid_max_size s) && (proc_pid d =? k')) eqn:E; [done|].
    destruct (i_cache0 k' Hk' Hk0) as (d' & E' & Hd'). exists d'. split; [|done].
    rewrite lookup_delete_ne; [done|]. intros ->. simplify_eq.
    rewrite Z.eqb_refl, andb_true_r in E. apply Z.ltb_ge in E.
    by rewrite (ptr_trie_big (pid_max_size s)) in Hk0 by (done || lia).
  - intros q d' [_ Hq]%lookup_delete_Some. by eapply i_heap0.
Qed.

Lemma write_front_ok l buf : lenZ buf = MAX_NS_DEPTH -> lenZ l <= MAX_NS_DEPTH ->
  lenZ (write_front l buf) = MAX_NS_DEPTH /\ take (Z.to_nat (lenZ l)) (write_front l buf) = l.
Proof.
  intros Hb Hl. unfold write_front. split.
  - unfold lenZ in *. rewrite length_app, length_drop. lia.
  - unfold lenZ. rewrite Nat2Z.id. by apply take_app_length.
Qed.

Section translation.
Context {A0 : Allocator} {AL : AllocatorLaws A0}.
Variable fs : procfs.
Hypothesis Hdepth : depth_ok fs.

Lemma update_fail_spec p d s : inv s -> heap s !! p = Some d ->
  wp (update_fail p (proc_pid d)) (fun ok s' => ok = false /\ inv s' /\ frame fs s s') s.
Proof.
  intros Hs E. apply wp_bind. unfold wp at 1. cbn. unfold free. do 2 apply wp_bind. eapply wp_load; [exact E|].
  split; [done|]. split; [|done]. exact (inv_drop p d s Hs E).
Qed.

Lemma update_proc_data_spec p d ty s : inv s -> heap s !! p = Some d ->
  wp (update_proc_data fs p ty) (fun ok s' => inv s' /\ frame fs s s' /\
    let h := hierarchy fs (ns_get_parent_enotty s) (proc_pid d) in
    let l := id_list fs (proc_pid d) ty in
    if ok : bool then exists d', heap s' !! p = Some d' /\ proc_pid d' = proc_pid d /\ pd_h d' = h /\ pd_l d' ty = l
    else h = [] \/ l = []) s.
Proof.
  intros Hs E. pose proof (i_heap s Hs p d E) as [Hok Hk]. unfold update_proc_data.
  apply wp_bind. eapply wp_load; [exact E|]. apply wp_bind. unfold wp at 1, ns_hierarchy_m.
  pose proof (hierarchy_length fs (ns_get_parent_enotty s) (proc_pid d)) as Hh.
  pose proof (get_ns_hierarchy_enotty fs (proc_pid d) 32 (ns_get_parent_enotty s)) as He. unfold hierarchy in *.
  destruct (get_ns_hierarchy fs (proc_pid d) 32 (ns_get_parent_enotty s)) as [h e]. cbn [fst snd] in *.
  destruct (write_front_ok h (ns_hierarchy d)) as [Hw1 Hw2]; [by destruct Hok|done|].
  set (d1 := mk_pd (proc_pid d) (lenZ h) _ _ _).
  assert (Hd1 : pd_ok d1) by (destruct Hok; split; try done; cbn; split; [apply lenZ_nonneg|done]).
  assert (Hs1 : inv (set_heap (<[p := d1]> (heap s)) (set_enotty e s))).
  { apply (inv_store p d1 (set_enotty e s)); [by apply inv_enotty|done|done|]. cbn. intros. by simplify_eq. }
  apply wp_bind. eapply wp_store; [exact E|]. cbn [heap set_enotty]. set (s1 := set_heap _ _) in *.
  assert (Hf1 : frame fs s s1) by done.
  assert (E1 : heap s1 !! p = Some d1) by apply lookup_insert_eq. clearbody s1.
  destruct (Z.eqb_spec (ns_count d1) 0) as [H0|H0].
  { eapply wp_mono; [exact (update_fail_spec p d1 s1 Hs1 E1)|]. intros ok s' (-> & Hi & Hf).
    split; [done|]. split; [eauto with strace|]. left. destruct h; [done|]. cbn in H0. rewrite lenZ_cons in H0. len_facts. lia. }
  destruct (pd_row d1 ty Hd1) as (n0 & row & En & Er & Hn & Hr). rewrite Er. change (default [] (Some row)) with row.
  rewrite (get_id_list_spec fs (proc_pid d1) row ty Hdepth Hr). cbn [from_option id].
  change (proc_pid d1) with (proc_pid d). set (l := id_list fs (proc_pid d) ty).
  assert (Hl : 0 <= lenZ l <= MAX_NS_DEPTH) by (split; [apply lenZ_nonneg|apply Hdepth]).
  destruct (write_front_ok l row Hr ltac:(lia)) as [Hv1 Hv2].
  set (d2 := mk_pd (proc_pid d) (ns_count d1) _ _ _).
  pose proof (pt_index_lt ty) as Hty.
  assert (Hd2 : pd_ok d2).
  { destruct Hd1; split; try done; cbn; rewrite ?length_insert; try done.
    - by apply Forall_insert.
    - by apply Forall_insert. }
  assert (Hs2 : inv (set_heap (<[p := d2]> (heap s1)) s1)).
  { apply inv_store; [done|done|done|]. intros. by simplify_eq. }
  apply wp_bind. eapply wp_store; [exact E1|]. set (s2 := set_heap _ _) in *.
  assert (Hf2 : frame fs s s2) by (eapply frame_trans; [exact Hf1|done]).
  assert (E2 : heap s2 !! p = Some d2) by apply lookup_insert_eq. clearbody s2.
  destruct (Z.eqb_spec (lenZ l) 0) as [H1|H1].
  { eapply wp_mono; [exact (update_fail_spec p d2 s2 Hs2 E2)|]. intros ok s' (-> & Hi & Hf).
    split; [done|]. split; [eauto with strace|]. right. destruct l; [done|]. rewrite lenZ_cons in H1. len_facts. lia. }
  split; [done|]. split; [done|]. exists d2. split; [done|]. split; [done|]. split; [done|].
  unfold pd_l. cbn [d2 id_count id_hierarchy]. destruct Hd1. rewrite !list_lookup_insert_eq by lia. done.
Qed.

Lemma get_or_create_spec pid s : inv s -> 0 < pid <= INT_MAX ->
  wp (get_or_create_proc_data pid) (fun p s' => inv s' /\ frame fs s s' /\
    ns_get_parent_enotty s' = ns_get_parent_enotty s /\
    (p = 0 /\ calloc_failed s' = true /\ calloc_pd (heap s) = None \/ p <> 0 /\ exists d, heap s' !! p = Some d /\ proc_pid d = pid)) s.
Proof.
  intros Hs Hp. assert (HI : INT_MAX < 2 ^ 64) by done. unfold get_or_create_proc_data.
  apply wp_bind. unfold wp at 1, get. destruct (Z.eqb_spec (trie_get (proc_data_cache s) pid) 0) as [H0|H0].
  2: { split; [done|]. split; [done|]. split; [done|]. right. split; [done|]. apply (i_cache s Hs); [lia|done]. }
  apply wp_bind. unfold wp at 1. destruct (calloc_pd (heap s)) as [p|] eqn:E.
  2: { split; [by destruct Hs; split|]. done || (split; [done|]; split; [done|]; by left). }
  destruct (calloc_fresh _ _ E) as [Hr Hf]. unfold wp, mbind, M_bind, modify. cbn.
  assert (H1 : inv (set_heap (<[p := zero_pd pid]> (heap s)) s))
    by (apply inv_store; [done|apply zero_pd_ok|done|by rewrite Hf]).
  set (s1 := set_heap _ _) in *.
  assert (E1 : heap s1 !! p = Some (zero_pd pid)) by apply lookup_insert_eq.
  change (proc_data_cache s1) with (proc_data_cache s).
  assert (H2 : inv (set_cache (fst (trie_set (proc_data_cache s1) pid p)) s1)) by (apply inv_cache_set; [done|done|lia|eauto]).
  split; [exact H2|]. split; [done|]. split; [done|]. right. split; [lia|]. by exists (zero_pd pid).
Qed.

(** One translation: the query and the state it starts in are fixed. *)
Section query.
Variables (ns id : Z) (ty : pid_type) (s0 : st).
Abbreviation E := (ns_get_parent_enotty s0).

Definition query (tip : translate_id_params) (s : st) : Prop :=
  inv s /\ frame fs s0 s /\ from_ns tip = ns /\ from_id tip = id /\ type tip = ty.

(** The process found is live, and /proc confirms a result. *)
Definition tip_ok (tip : translate_id_params) (s : st) : Prop :=
  (pd tip <> 0 \/ result_id tip <> 0 -> exists d, heap s !! pd tip = Some d) /\
  (result_id tip <> 0 -> pd tip <> 0 /\ exists d e, heap s !! pd tip = Some d /\
     finds fs e ns id ty (proc_pid d) = Some (result_id tip) /\ (no_enotty fs -> e = E)).

Definition good (tip : translate_id_params) (s : st) : Prop := query tip s /\ tip_ok tip s.

(** /proc shows no result at [pid]. *)
Definition misses (s : st) (pid : Z) : Prop :=
  no_enotty fs -> calloc_failed s = false -> default 0 (finds fs E ns id ty pid) = 0.

Lemma misses_frame s s' l : frame fs s s' -> Forall (misses s) l -> Forall (misses s') l.
Proof.
  intros (_ & _ & _ & _ & Hc & _) Hl. eapply list.Forall_impl; [exact Hl|]. intros pid Hp Hn Hs'. by apply Hp, Hc.
Qed.

Lemma tip_ok_none tip s : pd tip = 0 -> result_id tip = 0 -> tip_ok tip s.
Proof. intros. split; [intros [|]; done|done]. Qed.

(** From the cache. *)
Lemma translate_cached_spec tip s d :
  query tip s -> pd tip <> 0 -> heap s !! pd tip = Some d ->
  wp (translate_id_proc_pid fs tip 0) (fun tip' s' => s' = s /\ query tip' s /\
    (pd tip' = 0 /\ result_id tip' = 0 \/ pd tip' = pd tip)) s.
Proof.
  intros (Hs & Hf & Hq) Hp Ed. destruct (i_heap s Hs _ d Ed) as [Hd _]. unfold translate_id_proc_pid. cbn [Z.eqb].
  apply wp_bind. unfold wp at 1. cbn. rewrite (proj2 (Z.eqb_neq _ _) Hp).
  apply wp_bind. unfold wp at 1. cbn. apply wp_bind. eapply wp_load; [exact Ed|].
  destruct (pd_row d (type tip) Hd) as (n & row & En & Er & _). rewrite En.
  apply wp_bind. unfold wp at 1, lift. destruct ((ns_count d =? 0) || (n <? ns_count d)) eqn:G.
  { split; [done|]. split; [done|]. by left. }
  apply wp_bind. unfold wp at 1. rewrite Er. apply wp_bind. unfold wp at 1.
  rewrite (scan_locate d (type tip) n row) by done. destruct (locate _ _ _ _).
  - split; [done|]. split; [done|]. by right.
  - split; [done|]. split; [done|]. by left.
Qed.

(** From /proc. *)
Lemma translate_proc_spec tip s pid :
  query tip s -> 0 < pid <= INT_MAX ->
  wp (translate_id_proc_pid fs tip pid) (fun tip' s' =>
    good tip' s' /\ frame fs s s' /\ (result_id tip' = 0 -> misses s' pid)) s.
Proof.
  intros (Hs & Hf & Hq1 & Hq2 & Hq3) Hpid. unfold translate_id_proc_pid. replace (pid =? 0) with false by lia.
  eapply wp_seq; [by apply (get_or_create_spec pid s)|].
  intros p s1 (Hs1 & Hf1 & He1 & Hp).
  assert (Hf01 : frame fs s0 s1) by eauto with strace.
  destruct Hp as [(-> & Hm & _)|(Hp & d & Ed & <-)].
  { split; [split; [done|by apply tip_ok_none]|]. split; [done|]. intros _ _ ?. congruence. }
  rewrite (proj2 (Z.eqb_neq _ _) Hp). cbn [type set_result]. rewrite Hq3.
  eapply wp_seq; [by apply (update_proc_data_spec p d ty s1)|].
  intros [|] s2 (Hs2 & Hf2 & Hok); cbn [negb].
  2: { split; [split; [unfold query; eauto 10 with strace|by apply tip_ok_none]|].
       split; [eauto with strace|]. intros _ Hn _.
       assert (HE : ns_get_parent_enotty s1 = E) by (by apply Hf01). unfold finds. rewrite <- HE.
       destruct Hok as [->| ->]; by rewrite ?locate_no_ids. }
  destruct Hok as (d2 & Ed2 & Hpid2 & Hh & Hl). destruct (i_heap s2 Hs2 p d2 Ed2) as [Hd2 _].
  assert (Hf02 : frame fs s0 s2) by eauto with strace. assert (Hf' : frame fs s s2) by eauto with strace.
  apply wp_bind. eapply wp_load; [exact Ed2|].
  destruct (pd_row d2 ty Hd2) as (n & row & En & Er & _). rewrite En.
  assert (Hfind : finds fs (ns_get_parent_enotty s1) ns id ty (proc_pid d) = locate (pd_h d2) (pd_l d2 ty) ns id)
    by (unfold finds; by rewrite Hh, Hl).
  assert (Hmiss : locate (pd_h d2) (pd_l d2 ty) ns id = None -> misses s2 (proc_pid d)).
  { intros Hnone Hn _. assert (HE : ns_get_parent_enotty s1 = E) by (by apply Hf01). by rewrite <- HE, Hfind, Hnone. }
  apply wp_bind. unfold wp at 1, lift. destruct ((ns_count d2 =? 0) || (n <? ns_count d2)) eqn:G.
  { split; [split; [done|by apply tip_ok_none]|]. split; [done|]. intros _. apply Hmiss. unfold locate.
    by rewrite (locate_guard d2 ty n Hd2 En), G. }
  apply wp_bind. unfold wp at 1. rewrite Er. apply wp_bind. unfold wp at 1.
  cbn [from_ns from_id set_result]. rewrite (scan_locate d2 ty n row), Hq1, Hq2 by done.
  destruct (locate (pd_h d2) (pd_l d2 ty) ns id) as [r|].
  - split; [split; [done|]|split; [done|]].
    + split; [by exists d2|]. intros Hr. split; [done|]. exists d2, (ns_get_parent_enotty s1). rewrite Hpid2. split; [done|].
      split; [done|]. apply Hf01.
    + cbn. intros -> Hn _. assert (HE : ns_get_parent_enotty s1 = E) by (by apply Hf01). by rewrite <- HE, Hfind.
  - split; [split; [done|by apply tip_ok_none]|]. split; [done|]. intros _. by apply Hmiss.
Qed.

Lemma iterator_spec tip s val :
  good tip s -> (val <> 0 -> exists d, heap s !! val = Some d) ->
  wp (proc_data_cache_iterator_fn fs tip val) good s.
Proof.
  intros [Hq Hok] Hv. unfold proc_data_cache_iterator_fn. destruct (Z.eqb_spec val 0); [by split|].
  destruct (negb (result_id tip =? 0)); [by split|]. destruct (Hv n) as [d Ed].
  eapply wp_seq; [by apply (translate_cached_spec _ s d)|]. cbn [pd set_result].
  intros tip1 s1 (-> & Hq1 & Hp). destruct (Z.eqb_spec (result_id tip1) 0) as [H0|H0].
  - split; [done|]. split; [|done]. intros [Hpd|]; [|done]. destruct Hp as [[? _]| ->]; [done|by exists d].
  - apply wp_bind. eapply wp_load; [exact Ed|].
    eapply wp_mono; [apply translate_proc_spec; [done|]|by intros ?? [??]]. by apply (i_heap s (proj1 Hq1) val).
Qed.

Lemma visit_loop_spec keys tip s :
  Forall (fun kv => 0 <= kv.1 < 2 ^ 64) keys -> good tip s -> wp (visit_loop fs keys tip) good s.
Proof.
  intros Hk. revert tip s. induction Hk as [|[k v] keys Hk1 Hk IH]; intros tip s Hg; [done|]. cbn [visit_loop].
  apply wp_bind. unfold wp at 1, get. eapply wp_seq; [apply iterator_spec; [done|]|intros tip1 s1 H1; by apply IH].
  intros H0. destruct Hg as [[Hs _] _]. destruct (i_cache s Hs k Hk1 H0) as (d & ? & _). by exists d.
Qed.

Lemma iterate_cache_spec tip s : good tip s -> wp (iterate_cache fs tip) good s.
Proof.
  intros Hg. pose proof (proj1 (proj1 Hg)) as Hs. destruct (i_cache_trie s Hs) as [W Hk _ _ Hb].
  pose proof (i_max s Hs). pose proof (i_size s Hs). unfold INT_MAX in *.
  assert (Hp : 0 < 2 ^ key_size (proc_data_cache s)) by (apply pow2_pos; lia).
  unfold iterate_cache. apply wp_bind. unfold wp at 1, get. apply wp_bind. unfold wp at 1.
  rewrite uint_small by (unfold in_uint; lia).
  destruct (iterate_keys_spec (proc_data_cache s) 17 0 (pid_max s - 1) W) as (l & -> & Hl & _);
    [by rewrite Hb|lia|lia|].
  apply wp_bind. unfold wp at 1, lift. apply visit_loop_spec; [|done]. cbn [fst]. rewrite Hl.
  apply list.Forall_forall. intros [k v] (k' & Hk' & Ek)%list_elem_of_omap. apply range_elem in Hk'.
  destruct (trie_get_node _ k'); [|done]. injection Ek as <- <-. cbn. lia.
Qed.

(** The pids a directory lists, those of the sub-directory of an entry before
    the entry. *)
Definition entry_pid (e : dirent) : option Z :=
  if negb (d_dir e) then None
  else let '(pid, errno) := strtol (d_name e) in
       if (pid <? 1) || (INT_MAX <? pid) || errno then None else Some pid.
Definition listed (sub : Z -> list Z) (entries : list dirent) : list Z :=
  flat_map (fun e => match entry_pid e with Some pid => sub pid ++ [pid] | None => [] end) entries.
Definition task_pids (pid : Z) : list Z := match task_dir fs pid with Some l => listed (fun _ => []) l | None => [] end.
Definition proc_pids : list Z := match proc_dir fs with Some l => listed task_pids l | None => [] end.

Lemma dir_loop_spec sub subl entries tip s :
  (forall tip s pid, good tip s -> wp (sub tip pid) (fun tip' s' => good tip' s' /\ frame fs s s' /\
     (result_id tip' = 0 -> Forall (misses s') (subl pid))) s) ->
  good tip s ->
  wp (dir_loop fs sub entries tip) (fun tip' s' => good tip' s' /\ frame fs s s' /\
    (result_id tip' = 0 -> Forall (misses s') (listed subl entries))) s.
Proof.
  intros Hsub. revert tip s. induction entries as [|e entries IH]; intros tip s Hg; cbn [dir_loop].
  { destruct (negb _); (split; [done|]); (split; [done|]); intros; constructor. }
  destruct (Z.eqb_spec (result_id tip) 0) as [H0|H0]; cbn [negb]; [|by split].
  cbn [listed flat_map]. fold (listed subl entries). unfold entry_pid.
  destruct (d_dir e); cbn [negb]; [|by apply IH]. destruct (strtol (d_name e)) as [pid errno].
  destruct (Z.ltb_spec pid 1) as [?|Hlo]; [by apply IH|]. destruct (Z.ltb_spec INT_MAX pid) as [?|Hhi]; [by apply IH|].
  destruct errno; [by apply IH|]. cbn [orb]. eapply wp_seq; [by apply (Hsub tip s pid)|].
  intros tip1 s1 (Hg1 & Hf1 & Hm1). destruct (Z.eqb_spec (result_id tip1) 0) as [H1|H1]; cbn [negb]; [|by split].
  eapply wp_seq; [apply (translate_proc_spec tip1 s1 pid); [apply Hg1|lia]|].
  intros tip2 s2 (Hg2 & Hf2 & Hm2). destruct (decide (result_id tip2 = 0)) as [E2|E2].
  - eapply wp_mono; [by apply IH|]. intros tip3 s3 (Hg3 & Hf3 & Hm3). split; [done|]. split; [eauto with strace|]. intros Hr.
    apply list.Forall_app. split; [|by apply Hm3]. apply (misses_frame s2); [done|]. apply list.Forall_app.
    split; [by apply (misses_frame s1), Hm1|]. constructor; [by apply Hm2|constructor].
  - destruct entries; cbn [dir_loop]; rewrite (proj2 (Z.eqb_neq _ _) E2); (split; [done|]; split; [eauto with strace|done]).
Qed.

Lemma translate_id_dir_spec tip s : good tip s ->
  wp (translate_id_dir fs tip) (fun tip' s' => good tip' s' /\ (result_id tip' = 0 -> Forall (misses s') proc_pids)) s.
Proof.
  intros Hg. unfold translate_id_dir, proc_pids. destruct (proc_dir fs) as [l|]; [|split; [done|]; intros; constructor].
  eapply wp_mono; [apply (dir_loop_spec _ task_pids); [|done]|by intros tip' s' (? & _ & ?)].
  clear dependent tip s. intros tip s pid Hg. unfold translate_task_dir, task_pids.
  destruct (task_dir fs pid) as [l'|]; [|split; [done|]; split; [done|]; intros; constructor].
  apply dir_loop_spec; [|done]. intros tip' s' _ Hg'. split; [done|]. split; [done|]. intros; constructor.
Qed.

End query.
(** ** The cache of the entries where ids were found *)

Lemma get_cached_spec ns id ty s : inv s -> 0 <= ns < 2 ^ 32 -> 0 < id <= INT_MAX ->
  wp (get_cached_proc_pid ns id ty) (fun v s' => s' = s /\ 0 <= v <= INT_MAX) s.
Proof.
  intros Hs Hns Hid. apply wp_bind. unfold wp at 1. cbn. assert (HI : INT_MAX < 2 ^ 64) by done.
  destruct (Z.eqb_spec (trie_get (ns_pid_to_proc_pid s ty) ns) 0) as [H0|H0]; [split; [done|lia]|].
  destruct (i_inner s Hs ty ns ltac:(lia) H0) as [t Et]. apply wp_bind. eapply wp_load_trie; [exact Et|].
  destruct (i_tries s Hs _ t Et) as [_ Hr]. specialize (Hr id ltac:(lia)). split; [done|].
  unfold INT_MAX in *. by rewrite sint_small by lia.
Qed.

Lemma inner_ok_set t k v : inner_ok t -> 0 <= k < 2 ^ 64 -> 0 <= v <= INT_MAX -> inner_ok (fst (trie_set t k v)).
Proof.
  intros [W Hr] Hk Hv. split; [by apply trie_set_wf|]. intros k' Hk'. rewrite trie_get_set by done.
  destruct ((k <? 2 ^ key_size t) && (k =? k')); [|by apply Hr].
  assert (0 < 2 ^ item_bits t) by (apply pow2_pos; unfold item_bits; apply Z.pow_nonneg; lia).
  pose proof (Z.mod_le v (2 ^ item_bits t)). pose proof (Z.mod_pos_bound v (2 ^ item_bits t)). lia.
Qed.

Lemma inner_ok_create size lg : 4 <= size <= 32 -> 0 <= lg <= 6 -> exists t, create_trie_4 size lg 0 = Some t /\ inner_ok t.
Proof.
  intros Hs Hl. destruct (create_trie_4_empty size lg) as (t & E & W & _ & _ & _ & _ & H0); [lia|done|].
  exists t. split; [done|]. split; [done|]. intros k _. rewrite H0. done.
Qed.

Lemma inv_new_trie ty ns b t s : inv s -> 0 <= ns < 2 ^ 64 -> 0 < b < 2 ^ 64 -> inner_ok t ->
  inv (set_ns_tries (fun ty' => if decide (ty' = ty) then fst (trie_set (ns_pid_to_proc_pid s ty) ns b)
                                else ns_pid_to_proc_pid s ty') (set_tries (<[b := t]> (tries s)) s)).
Proof.
  intros [] Hns Hb Ht. split; try done; cbn [ns_pid_to_proc_pid set_ns_tries tries set_tries].
  - intros ty'. destruct (decide (ty' = ty)); [by apply ptr_trie_set|done].
  - intros ty' ns' Hns' H0. destruct (decide (ty' = ty)) as [->|].
    + rewrite (ptr_trie_get_set ns_id_size) in * by (done || lia). destruct (_ && _).
      * exists t. apply lookup_insert_eq.
      * destruct (i_inner0 ty ns' Hns' H0) as [t' Et]. rewrite lookup_insert. case_decide; eauto.
    + destruct (i_inner0 ty' ns' Hns' H0) as [t' Et]. rewrite lookup_insert. case_decide; eauto.
  - intros b' t' [[<- <-]|[_ Hq]]%lookup_insert_Some; [done|]. by eapply i_tries0.
Qed.

Lemma inv_set_trie b t k v s : inv s -> tries s !! b = Some t -> 0 <= k < 2 ^ 64 -> 0 <= v <= INT_MAX ->
  inv (set_tries (<[b := fst (trie_set t k v)]> (tries s)) s).
Proof.
  intros [] Et Hk Hv. split; try done; cbn [ns_pid_to_proc_pid tries set_tries].
  - intros ty ns Hns H0. destruct (i_inner0 ty ns Hns H0) as [t' Et']. rewrite lookup_insert. case_decide; eauto.
  - intros b' t' [[<- <-]|[_ Hq]]%lookup_insert_Some; [apply inner_ok_set; [by eapply i_tries0|done|done]|]. by eapply i_tries0.
Qed.

Lemma put_proc_pid_spec ns id ty pid s : inv s -> 0 <= ns < 2 ^ 32 -> 0 < id <= INT_MAX -> 0 < pid <= INT_MAX ->
  wp (put_proc_pid ns id ty pid) (fun _ s' => inv s' /\ frame fs s s' /\ heap s' = heap s) s.
Proof.
  intros Hs Hns Hid Hpid. assert (HI : INT_MAX < 2 ^ 64) by done. apply wp_bind. unfold wp at 1. cbn.
  assert (Hset : forall b t s1, inv s1 -> frame fs s s1 -> heap s1 = heap s -> tries s1 !! b = Some t ->
    wp (t ← load_trie b; modify (fun s => set_tries (<[b := fst (trie_set t id pid)]> (tries s)) s))
      (fun _ s' => inv s' /\ frame fs s s' /\ heap s' = heap s) s1).
  { intros b t s1 Hs1 Hf Hh Et. apply wp_bind. eapply wp_load_trie; [exact Et|].
    split; [apply inv_set_trie; done || lia|done]. }
  destruct (Z.eqb_spec (trie_get (ns_pid_to_proc_pid s ty) ns) 0) as [H0|H0].
  - destruct (inner_ok_create (pid_max_size s) (pid_max_size_lg s) (i_size s Hs) (i_lg s Hs)) as (t & Et & Ht).
    do 2 apply wp_bind. unfold wp at 1. cbn. rewrite Et.
    destruct (malloc_trie (tries s)) as [b|] eqn:Em; [|by exists (tries s)].
    destruct (malloc_fresh _ _ Em) as [Hb _].
    pose proof (inv_new_trie ty ns _ t s Hs ltac:(lia) Hb Ht) as H1.
    apply (Hset b t _ H1); [done|done|apply lookup_insert_eq].
  - destruct (i_inner s Hs ty ns ltac:(lia) H0) as [t Et]. apply wp_bind. by apply (Hset _ t).
Qed.

(** What a translation that reads /proc promises: a result other than 0 is what
    /proc shows at the entry returned with it, and 0 is only the result if no
    entry listed there has one. *)
Definition promised (s s' : st) (ns id : Z) (ty : pid_type) (r : Z) (p : option Z) : Prop :=
  (r <> 0 -> exists pid e, p = Some pid /\ 0 < pid <= INT_MAX /\ finds fs e ns id ty pid = Some r /\
     (no_enotty fs -> e = ns_get_parent_enotty s)) /\
  (r = 0 -> Forall (misses ns id ty s s') proc_pids).

Lemma translate_nontrivial_spec ns id ty s : inv s -> 0 <= ns < 2 ^ 32 -> 0 < id <= INT_MAX ->
  wp (translate_nontrivial fs ns id ty) (fun rp s' => inv s' /\ frame fs s s' /\ promised s s' ns id ty rp.1 rp.2) s.
Proof.
  intros Hs Hns Hid. unfold translate_nontrivial. eapply wp_seq; [by apply get_cached_spec|].
  intros v s1 [-> Hv]. set (tip0 := mk_tip ns id ty 0 0).
  assert (Hg : good ns id ty s tip0 s) by (split; [done|by apply tip_ok_none]).
  eapply (wp_seq _ _ (good ns id ty s)).
  { destruct (Z.eqb_spec v 0); [done|]. eapply wp_mono; [apply (translate_proc_spec ns id ty s); [apply Hg|lia]|by intros ?? [? _]]. }
  clearbody tip0. clear Hg. intros tip s1 Hg.
  eapply (wp_seq _ _ (fun tip s' => good ns id ty s tip s' /\ (result_id tip = 0 -> Forall (misses ns id ty s s') proc_pids))).
  { destruct (Z.eqb_spec (result_id tip) 0) as [H0|H0]; cbn [negb]; [|by split].
    eapply wp_seq; [by apply (iterate_cache_spec ns id ty s)|]. intros tip2 s2 Hg2.
    destruct (Z.eqb_spec (result_id tip2) 0) as [H2|H2]; cbn [negb]; [|by split]. by apply translate_id_dir_spec. }
  clear tip s1 Hg. intros tip s1 [[(Hs1 & Hf1 & _) [Hlive Hres]] Hmiss].
  destruct (Z.eqb_spec (pd tip) 0) as [Hp|Hp].
  { split; [done|]. split; [done|]. split; [|done]. cbn. intros Hr. by destruct (Hres Hr). }
  destruct (Hlive ltac:(by left)) as [d Ed]. destruct (i_heap s1 Hs1 _ d Ed) as [_ Hpid].
  apply wp_bind. eapply wp_load; [exact Ed|]. replace (proc_pid d =? 0) with false by lia.
  eapply wp_seq; [by apply put_proc_pid_spec|]. intros _ s2 (Hs2 & Hf2 & _). split; [done|]. split; [eauto with strace|].
  split; [|intros Hr; by eapply misses_frame, Hmiss]. cbn. intros Hr. destruct (Hres Hr) as (_ & d' & e & Ed' & Hfind & He). simplify_eq.
  exists (proc_pid d), e. done.
Qed.

(** ** The namespaces of the tracer and of a tracee *)

Definition kept (s s' : st) : Prop :=
  (no_enotty fs -> ns_get_parent_enotty s' = ns_get_parent_enotty s) /\
  (0 <= proc_ours s -> proc_ours s' = proc_ours s) /\
  (calloc_failed s' = false -> calloc_failed s = false).

(** The namespace an id is translated from. *)
Definition source_ns (tcp : option Z) (s : st) : Z :=
  match tcp with None => our_ns s | Some t => default 0 (pid_ns s !! t) end.

Lemma ns_loop_range room fd e : Forall (in_uint 32) (fst (ns_loop fs room fd e)).
Proof.
  revert fd e. induction room as [|room IH]; intros fd e; cbn [ns_loop]; [constructor|].
  destruct (fd_ino fs fd) as [ino|]; [|constructor]. pose proof (uint_range 32 ino ltac:(lia)) as Hu.
  destruct (room =? 0)%nat, e; try (by constructor).
  destruct (ns_parent fs fd) as [fd'| | |]; try (by constructor).
  specialize (IH fd' false). destruct (ns_loop fs room fd' false). by constructor.
Qed.

Lemma ns_hierarchy_m_spec pid n s : inv s ->
  wp (ns_hierarchy_m fs pid n) (fun l s' => inv s' /\ kept s s' /\ Forall (in_uint 32) l /\
    proc_ours s' = proc_ours s /\ our_ns s' = our_ns s /\ pid_ns s' = pid_ns s) s.
Proof.
  intros Hs. unfold wp, ns_hierarchy_m.
  pose proof (get_ns_hierarchy_enotty fs pid n (ns_get_parent_enotty s)) as He.
  assert (Hr : Forall (in_uint 32) (fst (get_ns_hierarchy fs pid n (ns_get_parent_enotty s)))).
  { unfold get_ns_hierarchy. destruct (open_ns fs pid); [apply ns_loop_range|constructor]. }
  destruct (get_ns_hierarchy fs pid n (ns_get_parent_enotty s)) as [l e]. split; [by apply inv_enotty|done].
Qed.

Lemma get_our_ns_spec s : inv s ->
  wp (get_our_ns fs) (fun v s' => inv s' /\ kept s s' /\ v = our_ns s' /\ pid_ns s' = pid_ns s) s.
Proof.
  intros Hs. unfold get_our_ns. apply wp_bind. unfold wp at 1, get. destruct (our_ns_initialised s); [done|].
  eapply wp_seq; [by apply ns_hierarchy_m_spec|]. intros l s1 (Hs1 & Hk & Hl & _ & _ & Hp).
  unfold wp, mbind, M_bind, modify. cbn. split; [|done]. destruct Hs1. split; try done. cbn.
  destruct Hl; [done|exact H].
Qed.

Lemma is_proc_ours_spec s : inv s ->
  wp (is_proc_ours fs) (fun b s' => inv s' /\ kept s s' /\ our_ns s' = our_ns s /\ pid_ns s' = pid_ns s /\
    b = negb (proc_ours s' =? 0) /\ 0 <= proc_ours s') s.
Proof.
  intros Hs. unfold is_proc_ours. apply wp_bind. unfold wp at 1, get. destruct (Z.ltb_spec (proc_ours s) 0).
  - destruct (fst (get_id_list fs 0 None PT_TID) <=? 1); (split; [destruct Hs; by split|]); cbn;
      (split; [split; [done|split; [cbn; lia|done]]|done]).
  - done.
Qed.

(** No lookup is needed: the namespaces are the same, and the entry of /proc, if
    it is asked for, has the same number. *)
Definition trivially (tcp : option Z) (s' : st) (id r : Z) (want : bool) (p : option Z) : Prop :=
  r = id /\ source_ns tcp s' = our_ns s' /\ (want = true -> proc_ours s' <> 0) /\ p = (if want then Some id else None).

(** /proc confirms the result. *)
Definition confirmed (tcp : option Z) (s s' : st) (id : Z) (ty : pid_type) (r : Z) (want : bool) (p : option Z) : Prop :=
  exists pid e, p = (if want then Some pid else None) /\ 0 < pid <= INT_MAX /\
    finds fs e (source_ns tcp s') id ty pid = Some r /\ (no_enotty fs -> e = ns_get_parent_enotty s).

(** Why there is no result. *)
Definition refuted (tcp : option Z) (s s' : st) (id : Z) (ty : option pid_type) : Prop :=
  id <= 0 \/ ty = None \/ source_ns tcp s' = 0 \/ ns_get_parent_enotty s = true \/
  exists t, ty = Some t /\ forall pid, pid ∈ proc_pids -> default 0 (finds fs false (source_ns tcp s') id t pid) = 0.

Definition translates (tcp : option Z) (s s' : st) (id : Z) (ty : option pid_type) (want : bool) (r : Z) (p : option Z) : Prop :=
  (r <> 0 -> trivially tcp s' id r want p \/ exists t, ty = Some t /\ confirmed tcp s s' id t r want p) /\
  (r = 0 -> no_enotty fs -> calloc_failed s' = false -> refuted tcp s s' id ty).

Lemma kept_trans s1 s2 s3 : kept s1 s2 -> kept s2 s3 -> kept s1 s3.
Proof. 
  intros (H1 & H2 & H5) (H3 & H4 & H6). split; [intros H; by rewrite H3, H1|]. split; [|auto].
  intros H. specialize (H2 H). rewrite H4; lia.
Qed.
Lemma frame_kept s s' : frame fs s s' -> kept s s'.
Proof. by intros (Ho & _ & _ & _ & Hc & H). Qed.
Local Hint Resolve kept_trans frame_kept : strace.

(** [g] is what [get_ns] does for the tracee. *)
Definition gives_ns (tcp : option Z) (tcp_ns : option (M Z)) : Prop :=
  match tcp, tcp_ns with
  | None, None => True
  | Some t, Some g => forall s, inv s -> wp g (fun v s' => inv s' /\ kept s s' /\ v = source_ns tcp s') s
  | _, _ => False
  end.

Lemma same_ns_spec tcp tcp_ns s : inv s -> gives_ns tcp tcp_ns ->
  wp (match tcp_ns with None => mret true | Some g => a ← g; b ← get_our_ns fs; mret (a =? b) end)
    (fun b s' => inv s' /\ kept s s' /\ (b = true -> source_ns tcp s' = our_ns s')) s.
Proof.
  intros Hs Hg. destruct tcp_ns as [g|], tcp as [t|]; try done.
  eapply wp_seq; [by apply Hg|]. intros a s1 (Hs1 & Hk1 & ->). eapply wp_seq; [by apply get_our_ns_spec|].
  intros b s2 (Hs2 & Hk2 & -> & Hp). split; [done|]. split; [by eapply kept_trans|].
  intros E%Z.eqb_eq. cbn in *. by rewrite Hp.
Qed.

Lemma from_ns_spec tcp tcp_ns s : inv s -> gives_ns tcp tcp_ns ->
  wp (match tcp_ns with None => get_our_ns fs | Some g => g end)
    (fun v s' => inv s' /\ kept s s' /\ v = source_ns tcp s') s.
Proof.
  intros Hs Hg. destruct tcp_ns as [g|], tcp as [t|]; try done; [by apply Hg|].
  eapply wp_mono; [by apply get_our_ns_spec|]. intros a s' (?&?&?&?). done.
Qed.

Lemma source_ns_range tcp s : inv s -> 0 <= source_ns tcp s < 2 ^ 32.
Proof. intros []. destruct tcp; [apply i_tcb0|done]. Qed.

Lemma translate_with_spec tcp tcp_ns id ty want s : inv s -> gives_ns tcp tcp_ns -> id <= INT_MAX ->
  wp (translate_with fs tcp_ns id ty want)
    (fun rp s' => inv s' /\ kept s s' /\ translates tcp s s' id ty want rp.1 rp.2) s.
Proof.
  intros Hs Hg Hid. unfold translate_with. destruct ty as [ty|].
  2: { split; [done|]. split; [done|]. split; [done|]. intros. unfold refuted. auto. }
  destruct (Z.leb_spec id 0).
  { split; [done|]. split; [done|]. split; [done|]. intros. by left. }
  eapply wp_seq; [by apply same_ns_spec|]. intros same s1 (Hs1 & Hk1 & Hsame).
  eapply (wp_seq _ _ (fun b s' => inv s' /\ kept s s' /\
    (b = true -> source_ns tcp s' = our_ns s' /\ (want = true -> proc_ours s' <> 0)))).
  { destruct same; [|done]. destruct want; [|split; [done|]; split; [done|]; intros _; split; [by apply Hsame|done]].
    eapply wp_mono; [by apply is_proc_ours_spec|]. intros b s2 (Hs2 & Hk2 & Ho & Hp & -> & _). split; [done|].
    split; [by eapply kept_trans|]. intros Et%negb_true_iff%Z.eqb_neq. split; [|done].
    specialize (Hsame eq_refl). destruct tcp; cbn in *; [by rewrite Ho, Hp|done]. }
  clear s1 Hs1 Hk1 Hsame. intros [|] s1 (Hs1 & Hk1 & Ht).
  { split; [done|]. split; [done|]. split; [|cbn; intros; lia]. intros _. left. destruct (Ht eq_refl). done. }
  clear Ht. eapply wp_seq; [by apply from_ns_spec|]. intros ns s2 (Hs2 & Hk2 & ->).
  assert (Hk02 : kept s s2) by (by eapply kept_trans). clear s1 Hs1 Hk1 Hk2.
  pose proof (source_ns_range tcp s2 Hs2) as Hr. destruct (Z.eqb_spec (source_ns tcp s2) 0) as [H0|H0].
  { split; [done|]. split; [done|]. split; [done|]. intros. unfold refuted. auto. }
  apply wp_bind. unfold wp at 1, get. destruct (ns_get_parent_enotty s2) eqn:Ee.
  { split; [done|]. split; [done|]. split; [done|]. intros _ Hn _. unfold refuted. rewrite <- (proj1 Hk02 Hn). auto. }
  eapply wp_seq; [apply translate_nontrivial_spec; [done|done|lia]|].
  intros [r p] s3 (Hs3 & Hf & Hyes & Hno). cbn [fst snd] in *.
  assert (Hsrc : source_ns tcp s3 = source_ns tcp s2).
  { destruct Hf as (_ & Ho & _ & Hp & _). destruct tcp; cbn; [by rewrite Hp|done]. }
  split; [done|]. split; [eauto with strace|]. cbn. split.
  - intros Hr0. right. exists ty. split; [done|]. destruct (Hyes Hr0) as (pid & e & -> & Hp & Hfind & He).
    exists pid, e. rewrite Hsrc. split; [by destruct want|]. split; [done|]. split; [done|].
    intros Hn. rewrite (He Hn). by apply Hk02.
  - intros Hr0 Hn Hm. do 4 right. exists ty. split; [done|]. intros pid Hpid. rewrite Hsrc.
    specialize (Hno Hr0). rewrite list.Forall_forall in Hno. specialize (Hno pid Hpid Hn Hm). by rewrite Ee in Hno.
Qed.

Lemma get_proc_pid_spec pid s : inv s -> pid <= INT_MAX ->
  wp (get_proc_pid fs pid) (fun _ s' => inv s' /\ kept s s') s.
Proof.
  intros Hs Hp. unfold get_proc_pid. eapply wp_seq; [by apply (translate_with_spec None)|].
  intros [r p] s' (? & ? & _). done.
Qed.

Lemma get_ns_spec t s : inv s -> t <= INT_MAX ->
  wp (get_ns fs t) (fun v s' => inv s' /\ kept s s' /\ v = source_ns (Some t) s') s.
Proof.
  intros Hs Ht. unfold get_ns. apply wp_bind. unfold wp at 1, get.
  destruct (Z.eqb_spec (default 0 (pid_ns s !! t)) 0); [|done].
  eapply wp_seq; [by apply get_proc_pid_spec|]. intros p s1 [Hs1 Hk1].
  eapply (wp_seq _ _ (fun _ s' => inv s' /\ kept s s')).
  { destruct (p =? 0); [done|]. eapply wp_seq; [by apply ns_hierarchy_m_spec|].
    intros l s2 (Hs2 & Hk2 & Hl & _). assert (kept s s2) by (by eapply kept_trans). destruct Hl as [|x l Hx _]; [done|].
    split; [|done]. destruct Hs2. split; try done. cbn. intros t'. rewrite lookup_insert. by case_decide. }
  intros _ s2 [Hs2 Hk2]. done.
Qed.

Lemma translate_pid_spec tcp id ty want s : inv s -> id <= INT_MAX -> (forall t, tcp = Some t -> t <= INT_MAX) ->
  wp (translate_pid fs tcp id ty want) (fun rp s' => inv s' /\ kept s s' /\ translates tcp s s' id ty want rp.1 rp.2) s.
Proof.
  intros Hs Hid Ht. apply translate_with_spec; [done| |done]. destruct tcp as [t|]; [|done]. cbn.
  intros s' Hs'. apply get_ns_spec; [done|by apply Ht].
Qed.
(** ** Pids in the namespace of the tracer *)

Lemma id_list_range pid ty : Forall (fun i => 0 <= i <= INT_MAX) (id_list fs pid ty).
Proof.
  unfold id_list. destruct (status_lines fs pid); [|constructor]. destruct (find_line _ _); [|constructor].
  apply ids_from_range.
Qed.

(** The result is [pid] when /proc is that of our namespace; otherwise it is the
    id of the process at the depth of our namespace, and it has been translated
    back to [pid]. *)
Lemma get_strace_pid_spec pid s : inv s -> pid <= INT_MAX ->
  wp (get_strace_pid fs pid) (fun r s' => inv s' /\ kept s s' /\
    (r <> 0 -> 0 < pid /\ ((proc_ours s' <> 0 /\ r = pid) \/
       (r = nthZ (id_list fs pid PT_TID) (lenZ (id_list fs 0 PT_TID) - 1) /\
        exists s1, inv s1 /\ get_proc_pid fs r s1 = Val pid s')))) s.
Proof.
  intros Hs Hp. unfold get_strace_pid. destruct (Z.leb_spec pid 0); [done|].
  eapply wp_seq; [by apply is_proc_ours_spec|]. intros b s1 (Hs1 & Hk1 & _ & _ & -> & Hnn).
  destruct (Z.eqb_spec (proc_ours s1) 0) as [H0|H0]; cbn [negb].
  2: { split; [done|]. split; [done|]. intros _. split; [lia|]. by left. }
  rewrite get_id_list_count. pose proof (lenZ_nonneg (id_list fs 0 PT_TID)) as Ho.
  set (ours := lenZ (id_list fs 0 PT_TID)) in *.
  destruct (Z.eqb_spec ours 0), (Z.ltb_spec MAX_NS_DEPTH ours); try done. cbn [orb].
  rewrite (get_id_list_spec fs pid (replicate 32 0) PT_TID Hdepth) by done. cbn [from_option id].
  pose proof (id_list_range pid PT_TID) as HF. set (l := id_list fs pid PT_TID) in *.
  destruct (Z.ltb_spec (lenZ l) ours), (Z.ltb_spec MAX_NS_DEPTH (lenZ l)); try done. cbn [orb].
  destruct (write_front_ok l (replicate 32 0)) as [Hw _]; [done|done|].
  apply wp_bind. unfold wp at 1, lift. rewrite cell_nthZ by lia. unfold write_front. rewrite nthZ_app_l by lia.
  set (sp := nthZ l (ours - 1)). assert (Hsp : sp <= INT_MAX).
  { apply (list.Forall_lookup_1 _ l (Z.to_nat (ours - 1)) sp HF). apply nthZ_lookup. lia. }
  pose proof (get_proc_pid_spec sp s1 Hs1 Hsp) as Hg. unfold wp, mbind, M_bind in *.
  destruct (get_proc_pid fs sp s1) as [p s2| |] eqn:Eg; [|done|done]. destruct Hg as [Hs2 Hk2]. cbn.
  split; [done|]. split; [by eapply kept_trans|]. destruct (Z.eqb_spec p pid) as [->|]; [|done].
  intros _. split; [lia|]. right. split; [done|]. by exists s1.
Qed.

Variable decode_pid_set : option number_set.

Lemma printpid_translation_spec tcp pid ty s :
  inv s -> pid <= INT_MAX -> (forall t, tcp = Some t -> t <= INT_MAX) ->
  wp (printpid_translation fs decode_pid_set tcp pid ty) (fun _ s' => inv s' /\ kept s s') s.
Proof.
  intros Hs Hp Ht. unfold printpid_translation. destruct (_ || _); [|done].
  eapply wp_seq; [by apply translate_pid_spec|]. intros [r p] s1 (Hs1 & Hk1 & Hyes & _). cbn [fst snd] in *.
  destruct (Z.eqb_spec r 0) as [H0|H0]; [done|]. eapply (wp_seq _ _ (fun _ s' => inv s' /\ kept s s')); [|done].
  destruct (_ && _); [|done]. eapply wp_seq.
  - apply (get_proc_pid_spec r s1); [done|]. destruct (Hyes H0) as [(-> & _)|(t & _ & pid' & e & _ & _ & Hf & _)]; [done|].
    unfold finds, locate in Hf. destruct (_ || _); [done|]. destruct (ns_index _ _) as [i|]; [|done]. cbn in Hf.
    destruct (_ =? pid); [|done]. injection Hf as <-. unfold nthZ.
    destruct (nth_in_or_default (Z.to_nat (lenZ (id_list fs pid' t) - lenZ (hierarchy fs e pid'))) (id_list fs pid' t) 0) as [Hi| ->]; [|done].
    apply (proj1 (List.Forall_forall _ _) (id_list_range pid' t)) in Hi. apply Hi.
  - intros q s2 [Hs2 Hk2]. split; [done|]. by eapply kept_trans.
Qed.

End translation.

(** ** The lines of /proc/PID/status *)

(** The ids as the kernel prints them. *)
Fixpoint ids_text (ids : list Z) : string :=
  match ids with
  | [] => EmptyString
  | [x] => pretty x +:+ String (ascii_of_nat 10) EmptyString
  | x :: rest => pretty x +:+ String TAB (ids_text rest)
  end.

Lemma pretty_no_tab x r : 0 <= x -> strsep_tab (pretty x +:+ r) = strsep_tab r.
Proof.
  intros Hx. destruct x as [|p|p]; [done| |lia].
  change (pretty (Z.pos p)) with (pretty (N.pos p)). unfold pretty, pretty_N. rewrite decide_False by done.
  rewrite <- pretty_go_app. change (EmptyString +:+ r) with r. generalize (N.pos p) as n. clear. intros n. revert r.
  induction (N.lt_wf_0 n) as [n _ IH]; intros r. destruct (decide (n = 0)%N) as [->|Hn]; [done|].
  rewrite pretty_N_go_step, IH by (lia || apply N.div_lt; lia). cbn [strsep_tab].
  destruct (pretty_N_char_digit (n mod 10)) as [Hd _]; [apply N.mod_lt; lia|].
  destruct (Ascii.eqb_spec (pretty_N_char (n mod 10)) TAB) as [E|]; [|done]. by rewrite E in Hd.
Qed.

Lemma ids_from_text ids fuel : ids <> [] -> (length ids <= fuel)%nat -> Forall (fun x => 0 <= x <= INT_MAX) ids ->
  ids_from fuel (Some (ids_text ids)) = ids.
Proof.
  revert fuel. induction ids as [|x ids IH]; intros fuel Hne Hf HF; [done|]. inversion HF as [|?? Hx HF']; subst.
  destruct fuel as [|fuel]; [simpl in Hf; lia|]. cbn [ids_from]. unfold strtol.
  assert (Hx' : 0 <= x <= LLONG_MAX) by (unfold INT_MAX, LLONG_MAX in *; lia).
  assert (Hrest : exists r, ids_text (x :: ids) = pretty x +:+ r /\ ends_number r = true /\
    strsep_tab r = match ids with [] => None | _ => Some (ids_text ids) end).
  { destruct ids as [|y ids]; [by exists (String (ascii_of_nat 10) EmptyString)|].
    by exists (String TAB (ids_text (y :: ids))). }
  destruct Hrest as (r & -> & Hr & Hs). rewrite strtoll_pretty, pretty_no_tab, Hs by (done || lia).
  rewrite (proj2 (Z.ltb_ge x 0)), (proj2 (Z.ltb_ge INT_MAX x)) by lia. cbn [orb]. f_equal.
  destruct ids as [|y ids]; [by destruct fuel|]. apply IH; [done|simpl in *; lia|done].
Qed.

Lemma ids_text_length ids : (length ids <= String.length (ids_text ids))%nat.
Proof.
  assert (Hp : forall s r, String.length (s +:+ r) = (String.length s + String.length r)%nat)
    by (intros s r; induction s as [|c s IH]; [done|]; exact (f_equal S IH)).
  induction ids as [|x [|y ids] IH]; [done|..]; cbn [ids_text length] in *; rewrite Hp; cbn [String.length]; lia.
Qed.

Lemma id_list_text fs pid ty before ids after :
  status_lines fs pid = Some (before ++ (id_strs ty +:+ ids_text ids) :: after) ->
  Forall (fun l => strip_prefix (id_strs ty) l = None) before ->
  ids <> [] -> Forall (fun x => 0 <= x <= INT_MAX) ids -> id_list fs pid ty = ids.
Proof.
  intros Hl Hb Hne HF. unfold id_list. rewrite Hl.
  assert (Hfind : find_line (id_strs ty) (before ++ (id_strs ty +:+ ids_text ids) :: after) = Some (ids_text ids)).
  { clear Hl. induction Hb as [|l before Hl Hb IH]; cbn [app find_line]; [by rewrite strip_prefix_app|]. by rewrite Hl. }
  rewrite Hfind. apply ids_from_text; [done| |done]. pose proof (ids_text_length ids). lia.
Qed.

(** Reading back a line of /proc/PID/status that lists ids as the kernel prints
    them, wherever the line is in the file, [get_id_list] returns the number
    of the ids and stores them from the front of the buffer as far as it has
    room, leaving the rest of it alone; the number returned is not limited by the
    size of the buffer. *)
Theorem status_ids_roundtrip (fs : procfs) (pid : Z) (ty : pid_type) (before after : list string) (ids buf : list Z) :
  status_lines fs pid = Some (before ++ (id_strs ty +:+ ids_text ids) :: after) ->
  Forall (fun l => strip_prefix (id_strs ty) l = None) before ->
  ids <> [] -> Forall (fun x => 0 <= x <= INT_MAX) ids -> lenZ buf = MAX_NS_DEPTH ->
  get_id_list fs pid (Some buf) ty =
    (lenZ ids, Some (take (Z.to_nat MAX_NS_DEPTH) ids ++ drop (length ids) buf)).
Proof. intros. rewrite get_id_list_row by done. by erewrite id_list_text. Qed.

(** ** Histories *)

Inductive call :=
  | CTranslate (tcp : option Z) (from_id : Z) (type : option pid_type) (want : bool)
  | CProcPid (pid : Z)
  | CStracePid (pid : Z)
  | CPrintpid (set : option number_set) (tcp : option Z) (pid : Z) (type : pid_type)
  | CPrintTgidPgid (set : option number_set) (tcp : option Z) (pid : Z).

(** The arguments are of type [int]. *)
Definition int_arg (z : Z) : Prop := - 2 ^ 31 <= z <= INT_MAX.
Definition call_ok (c : call) : Prop :=
  let tcp_ok (tcp : option Z) := match tcp with Some t => int_arg t | None => True end in
  match c with
  | CTranslate tcp id _ _ => tcp_ok tcp /\ int_arg id
  | CProcPid pid | CStracePid pid => int_arg pid
  | CPrintpid _ tcp pid _ | CPrintTgidPgid _ tcp pid => tcp_ok tcp /\ int_arg pid
  end.

Section histories.
Context {A0 : Allocator}.

Definition serve (fs : procfs) (c : call) : M unit :=
  match c with
  | CTranslate tcp id ty want => translate_pid fs tcp id ty want;; mret tt
  | CProcPid pid => get_proc_pid fs pid;; mret tt
  | CStracePid pid => get_strace_pid fs pid;; mret tt
  | CPrintpid set tcp pid ty => printpid fs set tcp pid ty;; mret tt
  | CPrintTgidPgid set tcp pid => printpid_tgid_pgid fs set tcp pid;; mret tt
  end.

(** Each call sees /proc as it is then. *)
Fixpoint history (l : list (procfs * call)) : M unit :=
  match l with
  | [] => mret tt
  | (fs, c) :: rest => serve fs c;; history rest
  end.

Context {AL : AllocatorLaws A0}.

Lemma serve_spec fs c s : depth_ok fs -> call_ok c -> inv s -> wp (serve fs c) (fun _ => inv) s.
Proof.
  intros Hd Hc Hs. assert (Htcp : forall tcp, match tcp with Some t => int_arg t | None => True end ->
    forall t, tcp = Some t -> t <= INT_MAX) by (intros tcp Ht t ->; apply Ht).
  destruct c; cbn [serve call_ok] in *.
  - destruct Hc as [Ht Hi]. eapply wp_seq; [apply translate_pid_spec; [done|done|apply Hi|by apply Htcp]|]. by intros ?? [? _].
  - eapply wp_seq; [apply get_proc_pid_spec; [done|done|apply Hc]|]. by intros ?? [? _].
  - eapply wp_seq; [apply get_strace_pid_spec; [done|done|apply Hc]|]. by intros ?? [? _].
  - destruct Hc as [Ht Hi]. unfold printpid. apply wp_bind.
    eapply wp_seq; [apply printpid_translation_spec; [done|done|apply Hi|by apply Htcp]|]. by intros ?? [? _].
  - destruct Hc as [Ht Hi]. unfold printpid_tgid_pgid. apply wp_bind. eapply (wp_seq _ _ (fun _ => inv)); [|done].
    destruct (Z.ltb_spec 0 pid); [|destruct (Z.ltb_spec pid (-1)); [|done]];
      (eapply wp_mono; [apply printpid_translation_spec; [done|done| |by apply Htcp]|by intros ?? [? _]]).
    + apply Hi.
    + unfold sint, INT_MAX. destruct (Z.ltb_spec (- pid mod 2 ^ 32) (2 ^ (32 - 1))); [lia|].
      pose proof (Z.mod_pos_bound (- pid) (2 ^ 32)). lia.
Qed.

Lemma history_spec l s : Forall (fun fc => depth_ok fc.1 /\ call_ok fc.2) l -> inv s -> wp (history l) (fun _ => inv) s.
Proof.
  intros Hl. revert s. induction Hl as [|[fs c] l [Hd Hc] Hl IH]; intros s Hs; [done|]. cbn [history].
  eapply wp_seq; [by apply serve_spec|]. intros [] s1 Hs1. by apply IH.
Qed.

End histories.

(** ** Start *)

Lemma pidns_init_spec file : (forall m, file = Some m -> 9 <= m <= INT_MAX) -> exists s, pidns_init file = Some s /\ inv s.
Proof.
  intros Hf. unfold pidns_init. set (m := default INT_MAX file).
  assert (Hm : 9 <= m <= INT_MAX) by (unfold m; destruct file; [by apply Hf|done]). clearbody m. clear Hf file.
  unfold INT_MAX in Hm. rewrite (uint_small 32 (m - 1)) by (unfold in_uint; lia).
  destruct (ilog_correct (m - 1) ltac:(lia)) as (_ & _ & H2). specialize (H2 ltac:(lia)). set (L := ilog2_32 (m - 1)) in *.
  assert (HL : 3 <= L <= 30).
  { split.
    - destruct (Z_lt_ge_dec L 3); [|lia]. pose proof (Z.pow_le_mono_r 2 (L + 1) 3). lia.
    - destruct (Z_lt_ge_dec 30 L); [|lia]. pose proof (Z.pow_le_mono_r 2 31 L). lia. }
  rewrite (uint_small 8 (L + 1)) by (unfold in_uint; lia). replace (L + 1 - 1) with L by lia.
  rewrite (uint_small 32 L) by (unfold in_uint; lia).
  destruct (ilog_correct L ltac:(lia)) as (_ & _ & H3). specialize (H3 ltac:(lia)). set (K := ilog2_32 L) in *.
  assert (HK : 0 <= K <= 4).
  { split.
    - destruct (Z_lt_ge_dec K 0); [|lia]. pose proof (Z.pow_le_mono_r 2 (K + 1) 0). lia.
    - destruct (Z_lt_ge_dec 4 K); [|lia]. pose proof (Z.pow_le_mono_r 2 5 K). lia. }
  rewrite (uint_small 8 (K + 1)) by (unfold in_uint; lia). clearbody K L.
  destruct (create_trie_4_empty ns_id_size 6) as (o & Eo & Wo & ? & ? & ? & ? & Ho); [unfold ns_id_size; lia|lia|].
  destruct (create_trie_4_empty (L + 1) 6) as (c & Ec & Wc & ? & ? & ? & ? & Hc); [lia|lia|].
  change ptr_sz_lg with 6. rewrite Eo, Ec. cbn [mbind option_bind]. eexists. split; [reflexivity|].
  split; cbn; try done; try lia; try (unfold INT_MAX; lia).
  - intros k _ Hk. by rewrite Hc in Hk.
  - intros _ k _ Hk. by rewrite Ho in Hk.
Qed.

Section properties.
Context {A0 : Allocator} {AL : AllocatorLaws A0}.

(** C28: from the start, whatever the sequence of translations and prints asked for
    and however /proc changes between them, as long as no process has more than
    32 ids: no block is used after it is freed, no array is read out of bounds
    and the tracer does not die (but for lack of memory), and every pointer in
    the caches is to a live block, the one of the process whose pid is its key. *)
Theorem pidns_caches_safe (file : option Z) (l : list (procfs * call)) :
  (forall m, file = Some m -> 9 <= m <= INT_MAX) ->
  Forall (fun fc => depth_ok fc.1 /\ call_ok fc.2) l ->
  exists s, pidns_init file = Some s /\ wp (history l) (fun _ s' => inv s') s.
Proof.
  intros Hf Hl. destruct (pidns_init_spec file Hf) as (s & E & Hs). exists s. split; [done|].
  eapply wp_mono; [by apply history_spec|]. done.
Qed.


(** The result of [get_strace_pid] is the pid itself when /proc is that of the
    namespace of the tracer; otherwise it is the id of the process at the depth
    of that namespace, and [get_proc_pid] translates it back to the pid. *)
Theorem get_strace_pid_roundtrip (fs : procfs) (s : st) (pid : Z) :
  depth_ok fs -> inv s -> int_arg pid ->
  wp (get_strace_pid fs pid) (fun r s' => inv s' /\
    (r <> 0 -> 0 < pid /\ ((proc_ours s' <> 0 /\ r = pid) \/
       (r = nthZ (id_list fs pid PT_TID) (lenZ (id_list fs 0 PT_TID) - 1) /\
        exists s1, get_proc_pid fs r s1 = Val pid s')))) s.
Proof.
  intros Hd Hs Hp. eapply wp_mono; [apply get_strace_pid_spec; [done|done|apply Hp]|].
  intros r s' (Hs' & _ & H). split; [done|]. intros Hr. destruct (H Hr) as (Hpos & [?|(? & s1 & _ & ?)]); eauto.
Qed.

(** ** Namespaces that are too deep *)

Lemma update_deep fs p d ty s : pd_ok d -> heap s !! p = Some d ->
  let h := hierarchy fs (ns_get_parent_enotty s) (proc_pid d) in
  let l := id_list fs (proc_pid d) ty in
  h <> [] -> l <> [] ->
  exists s' d' row, update_proc_data fs p ty s = Val true s' /\ heap s' !! p = Some d' /\ ns_count d' = lenZ h /\
    lenZ (ns_hierarchy d') = MAX_NS_DEPTH /\ id_count d' !! pt_index ty = Some (lenZ l) /\
    id_hierarchy d' !! pt_index ty = Some row /\ lenZ row = MAX_NS_DEPTH.
Proof.
  intros Hd E h l Hh Hl. unfold update_proc_data, ns_hierarchy_m, load, store, modify, lift, mbind, M_bind. rewrite E.
  pose proof (hierarchy_length fs (ns_get_parent_enotty s) (proc_pid d)) as HL. subst h. unfold hierarchy in *.
  destruct (get_ns_hierarchy fs (proc_pid d) 32 (ns_get_parent_enotty s)) as [h e]. cbn [fst] in *.
  cbn [heap set_enotty proc_pid ns_count id_hierarchy]. unfold load, lift. cbn [heap set_enotty]. rewrite E.
  assert (Hne : forall k : list Z, k <> [] -> (lenZ k =? 0) = false)
    by (intros [|x k] Hk; [done|]; rewrite lenZ_cons; len_facts; lia).
  rewrite (Hne h Hh). destruct (pd_row d ty Hd) as (n & row & En & Er & _ & Hr). rewrite Er.
  change (default [] (Some row)) with row. rewrite (get_id_list_row fs (proc_pid d) row ty Hr). fold l.
  cbn [heap set_heap]. rewrite lookup_insert_eq, (Hne l Hl).
  eexists _, _, _. split; [reflexivity|]. cbn [heap set_heap]. split; [apply lookup_insert_eq|]. cbn [ns_count ns_hierarchy id_count id_hierarchy].
  destruct Hd. pose proof (pt_index_lt ty). split; [done|]. split; [by apply write_front_ok|].
  rewrite !list_lookup_insert_eq by lia. split; [done|]. split; [reflexivity|]. by apply row_after_length.
Qed.

(** The number of ids is not checked against the size of the array, as
    [get_strace_pid] does: for a process that lists more than 32 ids, reading its
    own id is a read past the end of [id_hierarchy\[type\]]. *)
Theorem deep_namespace_overrun (fs : procfs) (s : st) (tip : translate_id_params) (pid : Z) :
  inv s -> 0 < pid <= INT_MAX -> calloc_pd (heap s) <> None ->
  hierarchy fs (ns_get_parent_enotty s) pid <> [] ->
  MAX_NS_DEPTH < lenZ (id_list fs pid (type tip)) ->
  translate_id_proc_pid fs tip pid s = Fault.
Proof.
  intros Hs Hp Hm Hh Hl. unfold translate_id_proc_pid. replace (pid =? 0) with false by lia.
  pose proof (get_or_create_spec fs pid s Hs Hp) as Hg. unfold wp in Hg. unfold mbind at 1, M_bind.
  destruct (get_or_create_proc_data pid s) as [p s1| |] eqn:Eg; [| |done].
  2: { unfold get_or_create_proc_data, mbind, M_bind, get, modify, mret, M_ret in Eg. cbn in Eg.
       destruct (_ =? 0); [|done]. by destruct (calloc_pd _). }
  destruct Hg as (Hs1 & _ & He & [(_ & _ & ?)|(Hp0 & d & Ed & <-)]); [done|]. rewrite (proj2 (Z.eqb_neq _ _) Hp0).
  cbn [type set_result]. destruct (i_heap s1 Hs1 p d Ed) as [Hd _].
  assert (Hne : id_list fs (proc_pid d) (type tip) <> []).
  { intros E. rewrite E in Hl. unfold MAX_NS_DEPTH, lenZ in Hl. simpl in Hl. lia. }
  destruct (update_deep fs p d (type tip) s1 Hd Ed) as (s2 & d2 & row & E2 & Ed2 & Hn & Hnl & Hc & Hr & Hrl); [by rewrite He|done|].
  unfold mbind, M_bind. rewrite E2. cbn [negb]. unfold load, lift. rewrite Ed2, Hc, Hr, Hn.
  pose proof (hierarchy_length fs (ns_get_parent_enotty s1) (proc_pid d)) as HL. rewrite He in *.
  set (h := hierarchy fs (ns_get_parent_enotty s) (proc_pid d)) in *. set (l := id_list _ _ _) in *.
  assert (Hh0 : 0 < lenZ h) by (destruct h; [done|]; rewrite lenZ_cons; len_facts; lia).
  rewrite (proj2 (Z.eqb_neq (lenZ h) 0)), (proj2 (Z.ltb_ge (lenZ l) (lenZ h))) by lia. cbn [orb].
  destruct (Z.to_nat (lenZ h)) eqn:En; [lia|]. cbn [scan]. rewrite (cell_nthZ _ 0) by (unfold MAX_NS_DEPTH in *; lia).
  cbn [mbind option_bind]. assert (Hcell : cell row (lenZ l - 0 - 1) = None).
  { unfold cell. unfold MAX_NS_DEPTH, lenZ in *. destruct (_ <? 0); [done|]. apply lookup_ge_None_2. lia. }
  by rewrite Hcell.
Qed.

End properties.

(** ** A concrete world

    /proc is that of the namespace 100 of the tracer; process 42 is the first one
    of the nested namespace 200. *)

#[local] Instance first_free : Allocator := {|
  calloc_pd h := snd <$> list_find (fun p => h !! p = None) (seqZ 1 4096);
  malloc_trie m := snd <$> list_find (fun b => m !! b = None) (seqZ 1 4096) |}.

#[local] Instance first_free_laws : AllocatorLaws first_free.
Proof.
  assert (H : forall A (m : gmap Z A) p, snd <$> list_find (fun p => m !! p = None) (seqZ 1 4096) = Some p ->
    0 < p < 2 ^ 64 /\ m !! p = None).
  { intros A m p. destruct (list_find _ _) as [[i q]|] eqn:E; [|done]. intros [= <-].
    apply list_find_Some in E as (Hl & Hm & _). apply list_elem_of_lookup_2, elem_of_seqZ in Hl. split; [lia|done]. }
  split; intros; by eapply H.
Qed.

Definition demo_status (l : list Z) : list string := ["Name:	sh"%string; id_strs PT_TID +:+ ids_text l].
Definition demo_fs : procfs := {|
  status_lines pid := if pid =? 0 then Some (demo_status [10]) else if pid =? 10 then Some (demo_status [10])
                      else if pid =? 42 then Some (demo_status [42; 1]) else None;
  open_ns pid := if (pid =? 0) || (pid =? 10) then Some 5 else if pid =? 42 then Some 6 else None;
  fd_ino fd := Some (if fd =? 5 then 100 else 200);
  ns_parent fd := if fd =? 6 then ParentFd 5 else ParentEPERM;
  proc_dir := Some [mk_dirent false "uptime"; mk_dirent true "10"; mk_dirent true "42"];
  task_dir pid := Some [mk_dirent true (pretty pid)];
  comm_text _ := "<sh>" |}.

Lemma demo_depth : depth_ok demo_fs.
Proof.
  intros pid ty. unfold id_list, demo_fs, status_lines.
  destruct (pid =? 0); [by destruct ty; vm_compute|]. destruct (pid =? 10); [by destruct ty; vm_compute|].
  destruct (pid =? 42); [by destruct ty; vm_compute|done].
Qed.

Definition demo_st : st := default (mk_st 0 0 0 (fun _ => no_trie) no_trie ∅ ∅ false 0 0 false ∅ false) (pidns_init (Some 32768)).

Lemma demo_inv : inv demo_st.
Proof.
  destruct (pidns_init_spec (Some 32768)) as (s & E & Hs); [intros m [= <-]; unfold INT_MAX; lia|].
  unfold demo_st. by rewrite E.
Qed.

(** The first call reads /proc, the second finds the entry in the cache; a pid
    that is not there has no translation. *)
Definition results (l : list Z) : option (list (Z * option Z)) :=
  (fix go l s := match l with
                 | [] => Some []
                 | id :: l' => match translate_pid demo_fs (Some 42) id (Some PT_TID) true s with
                               | Val r s' => cons r <$> go l' s'
                               | _ => None
                               end
                 end) l demo_st.

Example demo_results : results [1; 1; 7] = Some [(42, Some 42); (42, Some 42); (0, None)].
Proof. vm_compute. reflexivity. Qed.

Lemma pidns_caches_safe_witness :
  exists s, pidns_init (Some 32768) = Some s /\
    wp (history [(demo_fs, CTranslate (Some 42) 1 (Some PT_TID) true);
                 (demo_fs, CPrintpid None (Some 42) 1 PT_TGID); (demo_fs, CStracePid 42)]) (fun _ s' => inv s') s.
Proof.
  apply (pidns_caches_safe (Some 32768)).
  - intros m [= <-]. unfold INT_MAX. lia.
  - pose proof demo_depth. repeat constructor; cbn; unfold int_arg, INT_MAX; (done || lia).
Defined.


Lemma get_strace_pid_roundtrip_witness :
  wp (get_strace_pid demo_fs 42) (fun r s' => inv s' /\
    (r <> 0 -> 0 < 42 /\ ((proc_ours s' <> 0 /\ r = 42) \/
       (r = nthZ (id_list demo_fs 42 PT_TID) (lenZ (id_list demo_fs 0 PT_TID) - 1) /\
        exists s1, get_proc_pid demo_fs r s1 = Val 42 s')))) demo_st.
Proof.
  apply (get_strace_pid_roundtrip demo_fs demo_st 42 demo_depth demo_inv). unfold int_arg, INT_MAX. lia.
Defined.

Lemma status_ids_roundtrip_witness :
  get_id_list demo_fs 42 (Some (replicate 32 0)) PT_TID = (2, Some ([42; 1] ++ replicate 30 0)).
Proof.
  refine (status_ids_roundtrip demo_fs 42 PT_TID ["Name:	sh"%string] [] [42; 1] (replicate 32 0) _ _ _ _ _).
  - reflexivity.
  - repeat constructor.
  - discriminate.
  - repeat constructor; unfold INT_MAX; lia.
  - reflexivity.
Defined.

(** 33 levels. *)
Definition deep_fs : procfs := {|
  status_lines _ := Some (demo_status (seqZ 1 33)); open_ns _ := Some 5; fd_ino _ := Some 100;
  ns_parent _ := ParentEPERM; proc_dir := None; task_dir _ := None; comm_text _ := EmptyString |}.

Lemma deep_namespace_overrun_witness :
  translate_id_proc_pid deep_fs (mk_tip 100 33 PT_TID 0 0) 7 demo_st = Fault.
Proof.
  apply (deep_namespace_overrun deep_fs demo_st (mk_tip 100 33 PT_TID 0 0) 7 demo_inv).
  - unfold INT_MAX. lia.
  - vm_compute. discriminate.
  - vm_compute. discriminate.
  - vm_compute. reflexivity.
Defined.
