(* ===== verification/Event.v ===== *)
(** * The event loop (src/strace.c)

    [next_event] collects the wait statuses of the tracees, classifies them and
    queues them; [dispatch_event] handles one event and restarts the tracee;
    delayed tracees are restarted by the handler of the delay timer; [cleanup]
    and [terminate] end the tracing.  Loops that wait for the kernel take
    [fuel]. *)

From stdpp Require Import gmap pretty.
From S2P Require Import Prelude NumberSet Wait Util Arena Seccomp Tcb Tracee Syscall.
Open Scope Z_scope.

Definition KERNEL_VERSION_3_0_0 := 0x30000.
Definition PTRACE_O_EXITKILL := 0x100000.
Definition PTRACE_GETSIGINFO := 0x4202.
Definition PTRACE_SETOPTIONS := 0x4200.
Definition PTRACE_GETEVENTMSG := 0x4201.
Definition SIGTERM := 15.

Section event.
Context {MA : Machine} {OP : Options} {SY : Syscalls}.
(** [seccomp_before_sysentry], set by the probe of src/filter_seccomp.c. *)
Variable seccomp_before_sysentry : bool.

(** ** New and superseded tracees *)

Definition maybe_allocate_tcb (p status : Z) : M (option nat) :=
  if negb (WIFSTOPPED status) then
    child ← gets strace_child;
    _ ← when (detach_on_execve && (p =? child)) (modify (set_strace_child 0));
    mret None
  else if followfork then
    i ← alloctcb p;
    _ ← after_successful_attach i post_attach_sigstop;
    mret (Some i)
  else
    _ ← ask (Ptrace PTRACE_DETACH p 0);
    mret None.

(** The event message of the wait record of [tcp]. *)
Definition event_msg (s : st) (tcp : nat) : Z :=
  msg (nth (wait_data_idx (tcb_at s tcp)) (tcb_wait_tab s) wd0).

(** The thread [thread] that called execve takes over the tcb's output, its
    file position and the pid [p]; the leader's tcb is dropped. *)
Definition switch_tcbs (tcp thread : nat) (p old_pid : Z) : M () :=
  et ← get_tcb thread;
  _ ← when (negb (curcol et =? 0))
        (fputs_tcb thread (" <pid changed to " +:+ pretty p +:+ " ...>" +:+ nl));
  et ← get_tcb thread;
  t ← get_tcb tcp;
  _ ← upd_tcb thread (fun e => set_curcol (curcol t)
        (set_staged_output_data (staged_output_data t) (set_outf (outf t) e)));
  _ ← upd_tcb tcp (fun x => set_curcol 0
        (set_staged_output_data (staged_output_data et) (set_outf (outf et) x)));
  _ ← droptcb tcp;
  _ ← upd_tcb thread (set_pid p);
  if negb (cflag =? CFLAG_ONLY_STATS) then
    _ ← (if negb (is_number_in_set QUIET_THREAD_EXECVE quiet_set) then
           _ ← printleader thread;
           _ ← tprints_string ("+++ superseded by execve in pid " +:+ pretty old_pid +:+ " +++");
           _ ← tprint_newline;
           line_ended
         else mret tt);
    _ ← when status_filtering (strace_open_memstream thread);
    upd_tcb thread (flag_on TCB_REPRINT)
  else mret tt.

Definition maybe_switch_tcbs (tcp : nat) (p : Z) : M (option nat) :=
  if os_release <? KERNEL_VERSION_3_0_0 then mret None
  else
    old_pid ← gets (fun s => event_msg s tcp);
    if (old_pid <=? 0) || (old_pid =? p) then mret None
    else if UINT_MAX <? old_pid then mret None
    else
      thread ← pid2tcb (sint 32 old_pid);
      match thread with
      | None => mret None
      | Some th => _ ← switch_tcbs tcp th p old_pid; mret (Some th)
      end.

Definition maybe_switch_current_tcp (tcp : nat) : M (option nat) :=
  t ← get_tcb tcp;
  r ← maybe_switch_tcbs tcp (pid t);
  _ ← match r with Some i => set_current_tcp (Some i) | None => mret tt end;
  mret r.

(** ** Messages in the log *)

Definition print_line (tcp : nat) (text : string) : M () :=
  _ ← printleader tcp; _ ← tprints_string text; _ ← tprint_newline; line_ended.

Definition print_signalled (tcp : nat) (p status : Z) : M () :=
  child ← gets strace_child;
  _ ← when (p =? child)
        (modify (fun s => set_strace_child 0 (set_exit_code (Z.lor 0x100 (WTERMSIG status)) s)));
  if negb (cflag =? CFLAG_ONLY_STATS) && is_number_in_set (WTERMSIG status) signal_set then
    print_line tcp ("+++ killed by " +:+ sprintsigname (WTERMSIG status) +:+ " "
                    +:+ (if WCOREDUMP status then "(core dumped) " else EmptyString) +:+ "+++")
  else mret tt.

Definition print_exited (tcp : nat) (p status : Z) : M () :=
  child ← gets strace_child;
  _ ← when (p =? child)
        (modify (fun s => set_strace_child 0 (set_exit_code (WEXITSTATUS status) s)));
  if negb (cflag =? CFLAG_ONLY_STATS) && negb (is_number_in_set QUIET_EXIT quiet_set) then
    print_line tcp ("+++ exited with " +:+ pretty (WEXITSTATUS status) +:+ " +++")
  else mret tt.

Definition print_stopped (tcp : nat) (with_siginfo : bool) (sig : Z) : M () :=
  t ← get_tcb tcp;
  if negb (cflag =? CFLAG_ONLY_STATS) && negb (flag TCB_HIDE_LOG t)
     && is_number_in_set sig signal_set then
    print_line tcp (if with_siginfo then "--- " +:+ sprintsigname sig +:+ " " +:+ printsiginfo t +:+ " ---"
                    else "--- stopped by " +:+ sprintsigname sig +:+ " ---")
  else mret tt.

(** The unfinished line of another tracee is closed before an exit event. *)
Definition print_event_exit (tcp : nat) : M () :=
  t ← get_tcb tcp;
  if entering t || flag TCB_FILTERED t || flag TCB_HIDE_LOG t || (cflag =? CFLAG_ONLY_STATS)
  then mret tt
  else
    p ← gets printing_tcp;
    _ ← match p with
        | Some j =>
            pt ← get_tcb j;
            if negb output_separately && negb (j =? tcp)%nat && negb (curcol pt =? 0)
               && match staged_output_data pt with None => true | Some _ => false end then
              _ ← set_current_tcp (Some j);
              _ ← tprint_space;
              _ ← tprints_string "<unfinished ...>";
              _ ← tprint_newline;
              _ ← upd_tcb j (set_curcol 0);
              set_current_tcp (Some tcp)
            else mret tt
        | None => mret tt
        end;
    _ ← print_syscall_resume tcp;
    t ← get_tcb tcp;
    _ ← (if negb (has (sys_func_rval t) RVAL_DECODED) then
           _ ← tprint_space; tprints_string "<unfinished ...>"
         else mret tt);
    _ ← sysret_begin;
    _ ← tprints_string " ?";
    _ ← tprint_newline;
    _ ← when status_filtering
          (strace_close_memstream tcp (is_number_in_set STATUS_UNFINISHED status_set));
    line_ended.

Definition startup_tcb (tcp : nat) : M () :=
  _ ← upd_tcb tcp (flag_off TCB_STARTUP);
  t ← get_tcb tcp;
  _ ← (if negb use_seize then
         r ← ask (Ptrace PTRACE_SETOPTIONS (pid t) ptrace_setoptions);
         if (rc r <? 0) && negb (errno r =? ESRCH) then die "PTRACE_SETOPTIONS" else mret tt
       else mret tt);
  _ ← (if flag TCB_GRABBED t then
         r ← get_scno tcp;
         when (r =? 1) (upd_tcb tcp (fun t => set_s_prev_ent (s_ent t) t))
       else mret tt);
  when (negb (cflag =? 0)) (upd_tcb tcp (fun t => set_atime (stime t) t)).

(** ** Classifying a wait status

    The record made of the status of the tracee [tcp]; the tcb flag of the
    SIGSTOP that follows an attach is consumed here. *)
Definition classify (tcp : nat) (p status : Z) : M tcb_wait_data :=
  if WIFSIGNALED status then mret (mk_wd TE_SIGNALLED status 0)
  else if WIFEXITED status then mret (mk_wd TE_EXITED status 0)
  else
    let sig := WSTOPSIG status in
    let event := event_of status in
    t ← get_tcb tcp;
    if event =? 0 then
      if (sig =? SIGSTOP) && flag TCB_IGNORE_ONE_SIGSTOP t then
        _ ← upd_tcb tcp (flag_off TCB_IGNORE_ONE_SIGSTOP);
        mret (mk_wd TE_RESTART status 0)
      else if sig =? syscall_trap_sig then mret (mk_wd TE_SYSCALL_STOP status 0)
      else
        r ← ask (Ptrace PTRACE_GETSIGINFO p 0);
        mret (mk_wd (if rc r <? 0 then TE_GROUP_STOP else TE_SIGNAL_DELIVERY_STOP) status 0)
    else if event =? PTRACE_EVENT_STOP then
      mret (mk_wd (if (sig =? SIGSTOP) || (sig =? SIGTSTP) || (sig =? SIGTTIN) || (sig =? SIGTTOU)
                   then TE_GROUP_STOP else TE_RESTART) status 0)
    else if event =? PTRACE_EVENT_EXEC then
      r ← ask (Ptrace PTRACE_GETEVENTMSG p 0);
      mret (mk_wd TE_STOP_BEFORE_EXECVE status (if rc r <? 0 then 0 else value r))
    else if event =? PTRACE_EVENT_EXIT then mret (mk_wd TE_STOP_BEFORE_EXIT status 0)
    else if event =? PTRACE_EVENT_SECCOMP then mret (mk_wd TE_SECCOMP status 0)
    else mret (mk_wd TE_RESTART status 0).

(** [tcb_wait_tab_check_size] and the store of a record at [pos]. *)
Definition store_wait_data (pos : nat) (wd : tcb_wait_data) : M () :=
  modify (fun s =>
    let tab := tcb_wait_tab s in
    let tab := tab ++ replicate (S pos - length tab) wd0 in
    set_tcb_wait_tab (<[pos := wd]> tab) s).

(** A second event of a tracee that is queued already becomes the extra event. *)
Definition queue_event (tcp pos : nat) : M () :=
  modify (fun s =>
    if existsb (Nat.eqb tcp) (pending_tcps s)
    then set_wait_extra_data_idx pos (set_extra_tcp (Some tcp) s)
    else set_pending_tcps (pending_tcps s ++ [tcp])
           (set_tcbtab (alter (set_wait_data_idx pos) tcp (tcbtab s)) s)).

(** ** Collecting events

    The loop of [next_event] over the statuses [wait4] gives: [r] is the
    reply of the last wait, [nohang] whether it was made with WNOHANG, [pos]
    the next free wait record.  [true] is the early [return NULL]. *)
Fixpoint wait_loop (fuel : nat) (r : reply) (nohang : bool) (pos : nat) : M bool :=
  match fuel with
  | O => out_of_fuel
  | S fuel' =>
      n ← gets nprocs;
      popen ← gets popen_pid;
      if rc r <? 0 then
        if errno r =? EINTR then mret false
        else if nohang then mret false
        else if (n =? 0) && (errno r =? ECHILD) then mret true
        else die "wait4(__WALL)"
      else if rc r =? 0 then mret false
      else if rc r =? popen then
        _ ← when (negb (WIFSTOPPED (wstatus r))) (modify (set_popen_pid 0));
        mret false
      else
        let next (pos : nat) := r' ← ask (Wait4 true); wait_loop fuel' r' true pos in
        known ← pid2tcb (rc r);
        tcp ← match known with
              | Some i => mret (Some i)
              | None => maybe_allocate_tcb (rc r) (wstatus r)
              end;
        match tcp with
        | None => next pos
        | Some i =>
            _ ← when (negb (cflag =? 0)) (upd_tcb i (set_stime (rtime r)));
            wd ← classify i (rc r) (wstatus r);
            _ ← store_wait_data pos wd;
            _ ← queue_event i pos;
            extra ← gets extra_tcp;
            match extra with
            | Some _ => mret false
            | None => next (S pos)
            end
        end
  end.

(** The tracee whose event is handled next, made the current one. *)
Definition event_exit (tcp : nat) : M (option tcb_wait_data) :=
  _ ← clear_regs;
  t ← get_tcb tcp;
  _ ← when (flag TCB_STARTUP t) (startup_tcb tcp);
  _ ← set_current_tcp (Some tcp);
  wd ← gets (fun s => nth (wait_data_idx (tcb_at s tcp)) (tcb_wait_tab s) wd0);
  mret (Some wd).

Definition get_pending : M (option tcb_wait_data) :=
  q ← gets pending_tcps;
  match q with
  | [] =>
      _ ← store_wait_data 0 (mk_wd TE_NEXT 0 0);
      mret (Some (mk_wd TE_NEXT 0 0))
  | i :: q' => _ ← modify (set_pending_tcps q'); event_exit i
  end.

(** ** Handling an event *)

(** What [dispatch_event] does after the switch. *)
Inductive disposition :=
  | Return (continue : bool)                 (* the loop goes on iff [continue] *)
  | Restart (op sig : Z).                    (* the common tail, for [current_tcp] *)

Definition has_seccomp_filter (t : tcb) : bool := flag TCB_SECCOMP_FILTER t.

Definition restart_operator (tcp : option nat) : M Z :=
  match tcp with
  | Some i =>
      t ← get_tcb i;
      pers ← gets current_personality;
      mret (if has_seccomp_filter t
            then seccomp_filter_restart_operator seccomp_config (exiting t) (scno t) pers
            else PTRACE_SYSCALL)
  | None => mret PTRACE_SYSCALL
  end.

Definition dispatch_syscall_stop (tcp : nat) (restart_op : Z) : M disposition :=
  rs ← trace_syscall tcp 0;
  if fst rs <? 0 then mret (Return true)
  else
    t ← get_tcb tcp;
    mret (Restart (if has_seccomp_filter t
                   then (if exiting t then PTRACE_SYSCALL else PTRACE_CONT)
                   else restart_op) (snd rs)).

Definition dispatch_seccomp (tcp : nat) (restart_op : Z) : M disposition :=
  t ← get_tcb tcp;
  if negb (has_seccomp_filter t) then
    _ ← upd_tcb tcp (flag_on TCB_SECCOMP_FILTER);
    mret (Restart PTRACE_SYSCALL 0)
  else if seccomp_before_sysentry then mret (Restart PTRACE_SYSCALL 0)
  else dispatch_syscall_stop tcp restart_op.

(** A stray exec event: recover the syscall state. *)
Definition recover_exec (tcp : nat) : M (Z * Z) :=
  _ ← upd_tcb tcp (flag_on TCB_RECOVERING);
  rs ← trace_syscall tcp 0;
  _ ← upd_tcb tcp (flag_off TCB_RECOVERING);
  mret rs.

Definition dispatch_exec (fuel : nat) (tcp : nat) (restart_op : Z) : M disposition :=
  _ ← upd_tcb tcp (flag_off TCB_CHECK_EXEC_SYSCALL);
  switched ← maybe_switch_current_tcp tcp;
  let cur := default tcp switched in
  t ← get_tcb cur;
  rs ← match switched with
       | None => if entering t then recover_exec cur else mret (0, 0)
       | Some _ => mret (0, 0)
       end;
  if fst rs <? 0 then mret (Return true)
  else if detach_on_execve then
    t ← get_tcb cur;
    if flag TCB_SKIP_DETACH_ON_FIRST_EXEC t then
      _ ← upd_tcb cur (flag_off TCB_SKIP_DETACH_ON_FIRST_EXEC);
      mret (Restart restart_op (snd rs))
    else _ ← detach fuel cur; mret (Return true)
  else mret (Restart restart_op (snd rs)).

(** The switch of [dispatch_event] for the current tracee. *)
Definition dispatch_switch (fuel : nat) (tcp : nat) (wd : tcb_wait_data) (restart_op : Z)
  : M disposition :=
  let sig := WSTOPSIG (status wd) in
  match te wd with
  | TE_BREAK => mret (Return false)
  | TE_NEXT => mret (Return true)
  | TE_RESTART => mret (Restart restart_op 0)
  | TE_SECCOMP => dispatch_seccomp tcp restart_op
  | TE_SYSCALL_STOP => dispatch_syscall_stop tcp restart_op
  | TE_SIGNAL_DELIVERY_STOP => _ ← print_stopped tcp true sig; mret (Restart restart_op sig)
  | TE_SIGNALLED =>
      t ← get_tcb tcp;
      _ ← print_signalled tcp (pid t) (status wd); _ ← droptcb tcp; mret (Return true)
  | TE_GROUP_STOP =>
      _ ← print_stopped tcp false sig;
      mret (if use_seize then Restart PTRACE_LISTEN 0 else Restart restart_op sig)
  | TE_EXITED =>
      t ← get_tcb tcp;
      _ ← print_exited tcp (pid t) (status wd); _ ← droptcb tcp; mret (Return true)
  | TE_STOP_BEFORE_EXECVE => dispatch_exec fuel tcp restart_op
  | TE_STOP_BEFORE_EXIT => _ ← print_event_exit tcp; mret (Restart restart_op 0)
  end.

(** The tail: interrupted, delayed, or restarted. *)
Definition dispatch_restart (wd : tcb_wait_data) (op sig : Z) : M bool :=
  intr ← gets interrupted;
  cur ← gets current_tcp;
  if negb (intr =? 0) then mret false
  else match cur with
  | None => die "current_tcp is null"
  | Some i =>
      t ← get_tcb i;
      if flag TCB_DELAYED t then
        _ ← upd_tcb i (set_delayed_wait_data (Some wd)); mret true
      else
        r ← ptrace_restart op i sig;
        if r <? 0 then _ ← modify (set_exit_code 1); mret false else mret true
  end.

Definition dispatch_event (fuel : nat) (wd : option tcb_wait_data) : M bool :=
  match wd with
  | None => mret false
  | Some wd =>
      cur ← gets current_tcp;
      op ← restart_operator cur;
      match cur with
      | None =>
          match te wd with
          | TE_BREAK => mret false
          | TE_NEXT => mret true
          | _ => die "current_tcp is null"
          end
      | Some tcp =>
          d ← dispatch_switch fuel tcp wd op;
          match d with
          | Return b => mret b
          | Restart op sig => dispatch_restart wd op sig
          end
      end
  end.

(** ** Delayed tracees *)

Definition restart_delayed_tcb (fuel : nat) (tcp : nat) : M bool :=
  t ← get_tcb tcp;
  let wd := default wd0 (delayed_wait_data t) in
  let wd := mk_wd TE_RESTART (status wd) (msg wd) in
  _ ← upd_tcb tcp (flag_off TCB_DELAYED);
  prev ← gets current_tcp;
  _ ← modify (Tcb.set_current_tcp (Some tcp));
  ret ← dispatch_event fuel (Some wd);
  _ ← modify (Tcb.set_current_tcp prev);
  _ ← upd_tcb tcp (set_delayed_wait_data None);
  mret ret.

(** The loop over the table from entry [i], [n] entries left; [next] is the
    pending tracee that expires first so far. *)
Fixpoint restart_delayed_loop (fuel : nat) (now : timespec) (n i : nat) (next : option nat)
  : M (option (option nat)) :=
  match n with
  | O => mret (Some next)
  | S n' =>
      t ← get_tcb i;
      if negb (pid t =? 0) && flag TCB_DELAYED t then
        if 0 <? ts_cmp now (delay_expiration_time t) then
          ok ← restart_delayed_tcb fuel i;
          if ok : bool then restart_delayed_loop fuel now n' (S i) next else mret None
        else
          earlier ← match next with
                    | None => mret true
                    | Some j => nt ← get_tcb j;
                                mret (0 <? ts_cmp (delay_expiration_time nt) (delay_expiration_time t))
                    end;
          restart_delayed_loop fuel now n' (S i) (if earlier : bool then Some i else next)
      else restart_delayed_loop fuel now n' (S i) next
  end.

Definition restart_delayed_tcbs (fuel : nat) : M bool :=
  now ← ask ClockMonotonic;
  size ← gets (fun s => length (tcbtab s));
  next ← restart_delayed_loop fuel (rtime now) size 0 None;
  match next with
  | None => mret false
  | Some None => mret true
  | Some (Some i) => _ ← arm_delay_timer i; mret true
  end.

Definition timer_sighandler (fuel : nat) : M () :=
  _ ← modify (set_delay_timer_is_armed false);
  failed ← gets restart_failed;
  if failed : bool then mret tt
  else
    ok ← restart_delayed_tcbs fuel;
    when (negb ok) (modify (set_restart_failed true)).

(** ** The next event *)

Definition next_event (fuel : nat) : M (option tcb_wait_data) :=
  intr ← gets interrupted;
  limit ← gets syscall_limit;
  if negb (intr =? 0) then mret None
  else if limit =? 0 then _ ← modify (set_strace_child 0); mret None
  else
    q ← gets pending_tcps;
    match q with
    | _ :: _ => get_pending
    | [] =>
        extra ← gets extra_tcp;
        match extra with
        | Some i =>
            _ ← modify (set_extra_tcp None);
            idx ← gets wait_extra_data_idx;
            _ ← upd_tcb i (set_wait_data_idx idx);
            event_exit i
        | None =>
            popen ← gets popen_pid;
            n ← gets nprocs;
            if negb (popen =? 0) && (n =? 0) then mret None
            else
              armed ← gets delay_timer_is_armed;
              _ ← (if armed : bool then
                     expired ← ask TimerExpired;
                     when (negb (rc expired =? 0)) (timer_sighandler fuel)
                   else mret tt);
              r ← ask (Wait4 false);
              failed ← gets restart_failed;
              if armed && failed then mret None
              else
                stop ← wait_loop fuel r false 0;
                if stop : bool then mret None else get_pending
        end
    end.

(** ** The end *)

(** The loop of [cleanup] over the table; the number of tracees to wait for. *)
Fixpoint cleanup_detach (fatal_sig : Z) (n i : nat) (num_to_wait : Z) : M Z :=
  match n with
  | O => mret num_to_wait
  | S n' =>
      t ← get_tcb i;
      if pid t =? 0 then cleanup_detach fatal_sig n' (S i) num_to_wait
      else
        child ← gets strace_child;
        _ ← (if pid t =? child then
               _ ← ask (Kill (pid t) SIGCONT); _ ← ask (Kill (pid t) fatal_sig); mret tt
             else mret tt);
        b ← detach_or_interrupt_or_stop i;
        if b : bool then cleanup_detach fatal_sig n' (S i) (num_to_wait + 1)
        else _ ← droptcb_verbose i; cleanup_detach fatal_sig n' (S i) num_to_wait
  end.

Fixpoint cleanup_wait (fuel : nat) (num_to_wait : Z) : M () :=
  if num_to_wait =? 0 then mret tt
  else match fuel with
  | O => out_of_fuel
  | S fuel' =>
      r ← ask (Waitpid (-1));
      popen ← gets popen_pid;
      if rc r <? 0 then
        if errno r =? EINTR then cleanup_wait fuel' num_to_wait else mret tt
      else if rc r =? popen then
        _ ← when (negb (WIFSTOPPED (wstatus r))) (modify (set_popen_pid 0));
        cleanup_wait fuel' num_to_wait
      else
        tcp ← pid2tcb (rc r);
        match tcp with
        | None => cleanup_wait fuel' num_to_wait
        | Some i =>
            b ← detach_interrupted_or_stopped i (wstatus r);
            if b : bool then _ ← droptcb_verbose i; cleanup_wait fuel' (num_to_wait - 1)
            else cleanup_wait fuel' num_to_wait
        end
  end.

Definition cleanup (fuel : nat) (fatal_sig : Z) : M () :=
  if has ptrace_setoptions PTRACE_O_EXITKILL then mret tt
  else
    let fatal_sig := if fatal_sig =? 0 then SIGTERM else fatal_sig in
    size ← gets (fun s => length (tcbtab s));
    n ← cleanup_detach fatal_sig size 0 0;
    cleanup_wait fuel n.

(** How strace ends: by [exit] or by the signal that ended the tracee (and by
    [exit (128 + sig)] if that signal is not fatal). *)
Inductive termination := Exit (code : Z) | Raise (sig : Z).

Definition terminate (fuel : nat) : M termination :=
  sig ← gets interrupted;
  _ ← cleanup fuel sig;
  _ ← when (negb (sig =? 0)) (modify (set_exit_code (Z.lor 0x100 sig)));
  code ← gets exit_code;
  mret (if 0xff <? code then Raise (Z.land code 0xff) else Exit code).

(** [while (dispatch_event(next_event()))], of [main]. *)
Fixpoint trace_loop (fuel : nat) : M () :=
  match fuel with
  | O => out_of_fuel
  | S fuel' =>
      wd ← next_event fuel';
      go ← dispatch_event fuel' wd;
      if go : bool then trace_loop fuel' else mret tt
  end.

(** [main] after [init]. *)
Definition run_tracer (fuel : nat) : M termination :=
  _ ← modify (fun s => set_exit_code (if nprocs s =? 0 then 1 else 0) s);
  _ ← trace_loop fuel;
  terminate fuel.

End event.

(** ** Frames *)

Section event_frames.
Context {MA : Machine} {OP : Options} {SY : Syscalls}.
Context {R : st -> st -> Prop} {FR : FrameRel R} {AR : AskRel R}.

Lemma keeps_print_line i str : keeps R (print_line i str).
Proof. unfold print_line. frame. Qed.
Hint Resolve keeps_print_line : frame.
Lemma keeps_print_signalled i p x : keeps R (print_signalled i p x).
Proof. unfold print_signalled. frame. Qed.
Lemma keeps_print_exited i p x : keeps R (print_exited i p x).
Proof. unfold print_exited. frame. Qed.
Lemma keeps_print_stopped i b x : keeps R (print_stopped i b x).
Proof. unfold print_stopped. frame. Qed.
Lemma keeps_print_event_exit i : keeps R (print_event_exit i).
Proof. unfold print_event_exit. frame. Qed.
Lemma keeps_startup i : keeps R (startup_tcb i).
Proof. unfold startup_tcb. frame. Qed.
Lemma keeps_classify i p x : keeps R (classify i p x).
Proof. unfold classify. frame. Qed.
Lemma keeps_store pos wd : keeps R (store_wait_data pos wd).
Proof. unfold store_wait_data. frame. Qed.
Hint Resolve keeps_startup : frame.
Lemma keeps_event_exit i : keeps R (event_exit i).
Proof. unfold event_exit. frame. Qed.
Lemma keeps_restart_operator c : keeps R (restart_operator c).
Proof. unfold restart_operator. frame. Qed.
Lemma keeps_dispatch_syscall_stop i op : keeps R (dispatch_syscall_stop i op).
Proof. unfold dispatch_syscall_stop. frame. Qed.
Hint Resolve keeps_dispatch_syscall_stop : frame.
Lemma keeps_dispatch_seccomp b i op : keeps R (dispatch_seccomp b i op).
Proof. unfold dispatch_seccomp. frame. Qed.
Lemma keeps_recover i : keeps R (recover_exec i).
Proof. unfold recover_exec. frame. Qed.
Lemma keeps_dispatch_restart wd op sig : keeps R (dispatch_restart wd op sig).
Proof. unfold dispatch_restart. frame. Qed.
End event_frames.

#[export] Hint Resolve keeps_print_line keeps_print_signalled keeps_print_exited keeps_print_stopped
  keeps_print_event_exit keeps_startup keeps_classify keeps_store keeps_event_exit
  keeps_restart_operator keeps_dispatch_syscall_stop keeps_dispatch_seccomp keeps_recover
  keeps_dispatch_restart : frame.

(** ** The table invariant through the loop *)

Section event_inv.
Context {MA : Machine} {OP : Options} {SY : Syscalls}.
Variable before : bool.

Lemma inv_alloctcb p s i s' :
  alloctcb p s = Done i s' -> inv s -> 0 < p -> p ∉ pids s ->
  inv s' /\ pids s' !! i = Some p /\ extra_tcp s' = extra_tcp s.
Proof.
  intros H Hinv Hp Hnew. unfold alloctcb in H. run_get H. run_get H. run_step H He.
  assert (H1 : inv x0 /\ exists k, pids x0 = pids s ++ replicate k 0).
  { destruct (_ =? _); cbn [when] in He.
    - unfold expand_tcbtab in He. destruct (xgrowarray _ _ _ _) as [n|]; [|done].
      injection He as _ <-.
      destruct (inv_expand s (Z.to_nat (n - lenZ (tcbtab s))) Hinv) as [? E].
      split; [done|]. by eexists.
    - injection He as _ <-. split; [done|]. exists 0%nat. by rewrite app_nil_r. }
  assert (Ex : extra_tcp x0 = extra_tcp s).
  { destruct (_ =? _); cbn [when] in He; [|by injection He as _ <-].
    unfold expand_tcbtab in He. destruct (xgrowarray _ _ _ _); [|done]. by injection He as _ <-. }
  destruct H1 as [Hinv0 [k Ep]]. run_get H.
  pose proof (find_free_spec (tcbtab x0) 0) as Hf. rename x0 into s0.
  destruct (find_free 0 (tcbtab s0)) as [j|]; [|done].
  destruct Hf as [_ Hi]. rewrite Nat.sub_0_r in Hi. fold (pids s0) in Hi. run_get H.
  apply bind_Done in H as (? & s1 & H1 & H). injection H1 as _ <-.
  apply bind_Done in H as (? & s2 & H2 & H). injection H2 as _ <-. injection H as -> <-.
  match goal with |- inv ?s2 /\ _ => assert (E2 : pids s2 = <[i := p]> (pids s0)) end.
  { unfold pids. simpl. rewrite <- list_insert_alter. apply list_fmap_insert. }
  split; [|split; [|done]].
  - eapply inv_alloc; try done. rewrite Ep, elem_of_app.
    intros [?|[-> _]%elem_of_replicate]; [done|lia].
  - rewrite E2. apply list_lookup_insert_eq. by eapply lookup_lt_Some.
Qed.

Lemma inv_maybe_allocate p x s r s' :
  maybe_allocate_tcb p x s = Done r s' -> inv s -> 0 < p -> p ∉ pids s ->
  inv s' /\ extra_tcp s' = extra_tcp s
  /\ match r with Some i => pids s' !! i = Some p | None => True end.
Proof.
  unfold maybe_allocate_tcb. intros H Hinv Hp Hnew.
  destruct (negb (WIFSTOPPED x)); [|destruct followfork].
  - run_get H. run_step H H1. injection H as <- <-. core_of H1.
    split; [by eapply inv_core|]. destruct H1 as (_ & _ & _ & ->). done.
  - run_step H H1. run_step H H2. injection H as <- <-.
    apply inv_alloctcb in H1 as (? & ? & Ex); [|done..]. core_of H2.
    split; [by eapply inv_core|]. destruct H2 as (-> & _ & _ & ->). done.
  - run_step H H1. injection H as <- <-. core_of H1.
    split; [by eapply inv_core|]. destruct H1 as (_ & _ & _ & ->). done.
Qed.

Lemma inv_queue_event i pos s a s' p :
  queue_event i pos s = Done a s' -> inv s -> pids s !! i = Some p -> p <> 0 -> inv s'.
Proof.
  unfold queue_event, modify. intros [= _ <-] Hinv Hi Hp.
  destruct (existsb (Nat.eqb i) (pending_tcps s)) eqn:E.
  { destruct Hinv. by split. }
  assert (Hpid : pids (set_pending_tcps (pending_tcps s ++ [i])
    (set_tcbtab (alter (set_wait_data_idx pos) i (tcbtab s)) s)) = pids s)
    by (unfold pids; simpl; by apply pids_alter).
  assert (Hni : i ∉ pending_tcps s).
  { intros Hin. apply not_true_iff_false in E. apply E. apply existsb_exists.
    exists i. split; [by apply list_elem_of_In|apply Nat.eqb_refl]. }
  destruct Hinv as [Hn Hd Hnn Hq Hl]. split; rewrite ?Hpid; try done.
  - apply list.NoDup_app. split; [done|]. split; [|apply list.NoDup_singleton].
    intros j Hj ->%list_elem_of_singleton. done.
  - apply Forall_app. split; [done|]. apply Forall_singleton. eauto.
Qed.

Lemma pid2tcb_done p s r s' :
  pid2tcb p s = Done r s' ->
  same_core s s' /\ tcbtab s' = tcbtab s
  /\ match r with
     | Some i => 0 < p /\ pids s !! i = Some p
     | None => p <= 0 \/ p ∉ pids s
     end.
Proof.
  destruct (Z_lt_ge_dec 0 p) as [Hp|Hp].
  - destruct (pid2tcb_spec p s Hp) as (r0 & s0 & -> & ? & ? & Hr). intros [= <- <-].
    split; [done|]. split; [done|]. destruct r0; auto.
  - unfold pid2tcb. replace (p <=? 0) with true by lia. intros [= <- <-].
    split; [apply frame_refl|]. split; [done|]. left. lia.
Qed.

(** One collected status: the invariant survives classification and queueing. *)
Lemma inv_collect i p x pos s wd s1 s2 s3 (a b : ()) :
  inv s -> pids s !! i = Some p -> p <> 0 ->
  classify i p x s = Done wd s1 -> store_wait_data pos wd s1 = Done a s2 ->
  queue_event i pos s2 = Done b s3 -> inv s3.
Proof.
  intros Hinv Hi Hp H1 H2 H3. core_of H1. core_of H2.
  pose proof (frame_trans _ _ _ H1 H2) as Hc. eapply inv_queue_event; [exact H3| |..].
  - by eapply inv_core.
  - destruct Hc as (-> & _). done.
  - done.
Qed.

Lemma inv_wait_loop n r nohang pos s b s' :
  wait_loop n r nohang pos s = Done b s' -> inv s -> inv s'.
Proof.
  revert r nohang pos s. induction n as [|n IH]; intros r nohang pos s H Hinv; [done|].
  cbn [wait_loop] in H. run_get H. run_get H.
  destruct (Z.ltb_spec (rc r) 0) as [|Hpos].
  { destruct (errno r =? EINTR); [by injection H as _ <-|].
    destruct nohang; [by injection H as _ <-|].
    destruct (_ && _); [by injection H as _ <-|done]. }
  destruct (Z.eqb_spec (rc r) 0) as [|Hnz]; [by injection H as _ <-|].
  destruct (rc r =? popen_pid s).
  { run_step H H1. injection H as _ <-. core_of H1. by eapply inv_core. }
  assert (Hnext : forall pos s1, inv s1 ->
    (ask (Wait4 true) ≫= fun r' => wait_loop n r' true pos) s1 = Done b s' -> inv s').
  { intros pos1 s1 Hi1 Hn. run_step Hn Ha. core_of Ha. eapply IH; [exact Hn|]. by eapply inv_core. }
  run_step H Hk. apply pid2tcb_done in Hk as (Hc & _ & Hk).
  assert (Hi0 : inv x0) by by eapply inv_core. run_step H Ht.
  assert (Hi1 : inv x2 /\ match x1 with Some i => pids x2 !! i = Some (rc r) | None => True end).
  { destruct x as [i|].
    - injection Ht as <- <-. destruct Hc as (-> & _). tauto.
    - destruct Hc as (Ep & _). apply inv_maybe_allocate in Ht as (? & _ & ?); auto; [lia|].
      rewrite Ep. destruct Hk; [lia|done]. }
  destruct Hi1 as [Hi1 Hx]. destruct x1 as [i|]; [|by eapply Hnext].
  run_step H Hst. core_of Hst. assert (Hi2 : inv x3) by by eapply inv_core.
  assert (Hx3 : pids x3 !! i = Some (rc r)) by (destruct Hst as (-> & _); done).
  run_step H Hcl. run_step H Hsd. run_step H Hqe.
  eapply inv_collect in Hqe; [|done|exact Hx3|done|exact Hcl|exact Hsd].
  run_get H. destruct (extra_tcp _); [by injection H as _ <-|]. eapply Hnext; [exact Hqe|exact H].
Qed.

Lemma inv_get_pending s r s' : get_pending s = Done r s' -> inv s -> inv s'.
Proof.
  unfold get_pending. intros H Hinv. run_get H. destruct (pending_tcps s) as [|i q] eqn:E.
  - run_step H H1. injection H as _ <-. core_of H1. by eapply inv_core.
  - apply bind_Done in H as (? & s1 & H1 & H). injection H1 as _ <-. core_of H.
    eapply inv_core; [exact H|]. destruct Hinv as [Hn Hd Hnn Hq Hl]. rewrite E in Hq, Hl.
    split; try done; simpl.
    + by apply list.NoDup_cons in Hq as [_ ?].
    + by apply Forall_cons_1 in Hl as [_ ?].
Qed.

Lemma elem_cleared s i p :
  inv s -> pids s !! i = Some p -> p <> 0 -> p ∉ <[i := 0]> (pids s).
Proof.
  intros Hinv Hi Hp Hin. pose proof (inv_distinct _ Hinv) as Hd.
  rewrite (live_clear _ _ _ Hi Hp) in Hd. apply list.NoDup_cons in Hd as [Hni _].
  apply Hni. by apply live_elem.
Qed.

Lemma inv_rename s s' th p q :
  inv s -> pids s !! th = Some q -> q <> 0 -> 0 < p -> p ∉ pids s ->
  pids s' = <[th := p]> (pids s) -> nprocs s' = nprocs s -> pending_tcps s' = pending_tcps s ->
  inv s'.
Proof.
  intros [Hn Hd Hnn Hq Hl] Hth Hq0 Hp Hnew E1 E2 E3.
  assert (HP1 := live_clear _ _ _ Hth Hq0).
  assert (Hz : <[th := 0]> (pids s) !! th = Some 0)
    by (apply list_lookup_insert_eq; by eapply lookup_lt_Some).
  assert (HP2 := live_set _ _ p Hz ltac:(lia)). rewrite list_insert_insert_eq in HP2.
  rewrite HP1 in Hd. apply list.NoDup_cons in Hd as [_ Hd].
  split; rewrite ?E1, ?E2, ?E3; try done.
  - rewrite Hn. unfold lenZ. rewrite (Permutation_length HP1), (Permutation_length HP2). done.
  - rewrite HP2. apply list.NoDup_cons. split; [|done]. rewrite live_elem. intros [_ Hin].
    apply list_elem_of_lookup in Hin as [j Hj]. destruct (decide (j = th)) as [->|].
    + rewrite Hz in Hj. injection Hj. lia.
    + rewrite list_lookup_insert_ne in Hj by done. apply Hnew. by eapply list_elem_of_lookup_2.
  - apply Forall_insert; [done|lia].
  - eapply list.Forall_impl; [exact Hl|]. intros j (r & Hr & Hrz).
    destruct (decide (j = th)) as [->|].
    + exists p. split; [|lia]. apply list_lookup_insert_eq. by eapply lookup_lt_Some.
    + exists r. by rewrite list_lookup_insert_ne.
Qed.

Lemma inv_switch_tcbs i th p q old s a s' :
  switch_tcbs i th p old s = Done a s' -> inv s ->
  pids s !! i = Some p -> 0 < p -> pids s !! th = Some q -> q <> 0 -> i <> th ->
  inv s' /\ pids s' !! th = Some p /\ pids s' !! i = Some 0 /\ extra_tcp s' = extra_tcp s.
Proof.
  unfold switch_tcbs. intros H Hinv Hi Hp Hth Hq Hne.
  run_get H. run_step H H1. core_of H1. run_get H. run_get H.
  run_step H H2. core_of H2. run_step H H3. core_of H3.
  pose proof (frame_trans _ _ _ (frame_trans _ _ _ H1 H2) H3) as Hc.
  rename x4 into s1. assert (Hi1 : inv s1) by by eapply inv_core.
  destruct Hc as (Ep & _ & _ & Ex). rewrite <- Ep in Hi, Hth. clear H1 H2 H3.
  run_step H Hd. pose proof Hd as Hd'. apply inv_droptcb in Hd'; [|done].
  apply droptcb_core in Hd as [[Hz _]|[_ Hd]]; [rewrite tcb_at_pid, Hi in Hz; simpl in Hz; lia|].
  destruct Hd as (Ed & _ & _ & Ex2). rename x5 into s2.
  assert (Hth2 : pids s2 !! th = Some q) by (rewrite Ed; by rewrite list_lookup_insert_ne).
  assert (Hnew : p ∉ pids s2) by (rewrite Ed; eapply elem_cleared; [done|done|lia]).
  apply bind_Done in H as (? & s3 & H3 & H). injection H3 as _ <-.
  set (s3 := set_tcbtab _ s2) in H.
  assert (E3 : pids s3 = <[th := p]> (pids s2)).
  { unfold pids, s3. simpl. clear. generalize (tcbtab s2) as l. revert th.
    induction th as [|th IH]; intros [|t l]; try done.
    change (pid t :: map pid (alter (set_pid p) th l) = pid t :: <[th := p]> (map pid l)).
    by rewrite IH. }
  assert (Hi3 : inv s3) by (eapply inv_rename; [exact Hd'|exact Hth2|done|done|done|exact E3|done|done]).
  assert (Hp3 : pids s3 !! th = Some p)
    by (rewrite E3; apply list_lookup_insert_eq; by eapply lookup_lt_Some).
  assert (H03 : pids s3 !! i = Some 0).
  { rewrite E3, list_lookup_insert_ne, Ed by congruence.
    apply list_lookup_insert_eq. by eapply lookup_lt_Some. }
  assert (Ex3 : extra_tcp s3 = extra_tcp s) by (simpl; congruence).
  clearbody s3. core_of H. split; [by eapply inv_core|]. destruct H as (-> & _ & _ & ->). done.
Qed.

Lemma inv_maybe_switch i s r s' :
  maybe_switch_current_tcp i s = Done r s' -> inv s -> pid (tcb_at s i) <> 0 ->
  inv s' /\ match r with
            | Some th => pids s' !! th = Some (pid (tcb_at s i))
            | None => same_core s s'
            end.
Proof.
  unfold maybe_switch_current_tcp, maybe_switch_tcbs. intros H Hinv Hlive. run_get H.
  assert (Hi : pids s !! i = Some (pid (tcb_at s i))).
  { rewrite tcb_at_pid in *. by destruct (pids s !! i). }
  set (p := pid (tcb_at s i)) in *.
  assert (Hp : 0 < p).
  { pose proof (inv_nonneg _ Hinv) as Hn. rewrite list.Forall_forall in Hn.
    specialize (Hn p (list_elem_of_lookup_2 _ _ _ Hi)). simpl in Hn. lia. }
  assert (Hnone : forall x s1, (mret x : M (option nat)) s = Done r s1 -> x = None ->
    inv s1 /\ match r with Some th => pids s1 !! th = Some p | None => same_core s s1 end).
  { intros x s1 [= <- <-] ->. split; [done|]. apply frame_refl. }
  run_step H Hm. destruct (os_release <? _); [injection Hm as <- <-; by injection H as <- <-|].
  run_get Hm. set (old := event_msg s i) in *.
  destruct ((old <=? 0) || (old =? p)) eqn:E1; [injection Hm as <- <-; by injection H as <- <-|].
  destruct (Z.ltb_spec UINT_MAX old) as [|Hmax]; [injection Hm as <- <-; by injection H as <- <-|].
  run_step Hm Hk. apply pid2tcb_done in Hk as (Hc & Et & Hk).
  destruct x1 as [th|].
  2: { injection Hm as <- <-. injection H as <- <-. split; [by eapply inv_core|done]. }
  destruct Hk as [Hq Hth]. run_step Hm Hs. injection Hm as <- <-.
  assert (i <> th).
  { intros ->. rewrite Hi in Hth. injection Hth as Eold. unfold UINT_MAX in Hmax.
    unfold sint in Eold, Hq. change (2 ^ (32 - 1)) with 2147483648 in *.
    rewrite (Z.mod_small old) in Eold, Hq by lia.
    destruct (Z.ltb_spec old 2147483648); lia. }
  destruct Hc as (Ep & En & Eq & Ex).
  apply (inv_switch_tcbs _ _ _ (sint 32 old)) in Hs as (Hs1 & Hs2 & _);
    [|by eapply inv_core|by rewrite Ep|done|by rewrite Ep|lia|done].
  run_step H Hsc. injection H as <- <-. core_of Hsc.
  split; [by eapply inv_core|]. destruct Hsc as (-> & _). done.
Qed.

Lemma inv_dispatch_exec n i op s d s' :
  dispatch_exec n i op s = Done d s' -> inv s -> pid (tcb_at s i) <> 0 -> inv s'.
Proof.
  unfold dispatch_exec. intros H Hinv Hlive. run_step H H1. core_of H1.
  assert (Hi1 : inv x0) by by eapply inv_core.
  assert (Hl1 : pid (tcb_at x0 i) <> 0) by (rewrite tcb_at_pid in *; by destruct H1 as (-> & _)).
  run_step H Hsw. apply inv_maybe_switch in Hsw as [Hi2 _]; [|done..]. run_get H.
  run_step H Hr. assert (Hi3 : inv x4) by (core_of Hr; by eapply inv_core).
  destruct (fst x3 <? 0); [by injection H as _ <-|]. destruct detach_on_execve.
  - run_get H. destruct (flag _ _).
    + core_of H. by eapply inv_core.
    + run_step H Hd. injection H as _ <-. by eapply inv_detach.
  - by injection H as _ <-.
Qed.

Lemma inv_dispatch_switch n i wd op s d s' :
  dispatch_switch before n i wd op s = Done d s' -> inv s ->
  (te wd = TE_STOP_BEFORE_EXECVE -> pid (tcb_at s i) <> 0) -> inv s'.
Proof.
  unfold dispatch_switch. intros H Hinv Hexec. destruct (te wd);
    try (core_of H; by eapply inv_core).
  - run_get H. run_step H H1. run_step H H2. injection H as _ <-. core_of H1.
    eapply inv_droptcb; [exact H2|]. by eapply inv_core.
  - run_get H. run_step H H1. run_step H H2. injection H as _ <-. core_of H1.
    eapply inv_droptcb; [exact H2|]. by eapply inv_core.
  - eapply inv_dispatch_exec; [exact H|done|]. by apply Hexec.
Qed.

Lemma inv_dispatch_event n wd s b s' :
  dispatch_event before n wd s = Done b s' -> inv s ->
  (forall w i, wd = Some w -> current_tcp s = Some i ->
     te w = TE_STOP_BEFORE_EXECVE -> pid (tcb_at s i) <> 0) ->
  inv s'.
Proof.
  unfold dispatch_event. intros H Hinv Hexec. destruct wd as [w|]; [|by injection H as _ <-].
  run_get H. run_step H Hop. pose proof Hop as Hs. core_of Hop.
  assert (s = x0) as <-.
  { unfold restart_operator in Hs. destruct (current_tcp s).
    - run_get Hs. run_get Hs. by injection Hs.
    - by injection Hs. }
  destruct (current_tcp s) as [i|] eqn:Ec.
  2: { destruct (te w); try done; by injection H as _ <-. }
  run_step H Hd. eapply inv_dispatch_switch in Hd; [|done|by eapply Hexec].
  destruct x0 as [c|op sig]; [by injection H as _ <-|]. core_of H. by eapply inv_core.
Qed.

Lemma inv_restart_delayed n i s b s' :
  restart_delayed_tcb before n i s = Done b s' -> inv s -> inv s'.
Proof.
  unfold restart_delayed_tcb. intros H Hinv. run_get H. run_step H H1. core_of H1. run_get H.
  run_step H H2. core_of H2. run_step H Hd. run_step H H3. run_step H H4. injection H as _ <-.
  core_of H3. core_of H4. eapply inv_core; [exact H4|]. eapply inv_core; [exact H3|].
  eapply inv_dispatch_event; [exact Hd| |].
  - eapply inv_core; [exact H2|]. by eapply inv_core.
  - intros w j [= <-]. done.
Qed.

Lemma inv_delayed_loop n now m i next s r s' :
  restart_delayed_loop before n now m i next s = Done r s' -> inv s -> inv s'.
Proof.
  revert i next s. induction m as [|m IH]; intros i next s H Hinv; cbn [restart_delayed_loop] in H.
  { by injection H as _ <-. }
  run_get H. destruct (_ && _); [|by eapply IH]. destruct (0 <? _).
  - run_step H H1. apply inv_restart_delayed in H1; [|done].
    destruct x; [by eapply IH|by injection H as _ <-].
  - run_step H H1. core_of H1. eapply IH; [exact H|]. by eapply inv_core.
Qed.

Lemma inv_timer n s a s' : timer_sighandler before n s = Done a s' -> inv s -> inv s'.
Proof.
  unfold timer_sighandler. intros H Hinv. run_step H H1. core_of H1. run_get H.
  assert (inv x0) by by eapply inv_core. destruct (restart_failed x0); [by injection H as _ <-|].
  run_step H H2. core_of H. eapply inv_core; [exact H|].
  unfold restart_delayed_tcbs in H2. run_step H2 Ha. core_of Ha. run_get H2. run_step H2 Hl.
  apply inv_delayed_loop in Hl; [|by eapply inv_core].
  destruct x5 as [[j|]|]; [|by injection H2 as _ <-..]. core_of H2. by eapply inv_core.
Qed.

Lemma inv_next_event n s wd s' : next_event before n s = Done wd s' -> inv s -> inv s'.
Proof.
  unfold next_event. intros H Hinv. run_get H. run_get H.
  destruct (negb _); [by injection H as _ <-|]. destruct (_ =? 0); [core_of H; by eapply inv_core|].
  run_get H. destruct (pending_tcps s) eqn:Eq; [|by eapply inv_get_pending].
  run_get H. destruct (extra_tcp s) as [i|] eqn:Ex.
  - apply bind_Done in H as (? & s1 & H1 & H). injection H1 as _ <-. run_get H.
    run_step H H2. core_of H. eapply inv_core; [exact H|]. injection H2 as _ <-.
    destruct Hinv. split; unfold pids in *; simpl; by rewrite ?pids_alter.
  - run_get H. run_get H. destruct (_ && _); [by injection H as _ <-|]. run_get H.
    run_step H Ht. assert (Hi1 : inv x0).
    { destruct (delay_timer_is_armed s); [|by injection Ht as _ <-].
      run_step Ht He. core_of He. assert (inv x2) by by eapply inv_core.
      destruct (negb _); cbn [when] in Ht; [by eapply inv_timer|by injection Ht as _ <-]. }
    run_step H Hw. core_of Hw. assert (Hi2 : inv x2) by by eapply inv_core. run_get H.
    destruct (_ && _); [by injection H as _ <-|]. run_step H Hl.
    apply inv_wait_loop in Hl; [|done]. destruct x3; [by injection H as _ <-|].
    by eapply inv_get_pending.
Qed.


End event_inv.
