(* ===== verification/EventFacts.v ===== *)
(** * What the event loop guarantees

    Theorems about the loop of src/strace.c as modelled in Event.v: collected
    events are all delivered, tracees are restarted as the event demands,
    delayed tracees are restarted when their time has come, the exit status;
    and the two places where the loop does not do what it means to. *)

From stdpp Require Import gmap pretty.
From S2P Require Import Prelude NumberSet Wait Util Arena Seccomp Tcb Tracee Syscall Event.
Open Scope Z_scope.

(** ** No event is lost *)

Section queue.
Context {MA : Machine} {OP : Options} {SY : Syscalls}.

Definition same_queue (s s' : st) : Prop :=
  pending_tcps s' = pending_tcps s /\ extra_tcp s' = extra_tcp s
  /\ wait_extra_data_idx s' = wait_extra_data_idx s
  /\ map key (tcbtab s') = map key (tcbtab s).

#[export] Instance same_queue_frame : FrameRel same_queue.
Proof.
  assert (Hu : forall i f s, (forall t, key (f t) = key t) ->
    same_queue s (set_tcbtab (alter f i (tcbtab s)) s)).
  { intros i f s Hf. unfold same_queue. simpl. do 3 (split; [done|]). by apply map_alter. }
  split; [split; [split|..]|]; try done.
  - intros s1 s2 s3. unfold same_queue. intros (-> & -> & -> & ->) (-> & -> & -> & ->). done.
  - intros i f s Hf. apply Hu. intros t. apply (f_equal key (Hf t)).
Qed.

#[export] Instance same_queue_ask : AskRel same_queue.
Proof. by split. Qed.

Lemma same_queue_key s s' i : same_queue s s' -> key (tcb_at s' i) = key (tcb_at s i).
Proof.
  intros (_ & _ & _ & E). unfold tcb_at.
  change (key (nth i (tcbtab s') tcb0) = key (nth i (tcbtab s) tcb0)).
  by rewrite <- (map_nth key (tcbtab s')), <- (map_nth key (tcbtab s)), E.
Qed.

(** Every queued tracee refers to the record of its place in the queue. *)
Definition indexed (s : st) : Prop :=
  forall j i, pending_tcps s !! j = Some i -> wait_data_idx (tcb_at s i) = j.

Lemma indexed_queue s s' : same_queue s s' -> indexed s -> indexed s'.
Proof.
  intros Hs Hi j i Hj. pose proof (same_queue_key s s' i Hs) as E. injection E as _ ->.
  apply Hi. destruct Hs as (E & _). by rewrite <- E.
Qed.

Ltac queue_of H :=
  match type of H with
  | ?m ?s = Done _ _ =>
      let K := fresh in assert (K : keeps same_queue m) by frame; apply K in H; clear K
  end.

(** The state of the queue after collecting: an extra event, if any, is a
    second event of a queued tracee and has the record after theirs. *)
Definition collected (s : st) : Prop :=
  indexed s /\ forall e, extra_tcp s = Some e ->
    wait_extra_data_idx s = length (pending_tcps s) /\ e ∈ pending_tcps s.

Lemma queue_event_indexed i pos s a s' p :
  queue_event i pos s = Done a s' -> indexed s -> extra_tcp s = None ->
  pos = length (pending_tcps s) -> pids s !! i = Some p ->
  collected s' /\ (extra_tcp s' = None -> length (pending_tcps s') = S pos).
Proof.
  unfold queue_event, modify. intros H Hidx Hex Hpos Hi. injection H as _ <-.
  destruct (existsb (Nat.eqb i) (pending_tcps s)) eqn:E; simpl.
  - split; [|done]. split; [done|]. intros e [= <-]. split; [done|].
    apply existsb_exists in E as (j & Hj & ->%Nat.eqb_eq). by apply list_elem_of_In.
  - assert (Hni : i ∉ pending_tcps s).
    { intros Hin. apply not_true_iff_false in E. apply E, existsb_exists.
      exists i. split; [by apply list_elem_of_In|apply Nat.eqb_refl]. }
    assert (Hlt : (i < length (tcbtab s))%nat).
    { apply lookup_lt_Some in Hi. unfold pids in Hi. by rewrite length_map in Hi. }
    split; [|rewrite length_app; simpl; lia]. split; [|simpl; congruence].
    intros j k Hj. simpl in Hj. set (s1 := set_tcbtab _ s).
    change (wait_data_idx (tcb_at s1 k) = j).
    destruct (decide (k = i)) as [->|Hne].
    + unfold s1. rewrite tcb_at_alter_eq by done. simpl.
      apply lookup_app_Some in Hj as [Hj|[Hge Hj]].
      * exfalso. apply Hni. by eapply list_elem_of_lookup_2.
      * apply list_lookup_singleton_Some in Hj as [? _]. lia.
    + unfold s1. rewrite tcb_at_alter_ne by done. apply Hidx.
      apply lookup_app_Some in Hj as [Hj|[_ Hj]]; [done|].
      apply list_lookup_singleton_Some in Hj as [_ ->]. done.
Qed.

(** The queue and what its tracees refer to stay. *)
Definition same_queued (s s' : st) : Prop :=
  pending_tcps s' = pending_tcps s
  /\ forall k, k ∈ pending_tcps s -> key (tcb_at s' k) = key (tcb_at s k).

Lemma same_queue_queued s s' : same_queue s s' -> same_queued s s'.
Proof. intros H. split; [apply H|]. intros k _. by apply same_queue_key. Qed.

Lemma indexed_queued s s' : same_queued s s' -> indexed s -> indexed s'.
Proof.
  intros [E Hk] Hi j i Hj. rewrite E in Hj.
  pose proof (Hk i (list_elem_of_lookup_2 _ _ _ Hj)) as [= _ ->]. by apply Hi.
Qed.

Lemma alloctcb_others p s i s' :
  alloctcb p s = Done i s' ->
  pending_tcps s' = pending_tcps s
  /\ forall k, pid (tcb_at s k) <> 0 -> tcb_at s' k = tcb_at s k.
Proof.
  unfold alloctcb. intros H. run_get H. run_get H. apply bind_Done in H as (? & sx & He & H).
  assert (Hs : pending_tcps sx = pending_tcps s
    /\ (tcbtab sx = tcbtab s \/ exists k, tcbtab sx = tcbtab s ++ replicate k tcb0)).
  { destruct (_ =? _); cbn [when] in He; [|injection He as _ <-; auto].
    unfold expand_tcbtab in He. destruct (xgrowarray _ _ _ _); [|done].
    injection He as _ <-. split; [done|]. right. by eexists. }
  destruct Hs as [Hp Hs].
  assert (Hat : forall j, tcb_at sx j = tcb_at s j).
  { intros j. unfold tcb_at. destruct Hs as [->|[k ->]]; [done|]. rewrite !nth_lookup.
    destruct (decide (j < length (tcbtab s))%nat).
    - by rewrite lookup_app_l.
    - rewrite lookup_app_r, (lookup_ge_None_2 (tcbtab s)) by lia.
      destruct (replicate k tcb0 !! _) as [t|] eqn:Er; [|done].
      apply lookup_replicate in Er as [-> _]. done. }
  run_get H. pose proof (find_free_spec (tcbtab sx) 0) as Hf.
  destruct (find_free 0 (tcbtab sx)) as [f|]; [|done]. destruct Hf as [_ Hf].
  rewrite Nat.sub_0_r in Hf. run_get H.
  apply bind_Done in H as (? & s1 & Hu & H). injection Hu as _ <-.
  apply bind_Done in H as (? & s2 & Hu & H). injection Hu as _ <-. injection H as _ <-.
  split; [done|]. intros k Hk. rewrite <- Hat.
  match goal with |- tcb_at (set_nprocs _ ?t) _ = _ => change (tcb_at t k = tcb_at sx k) end.
  apply tcb_at_alter_ne. intros <-. apply Hk. rewrite <- Hat, tcb_at_pid. unfold pids. by rewrite Hf.
Qed.

Lemma queued_live s k : inv s -> k ∈ pending_tcps s -> pid (tcb_at s k) <> 0.
Proof.
  intros Hinv Hk. pose proof (inv_queued _ Hinv) as Hl. rewrite list.Forall_forall in Hl.
  destruct (Hl k Hk) as (q & Hq & Hq0). by rewrite tcb_at_pid, Hq.
Qed.

Lemma queued_maybe_allocate p x s r s' :
  maybe_allocate_tcb p x s = Done r s' -> inv s -> same_queued s s'.
Proof.
  unfold maybe_allocate_tcb. intros H Hinv.
  destruct (negb (WIFSTOPPED x)); [|destruct followfork].
  - queue_of H. by apply same_queue_queued.
  - run_step H H1. run_step H H2. injection H as _ <-. queue_of H2.
    apply alloctcb_others in H1 as [Ep Hk]. split.
    + rewrite <- Ep. apply H2.
    + intros k Hin. rewrite (same_queue_key _ _ k H2). f_equal. by apply Hk, queued_live.
  - queue_of H. by apply same_queue_queued.
Qed.

(** ** What the kernel reported and what was queued *)

Definition report (r : reply) : list (Z * Z) :=
  if 0 <? rc r then [(rc r, wstatus r)] else [].

(** The children's reports among requests: pids and statuses. *)
Fixpoint reports (h : list (request * reply)) : list (Z * Z) :=
  match h with
  | [] => []
  | (Wait4 _, r) :: h' => report r ++ reports h'
  | _ :: h' => reports h'
  end.

Lemma reports_app h1 h2 : reports (h1 ++ h2) = reports h1 ++ reports h2.
Proof.
  induction h1 as [|[q r] h1 IH]; [done|]. cbn [app reports]. rewrite IH.
  destruct q; try done. apply app_assoc.
Qed.

Definition event_at (s : st) (i idx : nat) : Z * Z :=
  (pid (tcb_at s i), status (nth idx (tcb_wait_tab s) wd0)).

(** The events waiting to be handled: tracees and the statuses recorded. *)
Definition events (s : st) : list (Z * Z) :=
  map (fun i => event_at s i (wait_data_idx (tcb_at s i))) (pending_tcps s)
  ++ match extra_tcp s with Some e => [event_at s e (wait_extra_data_idx s)] | None => [] end.

(** Between two waits: the records stay and nothing is reported. *)
Definition calm (s s' : st) : Prop :=
  tcb_wait_tab s' = tcb_wait_tab s /\ popen_pid s' = popen_pid s
  /\ exists h, requests s' = requests s ++ h /\ reports h = [].

#[export] Instance calm_step : StepRel calm.
Proof.
  split; unfold calm.
  - intros s. do 2 (split; [done|]). exists []. by rewrite app_nil_r.
  - intros s1 s2 s3 (-> & -> & h & -> & E1) (-> & -> & h' & -> & E2).
    do 2 (split; [done|]). exists (h ++ h'). by rewrite app_assoc, reports_app, E1, E2.
Qed.

Lemma calm_ask q : (forall b, q <> Wait4 b) -> keeps calm (ask q).
Proof.
  intros Hq s a s'. unfold ask. destruct (answer q _) as [r k]. intros [= <- <-].
  do 2 (split; [done|]). exists [(q, r)]. split; [done|]. destruct q; try done. by destruct (Hq nohang).
Qed.

Lemma calm_modify f :
  (forall s, tcb_wait_tab (f s) = tcb_wait_tab s /\ popen_pid (f s) = popen_pid s
             /\ requests (f s) = requests s) -> keeps calm (modify f).
Proof.
  intros Hf. apply keeps_modify. intros s. unfold calm. destruct (Hf s) as (-> & -> & ->).
  do 2 (split; [done|]). exists []. by rewrite app_nil_r.
Qed.

Ltac calm_frame :=
  repeat first
    [ apply keeps_bind; [|intros ?] | apply keeps_ret | apply keeps_gets | apply keeps_die
    | apply keeps_when | (apply calm_ask; done) | (apply calm_modify; done)
    | match goal with |- keeps _ (match ?x with _ => _ end) => destruct x end ].

Lemma calm_classify i p x : keeps calm (classify i p x).
Proof. unfold classify, get_tcb, upd_tcb. calm_frame. Qed.
Lemma calm_pid2tcb p : keeps calm (pid2tcb p).
Proof. unfold pid2tcb. calm_frame. Qed.
Lemma calm_expand : keeps calm expand_tcbtab.
Proof.
  intros s a s'. unfold expand_tcbtab. destruct (xgrowarray _ _ _ _); [|done]. intros [= <- <-].
  do 2 (split; [done|]). exists []. by rewrite app_nil_r.
Qed.
Lemma calm_maybe_allocate p x : keeps calm (maybe_allocate_tcb p x).
Proof.
  unfold maybe_allocate_tcb, alloctcb, after_successful_attach, upd_tcb.
  calm_frame; try apply calm_expand.
Qed.

Lemma events_queued s s' :
  same_queued s s' -> tcb_wait_tab s' = tcb_wait_tab s -> extra_tcp s = None ->
  extra_tcp s' = None -> events s' = events s.
Proof.
  intros [Ep Hk] Et Ex Ex'. unfold events. rewrite Ex, Ex', Ep, !app_nil_r.
  apply map_ext_in. intros i Hi%list_elem_of_In. unfold event_at. rewrite Et.
  by pose proof (Hk i Hi) as [= -> ->].
Qed.

Lemma classify_status i p x s wd s' : classify i p x s = Done wd s' -> status wd = x.
Proof.
  unfold classify. intros H.
  repeat first
    [ match type of H with (if ?c then _ else _) _ = _ => destruct c end
    | progress run_get H | (injection H as <- _; done) | run_step H H1 ].
Qed.

Lemma store_nth pos wd tab j :
  nth j (<[pos := wd]> (tab ++ replicate (S pos - length tab) wd0)) wd0
  = if (j =? pos)%nat then wd else nth j tab wd0.
Proof.
  rewrite nth_lookup. destruct (Nat.eqb_spec j pos) as [->|Hne].
  - rewrite list_lookup_insert_eq; [done|]. rewrite length_app, length_replicate. lia.
  - rewrite list_lookup_insert_ne by done. rewrite nth_lookup.
    destruct (decide (j < length tab)%nat).
    + by rewrite lookup_app_l.
    + rewrite lookup_app_r, (lookup_ge_None_2 tab) by lia.
      destruct (replicate _ wd0 !! _) as [t|] eqn:Er; [|done].
      apply lookup_replicate in Er as [-> _]. done.
Qed.

Lemma queue_events i pos wd s u s1 u' s2 p :
  store_wait_data pos wd s = Done u s1 -> queue_event i pos s1 = Done u' s2 ->
  indexed s -> extra_tcp s = None -> pos = length (pending_tcps s) -> pids s !! i = Some p ->
  events s2 = events s ++ [(p, status wd)].
Proof.
  intros Hs H Hidx Hex Hpos Hi.
  assert (Hp : pid (tcb_at s i) = p) by (rewrite tcb_at_pid, Hi; done).
  assert (Hlt : (i < length (tcbtab s))%nat).
  { apply lookup_lt_Some in Hi. unfold pids in Hi. by rewrite length_map in Hi. }
  assert (Hold : forall k, k ∈ pending_tcps s -> (wait_data_idx (tcb_at s k) =? pos)%nat = false).
  { intros k [j Hj]%list_elem_of_lookup_1. rewrite (Hidx j k Hj).
    apply lookup_lt_Some in Hj. apply Nat.eqb_neq. lia. }
  assert (E1 : tcbtab s1 = tcbtab s /\ pending_tcps s1 = pending_tcps s /\ extra_tcp s1 = None
    /\ forall j, nth j (tcb_wait_tab s1) wd0 = if (j =? pos)%nat then wd else nth j (tcb_wait_tab s) wd0).
  { unfold store_wait_data, modify in Hs. injection Hs as _ <-. do 3 (split; [done|]).
    intros j. apply store_nth. }
  destruct E1 as (Et & Eq & Ex & En).
  assert (Eat : forall k, tcb_at s1 k = tcb_at s k) by (intros k; unfold tcb_at; by rewrite Et).
  unfold queue_event, modify in H. rewrite Eq in H. unfold events at 2. rewrite Hex, app_nil_r.
  destruct (existsb (Nat.eqb i) (pending_tcps s)) eqn:E; injection H as _ <-;
    unfold events, event_at; simpl.
  - rewrite Eq. f_equal.
    + apply map_ext_in. intros k Hk%list_elem_of_In.
      change (tcb_at (set_wait_extra_data_idx _ _) k) with (tcb_at s1 k).
      by rewrite En, Eat, (Hold k Hk).
    + change (tcb_at (set_wait_extra_data_idx _ _) i) with (tcb_at s1 i).
      by rewrite En, Nat.eqb_refl, Eat, Hp.
  - set (s2 := set_pending_tcps _ _).
    assert (E2 : forall k, tcb_at s2 k = if (k =? i)%nat then set_wait_data_idx pos (tcb_at s i) else tcb_at s k).
    { intros k. change (tcb_at s2 k) with (tcb_at (set_tcbtab (alter (set_wait_data_idx pos) i (tcbtab s1)) s1) k).
      destruct (Nat.eqb_spec k i) as [->|Hne].
      - rewrite tcb_at_alter_eq by by rewrite Et. by rewrite Eat.
      - rewrite tcb_at_alter_ne by done. apply Eat. }
    rewrite Ex, app_nil_r, map_app. cbn [map]. rewrite E2, Nat.eqb_refl, En. cbn [wait_data_idx set_wait_data_idx].
    rewrite Nat.eqb_refl. f_equal; [|by rewrite <- Hp].
    apply map_ext_in. intros k Hk%list_elem_of_In. rewrite E2.
    replace (k =? i)%nat with false; [by rewrite En, (Hold k Hk)|]. symmetry. apply Nat.eqb_neq.
    intros ->. apply not_true_iff_false in E. apply E, existsb_exists. exists i.
    split; [by apply list_elem_of_In|apply Nat.eqb_refl].
Qed.

(** One report about the tracee [i]: from the record to the queue. *)
Lemma record_event i r pos s u s3 wd s4 u' s5 u'' s6 :
  when (negb (cflag =? 0)) (upd_tcb i (set_stime (rtime r))) s = Done u s3 ->
  classify i (rc r) (wstatus r) s3 = Done wd s4 ->
  store_wait_data pos wd s4 = Done u' s5 -> queue_event i pos s5 = Done u'' s6 ->
  inv s -> indexed s -> extra_tcp s = None -> pos = length (pending_tcps s) ->
  pids s !! i = Some (rc r) -> rc r <> 0 ->
  inv s6 /\ collected s6 /\ (extra_tcp s6 = None -> length (pending_tcps s6) = S pos)
  /\ events s6 = events s ++ [(rc r, wstatus r)] /\ pids s6 = pids s /\ popen_pid s6 = popen_pid s
  /\ exists h, requests s6 = requests s ++ h /\ reports h = [].
Proof.
  intros Hst Hcl Hsd Hqe Hinv Hidx Hex Hpos Hi Hnz.
  assert (Hcalm : calm s s4).
  { eapply frame_trans; [|by eapply calm_classify].
    destruct (negb (cflag =? 0)); injection Hst as _ <-; [|apply frame_refl].
    do 2 (split; [done|]). exists []. by rewrite app_nil_r. }
  pose proof (classify_status _ _ _ _ _ _ Hcl) as Est.
  assert (H4 : same_queue s s4 /\ same_core s s4).
  { pose proof Hst as Hst'. pose proof Hcl as Hcl'.
    queue_of Hst. queue_of Hcl. core_of Hst'. core_of Hcl'.
    split; (eapply frame_trans; eassumption). }
  destruct H4 as [Hq4 Hc4]. assert (Hi4 : inv s4) by by eapply inv_core.
  assert (Hd4 : indexed s4) by by eapply indexed_queue.
  assert (Ev4 : events s4 = events s).
  { apply events_queued; [by apply same_queue_queued|apply Hcalm|done|]. by destruct Hq4 as (_ & -> & _). }
  destruct Hc4 as (Ep4 & _ & Eq4 & Ee4). rewrite Hex in Ee4.
  assert (Hev : events s6 = events s ++ [(rc r, wstatus r)]).
  { rewrite <- Ev4, <- Est. eapply queue_events; try eassumption; congruence. }
  pose proof Hsd as Hsd'. pose proof Hsd as Hsd''. core_of Hsd. queue_of Hsd'.
  assert (Hi5 : inv s5) by by eapply inv_core. destruct Hsd as (Ep5 & _ & Eq5 & Ee5).
  assert (Hx5 : pids s5 !! i = Some (rc r)) by (by rewrite Ep5, Ep4).
  pose proof Hqe as Hqe'. pose proof Hqe as Hqe''. eapply inv_queue_event in Hqe'; [|done|exact Hx5|done].
  eapply queue_event_indexed in Hqe as [Hcol Hlen]; [|by eapply indexed_queue|congruence|congruence|exact Hx5].
  do 4 (split; [done|]).
  assert (H6 : pids s6 = pids s5 /\ popen_pid s6 = popen_pid s5 /\ requests s6 = requests s5).
  { unfold queue_event, modify in Hqe''. injection Hqe'' as _ <-. destruct (existsb _ _); [done|].
    split; [|done]. unfold pids. simpl. by apply map_alter. }
  destruct H6 as (-> & -> & ->). unfold store_wait_data, modify in Hsd''. injection Hsd'' as _ <-.
  destruct Hcalm as (_ & Ho & Hr). split; [by rewrite Ep5|]. by split.
Qed.

(** The reports about tracees: stops (of new tracees too), and ends of the
    processes [K]; the logger of [-o |cmd] is no tracee. *)
Definition of_tracee (K : Z -> bool) (popen : Z) (e : Z * Z) : bool :=
  negb (fst e =? popen) && (WIFSTOPPED (snd e) || K (fst e)).

(** The run from [s] to [s'] accounts for the reports about tracees: those of
    [r] and of the waits made. *)
Definition accounted (K : Z -> bool) (s : st) (r : reply) (s' : st) : Prop :=
  collected s' /\ exists h, requests s' = requests s ++ h
    /\ List.filter (of_tracee K (popen_pid s)) (events s')
       = List.filter (of_tracee K (popen_pid s)) (events s ++ report r ++ reports h).

Lemma accounted_stop K s r s' :
  indexed s -> extra_tcp s = None ->
  same_queue s s' -> tcb_wait_tab s' = tcb_wait_tab s -> requests s' = requests s ->
  List.filter (of_tracee K (popen_pid s)) (report r) = [] -> accounted K s r s'.
Proof.
  intros Hidx Hex Hs Ht Hr Hrep. split.
  - split; [by eapply indexed_queue|]. destruct Hs as (_ & -> & _). congruence.
  - exists []. rewrite Hr, app_nil_r. split; [done|]. cbn [reports].
    rewrite app_nil_r, List.filter_app, Hrep, app_nil_r. f_equal.
    apply events_queued; [by apply same_queue_queued|done..|]. by destruct Hs as (_ & -> & _).
Qed.

(** A report handled in the run from [s] to [s1], then a wait with reply [r']. *)
Lemma accounted_next K s r s1 r' s2 s' h :
  requests s1 = requests s ++ h -> reports h = [] -> popen_pid s1 = popen_pid s ->
  List.filter (of_tracee K (popen_pid s)) (events s1)
  = List.filter (of_tracee K (popen_pid s)) (events s ++ report r) ->
  ask (Wait4 true) s1 = Done r' s2 -> accounted K s2 r' s' -> accounted K s r s'.
Proof.
  intros Er Eh Ep Ev Ha [Hcol (h2 & Er2 & Ev2)]. split; [done|].
  unfold ask in Ha. destruct (answer _ _) as [rr k]. injection Ha as -> <-. simpl in Er2, Ev2.
  exists (h ++ [(Wait4 true, r')] ++ h2). rewrite Er2, Er, <- !app_assoc. split; [done|].
  rewrite !reports_app, Eh. cbn [app reports]. rewrite app_nil_r.
  rewrite <- Ep. rewrite Ev2. change (events (set_requests _ _)) with (events s1).
  rewrite (app_assoc (events s)), List.filter_app, !List.filter_app. rewrite Ep. f_equal.
  by rewrite Ev, List.filter_app.
Qed.

Lemma elem_pids q s : q <> 0 -> q ∈ pids s <-> exists k, pid (tcb_at s k) = q.
Proof.
  intros Hq. rewrite list_elem_of_lookup. split.
  - intros [k Hk]. exists k. by rewrite tcb_at_pid, Hk.
  - intros [k Hk]. exists k. rewrite tcb_at_pid in Hk. destruct (pids s !! k); simpl in Hk; congruence.
Qed.

Lemma known_maybe_allocate p x s r s' q :
  maybe_allocate_tcb p x s = Done r s' -> q ∈ pids s -> q <> 0 -> q ∈ pids s'.
Proof.
  unfold maybe_allocate_tcb. intros H Hin Hq.
  destruct (negb (WIFSTOPPED x)); [|destruct followfork].
  - core_of H. by destruct H as (-> & _).
  - run_step H H1. run_step H H2. injection H as _ <-. core_of H2. destruct H2 as (-> & _).
    apply alloctcb_others in H1 as [_ Hk]. apply elem_pids in Hin as [k E]; [|done].
    apply elem_pids; [done|]. exists k. rewrite Hk; congruence.
  - core_of H. by destruct H as (-> & _).
Qed.

Lemma unknown_end p x s s' :
  maybe_allocate_tcb p x s = Done None s' -> followfork = true -> WIFSTOPPED x = false.
Proof.
  unfold maybe_allocate_tcb. intros H Hff. destruct (WIFSTOPPED x); [|done]. rewrite Hff in H.
  cbn [negb] in H. run_step H H1. run_step H H2. done.
Qed.

Lemma lookup_report r s known s1 tcp s2 :
  pid2tcb (rc r) s = Done known s1 ->
  (match known with Some i => mret (Some i) | None => maybe_allocate_tcb (rc r) (wstatus r) end) s1
  = Done tcp s2 ->
  inv s -> indexed s -> extra_tcp s = None -> 0 < rc r ->
  inv s2 /\ indexed s2 /\ extra_tcp s2 = None /\ pending_tcps s2 = pending_tcps s /\ calm s s2
  /\ events s2 = events s /\ (forall q, q ∈ pids s -> q <> 0 -> q ∈ pids s2)
  /\ match tcp with
     | Some i => pids s2 !! i = Some (rc r)
     | None => (rc r ∉ pids s) /\ (followfork = true -> WIFSTOPPED (wstatus r) = false)
     end.
Proof.
  intros Hk Ht Hinv Hidx Hex Hp. pose proof (calm_pid2tcb _ _ _ _ Hk) as Hcalm1.
  pose proof Hk as Hk'. queue_of Hk'. apply pid2tcb_done in Hk as (Hc & _ & Hk).
  assert (Hi1 : inv s1) by by eapply inv_core. assert (Hd1 : indexed s1) by by eapply indexed_queue.
  destruct Hc as (Ep & _ & Eq & Ee). rewrite Hex in Ee.
  assert (Ev1 : events s1 = events s).
  { apply events_queued; [by apply same_queue_queued|apply Hcalm1|done..]. }
  destruct known as [i|].
  - injection Ht as <- <-. rewrite Ep. destruct Hk as [_ Hk]. do 6 (split; [done|]). by split.
  - assert (Hnew : rc r ∉ pids s) by (destruct Hk; [lia|done]).
    pose proof (calm_maybe_allocate _ _ _ _ _ Ht) as Hcalm2.
    pose proof (queued_maybe_allocate _ _ _ _ _ Ht Hi1) as Hq2.
    pose proof Ht as Ht'. apply inv_maybe_allocate in Ht' as (Hi2 & Ex & Hx); [|done..|by rewrite Ep].
    rewrite Ee in Ex.
    assert (Ev2 : events s2 = events s1) by (apply events_queued; [done|apply Hcalm2|done..]).
    split; [done|]. split; [by eapply indexed_queued|]. split; [done|].
    split; [destruct Hq2 as [-> _]; done|]. split; [by eapply frame_trans|].
    split; [congruence|]. split.
    + intros q Hq Hq0. eapply known_maybe_allocate; [exact Ht| |done]. by rewrite Ep.
    + destruct tcp as [i|]; [done|]. split; [done|]. by eapply unknown_end.
Qed.

Lemma wait_loop_events K n r nohang pos s b s' :
  wait_loop n r nohang pos s = Done b s' -> inv s -> indexed s -> extra_tcp s = None ->
  pos = length (pending_tcps s) -> followfork = true ->
  (forall p, K p = true -> p ∈ pids s /\ p <> 0) -> accounted K s r s'.
Proof.
  revert r nohang pos s. induction n as [|n IH]; intros r nohang pos s H Hinv Hidx Hex Hpos Hff HK; [done|].
  assert (Hgo : forall s1 pos r' s2, inv s1 -> indexed s1 -> extra_tcp s1 = None ->
    pos = length (pending_tcps s1) -> (forall p, K p = true -> p ∈ pids s1 /\ p <> 0) ->
    ask (Wait4 true) s1 = Done r' s2 -> wait_loop n r' true pos s2 = Done b s' -> accounted K s2 r' s').
  { intros s1 pos1 r' s2 Hi1 Hd1 He1 Hp1 HK1 Ha Hn. pose proof Ha as Ha'. core_of Ha. queue_of Ha'.
    assert (inv s2) by by eapply inv_core. destruct Ha as (Ep & _ & Eq & Ee).
    eapply IH; [exact Hn|done|by eapply indexed_queue|congruence|congruence|done|]. by rewrite Ep. }
  cbn [wait_loop] in H. run_get H. run_get H.
  destruct (Z.ltb_spec (rc r) 0) as [|Hrc].
  { assert (Hr : report r = []) by (unfold report; by replace (0 <? rc r) with false by lia).
    assert (s' = s) as ->.
    { destruct (errno r =? EINTR); [by injection H|]. destruct nohang; [by injection H|].
      destruct (_ && _); [by injection H|done]. }
    apply accounted_stop; try done. by rewrite Hr. }
  destruct (Z.eqb_spec (rc r) 0) as [E0|Hnz].
  { injection H as _ <-. apply accounted_stop; try done. unfold report. by rewrite E0. }
  assert (Hrep : report r = [(rc r, wstatus r)]).
  { unfold report. by replace (0 <? rc r) with true by lia. }
  destruct (Z.eqb_spec (rc r) (popen_pid s)) as [Ep|Hpop].
  { apply bind_Done in H as (u & s1 & Hm & H). injection H as _ <-.
    destruct (negb (WIFSTOPPED _)); injection Hm as _ <-; (apply accounted_stop; try done);
      rewrite Hrep; unfold of_tracee; cbn; by rewrite Ep, Z.eqb_refl. }
  apply bind_Done in H as (known & s1 & Hk & H). apply bind_Done in H as (tcp & s2 & Ht & H).
  destruct (lookup_report _ _ _ _ _ _ Hk Ht) as (Hi2 & Hd2 & He2 & Hp2 & Hcalm & Ev2 & Hin & Hx); try done; try lia.
  destruct Hcalm as (_ & Eo & h & Er & Eh).
  assert (HK2 : forall p, K p = true -> p ∈ pids s2 /\ p <> 0).
  { intros p Hp. destruct (HK p Hp). split; [by apply Hin|done]. }
  destruct tcp as [i|].
  - apply bind_Done in H as (u & s3 & Hst & H). apply bind_Done in H as (wd & s4 & Hcl & H).
    apply bind_Done in H as (u' & s5 & Hsd & H). apply bind_Done in H as (u'' & s6 & Hqe & H).
    destruct (record_event i r pos s2 u s3 wd s4 u' s5 u'' s6)
      as (Hi6 & Hcol & Hlen & Ev6 & Ep6 & Eo6 & h' & Er6 & Eh'); try done; try congruence.
    rewrite Er, <- app_assoc in Er6. run_get H. destruct (extra_tcp s6) eqn:E6.
    + injection H as _ <-. split; [done|]. exists (h ++ h').
      split; [done|]. rewrite reports_app, Eh, Eh', Hrep, Ev6, Ev2. done.
    + apply bind_Done in H as (r' & s7 & Ha & H).
      eapply accounted_next with (h := h ++ h') (s1 := s6); [done| |congruence| |exact Ha|].
      * by rewrite reports_app, Eh, Eh'.
      * by rewrite Ev6, Ev2, Hrep.
      * eapply (Hgo s6); [done|apply Hcol|done| |by rewrite Ep6|exact Ha|exact H]. by rewrite Hlen.
  - apply bind_Done in H as (r' & s7 & Ha & H). destruct Hx as [Hnew Hns].
    eapply accounted_next with (s1 := s2); [done|done|congruence| |exact Ha|].
    + rewrite Ev2, List.filter_app, Hrep. cbn. unfold of_tracee at 3. cbn. rewrite Hns by done.
      destruct (K (rc r)) eqn:EK; [by destruct (HK _ EK)|]. by rewrite andb_false_r, app_nil_r.
    + eapply (Hgo s2); [done..| |done|exact Ha|exact H]. congruence.
Qed.


End queue.

(** ** Restarting the tracee *)

Section restart.
Context {MA : Machine} {OP : Options} {SY : Syscalls}.
Variable before : bool.

(** No request was made, and tcbs changed in their output fields only. *)
Definition quiet (s s' : st) : Prop :=
  requests s' = requests s /\ kernel s' = kernel s /\ interrupted s' = interrupted s
  /\ map okey (tcbtab s') = map okey (tcbtab s).

#[export] Instance quiet_out : OutRel quiet.
Proof.
  split; [split|..]; try done.
  - intros s1 s2 s3. unfold quiet. intros (-> & -> & -> & ->) (-> & -> & -> & ->). done.
  - intros i f s Hf. unfold quiet. simpl. do 3 (split; [done|]). by apply map_alter.
Qed.

Lemma quiet_tcb s s' i : quiet s s' -> okey (tcb_at s' i) = okey (tcb_at s i).
Proof.
  intros (_ & _ & _ & E). unfold tcb_at. change (okey tcb0) with (okey tcb0).
  rewrite <- (map_nth okey (tcbtab s') tcb0), <- (map_nth okey (tcbtab s) tcb0), E. done.
Qed.

(** The current tracee does not change. *)
Definition same_current (s s' : st) : Prop := current_tcp s' = current_tcp s.
#[export] Instance same_current_step : StepRel same_current.
Proof. split; unfold same_current; congruence. Qed.

Ltac cur_frame_step :=
  first
    [ apply keeps_bind; [|intros ?] | apply keeps_ret | apply keeps_gets | apply keeps_die
    | apply keeps_when | (apply keeps_modify; intros ?; reflexivity)
    | match goal with |- keeps _ (match ?x with _ => _ end) => destruct x end
    | assumption ].
Ltac cur_frame := repeat cur_frame_step.

Lemma cur_tprints str : keeps same_current (tprints_string str).
Proof. unfold tprints_string, fputs_tcb, fputs_stream, get_tcb, upd_tcb. cur_frame. Qed.
Lemma cur_line_ended : keeps same_current line_ended.
Proof. unfold line_ended, upd_tcb. cur_frame. Qed.
Lemma cur_prefix i : keeps same_current (print_leader_prefix i).
Proof.
  unfold print_leader_prefix, tprint_space, get_tcb.
  repeat first [apply cur_tprints | progress cur_frame_step].
Qed.

Lemma set_current_current i s a s' : set_current_tcp (Some i) s = Done a s' -> current_tcp s' = Some i.
Proof.
  unfold set_current_tcp. intros Hc. apply bind_Done in Hc as (u2 & s3 & Hm & Hc). injection Hm as _ <-.
  run_get Hc. revert Hc. generalize (currpers (tcb_at (Tcb.set_current_tcp (Some i) s) i)) as p.
  intros p. unfold set_personality. intros Hc. run_get Hc.
  destruct (_ =? _); [by injection Hc as _ <-|]. destruct (_ <=? _); [done|]. by injection Hc as _ <-.
Qed.

Lemma printleader_current i s a s' : printleader i s = Done a s' -> current_tcp s' = Some i.
Proof.
  unfold printleader. intros H. run_step H H1. run_get H. run_step H H2. run_step H H3.
  apply bind_Done in H as (u & s1 & Hc & H). apply bind_Done in H as (u' & s2 & Hu & H).
  apply cur_prefix in H. injection Hu as _ <-. rewrite H. simpl. by eapply set_current_current.
Qed.

Lemma print_line_current i str s a s' : print_line i str s = Done a s' -> current_tcp s' = Some i.
Proof.
  unfold print_line, tprint_newline. intros H. run_step H H1. run_step H H2. run_step H H3.
  apply printleader_current in H1. apply cur_tprints in H2. apply cur_tprints in H3.
  apply cur_line_ended in H. unfold same_current in *. congruence.
Qed.

Lemma print_stopped_quiet i b sig s a s' :
  print_stopped i b sig s = Done a s' -> current_tcp s = Some i ->
  quiet s s' /\ current_tcp s' = Some i.
Proof.
  intros H Hc. split.
  - match type of H with ?m _ = _ => refine ((_ : keeps quiet m) _ _ _ H) end.
    unfold print_stopped, print_line. frame.
  - unfold print_stopped in H. run_get H. destruct (_ && _ && _).
    + by eapply print_line_current.
    + by injection H as _ <-.
Qed.

Lemma ptrace_restart_requests op i sig s r s' :
  ptrace_restart op i sig s = Done r s' ->
  exists rep, requests s' = requests s ++ [(Ptrace op (pid (tcb_at s i)) sig, rep)]
    /\ r = if (errno rep =? 0) || (errno rep =? ESRCH) then 0 else -1.
Proof.
  unfold ptrace_restart. intros H. run_get H. apply bind_Done in H as (rep & s1 & Ha & H).
  assert (E : requests s1 = requests s ++ [(Ptrace op (pid (tcb_at s i)) sig, rep)]).
  { unfold ask in Ha. destruct (answer _ _). by injection Ha as <- <-. }
  exists rep. destruct (_ || _); [by injection H as <- <-|]. rewrite <- E.
  match type of H with ?m _ = _ => assert (K : keeps quiet m) by frame end.
  split; [by apply K in H as [-> _]|]. run_get H. run_step H H1. by injection H as <- _.
Qed.

(** The operation and the signal a stop event asks for; [op] is the default. *)
Definition expected_restart (wd : tcb_wait_data) (op : Z) : option (Z * Z) :=
  match te wd with
  | TE_RESTART => Some (op, 0)
  | TE_SIGNAL_DELIVERY_STOP => Some (op, WSTOPSIG (status wd))
  | TE_GROUP_STOP => Some (if use_seize then (PTRACE_LISTEN, 0) else (op, WSTOPSIG (status wd)))
  | _ => None
  end.

Definition default_restart (s : st) (i : nat) : Z :=
  if flag TCB_SECCOMP_FILTER (tcb_at s i)
  then seccomp_filter_restart_operator seccomp_config (exiting (tcb_at s i)) (scno (tcb_at s i))
         (current_personality s)
  else PTRACE_SYSCALL.

Lemma dispatch_switch_expected fuel i wd s d s' :
  dispatch_switch before fuel i wd (default_restart s i) s = Done d s' -> current_tcp s = Some i ->
  forall op sig, expected_restart wd (default_restart s i) = Some (op, sig) ->
  d = Restart op sig /\ quiet s s' /\ current_tcp s' = Some i.
Proof.
  unfold dispatch_switch, expected_restart. intros H Hc op sig He. destruct (te wd); try done.
  - injection He as <- <-. injection H as <- <-. split; [done|]. split; [apply frame_refl|done].
  - injection He as <- <-. run_step H H1. injection H as <- <-. split; [done|].
    by eapply print_stopped_quiet.
  - run_step H H1. injection H as <- <-. split; [by destruct use_seize; simplify_eq|].
    by eapply print_stopped_quiet.
Qed.

(** The options' state and the tcbs, but for their output fields, stay. *)
Definition steady (s s' : st) : Prop :=
  interrupted s' = interrupted s /\ map okey (tcbtab s') = map okey (tcbtab s).

#[export] Instance steady_out : OutRel steady.
Proof.
  split; [split|..]; try done.
  - intros s1 s2 s3. unfold steady. intros (-> & ->) (-> & ->). done.
  - intros i f s Hf. split; [done|]. by apply map_alter.
Qed.
#[export] Instance steady_ask : AskRel steady.
Proof. by split. Qed.

Lemma map_okey_at s s' i : map okey (tcbtab s') = map okey (tcbtab s) ->
  okey (tcb_at s' i) = okey (tcb_at s i).
Proof.
  intros E. unfold tcb_at. change (okey tcb0) with (okey tcb0).
  by rewrite <- (map_nth okey (tcbtab s') tcb0), <- (map_nth okey (tcbtab s) tcb0), E.
Qed.
Lemma map_okey_length s s' : map okey (tcbtab s') = map okey (tcbtab s) ->
  length (tcbtab s') = length (tcbtab s).
Proof. intros E. apply (f_equal length) in E. by rewrite !length_map in E. Qed.

Definition restarted (rep : reply) : bool := (errno rep =? 0) || (errno rep =? ESRCH).

Lemma dispatch_expected fuel wd s i op sig b s' :
  dispatch_event before fuel (Some wd) s = Done b s' ->
  current_tcp s = Some i -> interrupted s = 0 ->
  expected_restart wd (default_restart s i) = Some (op, sig) -> (i < length (tcbtab s))%nat ->
  if flag TCB_DELAYED (tcb_at s i)
  then b = true /\ requests s' = requests s /\ delayed_wait_data (tcb_at s' i) = Some wd
  else (exists rep, requests s' = requests s ++ [(Ptrace op (pid (tcb_at s i)) sig, rep)]
          /\ b = restarted rep)
       /\ steady s s'.
Proof.
  intros H Hc Hint He Hlt. unfold dispatch_event in H. run_get H. rewrite Hc in H.
  apply bind_Done in H as (op0 & s0 & Hop & H).
  assert (s0 = s /\ op0 = default_restart s i) as [-> ->].
  { unfold restart_operator in Hop. run_get Hop. run_get Hop. injection Hop as <- <-. done. }
  apply bind_Done in H as (d & s1 & Hd & H).
  eapply dispatch_switch_expected in Hd as (Ed & Hq & Hc1); [|done..]. subst d.
  pose proof (quiet_tcb _ _ i Hq) as Et. destruct Hq as (Er & _ & Ei & Em).
  assert (Ef : flags (tcb_at s1 i) = flags (tcb_at s i)) by apply (f_equal flags Et).
  assert (Ep : pid (tcb_at s1 i) = pid (tcb_at s i)) by apply (f_equal pid Et).
  pose proof (map_okey_length _ _ Em) as Hlen.
  unfold dispatch_restart in H. run_get H. run_get H.
  rewrite Ei, Hint, Hc1 in H. cbn [negb Z.eqb] in H. run_get H.
  unfold flag in *. rewrite Ef in H. destruct (has _ TCB_DELAYED).
  - apply bind_Done in H as (u & s2 & Hu & H). injection Hu as _ <-. injection H as <- <-.
    split; [done|]. split; [done|]. rewrite tcb_at_alter_eq; [done|lia].
  - apply bind_Done in H as (rr & s2 & Hr & H).
    assert (Hs2 : steady s s2).
    { eapply frame_trans; [split; [exact Ei|exact Em]|].
      assert (K : keeps steady (ptrace_restart op i sig)) by frame. by eapply K. }
    apply ptrace_restart_requests in Hr as (rep & Hr & ->). rewrite Er, Ep in Hr.
    unfold restarted. destruct (_ || _) eqn:Eok; cbn [Z.ltb Z.compare] in H.
    + injection H as <- <-. split; [|done]. exists rep. by rewrite Eok.
    + apply bind_Done in H as (u & s3 & Hu & H). injection Hu as _ <-. injection H as <- <-.
      split; [|done]. exists rep. by rewrite Eok.
Qed.


(** ** Delayed tracees *)

Lemma restart_delayed_spec fuel i s b s' :
  restart_delayed_tcb before fuel i s = Done b s' -> interrupted s = 0 -> (i < length (tcbtab s))%nat ->
  (exists op rep, requests s' = requests s ++ [(Ptrace op (pid (tcb_at s i)) 0, rep)]
     /\ b = restarted rep)
  /\ flag TCB_DELAYED (tcb_at s' i) = false /\ interrupted s' = 0 /\ current_tcp s' = current_tcp s
  /\ length (tcbtab s') = length (tcbtab s)
  /\ forall k, k <> i -> okey (tcb_at s' k) = okey (tcb_at s k).
Proof.
  intros H Hint Hlt. unfold restart_delayed_tcb in H. run_get H.
  apply bind_Done in H as (? & sa & Hu & H). injection Hu as _ <-. run_get H.
  apply bind_Done in H as (? & sb & Hu & H). injection Hu as _ <-.
  apply bind_Done in H as (b' & s3 & Hd & H). apply bind_Done in H as (? & sc & Hu & H).
  injection Hu as _ <-. apply bind_Done in H as (? & sd & Hu & H). injection Hu as _ <-.
  injection H as <- <-.
  set (s1 := set_tcbtab (alter (flag_off TCB_DELAYED) i (tcbtab s)) s) in *.
  assert (E1 : tcb_at s1 i = flag_off TCB_DELAYED (tcb_at s i)) by by apply tcb_at_alter_eq.
  assert (Hl1 : length (tcbtab s1) = length (tcbtab s)) by apply length_alter.
  set (s2 := Tcb.set_current_tcp (Some i) s1) in *.
  assert (Hoff : flag TCB_DELAYED (tcb_at s2 i) = false).
  { change (tcb_at s2 i) with (tcb_at s1 i). rewrite E1. apply flag_off_sub. reflexivity. }
  eapply dispatch_expected in Hd; [|done|exact Hint|reflexivity|by rewrite <- Hl1 in Hlt].
  rewrite Hoff in Hd. destruct Hd as [(rep & Er & ->) [Ei Em]].
  pose proof (map_okey_length _ _ Em) as Hl3.
  change (length (tcbtab s2)) with (length (tcbtab s1)) in Hl3. rewrite Hl1 in Hl3.
  change (tcb_at s2 i) with (tcb_at s1 i) in Er. rewrite E1 in Er.
  split; [eexists _, rep; split; [exact Er|done]|]. simpl. rewrite length_alter.
  split; [|split; [by rewrite Ei|split; [done|split]]].
  - match goal with |- flag _ ?t = _ =>
      assert (E : t = set_delayed_wait_data None (tcb_at s3 i)) end.
    { apply (tcb_at_alter_eq _ i (Tcb.set_current_tcp _ s3)). simpl. lia. }
    rewrite E. unfold flag in *. simpl. rewrite <- Hoff. f_equal.
    apply (f_equal flags (map_okey_at _ _ i Em)).
  - exact Hl3.
  - intros k Hk. etransitivity; [|etransitivity; [exact (map_okey_at _ _ k Em)|]].
    + f_equal. apply (tcb_at_alter_ne _ i k (Tcb.set_current_tcp _ s3)). congruence.
    + f_equal. apply (tcb_at_alter_ne _ i k s). congruence.
Qed.

Definition expires (s : st) (k : nat) : timespec := delay_expiration_time (tcb_at s k).
Definition delayed (s : st) (k : nat) : bool :=
  negb (pid (tcb_at s k) =? 0) && flag TCB_DELAYED (tcb_at s k).
Definition expired (now : timespec) (s : st) (k : nat) : bool :=
  delayed s k && (0 <? ts_cmp now (expires s k)).
Definition waiting (now : timespec) (s : st) (k : nat) : bool :=
  delayed s k && negb (0 <? ts_cmp now (expires s k)).

Lemma okey_delay s s' k :
  okey (tcb_at s' k) = okey (tcb_at s k) -> delayed s' k = delayed s k /\ expires s' k = expires s k.
Proof.
  intros E. unfold delayed, expires, flag.
  rewrite (f_equal pid E : pid (tcb_at s' k) = pid (tcb_at s k)).
  rewrite (f_equal flags E : flags (tcb_at s' k) = flags (tcb_at s k)).
  by rewrite (f_equal delay_expiration_time E
       : delay_expiration_time (tcb_at s' k) = delay_expiration_time (tcb_at s k)).
Qed.

(** The tracee that expires first: [next], or one of a list. *)
Definition earlier (s : st) (next : option nat) (k : nat) : option nat :=
  match next with
  | None => Some k
  | Some j => if 0 <? ts_cmp (expires s j) (expires s k) then Some k else Some j
  end.

Lemma fold_earlier_ext s s' l next :
  (forall k, k ∈ l \/ next = Some k -> expires s' k = expires s k) ->
  fold_left (earlier s') l next = fold_left (earlier s) l next.
Proof.
  revert next. induction l as [|k l IH]; intros next H; [done|]. cbn [fold_left].
  assert (E : earlier s' next k = earlier s next k).
  { unfold earlier. destruct next as [j|]; [|done].
    rewrite (H j), (H k); [done|left; apply list_elem_of_here|by right]. }
  rewrite E. apply IH. intros m [Hm|Hm]; apply H; [left; by apply list_elem_of_further|].
  unfold earlier in Hm. destruct next as [j|]; [destruct (0 <? _)|]; injection Hm as <-;
    (by right) || (left; apply list_elem_of_here).
Qed.

Lemma ts_cmp_le_trans a b c : ts_cmp a b <= 0 -> ts_cmp b c <= 0 -> ts_cmp a c <= 0.
Proof.
  destruct a, b, c. unfold ts_cmp. simpl.
  repeat match goal with |- context [if ?x then _ else _] => destruct x eqn:? end; lia.
Qed.
Lemma ts_cmp_flip a b : 0 < ts_cmp a b -> ts_cmp b a <= 0.
Proof.
  destruct a, b. unfold ts_cmp. simpl.
  repeat match goal with |- context [if ?x then _ else _] => destruct x eqn:? end; lia.
Qed.

Lemma ts_cmp_refl_le a : ts_cmp a a <= 0.
Proof. unfold ts_cmp. by rewrite !Z.ltb_irrefl, andb_false_r. Qed.

Lemma fold_earlier_min s l next :
  match fold_left (earlier s) l next with
  | None => next = None /\ l = []
  | Some m => (m ∈ l \/ next = Some m)
              /\ forall k, k ∈ l \/ next = Some k -> ts_cmp (expires s m) (expires s k) <= 0
  end.
Proof.
  revert next. induction l as [|k l IH]; intros next; cbn [fold_left].
  - destruct next as [j|]; [|done]. split; [by right|]. intros k [Hk|[= <-]]; [by apply not_elem_of_nil in Hk|].
    apply ts_cmp_refl_le.
  - specialize (IH (earlier s next k)). destruct (fold_left _ _ _) as [m|].
    + destruct IH as [Hm Hmin].
      assert (He : match earlier s next k with
                   | Some e => (e = k \/ next = Some e) /\ ts_cmp (expires s e) (expires s k) <= 0
                       /\ forall j, next = Some j -> ts_cmp (expires s e) (expires s j) <= 0
                   | None => False end).
      { unfold earlier. destruct next as [j|]; [destruct (Z.ltb_spec 0 (ts_cmp (expires s j) (expires s k)))|].
        - split; [by left|]. split; [apply ts_cmp_refl_le|]. intros ? [= <-]. by apply ts_cmp_flip.
        - split; [by right|]. split; [lia|]. intros ? [= <-]. apply ts_cmp_refl_le.
        - split; [by left|]. split; [apply ts_cmp_refl_le|done]. }
      destruct (earlier s next k) as [e|]; [|done]. destruct He as (He & Hk & Hj).
      assert (Hme : ts_cmp (expires s m) (expires s e) <= 0) by (apply Hmin; by right). split.
      * destruct Hm as [Hm|[= <-]]; [left; by apply list_elem_of_further|].
        destruct He as [->| ->]; [left; apply list_elem_of_here|by right].
      * intros j [[->|Hin]%elem_of_cons|Hn].
        -- by eapply ts_cmp_le_trans.
        -- apply Hmin. by left.
        -- eapply ts_cmp_le_trans; [exact Hme|by apply Hj].
    + destruct IH as [E _]. unfold earlier in E. destruct next; [|done]. by destruct (0 <? _).
Qed.

(** The requests [rs] restart the tracees [l] without a signal. *)
Definition restarts (s : st) (l : list nat) (rs : list (request * reply)) : Prop :=
  Forall2 (fun k qr => (exists op, fst qr = Ptrace op (pid (tcb_at s k)) 0)
                       /\ restarted (snd qr) = true) l rs.

Lemma restarts_ext s s' l rs :
  (forall k, k ∈ l -> okey (tcb_at s' k) = okey (tcb_at s k)) -> restarts s' l rs -> restarts s l rs.
Proof.
  intros Hl H. induction H as [|k qr l rs Hk H IH]; constructor.
  - rewrite <- (f_equal pid (Hl k (list_elem_of_here _ _))
      : pid (tcb_at s' k) = pid (tcb_at s k)). done.
  - apply IH. intros m Hm. apply Hl. by apply list_elem_of_further.
Qed.

(** The effect of the loop over the entries [i], ..., [i + n - 1]. *)
Record loop_effect (now : timespec) (i n : nat) (next : option nat) (s : st)
    (rs : list (request * reply)) (next' : option nat) (s' : st) : Prop := {
  le_requests : requests s' = requests s ++ rs;
  le_restarts : restarts s (List.filter (expired now s) (seq i n)) rs;
  le_next : next' = fold_left (earlier s) (List.filter (waiting now s) (seq i n)) next;
  le_interrupted : interrupted s' = 0;
  le_length : length (tcbtab s') = length (tcbtab s);
  le_same k : ~ ((i <= k < i + n)%nat /\ expired now s k = true) ->
    okey (tcb_at s' k) = okey (tcb_at s k);
  le_done k : (i <= k < i + n)%nat -> expired now s k = true -> delayed s' k = false;
}.

Lemma filter_seq_ext (f g : nat -> bool) i n :
  (forall k, (i <= k)%nat -> f k = g k) -> List.filter f (seq i n) = List.filter g (seq i n).
Proof. intros H. apply List.filter_ext_in. intros k Hk%in_seq. apply H. lia. Qed.

(** An entry that is not restarted. *)
Lemma loop_effect_skip now i n next next1 s rs next' s' :
  expired now s i = false -> next1 = (if waiting now s i then earlier s next i else next) ->
  loop_effect now (S i) n next1 s rs next' s' -> loop_effect now i (S n) next s rs next' s'.
Proof.
  intros He -> [Hr Hs Hn Hi Hl Hsame Hdone]. split; try done; cbn [seq List.filter].
  - by rewrite He.
  - rewrite Hn. by destruct (waiting now s i).
  - intros k Hk. apply Hsame. intros [? ?]. apply Hk. split; [lia|done].
  - intros k Hk Hx. apply Hdone; [|done]. destruct (decide (k = i)) as [->|]; [congruence|lia].
Qed.

(** An entry that is restarted, in the run from [s] to [s1]. *)
Lemma loop_effect_restart now i n next s qr s1 rs next' s' :
  expired now s i = true -> (forall j, next = Some j -> (j < i)%nat) ->
  requests s1 = requests s ++ [qr] ->
  (exists op, fst qr = Ptrace op (pid (tcb_at s i)) 0) -> restarted (snd qr) = true ->
  flag TCB_DELAYED (tcb_at s1 i) = false -> length (tcbtab s1) = length (tcbtab s) ->
  (forall k, k <> i -> okey (tcb_at s1 k) = okey (tcb_at s k)) ->
  loop_effect now (S i) n next s1 rs next' s' -> loop_effect now i (S n) next s (qr :: rs) next' s'.
Proof.
  intros He Hnext Hr1 Hop Hok Hfl Hl1 Hk1 [Hr Hs Hn Hi Hl Hsame Hdone].
  assert (Hd : forall k, (S i <= k)%nat -> expired now s1 k = expired now s k
                                      /\ waiting now s1 k = waiting now s k).
  { intros k Hk. destruct (okey_delay s s1 k) as [E1 E2]; [apply Hk1; lia|].
    unfold expired, waiting. by rewrite E1, E2. }
  split; try done; cbn [seq List.filter].
  - by rewrite Hr, Hr1, <- app_assoc.
  - rewrite He. constructor; [done|].
    rewrite (filter_seq_ext (expired now s1) (expired now s)) in Hs by (intros k Hk; by apply Hd).
    eapply restarts_ext; [|exact Hs]. intros k [Hk%in_seq _]%list_elem_of_In%filter_In.
    apply Hk1. lia.
  - replace (waiting now s i) with false.
    + rewrite Hn, (filter_seq_ext (waiting now s1) (waiting now s)) by (intros k Hk; by apply Hd).
      apply fold_earlier_ext. intros k Hk. apply okey_delay, Hk1. intros ->. destruct Hk as [Hk|Hk].
      * apply list_elem_of_In, filter_In in Hk as [Hk%in_seq _]. lia.
      * apply Hnext in Hk. lia.
    + unfold expired in He. unfold waiting. apply andb_true_iff in He as [-> ->]. done.
  - congruence.
  - intros k Hk. destruct (decide (k = i)) as [->|Hne]; [exfalso; apply Hk; split; [lia|done]|].
    rewrite <- (Hk1 k Hne). apply Hsame. intros [? Hx]. apply Hk. split; [lia|].
    by rewrite <- (proj1 (Hd k ltac:(lia))).
  - intros k Hk Hx. destruct (decide (k = i)) as [->|Hne].
    + assert (E : okey (tcb_at s' i) = okey (tcb_at s1 i)) by (apply Hsame; lia).
      rewrite (proj1 (okey_delay _ _ _ E)). unfold delayed. by rewrite Hfl, andb_false_r.
    + apply Hdone; [lia|]. by rewrite (proj1 (Hd k ltac:(lia))).
Qed.

Lemma restart_delayed_loop_spec fuel now n i next s next' s' :
  restart_delayed_loop before fuel now n i next s = Done (Some next') s' ->
  interrupted s = 0 -> (i + n <= length (tcbtab s))%nat -> (forall j, next = Some j -> (j < i)%nat) ->
  exists rs, loop_effect now i n next s rs next' s'.
Proof.
  revert i next s. induction n as [|n IH]; intros i next s H Hint Hlen Hnext; cbn [restart_delayed_loop] in H.
  { injection H as <- <-. exists []. split; try done; [by rewrite app_nil_r|constructor|lia]. }
  run_get H. fold (delayed s i) in H. fold (expires s i) in H.
  destruct (delayed s i) eqn:Ed.
  - destruct (0 <? ts_cmp now (expires s i)) eqn:Ec.
    + apply bind_Done in H as (ok & s1 & Hr & H). destruct ok; [|done].
      apply restart_delayed_spec in Hr as ((op & rep & Er & Eok) & Hfl & Hi1 & _ & Hl1 & Hk1); [|done|lia].
      apply IH in H as [rs Hrs]; [|done|lia|intros j Hj; apply Hnext in Hj; lia].
      exists ((Ptrace op (pid (tcb_at s i)) 0, rep) :: rs).
      eapply loop_effect_restart; try done; [|by eexists]. unfold expired. by rewrite Ed, Ec.
    + apply bind_Done in H as (e & s1 & He & H).
      assert (s1 = s /\ (if e : bool then Some i else next) = earlier s next i) as [-> En].
      { destruct next as [j|]; [run_get He|]; injection He as <- <-; [|done].
        split; [done|]. unfold earlier, expires. by destruct (0 <? _). }
      rewrite En in H. apply IH in H as [rs Hrs]; [|done|lia|].
      * exists rs. eapply loop_effect_skip; [| |exact Hrs]; unfold expired, waiting; by rewrite Ed, Ec.
      * intros j Hj. unfold earlier in Hj. destruct next as [x|];
          [destruct (0 <? ts_cmp (expires s x) (expires s i))|]; injection Hj as <-; [lia|specialize (Hnext x eq_refl); lia|lia].
  - apply IH in H as [rs Hrs]; [|done|lia|intros j Hj; apply Hnext in Hj; lia].
    exists rs. eapply loop_effect_skip; [| |exact Hrs]; unfold expired, waiting; by rewrite Ed.
Qed.

(** C7: the expiry of the delay timer: the delayed tracees whose time has come
    are restarted, each once and without a signal, and are delayed no more; the
    others stay delayed, and if there are any the timer is armed for the
    earliest of their expiry times. *)
Theorem delayed_tcbs_restarted fuel s s' :
  restart_delayed_tcbs before fuel s = Done true s' -> interrupted s = 0 ->
  let all := seq 0 (length (tcbtab s)) in
  exists clk rs arm,
    requests s' = requests s ++ (ClockMonotonic, clk) :: rs ++ arm
    /\ restarts s (List.filter (expired (rtime clk) s) all) rs
    /\ (forall k, delayed s' k = waiting (rtime clk) s k)
    /\ let rest := List.filter (waiting (rtime clk) s) all in
       if decide (rest = []) then arm = []
       else delay_timer_is_armed s' = true
            /\ exists m rep, m ∈ rest /\ arm = [(TimerSettime (expires s m), rep)]
                 /\ forall k, k ∈ rest -> ts_cmp (expires s m) (expires s k) <= 0.
Proof.
  intros H Hint. cbv zeta. unfold restart_delayed_tcbs in H.
  apply bind_Done in H as (clk & s1 & Ha & H). unfold ask in Ha. destruct (answer _ _) as [rr k].
  injection Ha as -> <-. run_get H. apply bind_Done in H as (next & s2 & Hl & H).
  destruct next as [next|]; [|done].
  apply restart_delayed_loop_spec in Hl as [rs [Hr Hs Hn Hi Hlen Hsame Hdone]]; [|done|simpl; lia|done].
  simpl in Hr, Hlen, Hsame, Hdone.
  set (s1 := set_requests _ _) in *. assert (Hat : forall k, tcb_at s1 k = tcb_at s k) by done.
  change (expired (rtime clk) s1) with (expired (rtime clk) s) in *.
  change (waiting (rtime clk) s1) with (waiting (rtime clk) s) in *.
  assert (Hdel : forall k, delayed s2 k = waiting (rtime clk) s k).
  { intros j. destruct (expired (rtime clk) s j) eqn:Ex.
    - transitivity false; [|unfold expired in Ex; unfold waiting; apply andb_true_iff in Ex as [-> ->]; done].
      apply Hdone; [|done]. split; [lia|].
      destruct (decide (j < length (tcbtab s))%nat); [done|]. exfalso.
      unfold expired, delayed, tcb_at in Ex. rewrite nth_overflow in Ex by lia. done.
    - assert (E : okey (tcb_at s2 j) = okey (tcb_at s j)) by (apply Hsame; intros [_ ?]; congruence).
      rewrite (proj1 (okey_delay _ _ _ E)). unfold expired in Ex. unfold waiting.
      destruct (delayed s j); [|done]. cbn [andb] in *. by rewrite Ex. }
  pose proof (fold_earlier_min s (List.filter (waiting (rtime clk) s) (seq 0 (length (tcbtab s)))) None) as Hmin.
  change (fold_left (earlier s) _ None) with (fold_left (earlier s1) (List.filter (waiting (rtime clk) s) (seq 0 (length (tcbtab s)))) None) in Hmin.
  rewrite <- Hn in Hmin. rewrite <- app_assoc in Hr.
  destruct next as [m|].
  - destruct Hmin as [[Hm|?] Hmin]; [|done].
    apply bind_Done in H as (u & s3 & Harm & H). injection H as <-.
    unfold arm_delay_timer in Harm. run_get Harm. unfold ask at 1 in Harm.
    apply bind_Done in Harm as (rep & s4 & Ha & Harm). destruct (answer _ _) as [rr k'].
    injection Ha as -> <-. destruct (negb _); [done|]. injection Harm as <- <-.
    assert (Em : okey (tcb_at s2 m) = okey (tcb_at s m)).
    { apply Hsame. intros [_ Hx]. apply list_elem_of_In, filter_In in Hm as [_ Hw].
      unfold expired in Hx. unfold waiting in Hw. apply andb_true_iff in Hx as [Hx1 Hx2].
      by rewrite Hx1, Hx2 in Hw. }
    exists clk, rs, [(TimerSettime (expires s2 m), rep)]. simpl. rewrite Hr.
    split; [by rewrite <- !app_assoc|]. split; [done|]. split; [done|].
    destruct (decide _) as [E|]; [rewrite E in Hm; by apply not_elem_of_nil in Hm|].
    split; [done|]. exists m, rep. rewrite (proj2 (okey_delay _ _ _ Em)). split; [done|]. split; [done|].
    intros j Hj. apply Hmin. by left.
  - destruct Hmin as [_ Hnil]. exists clk, rs, []. rewrite app_nil_r. injection H as <-.
    split; [done|]. split; [done|]. split; [done|]. by rewrite Hnil.
Qed.

(** An injected signal is lost when the call is delayed too: whatever
    signal [sig] the entering stop asks for, the tracee is not restarted at
    once, the event kept does not have the signal, and the restart after the
    delay is made with signal 0. *)
Theorem delayed_signal_lost fuel wd s i res sig s1 b s2 :
  current_tcp s = Some i -> te wd = TE_SYSCALL_STOP ->
  trace_syscall i 0 s = Done (res, sig) s1 -> 0 <= res ->
  current_tcp s1 = Some i -> interrupted s1 = 0 -> (i < length (tcbtab s1))%nat ->
  flag TCB_DELAYED (tcb_at s1 i) = true ->
  dispatch_event before fuel (Some wd) s = Done b s2 ->
  b = true /\ requests s2 = requests s1
  /\ forall b' s3, restart_delayed_tcb before fuel i s2 = Done b' s3 ->
       exists op rep, requests s3 = requests s2 ++ [(Ptrace op (pid (tcb_at s1 i)) 0, rep)].
Proof.
  intros Hc Hte Ht Hres Hc1 Hint Hlt Hfl H. unfold dispatch_event in H. run_get H. rewrite Hc in H.
  apply bind_Done in H as (op0 & s0 & Hop & H).
  assert (s0 = s) as ->.
  { unfold restart_operator in Hop. run_get Hop. run_get Hop. by injection Hop as <- <-. }
  apply bind_Done in H as (d & sd & Hd & H).
  unfold dispatch_switch in Hd. rewrite Hte in Hd. unfold dispatch_syscall_stop in Hd.
  apply bind_Done in Hd as (rs & s1' & Ht' & Hd). rewrite Ht in Ht'. injection Ht' as <- <-.
  cbn [fst snd] in Hd. replace (res <? 0) with false in Hd by lia. run_get Hd. injection Hd as <- <-.
  unfold dispatch_restart in H. run_get H. run_get H. rewrite Hint, Hc1 in H. cbn [negb Z.eqb] in H.
  run_get H. rewrite Hfl in H. apply bind_Done in H as (u & s2' & Hu & H).
  injection Hu as _ <-. injection H as <- <-. split; [done|]. split; [done|].
  intros b' s3 H3. apply restart_delayed_spec in H3 as ((op & rep & Er & _) & _); [|done|].
  - exists op, rep. by rewrite tcb_at_alter_eq in Er.
  - simpl. by rewrite length_alter.
Qed.

(** ** An event of a tcb that is gone *)

Lemma event_exit_current i s wd s' : event_exit i s = Done wd s' -> current_tcp s' = Some i.
Proof.
  unfold event_exit. intros H. run_step H H1. run_get H. run_step H H2. run_step H H3. run_get H.
  injection H as _ <-. by eapply set_current_current.
Qed.

(** C18: the extra event outlives its tcb: when the tcb [i] of a thread-group
    leader is dropped because another thread called execve, an extra event
    queued for it is not cancelled nor moved to the thread's tcb, and
    [next_event] makes the freed entry (pid 0, no output stream) the current
    tracee. *)
Theorem stale_extra_event fuel i th p q old s a s' :
  switch_tcbs i th p old s = Done a s' -> inv s -> extra_tcp s = Some i ->
  pids s !! i = Some p -> 0 < p -> pids s !! th = Some q -> q <> 0 -> i <> th ->
  extra_tcp s' = Some i /\ pids s' !! i = Some 0
  /\ forall wd s2, pending_tcps s' = [] -> next_event before fuel s' = Done (Some wd) s2 ->
       current_tcp s2 = Some i.
Proof.
  intros H Hinv Hx Hi Hp Hth Hq Hne. eapply inv_switch_tcbs in H as (_ & _ & H0 & Ex); try done.
  rewrite Hx in Ex. split; [done|]. split; [done|]. intros wd s2 Hnil Hn.
  unfold next_event in Hn. run_get Hn. run_get Hn. destruct (negb _); [done|].
  destruct (_ =? 0); [run_step Hn Hz; done|]. run_get Hn. rewrite Hnil in Hn. run_get Hn.
  rewrite Ex in Hn. run_step Hn H1. run_get Hn. run_step Hn H2. by eapply event_exit_current.
Qed.
End restart.
