(* ===== verification/Scenarios.v ===== *)
(** * Runs of the tracer on a scripted kernel

    A [Machine] that answers from a script, options and tables of a small
    x86-64 configuration, and whole runs of the event loop on them: the
    theorems of the other files applied to concrete states, and the runs that
    show where the loop does not do what it means to. *)

From stdpp Require Import gmap pretty.
From S2P Require Import Prelude NumberSet Wait Util Arena Seccomp Tcb Tracee Syscall Event EventFacts.
Open Scope Z_scope.

(** ** The scripted kernel *)

(** [waits]: the reports of the children in the order they are waited for,
    pid 0 when there is none for now; [infos]: the answers of
    PTRACE_GET_SYSCALL_INFO; [eventmsg]: of PTRACE_GETEVENTMSG. *)
Record script := mk_script {
  waits : list (Z * Z);
  infos : list syscall_info;
  eventmsg : Z;
  clock : Z;
}.

Definition r0 : reply := mk_reply 0 0 0 0 (mk_ts 0 0) sci_cleared.
Definition rc_is (n : Z) : reply := mk_reply n 0 0 0 (mk_ts 0 0) sci_cleared.

Definition scripted_wait (k : script) : reply * script :=
  match waits k with
  | [] => (mk_reply (-1) ECHILD 0 0 (mk_ts 0 0) sci_cleared, k)
  | (p, x) :: w => (mk_reply p 0 x 0 (mk_ts 0 0) sci_cleared, mk_script w (infos k) (eventmsg k) (clock k))
  end.

Definition scripted_answer (q : request) (k : script) : reply * script :=
  match q with
  | Wait4 _ | Waitpid _ => scripted_wait k
  | GetSyscallInfo _ =>
      match infos k with
      | [] => (mk_reply (-1) ESRCH 0 0 (mk_ts 0 0) sci_cleared, k)
      | i :: l => (mk_reply 32 0 0 0 (mk_ts 0 0) i, mk_script (waits k) l (eventmsg k) (clock k))
      end
  | Ptrace op _ _ =>
      if op =? PTRACE_GETEVENTMSG then (mk_reply 0 0 0 (eventmsg k) (mk_ts 0 0) sci_cleared, k) else (r0, k)
  | ClockMonotonic =>
      (mk_reply 0 0 0 0 (mk_ts (clock k) 0) sci_cleared,
       mk_script (waits k) (infos k) (eventmsg k) (clock k + 10))
  | ArchCheckScno _ | ArchGetSyscallArgs _ | TimerExpired => (rc_is 1, k)
  | _ => (r0, k)
  end.

#[export] Instance scripted : Machine := {| kstate := script; answer := scripted_answer |}.

(** ** The configuration: strace -f -o log *)

Definition full_set : option number_set := Some (mk_number_set [] 0 true).

#[export] Instance demo_options : Options := {|
  supported_personalities := 1; use_seize := true; followfork := true; cflag := CFLAG_NONE;
  Tflag := false; output_separately := false; outfname := true; print_pid_pfx := true;
  detach_on_execve := false; post_attach_sigstop := 0; syscall_trap_sig := 133;
  ptrace_setoptions := 0; os_release := 0x60000; acolumn := 40;
  quiet_set := None; signal_set := full_set; status_set := full_set;
  ptrace_op_str := fun _ => "PTRACE"; strerror := fun _ => "error";
  comm_text := fun _ => EmptyString; leader_suffix := fun _ => EmptyString;
|}.

(** Injections: call 1 gets its number changed to 39 and the value 7
    (syscall=getpid:retval=7), call 2 the error 5 (error=EIO), call 3 signal 10
    and a delay. *)
Definition demo_inject : list inject_opts :=
  let always := mk_inject_opts 1 INJECT_LAST_INF 1 in
  [mk_inject_opts 0 0 0 (mk_inject_data 0 0 0 0 0 0);
   always (mk_inject_data (Z.lor INJECT_F_RETVAL INJECT_F_SYSCALL) 0 0 0 0 39);
   always (mk_inject_data INJECT_F_ERROR 0 1 0 0 0);
   always (mk_inject_data (Z.lor INJECT_F_SIGNAL INJECT_F_DELAY_ENTER) 10 0 0 0 0)].

Definition demo_name (nr : Z) : string :=
  if nr =? 1 then "write" else if nr =? 2 then "open" else if nr =? 3 then "close"
  else if nr =? 59 then "execve" else "call".

#[export] Instance demo_syscalls : Syscalls := {|
  seccomp_config := mk_config [mk_audit 0xc000003e 0] [100] (fun _ _ => 0) None None 0;
  sysent_vec := fun _ nr => Some (mk_sysent 1 0 nr (demo_name nr));
  qual_flags := fun _ nr => if nr <=? 3 then Z.lor DEFAULT_QUAL_FLAGS QUAL_INJECT else DEFAULT_QUAL_FLAGS;
  shuffle_scno := fun nr => nr;
  is_exec := fun n => n =? 59;
  SEN_restart_syscall := 219;
  sys_func := fun _ t => if entering t then ("args", 0) else (EmptyString, 0);
  printargs := fun _ => (EmptyString, 0);
  render_ret := fun f t => match f with RT_err => "-1" | _ => pretty (u_rval t) end;
  fmt_elapsed := fun _ => EmptyString;
  aux_text := fun _ => EmptyString;
  klong_small := fun _ => false;
  sprintsigname := fun n => pretty n;
  printsiginfo := fun _ => "{...}";
  tracing_paths := false;
  pathtrace_match := fun _ => true;
  inject_vec := fun _ => Some demo_inject;
  retval_vec := mk_arena [7; 5] 2;
  delay_data_vec := mk_arena [mk_delay (mk_ts 1 0) (mk_ts 0 0)] 1;
  poke_data_vec := mk_arena [] 0;
  ptrace_get_syscall_info_supported := true;
  ptrace_set_syscall_info_supported := true;
  arch_needs_set_error_for_scno_tampering := false;
|}.

(** ** States *)

Definition attached (p : Z) : tcb := set_outf (File shared_log) (flag_on TCB_ATTACHED (set_pid p tcb0)).

Definition start (tab : list tcb) (k : script) : st :=
  mk_st tab (lenZ (List.filter (fun t => negb (pid t =? 0)) tab)) None None 0 ∅ [] None 0 [] sci_cleared
    (-1) false false 0 false 0 0 0 (-1) [] [] k [].

(** The file contents of a run that ended. *)
Definition text {A} (r : result A) : option string :=
  match r with
  | Done _ s => Some (String.concat EmptyString (map snd (log s)))
  | _ => None
  end.

Definition sent {A} (r : result A) : list request :=
  match r with Done _ s => map fst (requests s) | _ => [] end.

Definition stop_sc (p : Z) : Z * Z := (p, W_STOPCODE 133).
Definition exit_of (p code : Z) : Z * Z := (p, W_EXITCODE code 0).
Definition entry (nr : Z) : syscall_info := mk_sci PTRACE_SYSCALL_INFO_ENTRY nr false 0.
Definition leave (v : Z) : syscall_info := mk_sci PTRACE_SYSCALL_INFO_EXIT 0 (v <? 0) v.

(** A plain run: two tracees, one syscall each, interleaved. *)
Definition two_tracees : st :=
  start [attached 100; attached 101]
    (mk_script [stop_sc 100; stop_sc 101; (0, 0); stop_sc 101; (0, 0); stop_sc 100; (0, 0);
                exit_of 100 0; exit_of 101 3; (0, 0)]
       [entry 20; entry 21; leave 5; leave (-2)] 0 0).

Example interleaved_run :
  text (run_tracer true 20 two_tracees)
  = Some ("100   call(args <unfinished ...>" ++ nl
       ++ "101   call(args)                        = 5" ++ nl
       ++ "100   <... call resumed>)               = -1" ++ nl
       ++ "100   +++ exited with 0 +++" ++ nl
       ++ "101   +++ exited with 3 +++" ++ nl)%string.
Proof. vm_compute. reflexivity. Qed.

(** ** The theorems on these runs *)

Lemma start_inv tab k :
  base.NoDup (live (map pid tab)) -> Forall (fun p => 0 <= p) (map pid tab) ->
  inv (start tab k).
Proof.
  intros Hnd Hnn. split; try done.
  - change (lenZ (List.filter (fun t => negb (pid t =? 0)) tab) = lenZ (live (map pid tab))).
    clear. unfold lenZ. f_equal. induction tab as [|t tab IH]; [done|]. cbn [List.filter map].
    unfold live in *. rewrite filter_cons. destruct (Z.eqb_spec (pid t) 0) as [->|Hne]; cbn [negb].
    + rewrite decide_False by auto. exact IH.
    + rewrite decide_True by done. cbn [length]. by rewrite IH.
  - constructor.
Qed.

Lemma two_tracees_inv : inv two_tracees.
Proof.
  apply start_inv; [|repeat constructor; vm_compute; congruence].
  apply (bool_decide_unpack _). vm_compute. exact I.
Qed.

Lemma alloctcb_correct_witness :
  exists i s', alloctcb 102 two_tracees = Done i s' /\ inv s' /\ pids s' !! i = Some 102.
Proof.
  destruct (alloctcb_correct 102 two_tracees) as (i & s' & H & Hi & Hp & _).
  - apply two_tracees_inv.
  - lia.
  - intros Hin. apply list_elem_of_In in Hin. vm_compute in Hin. intuition congruence.
  - vm_compute. reflexivity.
  - exists i, s'. split; [exact H|]. split; [exact Hi|exact Hp].
Defined.


(** The first round of waiting of the run. *)
Definition first_wait : reply := fst (scripted_wait (kernel two_tracees)).
Definition after_first_wait : st := set_kernel (snd (scripted_wait (kernel two_tracees))) two_tracees.


(** A tracee stopped by a signal. *)
Definition signalled_state : st := Tcb.set_current_tcp (Some 0%nat) (start [attached 100] (mk_script [] [] 0 0)).


(** An entering and an exiting stop of the call 20. *)
Definition at_entry : st := start [attached 100] (mk_script [] [entry 20] 0 0).


(** A tracee at the exit of a call that failed with ENOSYS. *)
Definition at_exit (fl : Z) : st :=
  set_ptrace_sci (leave (-38))
    (start [flag_on fl (Tcb.set_scno 2 (set_u_error 38
              (set_tcb_inject_vec {[ 0 := demo_inject ]} (attached 100))))] (mk_script [] [] 0 0)).


Lemma stale_no_fail_mark_witness :
  let s := at_exit (Z.lor TCB_INSYSCALL (Z.lor TCB_TAMPERED TCB_TAMPERED_NO_FAIL)) in
  tamper_with_syscall_exiting 0 s = Done 1 s.
Proof.
  refine (proj1 (stale_no_fail_mark (SY := demo_syscalls) 0 _ (nth 2 demo_inject (nth 0 demo_inject demo_opts)) _ _ _ _ _ _ _)).
  all: try reflexivity. vm_compute; lia.
Defined.

(** Two delayed tracees at time 5: the delay of the first is over. *)
Definition delayed_tcb (p at_sec : Z) : tcb :=
  set_delay_expiration_time (mk_ts at_sec 0) (flag_on TCB_DELAYED (attached p)).
Definition two_delayed : st := start [delayed_tcb 100 3; delayed_tcb 101 8] (mk_script [] [] 0 5).

Lemma delayed_tcbs_restarted_witness :
  match restart_delayed_tcbs true 9 two_delayed with
  | Done true s' => delayed s' 0 = false /\ delayed s' 1 = true
      /\ map fst (requests s')
         = [ClockMonotonic; Ptrace PTRACE_SYSCALL 100 0; TimerSettime (mk_ts 8 0)]
  | _ => False
  end.
Proof.
  destruct (restart_delayed_tcbs true 9 two_delayed) as [b s'| |] eqn:E; [|vm_compute in E; discriminate..].
  destruct b; [|vm_compute in E; discriminate].
  destruct (delayed_tcbs_restarted true 9 two_delayed s' E eq_refl) as (clk & rs & arm & _ & _ & Hd & _).
  pose proof (Hd 0%nat) as H0. vm_compute in E. injection E as <-.
  split; [vm_compute; reflexivity|]. split; vm_compute; reflexivity.
Defined.

(** ** Where the loop does not do what it means to *)

(** Call 3 is injected a signal and a delay: the entering stop. *)
Definition before_delayed_call : st :=
  Tcb.set_current_tcp (Some 0%nat) (start [attached 100] (mk_script [] [entry 3] 0 0)).
Definition syscall_stop : tcb_wait_data := mk_wd TE_SYSCALL_STOP (W_STOPCODE 133) 0.

Lemma delayed_signal_lost_witness :
  match trace_syscall 0 0 before_delayed_call, dispatch_event true 9 (Some syscall_stop) before_delayed_call with
  | Done (_, sig) s1, Done b s2 =>
      sig = 10 /\ b = true
      /\ match restart_delayed_tcb true 9 0 s2 with
         | Done _ s3 => exists op rep, requests s3 = requests s2 ++ [(Ptrace op 100 0, rep)]
         | _ => False
         end
  | _, _ => False
  end.
Proof.
  destruct (trace_syscall 0 0 before_delayed_call) as [[res sig] s1| |] eqn:E1; [|vm_compute in E1; discriminate..].
  destruct (dispatch_event true 9 (Some syscall_stop) before_delayed_call) as [b s2| |] eqn:E2;
    [|vm_compute in E2; discriminate..].
  assert (Hs : sig = 10 /\ res = 0 /\ current_tcp s1 = Some 0%nat /\ interrupted s1 = 0
               /\ length (tcbtab s1) = 1%nat /\ flag TCB_DELAYED (tcb_at s1 0) = true /\ pid (tcb_at s1 0) = 100).
  { vm_compute in E1. injection E1 as <- <- <-. repeat split. }
  destruct Hs as (-> & -> & Hc & Hi & Hl & Hf & Hp).
  destruct (delayed_signal_lost true 9 syscall_stop before_delayed_call 0 0 10 s1 b s2 eq_refl eq_refl E1
    ltac:(lia) Hc Hi ltac:(lia) Hf E2) as (Hb & _ & H3). rewrite Hp in H3.
  split; [reflexivity|]. split; [exact Hb|].
  destruct (restart_delayed_tcb true 9 0 s2) as [b' s3| |] eqn:E3; [exact (H3 b' s3 eq_refl)|..];
    vm_compute in E2; injection E2 as <- <-; vm_compute in E3; discriminate.
Defined.

(** The thread 101 of the process 100 calls execve and the process is killed
    before the exec event is handled: both events have the leader's pid and
    the second is the extra event. *)
Definition exec_event (p : Z) : Z * Z := (p, W_STOPEVENT SIGTRAP PTRACE_EVENT_EXEC).
Definition killed (p : Z) : Z * Z := (p, W_EXITCODE 0 SIGKILL).
Definition exec_then_kill (w : list (Z * Z)) : st :=
  start [attached 100; flag_on TCB_INSYSCALL (attached 101)] (mk_script w [] 101 0).

(** The state when the leader's tcb is about to be dropped. *)
Definition before_switch : st :=
  set_extra_tcp (Some 0%nat) (exec_then_kill []).

Lemma stale_extra_event_witness :
  match switch_tcbs 0 1 100 101 before_switch with
  | Done _ s' => extra_tcp s' = Some 0%nat /\ pids s' = [0; 100]
  | _ => False
  end
  /\ run_tracer true 20 (exec_then_kill [exec_event 100; killed 100]) = Fatal "write to a null stream"
  /\ text (run_tracer true 20 (exec_then_kill [exec_event 100; (0, 0); killed 100]))
     = Some ("100   +++ superseded by execve in pid 101 +++" ++ nl
             ++ "100   +++ killed by 9 +++" ++ nl)%string.
Proof.
  split; [|split; vm_compute; reflexivity].
  destruct (switch_tcbs 0 1 100 101 before_switch) as [a s'| |] eqn:E; [|vm_compute in E; discriminate..].
  destruct (stale_extra_event true 9 0 1 100 101 101 before_switch a s' E) as (Hx & _ & _).
  - assert (H : inv (exec_then_kill [])).
    { apply start_inv; [|repeat constructor; vm_compute; congruence].
      apply (bool_decide_unpack _). vm_compute. exact I. }
    destruct H. by split.
  - reflexivity.
  - reflexivity.
  - lia.
  - reflexivity.
  - lia.
  - lia.
  - split; [exact Hx|]. vm_compute in E. injection E as <- <-. reflexivity.
Defined.

(** A call with an injected number, then a call with an injected error: the
    second one is reported as not tampered with and its error is not set,
    while it is when the calls come alone. *)
Definition tampered_calls (calls : list syscall_info) (n : nat) : st :=
  start [attached 100] (mk_script (concat (replicate n [stop_sc 100; (0, 0)]) ++ [exit_of 100 0; (0, 0)]) calls 0 0).

Example no_fail_mark_run :
  text (run_tracer true 20 (tampered_calls [entry 2; leave (-38)] 2))
  = Some ("100   open(args)                        = -1 (INJECTED)" ++ nl ++ "100   +++ exited with 0 +++" ++ nl)%string
  /\ map (fun q => match q with SetSyscallInfo _ i => exit_rval i | _ => 0 end)
       (List.filter (fun q => match q with SetSyscallInfo _ i => sci_op i =? PTRACE_SYSCALL_INFO_EXIT | _ => false end)
          (sent (run_tracer true 20 (tampered_calls [entry 2; leave (-38)] 2)))) = [-5]
  /\ map (fun q => match q with SetSyscallInfo _ i => exit_rval i | _ => 0 end)
       (List.filter (fun q => match q with SetSyscallInfo _ i => sci_op i =? PTRACE_SYSCALL_INFO_EXIT | _ => false end)
          (sent (run_tracer true 20 (tampered_calls [entry 1; leave 100; entry 2; leave (-38)] 4)))) = [7].
Proof. vm_compute. repeat split. Qed.
